(* ===== verification/_CoqProject ===== *)
-Q . S2P
Prelude.v
Velocity.v
Policy.v
Ordered.v
CommitInfo.v
Types.v
Bitcoin.v
Script.v
Secrets.v
Enforcement.v
SimpleValidator.v
Validator.v
NodeState.v
NodeSafety.v
Channel.v
ChannelSafety.v
TxValidator.v
TxSafety.v
ChannelTx.v
ChannelTxSafety.v
Monitor.v
Tracker.v
ChainSafety.v
TrackerSafety.v
BTree.v
Kvv.v
KvvSpec.v
KvvTx.v
KvvSafety.v
KvvTxSafety.v
Persister.v
PersisterSafety.v
Node.v
NodeChannels.v
NodeRestore.v
Approver.v
Wire.v
Messages.v
Withdrawal.v
Handler.v
HandlerSafety.v
WithdrawalSafety.v
ChaCha.v
Lss.v
LssSpec.v
LssSafety.v
SignerLoop.v
SignerLoopSafety.v
DaemonStore.v
CryptoUtils.v
ChannelSigner.v
ChannelRecovery.v
Recovery.v
RecoverySafety.v
Follower.v
FollowerSafety.v
KeyDerive.v
KeySafety.v
