(* ===== verification/Prelude.v ===== *)
(** * Verification of the validating Lightning signer

    The program is a remote signer for Lightning nodes: it holds the keys and
    signs only what passes its own checks.  A request arrives at the *daemon*
    ([vlsd]), which opens a transaction of the *persister* ([vls-persist]) and
    passes the request to a *handler* ([vls-protocol-signer]).  The handler calls
    the *node* ([vls-core/src/node.rs]) or one of its *channels*
    ([vls-core/src/channel.rs]).  A channel signs the counterparty's commitments,
    validates the holder's, revokes and closes: it asks a *validator*
    ([vls-core/src/policy/]) whether the commitment respects the policy and the
    *node state* whether the payments in it are balanced, and only then advances
    its *enforcement state*.  A *tracker* ([vls-core/src/chain/tracker.rs])
    follows the chain, driven by the front end ([vls-frontend]), and tells the
    *monitor* of each channel ([vls-core/src/monitor.rs]) of its blocks; the
    depths that the monitor reports are what the on-chain validator checks.  What
    a request wrote goes to a *storage server* ([lightning-storage-server]) before
    the transaction commits and the reply is sent.

    ** Files

    Core data and policy:
    - [Prelude]: build profiles, the outcome monad [res], methods on a state and
      their weakest preconditions, integers at their width, loops, generic
      lemmas, tactics, hint databases.
    - [Velocity]: [util/velocity.rs].  Sliding-window spending limits.
    - [Policy]: [policy/error.rs], [policy/filter.rs], [policy/mod.rs],
      [util/status.rs].  Error kinds, and the filter that turns an error into a
      warning.  The trait [Policy] is a class.
    - [Ordered]: the trait [Ord] as a class, sorting, and [AddedItemsIter] of
      [util/mod.rs].
    - [CommitInfo]: [HTLCInfo2] and [CommitmentInfo2] of [tx/tx.rs].
    - [Types]: channel identifiers, [ChannelSetup], balances.
    - [Bitcoin], [Script]: transactions, the parsers of [tx/script.rs] and the
      decoding of commitment transactions of [tx/tx.rs].
    - [Secrets]: [CounterpartyCommitmentSecrets] of [policy/validator.rs], the
      compact storage of revocation secrets.
    - [Enforcement]: [EnforcementState] and the default methods of the trait
      [Validator] of the same file.
    - [SimpleValidator]: the policy and the commitment, revocation and payment
      checks of [policy/simple_validator.rs].
    - [Validator]: the trait as a class, the laws that its clients rely on as a
      second class, instances for the simple validator and for the on-chain
      validator of [policy/onchain_validator.rs].
    - [TxValidator], [TxSafety]: the checks of whole transactions in
      [policy/simple_validator.rs]: on-chain, mutual close, second level, sweeps.

    Node and channels:
    - [NodeState], [NodeSafety]: [NodeState] of [node.rs] and the operations of
      [Node] on it: payments, preimages, invoices, pruning, allowlist.
    - [Channel], [ChannelSafety]: the operations of [Channel] that change state or
      release secrets, and what a channel guarantees over every sequence of calls.
    - [ChannelTx], [ChannelTxSafety]: the operations that receive a transaction.
    - [Node], [NodeChannels], [NodeRestore]: the channel map of a node, with slots
      and monitors as shared references; set-up, splices, forgetting, pruning and
      the restart.
    - [CryptoUtils], [ChannelSigner]: [util/crypto_utils.rs] and
      [signer/vls_channel_signer.rs], the keys of a channel.
    - [KeyDerive], [KeySafety]: [signer/derive.rs] and
      [signer/my_keys_manager.rs], where these keys come from, and the spending of
      outputs of closed channels.

    Chain:
    - [Monitor], [Tracker], [ChainSafety], [TrackerSafety]: the chain monitor,
      from the decoding of a block to the changes of its state, forward and
      backward, and [ChainTracker].  The trait [ChainListener] is a class with an
      instance for the monitor.
    - [Follower], [FollowerSafety]: [vls-frontend] and the in-process front of
      [vls-proxy]: the follower of the chain and the monitor of heartbeats.

    Storage:
    - [BTree], [Kvv], [KvvSpec], [KvvSafety]: the versioned stores of
      [vls-persist], their contract on finite maps and programs over a store.
    - [KvvTx], [KvvTxSafety]: the transactional and the cloud store.
    - [Persister], [PersisterSafety]: the trait [Persist] and its persisters.
    - [ChaCha], [Lss], [LssSpec], [LssSafety]: the storage server, its client and
      the cipher that seals the values.

    Protocol and daemon:
    - [Approver]: payment approval.
    - [Wire], [Messages]: framing, requests and replies of [vls-protocol].
    - [Withdrawal], [Handler], [HandlerSafety], [WithdrawalSafety]: the handlers.
    - [SignerLoop], [SignerLoopSafety], [DaemonStore]: the request loop of the
      daemon, its start, and the proof that the handlers of [Handler] write as the
      loop expects.
    - [ChannelRecovery], [Recovery], [RecoverySafety]: recovering the funds of a
      node without the rest of the node.

    ** Correspondence

    A Rust struct is a [Record] and an enum an [Inductive] with the same names.
    A function that returns [Result] or may panic returns [res E A], which is
    [Ok], [Err] or [Panic].  A method with [&mut self] returns the new state, or
    is a [method] that threads it; the state after an error is kept, so partial
    effects are visible.  An unsigned integer is a [Z]; unchecked arithmetic is
    [add_u64] and the like, which panic or wrap according to the class
    [Profile].  Maps are [gmap]; the unspecified order in which a Rust set is
    iterated is a parameter [set_iter] with the same elements.  Shared objects are
    references into a store ([Node]).  In the channel files the outcome of writing
    the channel is a parameter [persist]; in [Node] and above, writes reach the
    store of the persister.  Keys, hashes, signatures, scripts and transaction ids
    are integers.  Log output and message texts are left out.

    Code of other packages is a parameter, most of it the methods of a class:
    SHA-256 and HMAC, [BitcoinLib] and [LightningLib], [ChanUtils] and [SecpSign]
    for the arithmetic of keys and signatures, [KeyPackages] for BIP 32,
    [InvoiceAttributes], [ChainPackages] for headers, proofs and the block
    decoder, serialization below [Persister] and [Lss], [RequestCodec] and
    [DeBolt] for the bytes of messages, the explorer of [Recovery] and the source
    of blocks of [Follower].  Their laws are classes or named hypotheses, and each
    has an instance.

    ** Theorems

    - [Velocity]: in every run the accepted amount of each window is bounded by
      the limit; the buckets refine a history of dated amounts; a clock that goes
      back resets the control.
    - [Policy], [Ordered], [Types], [CommitInfo]: which rule of a merged filter
      wins, the added items are the multiset difference, identifiers survive their
      encoding, balances add up to the commitment.
    - [Secrets]: each accepted secret is returned by a later lookup, and the
      secrets of an honest counterparty are always accepted.
    - [SimpleValidator], [Validator], [Script], [TxSafety]: what an accepted
      commitment, on-chain transaction, close or sweep satisfies; the burial
      requirement of the on-chain validator; that a retried signature is for the
      same commitment.
    - [NodeSafety]: in every reachable state no approved invoice is overpaid;
      validated payments are balanced; preimages are idempotent.
    - [ChannelSafety], [ChannelTxSafety]: an invariant by induction on the step
      relation [chan_step], whose steps are the calls with every outcome: no
      signature on a revoked commitment, no early release of a secret.  Signing is
      atomic.  The forms that decode a transaction refine those that build it.
      Counterexamples show a signed commitment that is then revoked, a secret
      guard that wraps and a rejected splice that takes effect, among others.
    - [NodeChannels], [NodeRestore]: ids of forgotten channels are not used
      again, pruning removes exactly the finished channels, and a restart
      restores the node.
    - [ChainSafety], [TrackerSafety], [FollowerSafety]: removing a block undoes
      adding it and where it does not; the headers of every reachable tracker are
      linked; the follower reaches the best tip; a silent signer is noticed.
    - [KvvSafety], [KvvTxSafety], [PersisterSafety]: the redb store runs every
      program as the memory store, transactions are atomic, and the channels that
      were persisted are those that a restart finds.
    - [ChaCha], [LssSafety]: the cipher is that of RFC 8439; a client of an honest
      server sees a versioned map of its own values.
    - [HandlerSafety], [WithdrawalSafety], [Wire]: a request is a sequence of the
      calls of the node files, so their invariants hold along a connection; the
      request of one channel leaves the others; a withdrawal is signed only after
      the policy or the approver allowed it; frames are read as they were written.
    - [SignerLoopSafety], [DaemonStore]: between requests the local store and the
      storage server hold the same entries, and a restart catches up.
    - [CryptoUtils], [ChannelSigner]: the key derivation function is that of
      RFC 5869; the signatures of a channel are those that its peer accepts.
    - [KeySafety]: a restarted manager finds the keys of its channels in two of
      the three styles, and how it does not in the third; the bound on random
      bytes; outputs are spent with the keys of their channels.
    - [RecoverySafety]: which transactions a recovery sends, which outputs they
      spend and what fees they pay; and that fee inputs added to a batch leave its
      signatures stale.

    The theorems on channels and nodes hold for every validator with
    [ValidatorLaws] that is strict, that is, whose filter turns no error into a
    warning.  Numbers are assumed below 2^62 there, which a channel with 2^48
    commitments cannot reach.

    ** Fuel

    Most loops of the source run over a list or a counter and are structural
    here.  Where they consume a buffer in pieces (the cipher, the key derivation,
    the text form of signatures, groups of outputs) the fuel is the length of the
    buffer, and the theorems that compare them with a reference show that it is
    enough.  Grinding a signature may draw forever: [sign_with_aux_rand] takes
    fuel, a theorem says how much is enough, and running out is a panic in
    [grind].  A tick of the follower takes fuel; its theorem gives the number of
    updates after which it ends.

    ** Not modelled

    - Network, process and device code: the gRPC streams, reconnection, the serial
      line, the front over a remote port, the command lines, the embedded, STM32
      and wasm signers, and the postgres backend.  What they do is I/O.
    - The derived encodings of messages and of stored entries: a macro of another
      package generates them.
    - The test node [lnrod], the client adapters, tracing, tests and fuzzing.
    - The null validator, which accepts everything, and the map of nodes of
      [signer/multi_signer.rs], which only an in-process front and tests use.
    - The estimate of a fee rate from floating point numbers in the recovery, and
      the texts and summaries that are only logged. *)
From stdpp Require Export base list option strings gmap sorting.
From Stdlib Require Export ZArith Lia.

#[global] Open Scope Z_scope.

(** ** Build profile

    Unchecked [+], [-] and [*] on Rust integers panic when the crate is built
    with overflow checks (the dev and test profiles) and wrap around otherwise
    (the release profile; no Cargo.toml of the repository sets the flag).  The
    model is parametric in the profile. *)
Class Profile := overflow_checks : bool.

Definition debug_profile : Profile := true.
Definition release_profile : Profile := false.

(** ** Outcomes of fallible code

    [Ok] and [Err] are the two constructors of [Result]; [Panic] is an
    unwinding ([assert!], [unwrap]/[expect] on nothing, an index out of range,
    a checked overflow). *)
Inductive res (E A : Type) : Type :=
| Ok (a : A)
| Err (e : E)
| Panic.
Arguments Ok {E A} a.
Arguments Err {E A} e.
Arguments Panic {E A}.

#[export] Instance res_ret (E : Type) : MRet (res E) := fun A a => Ok a.
#[export] Instance res_bind (E : Type) : MBind (res E) := fun A B f m =>
  match m with Ok a => f a | Err e => Err e | Panic => Panic end.
#[export] Instance res_fmap (E : Type) : FMap (res E) := fun A B f m =>
  match m with Ok a => Ok (f a) | Err e => Err e | Panic => Panic end.

Definition is_ok {E A : Type} (m : res E A) : bool :=
  match m with Ok _ => true | _ => false end.

(** [Option::ok_or] and [Option::unwrap]/[expect]. *)
Definition ok_or {E A : Type} (e : E) (o : option A) : res E A :=
  match o with Some a => Ok a | None => Err e end.

Definition unwrap {E A : Type} (o : option A) : res E A :=
  match o with Some a => Ok a | None => Panic end.

(** [Result::map_err]; the [?] operator's [From] conversion is an instance. *)
Definition map_err {E F A : Type} (f : E -> F) (m : res E A) : res F A :=
  match m with Ok a => Ok a | Err e => Err (f e) | Panic => Panic end.

(** [assert!]. *)
Definition rassert {E : Type} (b : bool) : res E unit :=
  if b then Ok tt else Panic.

(** [if c { s }] for a statement [s]. *)
Definition when {E : Type} (c : bool) (s : res E unit) : res E unit :=
  if c then s else Ok tt.

(** [for x in l { body }] without and with an accumulator. *)
Fixpoint for_each {E A : Type} (body : A -> res E unit) (l : list A) : res E unit :=
  match l with
  | [] => Ok tt
  | x :: l' => body x ;; for_each body l'
  end.

Fixpoint fold_res {E A B : Type} (body : B -> A -> res E B) (b : B) (l : list A) : res E B :=
  match l with
  | [] => Ok b
  | x :: l' => b' ← body b x; fold_res body b' l'
  end.

(** A loop whose body leaves the function with [None] by [?] on an option. *)
Fixpoint fold_opt {A B : Type} (body : B -> A -> option B) (b : B) (l : list A) : option B :=
  match l with
  | [] => Some b
  | x :: l' => b' ← body b x; fold_opt body b' l'
  end.

(** [iter().map(f).collect::<Result<_, _>>()]. *)
Fixpoint map_res {E A B : Type} (f : A -> res E B) (l : list A) : res E (list B) :=
  match l with
  | [] => Ok []
  | x :: l' => y ← f x; ys ← map_res f l'; Ok (y :: ys)
  end.

(** ** Methods that change their object in place

    The state is returned together with the outcome, since what a method changed
    before it returned an error stays changed. *)
Definition method (S E A : Type) : Type := S -> S * res E A.

#[export] Instance method_ret (S E : Type) : MRet (method S E) := fun A a s => (s, Ok a).
#[export] Instance method_bind (S E : Type) : MBind (method S E) := fun A B f m s =>
  match m s with
  | (s', Ok a) => f a s'
  | (s', Err e) => (s', Err e)
  | (s', Panic) => (s', Panic)
  end.

Definition get_self {S E : Type} : method S E S := fun s => (s, Ok s).
Definition set_self {S E : Type} (s : S) : method S E unit := fun _ => (s, Ok tt).

(** A call that changes nothing. *)
Definition call {S E A : Type} (r : res E A) : method S E A := fun s => (s, r).

(** ** Machine integers

    A value of a [w]-bit unsigned type is an integer of [Z] in range. *)
Definition in_range (w z : Z) : bool := (0 <=? z) && (z <? 2 ^ w).
Definition uint (w z : Z) : Prop := 0 <= z < 2 ^ w.

Abbreviation u64 := (uint 64).
Abbreviation u32 := (uint 32).
Abbreviation u16 := (uint 16).

Definition umax (w : Z) : Z := 2 ^ w - 1.
Definition u64_max : Z := umax 64.
Definition u32_max : Z := umax 32.

(** The result of an unchecked operator whose exact value is [r]. *)
Definition arith `{Profile} {E : Type} (w r : Z) : res E Z :=
  if in_range w r then Ok r
  else if overflow_checks then Panic
  else Ok (r mod 2 ^ w).

Definition add_u64 `{Profile} {E : Type} (a b : Z) : res E Z := arith 64 (a + b).
Definition sub_u64 `{Profile} {E : Type} (a b : Z) : res E Z := arith 64 (a - b).
Definition mul_u64 `{Profile} {E : Type} (a b : Z) : res E Z := arith 64 (a * b).
Definition add_u32 `{Profile} {E : Type} (a b : Z) : res E Z := arith 32 (a + b).
Definition sub_u32 `{Profile} {E : Type} (a b : Z) : res E Z := arith 32 (a - b).

(** [/] and [%] panic on a zero divisor in both profiles. *)
Definition udiv {E : Type} (a b : Z) : res E Z := if b =? 0 then Panic else Ok (a / b).
Definition urem {E : Type} (a b : Z) : res E Z := if b =? 0 then Panic else Ok (a mod b).

Definition checked (w r : Z) : option Z := if in_range w r then Some r else None.
Definition checked_add (w a b : Z) : option Z := checked w (a + b).
Definition checked_sub (w a b : Z) : option Z := checked w (a - b).
Definition checked_mul (w a b : Z) : option Z := checked w (a * b).

Definition saturating_add (w a b : Z) : Z := Z.min (a + b) (umax w).
Definition saturating_sub (a b : Z) : Z := Z.max 0 (a - b).

(** [iter().sum::<u64>()]. *)
Definition sum_u64 `{Profile} {E : Type} (l : list Z) : res E Z := fold_res add_u64 0 l.

(** The mathematical sum. *)
Definition zsum (l : list Z) : Z := foldr Z.add 0 l.

#[global] Arguments arith : simpl never.
#[global] Arguments add_u64 : simpl never.
#[global] Arguments sub_u64 : simpl never.
#[global] Arguments mul_u64 : simpl never.
#[global] Arguments add_u32 : simpl never.
#[global] Arguments sub_u32 : simpl never.
#[global] Arguments checked : simpl never.
#[global] Arguments checked_add : simpl never.
#[global] Arguments checked_sub : simpl never.
#[global] Arguments checked_mul : simpl never.
#[global] Arguments saturating_add : simpl never.
#[global] Arguments saturating_sub : simpl never.
#[global] Arguments umax : simpl never.
#[global] Arguments zsum : simpl never.

(** The bytes of a literal text. *)
Definition text_bytes (s : string) : list Z := (fun a => Z.of_N (Ascii.N_of_ascii a)) <$> String.list_ascii_of_string s.

(** ** Hint databases and tactics *)
Create HintDb signer.
Create Rewrite HintDb signer.

(** Split every hypothesis [m ≫= f = Ok b] into its two parts. *)
Lemma bind_Ok {E A B : Type} (m : res E A) (f : A -> res E B) (b : B) :
  m ≫= f = Ok b -> exists a, m = Ok a /\ f a = Ok b.
Proof. destruct m; cbn; intros; try discriminate; eauto. Qed.

Lemma map_err_Ok {E F A : Type} (g : E -> F) (m : res E A) (a : A) :
  map_err g m = Ok a <-> m = Ok a.
Proof. destruct m; cbn; split; congruence. Qed.

Lemma ok_or_Ok {E A : Type} (e : E) (o : option A) (a : A) :
  ok_or e o = Ok a <-> o = Some a.
Proof. destruct o; cbn; split; congruence. Qed.

Lemma unwrap_Ok {E A : Type} (o : option A) (a : A) :
  @unwrap E A o = Ok a <-> o = Some a.
Proof. destruct o; cbn; split; congruence. Qed.

Lemma rassert_Ok {E : Type} (b : bool) (u : unit) :
  @rassert E b = Ok u <-> b = true.
Proof. destruct b, u; cbn; split; congruence. Qed.

(** Run the first call of a goal [m ≫= f = r] whose result a lemma gives. *)
Lemma bind_step {E A B : Type} (m : res E A) (f : A -> res E B) (a : A) (r : res E B) :
  m = Ok a -> f a = r -> m ≫= f = r.
Proof. by intros -> <-. Qed.

Tactic Notation "res_step" uconstr(lem) "by" tactic3(tac) :=
  eapply bind_step; [apply lem; tac|cbv beta].

Ltac res_inv_step :=
  match goal with
  | H : (?m ≫= _) = Ok _ |- _ =>
      let a := fresh "v" in let H1 := fresh "E" in
      apply bind_Ok in H; destruct H as (a & H1 & H)
  | H : map_err _ _ = Ok _ |- _ => rewrite map_err_Ok in H
  | H : ok_or _ _ = Ok _ |- _ => rewrite ok_or_Ok in H
  | H : unwrap _ = Ok _ |- _ => rewrite unwrap_Ok in H
  | H : rassert _ = Ok _ |- _ => rewrite rassert_Ok in H
  | H : Ok _ = Ok _ |- _ => injection H as H
  | H : Err _ = Ok _ |- _ => discriminate H
  | H : Panic = Ok _ |- _ => discriminate H
  | H : mret _ = Ok _ |- _ => injection H as H
  end.
Ltac res_inv := repeat res_inv_step; subst.

(** The same for methods. *)
Lemma method_Ok {S E A B : Type} (m : method S E A) (f : A -> method S E B) (s s' : S) (b : B) :
  (m ≫= f) s = (s', Ok b) -> exists s1 a, m s = (s1, Ok a) /\ f a s1 = (s', Ok b).
Proof. unfold mbind, method_bind. destruct (m s) as [s1 [a|e|]]; intros; try discriminate; eauto. Qed.

(** A call at the head of a method: it returns, or the method stops with the
    object as it is. *)
Lemma call_cases {S E A B : Type} (r : res E A) (f : A -> method S E B) (s s' : S) (o : res E B) :
  (call r ≫= f) s = (s', o) ->
  (exists a, r = Ok a /\ f a s = (s', o)) \/ s' = s /\ is_ok o = false.
Proof.
  unfold mbind, method_bind, call. destruct r as [a|e|]; [by eauto|intros [= <- <-]; by right..].
Qed.

(** Run the first step of a method in a hypothesis [m s = (s', o)]. *)
Lemma get_bind {S E B : Type} (f : S -> method S E B) (s : S) : (get_self ≫= f) s = f s s.
Proof. done. Qed.

Lemma call_Ok_bind {S E A B : Type} (a : A) (f : A -> method S E B) (s : S) : (call (Ok a) ≫= f) s = f a s.
Proof. done. Qed.

Lemma call_Panic_bind {S E A B : Type} (f : A -> method S E B) (s : S) : (call Panic ≫= f) s = (s, Panic).
Proof. done. Qed.

Lemma set_bind {S E B : Type} (s1 : S) (f : unit -> method S E B) (s : S) : (set_self s1 ≫= f) s = f tt s1.
Proof. done. Qed.

(** A step with a known outcome. *)
Lemma run_bind {S E A B : Type} (m : method S E A) (f : A -> method S E B) s s1 a :
  m s = (s1, Ok a) -> (m ≫= f) s = f a s1.
Proof. intros Hm. unfold mbind, method_bind. by rewrite Hm. Qed.

Lemma run_panic {S E A B : Type} (m : method S E A) (f : A -> method S E B) s :
  (m s).2 = Panic -> ((m ≫= f) s).2 = Panic.
Proof. unfold mbind, method_bind. by destruct (m s) as [s1 [a|e|]]. Qed.

Lemma method_cases {S E A B : Type} (m : method S E A) (f : A -> method S E B) (s s' : S) (o : res E B) :
  (m ≫= f) s = (s', o) ->
  (exists a s1, m s = (s1, Ok a) /\ f a s1 = (s', o)) \/
  (exists r, m s = (s', r) /\ is_ok r = false /\ is_ok o = false).
Proof.
  unfold mbind, method_bind. destruct (m s) as [s1 [a|e|]] eqn:Hm; intros Hf; [left; by eauto|right..].
  - injection Hf as <- <-. by exists (Err e).
  - injection Hf as <- <-. by exists Panic.
Qed.

Ltac run_step H a E :=
  apply call_cases in H; destruct H as [(a & E & H)|[H Ho]]; cbv beta iota in H.
Ltac run_end H := unfold mret, method_ret, call in H; by simplify_eq.
Ltac run_get H := rewrite get_bind in H; cbv beta iota zeta in H.

(** *** Weakest preconditions of methods *)
Definition wp {S E A : Type} (m : method S E A) (Q : res E A -> S -> Prop) (s : S) : Prop := Q (m s).2 (m s).1.

Section Wp.
Context {S E : Type}.

Lemma wp_run {A : Type} (m : method S E A) (Q : res E A -> S -> Prop) (s s' : S) (o : res E A) :
  wp m Q s -> m s = (s', o) -> Q o s'.
Proof. intros Hw Hm. by unfold wp in Hw; rewrite Hm in Hw. Qed.

Lemma wp_mono {A : Type} (m : method S E A) (Q Q' : res E A -> S -> Prop) (s : S) :
  wp m Q s -> (forall o s', Q o s' -> Q' o s') -> wp m Q' s.
Proof. intros Hw HQ. by apply HQ. Qed.

Lemma wp_bind {A B : Type} (m : method S E A) (f : A -> method S E B) (Q : res E B -> S -> Prop) (s : S) :
  wp m (fun r s' => match r with Ok a => wp (f a) Q s' | Err e => Q (Err e) s' | Panic => Q Panic s' end) s ->
  wp (m ≫= f) Q s.
Proof. unfold wp, mbind, method_bind. by destruct (m s) as [s' [a|e|]]. Qed.

Lemma wp_assoc {A B C : Type} (m : method S E A) (f : A -> method S E B) (g : B -> method S E C)
    (Q : res E C -> S -> Prop) (s : S) :
  wp (m ≫= fun a => f a ≫= g) Q s -> wp ((m ≫= f) ≫= g) Q s.
Proof. unfold wp, mbind, method_bind. by destruct (m s) as [s' [a|e|]]. Qed.

Lemma wp_ret_bind {A B : Type} (a : A) (f : A -> method S E B) (Q : res E B -> S -> Prop) (s : S) :
  wp (f a) Q s -> wp (mret a ≫= f) Q s.
Proof. done. Qed.

Lemma wp_get {B : Type} (f : S -> method S E B) (Q : res E B -> S -> Prop) (s : S) :
  wp (f s) Q s -> wp (get_self ≫= f) Q s.
Proof. done. Qed.

Lemma wp_set {B : Type} (s1 : S) (f : unit -> method S E B) (Q : res E B -> S -> Prop) (s : S) :
  wp (f tt) Q s1 -> wp (set_self s1 ≫= f) Q s.
Proof. done. Qed.

Lemma wp_call {A B : Type} (r : res E A) (f : A -> method S E B) (Q : res E B -> S -> Prop) (s : S) :
  (forall a, r = Ok a -> wp (f a) Q s) -> (forall o, is_ok o = false -> Q o s) -> wp (call r ≫= f) Q s.
Proof. intros Ha He. destruct r as [a|e|]; [by apply Ha|by apply He..]. Qed.

Lemma wp_ret {A : Type} (a : A) (Q : res E A -> S -> Prop) (s : S) : Q (Ok a) s -> wp (mret a) Q s.
Proof. done. Qed.

Lemma wp_end {A : Type} (r : res E A) (Q : res E A -> S -> Prop) (s : S) : Q r s -> wp (call r) Q s.
Proof. done. Qed.
End Wp.

Lemma call_Ok {S E A B : Type} (r : res E A) (f : A -> method S E B) (s s' : S) (b : B) :
  (call r ≫= f) s = (s', Ok b) -> exists a, r = Ok a /\ f a s = (s', Ok b).
Proof. intros H. apply call_cases in H as [?|[_ ?]]; done. Qed.

Lemma for_each_Ok {E A : Type} (body : A -> res E unit) (l : list A) :
  for_each body l = Ok tt <-> Forall (fun x => body x = Ok tt) l.
Proof.
  induction l as [|x l IH]; cbn; [split; auto|].
  rewrite Forall_cons, <- IH.
  destruct (body x) as [[]| |]; cbn; split; try tauto; try discriminate;
    intros [? ?]; discriminate.
Qed.

(** A loop keeps what each iteration keeps. *)
Lemma fold_res_invariant {E A B : Type} (P : B -> Prop) (body : B -> A -> res E B) (l : list A) :
  (forall b x b', x ∈ l -> P b -> body b x = Ok b' -> P b') ->
  forall b b', P b -> fold_res body b l = Ok b' -> P b'.
Proof.
  induction l as [|x l IH]; cbn; intros Hstep b b' Hb H; res_inv; [done|].
  eapply IH; [|eapply (Hstep b x); eauto; set_solver|exact H].
  intros; eapply Hstep; eauto; set_solver.
Qed.

Lemma fold_opt_ext {A B : Type} (f g : B -> A -> option B) (l : list A) (b : B) :
  (forall b x, f b x = g b x) -> fold_opt f b l = fold_opt g b l.
Proof.
  intros Hfg. revert b. induction l as [|x l IH]; intros b; cbn; [done|].
  rewrite Hfg. destruct (g b x); cbn; [apply IH|done].
Qed.

Lemma Forall_filter_sub {A : Type} (P Q : A -> Prop) `{!forall x, Decision (Q x)} (l : list A) :
  Forall P l -> Forall P (filter Q l).
Proof. rewrite !Forall_forall. intros Hl x Hx. apply list_elem_of_filter in Hx as [_ Hx]. auto. Qed.

Lemma list_fmap_const_seq {A : Type} (x : A) (i n : nat) :
  (fun _ => x) <$> seq i n = replicate n x.
Proof. revert i. induction n as [|n IH]; intros i; cbn; [done|]. by rewrite IH. Qed.

(** *** Integers *)
Lemma in_range_spec (w z : Z) : in_range w z = true <-> uint w z.
Proof. unfold in_range, uint. lia. Qed.

Lemma arith_Ok `{Profile} {E : Type} (w r : Z) : uint w r -> @arith _ E w r = Ok r.
Proof. intros Hr. unfold arith. apply in_range_spec in Hr. by rewrite Hr. Qed.

Lemma add_u64_Ok `{Profile} {E : Type} (a b : Z) : u64 (a + b) -> @add_u64 _ E a b = Ok (a + b).
Proof. apply arith_Ok. Qed.

Lemma sub_u64_Ok `{Profile} {E : Type} (a b : Z) : u64 (a - b) -> @sub_u64 _ E a b = Ok (a - b).
Proof. apply arith_Ok. Qed.

Lemma add_u32_Ok `{Profile} {E : Type} (a b : Z) : u32 (a + b) -> @add_u32 _ E a b = Ok (a + b).
Proof. apply arith_Ok. Qed.

Lemma sub_u32_Ok `{Profile} {E : Type} (a b : Z) : u32 (a - b) -> @sub_u32 _ E a b = Ok (a - b).
Proof. apply arith_Ok. Qed.

Lemma mul_u64_Ok `{Profile} {E : Type} (a b : Z) : u64 (a * b) -> @mul_u64 _ E a b = Ok (a * b).
Proof. apply arith_Ok. Qed.

Lemma sub_u64_out `{Profile} {E : Type} (a b : Z) :
  ~ u64 (a - b) -> @sub_u64 _ E a b = if overflow_checks then Panic else Ok ((a - b) mod 2 ^ 64).
Proof.
  rewrite <- in_range_spec. unfold sub_u64, arith. destruct (in_range 64 (a - b)); [done|done].
Qed.

(** In either profile the result of an operator that returns is in range. *)
Lemma arith_uint `{Profile} {E : Type} (w r z : Z) :
  0 <= w -> @arith _ E w r = Ok z -> uint w z.
Proof.
  unfold arith. intros Hw. destruct (in_range w r) eqn:Hr.
  - intros [= <-]. by apply in_range_spec.
  - destruct overflow_checks; [done|]. intros [= <-]. unfold uint.
    apply Z.mod_pos_bound. apply Z.pow_pos_nonneg; lia.
Qed.

(** Wrapping never makes a non-negative result larger. *)
Lemma arith_le `{Profile} {E : Type} (w r z : Z) :
  0 <= w -> 0 <= r -> @arith _ E w r = Ok z -> z <= r.
Proof.
  unfold arith. intros Hw Hr. destruct (in_range w r); [intros [= <-]; lia|].
  destruct overflow_checks; [done|]. intros [= <-]. apply Z.mod_le; [done|].
  apply Z.pow_pos_nonneg; lia.
Qed.

Lemma add_u64_le `{Profile} {E : Type} (a b z : Z) :
  0 <= a + b -> @add_u64 _ E a b = Ok z -> z <= a + b.
Proof. intros Hr. apply arith_le; lia. Qed.

Lemma add_u64_uint `{Profile} {E : Type} (a b z : Z) : @add_u64 _ E a b = Ok z -> u64 z.
Proof. apply arith_uint. lia. Qed.

Lemma checked_Some (w r z : Z) : checked w r = Some z <-> z = r /\ uint w r.
Proof.
  unfold checked. rewrite <- in_range_spec.
  destruct (in_range w r); split; try (intros [? ?]); naive_solver.
Qed.

Lemma checked_None (w r : Z) : checked w r = None <-> ~ uint w r.
Proof. unfold checked. rewrite <- in_range_spec. destruct (in_range w r); split; congruence. Qed.

Lemma zsum_nil : zsum [] = 0.
Proof. done. Qed.

Lemma zsum_cons (x : Z) (l : list Z) : zsum (x :: l) = x + zsum l.
Proof. done. Qed.

#[export] Hint Rewrite zsum_nil zsum_cons : signer.

Lemma zsum_app (l1 l2 : list Z) : zsum (l1 ++ l2) = zsum l1 + zsum l2.
Proof. unfold zsum. induction l1; cbn; [done|]. lia. Qed.

Lemma zsum_nonneg (l : list Z) : Forall (fun z => 0 <= z) l -> 0 <= zsum l.
Proof. induction 1; unfold zsum in *; cbn; lia. Qed.

Lemma zsum_perm (l1 l2 : list Z) : l1 ≡ₚ l2 -> zsum l1 = zsum l2.
Proof. induction 1; unfold zsum in *; cbn; lia. Qed.

Lemma zsum_replicate0 (n : nat) : zsum (replicate n 0) = 0.
Proof. induction n; unfold zsum in *; cbn; lia. Qed.

Lemma zsum_take_drop (n : nat) (l : list Z) : zsum (take n l) + zsum (drop n l) = zsum l.
Proof. rewrite <- zsum_app. by rewrite take_drop. Qed.

(** The unchecked sum returns the mathematical one when that fits. *)
Lemma sum_u64_Ok_acc `{Profile} {E : Type} (l : list Z) (a : Z) :
  0 <= a -> Forall (fun z => 0 <= z) l -> a + zsum l < 2 ^ 64 ->
  fold_res (E:=E) add_u64 a l = Ok (a + zsum l).
Proof.
  intros Ha Hl. revert a Ha. induction Hl as [|x l Hx Hl IH]; intros a Ha Hb.
  - cbn [fold_res]. rewrite zsum_nil. f_equal. lia.
  - rewrite zsum_cons in *. cbn [fold_res]. pose proof (zsum_nonneg l Hl) as Hs.
    rewrite add_u64_Ok by (unfold uint; lia). cbn.
    rewrite IH by lia. f_equal. lia.
Qed.

Lemma sum_u64_Ok `{Profile} {E : Type} (l : list Z) :
  Forall (fun z => 0 <= z) l -> zsum l < 2 ^ 64 -> sum_u64 (E:=E) l = Ok (zsum l).
Proof. intros. unfold sum_u64. rewrite sum_u64_Ok_acc by (auto; lia). by rewrite Z.add_0_l. Qed.

(** A loop of checked additions is the mathematical sum when that fits, and
    fails exactly when it does not. *)
Lemma fold_checked_add {A : Type} (f : A -> option Z) (l : list A) (a : Z) :
  0 <= a < 2 ^ 64 -> Forall (fun x => forall z, f x = Some z -> 0 <= z) l ->
  fold_opt (fun b x => match f x with Some z => checked_add 64 b z | None => Some b end) a l
  = checked 64 (a + zsum (omap f l)).
Proof.
  intros Ha Hl. revert a Ha. induction Hl as [|x l Hx Hl IH]; intros a Ha.
  - unfold zsum. cbn. rewrite Z.add_0_r. symmetry. by apply checked_Some.
  - cbn [fold_opt].
    assert (Hs : 0 <= zsum (omap f l)).
    { apply zsum_nonneg. apply Forall_forall. intros w [y [Hy Hw]]%list_elem_of_omap.
      rewrite Forall_forall in Hl. by eapply Hl. }
    destruct (f x) as [z|] eqn:Hf.
    + assert (Hc : zsum (omap f (x :: l)) = z + zsum (omap f l)) by (cbn; by rewrite Hf).
      specialize (Hx z eq_refl). rewrite Hc. unfold checked_add.
      destruct (checked 64 (a + z)) as [b|] eqn:Hb.
      * apply checked_Some in Hb as [-> Hb]. unfold uint in Hb. cbn. rewrite IH by lia. f_equal. lia.
      * apply checked_None in Hb. symmetry. apply checked_None. unfold uint in *. lia.
    + assert (Hc : omap f (x :: l) = omap f l) by (cbn; by rewrite Hf). rewrite Hc. by apply IH.
Qed.
