(* ===== verification/Velocity.v ===== *)
(** * Velocity control: [vls-core/src/util/velocity.rs]

    A velocity control bounds the amount that passes in a sliding window.  It
    keeps one counter per interval of [bucket_interval] seconds.  The file
    translates every operation of [VelocityControl] and relates them to an
    abstract control that remembers each accepted amount with its time. *)
From S2P Require Import Prelude.

Record VelocityControl := mkVelocityControl {
  start_sec : Z;
  bucket_interval : Z;
  buckets : list Z;
  limit : Z
}.

Inductive VelocityControlIntervalType := Hourly | Daily | Unlimited.

Record VelocityControlSpec := mkVelocityControlSpec {
  limit_msat : Z;
  interval_type : VelocityControlIntervalType
}.

Definition UNLIMITED : VelocityControlSpec := mkVelocityControlSpec 0 Unlimited.

Definition new_with_intervals {E : Type} (limit_msat bucket_interval : Z) (num_buckets : nat)
  : res E VelocityControl :=
  rassert ((0 <? bucket_interval) && (0 <? num_buckets)%nat) ;;
  Ok (mkVelocityControl 0 bucket_interval (resize num_buckets 0 []) limit_msat).

Definition new_unlimited {E : Type} (bucket_interval : Z) (num_buckets : nat)
  : res E VelocityControl :=
  rassert ((0 <? bucket_interval) && (0 <? num_buckets)%nat) ;;
  Ok (mkVelocityControl 0 bucket_interval (resize num_buckets 0 []) u64_max).

Definition spec_to_triple (spec : VelocityControlSpec) : Z * Z * nat :=
  match spec.(interval_type) with
  | Hourly => (spec.(limit_msat), 300, 12%nat)
  | Daily => (spec.(limit_msat), 3600, 24%nat)
  | Unlimited => (u64_max, 300, 12%nat)
  end.

Definition new {E : Type} (spec : VelocityControlSpec) : res E VelocityControl :=
  let '(limit, bucket_interval, num_buckets) := spec_to_triple spec in
  new_with_intervals limit bucket_interval num_buckets.

Definition spec_matches (self : VelocityControl) (spec : VelocityControlSpec) : bool :=
  let '(limit', bucket_interval', num_buckets) := spec_to_triple spec in
  (self.(limit) =? limit') && (self.(bucket_interval) =? bucket_interval')
  && (length self.(buckets) =? num_buckets)%nat.

Definition update_spec (self : VelocityControl) (spec : VelocityControlSpec) : VelocityControl :=
  if negb (spec_matches self spec) then
    let '(limit', bucket_interval', num_buckets) := spec_to_triple spec in
    mkVelocityControl 0 bucket_interval' (resize num_buckets 0 []) limit'
  else self.

Definition with_state (self : VelocityControl) (state : Z * list Z) : VelocityControl :=
  mkVelocityControl state.1 self.(bucket_interval) state.2 self.(limit).

Definition load_from_state {E : Type} (spec : VelocityControlSpec) (state : Z * list Z)
  : res E VelocityControl :=
  control ← new spec; Ok (with_state control state).

Definition get_state (self : VelocityControl) : Z * list Z :=
  (self.(start_sec), self.(buckets)).

Definition is_unlimited (self : VelocityControl) : bool := self.(limit) =? u64_max.

Definition velocity (self : VelocityControl) : Z :=
  foldl (saturating_add 64) 0 self.(buckets).

(** The part of [insert] before the test: time passes, old buckets drop out. *)
Definition shift `{Profile} {E : Type} (self : VelocityControl) (current_sec : Z)
  : res E VelocityControl :=
  elapsed ← sub_u64 current_sec self.(start_sec);
  nshift ← udiv elapsed self.(bucket_interval);
  let len := length self.(buckets) in
  let nshift := Nat.min len (Z.to_nat nshift) in
  let kept := resize (len - nshift) 0 self.(buckets) in
  let shifted := Nat.iter nshift (cons 0) kept in
  rem ← urem current_sec self.(bucket_interval);
  start ← sub_u64 current_sec rem;
  Ok (mkVelocityControl start self.(bucket_interval) shifted self.(limit)).

Definition insert `{Profile} {E : Type} (self : VelocityControl) (current_sec velocity_msat : Z)
  : res E (bool * VelocityControl) :=
  self ← shift self current_sec;
  if self.(limit) <? saturating_add 64 (velocity self) velocity_msat then
    Ok (false, self)
  else
    b0 ← unwrap (self.(buckets) !! 0%nat);
    Ok (true, mkVelocityControl self.(start_sec) self.(bucket_interval)
                (<[0%nat := saturating_add 64 b0 velocity_msat]> self.(buckets)) self.(limit)).

Definition clear (self : VelocityControl) : VelocityControl :=
  mkVelocityControl self.(start_sec) self.(bucket_interval)
    ((fun _ => 0) <$> self.(buckets)) self.(limit).

(** ** The abstract control

    An entry of the history is the time of an accepted insertion and its
    amount.  [in_bucket] and [in_window] select entries by interval number. *)
Abbreviation History := (list (Z * Z)) (only parsing).

Definition amounts (h : History) : Z := zsum (snd <$> h).

Definition bucket_sum (interval k : Z) (h : History) : Z :=
  amounts (filter (fun e => e.1 / interval = k) h).

(** Amount accepted in the [n] intervals that end with interval [k]. *)
Definition window_sum (interval : Z) (n : nat) (k : Z) (h : History) : Z :=
  amounts (filter (fun e => k - Z.of_nat n < e.1 / interval <= k) h).

(** Amount accepted in the seconds [t0 .. t1]. *)
Definition span_sum (t0 t1 : Z) (h : History) : Z :=
  amounts (filter (fun e => t0 <= e.1 <= t1) h).

Definition spec_insert (interval : Z) (n : nat) (limit : Z) (h : History) (t amount : Z)
  : bool * History :=
  if limit <? window_sum interval n (t / interval) h + amount then (false, h)
  else (true, h ++ [(t, amount)]).

(** The buckets that a history stands for. *)
Definition buckets_of (interval : Z) (n : nat) (k : Z) (h : History) : list Z :=
  (fun i => bucket_sum interval (k - Z.of_nat i) h) <$> seq 0 n.

(** A run of insertions, keeping the accepted ones. *)
Fixpoint run `{Profile} {E : Type} (v : VelocityControl) (h : History) (evs : list (Z * Z))
  : res E (VelocityControl * History) :=
  match evs with
  | [] => Ok (v, h)
  | (t, a) :: evs' =>
      '(ok, v') ← insert v t a;
      run v' (if (ok : bool) then h ++ [(t, a)] else h) evs'
  end.

(** The same run on the abstract control. *)
Definition spec_run (interval : Z) (n : nat) (limit : Z) (h : History) (evs : list (Z * Z)) : History :=
  foldl (fun h e => (spec_insert interval n limit h e.1 e.2).2) h evs.

(** Events with times that never go back and fit 64 bits. *)
Definition events_ok (evs : list (Z * Z)) : Prop :=
  StronglySorted (fun e1 e2 => e1.1 <= e2.1) evs /\ Forall (fun e => u64 e.1 /\ u64 e.2) evs.

(** ** Lemmas on histories *)
Lemma amounts_app (h1 h2 : History) : amounts (h1 ++ h2) = amounts h1 + amounts h2.
Proof. unfold amounts. by rewrite fmap_app, zsum_app. Qed.

Lemma amounts_nonneg (h : History) : Forall (fun e => 0 <= e.2) h -> 0 <= amounts h.
Proof. intros Hh. apply zsum_nonneg. by apply Forall_fmap. Qed.

Lemma amounts_cons (e : Z * Z) (h : History) : amounts (e :: h) = e.2 + amounts h.
Proof. done. Qed.

Section Filters.
Context (P Q R : Z * Z -> Prop).
Context `{!forall e, Decision (P e)} `{!forall e, Decision (Q e)} `{!forall e, Decision (R e)}.

(** The amount selected by a disjoint union of two conditions. *)
Lemma amounts_split (h : History) :
  (forall e, e ∈ h -> P e <-> Q e \/ R e) -> (forall e, ~ (Q e /\ R e)) ->
  amounts (filter P h) = amounts (filter Q h) + amounts (filter R h).
Proof.
  intros Hor Hdisj. induction h as [|e h IH]; [done|].
  rewrite !filter_cons. specialize (IH ltac:(intros; apply Hor; by constructor)).
  pose proof (Hor e ltac:(by constructor)) as He. pose proof (Hdisj e) as Hd.
  repeat case_decide; rewrite ?amounts_cons; (lia || tauto).
Qed.

(** A wider condition selects no less. *)
Lemma amounts_mono (h : History) :
  Forall (fun e => 0 <= e.2) h -> (forall e, e ∈ h -> P e -> Q e) ->
  amounts (filter P h) <= amounts (filter Q h).
Proof.
  intros Hh Hsub. induction Hh as [|e h He Hh IH]; [done|].
  rewrite !filter_cons. specialize (IH ltac:(intros ? ?; apply Hsub; by constructor)).
  pose proof (Hsub e ltac:(by constructor)).
  repeat case_decide; rewrite ?amounts_cons; (lia || tauto).
Qed.
End Filters.

Lemma bucket_sum_none (interval k : Z) (h : History) :
  Forall (fun e => e.1 / interval < k) h -> bucket_sum interval k h = 0.
Proof.
  induction 1 as [|e h He Hh IH]; [done|].
  unfold bucket_sum in *. rewrite filter_cons. case_decide; [lia|done].
Qed.

Lemma window_sum_S (interval : Z) (n : nat) (k : Z) (h : History) :
  window_sum interval (S n) k h = window_sum interval n k h + bucket_sum interval (k - Z.of_nat n) h.
Proof. apply amounts_split; intros; lia. Qed.

Lemma window_sum_buckets (interval : Z) (n : nat) (k : Z) (h : History) :
  zsum (buckets_of interval n k h) = window_sum interval n k h.
Proof.
  induction n as [|n IH].
  - unfold window_sum, buckets_of. cbn. symmetry.
    induction h as [|e h IHh]; [done|]. rewrite filter_cons. case_decide; [lia|done].
  - unfold buckets_of in *. rewrite seq_S, fmap_app, zsum_app, IH, window_sum_S. cbn. rewrite zsum_cons, zsum_nil. lia.
Qed.

Lemma bucket_sum_app (interval k : Z) (h1 h2 : History) :
  bucket_sum interval k (h1 ++ h2) = bucket_sum interval k h1 + bucket_sum interval k h2.
Proof. unfold bucket_sum. by rewrite filter_app, amounts_app. Qed.

Lemma bucket_sum_nonneg (interval k : Z) (h : History) :
  Forall (fun e => 0 <= e.2) h -> 0 <= bucket_sum interval k h.
Proof. intros Hh. apply amounts_nonneg. by apply Forall_filter_sub. Qed.

Lemma length_buckets_of (interval : Z) (n : nat) (k : Z) (h : History) :
  length (buckets_of interval n k h) = n.
Proof. unfold buckets_of. by rewrite length_fmap, length_seq. Qed.

Lemma lookup_buckets_of (interval : Z) (n : nat) (k : Z) (h : History) (i : nat) :
  (i < n)%nat -> buckets_of interval n k h !! i = Some (bucket_sum interval (k - Z.of_nat i) h).
Proof.
  intros Hi. unfold buckets_of. rewrite list_lookup_fmap, lookup_seq_lt by done. done.
Qed.

Lemma buckets_of_nil (interval : Z) (n : nat) (k : Z) : buckets_of interval n k [] = replicate n 0.
Proof. unfold buckets_of. exact (list_fmap_const_seq 0 0 n). Qed.

(** Moving the current interval forward shifts the buckets. *)
Lemma buckets_of_shift (interval : Z) (n d : nat) (k k' : Z) (h : History) :
  Forall (fun e => e.1 / interval <= k) h -> (d <= n)%nat ->
  ((d < n)%nat -> k' = k + Z.of_nat d) -> k + Z.of_nat d <= k' ->
  replicate d 0 ++ take (n - d) (buckets_of interval n k h) = buckets_of interval n k' h.
Proof.
  intros Hh Hd Heq Hle. apply list_eq_same_length with n.
  - by rewrite length_buckets_of.
  - rewrite length_app, length_replicate, length_take, length_buckets_of. lia.
  - intros i x y Hi. rewrite lookup_buckets_of by done. intros Hx [= <-].
    destruct (decide (i < d)%nat).
    + rewrite lookup_app_l in Hx by (by rewrite length_replicate).
      rewrite lookup_replicate_2 in Hx by done. injection Hx as <-.
      symmetry. apply bucket_sum_none. eapply Forall_impl; [exact Hh|]. cbn. lia.
    + rewrite lookup_app_r in Hx by (rewrite length_replicate; lia).
      rewrite length_replicate, lookup_take_lt in Hx by lia.
      rewrite lookup_buckets_of in Hx by lia. injection Hx as <-. f_equal. lia.
Qed.

(** Accepting an amount in the current interval adds it to the first bucket. *)
Lemma buckets_of_accept (interval : Z) (n : nat) (t a : Z) (h : History) :
  (0 < n)%nat ->
  <[0%nat := bucket_sum interval (t / interval) h + a]> (buckets_of interval n (t / interval) h)
  = buckets_of interval n (t / interval) (h ++ [(t, a)]).
Proof.
  intros Hn. apply list_eq_same_length with n.
  - by rewrite length_buckets_of.
  - by rewrite length_insert, length_buckets_of.
  - intros i x y Hi Hx. rewrite lookup_buckets_of, bucket_sum_app by done. intros [= <-].
    destruct i as [|i].
    + rewrite list_lookup_insert_eq in Hx by (rewrite length_buckets_of; lia).
      injection Hx as <-. rewrite Z.sub_0_r. unfold bucket_sum at 3. rewrite filter_cons. cbn.
      case_decide; [|done]. unfold amounts, zsum. cbn. lia.
    + rewrite list_lookup_insert_ne, lookup_buckets_of in Hx by lia. injection Hx as <-.
      unfold bucket_sum at 3. rewrite filter_cons. cbn. case_decide; [lia|].
      unfold amounts, zsum. cbn. lia.
Qed.

Lemma velocity_sat (bs : list Z) (a : Z) :
  0 <= a <= u64_max -> Forall (fun b => 0 <= b) bs ->
  foldl (saturating_add 64) a bs = Z.min (a + zsum bs) u64_max.
Proof.
  intros Ha Hbs. revert a Ha. unfold u64_max, umax.
  induction Hbs as [|b bs Hb Hbs IH]; intros a Ha.
  - unfold zsum. cbn. lia.
  - unfold zsum in *. cbn [foldl foldr]. pose proof (zsum_nonneg bs Hbs) as Hs. unfold zsum in Hs.
    unfold saturating_add at 2. unfold umax. rewrite IH by lia. lia.
Qed.

(** ** Refinement

    [refines v h]: the concrete control [v] stands for the history [h].  The
    control is limited, its current interval starts at [start_sec], no entry
    is later than it, and every bucket is the amount of its interval. *)
Record refines (v : VelocityControl) (h : History) : Prop := mkRefines {
  ref_interval : 0 < v.(bucket_interval);
  ref_len : (0 < length v.(buckets))%nat;
  ref_start : 0 <= v.(start_sec);
  ref_aligned : v.(start_sec) mod v.(bucket_interval) = 0;
  ref_past : Forall (fun e => e.1 / v.(bucket_interval) <= v.(start_sec) / v.(bucket_interval)) h;
  ref_nonneg : Forall (fun e => 0 <= e.2) h;
  ref_buckets : v.(buckets) = buckets_of v.(bucket_interval) (length v.(buckets))
                                (v.(start_sec) / v.(bucket_interval)) h
}.

Lemma refines_new {E : Type} (lim interval : Z) (n : nat) (v : VelocityControl) :
  new_with_intervals (E:=E) lim interval n = Ok v ->
  refines v [] /\ v.(bucket_interval) = interval /\ v.(limit) = lim /\ length v.(buckets) = n.
Proof.
  unfold new_with_intervals. intros H. res_inv. apply andb_true_iff in E0 as [Hi Hn].
  cbn. rewrite length_resize. split_and!; try done.
  constructor; cbn; rewrite ?length_resize; try (lia || done).
  - apply Nat.ltb_lt in Hn. done.
  - rewrite resize_nil. symmetry. apply (buckets_of_nil interval n (0 / interval)).
Qed.

(** [shift] moves to the interval of [t] and keeps the history. *)
Lemma shift_refines `{Profile} {E : Type} (v : VelocityControl) (h : History) (t : Z) :
  refines v h -> v.(start_sec) <= t < 2 ^ 64 ->
  exists v', shift (E:=E) v t = Ok v' /\ refines v' h /\
    v'.(bucket_interval) = v.(bucket_interval) /\ v'.(limit) = v.(limit) /\
    length v'.(buckets) = length v.(buckets) /\
    v'.(start_sec) = t - t mod v.(bucket_interval) /\
    v'.(start_sec) / v.(bucket_interval) = t / v.(bucket_interval).
Proof.
  intros [Hi Hlen Hst Hal Hpast Hnn Hb] Ht. unfold shift.
  destruct v as [st I bs lim].
  cbn [start_sec bucket_interval buckets limit] in *. set (n := length bs) in *.
  pose proof (Z.mod_pos_bound t I Hi). pose proof (Z.mod_le t I ltac:(lia) Hi).
  pose proof (Z.div_mod t I ltac:(lia)) as Hdm. pose proof (Z.div_mod st I ltac:(lia)) as Hds.
  rewrite sub_u64_Ok by (unfold uint; lia). cbn. unfold udiv, urem.
  destruct (Z.eqb_spec I 0); [lia|]. cbn.
  rewrite sub_u64_Ok by (unfold uint; lia). cbn.
  assert (Hk : (t - st) / I = t / I - st / I).
  { symmetry. apply (Z.div_unique_pos _ _ _ (t mod I)); [lia|]. nia. }
  assert (Hk0 : 0 <= (t - st) / I) by (apply Z.div_pos; lia).
  assert (Hst' : (t - t mod I) / I = t / I).
  { symmetry. apply (Z.div_unique_pos _ _ _ 0); lia. }
  set (d := Nat.min n (Z.to_nat ((t - st) / I))).
  assert (Hshift : Nat.iter d (cons 0) (resize (n - d) 0 bs) = buckets_of I n (t / I) h).
  { rewrite <- (buckets_of_shift I n d (st / I) (t / I) h) by (done || lia).
    rewrite resize_le by lia. rewrite <- Hb. generalize (take (n - d) bs). clear.
    induction d as [|d IH]; intros l; cbn; [done|]. f_equal. apply IH. }
  rewrite Hshift. eexists. split; [done|]. cbn. rewrite length_buckets_of.
  split_and!; try done. constructor; cbn; rewrite ?length_buckets_of, ?Hst'; try (done || lia).
  - rewrite Zminus_mod_idemp_r, Z.sub_diag. by apply Z.mod_0_l; lia.
  - eapply Forall_impl; [exact Hpast|]. cbn. lia.
Qed.

Lemma refines_velocity (v : VelocityControl) (h : History) :
  refines v h ->
  velocity v = Z.min (window_sum v.(bucket_interval) (length v.(buckets))
                        (v.(start_sec) / v.(bucket_interval)) h) u64_max.
Proof.
  intros Hr. unfold velocity. rewrite velocity_sat.
  - by rewrite (ref_buckets _ _ Hr), window_sum_buckets, length_buckets_of.
  - unfold u64_max, umax. lia.
  - rewrite (ref_buckets _ _ Hr). unfold buckets_of. apply Forall_fmap, Forall_forall.
    intros i _. cbn. apply bucket_sum_nonneg, (ref_nonneg _ _ Hr).
Qed.

Lemma window_sum_nonneg (interval : Z) (n : nat) (k : Z) (h : History) :
  Forall (fun e => 0 <= e.2) h -> 0 <= window_sum interval n k h.
Proof. intros Hh. by apply amounts_nonneg, Forall_filter_sub. Qed.

(** The first bucket never exceeds the window. *)
Lemma bucket_le_window (interval : Z) (n : nat) (k : Z) (h : History) :
  (0 < n)%nat -> Forall (fun e => 0 <= e.2) h -> bucket_sum interval k h <= window_sum interval n k h.
Proof. intros Hn Hh. apply amounts_mono; [done|]. intros e _ He. lia. Qed.

Lemma insert_refines `{Profile} {E : Type} (v : VelocityControl) (h : History) (t a : Z) :
  refines v h -> v.(limit) < u64_max -> v.(start_sec) <= t < 2 ^ 64 -> 0 <= a ->
  let '(ok, h') := spec_insert v.(bucket_interval) (length v.(buckets)) v.(limit) h t a in
  exists v', insert (E:=E) v t a = Ok (ok, v') /\ refines v' h' /\
    v'.(bucket_interval) = v.(bucket_interval) /\ v'.(limit) = v.(limit) /\
    length v'.(buckets) = length v.(buckets) /\ v'.(start_sec) <= t.
Proof.
  intros Hr Hlim Ht Ha. unfold insert.
  destruct (shift_refines (E:=E) v h t Hr Ht) as (v' & -> & Hr' & HI & HL & Hn & Hst & Hk). cbn.
  pose proof (ref_interval _ _ Hr') as Hpos. rewrite HI in Hpos.
  pose proof (Z.mod_pos_bound t _ Hpos).
  rewrite (refines_velocity _ _ Hr'), HI, Hn, Hk, HL. unfold spec_insert, saturating_add.
  pose proof (window_sum_nonneg v.(bucket_interval) (length v.(buckets))
                (t / v.(bucket_interval)) h (ref_nonneg _ _ Hr)) as Hw.
  set (w := window_sum _ _ _ _) in *. unfold u64_max in *.
  assert (Htest : (v.(limit) <? Z.min (Z.min w (umax 64) + a) (umax 64)) = (v.(limit) <? w + a)) by lia.
  rewrite Htest. destruct (Z.ltb_spec v.(limit) (w + a)) as [|Hle].
  { exists v'. split_and!; (done || lia). }
  assert (Hlen : (0 < length v.(buckets))%nat) by apply Hr.
  rewrite (ref_buckets _ _ Hr'), HI, Hn, Hk.
  rewrite lookup_buckets_of by done. cbn [unwrap]. eexists. split; [done|]. rewrite Z.sub_0_r.
  pose proof (bucket_le_window v.(bucket_interval) (length v.(buckets))
                (t / v.(bucket_interval)) h Hlen (ref_nonneg _ _ Hr)).
  replace (Z.min _ _) with (bucket_sum v.(bucket_interval) (t / v.(bucket_interval)) h + a) by lia.
  rewrite buckets_of_accept by done.
  split_and!; cbn; rewrite ?length_buckets_of; try (done || lia).
  destruct Hr' as [? ? ? Hal' Hp' Hnn' ?]. rewrite HI, Hk in *.
  constructor; cbn; rewrite ?length_buckets_of, ?Hk; try (done || lia).
  - apply Forall_app. split; [done|]. by constructor.
  - apply Forall_app. split; [done|]. by constructor.
Qed.

(** ** Properties *)
Lemma run_refines_from `{Profile} {E : Type} (evs : list (Z * Z)) :
  forall (v : VelocityControl) (h : History),
  refines v h -> v.(limit) < u64_max -> events_ok evs ->
  Forall (fun e => v.(start_sec) <= e.1) evs ->
  exists v', run (E:=E) v h evs
    = Ok (v', spec_run v.(bucket_interval) (length v.(buckets)) v.(limit) h evs).
Proof.
  induction evs as [|[t a] evs IH]; intros v h Hr Hlim [Hs Hu] Hge; [by exists v|].
  apply StronglySorted_inv in Hs as [Hs Hle].
  apply Forall_cons in Hu as [[Ht Ha] Hu]. apply Forall_cons in Hge as [Ht0 _].
  cbn [fst snd] in *. unfold uint in *.
  pose proof (insert_refines (E:=E) v h t a Hr Hlim ltac:(lia) ltac:(lia)) as Hi.
  unfold spec_run in *. cbn [run foldl fst snd].
  destruct (spec_insert _ _ _ h t a) as [ok h'] eqn:Hsp.
  destruct Hi as (v' & -> & Hr' & HI & HL & Hn & Hst). cbn [mbind res_bind].
  assert (Hh : (if ok then h ++ [(t, a)] else h) = h').
  { unfold spec_insert in Hsp. case_match; by simplify_eq. }
  rewrite Hh, <- HI, <- HL, <- Hn. apply IH; [done|lia|done|].
  eapply Forall_impl; [exact Hle|]. cbn. lia.
Qed.

(** An accepted amount keeps every span of [n] intervals within the limit. *)
Lemma spec_insert_span (interval : Z) (n : nat) (lim : Z) (h : History) (t a t0 t1 : Z) :
  0 < interval -> (0 < n)%nat -> 0 <= a -> Forall (fun e => 0 <= e.2) h -> Forall (fun e => e.1 <= t) h ->
  t1 <= t0 + (Z.of_nat n - 1) * interval -> span_sum t0 t1 h <= lim ->
  span_sum t0 t1 (spec_insert interval n lim h t a).2 <= lim.
Proof.
  intros Hi Hn Ha Hnn Hpast Hspan Hold. unfold spec_insert.
  destruct (Z.ltb_spec lim (window_sum interval n (t / interval) h + a)) as [|Hle]; [done|]. cbn [snd].
  unfold span_sum in *. rewrite filter_app, amounts_app, filter_cons. cbn [fst].
  case_decide as Hin; [|by rewrite Z.add_0_r].
  enough (amounts (filter (fun e => t0 <= e.1 <= t1) h) <= window_sum interval n (t / interval) h)
    by (rewrite amounts_cons; unfold amounts at 2, zsum; cbn; lia).
  apply amounts_mono; [done|]. intros e He [He0 He1]. rewrite Forall_forall in Hpast.
  split; [|apply Z.div_le_mono; [lia|by apply Hpast]].
  assert (t / interval <= t0 / interval + (Z.of_nat n - 1)).
  { rewrite <- Z.div_add by lia. apply Z.div_le_mono; lia. }
  pose proof (Z.div_le_mono t0 e.1 interval ltac:(lia) ltac:(lia)). lia.
Qed.

Lemma spec_run_span (interval : Z) (n : nat) (lim t0 t1 : Z) (evs : list (Z * Z)) :
  0 < interval -> (0 < n)%nat -> events_ok evs -> t1 <= t0 + (Z.of_nat n - 1) * interval ->
  forall h, Forall (fun e => 0 <= e.2) h -> Forall (fun e => Forall (fun e' => e.1 <= e'.1) evs) h ->
  span_sum t0 t1 h <= lim -> span_sum t0 t1 (spec_run interval n lim h evs) <= lim.
Proof.
  intros Hi Hn [Hs Hu] Hspan. induction evs as [|[t a] evs IH]; intros h Hnn Hpast Hold; [done|].
  apply StronglySorted_inv in Hs as [Hs Hle]. apply Forall_cons in Hu as [[Ht Ha] Hu].
  cbn [fst snd] in *. unfold uint in Ha. unfold spec_run. cbn [foldl fst snd].
  assert (Hpt : Forall (fun e : Z * Z => e.1 <= t) h).
  { eapply Forall_impl; [exact Hpast|]. cbn. intros e He. by apply Forall_cons in He as [? _]. }
  assert (Hrest : Forall (fun e : Z * Z => Forall (fun e' : Z * Z => e.1 <= e'.1) evs) h).
  { eapply Forall_impl; [exact Hpast|]. cbn. intros e He. by apply Forall_cons in He as [_ ?]. }
  apply IH; [done|done| | |apply spec_insert_span; (done || lia)];
    unfold spec_insert; case_match; cbn; try done;
    apply Forall_app; split; try done; repeat constructor; (done || cbn; lia).
Qed.

(** C27: a control created with limit [lim] over [n] buckets of [interval]
    seconds, fed any sequence of requests whose times do not go back, never
    panics, and over every stretch of [(n - 1) * interval] seconds the amounts
    it accepted sum to at most [lim]. *)
Theorem velocity_window_bound `{Profile} (E : Type) (lim interval : Z) (n : nat) (evs : list (Z * Z)) :
  0 <= lim < u64_max -> 0 < interval -> (0 < n)%nat -> events_ok evs ->
  exists v v' h,
    new_with_intervals (E:=E) lim interval n = Ok v /\ run (E:=E) v [] evs = Ok (v', h) /\
    forall t0, span_sum t0 (t0 + (Z.of_nat n - 1) * interval) h <= lim.
Proof.
  intros Hlim Hi Hn Hev.
  destruct (new_with_intervals (E:=E) lim interval n) as [v| |] eqn:Hv.
  2,3: unfold new_with_intervals, rassert in Hv; rewrite (proj2 (Z.ltb_lt _ _) Hi),
    (proj2 (Nat.ltb_lt _ _) Hn) in Hv; discriminate.
  destruct (refines_new lim interval n v Hv) as (Hr & HI & HL & Hlen).
  assert (Hst : v.(start_sec) = 0).
  { unfold new_with_intervals in Hv. res_inv. done. }
  destruct (run_refines_from (E:=E) evs v [] Hr) as [v' Hrun]; [lia|done| |].
  { rewrite Hst. eapply Forall_impl; [apply Hev|]. unfold uint. cbn. lia. }
  exists v, v'. eexists. split; [done|]. split; [exact Hrun|]. intros t0. rewrite HI, HL, Hlen.
  apply spec_run_span; try (done || lia || by apply Forall_nil). apply Hlim.
Qed.

Lemma velocity_window_bound_witness :
  exists v v' h, new_with_intervals (E:=unit) 100 300 12 = Ok v /\
    @run debug_profile unit v [] [(10, 60); (20, 50); (3500, 30); (3700, 70)] = Ok (v', h) /\
    forall t0, span_sum t0 (t0 + (Z.of_nat 12 - 1) * 300) h <= 100.
Proof.
  apply (@velocity_window_bound debug_profile unit 100 300 12
    [(10, 60); (20, 50); (3500, 30); (3700, 70)]); [done|done|lia|].
  split; repeat constructor; cbn; lia.
Defined.

(** Insertions refine the abstract control.  From a control that stands for
    a history, a run over times that do not go back accepts exactly the
    requests that the abstract control accepts: a request is refused only when
    the amount accepted in the last [n] intervals plus the request is above
    the limit.  The run never panics. *)
Theorem velocity_run_refines `{Profile} (E : Type) (v : VelocityControl) (h : History) (evs : list (Z * Z)) :
  refines v h -> v.(limit) < u64_max -> events_ok evs ->
  Forall (fun e => v.(start_sec) <= e.1) evs ->
  exists v', run (E:=E) v h evs
    = Ok (v', spec_run v.(bucket_interval) (length v.(buckets)) v.(limit) h evs).
Proof. apply run_refines_from. Qed.

Definition sample_control : VelocityControl := mkVelocityControl 600 300 [7; 0; 5] 20.

Lemma velocity_run_refines_witness :
  exists v', @run release_profile unit sample_control [(10, 5); (700, 7)] [(901, 9); (950, 9)]
    = Ok (v', [(10, 5); (700, 7); (901, 9)]).
Proof.
  apply (@velocity_run_refines release_profile unit sample_control [(10, 5); (700, 7)]
           [(901, 9); (950, 9)]).
  - constructor; cbn; rewrite ?Forall_cons, ?Forall_nil; cbn; (done || lia).
  - done.
  - split; repeat constructor; cbn; lia.
  - repeat constructor; cbn; lia.
Defined.

(** The difference wraps to a value larger than any tracked window. *)
Lemma shift_backwards `{Profile} {E : Type} (v : VelocityControl) (t : Z) :
  0 <= t < v.(start_sec) -> v.(start_sec) < 2 ^ 63 -> 0 < v.(bucket_interval) ->
  Z.of_nat (length v.(buckets)) * v.(bucket_interval) <= 2 ^ 63 ->
  shift (E:=E) v t =
    if overflow_checks then Panic
    else Ok (mkVelocityControl (t - t mod v.(bucket_interval)) v.(bucket_interval)
               (replicate (length v.(buckets)) 0) v.(limit)).
Proof.
  intros Ht Hs Hi Hn. unfold shift. rewrite sub_u64_out by (unfold uint; lia).
  destruct overflow_checks; [done|]. cbn [mbind res_bind].
  unfold udiv, urem. destruct (Z.eqb_spec v.(bucket_interval) 0); [lia|]. cbn [mbind res_bind].
  pose proof (Z.mod_pos_bound t _ Hi). pose proof (Z.mod_le t _ (proj1 Ht) Hi).
  rewrite sub_u64_Ok by (unfold uint; lia). cbn [mbind res_bind].
  assert (Hw : (t - v.(start_sec)) mod 2 ^ 64 = t - v.(start_sec) + 2 ^ 64).
  { symmetry. apply (Z.mod_unique_pos _ _ (-1)); lia. }
  rewrite Hw. set (q := (_ + 2 ^ 64) / _).
  assert (Hq : Z.of_nat (length v.(buckets)) <= q) by (apply Z.div_le_lower_bound; lia).
  rewrite Nat.min_l by lia. rewrite Nat.sub_diag, resize_0.
  do 2 f_equal. induction (length v.(buckets)) as [|k IH]; [done|]. cbn. f_equal. apply IH. lia. lia.
Qed.

(** The clock going back behind the start of the current interval.  With
    overflow checks [insert] panics; without them the elapsed time wraps, every
    bucket is dropped, and a request within the limit is accepted whatever was
    accepted before. *)
Theorem velocity_clock_backwards `{Profile} (E : Type) (v : VelocityControl) (t a : Z) :
  0 <= t < v.(start_sec) -> v.(start_sec) < 2 ^ 63 -> 0 < v.(bucket_interval) ->
  (0 < length v.(buckets))%nat ->
  Z.of_nat (length v.(buckets)) * v.(bucket_interval) <= 2 ^ 63 ->
  0 <= a <= v.(limit) -> v.(limit) <= u64_max ->
  insert (E:=E) v t a =
    if overflow_checks then Panic
    else Ok (true, mkVelocityControl (t - t mod v.(bucket_interval)) v.(bucket_interval)
                     (a :: replicate (length v.(buckets) - 1) 0) v.(limit)).
Proof.
  intros Ht Hs Hi Hl Hn Ha Hlim. unfold insert. rewrite shift_backwards by done.
  destruct overflow_checks; [done|]. cbn [mbind res_bind]. unfold velocity.
  cbn [buckets limit start_sec bucket_interval]. rewrite velocity_sat; [|unfold u64_max, umax; lia|by apply Forall_replicate].
  rewrite zsum_replicate0. unfold saturating_add. unfold u64_max in *.
  destruct (Z.ltb_spec v.(limit) (Z.min (Z.min (0 + 0) (umax 64) + a) (umax 64))); [lia|].
  destruct (length v.(buckets)) as [|k]; [lia|]. cbn. rewrite Nat.sub_0_r.
  do 4 f_equal. lia.
Qed.

(** 18 of the 20 units are spent; a step of the clock from 600 to 599 lets 20 more pass. *)
Lemma velocity_clock_backwards_witness :
  @insert release_profile unit (mkVelocityControl 600 300 [18; 0; 0] 20) 599 20
  = Ok (true, mkVelocityControl 300 300 [20; 0; 0] 20).
Proof.
  apply (@velocity_clock_backwards release_profile unit (mkVelocityControl 600 300 [18; 0; 0] 20) 599 20);
    cbn; try lia. unfold u64_max, umax. lia.
Defined.
