(* ===== verification/Policy.v ===== *)
(** * Policy errors, filters and statuses

    Models [vls-core/src/policy/error.rs], [policy/filter.rs],
    [policy/mod.rs] and [util/status.rs].  The text of a message is left out of
    every error: no code branches on it, and [prepend_msg] only changes the
    text.  A tag is kept, because the filter reads it. *)
From S2P Require Import Prelude Velocity.

(** ** Errors *)
Inductive ValidationErrorKind :=
| TransactionFormat
| ScriptFormat
| Mismatch
| PolicyViolation
| TemporaryPolicy
| UnknownDestinations (indices : list nat).

Record ValidationError := mkValidationError {
  tag : string;
  kind : ValidationErrorKind
}.

#[export] Instance ValidationErrorKind_eq_dec : EqDecision ValidationErrorKind.
Proof. solve_decision. Defined.
#[export] Instance ValidationError_eq_dec : EqDecision ValidationError.
Proof. solve_decision. Defined.

Definition transaction_format_error : ValidationError :=
  mkValidationError "policy-commitment-scripts" TransactionFormat.
Definition script_format_error : ValidationError :=
  mkValidationError "policy-commitment-scripts" ScriptFormat.
Definition mismatch_error : ValidationError :=
  mkValidationError "policy-commitment-scripts" Mismatch.
Definition policy_error (tag : string) : ValidationError :=
  mkValidationError tag PolicyViolation.
Definition temporary_policy_error (tag : string) : ValidationError :=
  mkValidationError tag TemporaryPolicy.
Definition unknown_destinations_error (unknowns : list nat) : ValidationError :=
  mkValidationError "policy-onchain-no-unknown-outputs" (UnknownDestinations unknowns).

(** ** Filters *)
Inductive FilterResult := FilterError | FilterWarn.

#[export] Instance FilterResult_eq_dec : EqDecision FilterResult.
Proof. solve_decision. Defined.

Record FilterRule := mkFilterRule {
  rule_tag : string;
  is_prefix : bool;
  action : FilterResult
}.

Definition new_warn (tag : string) : FilterRule := mkFilterRule tag false FilterWarn.
Definition new_error (tag : string) : FilterRule := mkFilterRule tag false FilterError.

Record PolicyFilter := mkPolicyFilter { rules : list FilterRule }.

Definition rule_matches (rule : FilterRule) (tag : string) : bool :=
  if rule.(is_prefix) then String.prefix rule.(rule_tag) tag
  else bool_decide (tag = rule.(rule_tag)).

Fixpoint filter_rules (rules : list FilterRule) (tag : string) : FilterResult :=
  match rules with
  | [] => FilterError
  | rule :: rules' => if rule_matches rule tag then rule.(action) else filter_rules rules' tag
  end.

Definition PolicyFilter_filter (self : PolicyFilter) (tag : string) : FilterResult :=
  filter_rules self.(rules) tag.

Definition new_permissive : PolicyFilter :=
  mkPolicyFilter [mkFilterRule EmptyString true FilterWarn].

Definition merge (self other : PolicyFilter) : PolicyFilter :=
  mkPolicyFilter (self.(rules) ++ other.(rules)).

Definition PolicyFilter_default : PolicyFilter := mkPolicyFilter [].

(** ** Raising a policy error

    [policy_err!] and [temporary_policy_err!] expand to these followed by [?]:
    with a warning rule the function goes on after the violation. *)
Definition make_policy_error_with_filter (tag : string) (filter : PolicyFilter)
  : res ValidationError unit :=
  if decide (PolicyFilter_filter filter tag = FilterError) then Err (policy_error tag)
  else Ok tt.

Definition policy_error_with_filter (tag : string) (filter : PolicyFilter)
  : res ValidationError unit :=
  make_policy_error_with_filter tag filter.

Definition temporary_policy_error_with_filter (tag : string) (filter : PolicyFilter)
  : res ValidationError unit :=
  if decide (PolicyFilter_filter filter tag = FilterError) then Err (temporary_policy_error tag)
  else Ok tt.

(** The trait [Policy]; [P] is a type of policies. *)
Class Policy (P : Type) := {
  Policy_policy_error : P -> string -> res ValidationError unit;
  Policy_temporary_policy_error : P -> string -> res ValidationError unit;
  Policy_global_velocity_control : P -> VelocityControlSpec;
  Policy_max_channels : P -> Z;
  Policy_max_invoices : P -> Z;
  Policy_fee_velocity_control : P -> VelocityControlSpec
}.

Definition DEFAULT_FEE_VELOCITY_CONTROL : VelocityControlSpec :=
  mkVelocityControlSpec 1000000000 Daily.
Definition MAX_CHANNELS : Z := 1000.
Definition MAX_INVOICES : Z := 1000.
Definition MAX_ONCHAIN_TX_SIZE : Z := 32 * 1024.
Definition MIN_INVOICE_EXPIRY : Z := 60.
Definition MAX_CLOCK_SKEW : Z := 60.
Definition INVOICE_BEHIND_TOLERANCE : Z := 1 * 60 * 60.
Definition INVOICE_AHEAD_TOLERANCE : Z := 2 * 60 * 60.
Definition MAX_CLTV_EXPIRY : Z := 500000000.

(** ** Statuses *)
Inductive Code := CodeOk | InvalidArgument | FailedPrecondition | Internal | Temporary.

#[export] Instance Code_eq_dec : EqDecision Code.
Proof. solve_decision. Defined.

Record Status := mkStatus { code : Code }.

Definition invalid_argument : Status := mkStatus InvalidArgument.
Definition failed_precondition : Status := mkStatus FailedPrecondition.
Definition internal_error : Status := mkStatus Internal.
Definition temporary : Status := mkStatus Temporary.

(** [impl From<ValidationError> for Status]. *)
Definition Status_from (ve : ValidationError) : Status :=
  match ve.(kind) with
  | TemporaryPolicy => temporary
  | _ => failed_precondition
  end.

(** [?] on a validation result in a function that returns [Status]. *)
Definition lift_ve {A : Type} (m : res ValidationError A) : res Status A := map_err Status_from m.

(** ** Lemmas *)

(** A violation lets the caller continue only where the filter warns. *)
Lemma policy_error_Ok (tag : string) (f : PolicyFilter) (u : unit) :
  policy_error_with_filter tag f = Ok u <-> PolicyFilter_filter f tag = FilterWarn.
Proof.
  unfold policy_error_with_filter, make_policy_error_with_filter. destruct u.
  case_decide as Hd; [by rewrite Hd|]. destruct (PolicyFilter_filter f tag); naive_solver.
Qed.

Lemma temporary_policy_error_Ok (tag : string) (f : PolicyFilter) (u : unit) :
  temporary_policy_error_with_filter tag f = Ok u <-> PolicyFilter_filter f tag = FilterWarn.
Proof.
  unfold temporary_policy_error_with_filter. destruct u.
  case_decide as Hd; [by rewrite Hd|]. destruct (PolicyFilter_filter f tag); naive_solver.
Qed.

(** A filter is strict on a tag when a violation with it is an error. *)
Definition strict (f : PolicyFilter) (tag : string) : Prop := PolicyFilter_filter f tag = FilterError.

Lemma policy_error_strict (tag : string) (f : PolicyFilter) :
  strict f tag -> policy_error_with_filter tag f = Err (policy_error tag).
Proof.
  unfold strict, policy_error_with_filter, make_policy_error_with_filter. intros ->. done.
Qed.

Lemma policy_error_no_panic (tag : string) (f : PolicyFilter) :
  policy_error_with_filter tag f <> Panic.
Proof. unfold policy_error_with_filter, make_policy_error_with_filter. case_decide; done. Qed.

Lemma default_strict (tag : string) : strict PolicyFilter_default tag.
Proof. done. Qed.

#[export] Hint Resolve default_strict : signer.

(** A guarded violation: on success the guard was false or the tag is demoted. *)
Lemma when_policy_Ok (c : bool) (tag : string) (f : PolicyFilter) (u : unit) :
  when c (policy_error_with_filter tag f) = Ok u -> strict f tag -> c = false.
Proof.
  unfold when. destruct c; [|done]. intros H Hs. rewrite policy_error_strict in H by done. done.
Qed.

Lemma filter_rules_app (r1 r2 : list FilterRule) (tag : string) :
  filter_rules (r1 ++ r2) tag
  = if existsb (fun r => rule_matches r tag) r1 then filter_rules r1 tag else filter_rules r2 tag.
Proof.
  induction r1 as [|r r1 IH]; cbn; [done|]. destruct (rule_matches r tag); cbn; [done|]. exact IH.
Qed.

Lemma filter_rules_unmatched (r : list FilterRule) (tag : string) :
  existsb (fun r => rule_matches r tag) r = false -> filter_rules r tag = FilterError.
Proof.
  induction r as [|x r IH]; cbn; [done|]. intros [H1 H2]%orb_false_iff. rewrite H1. auto.
Qed.

(** ** Properties *)

(** Rules are tried in order and the first match decides; merging a second
    filter never changes the result of a tag that some rule of the first
    matches, and a tag matched by neither is an error. *)
Theorem filter_merge_precedence (f g : PolicyFilter) (tag : string) :
  PolicyFilter_filter (merge f g) tag =
    (if existsb (fun r => rule_matches r tag) f.(rules) then PolicyFilter_filter f tag
     else PolicyFilter_filter g tag) /\
  (existsb (fun r => rule_matches r tag) (f.(rules) ++ g.(rules)) = false ->
   policy_error_with_filter tag (merge f g) = Err (policy_error tag)) /\
  policy_error_with_filter tag new_permissive = Ok tt.
Proof.
  split_and!.
  - apply filter_rules_app.
  - intros Hno. apply policy_error_strict. by apply filter_rules_unmatched.
  - apply policy_error_Ok. by destruct tag.
Qed.

Lemma filter_merge_precedence_witness :
  policy_error_with_filter "policy-mutual-fee-range"
    (merge (mkPolicyFilter [new_warn "policy-other"]) (mkPolicyFilter [mkFilterRule "policy-onchain" true FilterWarn]))
  = Err (policy_error "policy-mutual-fee-range").
Proof.
  apply (filter_merge_precedence (mkPolicyFilter [new_warn "policy-other"])
           (mkPolicyFilter [mkFilterRule "policy-onchain" true FilterWarn]) "policy-mutual-fee-range").
  vm_compute. reflexivity.
Defined.
