(* ===== verification/Ordered.v ===== *)
(** * Ordered data and the iterator over added items

    The trait [Ord] as a class, the slice method [sort], and the iterator
    [AddedItemsIter] of [vls-core/src/util/mod.rs], which walks two sorted
    vectors and yields the elements of the second that the first lacks. *)
From S2P Require Import Prelude.

(** Rust's [Ord]: a total order whose [Eq] case is equality. *)
Class Ord (A : Type) `{EqDecision A} := {
  ord_cmp : A -> A -> comparison;
  ord_cmp_eq : forall x y, ord_cmp x y = Eq <-> x = y;
  ord_cmp_antisym : forall x y, ord_cmp y x = CompOpp (ord_cmp x y);
  ord_cmp_trans : forall x y z, ord_cmp x y = Lt -> ord_cmp y z = Lt -> ord_cmp x z = Lt
}.

(** [Ordering::then_with]. *)
Definition then_with (c d : comparison) : comparison :=
  match c with Eq => d | _ => c end.

Definition ord_le `{Ord A} (x y : A) : Prop := ord_cmp x y <> Gt.
Definition ord_lt `{Ord A} (x y : A) : Prop := ord_cmp x y = Lt.

#[export] Instance ord_le_dec `{Ord A} : RelDecision (@ord_le A _ _).
Proof.
  intros x y. unfold ord_le. destruct (ord_cmp x y) eqn:Hc; [left|left|right]; congruence.
Defined.

(** [sort]. *)
Definition vec_sort `{Ord A} (l : list A) : list A := merge_sort ord_le l.

(** [AddedItemsIter::next]: the state is what is left of the two vectors. *)
Fixpoint AddedItemsIter_next `{Ord A} (from to : list A) {struct from}
  : option (A * (list A * list A)) :=
  match from with
  | [] => match to with [] => None | next_to :: to' => Some (next_to, ([], to')) end
  | next_from :: from' =>
      match to with
      | [] => None
      | next_to :: to' =>
          match ord_cmp next_from next_to with
          | Lt => AddedItemsIter_next from' to
          | Eq => AddedItemsIter_next from' to'
          | Gt => Some (next_to, (from, to'))
          end
      end
  end.

(** Draining the iterator; every item uses up one element of [to]. *)
Fixpoint AddedItemsIter_drain `{Ord A} (fuel : nat) (from to : list A) : list A :=
  match fuel with
  | O => []
  | S fuel' =>
      match AddedItemsIter_next from to with
      | None => []
      | Some (x, (from', to')) => x :: AddedItemsIter_drain fuel' from' to'
      end
  end.

Definition AddedItemsIter `{Ord A} (from to : list A) : list A :=
  AddedItemsIter_drain (length to) from to.

(** Number of occurrences. *)
Definition count `{EqDecision A} (x : A) (l : list A) : nat := length (filter (x =.) l).

(** ** The order *)
Section Order.
Context `{Ord A}.

Lemma ord_cmp_refl (x : A) : ord_cmp x x = Eq.
Proof. by apply ord_cmp_eq. Qed.

Lemma ord_cmp_Gt (x y : A) : ord_cmp x y = Gt <-> ord_lt y x.
Proof.
  unfold ord_lt. rewrite (ord_cmp_antisym x y). destruct (ord_cmp x y); cbn; split; congruence.
Qed.

Lemma ord_le_lteq (x y : A) : ord_le x y <-> ord_lt x y \/ x = y.
Proof.
  unfold ord_le, ord_lt. rewrite <- ord_cmp_eq.
  destruct (ord_cmp x y); split; try tauto; try congruence; intros [?|?]; congruence.
Qed.

Lemma ord_lt_irrefl (x : A) : ~ ord_lt x x.
Proof. unfold ord_lt. rewrite ord_cmp_refl. done. Qed.

Lemma ord_lt_trans (x y z : A) : ord_lt x y -> ord_lt y z -> ord_lt x z.
Proof. apply ord_cmp_trans. Qed.

#[export] Instance ord_le_trans : Transitive (@ord_le A _ _).
Proof. intros x y z. rewrite !ord_le_lteq. intros [?| ->] [?| ->]; eauto using ord_lt_trans. Qed.

#[export] Instance ord_le_total : Total (@ord_le A _ _).
Proof.
  intros x y. unfold ord_le. rewrite (ord_cmp_antisym x y). destruct (ord_cmp x y); cbn; naive_solver.
Qed.

#[export] Instance ord_le_antisymm : AntiSymm (=) (@ord_le A _ _).
Proof.
  intros x y. rewrite !ord_le_lteq. intros [Hxy| ->] [Hyx|Heq]; try done.
  exfalso. eapply ord_lt_irrefl, ord_lt_trans; eauto.
Qed.

Lemma vec_sort_sorted (l : list A) : StronglySorted ord_le (vec_sort l).
Proof. apply StronglySorted_merge_sort; apply _. Qed.

Lemma vec_sort_perm (l : list A) : vec_sort l ≡ₚ l.
Proof. apply merge_sort_Permutation. Qed.

Lemma sorted_unique (l1 l2 : list A) :
  StronglySorted ord_le l1 -> StronglySorted ord_le l2 -> l1 ≡ₚ l2 -> l1 = l2.
Proof. intros ? ? ?. by eapply (StronglySorted_unique ord_le). Qed.

(** Sorting forgets the order of its argument, and nothing else. *)
Lemma vec_sort_eq (l1 l2 : list A) : vec_sort l1 = vec_sort l2 <-> l1 ≡ₚ l2.
Proof.
  split.
  - intros Heq. by rewrite <- (vec_sort_perm l1), Heq, vec_sort_perm.
  - intros Hp. apply sorted_unique; try apply vec_sort_sorted. by rewrite !vec_sort_perm.
Qed.

(** ** Counting *)
Lemma count_cons (x y : A) (l : list A) :
  count x (y :: l) = ((if decide (x = y) then 1 else 0) + count x l)%nat.
Proof. unfold count. rewrite filter_cons. repeat case_decide; cbn; congruence || lia. Qed.

Lemma count_notin (x : A) (l : list A) : x ∉ l -> count x l = 0%nat.
Proof.
  induction l as [|y l IH]; [done|]. rewrite not_elem_of_cons, count_cons.
  intros [Hne Hl]. case_decide; [done|]. auto.
Qed.

Lemma count_vec_sort (x : A) (l : list A) : count x (vec_sort l) = count x l.
Proof. unfold count. by rewrite vec_sort_perm. Qed.

Lemma sorted_head_notin (x y : A) (l : list A) :
  ord_lt x y -> StronglySorted ord_le (y :: l) -> x ∉ y :: l.
Proof.
  intros Hlt [_ Hall]%StronglySorted_inv [->|Hin]%elem_of_cons; [by eapply ord_lt_irrefl|].
  rewrite Forall_forall in Hall. apply Hall in Hin. rewrite ord_le_lteq in Hin.
  destruct Hin as [Hyx| ->]; eapply ord_lt_irrefl; eauto using ord_lt_trans.
Qed.

(** ** The iterator *)
Lemma AddedItemsIter_next_None (from to : list A) :
  StronglySorted ord_le from -> StronglySorted ord_le to ->
  AddedItemsIter_next from to = None -> forall y, (count y to <= count y from)%nat.
Proof.
  revert to. induction from as [|f from IH]; intros to Hf Ht Hn y.
  - destruct to; [done|discriminate].
  - destruct to as [|t to]; [cbn; lia|]. cbn in Hn.
    pose proof (StronglySorted_inv Hf) as [Hf' _]. pose proof (StronglySorted_inv Ht) as [Ht' _].
    destruct (ord_cmp f t) eqn:Hc; [| |discriminate].
    + apply ord_cmp_eq in Hc as ->. specialize (IH to Hf' Ht' Hn y). rewrite !count_cons. lia.
    + specialize (IH (t :: to) Hf' Ht Hn y). rewrite (count_cons y f). lia.
Qed.

Lemma AddedItemsIter_next_Some (from to from' to' : list A) (x : A) :
  StronglySorted ord_le from -> StronglySorted ord_le to ->
  AddedItemsIter_next from to = Some (x, (from', to')) ->
  StronglySorted ord_le from' /\ StronglySorted ord_le to' /\ (length to' < length to)%nat /\
  x :: to' `suffix_of` to /\
  forall y, (count y to - count y from
             = (if decide (y = x) then 1 else 0) + (count y to' - count y from'))%nat.
Proof.
  revert to. induction from as [|f from IH]; intros to Hf Ht Hn.
  - destruct to as [|t to]; simplify_eq/=. apply StronglySorted_inv in Ht as [Ht _].
    split_and!; [constructor|done|lia|done|]. intros y. rewrite count_cons. cbn. lia.
  - destruct to as [|t to]; [discriminate|]. cbn in Hn.
    pose proof (StronglySorted_inv Hf) as [Hf' _]. pose proof (StronglySorted_inv Ht) as [Ht' _].
    destruct (ord_cmp f t) eqn:Hc.
    + apply ord_cmp_eq in Hc as ->. destruct (IH to Hf' Ht' Hn) as (? & ? & ? & ? & Hy).
      split_and!; [done|done|cbn; lia|by apply suffix_cons_r|].
      intros y. rewrite <- Hy, !count_cons. lia.
    + destruct (IH (t :: to) Hf' Ht Hn) as (? & ? & ? & ? & Hy).
      split_and!; try done. intros y. rewrite <- Hy, (count_cons y f).
      case_decide as Hd; [|lia]. subst.
      rewrite (count_notin f (t :: to)) by (by apply sorted_head_notin). lia.
    + simplify_eq. split_and!; [done|done|cbn; lia|done|]. intros y. rewrite (count_cons y x).
      case_decide as Hd; [|lia]. subst.
      rewrite (count_notin x (f :: from)); [lia|]. apply sorted_head_notin; [by apply ord_cmp_Gt|done].
Qed.

Lemma AddedItemsIter_drain_count (fuel : nat) (from to : list A) (y : A) :
  StronglySorted ord_le from -> StronglySorted ord_le to -> (length to <= fuel)%nat ->
  count y (AddedItemsIter_drain fuel from to) = (count y to - count y from)%nat.
Proof.
  revert from to. induction fuel as [|fuel IH]; intros from to Hf Ht Hl; cbn [AddedItemsIter_drain].
  - destruct to; cbn in *; [done|lia].
  - destruct (AddedItemsIter_next from to) as [[x [from' to']]|] eqn:Hn.
    + destruct (AddedItemsIter_next_Some from to from' to' x Hf Ht Hn) as (? & ? & ? & _ & Hy).
      rewrite count_cons, IH by (done || lia). by rewrite Hy.
    + pose proof (AddedItemsIter_next_None from to Hf Ht Hn y). cbn. lia.
Qed.

Lemma AddedItemsIter_drain_sublist (fuel : nat) (from to : list A) :
  StronglySorted ord_le from -> StronglySorted ord_le to ->
  AddedItemsIter_drain fuel from to `sublist_of` to.
Proof.
  revert from to. induction fuel as [|fuel IH]; intros from to Hf Ht; cbn; [apply sublist_nil_l|].
  destruct (AddedItemsIter_next from to) as [[x [from' to']]|] eqn:Hn; [|apply sublist_nil_l].
  destruct (AddedItemsIter_next_Some from to from' to' x Hf Ht Hn) as (? & ? & _ & [p ->] & _).
  apply sublist_inserts_l. apply sublist_skip. by apply IH.
Qed.
End Order.

(** ** Integers and pairs *)
#[export] Program Instance Z_ord : Ord Z := {| ord_cmp := Z.compare |}.
Next Obligation. intros x y. apply Z.compare_eq_iff. Qed.
Next Obligation. intros x y. apply Z.compare_antisym. Qed.
Next Obligation. intros x y z. rewrite !Z.compare_lt_iff. lia. Qed.

(** [then_with] on two ordered parts keeps the laws of [Ord]. *)
Lemma then_with_Lt (c d : comparison) : then_with c d = Lt <-> c = Lt \/ (c = Eq /\ d = Lt).
Proof. destruct c; cbn; intuition congruence. Qed.

Lemma then_with_Eq (c d : comparison) : then_with c d = Eq <-> c = Eq /\ d = Eq.
Proof. destruct c; cbn; intuition congruence. Qed.

Lemma then_with_CompOpp (c d : comparison) : CompOpp (then_with c d) = then_with (CompOpp c) (CompOpp d).
Proof. by destruct c. Qed.

#[export] Hint Rewrite then_with_Lt then_with_Eq then_with_CompOpp : signer.

(** Vectors compare element by element. *)
Fixpoint list_cmp `{Ord A} (x y : list A) : comparison :=
  match x, y with
  | [], [] => Eq
  | [], _ :: _ => Lt
  | _ :: _, [] => Gt
  | a :: x, b :: y => then_with (ord_cmp a b) (list_cmp x y)
  end.

#[export] Program Instance list_ord `{Ord A} : Ord (list A) := {| ord_cmp := list_cmp |}.
Next Obligation.
  intros A EA OA x. induction x as [|a x IH]; intros [|b y]; try done. cbn [list_cmp].
  rewrite then_with_Eq, ord_cmp_eq, IH. split; [intros [-> ->]; done|by intros [= -> ->]].
Qed.
Next Obligation.
  intros A EA OA x. induction x as [|a x IH]; intros [|b y]; try done. cbn [list_cmp].
  rewrite (ord_cmp_antisym a b), IH. by destruct (ord_cmp a b).
Qed.
Next Obligation.
  intros A EA OA x. induction x as [|a x IH]; intros [|b y] [|c z]; try done. cbn [list_cmp].
  rewrite !then_with_Lt. intros [Hab|[Hab Hxy]] [Hbc|[Hbc Hyz]].
  - left. by eapply ord_cmp_trans.
  - left. by apply ord_cmp_eq in Hbc as <-.
  - left. by apply ord_cmp_eq in Hab as ->.
  - right. apply ord_cmp_eq in Hab as ->, Hbc as ->. split; [by apply ord_cmp_eq|by eapply IH].
Qed.

(** ** Properties *)

(** On two sorted vectors the iterator yields the multiset difference: an
    element that occurs [a] times in [to] and [b] times in [from] is yielded
    [a - b] times, in the order of [to]. *)
Theorem added_items_difference `{Ord A} (from to : list A) :
  StronglySorted ord_le from -> StronglySorted ord_le to ->
  AddedItemsIter from to `sublist_of` to /\
  forall y, count y (AddedItemsIter from to) = (count y to - count y from)%nat.
Proof.
  intros Hf Ht. split; [by apply AddedItemsIter_drain_sublist|].
  intros y. by apply AddedItemsIter_drain_count.
Qed.

Lemma added_items_difference_witness :
  AddedItemsIter [1; 3; 3; 5] [1; 2; 3; 3; 3] = [2; 3] /\
  AddedItemsIter [1; 3; 3; 5] [1; 2; 3; 3; 3] `sublist_of` [1; 2; 3; 3; 3].
Proof.
  split; [reflexivity|].
  apply (added_items_difference [1; 3; 3; 5] [1; 2; 3; 3; 3]);
    repeat constructor; vm_compute; congruence.
Defined.
