(* ===== verification/CommitInfo.v ===== *)
(** * Commitment information: [vls-core/src/tx/tx.rs]

    [HTLCInfo2] with its order, [CommitmentInfo2] and its methods.  A payment
    hash, an array of 32 bytes, is its big-endian value: the byte order of the
    arrays is the order of the values. *)
From S2P Require Import Prelude Ordered.

Abbreviation PaymentHash := Z (only parsing).

Record HTLCInfo2 := mkHTLCInfo2 {
  value_sat : Z;
  payment_hash : PaymentHash;
  cltv_expiry : Z
}.

#[export] Instance HTLCInfo2_eq_dec : EqDecision HTLCInfo2.
Proof. solve_decision. Defined.

(** [impl Ord for HTLCInfo2]. *)
Definition HTLCInfo2_cmp (self other : HTLCInfo2) : comparison :=
  then_with (Z.compare self.(value_sat) other.(value_sat))
    (then_with (Z.compare self.(payment_hash) other.(payment_hash))
       (Z.compare self.(cltv_expiry) other.(cltv_expiry))).

#[export] Program Instance HTLCInfo2_ord : Ord HTLCInfo2 := {| ord_cmp := HTLCInfo2_cmp |}.
Next Obligation.
  intros [v p c] [v' p' c']. unfold HTLCInfo2_cmp. cbn. rewrite !then_with_Eq, !Z.compare_eq_iff.
  split; [intros (-> & -> & ->); done|intros [= -> -> ->]; done].
Qed.
Next Obligation.
  intros [v p c] [v' p' c']. unfold HTLCInfo2_cmp. cbn.
  by rewrite !then_with_CompOpp, <- !Z.compare_antisym.
Qed.
Next Obligation.
  intros [v p c] [v' p' c'] [v'' p'' c'']. unfold HTLCInfo2_cmp. cbn.
  rewrite !then_with_Lt, !Z.compare_lt_iff, !Z.compare_eq_iff. lia.
Qed.

(** The trait [PreimageMap]. *)
Class PreimageMap (T : Type) := has_preimage : T -> PaymentHash -> bool.

Record CommitmentInfo2 := mkCommitmentInfo2 {
  is_counterparty_broadcaster : bool;
  to_countersigner_value_sat : Z;
  to_broadcaster_value_sat : Z;
  offered_htlcs : list HTLCInfo2;
  received_htlcs : list HTLCInfo2;
  feerate_per_kw : Z
}.

#[export] Instance CommitmentInfo2_eq_dec : EqDecision CommitmentInfo2.
Proof. solve_decision. Defined.

Definition CommitmentInfo2_new (is_counterparty_broadcaster : bool)
    (to_countersigner_value_sat to_broadcaster_value_sat : Z)
    (offered_htlcs received_htlcs : list HTLCInfo2) (feerate_per_kw : Z) : CommitmentInfo2 :=
  mkCommitmentInfo2 is_counterparty_broadcaster to_countersigner_value_sat
    to_broadcaster_value_sat (vec_sort offered_htlcs) (vec_sort received_htlcs) feerate_per_kw.

Definition htlcs_is_empty (self : CommitmentInfo2) : bool :=
  bool_decide (self.(offered_htlcs) = []) && bool_decide (self.(received_htlcs) = []).

Definition delta_offered_htlcs (self new : CommitmentInfo2) : list HTLCInfo2 * list HTLCInfo2 :=
  (AddedItemsIter self.(offered_htlcs) new.(offered_htlcs),
   AddedItemsIter new.(offered_htlcs) self.(offered_htlcs)).

Definition delta_received_htlcs (self new : CommitmentInfo2) : list HTLCInfo2 * list HTLCInfo2 :=
  (AddedItemsIter self.(received_htlcs) new.(received_htlcs),
   AddedItemsIter new.(received_htlcs) self.(received_htlcs)).

(** Values to the holder and to the counterparty. *)
Definition value_to_parties (self : CommitmentInfo2) : Z * Z :=
  if self.(is_counterparty_broadcaster)
  then (self.(to_countersigner_value_sat), self.(to_broadcaster_value_sat))
  else (self.(to_broadcaster_value_sat), self.(to_countersigner_value_sat)).

(** HTLCs the holder offers and receives. *)
Definition holder_htlcs (self : CommitmentInfo2) : list HTLCInfo2 * list HTLCInfo2 :=
  if self.(is_counterparty_broadcaster)
  then (self.(received_htlcs), self.(offered_htlcs))
  else (self.(offered_htlcs), self.(received_htlcs)).

Definition total_value `{Profile} {E : Type} (self : CommitmentInfo2) : res E Z :=
  s1 ← add_u64 self.(to_broadcaster_value_sat) self.(to_countersigner_value_sat);
  offered ← sum_u64 (value_sat <$> self.(offered_htlcs));
  s2 ← add_u64 s1 offered;
  received ← sum_u64 (value_sat <$> self.(received_htlcs));
  add_u64 s2 received.

Definition claimable_balance `{Profile} {E T : Type} `{PreimageMap T} (self : CommitmentInfo2)
    (preimage_map : T) (is_outbound : bool) (channel_value : Z) : res E (option Z) :=
  let balance := (value_to_parties self).1 in
  balance ← (if is_outbound then
               total_value ← total_value self;
               Ok (fee ← checked_sub 64 channel_value total_value; checked_add 64 balance fee)
             else Ok (Some balance));
  let '(offered, received) := holder_htlcs self in
  Ok (balance ← balance;
      balance ← fold_opt (fun b o =>
        if negb (has_preimage preimage_map o.(payment_hash)) then checked_add 64 b o.(value_sat)
        else Some b) balance offered;
      fold_opt (fun b r =>
        if has_preimage preimage_map r.(payment_hash) then checked_add 64 b r.(value_sat)
        else Some b) balance received).

Definition htlc_balance {E : Type} (self : CommitmentInfo2) : res E (Z * Z * Z * Z) :=
  let '(offered, received) := holder_htlcs self in
  sum_offered ← fold_res (fun b o => unwrap (checked_add 64 b o.(value_sat))) 0 offered;
  sum_received ← fold_res (fun b r => unwrap (checked_add 64 b r.(value_sat))) 0 received;
  Ok (sum_received, sum_offered,
      Z.of_nat (length received) mod 2 ^ 32, Z.of_nat (length offered) mod 2 ^ 32).

(** ** What the parties can claim *)
Definition values (l : list HTLCInfo2) : Z := zsum (value_sat <$> l).

(** Value of the HTLCs whose preimage is known, or unknown. *)
Definition known_value `{PreimageMap T} (pm : T) (known : bool) (l : list HTLCInfo2) : Z :=
  values (filter (fun h => has_preimage pm h.(payment_hash) = known) l).

Definition total (self : CommitmentInfo2) : Z :=
  self.(to_broadcaster_value_sat) + self.(to_countersigner_value_sat)
  + values self.(offered_htlcs) + values self.(received_htlcs).

Definition holder_claims `{PreimageMap T} (self : CommitmentInfo2) (pm : T) : Z :=
  (value_to_parties self).1 + known_value pm false (holder_htlcs self).1
  + known_value pm true (holder_htlcs self).2.

Definition counterparty_claims `{PreimageMap T} (self : CommitmentInfo2) (pm : T) : Z :=
  (value_to_parties self).2 + known_value pm true (holder_htlcs self).1
  + known_value pm false (holder_htlcs self).2.

(** The values fit the types of the fields. *)
Record CommitmentInfo2_wf (self : CommitmentInfo2) : Prop := {
  wf_countersigner : u64 self.(to_countersigner_value_sat);
  wf_broadcaster : u64 self.(to_broadcaster_value_sat);
  wf_offered : Forall (fun h => u64 h.(value_sat)) self.(offered_htlcs);
  wf_received : Forall (fun h => u64 h.(value_sat)) self.(received_htlcs)
}.

Lemma values_nonneg (l : list HTLCInfo2) : Forall (fun h => u64 h.(value_sat)) l -> 0 <= values l.
Proof.
  intros Hl. apply zsum_nonneg, Forall_fmap. eapply Forall_impl; [exact Hl|]. unfold uint. cbn. lia.
Qed.

Lemma values_cons (h : HTLCInfo2) (l : list HTLCInfo2) : values (h :: l) = h.(value_sat) + values l.
Proof. done. Qed.

Lemma known_value_split `{PreimageMap T} (pm : T) (l : list HTLCInfo2) :
  known_value pm true l + known_value pm false l = values l.
Proof.
  unfold known_value. induction l as [|h l IH]; [done|].
  rewrite !filter_cons, (values_cons h l), <- IH.
  destruct (has_preimage pm (payment_hash h)); repeat case_decide;
    rewrite ?values_cons; (lia || congruence).
Qed.

Lemma known_value_nonneg `{PreimageMap T} (pm : T) (b : bool) (l : list HTLCInfo2) :
  Forall (fun h => u64 h.(value_sat)) l -> 0 <= known_value pm b l.
Proof. intros Hl. by apply values_nonneg, Forall_filter_sub. Qed.

(** Nothing is claimed twice and nothing is lost. *)
Lemma claims_total `{PreimageMap T} (self : CommitmentInfo2) (pm : T) :
  holder_claims self pm + counterparty_claims self pm = total self.
Proof.
  unfold holder_claims, counterparty_claims, total, value_to_parties, holder_htlcs.
  pose proof (known_value_split pm self.(offered_htlcs)).
  pose proof (known_value_split pm self.(received_htlcs)).
  destruct self.(is_counterparty_broadcaster); cbn [fst snd]; lia.
Qed.

(** The loops of [claimable_balance] as sums. *)
Lemma claim_loop `{PreimageMap T} (pm : T) (known : bool) (l : list HTLCInfo2) (b : Z) :
  0 <= b < 2 ^ 64 -> Forall (fun h => u64 h.(value_sat)) l ->
  fold_opt (fun b h => if Bool.eqb (has_preimage pm h.(payment_hash)) known
                       then checked_add 64 b h.(value_sat) else Some b) b l
  = checked 64 (b + known_value pm known l).
Proof.
  intros Hb Hl.
  pose (f h := if Bool.eqb (has_preimage pm (payment_hash h)) known then Some h.(value_sat) else None).
  transitivity (fold_opt (fun b h => match f h with Some z => checked_add 64 b z | None => Some b end) b l).
  { clear. unfold f. revert b. induction l as [|h l IH]; intros b; cbn; [done|].
    destruct (Bool.eqb _ known); [|apply IH]. destruct (checked_add 64 b _); cbn; [apply IH|done]. }
  rewrite fold_checked_add; [|done|].
  - do 2 f_equal. unfold known_value, values, f. clear. induction l as [|h l IH]; [done|].
    rewrite filter_cons. cbn [omap list_omap].
    destruct (has_preimage pm (payment_hash h)), known; cbn [Bool.eqb]; case_decide; try done;
      unfold zsum in *; cbn; by rewrite <- IH.
  - eapply Forall_impl; [exact Hl|]. unfold f, uint. intros h Hh z. case_match; [|done].
    intros [= <-]. lia.
Qed.

Lemma total_value_Ok `{Profile} {E : Type} (self : CommitmentInfo2) :
  CommitmentInfo2_wf self -> total self < 2 ^ 64 -> total_value (E:=E) self = Ok (total self).
Proof.
  intros [Hc Hb Ho Hr] Ht. unfold total_value, total, values in *. unfold uint in Hc, Hb.
  pose proof (values_nonneg _ Ho) as Ho'. pose proof (values_nonneg _ Hr) as Hr'. unfold values in *.
  assert (Hnn : forall l, Forall (fun h => u64 h.(value_sat)) l -> Forall (fun z => 0 <= z) (value_sat <$> l)).
  { intros l Hl. apply Forall_fmap. eapply Forall_impl; [exact Hl|]. unfold uint. cbn. lia. }
  res_step add_u64_Ok by (unfold uint; lia). res_step sum_u64_Ok by (auto; lia).
  res_step add_u64_Ok by (unfold uint; lia). res_step sum_u64_Ok by (auto; lia).
  apply add_u64_Ok. unfold uint. lia.
Qed.

(** The whole of [claimable_balance] after the fee was added. *)
Lemma claim_loops `{PreimageMap T} (pm : T) (self : CommitmentInfo2) (b : Z) :
  CommitmentInfo2_wf self -> 0 <= b ->
  b + known_value pm false (holder_htlcs self).1 + known_value pm true (holder_htlcs self).2 < 2 ^ 64 ->
  (let '(offered, received) := holder_htlcs self in
   balance ← fold_opt (fun b o =>
     if negb (has_preimage pm o.(payment_hash)) then checked_add 64 b o.(value_sat) else Some b) b offered;
   fold_opt (fun b r =>
     if has_preimage pm r.(payment_hash) then checked_add 64 b r.(value_sat) else Some b) balance received)
  = Some (b + known_value pm false (holder_htlcs self).1 + known_value pm true (holder_htlcs self).2).
Proof.
  intros [_ _ Hwo Hwr] Hb. destruct (holder_htlcs self) as [o r] eqn:Hh. cbn [fst snd].
  assert (Ho : Forall (fun h => u64 h.(value_sat)) o /\ Forall (fun h => u64 h.(value_sat)) r).
  { unfold holder_htlcs in Hh. destruct self.(is_counterparty_broadcaster); by simplify_eq. }
  destruct Ho as [Ho Hr]. intros Hlt.
  pose proof (known_value_nonneg pm false o Ho). pose proof (known_value_nonneg pm true r Hr).
  erewrite (fold_opt_ext _ (fun b h => if Bool.eqb (has_preimage pm h.(payment_hash)) false
                            then checked_add 64 b h.(value_sat) else Some b) o)
    by (intros ? x; by destruct (has_preimage pm (payment_hash x))).
  rewrite claim_loop by (done || lia).
  rewrite (proj2 (checked_Some 64 _ _)) by (split; [done|unfold uint; lia]). cbn [mbind option_bind].
  erewrite (fold_opt_ext _ (fun b h => if Bool.eqb (has_preimage pm h.(payment_hash)) true
                            then checked_add 64 b h.(value_sat) else Some b) r)
    by (intros ? x; by destruct (has_preimage pm (payment_hash x))).
  rewrite claim_loop by (done || lia). apply checked_Some. split; [done|unfold uint; lia].
Qed.

(** ** Properties *)

(** The claimable balance is the channel value minus what the counterparty
    can claim when the holder pays the fee, and what the holder can claim when
    not; totals above the channel value give [None].  An HTLC counts for
    exactly one side, by direction and by whether its preimage is known. *)
Theorem claimable_balance_conservation `{Profile} (E T : Type) `{PreimageMap T}
    (self : CommitmentInfo2) (pm : T) (channel_value : Z) :
  CommitmentInfo2_wf self -> u64 channel_value -> total self < 2 ^ 64 ->
  claimable_balance (E:=E) self pm true channel_value =
    Ok (if decide (total self <= channel_value)
        then Some (channel_value - counterparty_claims self pm) else None) /\
  claimable_balance (E:=E) self pm false channel_value = Ok (Some (holder_claims self pm)).
Proof.
  intros Hwf Hcv Htot. pose proof (claims_total self pm) as Hct.
  pose proof Hwf as [Hc Hb Ho Hr]. unfold uint in Hcv, Hc, Hb.
  assert (Hv : 0 <= (value_to_parties self).1 /\ 0 <= (value_to_parties self).2)
    by (unfold value_to_parties; destruct self.(is_counterparty_broadcaster); cbn; lia).
  assert (Hp : (value_to_parties self).1 + (value_to_parties self).2 <= total self).
  { pose proof (values_nonneg _ Ho). pose proof (values_nonneg _ Hr). unfold total, value_to_parties.
    destruct self.(is_counterparty_broadcaster); cbn [fst snd]; lia. }
  assert (Hk : 0 <= counterparty_claims self pm).
  { unfold counterparty_claims, holder_htlcs.
    pose proof (known_value_nonneg pm true _ Ho). pose proof (known_value_nonneg pm false _ Ho).
    pose proof (known_value_nonneg pm true _ Hr). pose proof (known_value_nonneg pm false _ Hr).
    destruct self.(is_counterparty_broadcaster); cbn [fst snd]; lia. }
  unfold claimable_balance. split.
  - rewrite total_value_Ok by done. cbn [mbind res_bind]. unfold checked_sub, checked_add.
    pose proof (claim_loops pm self) as Hl. unfold holder_claims in Hct.
    destruct (holder_htlcs self) as [o r] eqn:Hh. cbn [fst snd] in *. case_decide as Hle.
    + rewrite (proj2 (checked_Some 64 _ _)) by (split; [done|unfold uint; lia]). cbn [mbind option_bind].
      rewrite (proj2 (checked_Some 64 _ _))
        by (split; [done|unfold uint; lia]).
      cbn [mbind option_bind]. rewrite Hl by (done || lia). do 2 f_equal. lia.
    + rewrite (proj2 (checked_None 64 _)) by (unfold uint; lia). done.
  - cbn [mbind res_bind]. pose proof (claim_loops pm self) as Hl. unfold holder_claims in *.
    destruct (holder_htlcs self) as [o r]. cbn [fst snd mbind option_bind] in *.
    rewrite Hl by (done || lia). done.
Qed.

#[export] Instance list_preimage_map : PreimageMap (list Z) := fun known h => bool_decide (h ∈ known).

Lemma claimable_balance_conservation_witness :
  let info := mkCommitmentInfo2 true 400 500 [mkHTLCInfo2 30 7 100] [mkHTLCInfo2 40 8 100; mkHTLCInfo2 5 9 90] 253 in
  @claimable_balance release_profile unit _ _ info [7; 8] true 1000
    = Ok (Some (1000 - counterparty_claims info [7; 8])) /\ counterparty_claims info [7; 8] = 540.
Proof.
  split; [|reflexivity].
  apply (@claimable_balance_conservation release_profile unit (list Z) list_preimage_map
    (mkCommitmentInfo2 true 400 500 [mkHTLCInfo2 30 7 100] [mkHTLCInfo2 40 8 100; mkHTLCInfo2 5 9 90] 253)
    [7; 8] 1000).
  - constructor; cbn; repeat constructor; cbn; lia.
  - split; lia.
  - vm_compute. reflexivity.
Defined.

(** [CommitmentInfo2::new] is a canonical form: two constructions are equal
    exactly when their scalars agree and their HTLCs are the same up to order.
    The retry checks, which compare two infos by [==], rely on this. *)
Theorem commitment_info_canonical (b b' : bool) (c c' t t' f f' : Z) (o o' r r' : list HTLCInfo2) :
  CommitmentInfo2_new b c t o r f = CommitmentInfo2_new b' c' t' o' r' f' <->
  b = b' /\ c = c' /\ t = t' /\ f = f' /\ o ≡ₚ o' /\ r ≡ₚ r'.
Proof.
  unfold CommitmentInfo2_new. rewrite <- !vec_sort_eq.
  split; [intros [= -> -> -> -> -> ->]; done|intros (-> & -> & -> & -> & -> & ->); done].
Qed.

(** Between two infos built by [new], the deltas of the offered and of the
    received HTLCs list exactly the HTLCs that were added and removed, with
    multiplicity. *)
Theorem commitment_info_deltas (b b' : bool) (c c' t t' f f' : Z) (o o' r r' : list HTLCInfo2) (h : HTLCInfo2) :
  let old := CommitmentInfo2_new b c t o r f in
  let new := CommitmentInfo2_new b' c' t' o' r' f' in
  count h (delta_offered_htlcs old new).1 = (count h o' - count h o)%nat /\
  count h (delta_offered_htlcs old new).2 = (count h o - count h o')%nat /\
  count h (delta_received_htlcs old new).1 = (count h r' - count h r)%nat /\
  count h (delta_received_htlcs old new).2 = (count h r - count h r')%nat.
Proof.
  intros old new. subst old new. unfold delta_offered_htlcs, delta_received_htlcs, AddedItemsIter.
  cbn [fst snd offered_htlcs received_htlcs CommitmentInfo2_new].
  split_and!; (rewrite AddedItemsIter_drain_count; [|apply vec_sort_sorted..|done]);
    by rewrite !count_vec_sort.
Qed.
