(* ===== verification/Types.v ===== *)
(** * Channel data: [vls-core/src/channel.rs]

    Identifiers, the negotiated parameters of a channel and its balances.  Keys,
    signatures, scripts and transaction ids are values of other packages that
    this code only compares: each is an integer. *)
From S2P Require Import Prelude.

Abbreviation PublicKey := Z (only parsing).
Abbreviation SecretKey := Z (only parsing).
Abbreviation Signature := Z (only parsing).
Abbreviation ScriptBuf := Z (only parsing).
Abbreviation Txid := Z (only parsing).
Abbreviation BlockHash := Z (only parsing).

Record OutPoint := mkOutPoint { txid : Txid; vout : Z }.

#[export] Instance OutPoint_eq_dec : EqDecision OutPoint.
Proof. solve_decision. Defined.
#[export] Program Instance OutPoint_countable : Countable OutPoint :=
  inj_countable' (fun o => (o.(txid), o.(vout))) (fun p => mkOutPoint p.1 p.2) _.
Next Obligation. by intros []. Qed.

(** ** [ChannelId] *)
Abbreviation ChannelId := (list Z) (only parsing).

(** [to_le_bytes] and [from_le_bytes] of an [n]-byte integer. *)
Fixpoint to_le_bytes (n : nat) (z : Z) : list Z :=
  match n with
  | O => []
  | S n' => z mod 256 :: to_le_bytes n' (z / 256)
  end.

Fixpoint from_le_bytes (l : list Z) : Z :=
  match l with
  | [] => 0
  | b :: l' => b + 256 * from_le_bytes l'
  end.

Definition new_from_oid (oid : Z) : ChannelId := replicate 24 0 ++ to_le_bytes 8 oid.

Definition new_from_peer_id_and_oid (peer_id : list Z) (oid : Z) : ChannelId :=
  peer_id ++ to_le_bytes 8 oid.

(** The slice of the last 8 bytes panics on a shorter id. *)
Definition ChannelId_oid {E : Type} (self : ChannelId) : res E Z :=
  if (length self <? 8)%nat then Panic
  else Ok (from_le_bytes (drop (length self - 8) self)).

(** [copy_from_slice] panics unless the lengths agree. *)
Definition ldk_channel_keys_id {E : Type} (self : ChannelId) : res E (list Z) :=
  if (length self =? 32)%nat then Ok self else Panic.

(** ** [ChannelSetup] *)
Inductive CommitmentType := Legacy | StaticRemoteKey | Anchors | AnchorsZeroFeeHtlc.

#[export] Instance CommitmentType_eq_dec : EqDecision CommitmentType.
Proof. solve_decision. Defined.

(** [ChannelPublicKeys] of the lightning package. *)
Record ChannelPublicKeys := mkChannelPublicKeys {
  funding_pubkey : PublicKey;
  revocation_basepoint : PublicKey;
  payment_point : PublicKey;
  delayed_payment_basepoint : PublicKey;
  htlc_basepoint : PublicKey
}.

#[export] Instance ChannelPublicKeys_eq_dec : EqDecision ChannelPublicKeys.
Proof. solve_decision. Defined.

Record ChannelSetup := mkChannelSetup {
  is_outbound : bool;
  channel_value_sat : Z;
  push_value_msat : Z;
  funding_outpoint : OutPoint;
  holder_selected_contest_delay : Z;
  holder_shutdown_script : option ScriptBuf;
  counterparty_points : ChannelPublicKeys;
  counterparty_selected_contest_delay : Z;
  counterparty_shutdown_script : option ScriptBuf;
  commitment_type : CommitmentType
}.

#[export] Instance ChannelSetup_eq_dec : EqDecision ChannelSetup.
Proof. solve_decision. Defined.

Definition is_static_remotekey (self : ChannelSetup) : bool :=
  bool_decide (self.(commitment_type) <> Legacy).

Definition is_anchors (self : ChannelSetup) : bool :=
  bool_decide (self.(commitment_type) = Anchors)
  || bool_decide (self.(commitment_type) = AnchorsZeroFeeHtlc).

Definition is_zero_fee_htlc (self : ChannelSetup) : bool :=
  bool_decide (self.(commitment_type) = AnchorsZeroFeeHtlc).

(** ** [ChannelBalance] *)
Record ChannelBalance := mkChannelBalance {
  claimable : Z;
  received_htlc : Z;
  offered_htlc : Z;
  sweeping : Z;
  stub_count : Z;
  unconfirmed_count : Z;
  channel_count : Z;
  closing_count : Z;
  received_htlc_count : Z;
  offered_htlc_count : Z
}.

Definition ChannelBalance_zero : ChannelBalance := mkChannelBalance 0 0 0 0 0 0 0 0 0 0.
Definition ChannelBalance_stub : ChannelBalance := mkChannelBalance 0 0 0 0 1 0 0 0 0 0.

Definition accumulate `{Profile} {E : Type} (self other : ChannelBalance) : res E ChannelBalance :=
  claimable ← add_u64 self.(claimable) other.(claimable);
  received_htlc ← add_u64 self.(received_htlc) other.(received_htlc);
  offered_htlc ← add_u64 self.(offered_htlc) other.(offered_htlc);
  sweeping ← add_u64 self.(sweeping) other.(sweeping);
  stub_count ← add_u32 self.(stub_count) other.(stub_count);
  unconfirmed_count ← add_u32 self.(unconfirmed_count) other.(unconfirmed_count);
  channel_count ← add_u32 self.(channel_count) other.(channel_count);
  closing_count ← add_u32 self.(closing_count) other.(closing_count);
  received_htlc_count ← add_u32 self.(received_htlc_count) other.(received_htlc_count);
  offered_htlc_count ← add_u32 self.(offered_htlc_count) other.(offered_htlc_count);
  Ok (mkChannelBalance claimable received_htlc offered_htlc sweeping stub_count unconfirmed_count
        channel_count closing_count received_htlc_count offered_htlc_count).

(** ** Bytes *)
Lemma length_to_le_bytes (n : nat) (z : Z) : length (to_le_bytes n z) = n.
Proof. revert z. induction n as [|n IH]; intros z; cbn; [done|]. by rewrite IH. Qed.

Lemma from_to_le_bytes (n : nat) (z : Z) :
  0 <= z < 256 ^ Z.of_nat n -> from_le_bytes (to_le_bytes n z) = z.
Proof.
  revert z. induction n as [|n IH]; intros z Hz; [cbn in *; lia|]. cbn [to_le_bytes from_le_bytes].
  rewrite Nat2Z.inj_succ, Z.pow_succ_r in Hz by lia.
  rewrite IH.
  - pose proof (Z.div_mod z 256). lia.
  - split; [apply Z.div_pos; lia|]. apply Z.div_lt_upper_bound; lia.
Qed.

Lemma oid_suffix {E : Type} (p : list Z) (oid : Z) :
  u64 oid -> ChannelId_oid (E:=E) (p ++ to_le_bytes 8 oid) = Ok oid.
Proof.
  intros Hu. unfold ChannelId_oid. rewrite length_app, length_to_le_bytes.
  destruct (Nat.ltb_spec (length p + 8) 8); [lia|].
  replace (length p + 8 - 8)%nat with (length p) by lia.
  rewrite drop_app_length, from_to_le_bytes; [done|]. unfold uint in Hu. lia.
Qed.

(** ** Properties *)

(** Both ways of building a channel id keep the original id: [oid] reads
    it back, for every 64-bit id and every peer. *)
Theorem channel_id_oid_roundtrip (E : Type) (peer_id : list Z) (oid : Z) :
  u64 oid ->
  ChannelId_oid (E:=E) (new_from_oid oid) = Ok oid /\
  ldk_channel_keys_id (E:=E) (new_from_oid oid) = Ok (new_from_oid oid) /\
  ChannelId_oid (E:=E) (new_from_peer_id_and_oid peer_id oid) = Ok oid.
Proof. intros Hu. split_and!; [by apply oid_suffix|done|by apply oid_suffix]. Qed.

Lemma channel_id_oid_roundtrip_witness :
  ChannelId_oid (E:=unit) (new_from_oid 513) = Ok 513 /\ new_from_oid 513 = replicate 24 0 ++ [1; 2; 0; 0; 0; 0; 0; 0].
Proof. split; [apply (channel_id_oid_roundtrip unit [] 513); split; lia|reflexivity]. Defined.
