(* ===== verification/Bitcoin.v ===== *)
(** * Transactions and scripts of the bitcoin package

    The data of [bitcoin::Transaction] that the signer reads, and the functions
    of the package on scripts, keys and transactions as the class [BitcoinLib]: that
    code is not part of the repository, so every definition below that calls it
    takes it as an argument. *)
From S2P Require Import Prelude Types.

Record TxIn := mkTxIn { previous_output : OutPoint; sequence : Z }.
Record TxOut := mkTxOut { value : Z; script_pubkey : ScriptBuf }.
Record Transaction := mkTransaction {
  version : Z;
  lock_time : Z;
  input : list TxIn;
  output : list TxOut
}.

#[export] Instance TxIn_eq_dec : EqDecision TxIn.
Proof. solve_decision. Defined.
#[export] Instance TxOut_eq_dec : EqDecision TxOut.
Proof. solve_decision. Defined.
#[export] Instance Transaction_eq_dec : EqDecision Transaction.
Proof. solve_decision. Defined.

(** [bip32::DerivationPath]; the master path is the empty one. *)
Abbreviation DerivationPath := (list Z) (only parsing).

(** [script::Instruction]: an opcode or a push of bytes. *)
Inductive Instruction := Op (op : Z) | PushBytes (data : list Z).

#[export] Instance Instruction_eq_dec : EqDecision Instruction.
Proof. solve_decision. Defined.

Definition OP_PUSHNUM_1 : Z := 0x51.
Definition OP_PUSHNUM_2 : Z := 0x52.
Definition OP_PUSHNUM_16 : Z := 0x60.
Definition OP_IF : Z := 0x63.
Definition OP_NOTIF : Z := 0x64.
Definition OP_ELSE : Z := 0x67.
Definition OP_ENDIF : Z := 0x68.
Definition OP_IFDUP : Z := 0x73.
Definition OP_DROP : Z := 0x75.
Definition OP_DUP : Z := 0x76.
Definition OP_SWAP : Z := 0x7c.
Definition OP_SIZE : Z := 0x82.
Definition OP_EQUAL : Z := 0x87.
Definition OP_EQUALVERIFY : Z := 0x88.
Definition OP_HASH160 : Z := 0xa9.
Definition OP_CHECKSIG : Z := 0xac.
Definition OP_CHECKSIGVERIFY : Z := 0xad.
Definition OP_CHECKMULTISIG : Z := 0xae.
Definition OP_CLTV : Z := 0xb1.
Definition OP_CSV : Z := 0xb2.

Class BitcoinLib := {
  (** [Script::instructions]; [None] is an instruction that cannot be read. *)
  instructions : ScriptBuf -> list (option Instruction);
  (** The number that an opcode pushes, [Class::PushNum] of [classify]. *)
  push_num : Z -> option Z;
  read_scriptint : list Z -> option Z;
  ScriptBuf_from : list Z -> ScriptBuf;
  ScriptBuf_new : ScriptBuf;
  is_p2wpkh : ScriptBuf -> bool;
  is_p2wsh : ScriptBuf -> bool;
  to_p2wsh : ScriptBuf -> ScriptBuf;
  (** [Address::from_script]; an address is kept by its script. *)
  Address_from_script : ScriptBuf -> option ScriptBuf;
  PublicKey_from_slice : list Z -> option PublicKey;
  (** [weight().to_wu()] and [base_size()]. *)
  tx_weight : Transaction -> Z;
  base_size : Transaction -> Z;
  (** [lock_time.is_satisfied_by(height, Time::MIN)] and [Height::from_consensus]. *)
  lock_time_satisfied : Z -> Z -> bool;
  Height_from_consensus : Z -> option Z
}.
