(* ===== verification/Script.v ===== *)
(** * Scripts of a commitment transaction

    The parsers of [vls-core/src/tx/script.rs] and [tx/tx.rs], which recognise
    the outputs of a commitment transaction by their witness scripts, and
    [CommitmentInfo], what a commitment transaction decodes to.  An instruction
    iterator is the list of the instructions that are left. *)
From S2P Require Import Prelude Policy Types Bitcoin.

(** ** [tx/script.rs] *)
Section Expect.
Context `{BitcoinLib}.

Abbreviation Instructions := (list (option Instruction)) (only parsing).
Abbreviation parser A := (method (list (option Instruction)) ValidationError A) (only parsing).

Definition expect_next : parser Instruction := fun iter =>
  match iter with
  | [] => ([], Err mismatch_error)
  | None :: iter' => (iter', Err mismatch_error)
  | Some ins :: iter' => (iter', Ok ins)
  end.

Definition expect_op (op : Z) : parser unit :=
  ins ← expect_next;
  match ins with
  | Op o => if o =? op then mret tt else call (Err mismatch_error)
  | PushBytes _ => call (Err mismatch_error)
  end.

Definition expect_number : parser Z :=
  ins ← expect_next;
  call (ok_or mismatch_error
    match ins with
    | Op op => push_num op
    | PushBytes d => read_scriptint d
    end).

Definition expect_script_end : parser unit := fun iter =>
  match iter with
  | [] => ([], Ok tt)
  | _ :: iter' => (iter', Err mismatch_error)
  end.

Definition expect_data : parser (list Z) :=
  ins ← expect_next;
  match ins with
  | PushBytes d => mret d
  | Op _ => call (Err mismatch_error)
  end.

(** ** The script templates of [tx/tx.rs] *)
Definition parse_received_htlc_script (script : ScriptBuf) (is_anchors : bool)
  : res ValidationError (list Z * list Z * list Z * list Z * Z) :=
  snd ((
    expect_op OP_DUP ;;
    expect_op OP_HASH160 ;;
    revocation_hash ← expect_data;
    expect_op OP_EQUAL ;;
    expect_op OP_IF ;;
    expect_op OP_CHECKSIG ;;
    expect_op OP_ELSE ;;
    remote_htlc_pubkey ← expect_data;
    expect_op OP_SWAP ;;
    expect_op OP_SIZE ;;
    thirty_two ← expect_number;
    call (when (negb (thirty_two =? 32)) (Err mismatch_error)) ;;
    expect_op OP_EQUAL ;;
    expect_op OP_IF ;;
    expect_op OP_HASH160 ;;
    payment_hash_vec ← expect_data;
    expect_op OP_EQUALVERIFY ;;
    expect_op OP_PUSHNUM_2 ;;
    expect_op OP_SWAP ;;
    local_htlc_pubkey ← expect_data;
    expect_op OP_PUSHNUM_2 ;;
    expect_op OP_CHECKMULTISIG ;;
    expect_op OP_ELSE ;;
    expect_op OP_DROP ;;
    cltv_expiry ← expect_number;
    expect_op OP_CLTV ;;
    expect_op OP_DROP ;;
    expect_op OP_CHECKSIG ;;
    expect_op OP_ENDIF ;;
    (if is_anchors : bool then
       expect_op OP_PUSHNUM_1 ;;
       expect_op OP_CSV ;;
       expect_op OP_DROP
     else mret tt) ;;
    expect_op OP_ENDIF ;;
    expect_script_end ;;
    mret (revocation_hash, remote_htlc_pubkey, payment_hash_vec, local_htlc_pubkey, cltv_expiry))
  (instructions script)).

Definition parse_offered_htlc_script (script : ScriptBuf) (is_anchors : bool)
  : res ValidationError (list Z * list Z * list Z * list Z) :=
  snd ((
    expect_op OP_DUP ;;
    expect_op OP_HASH160 ;;
    revocation_hash ← expect_data;
    expect_op OP_EQUAL ;;
    expect_op OP_IF ;;
    expect_op OP_CHECKSIG ;;
    expect_op OP_ELSE ;;
    remote_htlc_pubkey ← expect_data;
    expect_op OP_SWAP ;;
    expect_op OP_SIZE ;;
    thirty_two ← expect_number;
    call (when (negb (thirty_two =? 32)) (Err mismatch_error)) ;;
    expect_op OP_EQUAL ;;
    expect_op OP_NOTIF ;;
    expect_op OP_DROP ;;
    expect_op OP_PUSHNUM_2 ;;
    expect_op OP_SWAP ;;
    local_htlc_pubkey ← expect_data;
    expect_op OP_PUSHNUM_2 ;;
    expect_op OP_CHECKMULTISIG ;;
    expect_op OP_ELSE ;;
    expect_op OP_HASH160 ;;
    payment_hash_vec ← expect_data;
    expect_op OP_EQUALVERIFY ;;
    expect_op OP_CHECKSIG ;;
    expect_op OP_ENDIF ;;
    (if is_anchors : bool then
       expect_op OP_PUSHNUM_1 ;;
       expect_op OP_CSV ;;
       expect_op OP_DROP
     else mret tt) ;;
    expect_op OP_ENDIF ;;
    expect_script_end ;;
    mret (revocation_hash, remote_htlc_pubkey, local_htlc_pubkey, payment_hash_vec))
  (instructions script)).

Definition parse_revokeable_redeemscript (script : ScriptBuf) (_is_anchors : bool)
  : res ValidationError (list Z * Z * list Z) :=
  snd ((
    expect_op OP_IF ;;
    revocation_key ← expect_data;
    expect_op OP_ELSE ;;
    contest_delay ← expect_number;
    expect_op OP_CSV ;;
    expect_op OP_DROP ;;
    delayed_pubkey ← expect_data;
    expect_op OP_ENDIF ;;
    expect_op OP_CHECKSIG ;;
    expect_script_end ;;
    mret (revocation_key, contest_delay, delayed_pubkey))
  (instructions script)).

Definition parse_to_broadcaster_script (script : ScriptBuf)
  : res ValidationError (list Z * Z * list Z) :=
  snd ((
    expect_op OP_IF ;;
    revocation_pubkey ← expect_data;
    expect_op OP_ELSE ;;
    delay ← expect_number;
    expect_op OP_CSV ;;
    expect_op OP_DROP ;;
    delayed_pubkey ← expect_data;
    expect_op OP_ENDIF ;;
    expect_op OP_CHECKSIG ;;
    expect_script_end ;;
    mret (revocation_pubkey, delay, delayed_pubkey))
  (instructions script)).

Definition parse_to_countersigner_delayed_script (script : ScriptBuf) : res ValidationError (list Z) :=
  snd ((
    pubkey_data ← expect_data;
    expect_op OP_CHECKSIGVERIFY ;;
    expect_op OP_PUSHNUM_1 ;;
    expect_op OP_CSV ;;
    expect_script_end ;;
    mret pubkey_data)
  (instructions script)).

Definition parse_anchor_script (script : ScriptBuf) : res ValidationError (list Z) :=
  snd ((
    to_pubkey_data ← expect_data;
    expect_op OP_CHECKSIG ;;
    expect_op OP_IFDUP ;;
    expect_op OP_NOTIF ;;
    expect_op OP_PUSHNUM_16 ;;
    expect_op OP_CSV ;;
    expect_op OP_ENDIF ;;
    expect_script_end ;;
    mret to_pubkey_data)
  (instructions script)).
End Expect.

(** ** Phase 1 data: [HTLCInfo] and [CommitmentInfo] of [tx/tx.rs] *)
Module Phase1.

Definition MAX_DELAY : Z := 2016.
Definition ANCHOR_SAT : Z := 330.

Record HTLCInfo := mkHTLCInfo {
  value_sat : Z;
  payment_hash_hash : list Z;
  cltv_expiry : Z
}.

Record CommitmentInfo := mkCommitmentInfo {
  is_counterparty_broadcaster : bool;
  to_countersigner_address : option ScriptBuf;
  to_countersigner_pubkey : option PublicKey;
  to_countersigner_value_sat : Z;
  to_countersigner_anchor_count : Z;
  revocation_pubkey : option PublicKey;
  to_broadcaster_delayed_pubkey : option PublicKey;
  to_broadcaster_value_sat : Z;
  to_self_delay : Z;
  to_broadcaster_anchor_count : Z;
  offered_htlcs : list HTLCInfo;
  received_htlcs : list HTLCInfo
}.

Definition new (is_counterparty_broadcaster : bool) : CommitmentInfo :=
  mkCommitmentInfo is_counterparty_broadcaster None None 0 0 None None 0 0 0 [] [].

Definition has_to_broadcaster (self : CommitmentInfo) : bool :=
  bool_decide (is_Some self.(to_broadcaster_delayed_pubkey)).

Definition has_to_countersigner (self : CommitmentInfo) : bool :=
  bool_decide (is_Some self.(to_countersigner_address))
  || bool_decide (is_Some self.(to_countersigner_pubkey)).

Definition to_broadcaster_anchor_value_sat (self : CommitmentInfo) : Z :=
  if self.(to_broadcaster_anchor_count) =? 1 then ANCHOR_SAT else 0.

Definition to_countersigner_anchor_value_sat (self : CommitmentInfo) : Z :=
  if self.(to_countersigner_anchor_count) =? 1 then ANCHOR_SAT else 0.

(** Assignments to the fields that the handlers change. *)
Definition with_to_countersigner (self : CommitmentInfo) (address : option ScriptBuf)
    (pubkey : option PublicKey) (v : Z) : CommitmentInfo :=
  mkCommitmentInfo self.(is_counterparty_broadcaster) address pubkey v
    self.(to_countersigner_anchor_count) self.(revocation_pubkey)
    self.(to_broadcaster_delayed_pubkey) self.(to_broadcaster_value_sat) self.(to_self_delay)
    self.(to_broadcaster_anchor_count) self.(offered_htlcs) self.(received_htlcs).

Definition with_to_broadcaster (self : CommitmentInfo) (revocation delayed : PublicKey)
    (v delay : Z) : CommitmentInfo :=
  mkCommitmentInfo self.(is_counterparty_broadcaster) self.(to_countersigner_address)
    self.(to_countersigner_pubkey) self.(to_countersigner_value_sat)
    self.(to_countersigner_anchor_count) (Some revocation) (Some delayed) v delay
    self.(to_broadcaster_anchor_count) self.(offered_htlcs) self.(received_htlcs).

Definition with_anchor_counts (self : CommitmentInfo) (countersigner broadcaster : Z) : CommitmentInfo :=
  mkCommitmentInfo self.(is_counterparty_broadcaster) self.(to_countersigner_address)
    self.(to_countersigner_pubkey) self.(to_countersigner_value_sat) countersigner
    self.(revocation_pubkey) self.(to_broadcaster_delayed_pubkey) self.(to_broadcaster_value_sat)
    self.(to_self_delay) broadcaster self.(offered_htlcs) self.(received_htlcs).

Definition with_htlcs (self : CommitmentInfo) (offered received : list HTLCInfo) : CommitmentInfo :=
  mkCommitmentInfo self.(is_counterparty_broadcaster) self.(to_countersigner_address)
    self.(to_countersigner_pubkey) self.(to_countersigner_value_sat)
    self.(to_countersigner_anchor_count) self.(revocation_pubkey)
    self.(to_broadcaster_delayed_pubkey) self.(to_broadcaster_value_sat) self.(to_self_delay)
    self.(to_broadcaster_anchor_count) offered received.

(** The caller drops the info when a handler fails, so a handler returns the
    new info. *)
Section Handlers.
Context `{Profile} `{BitcoinLib}.

Definition handle_to_broadcaster_output (self : CommitmentInfo) (out : TxOut)
    (vals : list Z * Z * list Z) : res ValidationError CommitmentInfo :=
  let '(revocation_pubkey, delay, delayed_pubkey) := vals in
  if has_to_broadcaster self then Err transaction_format_error
  else if delay <? 0 then Err script_format_error
  else if MAX_DELAY <? delay then Err script_format_error
  else
    delayed ← ok_or mismatch_error (PublicKey_from_slice delayed_pubkey);
    revocation ← ok_or mismatch_error (PublicKey_from_slice revocation_pubkey);
    Ok (with_to_broadcaster self revocation delayed out.(value) delay).

Definition handle_to_countersigner_delayed_output (self : CommitmentInfo) (out : TxOut)
    (pubkey_data : list Z) : res ValidationError CommitmentInfo :=
  if has_to_countersigner self then Err transaction_format_error
  else
    pubkey ← ok_or mismatch_error (PublicKey_from_slice pubkey_data);
    Ok (with_to_countersigner self self.(to_countersigner_address) (Some pubkey) out.(value)).

(** [try_into] of a slice to [[u8; 20]]. *)
Definition hash20 (v : list Z) : res ValidationError (list Z) :=
  if (length v =? 20)%nat then Ok v else Err mismatch_error.

(** [cltv_expiry as u32] drops the high bits. *)
Definition handle_received_htlc_output (self : CommitmentInfo) (out : TxOut)
    (vals : list Z * list Z * list Z * list Z * Z) : res ValidationError CommitmentInfo :=
  let '(_, _, payment_hash_vec, _, cltv_expiry) := vals in
  payment_hash_hash ← hash20 payment_hash_vec;
  if cltv_expiry <? 0 then Err script_format_error
  else
    let htlc := mkHTLCInfo out.(value) payment_hash_hash (cltv_expiry mod 2 ^ 32) in
    Ok (with_htlcs self self.(offered_htlcs) (self.(received_htlcs) ++ [htlc])).

Definition handle_offered_htlc_output (self : CommitmentInfo) (out : TxOut)
    (vals : list Z * list Z * list Z * list Z) : res ValidationError CommitmentInfo :=
  let '(_, _, _, payment_hash_vec) := vals in
  payment_hash_hash ← hash20 payment_hash_vec;
  let htlc := mkHTLCInfo out.(value) payment_hash_hash 0 in
  Ok (with_htlcs self (self.(offered_htlcs) ++ [htlc]) self.(received_htlcs)).

(** [holder_funding_pubkey] is [keys.pubkeys(..).funding_pubkey]. *)
Definition handle_anchor_output (holder_funding_pubkey : PublicKey) (setup : ChannelSetup)
    (self : CommitmentInfo) (out : TxOut) (to_pubkey_data : list Z)
  : res ValidationError CommitmentInfo :=
  to_pubkey ← ok_or mismatch_error (PublicKey_from_slice to_pubkey_data);
  let counterparty_funding_pubkey := setup.(counterparty_points).(funding_pubkey) in
  let '(to_broadcaster_funding_pubkey, to_countersigner_funding_pubkey) :=
    if self.(is_counterparty_broadcaster)
    then (counterparty_funding_pubkey, holder_funding_pubkey)
    else (holder_funding_pubkey, counterparty_funding_pubkey) in
  if negb (out.(value) =? ANCHOR_SAT) then Err mismatch_error
  else if to_pubkey =? to_broadcaster_funding_pubkey then
    n ← arith 16 (self.(to_broadcaster_anchor_count) + 1);
    Ok (with_anchor_counts self self.(to_countersigner_anchor_count) n)
  else if to_pubkey =? to_countersigner_funding_pubkey then
    n ← arith 16 (self.(to_countersigner_anchor_count) + 1);
    Ok (with_anchor_counts self n self.(to_broadcaster_anchor_count))
  else Err mismatch_error.

Definition handle_output (holder_funding_pubkey : PublicKey) (setup : ChannelSetup)
    (self : CommitmentInfo) (out : TxOut) (script_bytes : list Z)
  : res ValidationError CommitmentInfo :=
  if is_p2wpkh out.(script_pubkey) then
    if is_anchors setup then Err transaction_format_error
    else if has_to_countersigner self then Err transaction_format_error
    else Ok (with_to_countersigner self (Address_from_script out.(script_pubkey))
               self.(to_countersigner_pubkey) out.(value))
  else if is_p2wsh out.(script_pubkey) then
    if bool_decide (script_bytes = []) then Err transaction_format_error
    else
      let script := ScriptBuf_from script_bytes in
      if bool_decide (out.(script_pubkey) <> to_p2wsh script) then Err transaction_format_error
      else match parse_to_broadcaster_script script with
      | Ok vals => handle_to_broadcaster_output self out vals
      | _ =>
      match parse_received_htlc_script script (is_anchors setup) with
      | Ok vals => handle_received_htlc_output self out vals
      | _ =>
      match parse_offered_htlc_script script (is_anchors setup) with
      | Ok vals => handle_offered_htlc_output self out vals
      | _ =>
      match parse_anchor_script script with
      | Ok vals => handle_anchor_output holder_funding_pubkey setup self out vals
      | _ =>
      match (if is_anchors setup then parse_to_countersigner_delayed_script script
             else Err transaction_format_error) with
      | Ok vals => handle_to_countersigner_delayed_output self out vals
      | _ => Err transaction_format_error
      end end end end end
  else Err transaction_format_error.
End Handlers.
End Phase1.

(** ** What the parsers accept *)
Section Templates.
Context `{BitcoinLib}.

Definition number_of (ins : Instruction) : option Z :=
  match ins with Op op => push_num op | PushBytes d => read_scriptint d end.

(** The scripts of BOLT 3, instruction by instruction; [n32] and [ncltv] are the
    pushes of the two numbers. *)
Definition anchors_suffix (anchors : bool) : list Instruction :=
  if anchors then [Op OP_PUSHNUM_1; Op OP_CSV; Op OP_DROP] else [].

Definition htlc_prefix (revocation_hash remote_htlc_pubkey : list Z) (n32 : Instruction)
  : list Instruction :=
  [Op OP_DUP; Op OP_HASH160; PushBytes revocation_hash; Op OP_EQUAL; Op OP_IF; Op OP_CHECKSIG;
   Op OP_ELSE; PushBytes remote_htlc_pubkey; Op OP_SWAP; Op OP_SIZE; n32; Op OP_EQUAL].

Definition received_htlc_template (anchors : bool) (rev remote hash local : list Z)
    (n32 ncltv : Instruction) : list Instruction :=
  htlc_prefix rev remote n32 ++
  [Op OP_IF; Op OP_HASH160; PushBytes hash; Op OP_EQUALVERIFY; Op OP_PUSHNUM_2; Op OP_SWAP;
   PushBytes local; Op OP_PUSHNUM_2; Op OP_CHECKMULTISIG; Op OP_ELSE; Op OP_DROP; ncltv; Op OP_CLTV;
   Op OP_DROP; Op OP_CHECKSIG; Op OP_ENDIF] ++ anchors_suffix anchors ++ [Op OP_ENDIF].

Definition offered_htlc_template (anchors : bool) (rev remote local hash : list Z)
    (n32 : Instruction) : list Instruction :=
  htlc_prefix rev remote n32 ++
  [Op OP_NOTIF; Op OP_DROP; Op OP_PUSHNUM_2; Op OP_SWAP; PushBytes local; Op OP_PUSHNUM_2;
   Op OP_CHECKMULTISIG; Op OP_ELSE; Op OP_HASH160; PushBytes hash; Op OP_EQUALVERIFY;
   Op OP_CHECKSIG; Op OP_ENDIF] ++ anchors_suffix anchors ++ [Op OP_ENDIF].

Definition to_broadcaster_template (rev delayed : list Z) (ndelay : Instruction) : list Instruction :=
  [Op OP_IF; PushBytes rev; Op OP_ELSE; ndelay; Op OP_CSV; Op OP_DROP; PushBytes delayed;
   Op OP_ENDIF; Op OP_CHECKSIG].

Definition anchor_template (pubkey : list Z) : list Instruction :=
  [PushBytes pubkey; Op OP_CHECKSIG; Op OP_IFDUP; Op OP_NOTIF; Op OP_PUSHNUM_16; Op OP_CSV; Op OP_ENDIF].

Definition to_countersigner_delayed_template (pubkey : list Z) : list Instruction :=
  [PushBytes pubkey; Op OP_CHECKSIGVERIFY; Op OP_PUSHNUM_1; Op OP_CSV].

Abbreviation iter := (list (option Instruction)) (only parsing).

(** One step of a parser that succeeds. *)
Lemma snd_Ok {S E A : Type} (p : S * res E A) (a : A) : snd p = Ok a -> exists s, p = (s, Ok a).
Proof. destruct p as [s r]. cbn. intros ->. by exists s. Qed.

Lemma expect_op_Ok {B : Type} (op : Z) (k : unit -> method iter ValidationError B) (s s' : iter) (b : B) :
  (expect_op op ≫= k) s = (s', Ok b) -> exists s1, s = Some (Op op) :: s1 /\ k tt s1 = (s', Ok b).
Proof.
  unfold expect_op, mbind, method_bind, expect_next, call, mret, method_ret.
  destruct s as [|[[o|d]|] s]; try done. destruct (Z.eqb_spec o op) as [->|]; [|done]. by eauto.
Qed.

Lemma expect_data_Ok {B : Type} (k : list Z -> method iter ValidationError B) (s s' : iter) (b : B) :
  (expect_data ≫= k) s = (s', Ok b) -> exists d s1, s = Some (PushBytes d) :: s1 /\ k d s1 = (s', Ok b).
Proof.
  unfold expect_data, mbind, method_bind, expect_next, call, mret, method_ret.
  destruct s as [|[[o|d]|] s]; try done. by eauto.
Qed.

Lemma expect_number_Ok {B : Type} (k : Z -> method iter ValidationError B) (s s' : iter) (b : B) :
  (expect_number ≫= k) s = (s', Ok b) ->
  exists ins n s1, s = Some ins :: s1 /\ number_of ins = Some n /\ k n s1 = (s', Ok b).
Proof.
  unfold expect_number, mbind, method_bind, expect_next, call.
  destruct s as [|[ins|] s]; try done. fold (number_of ins).
  destruct (number_of ins) as [n|] eqn:Hn; [|done]. by eauto 7.
Qed.

Lemma expect_script_end_Ok {B : Type} (k : unit -> method iter ValidationError B) (s s' : iter) (b : B) :
  (expect_script_end ≫= k) s = (s', Ok b) -> s = [] /\ k tt [] = (s', Ok b).
Proof. unfold mbind, method_bind, expect_script_end. by destruct s. Qed.

(** The same steps on a script that matches. *)
Lemma run_op {B : Type} (op : Z) (k : unit -> method iter ValidationError B) (s : iter) :
  (expect_op op ≫= k) (Some (Op op) :: s) = k tt s.
Proof. unfold expect_op, mbind, method_bind, expect_next, mret, method_ret. by rewrite Z.eqb_refl. Qed.

Lemma run_data {B : Type} (d : list Z) (k : list Z -> method iter ValidationError B) (s : iter) :
  (expect_data ≫= k) (Some (PushBytes d) :: s) = k d s.
Proof. done. Qed.

Lemma run_number {B : Type} (ins : Instruction) (n : Z) (k : Z -> method iter ValidationError B) (s : iter) :
  number_of ins = Some n -> (expect_number ≫= k) (Some ins :: s) = k n s.
Proof.
  intros Hn. unfold expect_number, mbind, method_bind, expect_next, call. fold (number_of ins).
  by rewrite Hn.
Qed.

Ltac parse_step H :=
  first
    [ apply expect_op_Ok in H; destruct H as (? & ? & H); subst
    | apply expect_data_Ok in H; destruct H as (? & ? & ? & H); subst
    | apply expect_number_Ok in H; destruct H as (? & ? & ? & ? & ? & H); subst
    | apply expect_script_end_Ok in H; destruct H as (? & H); subst
    | apply call_Ok in H; destruct H as (? & ? & H) ].
Ltac parse_inv H := apply snd_Ok in H; destruct H as [? H]; repeat parse_step H.

Lemma when_Err_Ok {E : Type} (b : bool) (e : E) (u : unit) : when b (Err e) = Ok u -> b = false.
Proof. by destruct b. Qed.

Lemma anchors_step {B : Type} (anchors : bool) (k : unit -> method iter ValidationError B)
    (s s' : iter) (b : B) :
  ((if anchors then expect_op OP_PUSHNUM_1 ;; expect_op OP_CSV ;; expect_op OP_DROP else mret tt) ≫= k) s
  = (s', Ok b) ->
  exists s1, s = (Some <$> anchors_suffix anchors) ++ s1 /\ k tt s1 = (s', Ok b).
Proof.
  intros Hm. apply method_Ok in Hm as (s1 & [] & Hm & Hk). exists s1. split; [|done].
  destruct anchors; [|by injection Hm as <-].
  parse_step Hm. parse_step Hm. revert Hm. unfold expect_op, mbind, method_bind, expect_next, call, mret, method_ret.
  match goal with |- context [match ?l with _ => _ end] => destruct l as [|[[o|d]|] l'] end; try done.
  destruct (Z.eqb_spec o OP_DROP) as [->|]; [|done]. by intros [= ->].
Qed.

Lemma run_anchors {B : Type} (anchors : bool) (k : unit -> method iter ValidationError B) (s : iter) :
  ((if anchors then expect_op OP_PUSHNUM_1 ;; expect_op OP_CSV ;; expect_op OP_DROP else mret tt) ≫= k)
    ((Some <$> anchors_suffix anchors) ++ s) = k tt s.
Proof. by destruct anchors. Qed.

Lemma run_32 {B : Type} (k : unit -> method iter ValidationError B) (s : iter) :
  (call (when (negb (32 =? 32)) (Err mismatch_error)) ≫= k) s = k tt s.
Proof. done. Qed.

Ltac parse_run :=
  repeat (first [rewrite run_op|rewrite run_data|erewrite run_number by eassumption
                |rewrite run_32|rewrite run_anchors]; cbv beta); reflexivity.

Lemma parse_received_Ok (script : ScriptBuf) (anchors : bool) (rev remote hash local : list Z) (cltv : Z) :
  parse_received_htlc_script script anchors = Ok (rev, remote, hash, local, cltv) <->
  exists n32 ncltv, number_of n32 = Some 32 /\ number_of ncltv = Some cltv /\
    instructions script = Some <$> received_htlc_template anchors rev remote hash local n32 ncltv.
Proof.
  unfold parse_received_htlc_script. split.
  - generalize (instructions script). intros s Hs. parse_inv Hs.
    apply anchors_step in Hs as (? & ? & Hs). repeat parse_step Hs.
    match goal with E : when _ _ = Ok _ |- _ => apply when_Err_Ok in E end.
    unfold mret, method_ret in Hs. injection Hs as <- <- <- <- <- <-. subst.
    do 2 eexists. split_and!; [|eassumption|].
    { match goal with E : negb (?n =? 32) = false |- _ => replace 32 with n by lia; eassumption end. }
    unfold received_htlc_template, htlc_prefix. by destruct anchors.
  - intros (n32 & ncltv & H32 & Hcltv & ->).
    unfold received_htlc_template, htlc_prefix. rewrite !fmap_app.
    cbn [fmap list_fmap app]. parse_run.
Qed.

Lemma parse_offered_Ok (script : ScriptBuf) (anchors : bool) (rev remote local hash : list Z) :
  parse_offered_htlc_script script anchors = Ok (rev, remote, local, hash) <->
  exists n32, number_of n32 = Some 32 /\
    instructions script = Some <$> offered_htlc_template anchors rev remote local hash n32.
Proof.
  unfold parse_offered_htlc_script. split.
  - generalize (instructions script). intros s Hs. parse_inv Hs.
    apply anchors_step in Hs as (? & ? & Hs). repeat parse_step Hs.
    match goal with E : when _ _ = Ok _ |- _ => apply when_Err_Ok in E end.
    unfold mret, method_ret in Hs. injection Hs as <- <- <- <- <-. subst.
    eexists. split.
    { match goal with E : negb (?n =? 32) = false |- _ => replace 32 with n by lia; eassumption end. }
    unfold offered_htlc_template, htlc_prefix. by destruct anchors.
  - intros (n32 & H32 & ->). unfold offered_htlc_template, htlc_prefix. rewrite !fmap_app.
    cbn [fmap list_fmap app]. parse_run.
Qed.

Lemma parse_to_broadcaster_Ok (script : ScriptBuf) (rev delayed : list Z) (delay : Z) :
  parse_to_broadcaster_script script = Ok (rev, delay, delayed) <->
  exists ndelay, number_of ndelay = Some delay /\
    instructions script = Some <$> to_broadcaster_template rev delayed ndelay.
Proof.
  unfold parse_to_broadcaster_script. split.
  - generalize (instructions script). intros s Hs. parse_inv Hs.
    unfold mret, method_ret in Hs. injection Hs as <- <- <- <-. by eauto.
  - intros (nd & Hd & ->). unfold to_broadcaster_template. cbn [fmap list_fmap]. parse_run.
Qed.

Lemma parse_anchor_Ok (script : ScriptBuf) (pubkey : list Z) :
  parse_anchor_script script = Ok pubkey <-> instructions script = Some <$> anchor_template pubkey.
Proof.
  unfold parse_anchor_script. split.
  - generalize (instructions script). intros s Hs. parse_inv Hs.
    unfold mret, method_ret in Hs. by injection Hs as <- <-.
  - intros ->. done.
Qed.

Lemma parse_to_countersigner_delayed_Ok (script : ScriptBuf) (pubkey : list Z) :
  parse_to_countersigner_delayed_script script = Ok pubkey <->
  instructions script = Some <$> to_countersigner_delayed_template pubkey.
Proof.
  unfold parse_to_countersigner_delayed_script. split.
  - generalize (instructions script). intros s Hs. parse_inv Hs.
    unfold mret, method_ret in Hs. by injection Hs as <- <-.
  - intros ->. done.
Qed.

(** The kinds of output that a script can be read as, in no order. *)
Definition parses_as (anchors : bool) (script : ScriptBuf) : list bool :=
  [is_ok (parse_to_broadcaster_script script); is_ok (parse_received_htlc_script script anchors);
   is_ok (parse_offered_htlc_script script anchors); is_ok (parse_anchor_script script);
   is_ok (parse_to_countersigner_delayed_script script)].

Lemma is_ok_true {E A : Type} (m : res E A) : is_ok m = true -> exists a, m = Ok a.
Proof. destruct m; [by eauto|done..]. Qed.

Ltac template_inv H :=
  apply is_ok_true in H as [? H]; repeat match goal with p : prod _ _ |- _ => destruct p end;
  first [apply parse_to_broadcaster_Ok in H as (? & _ & H)
        |apply parse_received_Ok in H as (? & ? & _ & _ & H)
        |apply parse_offered_Ok in H as (? & _ & H)
        |apply parse_anchor_Ok in H|apply parse_to_countersigner_delayed_Ok in H].

(** No script matches two templates. *)
Lemma templates_disjoint (anchors : bool) (script : ScriptBuf) (i j : nat) :
  parses_as anchors script !! i = Some true -> parses_as anchors script !! j = Some true -> i = j.
Proof.
  unfold parses_as. intros Hi Hj.
  destruct i as [|[|[|[|[|i]]]]], j as [|[|[|[|[|j]]]]]; try done; cbn in Hi, Hj; exfalso;
    injection Hi as Hi; injection Hj as Hj; template_inv Hi; template_inv Hj; rewrite Hi in Hj;
    unfold received_htlc_template, offered_htlc_template, htlc_prefix in Hj; simplify_list_eq.
Qed.
End Templates.

(** ** Decoding accounts for every output *)
Module Accounting.
Import Phase1.
Section Accounting.
Context `{Profile} `{BitcoinLib}.

(** What each template makes of an output, in the order of the source. *)
Definition attempt {A : Type} (m : res ValidationError A)
    (handle : A -> res ValidationError CommitmentInfo) : option (res ValidationError CommitmentInfo) :=
  match m with Ok vals => Some (handle vals) | _ => None end.

Definition attempts (holder_funding_pubkey : PublicKey) (setup : ChannelSetup)
    (self : CommitmentInfo) (out : TxOut) (script : ScriptBuf)
  : list (option (res ValidationError CommitmentInfo)) :=
  let anchors := is_anchors setup in
  [attempt (parse_to_broadcaster_script script) (handle_to_broadcaster_output self out);
   attempt (parse_received_htlc_script script anchors) (handle_received_htlc_output self out);
   attempt (parse_offered_htlc_script script anchors) (handle_offered_htlc_output self out);
   attempt (parse_anchor_script script) (handle_anchor_output holder_funding_pubkey setup self out);
   if anchors then attempt (parse_to_countersigner_delayed_script script)
                     (handle_to_countersigner_delayed_output self out) else None].

Definition first_attempt (l : list (option (res ValidationError CommitmentInfo)))
  : res ValidationError CommitmentInfo := default (Err transaction_format_error) (head (omap id l)).

Lemma handle_output_attempts (pk : PublicKey) (setup : ChannelSetup) (self : CommitmentInfo)
    (out : TxOut) (bytes : list Z) :
  is_p2wpkh out.(script_pubkey) = false -> is_p2wsh out.(script_pubkey) = true ->
  bytes <> [] -> out.(script_pubkey) = to_p2wsh (ScriptBuf_from bytes) ->
  handle_output pk setup self out bytes = first_attempt (attempts pk setup self out (ScriptBuf_from bytes)).
Proof.
  intros Hpk Hsh Hb Hs. unfold handle_output, first_attempt, attempts. rewrite Hpk, Hsh.
  rewrite bool_decide_false, bool_decide_false by (done || by intros []).
  set (script := ScriptBuf_from bytes).
  destruct (parse_to_broadcaster_script script); [done|..];
  (destruct (parse_received_htlc_script script (is_anchors setup)); [done|..]);
  (destruct (parse_offered_htlc_script script (is_anchors setup)); [done|..]);
  (destruct (parse_anchor_script script); [done|..]);
  (destruct (is_anchors setup); [by destruct (parse_to_countersigner_delayed_script script)|done]).
Qed.

Lemma attempts_one (pk : PublicKey) (setup : ChannelSetup) (self : CommitmentInfo) (out : TxOut)
    (script : ScriptBuf) (i j : nat) :
  is_Some (mjoin (attempts pk setup self out script !! i)) ->
  is_Some (mjoin (attempts pk setup self out script !! j)) -> i = j.
Proof.
  assert (Hp : forall k, is_Some (mjoin (attempts pk setup self out script !! k)) ->
                 parses_as (is_anchors setup) script !! k = Some true).
  { intros k. unfold attempts, parses_as, attempt.
    destruct k as [|[|[|[|[|k]]]]]; cbn [lookup list_lookup mjoin option_join];
      try (intros []; done).
    - destruct (parse_to_broadcaster_script script); [done|intros []; done..].
    - destruct (parse_received_htlc_script script _); [done|intros []; done..].
    - destruct (parse_offered_htlc_script script _); [done|intros []; done..].
    - destruct (parse_anchor_script script); [done|intros []; done..].
    - destruct (is_anchors setup); [|intros []; done].
      destruct (parse_to_countersigner_delayed_script script); [done|intros []; done..]. }
  intros Hi%Hp Hj%Hp. by eapply templates_disjoint.
Qed.

Lemma omap_id_one {A : Type} (l : list (option A)) :
  (forall i j, is_Some (mjoin (l !! i)) -> is_Some (mjoin (l !! j)) -> i = j) ->
  (length (omap id l) <= 1)%nat.
Proof.
  induction l as [|[a|] l IH]; intros Hl; cbn; [lia| |].
  - assert (Hn : omap id l = []).
    { destruct (omap id l) as [|b l'] eqn:E; [done|]. exfalso.
      assert (Hb : b ∈ omap id l) by (rewrite E; left).
      apply list_elem_of_omap in Hb as (o & Ho & Hob). unfold id in Hob. subst o. apply list_elem_of_lookup in Ho as [k Hk].
      assert (0%nat = S k); [|done]. apply Hl; [by eexists|].
      change ((Some a :: l) !! S k) with (l !! k). rewrite Hk. by eexists. }
    rewrite Hn. done.
  - apply IH. intros i j Hi Hj. assert (S i = S j) by (by apply Hl). congruence.
Qed.

Lemma first_attempt_perm (l l' : list (option (res ValidationError CommitmentInfo))) :
  (length (omap id l) <= 1)%nat -> l ≡ₚ l' -> first_attempt l = first_attempt l'.
Proof.
  intros Hl Hp. unfold first_attempt.
  assert (Ho : omap id l ≡ₚ omap id l') by (by apply omap_Permutation).
  destruct (omap id l) as [|a [|b t]]; [|..|cbn in Hl; lia].
  - by apply Permutation_nil in Ho as ->.
  - by apply Permutation_singleton_l in Ho as ->.
Qed.

(** Number of outputs and of satoshis that an info stands for. *)
Definition info_outputs (info : CommitmentInfo) : Z :=
  Z.b2z (has_to_broadcaster info) + Z.b2z (has_to_countersigner info)
  + info.(to_broadcaster_anchor_count) + info.(to_countersigner_anchor_count)
  + Z.of_nat (length info.(offered_htlcs)) + Z.of_nat (length info.(received_htlcs)).

Definition info_value (info : CommitmentInfo) : Z :=
  info.(to_broadcaster_value_sat) + info.(to_countersigner_value_sat)
  + ANCHOR_SAT * (info.(to_broadcaster_anchor_count) + info.(to_countersigner_anchor_count))
  + zsum (value_sat <$> info.(offered_htlcs)) + zsum (value_sat <$> info.(received_htlcs)).

(** What decoding keeps of an info. *)
Record info_wf (info : CommitmentInfo) : Prop := {
  wf_broadcaster : has_to_broadcaster info = false -> info.(to_broadcaster_value_sat) = 0;
  wf_countersigner : has_to_countersigner info = false -> info.(to_countersigner_value_sat) = 0;
  wf_delay : 0 <= info.(to_self_delay) <= MAX_DELAY;
  wf_anchors : 0 <= info.(to_broadcaster_anchor_count) /\ 0 <= info.(to_countersigner_anchor_count);
  wf_hashes : Forall (fun h => length h.(payment_hash_hash) = 20%nat)
                (info.(offered_htlcs) ++ info.(received_htlcs))
}.

Lemma info_wf_new (b : bool) : info_wf (new b).
Proof. split; cbn; [done|done|unfold MAX_DELAY; lia|lia|constructor]. Qed.

(** [Address::from_script] knows every p2wpkh script. *)
Context (address_known : forall s, is_p2wpkh s = true -> is_Some (Address_from_script s)).

Lemma hash20_Ok (v h : list Z) : hash20 v = Ok h -> h = v /\ length h = 20%nat.
Proof. unfold hash20. destruct (Nat.eqb_spec (length v) 20); [|done]. by intros [= <-]. Qed.

Definition accounted (info info' : CommitmentInfo) (out : TxOut) : Prop :=
  info_wf info' /\ info_outputs info' = info_outputs info + 1 /\
  info_value info' = info_value info + out.(value).

Lemma to_broadcaster_accounted (info info' : CommitmentInfo) (out : TxOut) vals :
  info_wf info -> handle_to_broadcaster_output info out vals = Ok info' -> accounted info info' out.
Proof.
  intros [Hb Hc Hd Ha Hh]. destruct vals as [[rev delay] delayed]. unfold handle_to_broadcaster_output.
  destruct (has_to_broadcaster info) eqn:Eb; [done|].
  destruct (Z.ltb_spec delay 0); [done|]. destruct (Z.ltb_spec MAX_DELAY delay); [done|].
  intros Hr. res_inv. specialize (Hb eq_refl). split_and!.
  - split; cbn; try done; lia.
  - unfold info_outputs in *. rewrite Eb. cbn. unfold has_to_countersigner. cbn. lia.
  - unfold info_value. cbn. lia.
Qed.

Lemma to_countersigner_accounted (info : CommitmentInfo) (out : TxOut) address pubkey :
  info_wf info -> has_to_countersigner info = false ->
  is_Some address \/ is_Some pubkey ->
  accounted info (with_to_countersigner info address pubkey out.(value)) out.
Proof.
  intros [Hb Hc Hd Ha Hh] Ec Hs. specialize (Hc Ec).
  assert (Ec' : has_to_countersigner (with_to_countersigner info address pubkey out.(value)) = true).
  { unfold has_to_countersigner. cbn. destruct Hs; [rewrite bool_decide_true by done; done|].
    rewrite (bool_decide_true (is_Some pubkey)) by done. by rewrite orb_true_r. }
  split_and!.
  - split; try done. by rewrite Ec'.
  - unfold info_outputs. rewrite Ec, Ec'. unfold has_to_broadcaster. cbn. lia.
  - unfold info_value. cbn. lia.
Qed.

Lemma htlcs_accounted (info : CommitmentInfo) (out : TxOut) (h : HTLCInfo) offered received :
  info_wf info -> length h.(payment_hash_hash) = 20%nat -> h.(value_sat) = out.(value) ->
  offered ++ received ≡ₚ h :: info.(offered_htlcs) ++ info.(received_htlcs) ->
  accounted info (with_htlcs info offered received) out.
Proof.
  intros [Hb Hc Hd Ha Hh] Hl Hv Hp. split_and!.
  - split; cbn; try done. rewrite Hp. by constructor.
  - apply Permutation_length in Hp. rewrite !length_app in Hp. cbn in Hp. rewrite length_app in Hp.
    unfold info_outputs, has_to_broadcaster, has_to_countersigner. cbn. lia.
  - assert (Hz : zsum (value_sat <$> offered ++ received)
                 = zsum (value_sat <$> h :: info.(offered_htlcs) ++ info.(received_htlcs))).
    { apply zsum_perm. by rewrite Hp. }
    rewrite !fmap_cons, !fmap_app, zsum_cons, !zsum_app in Hz. unfold info_value. cbn. lia.
Qed.

Lemma anchor_accounted (pk : PublicKey) (setup : ChannelSetup) (info info' : CommitmentInfo) (out : TxOut) vals :
  info_wf info -> info_outputs info < 2 ^ 16 - 1 ->
  handle_anchor_output pk setup info out vals = Ok info' -> accounted info info' out.
Proof.
  intros [Hb Hc Hd Ha Hh] Hn. unfold handle_anchor_output. intros Hr. apply bind_Ok in Hr as (key & _ & Hr).
  destruct (if is_counterparty_broadcaster info then _ else _) as [tb tc].
  destruct (Z.eqb_spec out.(value) ANCHOR_SAT) as [Hv|]; [|done]. cbn [negb] in Hr.
  assert (Hcount : info.(to_broadcaster_anchor_count) + info.(to_countersigner_anchor_count) < 2 ^ 16 - 1).
  { unfold info_outputs in Hn. destruct (has_to_broadcaster info), (has_to_countersigner info); cbn in Hn; lia. }
  destruct (key =? tb); [|destruct (key =? tc); [|done]];
    rewrite arith_Ok in Hr by (unfold uint; lia); res_inv; split_and!.
  all: try (split; cbn; try done; lia).
  all: first [unfold info_outputs, has_to_broadcaster, has_to_countersigner; cbn; lia
             |unfold info_value; cbn; lia].
Qed.

Lemma received_accounted (info info' : CommitmentInfo) (out : TxOut) vals :
  info_wf info -> handle_received_htlc_output info out vals = Ok info' -> accounted info info' out.
Proof.
  intros Hwf. destruct vals as [[[[r1 r2] hash] r3] cltv]. unfold handle_received_htlc_output.
  intros Hr. apply bind_Ok in Hr as (h & Hh & Hr). apply hash20_Ok in Hh as [-> Hh].
  destruct (cltv <? 0); [done|]. injection Hr as <-.
  eapply (htlcs_accounted _ _ (mkHTLCInfo _ _ _)); [done|exact Hh|done|]. solve_Permutation.
Qed.

Lemma offered_accounted (info info' : CommitmentInfo) (out : TxOut) vals :
  info_wf info -> handle_offered_htlc_output info out vals = Ok info' -> accounted info info' out.
Proof.
  intros Hwf. destruct vals as [[[r1 r2] r3] hash]. unfold handle_offered_htlc_output.
  intros Hr. apply bind_Ok in Hr as (h & Hh & Hr). apply hash20_Ok in Hh as [-> Hh]. injection Hr as <-.
  eapply (htlcs_accounted _ _ (mkHTLCInfo _ _ _)); [done|exact Hh|done|]. solve_Permutation.
Qed.

Lemma first_attempt_elem (l : list (option (res ValidationError CommitmentInfo))) (info : CommitmentInfo) :
  first_attempt l = Ok info -> Some (Ok info) ∈ l.
Proof.
  unfold first_attempt. destruct (omap id l) as [|a t] eqn:E; [done|]. cbn. intros ->.
  assert (Ha : Ok info ∈ omap id l) by (rewrite E; left).
  apply list_elem_of_omap in Ha as (o & Ho & Hoa). unfold id in Hoa. by subst.
Qed.

Lemma attempt_Ok {A : Type} (m : res ValidationError A) handle (info : CommitmentInfo) :
  Some (Ok info) = attempt m handle -> exists vals, m = Ok vals /\ handle vals = Ok info.
Proof. unfold attempt. destruct m; [intros [= Ha]; by eauto|done..]. Qed.

Lemma handle_output_accounted (pk : PublicKey) (setup : ChannelSetup) (info info' : CommitmentInfo)
    (out : TxOut) (bytes : list Z) :
  info_wf info -> info_outputs info < 2 ^ 16 - 1 ->
  handle_output pk setup info out bytes = Ok info' -> accounted info info' out.
Proof.
  intros Hwf Hn. unfold handle_output. destruct (is_p2wpkh out.(script_pubkey)) eqn:Hpk.
  { destruct (is_anchors setup); [done|]. destruct (has_to_countersigner info) eqn:Ec; [done|].
    intros [= <-]. apply to_countersigner_accounted; auto. }
  destruct (is_p2wsh out.(script_pubkey)) eqn:Hsh; [|done].
  destruct (bool_decide (bytes = [])) eqn:Hby; [done|]. apply bool_decide_eq_false in Hby.
  destruct (bool_decide (script_pubkey out <> _)) eqn:Hsc; [done|].
  apply bool_decide_eq_false, dec_stable in Hsc. intros Hr.
  assert (Ha : handle_output pk setup info out bytes = Ok info').
  { unfold handle_output. rewrite Hpk, Hsh, bool_decide_false, bool_decide_false by (done || by intros []). done. }
  rewrite handle_output_attempts in Ha by done. apply first_attempt_elem in Ha.
  unfold attempts in Ha. rewrite !elem_of_cons in Ha.
  destruct Ha as [Ha|[Ha|[Ha|[Ha|[Ha|Ha]]]]]; try by apply not_elem_of_nil in Ha.
  - apply attempt_Ok in Ha as (vals & _ & Ha). by eapply to_broadcaster_accounted.
  - apply attempt_Ok in Ha as (vals & _ & Ha). by eapply received_accounted.
  - apply attempt_Ok in Ha as (vals & _ & Ha). by eapply offered_accounted.
  - apply attempt_Ok in Ha as (vals & _ & Ha). by eapply anchor_accounted.
  - destruct (is_anchors setup); [|done]. apply attempt_Ok in Ha as (vals & _ & Ha).
    unfold handle_to_countersigner_delayed_output in Ha.
    destruct (has_to_countersigner info) eqn:Ec; [done|]. res_inv. apply to_countersigner_accounted; eauto.
Qed.
End Accounting.
End Accounting.

(** ** A small script library for the examples

    Scripts are the numbers of a table: 500 is a p2wpkh script, [1000 + s] is
    the p2wsh script of the script [s]. *)
Definition sample_instructions (s : ScriptBuf) : list Instruction :=
  if s =? 1 then to_broadcaster_template [7] [8] (PushBytes [144])
  else if s =? 2 then
    received_htlc_template false (replicate 20 1) [2] (replicate 20 3) [4] (PushBytes [32]) (PushBytes [100])
  else if s =? 3 then offered_htlc_template false (replicate 20 1) [2] [4] (replicate 20 5) (PushBytes [32])
  else if s =? 4 then anchor_template [11]
  else [].

#[export] Instance sample_bitcoin : BitcoinLib := {|
  instructions s := Some <$> sample_instructions s;
  push_num op := if (OP_PUSHNUM_1 <=? op) && (op <=? OP_PUSHNUM_16) then Some (op - 0x50) else None;
  read_scriptint d := Some (from_le_bytes d);
  ScriptBuf_from := from_le_bytes;
  ScriptBuf_new := 0;
  is_p2wpkh s := s =? 500;
  is_p2wsh s := 1000 <=? s;
  to_p2wsh s := 1000 + s;
  Address_from_script s := Some s;
  PublicKey_from_slice := head;
  tx_weight tx := 4 * (10 + 41 * Z.of_nat (length tx.(input)) + 31 * Z.of_nat (length tx.(output)));
  base_size tx := 10 + 41 * Z.of_nat (length tx.(input)) + 31 * Z.of_nat (length tx.(output));
  lock_time_satisfied lock height := if lock <? 500000000 then lock <=? height else lock <=? 500000000;
  Height_from_consensus h := if h <? 500000000 then Some h else None
|}.

(** ** Properties *)

(** The two HTLC parsers accept exactly the scripts of BOLT 3 and return
    the values pushed in them: a script parses to given values if and only if
    its instructions are those of the template with these values, with the three
    instructions of the anchor variant present exactly when it is asked for. *)
Theorem htlc_scripts_exact `{BitcoinLib} (script : ScriptBuf) (anchors : bool)
    (rev remote hash local : list Z) (cltv : Z) :
  (parse_received_htlc_script script anchors = Ok (rev, remote, hash, local, cltv) <->
   exists n32 ncltv, number_of n32 = Some 32 /\ number_of ncltv = Some cltv /\
     instructions script = Some <$> received_htlc_template anchors rev remote hash local n32 ncltv) /\
  (parse_offered_htlc_script script anchors = Ok (rev, remote, local, hash) <->
   exists n32, number_of n32 = Some 32 /\
     instructions script = Some <$> offered_htlc_template anchors rev remote local hash n32).
Proof. split; [apply parse_received_Ok|apply parse_offered_Ok]. Qed.

(** No output is ambiguous: trying the five templates in any other order
    gives the same answer for a p2wsh output whose script is known. *)
Theorem handle_output_any_order `{Profile} `{BitcoinLib} (pk : PublicKey) (setup : ChannelSetup)
    (self : Phase1.CommitmentInfo) (out : TxOut) (bytes : list Z)
    (l : list (option (res ValidationError Phase1.CommitmentInfo))) :
  is_p2wpkh out.(script_pubkey) = false -> is_p2wsh out.(script_pubkey) = true ->
  bytes <> [] -> out.(script_pubkey) = to_p2wsh (ScriptBuf_from bytes) ->
  Accounting.attempts pk setup self out (ScriptBuf_from bytes) ≡ₚ l ->
  Phase1.handle_output pk setup self out bytes = Accounting.first_attempt l.
Proof.
  intros Hpk Hsh Hb Hs Hp. rewrite Accounting.handle_output_attempts by done.
  apply Accounting.first_attempt_perm; [|done].
  apply Accounting.omap_id_one. intros i j. apply Accounting.attempts_one.
Qed.

Lemma handle_output_any_order_witness :
  let points := mkChannelPublicKeys 11 12 13 14 15 in
  let setup := mkChannelSetup true 1000000 0 (mkOutPoint 1 0) 6 None points 7 None StaticRemoteKey in
  let out := mkTxOut 5000 1002 in
  Phase1.handle_output (H:=debug_profile) 21 setup (Phase1.new true) out [2] =
    Accounting.first_attempt (rev (Accounting.attempts (H:=debug_profile) 21 setup (Phase1.new true) out 2)) /\
  Phase1.handle_output (H:=debug_profile) 21 setup (Phase1.new true) out [2] =
    Ok (Phase1.with_htlcs (Phase1.new true) [] [Phase1.mkHTLCInfo 5000 (replicate 20 3) 100]).
Proof.
  split; [|vm_compute; reflexivity].
  apply (handle_output_any_order (H:=debug_profile) 21 _ (Phase1.new true) (mkTxOut 5000 1002) [2]);
    [reflexivity|reflexivity|done|reflexivity|apply Permutation_rev].
Defined.
