(* ===== verification/Secrets.v ===== *)
(** * Storage of the counterparty's revocation secrets

    [CounterpartyCommitmentSecrets] of [vls-core/src/policy/validator.rs], the
    compact storage of BOLT 3.  SHA-256 is code of another package: it is a
    parameter, and no property of it is needed. *)
From S2P Require Import Prelude.

(** A secret, [[u8; 32]], is its list of bytes. *)
Abbreviation Secret := (list Z) (only parsing).

(** [old_secrets]: secret and index per place. *)
Record CounterpartyCommitmentSecrets := mkSecrets { old_secrets : list (Secret * Z) }.

Definition bit_set (idx : Z) (i : nat) : Prop :=
  Z.land idx (Z.shiftl 1 (Z.of_nat i)) = Z.shiftl 1 (Z.of_nat i).

#[export] Instance bit_set_dec (idx : Z) (i : nat) : Decision (bit_set idx i).
Proof. unfold bit_set. apply _. Defined.

Definition Secrets_new : CounterpartyCommitmentSecrets := mkSecrets [].

(** The first set bit below 48. *)
Definition place_secret (idx : Z) : nat :=
  match list_find (bit_set idx) (seq 0 48) with
  | Some (_, i) => i
  | None => 48%nat
  end.

Definition get_min_seen_secret (self : CounterpartyCommitmentSecrets) : Z :=
  foldl (fun min e => if e.2 <? min then e.2 else min) (2 ^ 48) self.(old_secrets).

(** [res[bitpos / 8] ^= 1 << (bitpos & 7)]. *)
Definition flip_bit (secret : Secret) (bitpos : nat) : Secret :=
  alter (fun b => Z.lxor b (Z.shiftl 1 (Z.land (Z.of_nat bitpos) 7)))
    (Z.to_nat (Z.of_nat bitpos / 8)) secret.

Definition is_zero_secret (secret : Secret) : bool := forallb (fun b => b =? 0) secret.

Fixpoint take_while {A : Type} (f : A -> bool) (l : list A) : list A :=
  match l with
  | [] => []
  | x :: l' => if f x then x :: take_while f l' else []
  end.

Definition trim_trailing_zeros (secrets : list (Secret * Z)) : option (list (Secret * Z)) :=
  let non_zero_len := length (take_while (fun e => negb (is_zero_secret e.1)) secrets) in
  if forallb (fun e => is_zero_secret e.1) (drop non_zero_len secrets)
  then Some (take non_zero_len secrets) else None.

(** [impl PartialEq]. *)
Definition Secrets_eq (self other : CounterpartyCommitmentSecrets) : bool :=
  match trim_trailing_zeros self.(old_secrets), trim_trailing_zeros other.(old_secrets) with
  | Some s, Some o => bool_decide (s = o)
  | _, _ => false
  end.

Section Secrets.
Context (sha256 : list Z -> Secret).

(** Bits [bits - 1] down to 0 of [idx] select the steps of the derivation. *)
Fixpoint derive_secret (secret : Secret) (bits : nat) (idx : Z) : Secret :=
  match bits with
  | O => secret
  | S bitpos =>
      derive_secret (if decide (bit_set idx bitpos) then sha256 (flip_bit secret bitpos) else secret)
        bitpos idx
  end.

Definition provide_secret (self : CounterpartyCommitmentSecrets) (idx : Z) (secret : Secret)
  : res unit CounterpartyCommitmentSecrets :=
  let pos := place_secret idx in
  if (length self.(old_secrets) <? pos)%nat then Err tt else
  for_each (fun i =>
    '(old_secret, old_idx) ← unwrap (self.(old_secrets) !! i);
    if decide (derive_secret secret pos old_idx <> old_secret) then Err tt else Ok tt) (seq 0 pos) ;;
  if get_min_seen_secret self <=? idx then Ok self else
  Ok (mkSecrets (if (pos <? length self.(old_secrets))%nat
                 then <[pos := (secret, idx)]> self.(old_secrets)
                 else self.(old_secrets) ++ [(secret, idx)])).

(** [idx & !((1 << i) - 1)] on 64 bits. *)
Definition mask_low (idx : Z) (i : nat) : Z :=
  Z.land idx (Z.lxor (2 ^ 64 - 1) (Z.shiftl 1 (Z.of_nat i) - 1)).

Fixpoint get_secret_loop (l : list (Secret * Z)) (i : nat) (idx : Z) : option Secret :=
  match l with
  | [] => None
  | (secret, old_idx) :: l' =>
      if mask_low idx i =? old_idx then Some (derive_secret secret i idx)
      else get_secret_loop l' (S i) idx
  end.

Definition get_secret {E : Type} (self : CounterpartyCommitmentSecrets) (idx : Z)
  : res E (option Secret) :=
  match get_secret_loop self.(old_secrets) 0 idx with
  | Some s => Ok (Some s)
  | None => rassert (idx <? get_min_seen_secret self) ;; Ok None
  end.

(** Providing the secrets of the indices [idx], [idx - 1], ... in turn. *)
Fixpoint provide_all (self : CounterpartyCommitmentSecrets) (idx : Z) (secrets : list Secret)
  : res unit CounterpartyCommitmentSecrets :=
  match secrets with
  | [] => Ok self
  | s :: secrets' => self' ← provide_secret self idx s; provide_all self' (idx - 1) secrets'
  end.

(** ** Bits *)
Lemma bit_set_testbit (idx : Z) (i : nat) : bit_set idx i <-> Z.testbit idx (Z.of_nat i) = true.
Proof.
  unfold bit_set. rewrite Z.shiftl_1_l. split.
  - intros Heq. assert (Ht : Z.testbit (Z.land idx (2 ^ Z.of_nat i)) (Z.of_nat i) = true).
    { rewrite Heq. apply Z.pow2_bits_true. lia. }
    rewrite Z.land_spec in Ht. by apply andb_true_iff in Ht as [? _].
  - intros Ht. apply Z.bits_inj'. intros n Hn. rewrite Z.land_spec, Z.pow2_bits_eqb by lia.
    destruct (Z.eqb_spec (Z.of_nat i) n) as [<-|]; [by rewrite Ht|by rewrite andb_false_r].
Qed.

Lemma mask_low_eq (idx : Z) (i : nat) :
  0 <= idx < 2 ^ 64 -> (i <= 64)%nat -> mask_low idx i = idx - idx mod 2 ^ Z.of_nat i.
Proof.
  intros Hidx Hi. unfold mask_low. rewrite Z.shiftl_1_l.
  replace (2 ^ Z.of_nat i - 1) with (Z.ones (Z.of_nat i)) by (rewrite Z.ones_equiv; lia).
  change (2 ^ 64 - 1) with (Z.ones 64).
  assert (Hbits : Z.land idx (Z.lxor (Z.ones 64) (Z.ones (Z.of_nat i))) = Z.ldiff idx (Z.ones (Z.of_nat i))).
  { apply Z.bits_inj'. intros n Hn. rewrite Z.land_spec, Z.lxor_spec, Z.ldiff_spec.
    rewrite !Z.testbit_ones_nonneg by lia.
    destruct (Z.ltb_spec n 64), (Z.ltb_spec n (Z.of_nat i)); cbn; try done; try lia.
    assert (Hz : Z.testbit idx n = false).
    { destruct (Z.eq_dec idx 0) as [->|]; [apply Z.bits_0|].
      apply Z.bits_above_log2; [lia|]. apply Z.log2_lt_pow2; [lia|].
      apply Z.lt_le_trans with (2 ^ 64); [lia|]. apply Z.pow_le_mono_r; lia. }
    by rewrite Hz. }
  rewrite Hbits, Z.ldiff_ones_r, Z.shiftr_div_pow2, Z.shiftl_mul_pow2 by lia.
  pose proof (Z.div_mod idx (2 ^ Z.of_nat i) ltac:(apply Z.pow_nonzero; lia)). lia.
Qed.

(** The lowest set bit of a positive index: [idx] is an odd multiple of
    [2 ^ place_secret idx]. *)
Lemma place_secret_spec (idx : Z) :
  0 < idx < 2 ^ 48 ->
  (place_secret idx < 48)%nat /\
  idx mod 2 ^ (Z.of_nat (place_secret idx) + 1) = 2 ^ Z.of_nat (place_secret idx).
Proof.
  intros Hidx. unfold place_secret. destruct (list_find _ _) as [[n i]|] eqn:Hf.
  - apply list_find_Some in Hf as (Hn & Hb & Hlow). apply lookup_seq in Hn as [-> Hn].
    rewrite Nat.add_0_l in *. split; [lia|]. rewrite bit_set_testbit in Hb.
    assert (Hz : idx mod 2 ^ Z.of_nat n = 0).
    { apply Z.bits_inj'. intros b Hb0. rewrite Z.bits_0.
      destruct (Z.ltb_spec b (Z.of_nat n)); [|apply Z.mod_pow2_bits_high; lia].
      rewrite Z.mod_pow2_bits_low by lia.
      specialize (Hlow (Z.to_nat b) (Z.to_nat b)). rewrite bit_set_testbit, Z2Nat.id in Hlow by lia.
      apply not_true_is_false. apply Hlow; [|lia]. apply lookup_seq. lia. }
    rewrite Z.pow_add_r, Z.rem_mul_r by lia. rewrite Hz.
    apply Z.testbit_true in Hb; [|lia]. change (2 ^ 1) with 2. rewrite Hb. lia.
  - apply list_find_None in Hf. rewrite Forall_forall in Hf. exfalso.
    assert (Hall : forall b, Z.testbit idx b = false).
    { intros b. destruct (Z.ltb_spec b 0); [by apply Z.testbit_neg_r|].
      destruct (Z.ltb_spec b 48).
      - apply not_true_is_false. rewrite <- (Z2Nat.id b), <- bit_set_testbit by lia.
        apply Hf. apply elem_of_seq. lia.
      - apply Z.bits_above_log2; [lia|]. apply Z.log2_lt_pow2; [lia|].
        apply Z.lt_le_trans with (2 ^ 48); [lia|]. apply Z.pow_le_mono_r; lia. }
    assert (idx = 0); [|lia]. apply Z.bits_inj'. intros. by rewrite Hall, Z.bits_0.
Qed.

(** ** Derivation *)

(** No bit below [bits]: nothing is derived. *)
Lemma derive_secret_low (bits : nat) (s : Secret) (idx : Z) :
  idx mod 2 ^ Z.of_nat bits = 0 -> derive_secret s bits idx = s.
Proof.
  revert s. induction bits as [|b IH]; intros s Hm; [done|]. cbn [derive_secret].
  assert (Hb : ~ bit_set idx b).
  { rewrite bit_set_testbit. rewrite <- (Z.mod_pow2_bits_low idx (Z.of_nat (S b))) by lia.
    rewrite Hm, Z.bits_0. done. }
  case_decide; [done|]. apply IH. rewrite Nat2Z.inj_succ, Z.pow_succ_r in Hm by lia.
  rewrite Z.mul_comm in Hm.
  assert (Hp : 2 ^ Z.of_nat b <> 0) by (apply Z.pow_nonzero; lia).
  apply Z.mod_divide in Hm; [|lia]. apply Z.mod_divide; [done|].
  destruct Hm as [q Hq]. exists (q * 2). lia.
Qed.

(** Deriving [idx] goes through the index that keeps its bits from [lo] up. *)
Lemma derive_secret_split (k lo : nat) (s : Secret) (idx : Z) :
  derive_secret s (lo + k) idx
  = derive_secret (derive_secret s (lo + k) (idx - idx mod 2 ^ Z.of_nat lo)) lo idx.
Proof.
  set (top := idx - idx mod 2 ^ Z.of_nat lo).
  assert (Hpos : 0 < 2 ^ Z.of_nat lo) by (apply Z.pow_pos_nonneg; lia).
  pose proof (Z.div_mod idx (2 ^ Z.of_nat lo) ltac:(lia)) as Hdm.
  assert (Htop : top = 2 ^ Z.of_nat lo * (idx / 2 ^ Z.of_nat lo)) by lia.
  assert (Hbits : forall b, (lo <= b)%nat -> bit_set top b <-> bit_set idx b).
  { intros b Hb. rewrite !bit_set_testbit.
    replace (Z.of_nat b) with ((Z.of_nat b - Z.of_nat lo) + Z.of_nat lo) by lia.
    rewrite <- !Z.div_pow2_bits by lia. rewrite Htop, Z.mul_comm, Z.div_mul by lia. done. }
  revert s. induction k as [|k IH]; intros s.
  - rewrite Nat.add_0_r. f_equal. symmetry. apply derive_secret_low.
    rewrite Htop, Z.mul_comm. apply Z.mod_mul. lia.
  - rewrite Nat.add_succ_r. cbn [derive_secret].
    destruct (decide (bit_set idx (lo + k))) as [Hi|Hi], (decide (bit_set top (lo + k))) as [Ht|Ht];
      try (rewrite Hbits in Ht by lia; done); apply IH.
Qed.

Lemma derive_secret_via (hi lo : nat) (s : Secret) (idx top : Z) :
  (lo <= hi)%nat -> top = idx - idx mod 2 ^ Z.of_nat lo ->
  derive_secret s hi idx = derive_secret (derive_secret s hi top) lo idx.
Proof.
  intros Hle ->. replace hi with (lo + (hi - lo))%nat by lia. apply derive_secret_split.
Qed.

(** ** The invariant *)

(** An entry at place [i] is in force from its index up to the next multiple. *)
Definition covers (i : nat) (x j : Z) : Prop := x <= j < x + 2 ^ Z.of_nat i.

(** [k] is the least index provided and [hist] gives the secret of each one. *)
Record secrets_inv (k : Z) (hist : Z -> Secret) (l : list (Secret * Z)) : Prop := mkSecretsInv {
  inv_range : 0 < k <= 2 ^ 48;
  inv_entry : forall i s x, l !! i = Some (s, x) ->
    x mod 2 ^ (Z.of_nat i + 1) = 2 ^ Z.of_nat i /\ k <= x < k + 2 ^ (Z.of_nat i + 1) /\ x < 2 ^ 48;
  inv_derive : forall i s x j, l !! i = Some (s, x) -> covers i x j -> derive_secret s i j = hist j;
  inv_len : (length l <= 48)%nat /\
    forall q, (q < 48)%nat -> (q < length l)%nat <-> k <= 2 ^ 48 - 2 ^ Z.of_nat q;
  inv_cover : forall j, k <= j < 2 ^ 48 -> exists i s x, l !! i = Some (s, x) /\ covers i x j
}.

Lemma pow2_pos (i : nat) : 0 < 2 ^ Z.of_nat i.
Proof. apply Z.pow_pos_nonneg; lia. Qed.

Lemma pow2_divide (i p : nat) : (i <= p)%nat -> (2 ^ Z.of_nat i | 2 ^ Z.of_nat p).
Proof. intros Hle. exists (2 ^ Z.of_nat (p - i)). rewrite <- Z.pow_add_r by lia. f_equal. lia. Qed.

(** Multiples of [d] less than [d] apart are equal. *)
Lemma multiple_gap (d a b : Z) : (d | a) -> (d | b) -> a < b + d -> b < a + d -> a = b.
Proof. intros [u ->] [v ->] ? ?. assert (u = v) by nia. by subst. Qed.

Lemma multiple_next (d a b : Z) : 0 < d -> (d | a) -> (d | b) -> a < b -> a + d <= b.
Proof. intros Hd [u ->] [v ->] ?. assert (u < v) by nia. nia. Qed.

(** An odd multiple of [2 ^ i] is a multiple of [2 ^ i] and not of the next power. *)
Lemma odd_multiple (i : nat) (x : Z) :
  x mod 2 ^ (Z.of_nat i + 1) = 2 ^ Z.of_nat i ->
  (2 ^ Z.of_nat i | x) /\ (2 ^ Z.of_nat (S i) | x - 2 ^ Z.of_nat i) /\ ~ (2 ^ Z.of_nat (S i) | x).
Proof.
  intros Hx. replace (Z.of_nat i + 1) with (Z.of_nat (S i)) in Hx by lia.
  pose proof (pow2_pos i). pose proof (pow2_pos (S i)).
  pose proof (Z.div_mod x (2 ^ Z.of_nat (S i)) ltac:(lia)) as Hdm. rewrite Hx in Hdm.
  split_and!.
  - rewrite Hdm. apply Z.divide_add_r; [|apply Z.divide_refl].
    apply Z.divide_mul_l. apply pow2_divide. lia.
  - exists (x / 2 ^ Z.of_nat (S i)). lia.
  - intros Hd. apply Z.mod_divide in Hd; [|lia]. rewrite Hx in Hd. lia.
Qed.

Lemma secrets_inv_init (hist : Z -> Secret) : secrets_inv (2 ^ 48) hist [].
Proof.
  constructor; cbn; try done; try lia.
  - split; [lia|]. intros q _. pose proof (pow2_pos q). lia.
Qed.

(** The least index seen is [k]. *)
Lemma fold_min_le (l : list (Secret * Z)) (m : Z) :
  let r := foldl (fun min e => if e.2 <? min then e.2 else min) m l in
  r <= m /\ (forall e, e ∈ l -> r <= e.2) /\ (r = m \/ exists e, e ∈ l /\ r = e.2).
Proof.
  revert m. induction l as [|e l IH]; intros m; cbn.
  - split_and!; [lia|set_solver|by left].
  - destruct (IH (if e.2 <? m then e.2 else m)) as (H1 & H2 & H3). cbn in *.
    split_and!.
    + destruct (Z.ltb_spec e.2 m); lia.
    + intros e' [->|He']%elem_of_cons; [|by apply H2]. destruct (Z.ltb_spec e.2 m); lia.
    + destruct H3 as [H3|(e' & He' & H3)].
      * rewrite H3. destruct (e.2 <? m); [right; exists e; split; [constructor|done]|by left].
      * right. exists e'. split; [by constructor|done].
Qed.

Lemma min_seen_inv (k : Z) (hist : Z -> Secret) (l : list (Secret * Z)) :
  secrets_inv k hist l -> get_min_seen_secret (mkSecrets l) = k.
Proof.
  intros Hinv. unfold get_min_seen_secret. cbn [old_secrets].
  destruct (fold_min_le l (2 ^ 48)) as (Hle & Hall & Hex). cbn in *.
  assert (Hk : forall e, e ∈ l -> k <= e.2).
  { intros [s x] [i Hi]%list_elem_of_lookup. cbn.
    destruct (inv_entry _ _ _ Hinv i s x Hi) as (_ & ? & _). lia. }
  destruct (decide (k = 2 ^ 48)) as [->|Hne].
  - destruct Hex as [Hex|(e & He & Hex)]; [done|]. specialize (Hk e He). lia.
  - destruct (inv_range _ _ _ Hinv) as [Hk0 Hk1].
    destruct (inv_cover _ _ _ Hinv k) as (i & s & x & Hi & Hc); [lia|]. unfold covers in Hc.
    destruct (inv_entry _ _ _ Hinv i s x Hi) as (_ & Hx & _).
    assert (x = k) by lia. subst x.
    specialize (Hall (s, k) ltac:(by eapply list_elem_of_lookup_2)). cbn in Hall.
    destruct Hex as [Hex|(e & He & Hex)]; [lia|]. specialize (Hk e He). lia.
Qed.

(** The new store. *)
Definition place_in (l : list (Secret * Z)) (p : nat) (e : Secret * Z) : list (Secret * Z) :=
  if (p <? length l)%nat then <[p := e]> l else l ++ [e].

Lemma lookup_place_in (l : list (Secret * Z)) (p i : nat) (e : Secret * Z) :
  (p <= length l)%nat -> place_in l p e !! i = if decide (i = p) then Some e else l !! i.
Proof.
  intros Hp. unfold place_in. destruct (Nat.ltb_spec p (length l)).
  - case_decide; subst; [by apply list_lookup_insert_eq|by apply list_lookup_insert_ne].
  - assert (p = length l) by lia. subst. case_decide; subst.
    + by rewrite lookup_app_r, Nat.sub_diag.
    + destruct (decide (i < length l)%nat); [by rewrite lookup_app_l|].
      rewrite lookup_app_r by lia. rewrite (lookup_ge_None_2 l) by lia.
      destruct (i - length l)%nat eqn:Hi; [lia|done].
Qed.

Section Step.
Context (k : Z) (hist : Z -> Secret) (l : list (Secret * Z)) (s : Secret).
Context (Hinv : secrets_inv k hist l) (Hk : 1 < k).
Let p := place_secret (k - 1).
Context (Hp : (p <= length l)%nat).
Context (Hcheck : forall i s' x, (i < p)%nat -> l !! i = Some (s', x) -> derive_secret s p x = s').

Let hist' (j : Z) : Secret := if decide (j = k - 1) then s else hist j.
Let next : list (Secret * Z) := place_in l p (s, k - 1).

Lemma step_place : (p < 48)%nat /\ (k - 1) mod 2 ^ (Z.of_nat p + 1) = 2 ^ Z.of_nat p.
Proof. apply place_secret_spec. destruct (inv_range _ _ _ Hinv). lia. Qed.

Lemma step_entry (i : nat) (s' : Secret) (x : Z) :
  place_in l p (s, k - 1) !! i = Some (s', x) ->
  x mod 2 ^ (Z.of_nat i + 1) = 2 ^ Z.of_nat i /\
  k - 1 <= x < k - 1 + 2 ^ (Z.of_nat i + 1) /\ x < 2 ^ 48.
Proof.
  rewrite lookup_place_in by done. destruct step_place as [Hp48 Hm].
  pose proof (inv_range _ _ _ Hinv). case_decide as Hd.
  - intros [= <- <-]. subst i. pose proof (Z.pow_pos_nonneg 2 (Z.of_nat p + 1)). split_and!; try (done || lia).
  - intros Hi. destruct (inv_entry _ _ _ Hinv i s' x Hi) as (Hx & Hr & Hlt). split_and!; try (done || lia).
    destruct (decide (x = k - 1 + 2 ^ (Z.of_nat i + 1))) as [->|]; [|lia]. exfalso. apply Hd.
    replace (k - 1 + 2 ^ (Z.of_nat i + 1)) with (k - 1 + 1 * 2 ^ (Z.of_nat i + 1)) in Hx by lia.
    rewrite Z.mod_add in Hx by (apply Z.pow_nonzero; lia).
    destruct (odd_multiple _ _ Hx) as (Hd1 & _ & Hn1). destruct (odd_multiple _ _ Hm) as (Hd2 & _ & Hn2).
    destruct (Nat.lt_trichotomy i p) as [Hlt'|[?|Hgt']]; [|done|]; exfalso.
    + apply Hn1. eapply Z.divide_trans; [|exact Hd2]. apply pow2_divide. lia.
    + apply Hn2. eapply Z.divide_trans; [|exact Hd1]. apply pow2_divide. lia.
Qed.

(** What the new entry covers beyond its own index was covered from lower places. *)
Lemma step_lower (i : nat) (s' : Secret) (x j : Z) :
  l !! i = Some (s', x) -> covers i x j -> k <= j < k - 1 + 2 ^ Z.of_nat p -> (i < p)%nat.
Proof.
  intros Hi Hc Hj. destruct (decide (i < p)%nat) as [|Hge]; [done|]. exfalso.
  destruct (inv_entry _ _ _ Hinv i s' x Hi) as (Hx & Hr & _). destruct step_place as [_ Hm].
  destruct (odd_multiple _ _ Hx) as (Hd1 & _ & _). destruct (odd_multiple _ _ Hm) as (Hd2 & _ & _).
  assert (Hd1' : (2 ^ Z.of_nat p | x)) by (eapply Z.divide_trans; [|exact Hd1]; apply pow2_divide; lia).
  unfold covers in Hc. pose proof (multiple_gap _ x (k - 1) Hd1' Hd2 ltac:(lia) ltac:(lia)). lia.
Qed.

Lemma step_derive (i : nat) (s' : Secret) (x j : Z) :
  place_in l p (s, k - 1) !! i = Some (s', x) -> covers i x j -> derive_secret s' i j = hist' j.
Proof.
  rewrite lookup_place_in by done. unfold hist'. destruct step_place as [Hp48 Hm].
  destruct (odd_multiple _ _ Hm) as (Hdk & _ & _). pose proof (pow2_pos p).
  case_decide as Hd.
  - intros [= <- <-] Hc. subst i. unfold covers in Hc. case_decide as Hj.
    + subst j. apply derive_secret_low. apply Z.mod_divide; [lia|done].
    + pose proof (inv_range _ _ _ Hinv).
      assert (Hj48 : j < 2 ^ 48).
      { assert (Hd48 : (2 ^ Z.of_nat p | 2 ^ 48)) by (apply (pow2_divide p 48); lia).
        pose proof (multiple_next _ _ _ H Hdk Hd48 ltac:(lia)). lia. }
      destruct (inv_cover _ _ _ Hinv j) as (i & si & x & Hi & Hci); [lia|].
      assert (Hip : (i < p)%nat) by (eapply step_lower; eauto; lia).
      destruct (inv_entry _ _ _ Hinv i si x Hi) as (Hx & _). destruct (odd_multiple _ _ Hx) as (Hdx & _).
      rewrite (derive_secret_via p i s j x).
      * rewrite (Hcheck i si x Hip Hi). by apply (inv_derive _ _ _ Hinv i si x).
      * lia.
      * unfold covers in Hci. destruct Hdx as [u ->]. pose proof (pow2_pos i).
        rewrite (Z.mod_eq j) by lia. assert (j / 2 ^ Z.of_nat i = u); [|nia].
        symmetry. apply (Z.div_unique_pos _ _ _ (j - u * 2 ^ Z.of_nat i)); lia.
  - intros Hi Hc. rewrite (inv_derive _ _ _ Hinv i s' x j Hi Hc).
    destruct (inv_entry _ _ _ Hinv i s' x Hi) as (_ & Hr & _). unfold covers in Hc.
    case_decide; [lia|done].
Qed.

Lemma length_place_in :
  length (place_in l p (s, k - 1)) = Nat.max (length l) (S p).
Proof.
  unfold place_in. destruct (Nat.ltb_spec p (length l)).
  - rewrite length_insert. lia.
  - rewrite length_app. cbn. lia.
Qed.

(** [2 ^ 48 - 2 ^ q] is the first index of place [q]. *)
Lemma step_first (q : nat) : (q < 48)%nat -> k - 1 = 2 ^ 48 - 2 ^ Z.of_nat q -> q = p.
Proof.
  intros Hq Heq. destruct step_place as [Hp48 Hm].
  destruct (odd_multiple _ _ Hm) as (Hd & _ & Hn).
  assert (Hq1 : (k - 1) mod 2 ^ (Z.of_nat q + 1) = 2 ^ Z.of_nat q).
  { rewrite Heq. symmetry. apply (Z.mod_unique_pos _ _ (2 ^ (47 - Z.of_nat q) - 1)).
    - rewrite Z.pow_add_r by lia. pose proof (pow2_pos q). lia.
    - rewrite Z.mul_sub_distr_l, <- Z.pow_add_r by lia.
      replace (Z.of_nat q + 1 + (47 - Z.of_nat q)) with 48 by lia. rewrite Z.pow_add_r by lia. lia. }
  destruct (odd_multiple _ _ Hq1) as (Hd1 & _ & Hn1).
  destruct (Nat.lt_trichotomy q p) as [?|[?|?]]; [|done|]; exfalso.
  - apply Hn1. eapply Z.divide_trans; [|exact Hd]. apply pow2_divide. lia.
  - apply Hn. eapply Z.divide_trans; [|exact Hd1]. apply pow2_divide. lia.
Qed.

Lemma step_len (q : nat) : (q < 48)%nat ->
  (q < length next)%nat <-> k - 1 <= 2 ^ 48 - 2 ^ Z.of_nat q.
Proof.
  intros Hq. unfold next. rewrite length_place_in. destruct (inv_len _ _ _ Hinv) as [_ Hlen].
  specialize (Hlen q Hq). destruct step_place as [Hp48 Hm].
  destruct (odd_multiple _ _ Hm) as (Hd & _). pose proof (pow2_pos p). pose proof (inv_range _ _ _ Hinv).
  assert (Hd48 : (2 ^ Z.of_nat p | 2 ^ 48)) by (apply (pow2_divide p 48); lia).
  pose proof (multiple_next _ _ _ H Hd Hd48 ltac:(lia)) as Hnext.
  split.
  - intros Hlt. destruct (decide (q < length l)%nat) as [Hl|Hl]; [apply Hlen in Hl; lia|].
    assert (q = p) by lia. subst q. lia.
  - intros Hle. destruct (decide (k - 1 = 2 ^ 48 - 2 ^ Z.of_nat q)) as [Heq|Hne].
    + apply (step_first q Hq) in Heq. lia.
    + assert (q < length l)%nat by (apply Hlen; lia). lia.
Qed.

Lemma step_cover (j : Z) : k - 1 <= j < 2 ^ 48 ->
  exists i s' x, place_in l p (s, k - 1) !! i = Some (s', x) /\ covers i x j.
Proof.
  intros Hj. destruct step_place as [Hp48 Hm]. pose proof (pow2_pos p) as Hpp.
  destruct (odd_multiple _ _ Hm) as (Hdk & Hdk1 & Hnk). pose proof (inv_range _ _ _ Hinv).
  destruct (decide (j = k - 1)) as [->|Hne].
  { exists p, s, (k - 1). rewrite lookup_place_in by done. rewrite decide_True by done.
    unfold covers. split; [done|lia]. }
  destruct (inv_cover _ _ _ Hinv j) as (i & si & x & Hi & Hc); [lia|].
  destruct (decide (i = p)) as [->|Hip].
  2:{ exists i, si, x. rewrite lookup_place_in by done. by rewrite decide_False. }
  destruct (inv_entry _ _ _ Hinv p si x Hi) as (Hx & Hr & Hx48).
  destruct (odd_multiple _ _ Hx) as (_ & Hdx1 & _).
  assert (Hpow : 2 ^ Z.of_nat (S p) = 2 * 2 ^ Z.of_nat p) by (rewrite Nat2Z.inj_succ, Z.pow_succ_r; lia).
  replace (Z.of_nat p + 1) with (Z.of_nat (S p)) in Hr by lia.
  pose proof (pow2_pos (S p)) as HpS.
  assert (Hxeq : x = k - 1 + 2 ^ Z.of_nat (S p)).
  { pose proof (multiple_next _ _ _ HpS Hdk1 Hdx1 ltac:(lia)). lia. }
  (* the even multiple between the two entries *)
  set (y := k - 1 + 2 ^ Z.of_nat p).
  assert (Hdy : (2 ^ Z.of_nat (S p) | y)).
  { replace y with (k - 1 - 2 ^ Z.of_nat p + 2 ^ Z.of_nat (S p)) by lia.
    apply Z.divide_add_r; [done|apply Z.divide_refl]. }
  destruct (inv_cover _ _ _ Hinv y) as (q & sq & xq & Hq & Hcq); [lia|].
  destruct (inv_entry _ _ _ Hinv q sq xq Hq) as (Hxq & Hrq & _).
  destruct (odd_multiple _ _ Hxq) as (Hdq & _ & Hnq). unfold covers in *.
  assert (Hqp : (p < q)%nat).
  { destruct (decide (p < q)%nat) as [|Hge]; [done|]. exfalso.
    assert (Hyq : (2 ^ Z.of_nat q | y)) by (eapply Z.divide_trans; [|exact Hdy]; apply pow2_divide; lia).
    assert (y = xq) by (apply (multiple_gap (2 ^ Z.of_nat q)); (done || lia)). subst xq.
    apply Hnq. eapply Z.divide_trans; [|exact Hdy]. apply pow2_divide. lia. }
  assert (Hend : y + 2 ^ Z.of_nat (S p) <= xq + 2 ^ Z.of_nat q).
  { apply multiple_next; [lia|done| |lia].
    apply Z.divide_add_r; [eapply Z.divide_trans; [|exact Hdq]|]; apply pow2_divide; lia. }
  exists q, sq, xq. rewrite lookup_place_in by done. rewrite decide_False by lia. split; [done|lia].
Qed.

Lemma step_inv : secrets_inv (k - 1) hist' (place_in l p (s, k - 1)).
Proof.
  pose proof (inv_range _ _ _ Hinv). destruct step_place as [Hp48 _].
  constructor.
  - lia.
  - apply step_entry.
  - apply step_derive.
  - split; [|apply step_len]. rewrite length_place_in. destruct (inv_len _ _ _ Hinv). lia.
  - apply step_cover.
Qed.
End Step.

(** An accepted secret extends the history. *)
Lemma provide_secret_inv (k : Z) (hist : Z -> Secret) (self self' : CounterpartyCommitmentSecrets) (s : Secret) :
  secrets_inv k hist self.(old_secrets) -> 1 < k ->
  provide_secret self (k - 1) s = Ok self' ->
  secrets_inv (k - 1) (fun j => if decide (j = k - 1) then s else hist j) self'.(old_secrets).
Proof.
  intros Hinv Hk. unfold provide_secret.
  destruct (Nat.ltb_spec (length self.(old_secrets)) (place_secret (k - 1))) as [|Hp]; [done|].
  intros H. res_inv. destruct v. apply for_each_Ok in E.
  assert (Hmin : get_min_seen_secret self = k) by (destruct self; by eapply min_seen_inv).
  rewrite Hmin in H. destruct (Z.leb_spec k (k - 1)); [lia|]. res_inv. cbn.
  apply step_inv; try done. intros i s' x Hi Hl. rewrite Forall_forall in E.
  specialize (E i ltac:(apply elem_of_seq; lia)). rewrite Hl in E.
  cbn [mbind res_bind unwrap] in E.
  by case_decide.
Qed.

Lemma get_secret_loop_inv (k : Z) (hist : Z -> Secret) (l : list (Secret * Z)) (j : Z) :
  secrets_inv k hist l -> k <= j < 2 ^ 48 -> get_secret_loop l 0 j = Some (hist j).
Proof.
  intros Hinv Hj. destruct (inv_cover _ _ _ Hinv j Hj) as (i & s & x & Hi & Hc).
  destruct (inv_len _ _ _ Hinv) as [Hlen _]. pose proof (inv_range _ _ _ Hinv).
  assert (Hmask : forall i s x, l !! i = Some (s, x) -> mask_low j i = x <-> covers i x j).
  { intros i' s' x' Hi'. destruct (inv_entry _ _ _ Hinv i' s' x' Hi') as (Hx & _).
    destruct (odd_multiple _ _ Hx) as ([u Hu] & _). pose proof (pow2_pos i').
    apply lookup_lt_Some in Hi'. rewrite mask_low_eq by (lia || split; lia).
    unfold covers. pose proof (Z.mod_pos_bound j (2 ^ Z.of_nat i') ltac:(lia)).
    pose proof (Z.div_mod j (2 ^ Z.of_nat i') ltac:(lia)).
    split; [lia|]. intros Hcov. assert (j / 2 ^ Z.of_nat i' = u); [|nia].
    symmetry. apply (Z.div_unique_pos _ _ _ (j - x')); lia. }
  assert (Hgen : forall l' n, (forall m, l' !! m = l !! (n + m)%nat) ->
    (exists m s x, l' !! m = Some (s, x) /\ covers (n + m) x j) ->
    get_secret_loop l' n j = Some (hist j)).
  { induction l' as [|[s0 x0] l' IH]; intros n Heq (m & s1 & x1 & Hm & Hcm); [done|]. cbn.
    assert (Hn : l !! n = Some (s0, x0)) by (specialize (Heq 0%nat); by rewrite Nat.add_0_r in Heq).
    destruct (Z.eqb_spec (mask_low j n) x0) as [Hmk|Hmk].
    - f_equal. apply (inv_derive _ _ _ Hinv n s0 x0); [done|]. by apply (Hmask n s0 x0).
    - destruct m as [|m].
      + cbn in Hm. simplify_eq. rewrite Nat.add_0_r in Hcm. exfalso. apply Hmk. by eapply Hmask.
      + apply IH.
        * intros m'. replace (S n + m')%nat with (n + S m')%nat by lia. apply (Heq (S m')).
        * exists m, s1, x1. split; [done|]. by replace (S n + m)%nat with (n + S m)%nat by lia. }
  apply Hgen; [done|]. exists i, s, x. done.
Qed.

Lemma provide_all_inv (ss : list Secret) (k : Z) (hist : Z -> Secret) (self self' : CounterpartyCommitmentSecrets) :
  secrets_inv k hist self.(old_secrets) -> Z.of_nat (length ss) < k ->
  provide_all self (k - 1) ss = Ok self' ->
  exists hist', secrets_inv (k - Z.of_nat (length ss)) hist' self'.(old_secrets) /\
    (forall j, k <= j -> hist' j = hist j) /\
    (forall n s, ss !! n = Some s -> hist' (k - 1 - Z.of_nat n) = s).
Proof.
  revert k hist self. induction ss as [|s ss IH]; intros k hist self Hinv Hlen H; cbn in H.
  - res_inv. exists hist. cbn. rewrite Z.sub_0_r. done.
  - res_inv. cbn [length] in *. destruct (IH (k - 1) _ _ (provide_secret_inv _ _ _ _ _ Hinv ltac:(lia) E) ltac:(lia) H)
      as (hist' & Hinv' & Hold & Hnew).
    exists hist'. split_and!.
    + by replace (k - Z.of_nat (S (length ss))) with (k - 1 - Z.of_nat (length ss)) by lia.
    + intros j Hj. rewrite Hold by lia. case_decide; [lia|done].
    + intros [|n] s' Hs; cbn in Hs.
      * simplify_eq. rewrite Hold by lia. rewrite decide_True by lia. done.
      * apply Hnew in Hs. by replace (k - 1 - Z.of_nat (S n)) with (k - 1 - 1 - Z.of_nat n) by lia.
Qed.

(** ** Honest secrets *)

(** The secrets that a peer derives from its seed. *)
Definition build_secret (seed : Secret) (idx : Z) : Secret := derive_secret seed 48 idx.

(** What an honest peer reveals next always passes the check. *)
Lemma provide_honest (seed : Secret) (k : Z) (l : list (Secret * Z)) :
  secrets_inv k (build_secret seed) l -> 1 < k ->
  exists self', provide_secret (mkSecrets l) (k - 1) (build_secret seed (k - 1)) = Ok self' /\
    secrets_inv (k - 1) (build_secret seed) self'.(old_secrets).
Proof.
  intros Hinv Hk. pose proof (inv_range _ _ _ Hinv) as Hr.
  destruct (place_secret_spec (k - 1) ltac:(lia)) as [Hp48 Hm].
  destruct (odd_multiple _ _ Hm) as (Hdk & _). set (p := place_secret (k - 1)) in *.
  pose proof (pow2_pos p) as Hpp.
  assert (Hd48 : (2 ^ Z.of_nat p | 2 ^ 48)) by (apply (pow2_divide p 48); lia).
  pose proof (multiple_next _ _ _ Hpp Hdk Hd48 ltac:(lia)) as Hnext.
  assert (Hp : (p <= length l)%nat).
  { destruct p as [|p']; [lia|]. destruct (inv_len _ _ _ Hinv) as [_ Hlen].
    assert (p' < length l)%nat; [|lia]. apply Hlen; [lia|].
    rewrite Nat2Z.inj_succ, Z.pow_succ_r in Hnext by lia. pose proof (pow2_pos p'). lia. }
  assert (Hok : exists self', provide_secret (mkSecrets l) (k - 1) (build_secret seed (k - 1)) = Ok self').
  { unfold provide_secret. fold p. cbn [old_secrets].
    destruct (Nat.ltb_spec (length l) p); [lia|].
    eexists. eapply bind_step.
    - apply for_each_Ok, Forall_forall. intros i [_ Hi]%elem_of_seq.
      destruct (lookup_lt_is_Some_2 l i ltac:(lia)) as [[s' x] Hl]. rewrite Hl. cbn [unwrap mbind res_bind].
      rewrite decide_False; [done|]. intros Hne. apply Hne. clear Hne.
      destruct (inv_entry _ _ _ Hinv i s' x Hl) as (Hx & Hxr & _). destruct (odd_multiple _ _ Hx) as (Hdx & _).
      pose proof (pow2_pos i) as Hpi.
      assert (Hs : s' = build_secret seed x).
      { rewrite <- (inv_derive _ _ _ Hinv i s' x x Hl) by (unfold covers; lia).
        symmetry. apply derive_secret_low. apply Z.mod_divide; [lia|done]. }
      rewrite Hs. unfold build_secret. symmetry. apply derive_secret_via; [lia|].
      assert (Hxp : x < k - 1 + 2 ^ Z.of_nat p).
      { replace (Z.of_nat i + 1) with (Z.of_nat (S i)) in Hxr by lia.
        assert (Hle : 2 ^ Z.of_nat (S i) <= 2 ^ Z.of_nat p) by (apply Z.pow_le_mono_r; lia).
        destruct (decide (x = k - 1 + 2 ^ Z.of_nat p)) as [Heq|]; [|lia]. exfalso.
        destruct (odd_multiple _ _ Hx) as (_ & _ & Hn). apply Hn. rewrite Heq.
        apply Z.divide_add_r; [eapply Z.divide_trans; [|exact Hdk]|]; apply pow2_divide; lia. }
      destruct Hdk as [u Hu]. assert (Hq : x / 2 ^ Z.of_nat p = u).
      { symmetry. apply (Z.div_unique_pos _ _ _ (x - (k - 1))); lia. }
      rewrite Z.mod_eq by lia. rewrite Hq. lia.
    - rewrite (min_seen_inv k (build_secret seed) l Hinv). destruct (Z.leb_spec k (k - 1)); [lia|]. done. }
  destruct Hok as [self' Hok]. exists self'. split; [done|].
  pose proof (provide_secret_inv k _ (mkSecrets l) self' _ Hinv Hk Hok) as [H1 H2 H3 H4 H5].
  constructor; try done. intros i s x j Hi Hc. rewrite (H3 i s x j Hi Hc). by case_decide; subst.
Qed.

(** ** Properties *)

(** C26: whatever the peer sends, if the secrets for the indices from [2^48 - 1]
    downwards were all accepted, then [get_secret] returns for each of those
    indices exactly the secret that was provided, and [None] below them. *)
Theorem secrets_roundtrip (ss : list Secret) (self : CounterpartyCommitmentSecrets) :
  Z.of_nat (length ss) < 2 ^ 48 -> provide_all Secrets_new (2 ^ 48 - 1) ss = Ok self ->
  (length self.(old_secrets) <= 48)%nat /\
  get_min_seen_secret self = 2 ^ 48 - Z.of_nat (length ss) /\
  (forall n s, ss !! n = Some s -> get_secret (E:=unit) self (2 ^ 48 - 1 - Z.of_nat n) = Ok (Some s)).
Proof.
  intros Hlen Hp.
  destruct (provide_all_inv ss (2 ^ 48) (fun _ => []) Secrets_new _ (secrets_inv_init _) Hlen Hp)
    as (hist & Hinv & _ & Hnew).
  split_and!.
  - apply Hinv.
  - destruct self. by eapply min_seen_inv.
  - intros n s Hn. pose proof (lookup_lt_Some _ _ _ Hn). unfold get_secret.
    rewrite (get_secret_loop_inv _ _ _ (2 ^ 48 - 1 - Z.of_nat n) Hinv) by lia.
    by rewrite (Hnew n s Hn).
Qed.

(** The secrets that a peer derives from one seed by BOLT 3 are all
    accepted, in the order it reveals them. *)
Theorem honest_secrets_accepted (seed : Secret) (n : nat) :
  Z.of_nat n < 2 ^ 48 ->
  exists self, provide_all Secrets_new (2 ^ 48 - 1)
    ((fun i => build_secret seed (2 ^ 48 - 1 - Z.of_nat i)) <$> seq 0 n) = Ok self.
Proof.
  intros Hn.
  enough (Hgen : forall m k l, secrets_inv k (build_secret seed) l -> Z.of_nat m < k ->
    exists self, provide_all (mkSecrets l) (k - 1)
      ((fun i => build_secret seed (k - 1 - Z.of_nat i)) <$> seq 0 m) = Ok self)
    by exact (Hgen n (2 ^ 48) [] (secrets_inv_init _) Hn).
  clear n Hn. induction m as [|m IH]; intros k l Hinv Hm; [by eexists|].
  rewrite <- cons_seq, fmap_cons, <- fmap_S_seq, <- list_fmap_compose. cbn [provide_all].
  rewrite Z.sub_0_r. destruct (provide_honest seed k l Hinv ltac:(lia)) as ([l'] & -> & Hinv').
  cbn [mbind res_bind]. destruct (IH (k - 1) l' Hinv' ltac:(lia)) as [self Hs]. exists self.
  rewrite <- Hs. f_equal. apply list_fmap_ext. intros i x _. unfold compose. f_equal. lia.
Qed.
End Secrets.

(** A stand-in for the hash, for evaluation on concrete data. *)
Definition toy_hash (l : list Z) : list Z := (fun b => (b * 7 + zsum l + 1) mod 256) <$> l.

Definition toy_seed : list Z := replicate 32 5.

Definition toy_secrets : list (list Z) :=
  (fun i => build_secret toy_hash toy_seed (2 ^ 48 - 1 - Z.of_nat i)) <$> seq 0 5.

Definition toy_store : CounterpartyCommitmentSecrets :=
  match provide_all toy_hash Secrets_new (2 ^ 48 - 1) toy_secrets with
  | Ok self => self
  | _ => Secrets_new
  end.

(** Three entries answer for five indices. *)
Lemma secrets_roundtrip_witness :
  length (old_secrets toy_store) = 3%nat /\
  get_secret (E:=unit) toy_hash toy_store (2 ^ 48 - 1 - Z.of_nat 2)
  = Ok (Some (build_secret toy_hash toy_seed (2 ^ 48 - 3))).
Proof.
  split; [vm_compute; reflexivity|].
  destruct (secrets_roundtrip toy_hash toy_secrets toy_store) as (_ & _ & Hget).
  - vm_compute. reflexivity.
  - vm_compute. reflexivity.
  - apply Hget. vm_compute. reflexivity.
Defined.

Lemma honest_secrets_accepted_witness :
  exists self, provide_all toy_hash Secrets_new (2 ^ 48 - 1)
    ((fun i => build_secret toy_hash toy_seed (2 ^ 48 - 1 - Z.of_nat i)) <$> seq 0 9) = Ok self.
Proof. apply (honest_secrets_accepted toy_hash toy_seed 9). lia. Defined.
