(* ===== verification/Enforcement.v ===== *)
(** * Enforcement state: [vls-core/src/policy/validator.rs]

    [EnforcementState], the state that the validator keeps per channel, with its
    methods, and the default methods of the trait [Validator] that advance the
    commitment and revocation numbers under policy. *)
From S2P Require Import Prelude Velocity Policy Ordered CommitInfo Types Secrets.

Record CommitmentSignatures := mkCommitmentSignatures {
  commit_sig : Signature;
  htlc_sigs : list Signature
}.

#[export] Instance CommitmentSignatures_eq_dec : EqDecision CommitmentSignatures.
Proof. solve_decision. Defined.

Record ChainState := mkChainState {
  current_height : Z;
  funding_depth : Z;
  funding_double_spent_depth : Z;
  closing_depth : Z;
  splice_pending : bool
}.

Record PrevFundingCommitment := mkPrevFundingCommitment {
  outpoint : OutPoint;
  current_holder_info : option CommitmentInfo2;
  current_holder_signatures : option CommitmentSignatures;
  next_holder_info : option (CommitmentInfo2 * CommitmentSignatures);
  current_counterparty_info : option CommitmentInfo2;
  retiring_push_value_msat : Z
}.

Record EnforcementState := mkEnforcementState {
  next_holder_commit_num : Z;
  next_counterparty_commit_num : Z;
  next_counterparty_revoke_num : Z;
  current_counterparty_point : option PublicKey;
  previous_counterparty_point : option PublicKey;
  current_holder_commit_info : option CommitmentInfo2;
  current_counterparty_signatures : option CommitmentSignatures;
  next_holder_commit_info : option (CommitmentInfo2 * CommitmentSignatures);
  current_counterparty_commit_info : option CommitmentInfo2;
  previous_counterparty_commit_info : option CommitmentInfo2;
  channel_closed : bool;
  initial_holder_value : Z;
  counterparty_secrets : option CounterpartyCommitmentSecrets;
  holder_commitment_funding : option OutPoint;
  prev_funding_commitment : option PrevFundingCommitment;
  counterparty_commitment_funding : option OutPoint
}.

Definition EnforcementState_new (initial_holder_value : Z) : EnforcementState :=
  mkEnforcementState 0 0 0 None None None None None None None false initial_holder_value
    (Some Secrets_new) None None None.

(** [Option::is_none_or] and [Option::is_some_and] with an equality. *)
Definition is_none_or_eq (o : option OutPoint) (v : OutPoint) : bool :=
  match o with None => true | Some f => bool_decide (f = v) end.
Definition is_some_and_eq (o : option OutPoint) (v : OutPoint) : bool :=
  match o with None => false | Some f => bool_decide (f = v) end.

Definition holder_commit_info_for (self : EnforcementState) (view_outpoint : OutPoint)
  : option CommitmentInfo2 :=
  if is_none_or_eq self.(holder_commitment_funding) view_outpoint then
    self.(current_holder_commit_info)
  else match self.(prev_funding_commitment) with
  | Some prev =>
      if bool_decide (prev.(outpoint) = view_outpoint) then prev.(current_holder_info) else None
  | None => None
  end.

Definition counterparty_commit_info_for (self : EnforcementState) (view_outpoint : OutPoint)
  : option CommitmentInfo2 :=
  if is_none_or_eq self.(counterparty_commitment_funding) view_outpoint
     && bool_decide (is_Some self.(current_counterparty_commit_info)) then
    self.(current_counterparty_commit_info)
  else match self.(prev_funding_commitment) with
  | Some prev =>
      if bool_decide (prev.(outpoint) = view_outpoint) then prev.(current_counterparty_info) else None
  | None => None
  end.

(** The smaller of two values that are within [epsilon_sat]. *)
Definition min_within (epsilon_sat hval cval : Z) : option Z :=
  if cval <? hval then (if hval - cval <=? epsilon_sat then Some cval else None)
  else (if cval - hval <=? epsilon_sat then Some hval else None).

Definition minimum_to_holder_value (self : EnforcementState) (epsilon_sat : Z) : option Z :=
  match self.(current_holder_commit_info), self.(current_counterparty_commit_info) with
  | Some hinfo, Some cinfo =>
      min_within epsilon_sat hinfo.(to_broadcaster_value_sat) cinfo.(to_countersigner_value_sat)
  | _, _ => None
  end.

Definition minimum_to_counterparty_value (self : EnforcementState) (epsilon_sat : Z) : option Z :=
  match self.(current_holder_commit_info), self.(current_counterparty_commit_info) with
  | Some hinfo, Some cinfo =>
      min_within epsilon_sat hinfo.(to_countersigner_value_sat) cinfo.(to_broadcaster_value_sat)
  | _, _ => None
  end.

(** Field updates, in the order of the record. *)
Definition with_holder (self : EnforcementState) (num : Z) (info : option CommitmentInfo2)
    (sigs : option CommitmentSignatures) : EnforcementState :=
  mkEnforcementState num self.(next_counterparty_commit_num) self.(next_counterparty_revoke_num)
    self.(current_counterparty_point) self.(previous_counterparty_point) info sigs
    self.(next_holder_commit_info) self.(current_counterparty_commit_info)
    self.(previous_counterparty_commit_info) self.(channel_closed) self.(initial_holder_value)
    self.(counterparty_secrets) self.(holder_commitment_funding) self.(prev_funding_commitment)
    self.(counterparty_commitment_funding).

Definition with_next_holder (self : EnforcementState)
    (next : option (CommitmentInfo2 * CommitmentSignatures)) : EnforcementState :=
  mkEnforcementState self.(next_holder_commit_num) self.(next_counterparty_commit_num)
    self.(next_counterparty_revoke_num) self.(current_counterparty_point)
    self.(previous_counterparty_point) self.(current_holder_commit_info)
    self.(current_counterparty_signatures) next self.(current_counterparty_commit_info)
    self.(previous_counterparty_commit_info) self.(channel_closed) self.(initial_holder_value)
    self.(counterparty_secrets) self.(holder_commitment_funding) self.(prev_funding_commitment)
    self.(counterparty_commitment_funding).

Definition with_counterparty (self : EnforcementState) (num : Z)
    (cur_point prev_point : option PublicKey) (cur_info prev_info : option CommitmentInfo2)
  : EnforcementState :=
  mkEnforcementState self.(next_holder_commit_num) num self.(next_counterparty_revoke_num)
    cur_point prev_point self.(current_holder_commit_info) self.(current_counterparty_signatures)
    self.(next_holder_commit_info) cur_info prev_info self.(channel_closed)
    self.(initial_holder_value) self.(counterparty_secrets) self.(holder_commitment_funding)
    self.(prev_funding_commitment) self.(counterparty_commitment_funding).

Definition with_revoke (self : EnforcementState) (num : Z) (prev_info : option CommitmentInfo2)
  : EnforcementState :=
  mkEnforcementState self.(next_holder_commit_num) self.(next_counterparty_commit_num) num
    self.(current_counterparty_point) self.(previous_counterparty_point)
    self.(current_holder_commit_info) self.(current_counterparty_signatures)
    self.(next_holder_commit_info) self.(current_counterparty_commit_info) prev_info
    self.(channel_closed) self.(initial_holder_value) self.(counterparty_secrets)
    self.(holder_commitment_funding) self.(prev_funding_commitment)
    self.(counterparty_commitment_funding).

Definition with_closed (self : EnforcementState) (closed : bool) : EnforcementState :=
  mkEnforcementState self.(next_holder_commit_num) self.(next_counterparty_commit_num)
    self.(next_counterparty_revoke_num) self.(current_counterparty_point)
    self.(previous_counterparty_point) self.(current_holder_commit_info)
    self.(current_counterparty_signatures) self.(next_holder_commit_info)
    self.(current_counterparty_commit_info) self.(previous_counterparty_commit_info) closed
    self.(initial_holder_value) self.(counterparty_secrets) self.(holder_commitment_funding)
    self.(prev_funding_commitment) self.(counterparty_commitment_funding).

Definition with_secrets (self : EnforcementState) (secrets : option CounterpartyCommitmentSecrets)
  : EnforcementState :=
  mkEnforcementState self.(next_holder_commit_num) self.(next_counterparty_commit_num)
    self.(next_counterparty_revoke_num) self.(current_counterparty_point)
    self.(previous_counterparty_point) self.(current_holder_commit_info)
    self.(current_counterparty_signatures) self.(next_holder_commit_info)
    self.(current_counterparty_commit_info) self.(previous_counterparty_commit_info)
    self.(channel_closed) self.(initial_holder_value) secrets self.(holder_commitment_funding)
    self.(prev_funding_commitment) self.(counterparty_commitment_funding).

Definition with_funding_tags (self : EnforcementState) (holder counterparty : option OutPoint)
  : EnforcementState :=
  mkEnforcementState self.(next_holder_commit_num) self.(next_counterparty_commit_num)
    self.(next_counterparty_revoke_num) self.(current_counterparty_point)
    self.(previous_counterparty_point) self.(current_holder_commit_info)
    self.(current_counterparty_signatures) self.(next_holder_commit_info)
    self.(current_counterparty_commit_info) self.(previous_counterparty_commit_info)
    self.(channel_closed) self.(initial_holder_value) self.(counterparty_secrets) holder
    self.(prev_funding_commitment) counterparty.

Definition with_prev_funding (self : EnforcementState) (prev : option PrevFundingCommitment)
  : EnforcementState :=
  mkEnforcementState self.(next_holder_commit_num) self.(next_counterparty_commit_num)
    self.(next_counterparty_revoke_num) self.(current_counterparty_point)
    self.(previous_counterparty_point) self.(current_holder_commit_info)
    self.(current_counterparty_signatures) self.(next_holder_commit_info)
    self.(current_counterparty_commit_info) self.(previous_counterparty_commit_info)
    self.(channel_closed) self.(initial_holder_value) self.(counterparty_secrets)
    self.(holder_commitment_funding) prev self.(counterparty_commitment_funding).

Definition with_current_infos (self : EnforcementState) (holder counterparty : option CommitmentInfo2)
  : EnforcementState :=
  mkEnforcementState self.(next_holder_commit_num) self.(next_counterparty_commit_num)
    self.(next_counterparty_revoke_num) self.(current_counterparty_point)
    self.(previous_counterparty_point) holder self.(current_counterparty_signatures)
    self.(next_holder_commit_info) counterparty self.(previous_counterparty_commit_info)
    self.(channel_closed) self.(initial_holder_value) self.(counterparty_secrets)
    self.(holder_commitment_funding) self.(prev_funding_commitment)
    self.(counterparty_commitment_funding).

(** ** State changes without policy *)
Definition estate_set_next_holder_commit_num `{Profile} {E : Type} (self : EnforcementState)
    (num : Z) (current_commitment_info : CommitmentInfo2)
    (counterparty_signatures : CommitmentSignatures) : res E EnforcementState :=
  let current := self.(next_holder_commit_num) in
  expected ← add_u64 current 1;
  rassert (num =? expected) ;;
  Ok (with_holder self num (Some current_commitment_info) (Some counterparty_signatures)).

Definition estate_set_next_counterparty_commit_num `{Profile} {E : Type} (self : EnforcementState)
    (num : Z) (current_point : PublicKey) (current_commitment_info : CommitmentInfo2)
  : res E EnforcementState :=
  rassert (0 <? num) ;;
  let current := self.(next_counterparty_commit_num) in
  current1 ← add_u64 current 1;
  let '(prev_point, prev_info, cur_info) :=
    if num =? current1 then
      (self.(current_counterparty_point), self.(current_counterparty_commit_info), None)
    else if (current1 <? num) || (num <? current) then
      (None, None, self.(current_counterparty_commit_info))
    else (self.(previous_counterparty_point), self.(previous_counterparty_commit_info),
          self.(current_counterparty_commit_info)) in
  let '(cur_point, cur_info) :=
    if current1 <=? num then (Some current_point, Some current_commitment_info)
    else (self.(current_counterparty_point), cur_info) in
  Ok (with_counterparty self num cur_point prev_point cur_info prev_info).

Definition get_previous_counterparty_point `{Profile} {E : Type} (self : EnforcementState) (num : Z)
  : res E (option PublicKey) :=
  num1 ← add_u64 num 1;
  if num1 =? self.(next_counterparty_commit_num) then Ok self.(current_counterparty_point) else
  num2 ← add_u64 num 2;
  if num2 =? self.(next_counterparty_commit_num) then Ok self.(previous_counterparty_point) else
  Ok None.

Definition get_previous_counterparty_commit_info `{Profile} {E : Type} (self : EnforcementState) (num : Z)
  : res E (option CommitmentInfo2) :=
  num1 ← add_u64 num 1;
  if num1 =? self.(next_counterparty_commit_num) then Ok self.(current_counterparty_commit_info) else
  num2 ← add_u64 num 2;
  if num2 =? self.(next_counterparty_commit_num) then Ok self.(previous_counterparty_commit_info) else
  Ok None.

Definition estate_set_next_counterparty_revoke_num `{Profile} {E : Type} (self : EnforcementState)
    (num : Z) : res E EnforcementState :=
  rassert (negb (num =? 0)) ;;
  num1 ← add_u64 num 1;
  Ok (with_revoke self num
        (if self.(next_counterparty_commit_num) <=? num1 then None
         else self.(previous_counterparty_commit_info))).

Definition snapshot_funding_for_splice (self : EnforcementState) (op : OutPoint)
    (retiring_push_value_msat : Z) : EnforcementState :=
  mkEnforcementState self.(next_holder_commit_num) self.(next_counterparty_commit_num)
    self.(next_counterparty_revoke_num) self.(current_counterparty_point)
    self.(previous_counterparty_point) None None None None
    self.(previous_counterparty_commit_info) self.(channel_closed) self.(initial_holder_value)
    self.(counterparty_secrets) self.(holder_commitment_funding)
    (Some (mkPrevFundingCommitment op self.(current_holder_commit_info)
             self.(current_counterparty_signatures) self.(next_holder_commit_info)
             self.(current_counterparty_commit_info) retiring_push_value_msat))
    self.(counterparty_commitment_funding).

Definition retire_prev_funding (self : EnforcementState) : EnforcementState :=
  mkEnforcementState self.(next_holder_commit_num) self.(next_counterparty_commit_num)
    self.(next_counterparty_revoke_num) self.(current_counterparty_point)
    self.(previous_counterparty_point) self.(current_holder_commit_info)
    self.(current_counterparty_signatures) self.(next_holder_commit_info)
    self.(current_counterparty_commit_info) self.(previous_counterparty_commit_info)
    self.(channel_closed) self.(initial_holder_value) self.(counterparty_secrets)
    self.(holder_commitment_funding) None self.(counterparty_commitment_funding).

(** ** Payment summaries *)
Abbreviation PaymentMap := (gmap Z Z) (only parsing).

Definition summarize_payments `{Profile} {E : Type} (htlcs : list HTLCInfo2) : res E PaymentMap :=
  fold_res (fun (summary : PaymentMap) h =>
    match summary !! h.(payment_hash) with
    | Some e => e' ← add_u64 e h.(value_sat); Ok (<[h.(payment_hash) := e']> summary)
    | None => Ok (<[h.(payment_hash) := h.(value_sat)]> summary)
    end) ∅ htlcs.

(** [entry(h.payment_hash).or_insert(0)] for each HTLC. *)
Definition or_insert_zero (summary : PaymentMap) (htlcs : list HTLCInfo2) : PaymentMap :=
  foldl (fun (m : PaymentMap) h =>
    match m !! h.(payment_hash) with
    | Some _ => m
    | None => <[h.(payment_hash) := 0]> m
    end) summary htlcs.

Definition summary_of `{Profile} {E : Type} (htlcs : option (list HTLCInfo2)) : res E PaymentMap :=
  match htlcs with Some l => summarize_payments l | None => Ok ∅ end.

(** [Option::or]. *)
Definition opt_or {A : Type} (o o' : option A) : option A :=
  match o with Some _ => o | None => o' end.

Definition payments_summary `{Profile} {E : Type} (self : EnforcementState)
    (new_holder_tx new_counterparty_tx : option CommitmentInfo2) : res E PaymentMap :=
  let holder_offered := offered_htlcs <$> opt_or new_holder_tx self.(current_holder_commit_info) in
  let counterparty_received :=
    received_htlcs <$> opt_or new_counterparty_tx self.(current_counterparty_commit_info) in
  holder_summary ← summary_of holder_offered;
  counterparty_summary ← summary_of counterparty_received;
  let summary := union_with (fun a b => Some (Z.max a b)) holder_summary counterparty_summary in
  let summary := or_insert_zero summary (from_option offered_htlcs [] self.(current_holder_commit_info)) in
  Ok (or_insert_zero summary (from_option received_htlcs [] self.(current_counterparty_commit_info))).

Definition incoming_payments_summary `{Profile} {E : Type} (self : EnforcementState)
    (new_holder_tx new_counterparty_tx : option CommitmentInfo2) : res E PaymentMap :=
  let holder_received := received_htlcs <$> opt_or new_holder_tx self.(current_holder_commit_info) in
  let counterparty_offered :=
    offered_htlcs <$> opt_or new_counterparty_tx self.(current_counterparty_commit_info) in
  holder_summary ← summary_of holder_received;
  counterparty_summary ← summary_of counterparty_offered;
  let summary := intersection_with (fun a b => Some (Z.min a b)) holder_summary counterparty_summary in
  let summary := or_insert_zero summary (from_option received_htlcs [] self.(current_holder_commit_info)) in
  Ok (or_insert_zero summary (from_option offered_htlcs [] self.(current_counterparty_commit_info))).

(** ** Balances *)
Record BalanceDelta := mkBalanceDelta { balance_before : Z; balance_after : Z }.

Definition min_opt (a_opt b_opt : option Z) : option Z :=
  match a_opt, b_opt with
  | Some a, Some b => Some (Z.min a b)
  | Some _, None => a_opt
  | None, _ => b_opt
  end.

(** [tx_opt.and_then(|tx| tx.claimable_balance(..))]. *)
Definition opt_claimable `{Profile} {E T : Type} `{PreimageMap T} (tx_opt : option CommitmentInfo2)
    (preimage_map : T) (outbound : bool) (value : Z) : res E (option Z) :=
  match tx_opt with
  | Some tx => claimable_balance tx preimage_map outbound value
  | None => Ok None
  end.

(** The balance of an explicit new transaction, where an overflow is an error,
    or else of the stored one. *)
Definition new_balance `{Profile} {T : Type} `{PreimageMap T} (new_tx fallback : option CommitmentInfo2)
    (preimage_map : T) (outbound : bool) (value : Z) : res Status (option Z) :=
  match new_tx with
  | Some tx =>
      bal ← claimable_balance tx preimage_map outbound value;
      match bal with None => Err invalid_argument | Some b => Ok (Some b) end
  | None => opt_claimable fallback preimage_map outbound value
  end.

Definition claimable_balances `{Profile} {T : Type} `{PreimageMap T} (self : EnforcementState)
    (preimage_map : T) (new_holder_tx new_counterparty_tx : option CommitmentInfo2)
    (channel_setup : ChannelSetup) (prev_setup : option ChannelSetup) : res Status BalanceDelta :=
  rassert (bool_decide (is_Some new_holder_tx) || bool_decide (is_Some new_counterparty_tx)) ;;
  rassert (bool_decide (new_holder_tx = None) || bool_decide (new_counterparty_tx = None)) ;;
  let view := channel_setup.(funding_outpoint) in
  let value := channel_setup.(channel_value_sat) in
  let outbound := channel_setup.(is_outbound) in
  let straggler_funding :=
    match prev_setup with Some p => bool_decide (p.(funding_outpoint) = view) | None => false end in
  let prev_value_sat := channel_value_sat <$> prev_setup in
  let '(cur_holder, cur_counterparty) :=
    match straggler_funding, self.(prev_funding_commitment) with
    | true, Some s => (s.(current_holder_info), s.(current_counterparty_info))
    | _, _ => (self.(current_holder_commit_info), self.(current_counterparty_commit_info))
    end in
  let era_value tag := if is_some_and_eq tag view then value else default value prev_value_sat in
  cur_holder_bal ← opt_claimable cur_holder preimage_map outbound
    (if straggler_funding then value else era_value self.(holder_commitment_funding));
  cur_cp_bal ← opt_claimable cur_counterparty preimage_map outbound
    (if straggler_funding then value else era_value self.(counterparty_commitment_funding));
  let cur_bal_opt := min_opt cur_holder_bal cur_cp_bal in
  new_holder_bal ← new_balance new_holder_tx (holder_commit_info_for self view) preimage_map outbound value;
  new_cp_bal ← new_balance new_counterparty_tx (counterparty_commit_info_for self view) preimage_map outbound value;
  new_bal ← unwrap (min_opt new_holder_bal new_cp_bal);
  Ok (mkBalanceDelta (default self.(initial_holder_value) cur_bal_opt) new_bal).

(** [EnforcementState::balance]. *)
Definition estate_balance `{Profile} {E T : Type} `{PreimageMap T} (self : EnforcementState)
    (preimage_map : T) (channel_setup : ChannelSetup) (is_ready : bool) : res E ChannelBalance :=
  match self.(current_holder_commit_info), self.(current_counterparty_commit_info) with
  | Some holder_info, Some counterparty_info =>
      let claim info := claimable_balance info preimage_map channel_setup.(is_outbound)
                          channel_setup.(channel_value_sat) in
      cur_holder_bal ← claim holder_info;
      cur_cp_bal ← claim counterparty_info;
      let cur_holder_bal := default 0 cur_holder_bal in
      let cur_cp_bal := default 0 cur_cp_bal in
      let '(cur_bal, info) := if cur_holder_bal <? cur_cp_bal then (cur_holder_bal, holder_info)
                              else (cur_cp_bal, counterparty_info) in
      '(received_htlc, offered_htlc, received_count, offered_count) ← htlc_balance info;
      let '(claimable, sweeping) := if self.(channel_closed) then (0, cur_bal) else (cur_bal, 0) in
      let '(unconfirmed, channels, closing) :=
        if self.(channel_closed) then (0, 0, 1) else if is_ready then (0, 1, 0) else (1, 0, 0) in
      Ok (mkChannelBalance claimable received_htlc offered_htlc sweeping 0 unconfirmed channels closing
            received_count offered_count)
  | _, _ => Ok ChannelBalance_zero
  end.

(** ** Policy-checked changes: default methods of the trait [Validator] *)
Section Setters.
Context `{Profile} {P : Type} `{Policy P} (policy : P).

Definition set_next_holder_commit_num (estate : EnforcementState) (num : Z)
    (current_commitment_info : CommitmentInfo2) (counterparty_signatures : CommitmentSignatures)
  : res ValidationError EnforcementState :=
  let current := estate.(next_holder_commit_num) in
  bad ← (if num =? current then Ok false else current1 ← add_u64 current 1; Ok (negb (num =? current1)));
  when bad (Policy_policy_error policy "policy-revoke-new-commitment-signed") ;;
  estate_set_next_holder_commit_num estate num current_commitment_info counterparty_signatures.

Definition get_current_holder_commitment_info (estate : EnforcementState) (commitment_number : Z)
  : res ValidationError CommitmentInfo2 :=
  next ← add_u64 commitment_number 1;
  when (negb (next =? estate.(next_holder_commit_num))) (Policy_policy_error policy "policy-other") ;;
  unwrap estate.(current_holder_commit_info).

Definition set_next_counterparty_commit_num (estate : EnforcementState) (num : Z)
    (current_point : PublicKey) (current_commitment_info : CommitmentInfo2) (funding_changed : bool)
  : res ValidationError EnforcementState :=
  when (num =? 0) (Policy_policy_error policy "policy-other") ;;
  let delta := if (num =? 1) || funding_changed then 1 else 2 in
  floor ← add_u64 estate.(next_counterparty_revoke_num) delta;
  when (num <? floor) (Policy_policy_error policy "policy-commitment-previous-revoked") ;;
  let current := estate.(next_counterparty_commit_num) in
  bad ← (if num =? current then Ok false else current1 ← add_u64 current 1; Ok (negb (num =? current1)));
  when bad (Policy_policy_error policy "policy-commitment-previous-revoked") ;;
  estate_set_next_counterparty_commit_num estate num current_point current_commitment_info.

Definition set_next_counterparty_revoke_num (estate : EnforcementState) (num : Z)
  : res ValidationError EnforcementState :=
  when (num =? 0) (Policy_policy_error policy "policy-other") ;;
  num2 ← add_u64 num 2;
  when (num2 <? estate.(next_counterparty_commit_num))
    (Policy_policy_error policy "policy-commitment-previous-revoked") ;;
  num1 ← add_u64 num 1;
  when (estate.(next_counterparty_commit_num) <? num1)
    (Policy_policy_error policy "policy-commitment-previous-revoked") ;;
  let current := estate.(next_counterparty_revoke_num) in
  bad ← (if num =? current then Ok false else current1 ← add_u64 current 1; Ok (negb (num =? current1)));
  when bad (Policy_policy_error policy "policy-commitment-previous-revoked") ;;
  estate_set_next_counterparty_revoke_num estate num.

(** A [Duration] is a number of nanoseconds; [+] on durations panics beyond
    [u64::MAX] seconds in both profiles. *)
Definition NANOS : Z := 1000000000.

Definition dur_add {E : Type} (a b : Z) : res E Z :=
  if a + b <? 2 ^ 64 * NANOS then Ok (a + b) else Panic.

Definition tolerances (timeless_workaround : bool) : Z * Z :=
  if timeless_workaround then (INVOICE_BEHIND_TOLERANCE * NANOS, INVOICE_AHEAD_TOLERANCE * NANOS)
  else (0, 0).

(** The two comparisons that both invoice checks make, with the tag to raise. *)
Definition validate_invoice_time (tag : string) (timeless_workaround : bool) (created expiry now : Z)
  : res ValidationError unit :=
  let '(behind_tolerance, ahead_tolerance) := tolerances timeless_workaround in
  latest ← dur_add now (MAX_CLOCK_SKEW * NANOS);
  latest ← dur_add latest behind_tolerance;
  when (latest <? created) (Policy_policy_error policy tag) ;;
  soonest ← dur_add now (MIN_INVOICE_EXPIRY * NANOS);
  expires ← dur_add created expiry;
  expires ← dur_add expires (MAX_CLOCK_SKEW * NANOS);
  expires ← dur_add expires ahead_tolerance;
  when (expires <? soonest) (Policy_policy_error policy tag).

Definition validate_invoice (timeless_workaround : bool) (duration_since_epoch expiry_duration now : Z)
  : res ValidationError unit :=
  validate_invoice_time "policy-invoice-not-expired" timeless_workaround duration_since_epoch
    expiry_duration now.

Definition validate_bolt12_invoice_unsigned (timeless_workaround : bool)
    (signing_pubkey bolt12_pubkey : PublicKey) (created_at relative_expiry now : Z)
  : res ValidationError unit :=
  when (negb (signing_pubkey =? bolt12_pubkey)) (Policy_policy_error policy "policy-bolt12-signing-pubkey") ;;
  validate_invoice_time "policy-bolt12-invoice-validity" timeless_workaround created_at
    relative_expiry now.

(** [validate_block]: [verified] is the result of verifying the TXOO proof,
    which another package does; [attestations] are the keys of the proof. *)
Definition validate_block (verified : bool) (attestations trusted_oracle_pubkeys : list PublicKey)
  : res ValidationError unit :=
  when (negb verified) (Policy_policy_error policy "policy-chain-validated") ;;
  let required_majority := ((length trusted_oracle_pubkeys + 1) / 2)%nat in
  let key_matches := length (filter (fun k => k ∈ attestations) trusted_oracle_pubkeys) in
  when (key_matches <? required_majority)%nat (Policy_policy_error policy "policy-chain-validated").
End Setters.
