(* ===== verification/SimpleValidator.v ===== *)
(** * The simple validator, commitments and payments

    [SimplePolicy] and the methods of [SimpleValidator]
    ([vls-core/src/policy/simple_validator.rs]) that validate commitment
    transactions, revocations, payments and channel parameters, with the weight
    and fee arithmetic of [util/transaction_utils.rs]. *)
From S2P Require Import Prelude Velocity Policy Ordered CommitInfo Types Secrets Enforcement.

(** ** Policy *)
Record PolicyDevFlags := mkPolicyDevFlags { disable_beneficial_balance_checks : bool }.

Definition DEFAULT_DEV_FLAGS : PolicyDevFlags := mkPolicyDevFlags false.

Record SimplePolicy := mkSimplePolicy {
  min_delay : Z;
  max_delay : Z;
  max_channel_size_sat : Z;
  epsilon_sat : Z;
  max_htlcs : Z;
  max_htlc_value_sat : Z;
  use_chain_state : bool;
  min_feerate_per_kw : Z;
  max_feerate_per_kw : Z;
  enforce_balance : bool;
  max_routing_fee_msat : Z;
  max_feerate_percentage : Z;
  cltv_delta : Z;
  dev_flags : option PolicyDevFlags;
  policy_filter : PolicyFilter;
  global_velocity_control : VelocityControlSpec;
  max_channels : Z;
  max_invoices : Z;
  fee_velocity_control : VelocityControlSpec
}.

(** [impl Policy for SimplePolicy]. *)
#[export] Instance SimplePolicy_policy : Policy SimplePolicy := {|
  Policy_policy_error p tag := policy_error_with_filter tag p.(policy_filter);
  Policy_temporary_policy_error p tag := temporary_policy_error_with_filter tag p.(policy_filter);
  Policy_global_velocity_control := global_velocity_control;
  Policy_max_channels := max_channels;
  Policy_max_invoices := max_invoices;
  Policy_fee_velocity_control := fee_velocity_control
|}.

Inductive Network := Bitcoin | Testnet | Signet | Regtest.

Definition make_default_simple_policy (network : Network) : SimplePolicy :=
  match network with
  | Bitcoin =>
      mkSimplePolicy 144 2016 1000000001 10000 1000 16777216 false 253 25000 false 10000 10 34 None
        PolicyFilter_default UNLIMITED MAX_CHANNELS MAX_INVOICES DEFAULT_FEE_VELOCITY_CONTROL
  | _ =>
      mkSimplePolicy 4 2016 1000000001 10000 1000 16777216 false 253 333333 false 222000 10 6 None
        PolicyFilter_default UNLIMITED MAX_CHANNELS MAX_INVOICES DEFAULT_FEE_VELOCITY_CONTROL
  end.

(** ** Weights and fees: [util/transaction_utils.rs] *)
Definition MAX_VALUE_MSAT : Z := 2100000000000000000.
Definition MIN_DUST_LIMIT_SATOSHIS : Z := 330.
Definition MIN_CHAN_DUST_LIMIT_SATOSHIS : Z := 354.

(** [usize] is 64 bits. *)
Definition expected_commitment_tx_weight `{Profile} {E : Type} (opt_anchors : bool)
    (num_untrimmed_htlc : Z) : res E Z :=
  let base_weight := if opt_anchors then 1124 else 724 in
  per_htlc ← mul_u64 num_untrimmed_htlc 172;
  add_u64 base_weight per_htlc.

(** The conversion to [u32] drops the high bits. *)
Definition estimate_feerate_per_kw `{Profile} {E : Type} (total_fee weight : Z) : res E Z :=
  scaled ← mul_u64 total_fee 1000;
  scaled ← add_u64 scaled 999;
  rate ← udiv scaled weight;
  Ok (rate mod 2 ^ 32).

(** Channel type features of the lightning package, as [features] sets them. *)
Record ChannelTypeFeatures := mkChannelTypeFeatures {
  static_remote_key : bool;
  anchors_zero_fee_htlc_tx : bool;
  anchors_nonzero_fee_htlc_tx : bool
}.

Definition features (setup : ChannelSetup) : ChannelTypeFeatures :=
  if is_anchors setup then
    if is_zero_fee_htlc setup then mkChannelTypeFeatures true true false
    else mkChannelTypeFeatures true false true
  else mkChannelTypeFeatures true false false.

(** ** The validator *)
Section Validator.
Context `{Profile}.
(** Weights of the second-level transactions, from the lightning package. *)
Context (htlc_timeout_tx_weight htlc_success_tx_weight : ChannelTypeFeatures -> Z).
(** The public key of a secret key, from the secp256k1 package. *)
Context (from_secret_key : SecretKey -> PublicKey).
Context (policy : SimplePolicy).

Definition policy_err (tag : string) : res ValidationError unit :=
  Policy_policy_error policy tag.

Definition validate_delay (name : string) (delay : Z) : res ValidationError unit :=
  let tag := String.append "policy-channel-contest-delay-range-" name in
  when (delay <? policy.(min_delay)) (policy_err tag) ;;
  when (policy.(max_delay) <? delay) (policy_err tag).

Definition validate_expiry (expiry current_height : Z) : res ValidationError unit :=
  when (MAX_CLTV_EXPIRY <=? expiry) (policy_err "policy-commitment-htlc-cltv-range") ;;
  if policy.(use_chain_state) then
    lo ← add_u32 current_height policy.(min_delay);
    when (expiry <? lo) (policy_err "policy-commitment-htlc-cltv-range") ;;
    hi ← add_u32 current_height policy.(max_delay);
    when (hi <? expiry) (policy_err "policy-commitment-htlc-cltv-range")
  else Ok tt.

Definition validate_fee (tag : string) (sum_inputs sum_outputs weight : Z) : res ValidationError unit :=
  fee ← ok_or (policy_error tag) (checked_sub 64 sum_inputs sum_outputs);
  feerate_perkw ← estimate_feerate_per_kw fee weight;
  when (feerate_perkw <? policy.(min_feerate_per_kw)) (policy_err tag) ;;
  when (policy.(max_feerate_per_kw) <? feerate_perkw) (policy_err tag).

Definition validate_beneficial_value (sum_our_inputs sum_our_outputs weight : Z)
  : res ValidationError Z :=
  non_beneficial ← ok_or (policy_error "policy-onchain-format-standard")
                     (checked_sub 64 sum_our_inputs sum_our_outputs);
  feerate_perkw ← estimate_feerate_per_kw non_beneficial weight;
  when (policy.(max_feerate_per_kw) <? feerate_perkw)
    (if (default DEFAULT_DEV_FLAGS policy.(dev_flags)).(disable_beneficial_balance_checks) then Ok tt
     else policy_err "policy-onchain-fee-range") ;;
  Ok non_beneficial.

(** The first component of [outside_epsilon_range]; the second is a word for the message. *)
Definition outside_epsilon_range (value0 value1 : Z) : bool :=
  if value1 <? value0 then policy.(epsilon_sat) <? value0 - value1
  else policy.(epsilon_sat) <? value1 - value0.

Definition validate_channel_value (setup : ChannelSetup) : res ValidationError unit :=
  when (policy.(max_channel_size_sat) <? setup.(channel_value_sat)) (policy_err "policy-funding-max").

(** What the fundee carries over from the funding that a splice retires. *)
Definition carried_fundee (estate : EnforcementState) (setup : ChannelSetup) : Z :=
  match estate.(prev_funding_commitment) with
  | Some prev =>
      if bool_decide (prev.(outpoint) <> setup.(funding_outpoint)) then
        match prev.(current_counterparty_info), prev.(current_holder_info) with
        | Some cp_info, _ => cp_info.(to_broadcaster_value_sat)
        | None, Some holder_info => holder_info.(to_countersigner_value_sat)
        | None, None => prev.(retiring_push_value_msat) / 1000
        end
      else 0
  | None => 0
  end.

(** [if setup.is_zero_fee_htlc() { .. } else { .. }]. *)
Definition htlc_dust_limit (setup : ChannelSetup) (feerate weight : Z) : res ValidationError Z :=
  if is_zero_fee_htlc setup then Ok MIN_CHAN_DUST_LIMIT_SATOSHIS
  else fee ← mul_u64 feerate weight; add_u64 MIN_DUST_LIMIT_SATOSHIS (fee / 1000).

(** The loop over the offered or the received HTLCs, summing their values. *)
Definition validate_htlcs (dust_limit current_height sum : Z) (htlcs : list HTLCInfo2)
  : res ValidationError Z :=
  fold_res (fun htlc_value_sat htlc =>
    validate_expiry htlc.(cltv_expiry) current_height ;;
    htlc_value_sat ← ok_or (policy_error "policy-commitment-payment-velocity")
                       (checked_add 64 htlc_value_sat htlc.(value_sat));
    when (htlc.(value_sat) <? dust_limit) (policy_err "policy-commitment-outputs-trimmed") ;;
    Ok htlc_value_sat) sum htlcs.

Definition validate_commitment_tx (estate : EnforcementState) (commit_num : Z)
    (commitment_point : PublicKey) (setup : ChannelSetup) (cstate : ChainState)
    (info : CommitmentInfo2) : res ValidationError unit :=
  when ((0 <? info.(to_broadcaster_value_sat))
        && (info.(to_broadcaster_value_sat) <? MIN_CHAN_DUST_LIMIT_SATOSHIS))
    (policy_err "policy-commitment-outputs-trimmed") ;;
  when ((0 <? info.(to_countersigner_value_sat))
        && (info.(to_countersigner_value_sat) <? MIN_CHAN_DUST_LIMIT_SATOSHIS))
    (policy_err "policy-commitment-outputs-trimmed") ;;
  let num_htlcs := Z.of_nat (length info.(offered_htlcs) + length info.(received_htlcs)) in
  when (policy.(max_htlcs) <? num_htlcs) (policy_err "policy-commitment-htlc-count-limit") ;;
  offered_htlc_dust_limit ← htlc_dust_limit setup info.(feerate_per_kw)
                              (htlc_timeout_tx_weight (features setup));
  htlc_value_sat ← validate_htlcs offered_htlc_dust_limit cstate.(current_height) 0 info.(offered_htlcs);
  received_htlc_dust_limit ← htlc_dust_limit setup info.(feerate_per_kw)
                               (htlc_success_tx_weight (features setup));
  htlc_value_sat ← validate_htlcs received_htlc_dust_limit cstate.(current_height) htlc_value_sat
                     info.(received_htlcs);
  when (policy.(max_htlc_value_sat) <? htlc_value_sat)
    (policy_err "policy-commitment-htlc-inflight-limit") ;;
  expected_weight ← expected_commitment_tx_weight (is_anchors setup) num_htlcs;
  sum_outputs ← ok_or (policy_error "policy-commitment-payment-velocity")
                  (checked_add 64 info.(to_broadcaster_value_sat) info.(to_countersigner_value_sat));
  sum_outputs ← ok_or (policy_error "policy-commitment-payment-velocity")
                  (checked_add 64 sum_outputs htlc_value_sat);
  validate_fee "policy-commitment-fee-range" setup.(channel_value_sat) sum_outputs expected_weight ;;
  if commit_num =? 0 then
    when (0 <? num_htlcs) (policy_err "policy-commitment-first-no-htlcs") ;;
    if setup.(is_outbound) then
      entitled ← add_u64 (setup.(push_value_msat) / 1000) (carried_fundee estate setup);
      when (entitled <? (value_to_parties info).2) (policy_err "policy-commitment-initial-funding-value")
    else Ok tt
  else Ok tt.

Definition validate_counterparty_commitment_tx (estate : EnforcementState) (commit_num : Z)
    (commitment_point : PublicKey) (setup : ChannelSetup) (cstate : ChainState)
    (info2 : CommitmentInfo2) : res ValidationError unit :=
  validate_commitment_tx estate commit_num commitment_point setup cstate info2 ;;
  ceiling ← add_u64 estate.(next_counterparty_revoke_num) 1;
  when (ceiling <? commit_num) (policy_err "policy-commitment-previous-revoked") ;;
  commit_num1 ← add_u64 commit_num 1;
  if (commit_num1 =? estate.(next_counterparty_commit_num))
     && bool_decide (estate.(counterparty_commitment_funding) = Some setup.(funding_outpoint)) then
    match estate.(current_counterparty_point) with
    | None => policy_err "policy-commitment-retry-same"
    | Some prev => when (negb (commitment_point =? prev)) (policy_err "policy-commitment-retry-same")
    end ;;
    prev_info ← get_previous_counterparty_commit_info estate commit_num;
    let prev_commit_info :=
      if bool_decide (is_Some prev_info) then prev_info
      else counterparty_commit_info_for estate setup.(funding_outpoint) in
    when (bool_decide (Some info2 <> prev_commit_info)) (policy_err "policy-commitment-retry-same")
  else Ok tt.

Definition validate_holder_commitment_tx (estate : EnforcementState) (commit_num : Z)
    (commitment_point : PublicKey) (setup : ChannelSetup) (cstate : ChainState)
    (info2 : CommitmentInfo2) : res ValidationError unit :=
  validate_commitment_tx estate commit_num commitment_point setup cstate info2 ;;
  commit_num1 ← add_u64 commit_num 1;
  let rest :=
    commit_num2 ← add_u64 commit_num 2;
    when (commit_num2 <=? estate.(next_holder_commit_num))
      (policy_err "policy-commitment-holder-not-revoked") ;;
    when ((commit_num =? estate.(next_holder_commit_num)) && estate.(channel_closed))
      (policy_err "policy-commitment-spends-active-utxo") in
  if (commit_num1 =? estate.(next_holder_commit_num))
     && bool_decide (estate.(holder_commitment_funding) = Some setup.(funding_outpoint)) then
    match holder_commit_info_for estate setup.(funding_outpoint) with
    | None => Ok tt
    | Some holder_commit_info =>
        when (bool_decide (info2 <> holder_commit_info)) (policy_err "policy-commitment-retry-same") ;;
        rest
    end
  else rest.

Definition validate_counterparty_revocation (state : EnforcementState) (revoke_num : Z)
    (commitment_secret : SecretKey) : res ValidationError unit :=
  bad ← (if revoke_num =? state.(next_counterparty_revoke_num) then Ok false
         else revoke_num1 ← add_u64 revoke_num 1;
              Ok (negb (revoke_num1 =? state.(next_counterparty_revoke_num))));
  when bad (policy_err "policy-commitment-previous-revoked") ;;
  prev_commit_point ← get_previous_counterparty_point state revoke_num;
  match prev_commit_point with
  | None => policy_err "policy-commitment-previous-revoked"
  | Some prev =>
      when (negb (from_secret_key commitment_secret =? prev))
        (policy_err "policy-commitment-previous-revoked")
  end.

Definition validate_payment_balance (incoming_msat outgoing_msat : Z)
    (invoiced_amount_msat : option Z) : res ValidationError unit :=
  max_to_invoice_msat ← match invoiced_amount_msat with
                        | Some a => add_u64 a policy.(max_routing_fee_msat)
                        | None => Ok 0
                        end;
  allowed ← add_u64 incoming_msat max_to_invoice_msat;
  when (allowed <? outgoing_msat) (policy_err "policy-routing-balanced") ;;
  match invoiced_amount_msat with
  | Some invoiced =>
      due ← add_u64 invoiced incoming_msat;
      if outgoing_msat <? due then Ok tt else
      fee ← sub_u64 outgoing_msat invoiced;
      fee ← sub_u64 fee incoming_msat;
      fee100 ← ok_or (policy_error "policy-commitment-payment-velocity") (checked_mul 64 fee 100);
      let actual_fee_percentage := fee100 / Z.max invoiced 1 in
      when (policy.(max_feerate_percentage) <? actual_fee_percentage) (policy_err "policy-htlc-fee-range")
  | None => Ok tt
  end.

Definition validate_payment_cltv (incoming_cltv outgoing_cltv : Z) : res ValidationError unit :=
  when (incoming_cltv <=? outgoing_cltv) (policy_err "policy-routing-cltv-delta") ;;
  delta ← sub_u32 incoming_cltv outgoing_cltv;
  when (delta <? policy.(cltv_delta)) (policy_err "policy-routing-cltv-delta").

Definition minimum_initial_balance (holder_value_msat : Z) : Z := holder_value_msat / 1000.

Definition SimpleValidator_is_ready (cstate : ChainState) : bool :=
  (0 <? cstate.(funding_depth)) && (cstate.(closing_depth) =? 0).
End Validator.

(** ** Reading a successful validation *)

(** Every violation is an error. *)
Definition strict_policy (policy : SimplePolicy) : Prop :=
  forall tag, strict policy.(policy_filter) tag.

Lemma default_policy_strict (network : Network) : strict_policy (make_default_simple_policy network).
Proof. intros tag. by destruct network. Qed.
#[export] Hint Resolve default_policy_strict : signer.

Lemma when_err_Ok (policy : SimplePolicy) (c : bool) (tag : string) (u : unit) :
  strict_policy policy -> when c (policy_err policy tag) = Ok u -> c = false.
Proof. intros Hs H. eapply when_policy_Ok; [exact H|apply Hs]. Qed.

Lemma err_not_Ok (policy : SimplePolicy) (tag : string) (u : unit) :
  strict_policy policy -> policy_err policy tag <> Ok u.
Proof.
  intros Hs H. apply (when_err_Ok policy true tag u Hs) in H. discriminate.
Qed.

(** Turn every guarded violation that passed into its negated guard. *)
Ltac pol_step :=
  match goal with
  | Hs : strict_policy ?p, H : when _ (policy_err ?p _) = Ok _ |- _ =>
      apply (when_err_Ok p _ _ _ Hs) in H
  | Hs : strict_policy ?p, H : policy_err ?p _ = Ok _ |- _ =>
      exfalso; exact (err_not_Ok p _ _ Hs H)
  | H : (_ <? _) = false |- _ => apply Z.ltb_ge in H
  | H : (_ <=? _) = false |- _ => apply Z.leb_gt in H
  | H : negb _ = false |- _ => apply negb_false_iff in H
  | H : (_ =? _) = true |- _ => apply Z.eqb_eq in H
  end.
Ltac pol_inv := repeat (res_inv_step || pol_step).

Section Reading.
Context `{Profile}.
Context (htlc_timeout_tx_weight htlc_success_tx_weight : ChannelTypeFeatures -> Z).
Context (policy : SimplePolicy) (Hstrict : strict_policy policy).

Lemma validate_expiry_Ok (expiry height : Z) (u : unit) :
  u32 height -> 0 <= policy.(min_delay) -> 0 <= policy.(max_delay) ->
  height + policy.(min_delay) < 2 ^ 32 -> height + policy.(max_delay) < 2 ^ 32 ->
  validate_expiry policy expiry height = Ok u ->
  expiry < MAX_CLTV_EXPIRY /\
  (policy.(use_chain_state) = true ->
   height + policy.(min_delay) <= expiry <= height + policy.(max_delay)).
Proof.
  intros Hh Hm HM Hb1 Hb2 Hv. unfold validate_expiry in Hv. unfold uint in Hh. pol_inv.
  split; [lia|]. intros Hu. rewrite Hu in Hv. unfold add_u32 in Hv.
  rewrite !arith_Ok in Hv by (unfold uint; lia). pol_inv. lia.
Qed.

(** The fee rate, when the quotient fits 32 bits. *)
Definition exact_feerate (fee weight : Z) : Z := (fee * 1000 + 999) / weight.

Lemma estimate_feerate_Ok {E : Type} (fee weight : Z) :
  0 <= fee -> 0 < weight -> fee * 1000 + 999 < 2 ^ 32 * weight -> fee * 1000 + 999 < 2 ^ 64 ->
  estimate_feerate_per_kw (E:=E) fee weight = Ok (exact_feerate fee weight).
Proof.
  intros Hf Hw Hb H64. unfold estimate_feerate_per_kw, exact_feerate.
  res_step mul_u64_Ok by (unfold uint; lia). res_step add_u64_Ok by (unfold uint; lia).
  unfold udiv. destruct (Z.eqb_spec weight 0); [lia|]. cbn. rewrite Z.mod_small; [done|].
  split; [apply Z.div_pos; lia|]. apply Z.div_lt_upper_bound; lia.
Qed.

Lemma validate_fee_Ok (tag : string) (ins outs weight : Z) (u : unit) :
  0 <= outs -> 0 < weight -> ins * 1000 + 999 < 2 ^ 32 * weight -> ins * 1000 + 999 < 2 ^ 64 ->
  validate_fee policy tag ins outs weight = Ok u ->
  outs <= ins /\
  policy.(min_feerate_per_kw) <= exact_feerate (ins - outs) weight <= policy.(max_feerate_per_kw).
Proof.
  intros Ho Hw Hb H64 Hv. unfold validate_fee in Hv. pol_inv. unfold checked_sub in *.
  apply checked_Some in E as [-> Hr]. unfold uint in Hr.
  rewrite (estimate_feerate_Ok (ins - outs)) in E0 by lia. pol_inv. subst. lia.
Qed.

(** The HTLC loop sums the values and checks each HTLC. *)
Lemma validate_htlcs_Ok (dust height : Z) (htlcs : list HTLCInfo2) :
  forall sum sum', validate_htlcs policy dust height sum htlcs = Ok sum' ->
  sum' = sum + values htlcs /\
  Forall (fun h => dust <= h.(value_sat) /\ validate_expiry policy h.(cltv_expiry) height = Ok tt) htlcs.
Proof.
  unfold validate_htlcs. induction htlcs as [|h htlcs IH]; intros sum sum' Hv; cbn [fold_res] in Hv.
  - pol_inv. subst. unfold values. cbn. rewrite zsum_nil. split; [lia|constructor].
  - apply bind_Ok in Hv as (s1 & Hh & Hv). apply IH in Hv as [-> Hall].
    pol_inv. unfold checked_add in *. apply checked_Some in E0 as [-> Hr]. subst.
    rewrite values_cons. split; [lia|]. constructor; [|done]. split; [lia|by destruct v].
Qed.
End Reading.

(** Sane widths of a policy and of the chain height. *)
Record policy_wf (policy : SimplePolicy) (height : Z) : Prop := {
  pwf_height : u32 height;
  pwf_min_delay : u16 policy.(min_delay);
  pwf_max_delay : u16 policy.(max_delay);
  pwf_sum : height + 2 ^ 16 < 2 ^ 32;
  pwf_htlcs : 0 <= policy.(max_htlcs) < 2 ^ 32
}.

(** What the policy promises of an accepted commitment. *)
Record commitment_ok (policy : SimplePolicy) (estate : EnforcementState) (commit_num : Z)
    (setup : ChannelSetup) (height : Z) (info : CommitmentInfo2) : Prop := mkCommitmentOk {
  ok_broadcaster_dust : info.(to_broadcaster_value_sat) = 0
                        \/ MIN_CHAN_DUST_LIMIT_SATOSHIS <= info.(to_broadcaster_value_sat);
  ok_countersigner_dust : info.(to_countersigner_value_sat) = 0
                          \/ MIN_CHAN_DUST_LIMIT_SATOSHIS <= info.(to_countersigner_value_sat);
  ok_count : Z.of_nat (length info.(offered_htlcs) + length info.(received_htlcs)) <= policy.(max_htlcs);
  ok_inflight : values info.(offered_htlcs) + values info.(received_htlcs) <= policy.(max_htlc_value_sat);
  ok_expiry : Forall (fun h => h.(cltv_expiry) < MAX_CLTV_EXPIRY /\
      (policy.(use_chain_state) = true ->
       height + policy.(min_delay) <= h.(cltv_expiry) <= height + policy.(max_delay)))
    (info.(offered_htlcs) ++ info.(received_htlcs));
  ok_funded : total info <= setup.(channel_value_sat);
  ok_feerate : policy.(min_feerate_per_kw)
    <= exact_feerate (setup.(channel_value_sat) - total info)
         ((if is_anchors setup then 1124 else 724)
          + 172 * Z.of_nat (length info.(offered_htlcs) + length info.(received_htlcs)))
    <= policy.(max_feerate_per_kw);
  ok_initial : commit_num = 0 ->
    info.(offered_htlcs) = [] /\ info.(received_htlcs) = [] /\
    (setup.(is_outbound) = true ->
     (value_to_parties info).2 <= setup.(push_value_msat) / 1000 + carried_fundee estate setup)
}.

Lemma expected_weight_Ok `{Profile} {E : Type} (a : bool) (n : Z) :
  0 <= n < 2 ^ 32 ->
  expected_commitment_tx_weight (E:=E) a n = Ok ((if a then 1124 else 724) + 172 * n).
Proof.
  intros Hn. unfold expected_commitment_tx_weight. res_step mul_u64_Ok by (unfold uint; lia).
  rewrite add_u64_Ok by (unfold uint; destruct a; lia). f_equal. lia.
Qed.

Lemma validate_expiry_all `{Profile} (policy : SimplePolicy) (dust height : Z) (l : list HTLCInfo2) :
  strict_policy policy -> policy_wf policy height ->
  Forall (fun h => dust <= h.(value_sat) /\ validate_expiry policy h.(cltv_expiry) height = Ok tt) l ->
  Forall (fun h => h.(cltv_expiry) < MAX_CLTV_EXPIRY /\
      (policy.(use_chain_state) = true ->
       height + policy.(min_delay) <= h.(cltv_expiry) <= height + policy.(max_delay))) l.
Proof.
  intros Hs [Hh Hm HM Hsum _] Hl. eapply Forall_impl; [exact Hl|]. intros h [_ He]. unfold uint in *.
  eapply validate_expiry_Ok; eauto; unfold uint; lia.
Qed.

(** The part of [validate_commitment_tx] for initial commitments. *)
Lemma initial_checks_Ok `{Profile} (policy : SimplePolicy) (estate : EnforcementState) (commit_num : Z)
    (setup : ChannelSetup) (info : CommitmentInfo2) (u : unit) :
  strict_policy policy -> 0 <= setup.(push_value_msat) / 1000 + carried_fundee estate setup ->
  (if commit_num =? 0 then
     when (0 <? Z.of_nat (length info.(offered_htlcs) + length info.(received_htlcs)))
       (policy_err policy "policy-commitment-first-no-htlcs") ;;
     if setup.(is_outbound) then
       entitled ← add_u64 (setup.(push_value_msat) / 1000) (carried_fundee estate setup);
       when (entitled <? (value_to_parties info).2)
         (policy_err policy "policy-commitment-initial-funding-value")
     else Ok tt
   else Ok tt) = Ok u ->
  commit_num = 0 ->
  info.(offered_htlcs) = [] /\ info.(received_htlcs) = [] /\
  (setup.(is_outbound) = true ->
   (value_to_parties info).2 <= setup.(push_value_msat) / 1000 + carried_fundee estate setup).
Proof.
  intros Hs Hnn Hv ->. cbn [Z.eqb] in Hv. pol_inv.
  assert (Hlen : (length info.(offered_htlcs) + length info.(received_htlcs) = 0)%nat)
    by lia.
  split_and!; [by apply length_zero_iff_nil; lia|by apply length_zero_iff_nil; lia|].
  intros Ho. rewrite Ho in Hv. pol_inv. etrans; [exact Hv|].
  by apply add_u64_le in E0.
Qed.

(** The first guard of the balance check, in both build profiles. *)
Lemma payment_balance_le `{Profile} (policy : SimplePolicy) (incoming outgoing : Z) (invoiced : option Z) :
  strict_policy policy -> 0 <= incoming -> 0 <= policy.(max_routing_fee_msat) ->
  (forall a, invoiced = Some a -> 0 <= a) ->
  validate_payment_balance policy incoming outgoing invoiced = Ok tt ->
  outgoing <= incoming + match invoiced with Some a => a + policy.(max_routing_fee_msat) | None => 0 end.
Proof.
  intros Hs Hin Hfee Hinv Hv. unfold validate_payment_balance in Hv. pol_inv.
  assert (Hmax : 0 <= v <= match invoiced with Some a => a + policy.(max_routing_fee_msat) | None => 0 end).
  { destruct invoiced as [a|]; [|res_inv; lia]. specialize (Hinv a eq_refl).
    pose proof (add_u64_uint _ _ _ E) as Hu. apply add_u64_le in E; unfold uint in Hu; lia. }
  apply add_u64_le in E0; lia.
Qed.

(** ** Properties *)


Definition sample_keys : ChannelPublicKeys := mkChannelPublicKeys 1 2 3 4 5.

Definition sample_setup : ChannelSetup :=
  mkChannelSetup true 1000000 0 (mkOutPoint 77 0) 144 None sample_keys 144 None StaticRemoteKey.

Definition sample_chain : ChainState := mkChainState 800000 10 0 0 false.

Definition sample_info : CommitmentInfo2 :=
  mkCommitmentInfo2 true 900000 49000 [] [mkHTLCInfo2 50000 9 800200] 1000.


(** [validate_beneficial_value] accepts any loss whose fee rate is in range
    once reduced modulo 2^32: the conversion to [u32] in
    [estimate_feerate_per_kw] hides the high bits from the maximum. *)
Theorem beneficial_value_truncated `{Profile} (policy : SimplePolicy) (ins outs weight : Z) :
  0 <= outs <= ins -> ins < 2 ^ 64 -> 0 < weight -> (ins - outs) * 1000 + 999 < 2 ^ 64 ->
  exact_feerate (ins - outs) weight mod 2 ^ 32 <= policy.(max_feerate_per_kw) ->
  validate_beneficial_value policy ins outs weight = Ok (ins - outs).
Proof.
  intros Ho Hi Hw Hb Hm. unfold validate_beneficial_value, checked_sub, estimate_feerate_per_kw, udiv.
  rewrite (proj2 (checked_Some 64 _ _)) by (split; [done|unfold uint; lia]). cbn [ok_or mbind res_bind].
  rewrite mul_u64_Ok by (unfold uint; lia). cbn [mbind res_bind].
  rewrite add_u64_Ok by (unfold uint; lia). cbn [mbind res_bind].
  destruct (Z.eqb_spec weight 0); [lia|]. cbn [mbind res_bind].
  fold (exact_feerate (ins - outs) weight).
  destruct (Z.ltb_spec policy.(max_feerate_per_kw) (exact_feerate (ins - outs) weight mod 2 ^ 32)); [lia|].
  done.
Qed.

(** 25.76 bitcoin go to fees, far above the allowed rate, under the default
    mainnet policy. *)
Lemma beneficial_value_truncated_witness :
  @validate_beneficial_value release_profile (make_default_simple_policy Bitcoin) 2576990000 0 600
    = Ok 2576990000 /\
  max_feerate_per_kw (make_default_simple_policy Bitcoin) < exact_feerate 2576990000 600.
Proof.
  split; [|reflexivity].
  apply (@beneficial_value_truncated release_profile (make_default_simple_policy Bitcoin) 2576990000 0 600);
    try lia. vm_compute. discriminate.
Defined.

(** An outgoing payment that the balance check accepts is covered by what
    came in plus the approved invoice and the routing fee allowance; without an
    invoice, by what came in.  This holds in both build profiles. *)
Theorem payment_balance_bound `{Profile} (policy : SimplePolicy) (incoming outgoing : Z) (invoiced : option Z) :
  strict_policy policy -> 0 <= incoming -> 0 <= policy.(max_routing_fee_msat) ->
  (forall a, invoiced = Some a -> 0 <= a) ->
  validate_payment_balance policy incoming outgoing invoiced = Ok tt ->
  outgoing <= incoming + match invoiced with Some a => a + policy.(max_routing_fee_msat) | None => 0 end /\
  (forall a, invoiced = Some a -> a + incoming <= outgoing -> outgoing < 2 ^ 64 ->
     (outgoing - a - incoming) * 100 / Z.max a 1 <= policy.(max_feerate_percentage)).
Proof.
  intros Hs Hin Hfee Hinv Hv. split; [by apply payment_balance_le|].
  intros a -> Hdue H64. unfold validate_payment_balance in Hv.
  do 3 apply bind_Ok in Hv as (? & _ & Hv).
  specialize (Hinv a eq_refl). apply bind_Ok in Hv as (due & Hd & Hv).
  rewrite add_u64_Ok in Hd by (unfold uint; lia). injection Hd as <-.
  destruct (Z.ltb_spec outgoing (a + incoming)); [lia|].
  rewrite sub_u64_Ok in Hv by (unfold uint; lia). cbn [mbind res_bind] in Hv.
  rewrite sub_u64_Ok in Hv by (unfold uint; lia). cbn [mbind res_bind] in Hv.
  pol_inv. unfold checked_mul in *. apply checked_Some in E as [-> _]. lia.
Qed.

Lemma payment_balance_bound_witness :
  1005000 <= 0 + (1000000 + 10000).
Proof.
  apply (@payment_balance_bound debug_profile (make_default_simple_policy Bitcoin) 0 1005000 (Some 1000000));
    try done. naive_solver lia.
Defined.
