(* ===== verification/Validator.v ===== *)
(** * The validator interface and its two implementations

    The trait [Validator] ([vls-core/src/policy/validator.rs]) as a class, with
    the promises that channels and nodes rely on as a second class of laws.
    [SimpleValidator] implements both; [OnchainValidator]
    ([policy/onchain_validator.rs]) wraps another validator and adds the checks
    against the chain. *)
From S2P Require Import Prelude Velocity Policy Ordered CommitInfo Types Secrets Enforcement SimpleValidator.

(** The methods that channels and nodes call, [policy()] as a superclass. *)
Class Validator (V : Type) := {
  v_policy :: Policy V;
  v_validate_channel_value : V -> ChannelSetup -> res ValidationError unit;
  v_validate_counterparty_commitment_tx :
    V -> EnforcementState -> Z -> PublicKey -> ChannelSetup -> ChainState -> CommitmentInfo2 ->
    res ValidationError unit;
  v_validate_holder_commitment_tx :
    V -> EnforcementState -> Z -> PublicKey -> ChannelSetup -> ChainState -> CommitmentInfo2 ->
    res ValidationError unit;
  v_validate_counterparty_revocation : V -> EnforcementState -> Z -> SecretKey -> res ValidationError unit;
  v_validate_payment_balance : V -> Z -> Z -> option Z -> res ValidationError unit;
  v_validate_payment_cltv : V -> Z -> Z -> res ValidationError unit;
  v_enforce_balance : V -> bool;
  v_minimum_initial_balance : V -> Z -> Z;
  v_is_ready : V -> ChainState -> bool
}.

(** The default methods of the trait. *)
Definition default_enforce_balance : bool := false.

(** ** [SimpleValidator] *)
Record SimpleValidator := mkSimpleValidator { sv_policy : SimplePolicy }.

Section Simple.
Context `{Profile} (htlc_timeout_tx_weight htlc_success_tx_weight : ChannelTypeFeatures -> Z).
Context (from_secret_key : SecretKey -> PublicKey).

Definition SimpleValidator_policy : Policy SimpleValidator := {|
  Policy_policy_error v := Policy_policy_error v.(sv_policy);
  Policy_temporary_policy_error v := Policy_temporary_policy_error v.(sv_policy);
  Policy_global_velocity_control v := global_velocity_control v.(sv_policy);
  Policy_max_channels v := max_channels v.(sv_policy);
  Policy_max_invoices v := max_invoices v.(sv_policy);
  Policy_fee_velocity_control v := fee_velocity_control v.(sv_policy)
|}.

Definition SimpleValidator_validator : Validator SimpleValidator := {|
  v_policy := SimpleValidator_policy;
  v_validate_channel_value v := validate_channel_value v.(sv_policy);
  v_validate_counterparty_commitment_tx v :=
    validate_counterparty_commitment_tx htlc_timeout_tx_weight htlc_success_tx_weight v.(sv_policy);
  v_validate_holder_commitment_tx v :=
    validate_holder_commitment_tx htlc_timeout_tx_weight htlc_success_tx_weight v.(sv_policy);
  v_validate_counterparty_revocation v := validate_counterparty_revocation from_secret_key v.(sv_policy);
  v_validate_payment_balance v := validate_payment_balance v.(sv_policy);
  v_validate_payment_cltv v := validate_payment_cltv v.(sv_policy);
  v_enforce_balance v := enforce_balance v.(sv_policy);
  v_minimum_initial_balance _ := minimum_initial_balance;
  v_is_ready _ := SimpleValidator_is_ready
|}.
End Simple.

(** ** [OnchainValidator] *)
Record OnchainPolicy := mkOnchainPolicy {
  onchain_filter : PolicyFilter;
  min_funding_depth : Z
}.

(** [impl Policy for OnchainPolicy]; the limits are the defaults of the trait. *)
#[export] Instance OnchainPolicy_policy : Policy OnchainPolicy := {|
  Policy_policy_error p tag := policy_error_with_filter tag p.(onchain_filter);
  Policy_temporary_policy_error p tag := temporary_policy_error_with_filter tag p.(onchain_filter);
  Policy_global_velocity_control _ := UNLIMITED;
  Policy_max_channels _ := MAX_CHANNELS;
  Policy_max_invoices _ := MAX_INVOICES;
  Policy_fee_velocity_control _ := DEFAULT_FEE_VELOCITY_CONTROL
|}.

Definition make_onchain_policy (filter : PolicyFilter) : OnchainPolicy := mkOnchainPolicy filter 1.

Record OnchainValidator (V : Type) := mkOnchainValidator {
  inner : V;
  onchain_policy : OnchainPolicy
}.
Arguments mkOnchainValidator {V} _ _.
Arguments inner {V} _.
Arguments onchain_policy {V} _.

(** [OnchainValidatorFactory::make_validator] over a factory of simple validators. *)
Definition make_onchain_validator (policy : option SimplePolicy) (network : Network)
  : OnchainValidator SimpleValidator :=
  mkOnchainValidator (mkSimpleValidator (default (make_default_simple_policy network) policy))
    (make_onchain_policy (default PolicyFilter_default (policy_filter <$> policy))).

Definition ensure_funding_buried_and_unspent (policy : OnchainPolicy) (commit_num : Z)
    (cstate : ChainState) : res ValidationError unit :=
  if (0 <? commit_num) && negb cstate.(splice_pending) then
    when (cstate.(funding_depth) <? policy.(min_funding_depth))
      (Policy_temporary_policy_error policy "policy-commitment-spends-active-utxo") ;;
    when (0 <? cstate.(closing_depth))
      (Policy_policy_error policy "policy-commitment-spends-active-utxo")
  else Ok tt.

Definition OnchainValidator_is_ready (policy : OnchainPolicy) (cstate : ChainState) : bool :=
  (policy.(min_funding_depth) <=? cstate.(funding_depth)) && (cstate.(closing_depth) =? 0).

Section Onchain.
Context {V : Type} `{Validator V}.

Definition onchain_validate_counterparty_commitment_tx (self : OnchainValidator V)
    (estate : EnforcementState) (commit_num : Z) (commitment_point : PublicKey) (setup : ChannelSetup)
    (cstate : ChainState) (info2 : CommitmentInfo2) : res ValidationError unit :=
  ensure_funding_buried_and_unspent self.(onchain_policy) commit_num cstate ;;
  v_validate_counterparty_commitment_tx self.(inner) estate commit_num commitment_point setup cstate info2.

Definition onchain_validate_holder_commitment_tx (self : OnchainValidator V)
    (estate : EnforcementState) (commit_num : Z) (commitment_point : PublicKey) (setup : ChannelSetup)
    (cstate : ChainState) (info2 : CommitmentInfo2) : res ValidationError unit :=
  when (estate.(next_holder_commit_num) <=? commit_num)
    (ensure_funding_buried_and_unspent self.(onchain_policy) commit_num cstate) ;;
  v_validate_holder_commitment_tx self.(inner) estate commit_num commitment_point setup cstate info2.

Definition OnchainValidator_policy : Policy (OnchainValidator V) := {|
  Policy_policy_error v := Policy_policy_error v.(onchain_policy);
  Policy_temporary_policy_error v := Policy_temporary_policy_error v.(onchain_policy);
  Policy_global_velocity_control v := Policy_global_velocity_control v.(onchain_policy);
  Policy_max_channels v := Policy_max_channels v.(onchain_policy);
  Policy_max_invoices v := Policy_max_invoices v.(onchain_policy);
  Policy_fee_velocity_control v := Policy_fee_velocity_control v.(onchain_policy)
|}.

(** [enforce_balance] is not forwarded: the trait's default stands. *)
#[export] Instance OnchainValidator_validator : Validator (OnchainValidator V) := {|
  v_policy := OnchainValidator_policy;
  v_validate_channel_value v := v_validate_channel_value v.(inner);
  v_validate_counterparty_commitment_tx := onchain_validate_counterparty_commitment_tx;
  v_validate_holder_commitment_tx := onchain_validate_holder_commitment_tx;
  v_validate_counterparty_revocation v := v_validate_counterparty_revocation v.(inner);
  v_validate_payment_balance v := v_validate_payment_balance v.(inner);
  v_validate_payment_cltv v := v_validate_payment_cltv v.(inner);
  v_enforce_balance _ := default_enforce_balance;
  v_minimum_initial_balance v := v_minimum_initial_balance v.(inner);
  v_is_ready v := OnchainValidator_is_ready v.(onchain_policy)
|}.
End Onchain.

(** ** What a strict validator promises

    [v_strict v] holds when no violation is demoted to a warning and the
    settings fit their types. *)
Class ValidatorLaws (V : Type) `{Profile} `{Validator V} (from_secret_key : SecretKey -> PublicKey) := {
  v_strict : V -> Prop;
  v_strict_error : forall v tag u, v_strict v -> Policy_policy_error v tag <> Ok u;
  (** a counterparty commitment is at most one ahead of the next revocation *)
  v_counterparty_number : forall v e n pt setup cs info,
    v_strict v -> e.(next_counterparty_revoke_num) + 1 < 2 ^ 64 ->
    0 <= e.(next_counterparty_revoke_num) ->
    v_validate_counterparty_commitment_tx v e n pt setup cs info = Ok tt ->
    n <= e.(next_counterparty_revoke_num) + 1;
  (** a holder commitment is not one whose secret may be out, and the channel
      does not advance once it is closing *)
  v_holder_number : forall v e n pt setup cs info,
    v_strict v -> 0 <= n -> n + 2 < 2 ^ 64 ->
    v_validate_holder_commitment_tx v e n pt setup cs info = Ok tt ->
    e.(next_holder_commit_num) <= n + 1 /\
    (n = e.(next_holder_commit_num) -> e.(channel_closed) = false);
  (** a revocation is the expected one or a retry, and opens the right point *)
  v_revocation : forall v e n secret,
    v_strict v -> 0 <= n -> n + 2 < 2 ^ 64 ->
    v_validate_counterparty_revocation v e n secret = Ok tt ->
    (n = e.(next_counterparty_revoke_num) \/ n + 1 = e.(next_counterparty_revoke_num)) /\
    get_previous_counterparty_point (E:=ValidationError) e n = Ok (Some (from_secret_key secret));
  (** an outgoing payment is covered by what comes in, the invoice and a fee *)
  v_max_routing_fee : V -> Z;
  v_max_routing_fee_nonneg : forall v, v_strict v -> 0 <= v_max_routing_fee v;
  v_payment_bound : forall v incoming outgoing invoiced,
    v_strict v -> 0 <= incoming -> (forall a, invoiced = Some a -> 0 <= a) ->
    v_validate_payment_balance v incoming outgoing invoiced = Ok tt ->
    outgoing <= incoming + match invoiced with Some a => a + v_max_routing_fee v | None => 0 end
}.

(** ** The laws hold for [SimpleValidator] *)
Section SimpleLaws.
Context `{Profile} (tw sw : ChannelTypeFeatures -> Z) (from_secret_key : SecretKey -> PublicKey).
Context (policy : SimplePolicy) (Hs : strict_policy policy).

Lemma simple_counterparty_number (e : EnforcementState) (n : Z) (pt : PublicKey) (setup : ChannelSetup)
    (cs : ChainState) (info : CommitmentInfo2) (u : unit) :
  e.(next_counterparty_revoke_num) + 1 < 2 ^ 64 -> 0 <= e.(next_counterparty_revoke_num) ->
  validate_counterparty_commitment_tx tw sw policy e n pt setup cs info = Ok u ->
  n <= e.(next_counterparty_revoke_num) + 1.
Proof.
  intros Hb Hnn Hv. unfold validate_counterparty_commitment_tx in Hv. apply bind_Ok in Hv as (? & _ & Hv).
  apply bind_Ok in Hv as (c & Hc & Hv). rewrite add_u64_Ok in Hc by (unfold uint; lia).
  apply bind_Ok in Hv as (? & Hv & _). pol_inv. lia.
Qed.

Lemma simple_holder_number (e : EnforcementState) (n : Z) (pt : PublicKey) (setup : ChannelSetup)
    (cs : ChainState) (info : CommitmentInfo2) (u : unit) :
  0 <= n -> n + 2 < 2 ^ 64 ->
  validate_holder_commitment_tx tw sw policy e n pt setup cs info = Ok u ->
  e.(next_holder_commit_num) <= n + 1 /\
  (n = e.(next_holder_commit_num) -> e.(channel_closed) = false).
Proof.
  intros Hn Hb Hv. unfold validate_holder_commitment_tx in Hv. apply bind_Ok in Hv as (? & _ & Hv).
  rewrite (add_u64_Ok n 1), (add_u64_Ok n 2) in Hv by (unfold uint; lia). cbn [mbind res_bind] in Hv.
  destruct (Z.eqb_spec (n + 1) e.(next_holder_commit_num)) as [Heq|Hne].
  - split; [lia|]. intros. lia.
  - cbn [andb] in Hv. pol_inv. split; [lia|]. intros ->. rewrite Z.eqb_refl in Hv. done.
Qed.

Lemma simple_revocation (e : EnforcementState) (n : Z) (secret : SecretKey) (u : unit) :
  0 <= n -> n + 2 < 2 ^ 64 ->
  validate_counterparty_revocation from_secret_key policy e n secret = Ok u ->
  (n = e.(next_counterparty_revoke_num) \/ n + 1 = e.(next_counterparty_revoke_num)) /\
  get_previous_counterparty_point (E:=ValidationError) e n = Ok (Some (from_secret_key secret)).
Proof.
  intros Hn Hb Hv. unfold validate_counterparty_revocation in Hv.
  rewrite (add_u64_Ok n 1) in Hv by (unfold uint; lia). cbn [mbind res_bind] in Hv.
  apply bind_Ok in Hv as (bad & Hbad & Hv). pol_inv.
  split.
  - destruct (Z.eqb_spec n e.(next_counterparty_revoke_num)); [by left|]. simplify_eq. pol_inv. by right.
  - destruct v0 as [prev|]; [|pol_inv]. pol_inv. by subst.
Qed.

(** A retry must repeat the point and the info. *)
Lemma simple_retry_same (e : EnforcementState) (n : Z) (pt : PublicKey) (setup : ChannelSetup)
    (cs : ChainState) (info : CommitmentInfo2) (u : unit) :
  validate_counterparty_commitment_tx tw sw policy e n pt setup cs info = Ok u ->
  0 <= n -> n + 1 = e.(next_counterparty_commit_num) -> n + 2 < 2 ^ 64 ->
  e.(counterparty_commitment_funding) = Some setup.(funding_outpoint) ->
  e.(current_counterparty_point) = Some pt /\
  (is_Some e.(current_counterparty_commit_info) -> e.(current_counterparty_commit_info) = Some info).
Proof.
  intros Hv Hn Heq Hb Htag. unfold validate_counterparty_commitment_tx in Hv.
  apply bind_Ok in Hv as (? & _ & Hv). apply bind_Ok in Hv as (c & _ & Hv).
  apply bind_Ok in Hv as (? & _ & Hv). rewrite (add_u64_Ok n 1) in Hv by (unfold uint; lia).
  cbn [mbind res_bind] in Hv. rewrite Heq, Z.eqb_refl, Htag in Hv.
  rewrite bool_decide_true in Hv by done. cbn [andb] in Hv. pol_inv.
  unfold get_previous_counterparty_commit_info in E0. rewrite (add_u64_Ok n 1) in E0 by (unfold uint; lia).
  cbn [mbind res_bind] in E0. rewrite Heq, Z.eqb_refl in E0. injection E0 as <-.
  split.
  - destruct e.(current_counterparty_point) as [prev|]; [|pol_inv]. pol_inv. by subst.
  - intros Hsome. rewrite (bool_decide_true (is_Some _)) in Hv by done.
    apply bool_decide_eq_false in Hv. symmetry. by apply dec_stable.
Qed.
End SimpleLaws.

#[export] Instance SimpleValidator_laws `{Profile} (tw sw : ChannelTypeFeatures -> Z)
    (from_secret_key : SecretKey -> PublicKey) :
  @ValidatorLaws SimpleValidator _ (SimpleValidator_validator tw sw from_secret_key) from_secret_key :=
  @Build_ValidatorLaws SimpleValidator _ (SimpleValidator_validator tw sw from_secret_key) from_secret_key
    (fun v => strict_policy v.(sv_policy) /\ 0 <= v.(sv_policy).(max_routing_fee_msat))
    (fun v tag u '(conj Hs _) => err_not_Ok v.(sv_policy) tag u Hs)
    (fun v e n pt setup cs info '(conj Hs _) =>
       simple_counterparty_number tw sw v.(sv_policy) Hs e n pt setup cs info tt)
    (fun v e n pt setup cs info '(conj Hs _) =>
       simple_holder_number tw sw v.(sv_policy) Hs e n pt setup cs info tt)
    (fun v e n secret '(conj Hs _) => simple_revocation from_secret_key v.(sv_policy) Hs e n secret tt)
    (fun v => v.(sv_policy).(max_routing_fee_msat))
    (fun v '(conj _ Hf) => Hf)
    (fun v incoming outgoing invoiced '(conj Hs Hf) Hi Ha =>
       payment_balance_le v.(sv_policy) incoming outgoing invoiced Hs Hi Hf Ha).

(** ** The laws hold for [OnchainValidator] over a validator that satisfies them *)
#[export] Program Instance OnchainValidator_laws `{Profile} (V : Type) (HV : Validator V)
    (from_secret_key : SecretKey -> PublicKey) (L : ValidatorLaws V from_secret_key) :
  ValidatorLaws (OnchainValidator V) from_secret_key := {|
  v_strict v := v_strict v.(inner) /\ forall tag, strict v.(onchain_policy).(onchain_filter) tag;
  v_max_routing_fee v := v_max_routing_fee v.(inner)
|}.
Next Obligation. intros ? V HV f L v tag u [_ Hs] Hu. cbn in Hu. rewrite policy_error_strict in Hu; done. Qed.
Next Obligation.
  intros ? V HV f L v e n pt setup cs info [Hs _] Hb Hn Hv. cbn in Hv.
  unfold onchain_validate_counterparty_commitment_tx in Hv. res_inv. by eapply v_counterparty_number.
Qed.
Next Obligation.
  intros ? V HV f L v e n pt setup cs info [Hs _] Hb Hn Hv. cbn in Hv.
  unfold onchain_validate_holder_commitment_tx in Hv. res_inv. by eapply v_holder_number.
Qed.
Next Obligation. intros ? V HV f L v e n secret [Hs _] Hb Hn Hv. cbn in Hv. by eapply v_revocation. Qed.
Next Obligation. intros ? V HV f L v [Hs _]. by apply v_max_routing_fee_nonneg. Qed.
Next Obligation. intros ? V HV f L v i o inv [Hs _] Hi Ha Hv. cbn in Hv. by eapply v_payment_bound. Qed.

(** When the check of the funding passes. *)
Lemma ensure_funding_strict (policy : OnchainPolicy) (n : Z) (cs : ChainState) :
  (forall tag, strict policy.(onchain_filter) tag) ->
  ensure_funding_buried_and_unspent policy n cs = Ok tt <->
  n <= 0 \/ cs.(splice_pending) = true \/
  policy.(min_funding_depth) <= cs.(funding_depth) /\ cs.(closing_depth) <= 0.
Proof.
  intros Hs. unfold ensure_funding_buried_and_unspent.
  assert (Ht : forall tag, temporary_policy_error_with_filter tag policy.(onchain_filter) <> Ok tt).
  { intros tag Ht. apply temporary_policy_error_Ok in Ht. rewrite (Hs tag) in Ht. done. }
  assert (He : forall tag, policy_error_with_filter tag policy.(onchain_filter) <> Ok tt).
  { intros tag He. rewrite policy_error_strict in He; done. }
  destruct (Z.ltb_spec 0 n), cs.(splice_pending); cbn [andb negb];
    [naive_solver| |naive_solver lia|naive_solver lia].
  unfold when. cbn [Policy_policy_error Policy_temporary_policy_error OnchainPolicy_policy].
  destruct (Z.ltb_spec (funding_depth cs) (min_funding_depth policy)).
  - split; [|lia]. intros Hb. apply bind_Ok in Hb as ([] & Hb & _). by apply Ht in Hb.
  - cbn [mbind res_bind]. destruct (Z.ltb_spec 0 (closing_depth cs)); [|naive_solver lia].
    split; [|lia]. intros Hb. by apply He in Hb.
Qed.

(** ** Properties *)

(** With the on-chain validator and no tag demoted, a counterparty
    commitment is accepted exactly when the wrapped validator accepts it and it
    is the initial one, or a splice is pending, or the funding has the required
    depth and no closing transaction is confirmed.  A pending splice thus waives
    the check for a closing transaction too. *)
Theorem onchain_requires_burial {V : Type} `{Validator V} (v : OnchainValidator V)
    (e : EnforcementState) (n : Z) (pt : PublicKey) (setup : ChannelSetup) (cs : ChainState)
    (info : CommitmentInfo2) :
  (forall tag, strict v.(onchain_policy).(onchain_filter) tag) ->
  v_validate_counterparty_commitment_tx v e n pt setup cs info = Ok tt <->
  (n <= 0 \/ cs.(splice_pending) = true \/
   v.(onchain_policy).(min_funding_depth) <= cs.(funding_depth) /\ cs.(closing_depth) <= 0) /\
  v_validate_counterparty_commitment_tx v.(inner) e n pt setup cs info = Ok tt.
Proof.
  intros Hs. cbn [v_validate_counterparty_commitment_tx OnchainValidator_validator].
  unfold onchain_validate_counterparty_commitment_tx. split.
  - intros Hv. apply bind_Ok in Hv as ([] & Hv & Hi). split; [|done].
    by apply ensure_funding_strict.
  - intros [Hc Hi]. apply (ensure_funding_strict _ n cs Hs) in Hc. by rewrite Hc.
Qed.

Lemma onchain_requires_burial_witness :
  let v := make_onchain_validator None Bitcoin in
  let e := with_counterparty (EnforcementState_new 0) 1 (Some 3) None None None in
  let V := @SimpleValidator_validator release_profile (fun _ => 663) (fun _ => 703) (fun s => s) in
  @v_validate_counterparty_commitment_tx _ (@OnchainValidator_validator _ V)
    v e 1 11 sample_setup sample_chain sample_info = Ok tt <->
  (1 <= 0 \/ splice_pending sample_chain = true \/
   1 <= funding_depth sample_chain /\ closing_depth sample_chain <= 0) /\
  @v_validate_counterparty_commitment_tx _ V v.(inner) e 1 11 sample_setup sample_chain sample_info = Ok tt.
Proof.
  intros v e V. apply (@onchain_requires_burial SimpleValidator V v e 1 11 sample_setup sample_chain sample_info).
  done.
Defined.

(** A repeated request to sign the current counterparty commitment is
    accepted only with the same point and the same info. *)
Theorem counterparty_retry_same `{Profile} (tw sw : ChannelTypeFeatures -> Z) (policy : SimplePolicy)
    (e : EnforcementState) (n : Z) (pt : PublicKey) (setup : ChannelSetup) (cs : ChainState)
    (info : CommitmentInfo2) :
  strict_policy policy -> 0 <= n -> n + 2 < 2 ^ 64 -> n + 1 = e.(next_counterparty_commit_num) ->
  e.(counterparty_commitment_funding) = Some setup.(funding_outpoint) ->
  is_Some e.(current_counterparty_commit_info) ->
  validate_counterparty_commitment_tx tw sw policy e n pt setup cs info = Ok tt ->
  e.(current_counterparty_point) = Some pt /\ e.(current_counterparty_commit_info) = Some info.
Proof.
  intros Hs Hn Hb Heq Htag Hsome Hv.
  destruct (simple_retry_same tw sw policy Hs e n pt setup cs info tt Hv Hn Heq Hb Htag). auto.
Qed.

Lemma counterparty_retry_same_witness :
  let e := with_funding_tags (with_counterparty (EnforcementState_new 0) 6 (Some 11) None (Some sample_info) None)
             None (Some (mkOutPoint 77 0)) in
  let e := with_revoke e 5 None in
  e.(current_counterparty_point) = Some 11 /\ e.(current_counterparty_commit_info) = Some sample_info.
Proof.
  apply (@counterparty_retry_same release_profile (fun _ => 663) (fun _ => 703) (make_default_simple_policy Bitcoin)
    (with_revoke (with_funding_tags (with_counterparty (EnforcementState_new 0) 6 (Some 11) None (Some sample_info) None)
       None (Some (mkOutPoint 77 0))) 5 None) 5 11 sample_setup sample_chain sample_info).
  - apply default_policy_strict.
  - done.
  - done.
  - done.
  - done.
  - by eexists.
  - vm_compute. reflexivity.
Defined.
