(* ===== verification/NodeState.v ===== *)
(** * Node state: payments and invoices ([vls-core/src/node.rs])

    The payments that the node routes, the invoices that it pays or issued and
    the velocity controls, with every operation of [NodeState] and the operations
    of [Node] on that state: adding invoices and keysends, pruning on each
    heartbeat, and the restart from persistence ([vls-persist/src/model.rs],
    [vls-persist/src/kvv.rs]). *)
From S2P Require Import Prelude Velocity Policy Ordered CommitInfo Types Secrets Enforcement SimpleValidator Validator.

Definition INVOICE_PRUNE_TIME : Z := 60 * 60 * 24 * NANOS.
Definition KEYSEND_PRUNE_TIME : Z := 0 * NANOS.

Inductive PaymentType := PT_Invoice | PT_Keysend.

#[export] Instance PaymentType_eq_dec : EqDecision PaymentType.
Proof. solve_decision. Defined.

(** Durations are in nanoseconds. *)
Record PaymentState := mkPaymentState {
  invoice_hash : Z;
  amount_msat : Z;
  payee : PublicKey;
  duration_since_epoch : Z;
  expiry_duration : Z;
  invoice_is_fulfilled : bool;
  payment_type : PaymentType
}.

Definition with_fulfilled (s : PaymentState) : PaymentState :=
  mkPaymentState s.(invoice_hash) s.(amount_msat) s.(payee) s.(duration_since_epoch)
    s.(expiry_duration) true s.(payment_type).

(** ** [RoutedPayment] *)
Abbreviation ChannelAmounts := (gmap (list Z) Z) (only parsing).

Record RoutedPayment := mkRoutedPayment {
  incoming : ChannelAmounts;
  outgoing : ChannelAmounts;
  incoming_cltv_min : option Z;
  outgoing_cltv_max : option Z;
  preimage : option Z
}.

Definition RoutedPayment_new : RoutedPayment := mkRoutedPayment ∅ ∅ None None None.

Definition with_preimage (p : RoutedPayment) (preimage : option Z) : RoutedPayment :=
  mkRoutedPayment p.(incoming) p.(outgoing) p.(incoming_cltv_min) p.(outgoing_cltv_max) preimage.

Definition is_fulfilled (self : RoutedPayment) : bool := bool_decide (is_Some self.(preimage)).

(** [self.incoming.values()] and the like. *)
Definition channel_amounts (m : ChannelAmounts) : list Z := (map_to_list m).*2.

Section RoutedPayment.
Context `{Profile} {E : Type}.

Definition is_no_incoming (self : RoutedPayment) : res E bool :=
  s ← sum_u64 (channel_amounts self.(incoming)); Ok (s =? 0).

Definition is_no_outgoing (self : RoutedPayment) : res E bool :=
  s ← sum_u64 (channel_amounts self.(outgoing)); Ok (s =? 0).

Definition updated_sum (m : ChannelAmounts) (channel_id : ChannelId) (amount : Z) : res E Z :=
  s ← sum_u64 (channel_amounts m);
  s ← add_u64 s amount;
  sub_u64 s (default 0 (m !! channel_id)).

Definition updated_incoming_outgoing (self : RoutedPayment) (channel_id : ChannelId)
    (incoming_amount_sat outgoing_amount_sat : Z) : res E (Z * Z) :=
  incoming_sum ← updated_sum self.(incoming) channel_id incoming_amount_sat;
  outgoing_sum ← updated_sum self.(outgoing) channel_id outgoing_amount_sat;
  Ok (incoming_sum, outgoing_sum).

Definition incoming_outgoing (self : RoutedPayment) : res E (Z * Z) :=
  i ← sum_u64 (channel_amounts self.(incoming));
  o ← sum_u64 (channel_amounts self.(outgoing));
  Ok (i, o).
End RoutedPayment.

(** [apply] keeps the smallest incoming and the largest outgoing expiry seen. *)
Definition RoutedPayment_apply (self : RoutedPayment) (channel_id : ChannelId)
    (incoming_amount_sat outgoing_amount_sat : Z) (incoming_cltv outgoing_cltv : option Z)
  : RoutedPayment :=
  mkRoutedPayment (<[channel_id := incoming_amount_sat]> self.(incoming))
    (<[channel_id := outgoing_amount_sat]> self.(outgoing))
    match incoming_cltv with
    | Some inc => Some (from_option (fun existing => Z.min existing inc) inc self.(incoming_cltv_min))
    | None => self.(incoming_cltv_min)
    end
    match outgoing_cltv with
    | Some out => Some (from_option (fun existing => Z.max existing out) out self.(outgoing_cltv_max))
    | None => self.(outgoing_cltv_max)
    end
    self.(preimage).

Definition get_cltv_bounds (self : RoutedPayment) : option (Z * Z) :=
  match self.(incoming_cltv_min), self.(outgoing_cltv_max) with
  | Some inc, Some out => Some (inc, out)
  | _, _ => None
  end.

(** ** [NodeState]

    The log prefix and the last summary only serve logging and are left out. *)
Inductive Allowable :=
| Script (script : ScriptBuf)
| XPub (xpub : Z)
| Payee (pubkey : PublicKey).

#[export] Instance Allowable_eq_dec : EqDecision Allowable.
Proof. solve_decision. Defined.
#[export] Program Instance Allowable_countable : Countable Allowable :=
  inj_countable' (fun a => match a with Script s => (0, s) | XPub x => (1, x) | Payee k => (2, k) end)
    (fun p => if p.1 =? 0 then Script p.2 else if p.1 =? 1 then XPub p.2 else Payee p.2) _.
Next Obligation. by intros []. Qed.

Record NodeState := mkNodeState {
  invoices : gmap Z PaymentState;
  issued_invoices : gmap Z PaymentState;
  payments : gmap Z RoutedPayment;
  excess_amount : Z;
  velocity_control : VelocityControl;
  node_fee_velocity_control : VelocityControl;
  dbid_high_water_mark : Z;
  allowlist : gset Allowable
}.

#[export] Instance NodeState_preimages : PreimageMap NodeState := fun self hash =>
  match self.(payments) !! hash with Some p => bool_decide (is_Some p.(preimage)) | None => false end.

Definition NodeState_new (velocity_control fee_velocity_control : VelocityControl)
    (allowlist : list Allowable) : NodeState :=
  mkNodeState ∅ ∅ ∅ 0 velocity_control fee_velocity_control 0 (list_to_set allowlist).

Definition with_invoices (self : NodeState) (m : gmap Z PaymentState) : NodeState :=
  mkNodeState m self.(issued_invoices) self.(payments) self.(excess_amount) self.(velocity_control)
    self.(node_fee_velocity_control) self.(dbid_high_water_mark) self.(allowlist).
Definition with_issued (self : NodeState) (m : gmap Z PaymentState) : NodeState :=
  mkNodeState self.(invoices) m self.(payments) self.(excess_amount) self.(velocity_control)
    self.(node_fee_velocity_control) self.(dbid_high_water_mark) self.(allowlist).
Definition with_payments (self : NodeState) (m : gmap Z RoutedPayment) (excess : Z) : NodeState :=
  mkNodeState self.(invoices) self.(issued_invoices) m excess self.(velocity_control)
    self.(node_fee_velocity_control) self.(dbid_high_water_mark) self.(allowlist).
Definition with_velocity (self : NodeState) (v : VelocityControl) : NodeState :=
  mkNodeState self.(invoices) self.(issued_invoices) self.(payments) self.(excess_amount) v
    self.(node_fee_velocity_control) self.(dbid_high_water_mark) self.(allowlist).
Definition with_allowlist (self : NodeState) (a : gset Allowable) : NodeState :=
  mkNodeState self.(invoices) self.(issued_invoices) self.(payments) self.(excess_amount)
    self.(velocity_control) self.(node_fee_velocity_control) self.(dbid_high_water_mark) a.

(** ** Validating and applying the payments of a commitment

    [set_iter] is the iteration order of the hash set of payment hashes, which
    the standard library leaves open. *)
Section Payments.
Context `{Profile} {V : Type} `{Validator V} (validator : V) (set_iter : gset Z -> list Z).

Definition summary_hashes (ins outs : PaymentMap) : list Z := set_iter (dom ins ∪ dom outs).

(** [summary.get(&hash).map(|a| *a).unwrap_or(0)]. *)
Definition summary_get (m : PaymentMap) (hash : Z) : Z := default 0 (m !! hash).

Definition validate_payment (self : NodeState) (channel_id : ChannelId) (ins outs : PaymentMap)
    (unbalanced : list Z) (hash : Z) : res ValidationError (list Z) :=
  let incoming_for_chan_sat := summary_get ins hash in
  let outgoing_for_chan_sat := summary_get outs hash in
  let payment := self.(payments) !! hash in
  '(incoming_sat, outgoing_sat) ←
    match payment with
    | Some p =>
        match get_cltv_bounds p with
        | Some (incoming_cltv, outgoing_cltv) => v_validate_payment_cltv validator incoming_cltv outgoing_cltv
        | None => Ok tt
        end ;;
        updated_incoming_outgoing p channel_id incoming_for_chan_sat outgoing_for_chan_sat
    | None => Ok (incoming_for_chan_sat, outgoing_for_chan_sat)
    end;
  let invoiced_amount := amount_msat <$> self.(invoices) !! hash in
  incoming_msat ← mul_u64 incoming_sat 1000;
  outgoing_msat ← mul_u64 outgoing_sat 1000;
  match v_validate_payment_balance validator incoming_msat outgoing_msat invoiced_amount with
  | Ok _ => Ok unbalanced
  | Err _ =>
      if bool_decide (is_Some payment) && bool_decide (invoiced_amount = None) then Ok unbalanced
      else Ok (unbalanced ++ [hash])
  | Panic => Panic
  end.

Definition validate_payments (self : NodeState) (channel_id : ChannelId) (ins outs : PaymentMap)
    (balance_delta : BalanceDelta) : res ValidationError unit :=
  unbalanced ← fold_res (validate_payment self channel_id ins outs) [] (summary_hashes ins outs);
  when (negb (bool_decide (unbalanced = [])))
    (Policy_policy_error validator "policy-commitment-htlc-routing-balance") ;;
  when (v_enforce_balance validator)
    (total ← unwrap (checked_add 64 self.(excess_amount) balance_delta.(balance_after));
     _ ← ok_or (policy_error "policy-routing-balanced") (checked_sub 64 total balance_delta.(balance_before));
     Ok tt).

(** The first loop of [apply_payments]: every hash gets a payment; issued
    invoices that the new amounts pay are collected. *)
Definition preflight_payment {E : Type} (self : NodeState) (channel_id : ChannelId) (ins outs : PaymentMap)
    (acc : gmap Z RoutedPayment * list Z) (hash : Z) : res E (gmap Z RoutedPayment * list Z) :=
  let '(payments, fulfilled) := acc in
  let payment := default RoutedPayment_new (payments !! hash) in
  let payments := <[hash := payment]> payments in
  match self.(issued_invoices) !! hash with
  | Some issued =>
      if is_fulfilled payment then Ok (payments, fulfilled) else
      '(incoming_sat, outgoing_sat) ←
        updated_incoming_outgoing payment channel_id (summary_get ins hash) (summary_get outs hash);
      due ← add_u64 outgoing_sat (issued.(amount_msat) / 1000);
      Ok (payments, if due <=? incoming_sat then fulfilled ++ [hash] else fulfilled)
  | None => Ok (payments, fulfilled)
  end.

Definition cltvs (htlcs : list HTLCInfo2) (hash : Z) : list Z :=
  cltv_expiry <$> filter (fun h => h.(payment_hash) = hash) htlcs.

(** [Iterator::min] and [Iterator::max]. *)
Definition list_min (l : list Z) : option Z :=
  match l with [] => None | x :: l => Some (foldl Z.min x l) end.
Definition list_max (l : list Z) : option Z :=
  match l with [] => None | x :: l => Some (foldl Z.max x l) end.

Definition commit_cltvs (commit_info : option CommitmentInfo2) (hash : Z) : option Z * option Z :=
  match commit_info with
  | Some info =>
      let '(incoming_htlcs, outgoing_htlcs) :=
        if info.(is_counterparty_broadcaster) then (info.(offered_htlcs), info.(received_htlcs))
        else (info.(received_htlcs), info.(offered_htlcs)) in
      (list_min (cltvs incoming_htlcs hash), list_max (cltvs outgoing_htlcs hash))
  | None => (None, None)
  end.

(** The last loop of [apply_payments]. *)
Definition apply_payment {E : Type} (channel_id : ChannelId) (ins outs : PaymentMap)
    (commit_info : option CommitmentInfo2) (payments : gmap Z RoutedPayment) (hash : Z)
  : res E (gmap Z RoutedPayment) :=
  payment ← unwrap (payments !! hash);
  let '(incoming_cltv, outgoing_cltv) := commit_cltvs commit_info hash in
  Ok (<[hash := RoutedPayment_apply payment channel_id (summary_get ins hash) (summary_get outs hash)
                  incoming_cltv outgoing_cltv]> payments).

(** The dummy preimage is 32 zero bytes. *)
Definition mark_fulfilled {E : Type} (payments : gmap Z RoutedPayment) (hash : Z)
  : res E (gmap Z RoutedPayment) :=
  payment ← unwrap (payments !! hash);
  Ok (<[hash := with_preimage payment (Some 0)]> payments).

Definition apply_payments {E : Type} (self : NodeState) (channel_id : ChannelId) (ins outs : PaymentMap)
    (balance_delta : BalanceDelta) (commit_info : option CommitmentInfo2) : res E NodeState :=
  let hashes := summary_hashes ins outs in
  '(payments, fulfilled) ← fold_res (preflight_payment self channel_id ins outs) (self.(payments), []) hashes;
  let issued := foldl (fun m h => alter with_fulfilled h m) self.(issued_invoices) fulfilled in
  '(payments, excess) ←
    (if v_enforce_balance validator then
       total ← unwrap (checked_add 64 self.(excess_amount) balance_delta.(balance_after));
       excess ← unwrap (checked_sub 64 total balance_delta.(balance_before));
       payments ← fold_res mark_fulfilled payments fulfilled;
       Ok (payments, excess)
     else Ok (payments, self.(excess_amount)));
  payments ← fold_res (apply_payment channel_id ins outs commit_info) payments hashes;
  Ok (with_payments (with_issued self issued) payments excess).

(** ** Learning a preimage: [hash_preimage] is SHA-256 of the 32 bytes. *)
Context (hash_preimage : Z -> Z).

Definition htlc_fulfilled {E : Type} (self : NodeState) (preimage : Z) : res E (bool * NodeState) :=
  let hash := hash_preimage preimage in
  let '(fulfilled, issued) :=
    match self.(issued_invoices) !! hash with
    | Some i => if i.(invoice_is_fulfilled) then (false, self.(issued_invoices))
                else (true, <[hash := with_fulfilled i]> self.(issued_invoices))
    | None => (false, self.(issued_invoices))
    end in
  let self := with_issued self issued in
  match self.(payments) !! hash with
  | Some payment =>
      if bool_decide (is_Some payment.(NodeState.preimage)) then Ok (fulfilled, self) else
      '(incoming, outgoing) ← incoming_outgoing payment;
      excess ←
        (if bool_decide (is_Some (self.(invoices) !! hash)) then Ok self.(excess_amount)
         else if v_enforce_balance validator then
           total ← unwrap (checked_add 64 self.(excess_amount) incoming);
           unwrap (checked_sub 64 total outgoing)
         else Ok self.(excess_amount));
      Ok (true, with_payments self (<[hash := with_preimage payment (Some preimage)]> self.(payments)) excess)
  | None => Ok (fulfilled, self)
  end.

(** [Node::htlcs_fulfilled]; the flag only serves tracing. *)
Definition htlcs_fulfilled {E : Type} (self : NodeState) (preimages : list Z) : res E NodeState :=
  fold_res (fun state preimage => '(_, state) ← htlc_fulfilled state preimage; Ok state) self preimages.
End Payments.

(** ** Pruning *)
Section Prune.
Context `{Profile} {E : Type} (timeless_workaround : bool).

Definition prune_time (pstate : PaymentState) : Z :=
  match pstate.(payment_type) with
  | PT_Invoice => INVOICE_PRUNE_TIME
  | PT_Keysend => KEYSEND_PRUNE_TIME
  end + (if timeless_workaround then INVOICE_AHEAD_TOLERANCE * NANOS else 0).

(** The time after which an entry is dropped. *)
Definition prune_deadline (s : PaymentState) : res E Z :=
  t ← dur_add s.(duration_since_epoch) s.(expiry_duration);
  dur_add t (prune_time s).

(** [Map::retain] with a test that may panic. *)
Definition retain {A : Type} (keep : Z -> A -> res E bool) (m : gmap Z A) : res E (gmap Z A) :=
  fold_res (fun m' '(k, a) => b ← keep k a; Ok (if b : bool then m' else delete k m')) m (map_to_list m).

Definition prune_issued_invoices (self : NodeState) (now : Z) : res E (bool * NodeState) :=
  m ← retain (fun _ issued => d ← prune_deadline issued; Ok (now <? d)) self.(issued_invoices);
  Ok (negb (size m =? size self.(issued_invoices))%nat, with_issued self m).

Definition is_invoice_prunable (now : Z) (state : PaymentState) (payment : RoutedPayment) : res E bool :=
  is_payment_complete ← (if is_fulfilled payment then Ok true else is_no_outgoing payment);
  d ← prune_deadline state;
  Ok ((d <? now) && is_payment_complete).

(** The hashes to prune; an invoice without a payment is a panic. *)
Definition prunable_invoices (self : NodeState) (now : Z) : res E (gset Z) :=
  fold_res (fun prune '(hash, state) =>
    payment ← unwrap (self.(payments) !! hash);
    b ← is_invoice_prunable now state payment;
    Ok (if b : bool then {[hash]} ∪ prune else prune)) ∅ (map_to_list self.(invoices)).

Definition prune_invoices (self : NodeState) (now : Z) : res E (bool * NodeState) :=
  prune ← prunable_invoices self now;
  let keep {A} (m : gmap Z A) := filter (fun kv => kv.1 ∉ prune) m in
  let invoices := keep self.(invoices) in
  let payments := keep self.(payments) in
  Ok (negb ((size invoices =? size self.(NodeState.invoices))%nat
            && (size payments =? size self.(NodeState.payments))%nat),
      with_payments (with_invoices self invoices) payments self.(excess_amount)).

Definition is_forwarded_payment_prunable (self : NodeState) (hash : Z) (payment : RoutedPayment)
  : res E bool :=
  if bool_decide (self.(invoices) !! hash = None) && bool_decide (self.(issued_invoices) !! hash = None) then
    no_in ← is_no_incoming payment;
    if no_in : bool then is_no_outgoing payment else Ok false
  else Ok false.

Definition prune_forwarded_payments (self : NodeState) : res E (bool * NodeState) :=
  m ← retain (fun hash p => b ← is_forwarded_payment_prunable self hash p; Ok (negb b)) self.(payments);
  Ok (negb (size m =? size self.(payments))%nat, with_payments self m self.(excess_amount)).

(** The part of [Node::get_heartbeat] on the node state; [true] when the state
    is persisted. *)
Definition heartbeat_prune (self : NodeState) (now : Z) : res E (bool * NodeState) :=
  '(pruned1, self) ← prune_invoices self now;
  '(pruned2, self) ← prune_issued_invoices self now;
  '(pruned3, self) ← prune_forwarded_payments self;
  Ok (pruned1 || pruned2 || pruned3, self).
End Prune.

(** ** Invoices and keysends

    The trait [InvoiceAttributes] ([vls-core/src/invoice.rs]); the invoices
    themselves are values of the lightning packages. *)
Class InvoiceAttributes (I : Type) := {
  inv_invoice_hash : I -> Z;
  inv_payment_hash : I -> Z;
  inv_amount_milli_satoshis : I -> Z;
  inv_payee_pub_key : I -> PublicKey;
  inv_duration_since_epoch : I -> Z;
  inv_expiry_duration : I -> Z
}.

Definition payment_state_from_invoice {I : Type} `{InvoiceAttributes I} (invoice : I)
  : Z * PaymentState * Z :=
  (inv_payment_hash invoice,
   mkPaymentState (inv_invoice_hash invoice) (inv_amount_milli_satoshis invoice)
     (inv_payee_pub_key invoice) (inv_duration_since_epoch invoice) (inv_expiry_duration invoice)
     false PT_Invoice,
   inv_invoice_hash invoice).

Definition payment_state_from_keysend (payee : PublicKey) (payment_hash amount_msat now : Z)
  : PaymentState * Z :=
  (mkPaymentState payment_hash amount_msat payee now (60 * NANOS) false PT_Keysend, payment_hash).

Section Node.
Context `{Profile} {V P : Type} `{Validator V} `{Policy P} (validator : V) (policy : P).

(** What [add_invoice] and [add_keysend] do once they have the payment state. *)
Definition add_payment_state (self : NodeState) (hash invoice_hash now_secs : Z)
    (payment_state : PaymentState) : res Status (bool * NodeState) :=
  if Policy_max_invoices policy <=? Z.of_nat (size self.(invoices)) then Err failed_precondition else
  match self.(invoices) !! hash with
  | Some s => if s.(NodeState.invoice_hash) =? invoice_hash then Ok (true, self) else Err failed_precondition
  | None =>
      '(ok, vc) ← Velocity.insert self.(velocity_control) now_secs payment_state.(amount_msat);
      let self := with_velocity self vc in
      if (ok : bool) then
        Ok (true,
            with_payments (with_invoices self (<[hash := payment_state]> self.(invoices)))
              (<[hash := default RoutedPayment_new (self.(payments) !! hash)]> self.(payments))
              self.(excess_amount))
      else Ok (false, self)
  end.

Definition add_invoice {I : Type} `{InvoiceAttributes I} (timeless_workaround : bool) (self : NodeState)
    (invoice : I) (now : Z) : res Status (bool * NodeState) :=
  lift_ve (validate_invoice validator timeless_workaround (inv_duration_since_epoch invoice)
             (inv_expiry_duration invoice) now) ;;
  let '(hash, payment_state, invoice_hash) := payment_state_from_invoice invoice in
  add_payment_state self hash invoice_hash (now / NANOS) payment_state.

(** The clock is read twice. *)
Definition add_keysend (self : NodeState) (payee : PublicKey) (payment_hash amount_msat now now' : Z)
  : res Status (bool * NodeState) :=
  let '(payment_state, invoice_hash) := payment_state_from_keysend payee payment_hash amount_msat now in
  add_payment_state self payment_hash invoice_hash (now' / NANOS) payment_state.

Definition has_payment (self : NodeState) (hash invoice_hash : Z) : res Status bool :=
  match self.(invoices) !! hash with
  | Some s => if s.(NodeState.invoice_hash) =? invoice_hash then Ok true else Err failed_precondition
  | None => Ok false
  end.

(** The bookkeeping of the two functions that sign an invoice. *)
Definition track_issued_invoice (self : NodeState) (hash invoice_hash : Z) (payment_state : PaymentState)
  : res Status NodeState :=
  if Policy_max_invoices policy <=? Z.of_nat (size self.(issued_invoices)) then Err failed_precondition else
  match self.(issued_invoices) !! hash with
  | Some s => if s.(NodeState.invoice_hash) =? invoice_hash then Ok self else Err failed_precondition
  | None =>
      if 0 <? payment_state.(amount_msat) then
        Ok (with_issued self (<[hash := payment_state]> self.(issued_invoices)))
      else Ok self
  end.

(** The signed invoice and its signature come from the keys manager. *)
Definition sign_bolt11_invoice {I : Type} `{InvoiceAttributes I} (self : NodeState)
    (signed : res Status (I * Signature)) : res Status (Signature * NodeState) :=
  '(invoice, sig) ← signed;
  let '(hash, payment_state, invoice_hash) := payment_state_from_invoice invoice in
  self ← track_issued_invoice self hash invoice_hash payment_state;
  Ok (sig, self).

Definition sign_bolt12_invoice {I : Type} `{InvoiceAttributes I} (timeless_workaround : bool)
    (self : NodeState) (signing_pubkey bolt12_pubkey : PublicKey) (created_at relative_expiry now : Z)
    (signed : res Status (I * Signature)) : res Status (Signature * NodeState) :=
  lift_ve (validate_bolt12_invoice_unsigned validator timeless_workaround signing_pubkey bolt12_pubkey
             created_at relative_expiry now) ;;
  '(invoice, sig) ← signed;
  let '(payment_hash, payment_state, invoice_hash) := payment_state_from_invoice invoice in
  self ← track_issued_invoice self payment_hash invoice_hash payment_state;
  Ok (sig, self).

Definition update_velocity_controls (self : NodeState) : NodeState :=
  mkNodeState self.(invoices) self.(issued_invoices) self.(payments) self.(excess_amount)
    (update_spec self.(velocity_control) (Policy_global_velocity_control policy))
    (update_spec self.(node_fee_velocity_control) (Policy_fee_velocity_control policy))
    self.(dbid_high_water_mark) self.(allowlist).
End Node.

(** ** Persistence and restart *)
Record NodeStateEntry := mkNodeStateEntry {
  e_invoices : list (Z * PaymentState);
  e_issued_invoices : list (Z * PaymentState);
  e_velocity_control : VelocityControl;
  e_fee_velocity_control : VelocityControl;
  e_preimages : list Z;
  e_dbid_high_water_mark : Z
}.

(** [impl From<&NodeState> for NodeStateEntry]. *)
Definition NodeStateEntry_from (state : NodeState) : NodeStateEntry :=
  mkNodeStateEntry (map_to_list state.(invoices)) (map_to_list state.(issued_invoices))
    state.(velocity_control) state.(node_fee_velocity_control)
    (omap preimage (map_to_list state.(payments)).*2) state.(dbid_high_water_mark).

Section Restart.
Context (hash_preimage : Z -> Z).

(** [collect] into a map: a later entry with the same key wins. *)
Definition collect_map {A : Type} (l : list (Z * A)) : gmap Z A :=
  foldl (fun m '(k, a) => <[k := a]> m) ∅ l.

Definition NodeState_restore (invoices_v issued_invoices_v : list (Z * PaymentState))
    (preimages : list Z) (excess_amount : Z) (velocity_control fee_velocity_control : VelocityControl)
    (dbid_high_water_mark : Z) (allowlist : list Allowable) : NodeState :=
  mkNodeState (collect_map invoices_v) (collect_map issued_invoices_v)
    (collect_map ((fun p => (hash_preimage p, with_preimage RoutedPayment_new (Some p))) <$> preimages))
    excess_amount velocity_control fee_velocity_control dbid_high_water_mark (list_to_set allowlist).

(** The state that [get_nodes] rebuilds from an entry. *)
Definition get_node_state (entry : NodeStateEntry) (allowlist : list Allowable) : NodeState :=
  NodeState_restore entry.(e_invoices) entry.(e_issued_invoices) entry.(e_preimages) 0
    entry.(e_velocity_control) entry.(e_fee_velocity_control) entry.(e_dbid_high_water_mark) allowlist.

(** [restore_node] before the channels are restored: a payment per invoice. *)
Definition restore_node_state (state : NodeState) (allowlist : list Allowable) : NodeState :=
  let state := with_allowlist state (list_to_set allowlist) in
  with_payments state
    (foldl (fun m h => <[h := RoutedPayment_new]> m) state.(payments) (map_to_list state.(invoices)).*1)
    state.(excess_amount).

Definition restart (state : NodeState) (allowlist : list Allowable) : NodeState :=
  restore_node_state (get_node_state (NodeStateEntry_from state) allowlist) allowlist.
End Restart.

(** ** The allowlist

    [parse] is [Allowable::from_str] for the network and [persist] the call to
    the persister; the state is changed in place, so it is returned together
    with the result. *)
Section Allowlist.
Context (parse : string -> option Allowable) (persist : gset Allowable -> res Status unit).

Fixpoint update_each (f : Allowable -> gset Allowable -> gset Allowable) (list : list string)
    (a : gset Allowable) : gset Allowable * res Status unit :=
  match list with
  | [] => (a, persist a)
  | s :: list' =>
      match parse s with
      | Some allowable => update_each f list' (f allowable a)
      | None => (a, Err invalid_argument)
      end
  end.

Definition add_allowlist (self : NodeState) (adds : list string) : NodeState * res Status unit :=
  let '(a, r) := update_each (fun x a => {[x]} ∪ a) adds self.(allowlist) in (with_allowlist self a, r).

Definition set_allowlist (self : NodeState) (l : list string) : NodeState * res Status unit :=
  let '(a, r) := update_each (fun x a => {[x]} ∪ a) l ∅ in (with_allowlist self a, r).

Definition remove_allowlist (self : NodeState) (removes : list string) : NodeState * res Status unit :=
  let '(a, r) := update_each (fun x a => a ∖ {[x]}) removes self.(allowlist) in (with_allowlist self a, r).

Definition allowlist_contains_payee (self : NodeState) (payee : PublicKey) : bool :=
  bool_decide (Payee payee ∈ self.(allowlist)).
End Allowlist.
