(* ===== verification/NodeSafety.v ===== *)
(** * What the node state guarantees

    The payments that [apply_payments] records are those that [validate_payments]
    checked, no approved invoice is overpaid in any reachable state, learning a
    preimage twice changes nothing, pruning keeps what is pending, and what a
    restart keeps. *)
From S2P Require Import Prelude Velocity Policy Ordered CommitInfo Types Secrets Enforcement SimpleValidator Validator NodeState.

(** ** Sums over channels *)
Definition msum (m : gmap (list Z) Z) : Z := zsum (channel_amounts m).

Abbreviation nonneg_map m := (map_Forall (fun _ z => 0 <= z) m) (only parsing).

Lemma channel_amounts_nonneg (m : gmap (list Z) Z) : nonneg_map m -> Forall (fun z => 0 <= z) (channel_amounts m).
Proof.
  intros Hm. apply Forall_forall. intros z Hz. unfold channel_amounts in Hz.
  apply list_elem_of_fmap in Hz as ([k v] & -> & Hv). apply elem_of_map_to_list in Hv. by apply (Hm k).
Qed.

Lemma msum_nonneg (m : gmap (list Z) Z) : nonneg_map m -> 0 <= msum m.
Proof. intros Hm. apply zsum_nonneg. by apply channel_amounts_nonneg. Qed.

Lemma msum_insert_new (m : gmap (list Z) Z) (k : list Z) (v : Z) :
  m !! k = None -> msum (<[k := v]> m) = v + msum m.
Proof.
  intros Hk. unfold msum, channel_amounts. rewrite (zsum_perm _ ((k, v) :: map_to_list m).*2).
  - done.
  - apply fmap_Permutation. by apply map_to_list_insert.
Qed.

Lemma msum_insert (m : gmap (list Z) Z) (k : list Z) (v : Z) :
  msum (<[k := v]> m) = msum m + v - default 0 (m !! k).
Proof.
  destruct (m !! k) as [w|] eqn:Hk; cbn.
  - rewrite <- (insert_delete_id m k w Hk) at 2. rewrite <- (insert_delete_eq m k v).
    rewrite !msum_insert_new by apply lookup_delete_eq. lia.
  - rewrite msum_insert_new by done. lia.
Qed.

Lemma updated_sum_Ok `{Profile} {E : Type} (m : gmap (list Z) Z) (c : list Z) (v : Z) :
  nonneg_map m -> 0 <= v -> msum m + v < 2 ^ 64 ->
  updated_sum (E:=E) m c v = Ok (msum (<[c := v]> m)).
Proof.
  intros Hm Hv Hb. pose proof (msum_nonneg m Hm) as Hs. unfold updated_sum.
  res_step sum_u64_Ok by first [by apply channel_amounts_nonneg | unfold msum in *; lia].
  fold (msum m). res_step add_u64_Ok by (unfold uint; lia).
  assert (Hc : 0 <= default 0 (m !! c) <= msum m).
  { pose proof (msum_insert m c 0) as H0.
    assert (0 <= msum (<[c := 0]> m)) by (apply msum_nonneg; by apply map_Forall_insert_2).
    destruct (m !! c) as [w|] eqn:Hw; cbn in *; [|lia]. specialize (Hm c w Hw). cbn in Hm. lia. }
  rewrite msum_insert. apply sub_u64_Ok. unfold uint. lia.
Qed.

(** ** Amounts that fit

    In milli-satoshi the amounts of one payment add up to less than [2^64]; all
    bitcoin there will ever be is about [2.1 * 10^18] milli-satoshi. *)
Record payment_fits (p : RoutedPayment) : Prop := {
  fits_incoming : nonneg_map p.(incoming);
  fits_outgoing : nonneg_map p.(outgoing);
  fits_incoming_sum : msum p.(incoming) * 1000 < 2 ^ 64;
  fits_outgoing_sum : msum p.(outgoing) * 1000 < 2 ^ 64
}.

Definition node_fits (s : NodeState) : Prop := map_Forall (fun _ p => payment_fits p) s.(payments).

Lemma new_payment_fits : payment_fits RoutedPayment_new.
Proof. split; [apply map_Forall_empty..|reflexivity|reflexivity]. Qed.
#[export] Hint Resolve new_payment_fits : signer.

Lemma default_payment_fits (s : NodeState) (h : Z) :
  node_fits s -> payment_fits (default RoutedPayment_new (s.(payments) !! h)).
Proof. intros Hs. destruct (payments s !! h) eqn:Hh; cbn; [by apply (Hs h)|apply new_payment_fits]. Qed.

Lemma updated_Ok `{Profile} {E : Type} (p : RoutedPayment) (c : list Z) (i o : Z) :
  payment_fits p -> 0 <= i < 2 ^ 63 -> 0 <= o < 2 ^ 63 ->
  updated_incoming_outgoing (E:=E) p c i o
  = Ok (msum (<[c := i]> p.(incoming)), msum (<[c := o]> p.(outgoing))).
Proof.
  intros [Hi Ho Hbi Hbo] Hri Hro. unfold updated_incoming_outgoing.
  res_step updated_sum_Ok by first [done | lia]. by res_step updated_sum_Ok by first [done | lia].
Qed.

(** ** What the loops of [apply_payments] compute *)
Section Loops.
Context `{Profile} {E : Type}.

Lemma preflight_lookup (s : NodeState) (c : list Z) (ins outs : PaymentMap) (l : list Z)
    (m m' : gmap Z RoutedPayment) (f f' : list Z) :
  fold_res (E:=E) (preflight_payment s c ins outs) (m, f) l = Ok (m', f') ->
  forall h, m' !! h = if decide (h ∈ l) then Some (default RoutedPayment_new (m !! h)) else m !! h.
Proof.
  revert m f. induction l as [|x l IH]; intros m f Hf h; cbn [fold_res] in Hf.
  - injection Hf as <- <-. rewrite decide_False; [done|apply not_elem_of_nil].
  - apply bind_Ok in Hf as ([m1 f1] & Hx & Hf).
    assert (Hm1 : m1 = <[x := default RoutedPayment_new (m !! x)]> m).
    { unfold preflight_payment in Hx. destruct (issued_invoices s !! x); [|by injection Hx as <- <-].
      destruct (is_fulfilled _); [by injection Hx as <- <-|].
      apply bind_Ok in Hx as ([i o] & _ & Hx). apply bind_Ok in Hx as (due & _ & Hx).
      by injection Hx as <- _. }
    specialize (IH _ _ Hf h). rewrite IH, Hm1. destruct (decide (h = x)) as [->|Hne].
    + rewrite lookup_insert_eq, (decide_True (P:= x ∈ x :: l)) by apply list_elem_of_here. cbn.
      by case_decide.
    + rewrite lookup_insert_ne by done. destruct (decide (h ∈ l)) as [Hl|Hl].
      * rewrite decide_True by (by apply list_elem_of_further). done.
      * rewrite decide_False; [done|]. by apply not_elem_of_cons.
Qed.

Lemma preflight_fulfilled_subset (s : NodeState) (c : list Z) (ins outs : PaymentMap) (l : list Z)
    (m m' : gmap Z RoutedPayment) (f f' : list Z) :
  fold_res (E:=E) (preflight_payment s c ins outs) (m, f) l = Ok (m', f') ->
  forall h, h ∈ f' -> h ∈ f \/ h ∈ l.
Proof.
  revert m f. induction l as [|x l IH]; intros m f Hf h Hh; cbn [fold_res] in Hf.
  - injection Hf as <- <-. by left.
  - apply bind_Ok in Hf as ([m1 f1] & Hx & Hf).
    assert (Hf1 : f1 = f \/ f1 = f ++ [x]).
    { unfold preflight_payment in Hx. destruct (issued_invoices s !! x); [|injection Hx as <- <-; by left].
      destruct (is_fulfilled _); [injection Hx as <- <-; by left|].
      apply bind_Ok in Hx as ([i o] & _ & Hx). apply bind_Ok in Hx as (due & _ & Hx).
      injection Hx as _ <-. case_match; auto. }
    destruct (IH _ _ Hf h Hh) as [Hin|Hin]; [|right; by apply list_elem_of_further].
    destruct Hf1 as [->| ->]; [by left|]. apply elem_of_app in Hin as [?|Hin]; [by left|].
    apply list_elem_of_singleton in Hin as ->. right. apply list_elem_of_here.
Qed.

Lemma mark_lookup (l : list Z) (m m' : gmap Z RoutedPayment) :
  fold_res (E:=E) mark_fulfilled m l = Ok m' ->
  forall h, m' !! h = if decide (h ∈ l) then (fun p => with_preimage p (Some 0)) <$> m !! h else m !! h.
Proof.
  revert m. induction l as [|x l IH]; intros m Hf h; cbn [fold_res] in Hf.
  - injection Hf as <-. rewrite decide_False; [done|apply not_elem_of_nil].
  - apply bind_Ok in Hf as (m1 & Hx & Hf). unfold mark_fulfilled in Hx. res_inv.
    rewrite (IH _ Hf h). destruct (decide (h = x)) as [->|Hne].
    + rewrite lookup_insert_eq, (decide_True (P:= x ∈ x :: l)), E0 by apply list_elem_of_here. cbn.
      by case_decide.
    + rewrite lookup_insert_ne by done. destruct (decide (h ∈ l)) as [Hl|Hl].
      * by rewrite decide_True by (by apply list_elem_of_further).
      * rewrite decide_False; [done|]. by apply not_elem_of_cons.
Qed.

Definition applied (c : list Z) (ins outs : PaymentMap) (info : option CommitmentInfo2) (h : Z)
    (p : RoutedPayment) : RoutedPayment :=
  RoutedPayment_apply p c (summary_get ins h) (summary_get outs h) (commit_cltvs info h).1 (commit_cltvs info h).2.

Lemma apply_lookup (c : list Z) (ins outs : PaymentMap) (info : option CommitmentInfo2) (l : list Z)
    (m m' : gmap Z RoutedPayment) :
  NoDup l -> fold_res (E:=E) (apply_payment c ins outs info) m l = Ok m' ->
  forall h, m' !! h = if decide (h ∈ l) then applied c ins outs info h <$> m !! h else m !! h.
Proof.
  intros Hnd. revert m. induction Hnd as [|x l Hx Hnd IH]; intros m Hf h; cbn [fold_res] in Hf.
  - injection Hf as <-. rewrite decide_False; [done|apply not_elem_of_nil].
  - apply bind_Ok in Hf as (m1 & Hm1 & Hf). unfold apply_payment in Hm1.
    apply bind_Ok in Hm1 as (p & Hp & Hm1). rewrite unwrap_Ok in Hp.
    assert (Hm : m1 = <[x := applied c ins outs info x p]> m).
    { unfold applied. destruct (commit_cltvs info x). by injection Hm1 as <-. }
    rewrite (IH _ Hf h), Hm. destruct (decide (h = x)) as [->|Hne].
    + rewrite decide_False by done. rewrite lookup_insert_eq, decide_True, Hp by apply list_elem_of_here. done.
    + rewrite lookup_insert_ne by done. destruct (decide (h ∈ l)) as [Hl|Hl].
      * by rewrite decide_True by (by apply list_elem_of_further).
      * rewrite decide_False; [done|]. by apply not_elem_of_cons.
Qed.
End Loops.

Section Payments.
Context `{Profile} {V : Type} `{Validator V} (v : V) (set_iter : gset Z -> list Z).
Context (set_iter_spec : forall s, set_iter s ≡ₚ elements s).

Lemma summary_hashes_NoDup (ins outs : PaymentMap) : NoDup (summary_hashes set_iter ins outs).
Proof. unfold summary_hashes. rewrite set_iter_spec. apply NoDup_elements. Qed.

Lemma elem_of_summary_hashes (ins outs : PaymentMap) (h : Z) :
  h ∈ summary_hashes set_iter ins outs <-> is_Some (ins !! h) \/ is_Some (outs !! h).
Proof.
  unfold summary_hashes. rewrite set_iter_spec, elem_of_elements, elem_of_union, !elem_of_dom. done.
Qed.

(** The payments after [apply_payments]: the amounts of this channel replaced
    for the hashes of the summaries, everything else as it was. *)
Lemma apply_payments_spec {E : Type} (s s' : NodeState) (c : list Z) (ins outs : PaymentMap)
    (d : BalanceDelta) (info : option CommitmentInfo2) :
  apply_payments (E:=E) v set_iter s c ins outs d info = Ok s' ->
  s'.(invoices) = s.(invoices) /\
  (forall h, h ∉ summary_hashes set_iter ins outs -> s'.(payments) !! h = s.(payments) !! h) /\
  (forall h, h ∈ summary_hashes set_iter ins outs ->
     exists p', s'.(payments) !! h = Some p' /\
       let p := default RoutedPayment_new (s.(payments) !! h) in
       p'.(incoming) = <[c := summary_get ins h]> p.(incoming) /\
       p'.(outgoing) = <[c := summary_get outs h]> p.(outgoing) /\
       (is_Some p.(preimage) -> is_Some p'.(preimage))).
Proof.
  unfold apply_payments. intros Ha. apply bind_Ok in Ha as ([m1 f1] & Hpre & Ha).
  apply bind_Ok in Ha as ([m2 ex] & Hm2 & Ha). apply bind_Ok in Ha as (m3 & Hm3 & Ha). injection Ha as <-.
  pose proof (preflight_lookup _ _ _ _ _ _ _ _ _ Hpre) as L1.
  pose proof (apply_lookup _ _ _ _ _ _ _ (summary_hashes_NoDup ins outs) Hm3) as L3.
  assert (L2 : forall h, m2 !! h = m1 !! h \/
                 m2 !! h = (fun p => with_preimage p (Some 0)) <$> m1 !! h /\ h ∈ f1).
  { destruct (v_enforce_balance v); [|injection Hm2 as <- <-; by left].
    apply bind_Ok in Hm2 as (t & _ & Hm2). apply bind_Ok in Hm2 as (e & _ & Hm2).
    apply bind_Ok in Hm2 as (m & Hm & Hm2). injection Hm2 as <- <-. intros h.
    rewrite (mark_lookup _ _ _ Hm h). case_decide; auto. }
  pose proof (preflight_fulfilled_subset _ _ _ _ _ _ _ _ _ Hpre) as Hf1.
  split; [done|]. split; intros h Hh; cbn [payments with_payments].
  - rewrite L3, decide_False by done. destruct (L2 h) as [->|[_ Hin]].
    + by rewrite L1, decide_False by done.
    + apply Hf1 in Hin as [?|?]; [by apply not_elem_of_nil in H1|done].
  - rewrite L3, decide_True by done. specialize (L1 h). rewrite decide_True in L1 by done.
    destruct (L2 h) as [->|[-> _]]; rewrite L1; eexists; (split; [reflexivity|]); cbn; split_and!; done.
Qed.

(** Each hash of an accepted commitment passed the balance check, or is a
    payment already known for which there is no invoice. *)
Lemma validate_payment_step (s : NodeState) (c : list Z) (ins outs : PaymentMap) (acc acc' : list Z) (h : Z) :
  validate_payment v s c ins outs acc h = Ok acc' ->
  acc' = acc ++ [h] \/
  acc' = acc /\
  (is_Some (s.(payments) !! h) /\ s.(invoices) !! h = None \/
   exists i o im om,
     match s.(payments) !! h with
     | Some p => updated_incoming_outgoing p c (summary_get ins h) (summary_get outs h)
     | None => Ok (summary_get ins h, summary_get outs h)
     end = @Ok ValidationError _ (i, o) /\
     mul_u64 i 1000 = @Ok ValidationError _ im /\ mul_u64 o 1000 = @Ok ValidationError _ om /\
     v_validate_payment_balance v im om (amount_msat <$> s.(invoices) !! h) = Ok tt).
Proof.
  unfold validate_payment. intros Hv. apply bind_Ok in Hv as ([i o] & Hio & Hv).
  apply bind_Ok in Hv as (im & Him & Hv). apply bind_Ok in Hv as (om & Hom & Hv).
  destruct (v_validate_payment_balance v im om _) as [[]|e|] eqn:Hb; [|destruct (_ && _) eqn:Hex|done].
  - injection Hv as <-. right. split; [done|]. right. exists i, o, im, om. split_and!; try done.
    destruct (payments s !! h) as [p|]; [|done]. by apply bind_Ok in Hio as (? & _ & Hio).
  - injection Hv as <-. right. split; [done|]. left. apply andb_true_iff in Hex as [H1 H2].
    apply bool_decide_eq_true in H1, H2. split; [done|]. by destruct (invoices s !! h).
  - injection Hv as <-. by left.
Qed.

Lemma validate_fold (s : NodeState) (c : list Z) (ins outs : PaymentMap) (l acc : list Z) :
  fold_res (validate_payment v s c ins outs) acc l = Ok [] ->
  acc = [] /\ forall h, h ∈ l -> validate_payment v s c ins outs [] h = Ok [].
Proof.
  revert acc. induction l as [|x l IH]; intros acc Hf; cbn [fold_res] in Hf.
  - injection Hf as ->. split; [done|]. intros h Hh. by apply not_elem_of_nil in Hh.
  - apply bind_Ok in Hf as (acc1 & Hx & Hf). destruct (IH _ Hf) as [-> Hall].
    destruct (validate_payment_step _ _ _ _ _ _ _ Hx) as [Heq|[<- _]].
    + by destruct acc.
    + split; [done|]. intros h [->|Hh]%elem_of_cons; auto.
Qed.
End Payments.

(** ** Payments stay covered *)

(** What a payment sends is covered by what it receives plus the invoice, if
    there is one, and the fee allowance. *)
Definition covered (fee : Z) (invoice : option PaymentState) (p : RoutedPayment) : Prop :=
  msum p.(outgoing) * 1000
  <= msum p.(incoming) * 1000 + match invoice with Some i => i.(amount_msat) + fee | None => 0 end.

(** Every invoice has a payment, and that payment is covered. *)
Definition invoices_covered (fee : Z) (s : NodeState) : Prop :=
  forall h i, s.(invoices) !! h = Some i ->
    0 <= i.(amount_msat) /\ exists p, s.(payments) !! h = Some p /\ covered fee (Some i) p.

Lemma insert_part (m : gmap (list Z) Z) (c : list Z) (z : Z) :
  nonneg_map (<[c := z]> m) -> 0 <= z <= msum (<[c := z]> m).
Proof.
  intros Hm. pose proof (Hm c z (lookup_insert_eq _ _ _)) as Hz. cbn in Hz.
  rewrite <- insert_delete_eq in Hm |- *. rewrite msum_insert_new by apply lookup_delete_eq.
  pose proof (msum_nonneg (delete c m)) as Hd. split; [done|].
  assert (nonneg_map (delete c m)); [|specialize (Hd H); lia].
  intros k w Hk. apply (Hm k). rewrite lookup_insert_ne; [done|].
  intros ->. by rewrite lookup_delete_eq in Hk.
Qed.

Section Safety.
Context `{Profile} {V : Type} `{HV : Validator V} {fsk : SecretKey -> PublicKey}.
Context {L : ValidatorLaws V fsk} (v : V) (Hstrict : v_strict v).
Context (set_iter : gset Z -> list Z) (set_iter_spec : forall s, set_iter s ≡ₚ elements s).

(** A commitment that is validated and applied leaves each of its payments
    covered, except one that was known before and has no invoice. *)
Lemma validated_covered {E : Type} (s s' : NodeState) (c : list Z) (ins outs : PaymentMap)
    (d : BalanceDelta) (info : option CommitmentInfo2) (h : Z) :
  node_fits s -> node_fits s' -> (forall i, s.(invoices) !! h = Some i -> 0 <= i.(amount_msat)) ->
  validate_payments v set_iter s c ins outs d = Ok tt ->
  apply_payments (E:=E) v set_iter s c ins outs d info = Ok s' ->
  h ∈ summary_hashes set_iter ins outs ->
  exists p', s'.(payments) !! h = Some p' /\
    (is_Some (s.(payments) !! h) /\ s.(invoices) !! h = None \/
     covered (v_max_routing_fee v) (s.(invoices) !! h) p').
Proof.
  intros Hfit Hfit' Hamt Hv Ha Hh.
  destruct (apply_payments_spec v set_iter set_iter_spec _ _ _ _ _ _ _ Ha) as (_ & _ & Hp).
  destruct (Hp h Hh) as (p' & Hp' & Hin & Hout & _). exists p'. split; [done|].
  apply bind_Ok in Hv as (unb & Hf & Hv). apply bind_Ok in Hv as ([] & Hunb & _).
  assert (unb = []) as ->.
  { destruct (bool_decide_reflect (unb = [])); [done|]. cbn [negb when] in Hunb. by apply v_strict_error in Hunb. }
  destruct (validate_fold v s c ins outs _ _ Hf) as [_ Hall].
  destruct (validate_payment_step _ _ _ _ _ _ _ _ (Hall h Hh)) as [?|[_ [Hex|Hb]]]; [done|by left|].
  right. destruct Hb as (i & o & im & om & Hio & Him & Hom & Hbal).
  destruct (Hfit' h p' Hp') as [F1 F2 F3 F4].
  assert (Heq : i = msum p'.(incoming) /\ o = msum p'.(outgoing)).
  { rewrite Hin in F1, F3 |- *. rewrite Hout in F2, F4 |- *.
    pose proof (insert_part _ _ _ F1) as P1. pose proof (insert_part _ _ _ F2) as P2.
    destruct (payments s !! h) as [p|] eqn:Hph; cbn [default] in *.
    - rewrite updated_Ok in Hio; [|by apply (Hfit h)|lia|lia]. by injection Hio as <- <-.
    - injection Hio as <- <-. cbn [RoutedPayment_new incoming outgoing].
      rewrite !msum_insert, !lookup_empty. cbn. change (msum ∅) with 0. lia. }
  destruct Heq as [-> ->]. pose proof (msum_nonneg _ F1). pose proof (msum_nonneg _ F2).
  rewrite mul_u64_Ok in Him, Hom by (unfold uint; lia). injection Him as <-. injection Hom as <-.
  apply v_payment_bound in Hbal; [|done|lia|].
  - unfold covered. destruct (invoices s !! h); cbn in Hbal |- *; lia.
  - intros a Ha'. destruct (invoices s !! h) as [pi|] eqn:Hi; [|done]. injection Ha' as <-. by apply Hamt.
Qed.
End Safety.

(** ** Pruning *)
Section Prune.
Context `{Profile} {E : Type} (tw : bool).

Lemma retain_fold {A : Type} (keep : Z -> A -> res E bool) (l : list (Z * A)) (m m' : gmap Z A) :
  NoDup l.*1 ->
  fold_res (fun m' '(k, a) => b ← keep k a; Ok (if b : bool then m' else delete k m')) m l = Ok m' ->
  (forall k, k ∉ l.*1 -> m' !! k = m !! k) /\
  (forall k a, (k, a) ∈ l -> exists b, keep k a = Ok b /\ m' !! k = if b : bool then m !! k else None).
Proof.
  revert m. induction l as [|[x a] l IH]; intros m Hnd Hf; cbn [fold_res] in Hf.
  - injection Hf as <-. split; [done|]. intros k a Hk. by apply not_elem_of_nil in Hk.
  - apply NoDup_cons in Hnd as [Hx Hnd]. apply bind_Ok in Hf as (m1 & Hb & Hf).
    apply bind_Ok in Hb as (b & Hb & Hm1). injection Hm1 as <-. destruct (IH _ Hnd Hf) as [IH1 IH2].
    assert (Hne : forall k, k <> x -> (if b then m else delete x m) !! k = m !! k).
    { intros k Hk. destruct b; [done|]. by apply lookup_delete_ne. }
    split.
    + intros k [Hk1 Hk2]%not_elem_of_cons. rewrite IH1 by done. by apply Hne.
    + intros k a' [Heq|Hk]%elem_of_cons.
      * injection Heq as -> ->. exists b. split; [done|]. rewrite IH1 by done.
        destruct b; [done|]. apply lookup_delete_eq.
      * destruct (IH2 k a' Hk) as (b' & Hb' & Hm'). exists b'. split; [done|]. rewrite Hm', Hne; [done|].
        intros ->. apply Hx. apply list_elem_of_fmap. by exists (x, a').
Qed.

Lemma retain_spec {A : Type} (keep : Z -> A -> res E bool) (m m' : gmap Z A) :
  retain keep m = Ok m' ->
  (forall k, m !! k = None -> m' !! k = None) /\
  (forall k a, m !! k = Some a -> exists b, keep k a = Ok b /\ m' !! k = if b : bool then Some a else None).
Proof.
  intros Hr. destruct (retain_fold _ _ _ _ (NoDup_fst_map_to_list m) Hr) as [H1 H2]. split.
  - intros k Hk. rewrite H1; [done|]. intros ([k' a] & -> & Hin)%list_elem_of_fmap.
    apply elem_of_map_to_list in Hin. cbn in Hk. congruence.
  - intros k a Hk. rewrite <- Hk. apply H2. by apply elem_of_map_to_list.
Qed.

(** A test that returns on every entry lets [retain] return. *)
Lemma retain_total {A : Type} (keep : Z -> A -> res E bool) (m : gmap Z A) :
  (forall k a, m !! k = Some a -> exists b, keep k a = Ok b) -> exists m', retain keep m = Ok m'.
Proof.
  intros Hk. unfold retain.
  assert (Hl : forall k a, (k, a) ∈ map_to_list m -> exists b, keep k a = Ok b).
  { intros k a Hin. apply Hk. by apply elem_of_map_to_list. }
  revert Hl. generalize m at 2 as m0. generalize (map_to_list m) as l.
  induction l as [|[k a] l IH]; intros m0 Hl; cbn [fold_res]; [by eexists|].
  destruct (Hl k a (list_elem_of_here _ _)) as [b ->]. cbn [mbind res_bind]. apply IH.
  intros k' a' Hin. apply Hl. by apply list_elem_of_further.
Qed.

Lemma elem_of_if_add (b : bool) (x h : Z) (acc : gset Z) :
  h ∈ (if b then {[x]} ∪ acc else acc) <-> h ∈ acc \/ b = true /\ h = x.
Proof. destruct b; [rewrite elem_of_union, elem_of_singleton|]; intuition congruence. Qed.

Lemma prunable_fold (s : NodeState) (now : Z) (l : list (Z * PaymentState)) (acc prune : gset Z) :
  NoDup l.*1 -> (forall h, h ∈ acc -> h ∉ l.*1) ->
  fold_res (fun prune '(hash, state) =>
    payment ← unwrap (s.(payments) !! hash);
    b ← is_invoice_prunable (E:=E) tw now state payment;
    Ok (if b : bool then {[hash]} ∪ prune else prune)) acc l = Ok prune ->
  (forall h, h ∉ l.*1 -> h ∈ prune <-> h ∈ acc) /\
  (forall h i, (h, i) ∈ l -> exists p b, s.(payments) !! h = Some p /\
     is_invoice_prunable (E:=E) tw now i p = Ok b /\ (h ∈ prune <-> b = true)).
Proof.
  revert acc. induction l as [|[x i] l IH]; intros acc Hnd Hacc Hf; cbn [fold_res] in Hf.
  - injection Hf as <-. split; [done|]. intros h i Hk. by apply not_elem_of_nil in Hk.
  - apply NoDup_cons in Hnd as [Hx Hnd]. apply bind_Ok in Hf as (acc1 & Hb & Hf).
    apply bind_Ok in Hb as (p & Hp & Hb). rewrite unwrap_Ok in Hp. apply bind_Ok in Hb as (b & Hb & Ha).
    injection Ha as <-. destruct (IH (if b then {[x]} ∪ acc else acc) Hnd) as [IH1 IH2]; [|done|].
    { intros h [Hin|[_ ->]]%elem_of_if_add; [|done]. intros Hl. apply (Hacc h Hin). by apply list_elem_of_further. }
    assert (Hxa : x ∉ acc) by (intros Hin; apply (Hacc x Hin), list_elem_of_here). split.
    + intros h [Hne Hl]%not_elem_of_cons. rewrite IH1, elem_of_if_add by done. intuition congruence.
    + intros h i' [Heq|Hin]%elem_of_cons; [|by apply IH2]. injection Heq as -> ->.
      exists p, b. split_and!; try done. rewrite IH1, elem_of_if_add by done. intuition congruence.
Qed.

(** The invoices that [prune_invoices] drops, with their payments. *)
Lemma prune_invoices_spec (s s' : NodeState) (now : Z) (b : bool) :
  prune_invoices (E:=E) tw s now = Ok (b, s') ->
  exists prune : gset Z,
    (forall h, s'.(invoices) !! h = if decide (h ∈ prune) then None else s.(invoices) !! h) /\
    (forall h, s'.(payments) !! h = if decide (h ∈ prune) then None else s.(payments) !! h) /\
    (forall h, h ∈ prune -> exists i p, s.(invoices) !! h = Some i /\ s.(payments) !! h = Some p /\
       is_invoice_prunable (E:=E) tw now i p = Ok true).
Proof.
  intros Hp. apply bind_Ok in Hp as (prune & Hpr & Hp). injection Hp as _ <-. exists prune.
  assert (Hfil : forall (A : Type) (m : gmap Z A) (h : Z),
            filter (fun kv => kv.1 ∉ prune) m !! h = if decide (h ∈ prune) then None else m !! h).
  { intros A m h. rewrite map_lookup_filter. destruct (m !! h) as [a|]; cbn; repeat case_guard; try done;
      by case_decide. }
  split; [apply Hfil|]. split; [apply Hfil|]. intros h Hh.
  destruct (prunable_fold s now _ _ _ (NoDup_fst_map_to_list (invoices s))
              (fun h Hin => match not_elem_of_empty h Hin with end) Hpr) as [H1 H2].
  destruct (decide (h ∈ (map_to_list (invoices s)).*1)) as [Hl|Hl].
  - apply list_elem_of_fmap in Hl as ([h' i] & -> & Hin). cbn in *.
    destruct (H2 _ _ Hin) as (p & b' & Hpp & Hb' & Hiff). apply elem_of_map_to_list in Hin.
    exists i, p. split_and!; try done. by rewrite Hb', (proj1 Hiff Hh).
  - apply H1 in Hh; [|done]. by apply not_elem_of_empty in Hh.
Qed.
End Prune.

(** ** Histories of the node state *)
Section History.
Context `{Profile} {V P I : Type} `{HV : Validator V} `{Policy P} `{InvoiceAttributes I}.
Context {fsk : SecretKey -> PublicKey} {L : ValidatorLaws V fsk} (v : V) (policy : P).
Context (set_iter : gset Z -> list Z) (hash_preimage : Z -> Z) (tw : bool).

(** One operation.  A commitment is validated before it is applied, as in
    [Channel], and its amounts fit.  An invoice is added before the first payment
    with its hash, and its amount is unsigned. *)
Inductive node_step : NodeState -> NodeState -> Prop :=
| step_commitment (s s' : NodeState) (c : list Z) (ins outs : PaymentMap) (d : BalanceDelta)
    (info : option CommitmentInfo2) :
    validate_payments v set_iter s c ins outs d = Ok tt ->
    apply_payments (E:=Status) v set_iter s c ins outs d info = Ok s' ->
    node_fits s' -> node_step s s'
| step_preimage (s s' : NodeState) (pre : Z) (b : bool) :
    htlc_fulfilled (E:=Status) v hash_preimage s pre = Ok (b, s') -> node_step s s'
| step_invoice (s s' : NodeState) (invoice : I) (now : Z) (b : bool) :
    0 <= inv_amount_milli_satoshis invoice ->
    (s.(invoices) !! inv_payment_hash invoice = None -> s.(payments) !! inv_payment_hash invoice = None) ->
    add_invoice v policy tw s invoice now = Ok (b, s') -> node_step s s'
| step_keysend (s s' : NodeState) (payee : PublicKey) (hash amount now now' : Z) (b : bool) :
    0 <= amount -> (s.(invoices) !! hash = None -> s.(payments) !! hash = None) ->
    add_keysend policy s payee hash amount now now' = Ok (b, s') -> node_step s s'
| step_issue (s s' : NodeState) (signed : res Status (I * Signature)) (sig : Signature) :
    sign_bolt11_invoice policy s signed = Ok (sig, s') -> node_step s s'
| step_heartbeat (s s' : NodeState) (now : Z) (b : bool) :
    heartbeat_prune (E:=Status) tw s now = Ok (b, s') -> node_step s s'.

(** The invariant. *)
Definition node_ok (s : NodeState) : Prop := node_fits s /\ invoices_covered (v_max_routing_fee v) s.

Lemma node_ok_new (vc fvc : VelocityControl) (l : list Allowable) : node_ok (NodeState_new vc fvc l).
Proof. split; [apply map_Forall_empty|]. intros h i Hi. cbn in Hi. by rewrite lookup_empty in Hi. Qed.

(** Operations that leave invoices, payments and amounts alone keep it. *)
Lemma node_ok_same (s s' : NodeState) :
  s'.(invoices) = s.(invoices) -> s'.(payments) = s.(payments) -> node_ok s -> node_ok s'.
Proof. intros Hi Hp [Hf Hc]. unfold node_ok, node_fits, invoices_covered. by rewrite Hi, Hp. Qed.

Lemma htlc_fulfilled_payments {E : Type} (s s' : NodeState) (pre : Z) (b : bool) :
  htlc_fulfilled (E:=E) v hash_preimage s pre = Ok (b, s') ->
  s'.(invoices) = s.(invoices) /\
  (s'.(payments) = s.(payments) \/
   exists p, s.(payments) !! hash_preimage pre = Some p /\ p.(preimage) = None /\
     s'.(payments) = <[hash_preimage pre := with_preimage p (Some pre)]> s.(payments)).
Proof.
  unfold htlc_fulfilled. intros Hf.
  assert (Hs1 : forall issued, (with_issued s issued).(payments) = s.(payments)) by done.
  destruct (match issued_invoices s !! hash_preimage pre with Some i => _ | None => _ end) as [f issued].
  rewrite Hs1 in Hf. destruct (payments s !! hash_preimage pre) as [p|] eqn:Hp.
  - case_bool_decide as Hpre; [injection Hf as _ <-; split; [done|by left]|].
    apply bind_Ok in Hf as ([i o] & _ & Hf). apply bind_Ok in Hf as (ex & _ & Hf). injection Hf as _ <-.
    split; [done|]. right. exists p. split_and!; try done. by apply eq_None_not_Some.
  - injection Hf as _ <-. split; [done|by left].
Qed.

Lemma add_payment_state_cases (s s' : NodeState) (hash ih now : Z) (ps : PaymentState) (b : bool) :
  add_payment_state policy s hash ih now ps = Ok (b, s') ->
  s'.(invoices) = s.(invoices) /\ s'.(payments) = s.(payments) \/
  b = true /\ s.(invoices) !! hash = None /\ Z.of_nat (size s.(invoices)) < Policy_max_invoices policy /\
  s'.(invoices) = <[hash := ps]> s.(invoices) /\
  s'.(payments) = <[hash := default RoutedPayment_new (s.(payments) !! hash)]> s.(payments).
Proof.
  unfold add_payment_state. destruct (Z.leb_spec (Policy_max_invoices policy) (Z.of_nat (size (invoices s)))); [done|].
  destruct (invoices s !! hash) as [i|] eqn:Hi.
  - destruct (_ =? _); [|done]. intros [= _ <-]. by left.
  - intros Hv. apply bind_Ok in Hv as ([ok vc] & _ & Hv). destruct ok; injection Hv as <- <-; [right|by left].
    split_and!; done.
Qed.

Lemma add_payment_state_ok (s s' : NodeState) (hash ih now : Z) (ps : PaymentState) (b : bool) :
  v_strict v -> 0 <= ps.(amount_msat) ->
  (s.(invoices) !! hash = None -> s.(payments) !! hash = None) ->
  add_payment_state policy s hash ih now ps = Ok (b, s') -> node_ok s -> node_ok s'.
Proof.
  intros Hs Hamt Hfresh Ha Hok. destruct (add_payment_state_cases _ _ _ _ _ _ _ Ha) as [[Hi Hp]|Hnew].
  - by apply (node_ok_same s).
  - destruct Hnew as (_ & Hnone & _ & Hi & Hp). rewrite (Hfresh Hnone) in Hp. cbn in Hp.
    destruct Hok as [Hf Hc]. split.
    + unfold node_fits. rewrite Hp. apply map_Forall_insert_2; [apply new_payment_fits|done].
    + intros h i. rewrite Hi, Hp. destruct (decide (h = hash)) as [->|Hne].
      * rewrite !lookup_insert_eq. intros [= <-]. split; [done|]. eexists. split; [done|].
        unfold covered. cbn. pose proof (v_max_routing_fee_nonneg v Hs). change (msum ∅) with 0. lia.
      * rewrite !lookup_insert_ne by done. apply Hc.
Qed.
Lemma heartbeat_ok (s s' : NodeState) (now : Z) (b : bool) :
  heartbeat_prune (E:=Status) tw s now = Ok (b, s') -> node_ok s -> node_ok s'.
Proof.
  intros Hh [Hf Hc]. apply bind_Ok in Hh as ([b1 s1] & P1 & Hh). apply bind_Ok in Hh as ([b2 s2] & P2 & Hh).
  apply bind_Ok in Hh as ([b3 s3] & P3 & Hh). injection Hh as _ <-.
  destruct (prune_invoices_spec _ _ _ _ _ P1) as (prune & Hi & Hp & _).
  apply bind_Ok in P2 as (m2 & _ & P2). injection P2 as _ <-.
  apply bind_Ok in P3 as (m3 & P3 & P3'). injection P3' as _ <-.
  destruct (retain_spec _ _ _ P3) as [R1 R2]. cbn [payments with_issued invoices] in *. split.
  - intros h p Hlk. cbn in Hlk. destruct (payments s1 !! h) as [q|] eqn:Hq; [|by rewrite R1 in Hlk].
    destruct (R2 h q Hq) as (k & _ & Hk). rewrite Hk in Hlk. destruct k; [|done]. injection Hlk as <-.
    rewrite Hp in Hq. case_decide; [done|]. by apply (Hf h).
  - intros h i Hlk. cbn [invoices payments with_payments with_issued] in *. assert (Hlk1 := Hlk).
    rewrite Hi in Hlk1. case_decide as Hd; [done|].
    destruct (Hc h i Hlk1) as (Ha & p & Hpp & Hcov). split; [done|]. exists p. split; [|done].
    assert (Hq : payments s1 !! h = Some p) by (by rewrite Hp, decide_False).
    destruct (R2 h p Hq) as (k & Hk & Hm). unfold is_forwarded_payment_prunable in Hk.
    cbn [invoices with_issued] in Hk. rewrite Hlk in Hk. rewrite bool_decide_false in Hk by done.
    cbn in Hk. injection Hk as <-. by rewrite Hm.
Qed.

Lemma commitment_ok (Hstrict : v_strict v) (set_iter_spec : forall s, set_iter s ≡ₚ elements s)
    (s s' : NodeState) (c : list Z) (ins outs : PaymentMap) (d : BalanceDelta)
    (info : option CommitmentInfo2) :
  validate_payments v set_iter s c ins outs d = Ok tt ->
  apply_payments (E:=Status) v set_iter s c ins outs d info = Ok s' ->
  node_fits s' -> node_ok s -> node_ok s'.
Proof.
  intros Hv Ha Hfit' [Hfit Hc]. split; [done|].
  destruct (apply_payments_spec v set_iter set_iter_spec _ _ _ _ _ _ _ Ha) as (Hi & Hout & _).
  intros h i Hlk. rewrite Hi in Hlk. destruct (Hc h i Hlk) as (Hamt & p & Hp & Hcov). split; [done|].
  destruct (decide (h ∈ summary_hashes set_iter ins outs)) as [Hin|Hin].
  - destruct (validated_covered (E:=Status) v Hstrict set_iter set_iter_spec s s' c ins outs d info h) as (p' & Hp' & Hor);
      try done; [by rewrite Hlk; intros ? [= <-]|].
    exists p'. split; [done|]. destruct Hor as [[_ Hnone]|Hcov']; [congruence|]. by rewrite Hlk in Hcov'.
  - exists p. by rewrite Hout.
Qed.

Lemma node_step_ok (Hstrict : v_strict v) (set_iter_spec : forall s, set_iter s ≡ₚ elements s)
    (s s' : NodeState) : node_step s s' -> node_ok s -> node_ok s'.
Proof.
  intros Hstep Hok. destruct Hstep as [s s' c ins outs d info Hv Ha Hfit|s s' pre b Hf|s s' invoice now b Hamt Hfr Ha
    |s s' payee hash amount now now' b Hamt Hfr Ha|s s' signed sig Hs|s s' now b Hh].
  - by apply (commitment_ok Hstrict set_iter_spec s s' c ins outs d info).
  - destruct (htlc_fulfilled_payments _ _ _ _ Hf) as [Hi [Hp|(p & Hp & _ & Hp')]]; [by apply (node_ok_same s)|].
    destruct Hok as [Hfit Hc]. split.
    + unfold node_fits. rewrite Hp'. apply map_Forall_insert_2; [|done]. destruct (Hfit _ _ Hp). by split.
    + intros h i Hlk. rewrite Hi in Hlk. destruct (Hc h i Hlk) as (Hamt & q & Hq & Hcov). split; [done|].
      rewrite Hp'. destruct (decide (h = hash_preimage pre)) as [->|Hne].
      * rewrite lookup_insert_eq. eexists. split; [done|]. by simplify_eq.
      * rewrite lookup_insert_ne by done. by exists q.
  - apply bind_Ok in Ha as ([] & _ & Ha). by eapply add_payment_state_ok; [..|exact Ha|].
  - by eapply add_payment_state_ok; [..|exact Ha|].
  - apply bind_Ok in Hs as ([iv sg] & _ & Hs). apply bind_Ok in Hs as (s1 & Hs1 & Hs). injection Hs as _ <-.
    unfold track_issued_invoice in Hs1.
    repeat (case_match; try done); injection Hs1 as <-; by apply (node_ok_same s).
  - by eapply heartbeat_ok.
Qed.
End History.

(** ** Restarts *)
Lemma collect_map_lookup {A : Type} (l : list (Z * A)) (m : gmap Z A) (k : Z) :
  foldl (fun m '(k, a) => <[k := a]> m) m l !! k = None <-> m !! k = None /\ k ∉ l.*1.
Proof.
  revert m. induction l as [|[x a] l IH]; intros m; cbn.
  - split; [|tauto]. intros. split; [done|apply not_elem_of_nil].
  - rewrite IH, not_elem_of_cons. destruct (decide (k = x)) as [->|Hne].
    + rewrite lookup_insert_eq. intuition congruence.
    + rewrite lookup_insert_ne by done. tauto.
Qed.

Lemma collect_map_to_list {A : Type} (m : gmap Z A) (k : Z) :
  collect_map (map_to_list m) !! k = None <-> m !! k = None.
Proof.
  unfold collect_map. rewrite collect_map_lookup, lookup_empty. split.
  - intros [_ Hk]. destruct (m !! k) as [a|] eqn:Ha; [|done]. exfalso. apply Hk.
    apply list_elem_of_fmap. exists (k, a). split; [done|]. by apply elem_of_map_to_list.
  - intros Hk. split; [done|]. intros ([k' a] & -> & Hin)%list_elem_of_fmap.
    apply elem_of_map_to_list in Hin. cbn in Hk. congruence.
Qed.

Lemma reset_lookup (l : list Z) (m : gmap Z RoutedPayment) (h : Z) :
  foldl (fun m h => <[h := RoutedPayment_new]> m) m l !! h
  = if decide (h ∈ l) then Some RoutedPayment_new else m !! h.
Proof.
  revert m. induction l as [|x l IH]; intros m; cbn.
  - rewrite decide_False; [done|apply not_elem_of_nil].
  - rewrite IH. destruct (decide (h ∈ l)) as [Hl|Hl].
    + by rewrite decide_True by (by apply list_elem_of_further).
    + destruct (decide (h = x)) as [->|Hne].
      * by rewrite lookup_insert_eq, decide_True by apply list_elem_of_here.
      * rewrite lookup_insert_ne by done. rewrite decide_False; [done|]. by apply not_elem_of_cons.
Qed.

(** The payments that [restore] makes all hold a preimage. *)
Lemma restored_preimage (hash_preimage : Z -> Z) (l : list Z) (m : gmap Z RoutedPayment) (h : Z) :
  (forall p, m !! h = Some p -> is_Some p.(preimage)) ->
  forall p, foldl (fun m '(k, a) => <[k := a]> m) m
              ((fun p => (hash_preimage p, with_preimage RoutedPayment_new (Some p))) <$> l) !! h = Some p ->
    is_Some p.(preimage).
Proof.
  revert m. induction l as [|x l IH]; intros m Hm; cbn; [done|]. apply IH. intros p.
  destruct (decide (h = hash_preimage x)) as [->|Hne].
  - rewrite lookup_insert_eq. intros [= <-]. by eexists.
  - rewrite lookup_insert_ne by done. apply Hm.
Qed.

Lemma restart_has_preimage (hash_preimage : Z -> Z) (s : NodeState) (l : list Allowable) (h : Z) :
  has_preimage (restart hash_preimage s l) h = true <->
  s.(invoices) !! h = None /\
  exists pre, pre ∈ omap preimage (map_to_list s.(payments)).*2 /\ hash_preimage pre = h.
Proof.
  unfold has_preimage, NodeState_preimages, restart, restore_node_state, get_node_state, NodeState_restore.
  cbn [payments with_payments with_allowlist invoices NodeStateEntry_from e_invoices e_preimages].
  rewrite reset_lookup. set (pres := omap preimage _). set (rest := collect_map (_ <$> pres)).
  assert (Hinv : h ∈ (map_to_list (collect_map (map_to_list s.(invoices)))).*1 <-> s.(invoices) !! h <> None).
  { rewrite <- collect_map_to_list. destruct (collect_map _ !! h) as [i|] eqn:Hi.
    - split; [done|]. intros _. apply list_elem_of_fmap. exists (h, i). split; [done|].
      by apply elem_of_map_to_list.
    - split; [|done]. intros ([h' i] & -> & Hin)%list_elem_of_fmap.
      apply elem_of_map_to_list in Hin. cbn in Hi. congruence. }
  destruct (decide (h ∈ _)) as [Hl|Hl].
  - cbn. apply Hinv in Hl. intuition congruence.
  - assert (invoices s !! h = None) as -> by (apply dec_stable; tauto).
    destruct (rest !! h) as [p|] eqn:Hp.
    + assert (is_Some p.(preimage)) as Hpre.
      { eapply (restored_preimage hash_preimage pres ∅ h); [|exact Hp]. intros q Hq. by rewrite lookup_empty in Hq. }
      rewrite bool_decide_true by done. split; [|done]. intros _. split; [done|].
      destruct (decide (h ∈ hash_preimage <$> pres)) as [Hin|Hin].
      * apply list_elem_of_fmap in Hin as (pre & -> & Hin). by exists pre.
      * exfalso. assert (rest !! h = None); [|congruence]. apply collect_map_lookup.
        split; [by rewrite lookup_empty|]. by rewrite <- list_fmap_compose.
    + split; [done|]. intros (_ & pre & Hin & <-). apply collect_map_lookup in Hp as [_ Hp].
      exfalso. apply Hp. rewrite <- list_fmap_compose. apply list_elem_of_fmap. by exists pre.
Qed.

(** ** What a heartbeat keeps *)
Section Heartbeat.
Context `{Profile} {E : Type} (tw : bool).

Lemma is_no_outgoing_Ok (p : RoutedPayment) :
  payment_fits p -> is_no_outgoing (E:=E) p = Ok (msum p.(outgoing) =? 0).
Proof.
  intros [_ Ho _ Hb]. pose proof (msum_nonneg _ Ho). unfold is_no_outgoing.
  by res_step sum_u64_Ok by first [by apply channel_amounts_nonneg | unfold msum in *; lia].
Qed.

Lemma is_no_incoming_Ok (p : RoutedPayment) :
  payment_fits p -> is_no_incoming (E:=E) p = Ok (msum p.(incoming) =? 0).
Proof.
  intros [Ho _ Hb _]. pose proof (msum_nonneg _ Ho). unfold is_no_incoming.
  by res_step sum_u64_Ok by first [by apply channel_amounts_nonneg | unfold msum in *; lia].
Qed.

(** The time after which an invoice may be dropped, when it fits. *)
Definition deadline (i : PaymentState) : Z := i.(duration_since_epoch) + i.(expiry_duration) + prune_time tw i.

Definition deadline_fits (i : PaymentState) : Prop :=
  i.(duration_since_epoch) + i.(expiry_duration) < 2 ^ 64 * NANOS /\ deadline i < 2 ^ 64 * NANOS.

Lemma prune_deadline_Ok (i : PaymentState) : deadline_fits i -> prune_deadline (E:=E) tw i = Ok (deadline i).
Proof.
  intros [H1 H2]. unfold prune_deadline, dur_add, deadline in *.
  destruct (Z.ltb_spec (duration_since_epoch i + expiry_duration i) (2 ^ 64 * NANOS)); [|lia].
  cbn [mbind res_bind]. destruct (Z.ltb_spec (duration_since_epoch i + expiry_duration i + prune_time tw i) (2 ^ 64 * NANOS)); [done|lia].
Qed.

Lemma prune_deadline_value (i : PaymentState) (d : Z) : prune_deadline (E:=E) tw i = Ok d -> d = deadline i.
Proof.
  unfold prune_deadline, dur_add, deadline. intros Hd. apply bind_Ok in Hd as (t & Ht & Hd).
  destruct (_ <? _) in Ht; [|done]. injection Ht as <-. destruct (_ <? _) in Hd; [|done]. by injection Hd as <-.
Qed.

(** A prunable invoice is past its deadline and its payment is complete. *)
Lemma prunable_means (now : Z) (i : PaymentState) (p : RoutedPayment) :
  payment_fits p -> is_invoice_prunable (E:=E) tw now i p = Ok true ->
  deadline i < now /\ (is_Some p.(preimage) \/ msum p.(outgoing) = 0).
Proof.
  intros Hfit Hpr. apply bind_Ok in Hpr as (c & Hc & Hpr). apply bind_Ok in Hpr as (d & Hd & Hpr).
  apply prune_deadline_value in Hd as ->. injection Hpr as Hpr. apply andb_true_iff in Hpr as [H1 ->].
  split; [lia|]. unfold is_fulfilled in Hc. case_bool_decide; [by left|].
  rewrite is_no_outgoing_Ok in Hc by done. injection Hc as Hc. right. lia.
Qed.

Lemma prunable_total (now : Z) (i : PaymentState) (p : RoutedPayment) :
  payment_fits p -> deadline_fits i -> exists b, is_invoice_prunable (E:=E) tw now i p = Ok b.
Proof.
  intros Hp Hi. unfold is_invoice_prunable. rewrite is_no_outgoing_Ok, prune_deadline_Ok by done.
  destruct (is_fulfilled p); by eexists.
Qed.

Lemma prunable_invoices_total (fee : Z) (s : NodeState) (now : Z) :
  node_fits s -> invoices_covered fee s -> map_Forall (fun _ i => deadline_fits i) s.(invoices) ->
  exists prune, prunable_invoices (E:=E) tw s now = Ok prune.
Proof.
  intros Hf Hc Hd1. unfold prunable_invoices.
  assert (Hl : forall h i, (h, i) ∈ map_to_list s.(invoices) -> exists p b, s.(payments) !! h = Some p /\
            is_invoice_prunable (E:=E) tw now i p = Ok b).
  { intros h i Hin%elem_of_map_to_list. destruct (Hc h i Hin) as (_ & p & Hp & _). exists p.
    destruct (prunable_total now i p) as [b Hb]; [by apply (Hf h)|by apply (Hd1 h)|]. by exists b. }
  revert Hl. generalize (∅ : gset Z) as acc. generalize (map_to_list s.(invoices)) as l.
  induction l as [|[h i] l IH]; intros acc Hl; cbn [fold_res]; [by eexists|].
  destruct (Hl h i (list_elem_of_here _ _)) as (p & b & -> & Hb). cbn [unwrap mbind res_bind].
  rewrite Hb. cbn [mbind res_bind]. apply IH. intros. apply Hl. by apply list_elem_of_further.
Qed.

(** Invoices and payments after a heartbeat. *)
Lemma heartbeat_spec (s s' : NodeState) (now : Z) (b : bool) :
  node_fits s -> heartbeat_prune (E:=E) tw s now = Ok (b, s') ->
  forall h,
    (exists i p, s.(invoices) !! h = Some i /\ s.(payments) !! h = Some p /\
       deadline i < now /\ (is_Some p.(preimage) \/ msum p.(outgoing) = 0)) \/
    s'.(invoices) !! h = s.(invoices) !! h /\
    (s'.(payments) !! h = s.(payments) !! h \/
     s.(invoices) !! h = None /\ exists p, s.(payments) !! h = Some p /\
       msum p.(incoming) = 0 /\ msum p.(outgoing) = 0).
Proof.
  intros Hf Hh h. apply bind_Ok in Hh as ([b1 s1] & P1 & Hh). apply bind_Ok in Hh as ([b2 s2] & P2 & Hh).
  apply bind_Ok in Hh as ([b3 s3] & P3 & Hh). injection Hh as _ <-.
  destruct (prune_invoices_spec _ _ _ _ _ P1) as (prune & Hi & Hp & Hpr).
  apply bind_Ok in P2 as (m2 & _ & P2). injection P2 as _ <-.
  apply bind_Ok in P3 as (m3 & P3 & P3'). injection P3' as _ <-.
  destruct (retain_spec _ _ _ P3) as [R1 R2]. cbn [payments with_issued with_payments invoices] in *.
  destruct (decide (h ∈ prune)) as [Hd|Hd].
  - left. destruct (Hpr h Hd) as (i & p & Hii & Hpp & Ht). exists i, p.
    split; [done|]. split; [done|]. apply prunable_means; [by apply (Hf h)|done].
  - right. rewrite Hi, decide_False by done. split; [done|]. specialize (Hp h). rewrite decide_False in Hp by done.
    destruct (payments s !! h) as [p|] eqn:Hpp; [|left; by apply R1].
    destruct (R2 h p Hp) as (k & Hk & ->). destruct k; [by left|]. right.
    apply bind_Ok in Hk as (f & Hk & Hneg). injection Hneg as Hneg. apply negb_false_iff in Hneg as ->.
    unfold is_forwarded_payment_prunable in Hk. cbn [invoices issued_invoices with_issued] in Hk.
    rewrite Hi, decide_False in Hk by done. specialize (Hf h p Hpp).
    destruct (bool_decide_reflect (invoices s !! h = None)) as [Hn|]; [|done]. split; [done|]. exists p.
    split; [done|]. cbn [andb] in Hk. destruct (bool_decide _); [|done].
    rewrite is_no_incoming_Ok, is_no_outgoing_Ok in Hk by done. cbn [mbind res_bind] in Hk.
    destruct (Z.eqb_spec (msum p.(incoming)) 0); [|done]. injection Hk as Hk. lia.
Qed.
End Heartbeat.

(** ** Properties *)

(** A validator of the default mainnet policy and a state to evaluate. *)
Definition sample_v : SimpleValidator := mkSimpleValidator (make_default_simple_policy Bitcoin).
Definition sample_validator : Validator SimpleValidator :=
  @SimpleValidator_validator release_profile (fun _ => 663) (fun _ => 703) (fun s => s).
Definition sample_node : NodeState :=
  let vc := mkVelocityControl 0 300 (replicate 12 0) u64_max in NodeState_new vc vc [].
Definition sample_delta : BalanceDelta := mkBalanceDelta 0 0.

Lemma sample_v_strict :
  @v_strict _ _ sample_validator _ (@SimpleValidator_laws release_profile (fun _ => 663) (fun _ => 703) (fun s => s))
    sample_v.
Proof. split; [apply default_policy_strict|vm_compute; discriminate]. Qed.

(** Paying a keysend of 5,000 sat: the keysend is approved, then a commitment
    with an HTLC of 5,002 sat on channel [1]. *)
Definition sample_keysend : NodeState :=
  match @add_keysend release_profile _ SimplePolicy_policy (make_default_simple_policy Bitcoin)
          sample_node 3 77 5000000 0 0 with
  | Ok (_, s) => s | _ => sample_node end.
Definition sample_paid : NodeState :=
  match @apply_payments release_profile _ sample_validator sample_v elements Status
          sample_keysend [1] ∅ {[77 := 5002]} sample_delta None with
  | Ok s => s | _ => sample_node end.

Lemma sample_paid_fits : node_fits sample_paid.
Proof.
  assert (Hp : sample_paid.(payments) = {[77 := mkRoutedPayment {[[1] := 0]} {[[1] := 5002]} None None None]})
    by (vm_compute; reflexivity).
  unfold node_fits. rewrite Hp. apply map_Forall_singleton.
  split; [apply map_Forall_singleton; lia..|vm_compute; reflexivity|vm_compute; reflexivity].
Qed.


Definition unit_invoice : InvoiceAttributes unit := Build_InvoiceAttributes unit
  (fun _ => 0) (fun _ => 0) (fun _ => 0) (fun _ => 0) (fun _ => 0) (fun _ => 0).


(** A commitment that passes [validate_payments] and is applied leaves each
    payment that has an invoice, or that is new, covered by what comes in plus
    the invoice and the fee allowance; the other payments are as before. *)
Theorem validated_payments_balanced `{Profile} {V : Type} `{HV : Validator V} {fsk : SecretKey -> PublicKey}
    {L : ValidatorLaws V fsk} (v : V) (set_iter : gset Z -> list Z) (s s' : NodeState) (c : list Z)
    (ins outs : PaymentMap) (d : BalanceDelta) (info : option CommitmentInfo2) :
  v_strict v -> (forall x, set_iter x ≡ₚ elements x) -> node_fits s -> node_fits s' ->
  (forall h i, s.(invoices) !! h = Some i -> 0 <= i.(amount_msat)) ->
  validate_payments v set_iter s c ins outs d = Ok tt ->
  apply_payments (E:=Status) v set_iter s c ins outs d info = Ok s' ->
  (forall h, is_Some (ins !! h) \/ is_Some (outs !! h) ->
     exists p', s'.(payments) !! h = Some p' /\
       (is_Some (s.(payments) !! h) /\ s.(invoices) !! h = None \/
        covered (v_max_routing_fee v) (s.(invoices) !! h) p')) /\
  (forall h, ins !! h = None -> outs !! h = None -> s'.(payments) !! h = s.(payments) !! h).
Proof.
  intros Hs Hit Hf Hf' Hamt Hv Ha. split.
  - intros h Hh. rewrite <- (elem_of_summary_hashes set_iter Hit) in Hh. eapply validated_covered; eauto.
  - intros h Hi Ho. apply (apply_payments_spec v set_iter Hit _ _ _ _ _ _ _ Ha).
    rewrite (elem_of_summary_hashes set_iter Hit), Hi, Ho. by intros [[? ?]|[? ?]].
Qed.

Lemma validated_payments_balanced_witness :
  exists p', sample_paid.(payments) !! 77 = Some p' /\
    (is_Some (sample_keysend.(payments) !! 77) /\ sample_keysend.(invoices) !! 77 = None \/
     covered 10000 (sample_keysend.(invoices) !! 77) p').
Proof.
  destruct (@validated_payments_balanced release_profile SimpleValidator sample_validator (fun s => s)
    (@SimpleValidator_laws release_profile (fun _ => 663) (fun _ => 703) (fun s => s))
    sample_v elements sample_keysend sample_paid [1] ∅ {[77 := 5002]} sample_delta None) as [Hc _].
  - apply sample_v_strict.
  - done.
  - assert (Hp : sample_keysend.(payments) = {[77 := RoutedPayment_new]}) by (vm_compute; reflexivity).
    unfold node_fits. rewrite Hp. apply map_Forall_singleton, new_payment_fits.
  - apply sample_paid_fits.
  - assert (Hp : sample_keysend.(invoices) = {[77 := mkPaymentState 77 5000000 3 0 (60 * NANOS) false PT_Keysend]})
      by (vm_compute; reflexivity).
    rewrite Hp. intros h i Hi. apply lookup_singleton_Some in Hi as [_ <-]. cbn. lia.
  - vm_compute. reflexivity.
  - vm_compute. reflexivity.
  - apply Hc. right. by eexists.
Defined.

(** Learning a preimage is idempotent: the second report changes nothing
    and says so.  No known preimage is forgotten, and the payment with this hash
    has one afterwards. *)
Theorem preimage_idempotent `{Profile} {V : Type} `{Validator V} {E : Type} (v : V) (hash_preimage : Z -> Z)
    (s s' : NodeState) (pre : Z) (b : bool) :
  htlc_fulfilled (E:=E) v hash_preimage s pre = Ok (b, s') ->
  htlc_fulfilled (E:=E) v hash_preimage s' pre = Ok (false, s') /\
  (forall h, has_preimage s h = true -> has_preimage s' h = true) /\
  has_preimage s' (hash_preimage pre) = bool_decide (is_Some (s.(payments) !! hash_preimage pre)).
Proof.
  intros Hf. assert (Hf' := Hf). apply htlc_fulfilled_payments in Hf' as [_ Hp].
  assert (Hiss : forall i, s'.(issued_invoices) !! hash_preimage pre = Some i -> i.(invoice_is_fulfilled) = true).
  { intros i. unfold htlc_fulfilled in Hf.
    destruct (issued_invoices s !! hash_preimage pre) as [j|] eqn:Hj;
      [destruct (invoice_is_fulfilled j) eqn:Hjf|];
      cbn [with_issued payments invoices excess_amount] in Hf;
      (destruct (payments s !! hash_preimage pre);
        [case_bool_decide; [|apply bind_Ok in Hf as ([? ?] & _ & Hf); apply bind_Ok in Hf as (? & _ & Hf)]|]);
      injection Hf as _ <-; cbn [with_issued with_payments issued_invoices];
      rewrite ?lookup_insert_eq; congruence || (by intros [= <-]) || (by rewrite Hj; intros [= <-]). }
  assert (Hpay : forall p, s'.(payments) !! hash_preimage pre = Some p -> is_Some p.(preimage)).
  { unfold htlc_fulfilled in Hf. destruct Hp as [Heq|(q & _ & _ & ->)];
      [|intros p; rewrite lookup_insert_eq; intros [= <-]; by eexists].
    intros p Hlk. assert (Hlk' := Hlk). rewrite Heq in Hlk.
    destruct (match issued_invoices s !! _ with Some i => _ | None => _ end) as [f issued].
    cbn [with_issued payments invoices] in Hf. rewrite Hlk in Hf. case_bool_decide; [done|].
    apply bind_Ok in Hf as ([? ?] & _ & Hf). apply bind_Ok in Hf as (? & _ & Hf). injection Hf as _ <-.
    cbn in Hlk'. rewrite lookup_insert_eq in Hlk'. injection Hlk' as <-. by eexists. }
  split_and!.
  - unfold htlc_fulfilled. destruct (issued_invoices s' !! hash_preimage pre) as [i|] eqn:Hi;
      [rewrite (Hiss i eq_refl)|]; cbn [with_issued payments];
      (destruct (payments s' !! hash_preimage pre) as [p|] eqn:Hq;
        [rewrite bool_decide_true by (by apply Hpay)|]); by destruct s'.
  - intros h. unfold has_preimage, NodeState_preimages. destruct Hp as [->|(q & Hq & Hn & ->)]; [done|].
    destruct (decide (h = hash_preimage pre)) as [->|Hne]; [|by rewrite lookup_insert_ne].
    by rewrite Hq, Hn.
  - unfold has_preimage, NodeState_preimages. destruct Hp as [Heq|(q & Hq & Hn & ->)].
    + rewrite <- Heq. destruct (payments s' !! _) as [p|] eqn:Hq; [|done].
      rewrite !bool_decide_true; [done|by eexists|by apply Hpay].
    + by rewrite lookup_insert_eq, Hq.
Qed.

Lemma preimage_idempotent_witness :
  exists s', @htlc_fulfilled release_profile _ sample_validator sample_v (fun p => p + 1) Status sample_paid 76
             = Ok (true, s') /\
    @htlc_fulfilled release_profile _ sample_validator sample_v (fun p => p + 1) Status s' 76 = Ok (false, s').
Proof.
  eexists. split; [vm_compute; reflexivity|].
  eapply (@preimage_idempotent release_profile SimpleValidator sample_validator Status sample_v (fun p => p + 1)
           sample_paid _ 76 true). vm_compute. reflexivity.
Defined.

(** A heartbeat drops no payment that is still pending and no invoice
    before its deadline: an unfulfilled payment with outgoing HTLCs stays, with
    its invoice, and an invoice within its deadline stays, with its payment. *)
Theorem heartbeat_keeps_pending `{Profile} {E : Type} (tw : bool) (s s' : NodeState) (now : Z) (b : bool) :
  node_fits s -> heartbeat_prune (E:=E) tw s now = Ok (b, s') ->
  (forall h p, s.(payments) !! h = Some p -> p.(preimage) = None -> msum p.(outgoing) <> 0 ->
     s'.(payments) !! h = Some p /\ s'.(invoices) !! h = s.(invoices) !! h) /\
  (forall h i, s.(invoices) !! h = Some i -> now <= deadline tw i ->
     s'.(invoices) !! h = Some i /\ s'.(payments) !! h = s.(payments) !! h).
Proof.
  intros Hf Hh. split.
  - intros h p Hp Hpre Hout. destruct (heartbeat_spec tw s s' now b Hf Hh h) as [(i & q & _ & Hq & _ & Hor)|[Hi Hor]].
    + simplify_eq. rewrite Hpre in Hor. by destruct Hor as [[? ?]|?].
    + split; [|done]. destruct Hor as [->|(_ & q & Hq & _ & H0)]; [done|]. by simplify_eq.
  - intros h i Hi Hnow. destruct (heartbeat_spec tw s s' now b Hf Hh h) as [(j & q & Hj & _ & Hd & _)|[Hj Hor]].
    + simplify_eq. lia.
    + rewrite Hj. split; [done|]. destruct Hor as [->|(Hn & _)]; [done|congruence].
Qed.

Lemma heartbeat_keeps_pending_witness :
  exists s', @heartbeat_prune release_profile Status false sample_paid (10 ^ 18) = Ok (false, s') /\
    is_Some (s'.(payments) !! 77).
Proof.
  eexists. split; [vm_compute; reflexivity|].
  destruct (@heartbeat_keeps_pending release_profile Status false sample_paid sample_paid (10 ^ 18) false) as [Hk _].
  - apply sample_paid_fits.
  - vm_compute. reflexivity.
  - destruct (sample_paid.(payments) !! 77) as [p|] eqn:Hp; [|vm_compute in Hp; discriminate].
    destruct (Hk 77 p Hp) as [Hs _]; [by vm_compute in Hp; injection Hp as <-..|].
    vm_compute in Hs. by eexists.
Defined.

(** When every deadline fits a duration, a heartbeat on a state that
    satisfies the invariant of [no_overpayment] does not panic. *)
Theorem heartbeat_total `{Profile} {E : Type} (tw : bool) (fee : Z) (s : NodeState) (now : Z) :
  node_fits s -> invoices_covered fee s ->
  map_Forall (fun _ i => deadline_fits tw i) s.(invoices) ->
  map_Forall (fun _ i => deadline_fits tw i) s.(issued_invoices) ->
  exists b s', heartbeat_prune (E:=E) tw s now = Ok (b, s').
Proof.
  intros Hf Hc Hd1 Hd2.
  destruct (prunable_invoices_total (E:=E) tw fee s now Hf Hc Hd1) as [prune Hpr].
  unfold heartbeat_prune, prune_invoices. rewrite Hpr. cbn [mbind res_bind].
  unfold prune_issued_invoices. cbn [issued_invoices with_payments with_invoices].
  destruct (retain_total (fun _ i => d ← prune_deadline (E:=E) tw i; Ok (now <? d)) s.(issued_invoices)) as [m2 Hm2].
  { intros k i Hi. rewrite prune_deadline_Ok by (by apply (Hd2 k)). by eexists. }
  rewrite Hm2. cbn [mbind res_bind]. unfold prune_forwarded_payments.
  match goal with |- context [retain ?k ?m] =>
    destruct (retain_total k m) as [m3 Hm3]; [|rewrite Hm3; by do 2 eexists] end.
  intros k p Hk. cbn [payments with_issued with_payments with_invoices] in Hk.
  apply map_lookup_filter_Some in Hk as [Hk _]. specialize (Hf k p Hk).
  unfold is_forwarded_payment_prunable. rewrite is_no_incoming_Ok, is_no_outgoing_Ok by done.
  destruct (_ && _); [cbn [mbind res_bind]; destruct (_ =? 0)|]; by eexists.
Qed.

Lemma heartbeat_total_witness :
  exists b s', @heartbeat_prune debug_profile Status true sample_paid (10 ^ 19) = Ok (b, s').
Proof.
  apply (@heartbeat_total debug_profile Status true 10000 sample_paid (10 ^ 19)).
  - apply sample_paid_fits.
  - assert (Hi : sample_paid.(invoices) = {[77 := mkPaymentState 77 5000000 3 0 (60 * NANOS) false PT_Keysend]})
      by (vm_compute; reflexivity).
    intros h i Hlk. rewrite Hi in Hlk. apply lookup_singleton_Some in Hlk as [<- <-]. cbn. split; [lia|].
    eexists. split; [vm_compute; reflexivity|]. vm_compute. discriminate.
  - assert (Hi : sample_paid.(invoices) = {[77 := mkPaymentState 77 5000000 3 0 (60 * NANOS) false PT_Keysend]})
      by (vm_compute; reflexivity).
    rewrite Hi. apply map_Forall_singleton. split; vm_compute; reflexivity.
  - assert (Hi : sample_paid.(issued_invoices) = ∅) by (vm_compute; reflexivity).
    rewrite Hi. apply map_Forall_empty.
Defined.

(** An invoice created at second 1,700,000,000 that expires 1,000 seconds before
    the largest time a [Duration] holds. *)
Definition late_invoice : InvoiceAttributes unit := Build_InvoiceAttributes unit
  (fun _ => 9) (fun _ => 88) (fun _ => 1000) (fun _ => 3)
  (fun _ => 1700000000 * NANOS) (fun _ => (2 ^ 64 - 1700001000) * NANOS).

(** An invoice whose expiry is close to the largest duration is approved
    under the default policy, and from then on every heartbeat panics, because
    the prune time is added to the expiry without a check. *)
Theorem late_expiry_panics_heartbeat `{Profile} (tw sw : ChannelTypeFeatures -> Z)
    (fsk : SecretKey -> PublicKey) (now : Z) :
  exists s, @add_invoice _ _ _ (SimpleValidator_validator tw sw fsk) SimplePolicy_policy sample_v
              (make_default_simple_policy Bitcoin) unit late_invoice false sample_node tt (1700000000 * NANOS)
            = Ok (true, s) /\
    heartbeat_prune (E:=Status) false s now = Panic.
Proof. destruct H; (eexists; split; [vm_compute; reflexivity|vm_compute; reflexivity]). Qed.

(** Which preimages the node knows after a restart: those of the persisted
    payments that have no invoice, each under the hash of what was persisted.  So
    the preimage of a paid invoice is forgotten, and the mark of a fulfilled
    issued invoice, a preimage of 32 zero bytes, reappears under the hash of the
    zero bytes. *)
Theorem restart_known_preimages (hash_preimage : Z -> Z) (s : NodeState) (l : list Allowable) (h : Z) :
  has_preimage (restart hash_preimage s l) h = true <->
  s.(invoices) !! h = None /\
  exists h' p pre, s.(payments) !! h' = Some p /\ p.(preimage) = Some pre /\ hash_preimage pre = h.
Proof.
  rewrite restart_has_preimage. split; intros [Hi Hex]; (split; [done|]).
  - destruct Hex as (pre & Hin & Hh). apply list_elem_of_omap in Hin as (p & Hp & Hpre).
    apply list_elem_of_fmap in Hp as ([h' p'] & -> & Hin). apply elem_of_map_to_list in Hin.
    by exists h', p', pre.
  - destruct Hex as (h' & p & pre & Hp & Hpre & Hh). exists pre. split; [|done].
    apply list_elem_of_omap. exists p. split; [|done]. apply list_elem_of_fmap. exists (h', p).
    split; [done|]. by apply elem_of_map_to_list.
Qed.

Lemma update_each_stops (parse : string -> option Allowable) (persist : gset Allowable -> res Status unit)
    (f : Allowable -> gset Allowable -> gset Allowable) (l1 l2 : list string) (bad : string)
    (good : list Allowable) (a : gset Allowable) :
  mapM parse l1 = Some good -> parse bad = None ->
  update_each parse persist f (l1 ++ bad :: l2) a = (foldl (fun a x => f x a) a good, Err invalid_argument).
Proof.
  intros Hl Hb. revert good a Hl. induction l1 as [|x l1 IH]; intros good a Hl; cbn in *.
  - injection Hl as <-. by rewrite Hb.
  - destruct (parse x) as [y|]; [|done]. cbn in Hl. destruct (mapM parse l1) as [ys|]; [|done].
    injection Hl as <-. cbn. by apply IH.
Qed.

Lemma foldl_union_elem (l : list Allowable) (a : gset Allowable) (x : Allowable) :
  x ∈ foldl (fun a y => {[y]} ∪ a) a l <-> x ∈ a \/ x ∈ l.
Proof.
  revert a. induction l as [|y l IH]; intros a; cbn.
  - split; [by left|]. intros [?|Hn]; [done|]. by apply not_elem_of_nil in Hn.
  - rewrite IH, elem_of_union, elem_of_singleton, elem_of_cons. tauto.
Qed.

(** Replacing the allowlist with a list that has an entry that does not
    parse returns an error, but the entries before it have by then replaced the
    allowlist in memory: every address that was allowed before and is not among
    them is refused. *)
Theorem set_allowlist_not_atomic (parse : string -> option Allowable)
    (persist : gset Allowable -> res Status unit) (s : NodeState) (l1 l2 : list string) (bad : string)
    (good : list Allowable) :
  mapM parse l1 = Some good -> parse bad = None ->
  exists s', set_allowlist parse persist s (l1 ++ bad :: l2) = (s', Err invalid_argument) /\
    forall x, x ∈ s'.(allowlist) <-> x ∈ good.
Proof.
  intros Hl Hb. unfold set_allowlist. rewrite (update_each_stops _ _ _ _ _ _ good) by done.
  eexists. split; [reflexivity|]. intros x. cbn [allowlist with_allowlist]. rewrite foldl_union_elem.
  rewrite elem_of_empty. tauto.
Qed.

Lemma set_allowlist_not_atomic_witness :
  exists s', set_allowlist (fun _ => None) (fun _ => Ok tt) (with_allowlist sample_node {[Payee 5]}) ["junk"]
             = (s', Err invalid_argument) /\ forall x, x ∈ s'.(allowlist) <-> x ∈ [].
Proof.
  apply (set_allowlist_not_atomic (fun _ => None) (fun _ => Ok tt) (with_allowlist sample_node {[Payee 5]})
           [] [] "junk" []); reflexivity.
Defined.
