(* ===== verification/Channel.v ===== *)
(** * A ready channel: [vls-core/src/channel.rs]

    The operations of [Channel] that change the enforcement state or release
    secrets: signing counterparty commitments, validating holder commitments,
    revocation in both directions, closing, and the bookkeeping of splices.  The
    forms that take explicit values ([_phase2]) are modelled; they share their
    checks and state changes with the forms that decode a transaction first. *)
From S2P Require Import Prelude Velocity Policy Ordered CommitInfo Types Secrets Enforcement SimpleValidator Validator NodeState.

(** [node] and [keys] are contexts below; [monitor_state] is what
    [monitor.as_chain_state()] returns. *)
Record Channel := mkChannel {
  enforcement_state : EnforcementState;
  setup : ChannelSetup;
  id0 : ChannelId;
  chan_id : option ChannelId;
  monitor_state : ChainState;
  prev_setup : option ChannelSetup;
  prev_prev_setup : option ChannelSetup;
  funding_locked : option OutPoint
}.

Definition with_estate (self : Channel) (e : EnforcementState) : Channel :=
  mkChannel e self.(setup) self.(id0) self.(chan_id) self.(monitor_state) self.(prev_setup) self.(prev_prev_setup)
    self.(funding_locked).

(** [HTLCOutputInCommitment] of the lightning package, without the output index. *)
Record HTLCOutputInCommitment := mkHTLCOutput {
  oic_offered : bool;
  oic_amount_msat : Z;
  oic_cltv_expiry : Z;
  oic_payment_hash : Z
}.

(** What a commitment transaction is rebuilt from. *)
Record CommitmentParams := mkCommitmentParams {
  cp_view : ChannelSetup;
  cp_point : PublicKey;
  cp_backwards_number : Z;
  cp_feerate : Z;
  cp_to_holder : Z;
  cp_to_counterparty : Z;
  cp_htlcs : list HTLCOutputInCommitment
}.

(** The channel keys and the cryptography of the lightning and secp256k1
    packages: secrets and points by backwards commitment number, signatures over
    a rebuilt commitment, the hashes that the counterparty must have signed for
    it and for each of its HTLC transactions, and their verification. *)
Class Signer := {
  secret_for : Z -> SecretKey;
  point_for : Z -> PublicKey;
  from_secret_key : SecretKey -> PublicKey;
  secret_bytes : SecretKey -> list Z;
  secret_from_slice : list Z -> option SecretKey;
  sha256 : list Z -> list Z;
  sign_counterparty : CommitmentParams -> res Status (Signature * list Signature);
  sign_holder : CommitmentParams -> res Status Signature;
  commitment_sighash : CommitmentParams -> Z;
  htlc_sighashes : CommitmentParams -> list Z;
  derive_public_key : PublicKey -> PublicKey -> res Status PublicKey;
  verify_ecdsa : Z -> Signature -> PublicKey -> bool
}.

Definition INITIAL_COMMITMENT_NUMBER : Z := 2 ^ 48 - 1.

(** ** Views of the funding *)
Definition setup_for_outpoint (self : Channel) (outpoint : OutPoint) : res Status ChannelSetup :=
  let views := self.(setup) :: option_list self.(prev_setup) ++ option_list self.(prev_prev_setup) in
  match filter (fun s => outpoint = s.(funding_outpoint)) views with
  | view :: _ => Ok view
  | [] => Err failed_precondition
  end.

(** [inputs] are the previous outputs that the transaction spends. *)
Fixpoint setup_for_tx (self : Channel) (inputs : list OutPoint) : ChannelSetup :=
  match inputs with
  | [] => self.(setup)
  | i :: inputs' =>
      match setup_for_outpoint self i with Ok s => s | _ => setup_for_tx self inputs' end
  end.

Definition is_splice_compatible (self : Channel) (new_setup : ChannelSetup) : bool :=
  let cur := self.(setup) in
  let keep {A} (mine other : option A) := match mine with None => None | Some _ => other end in
  let points := new_setup.(counterparty_points) in
  let other := mkChannelSetup new_setup.(is_outbound) cur.(channel_value_sat) cur.(push_value_msat)
    cur.(funding_outpoint) new_setup.(holder_selected_contest_delay)
    (keep cur.(holder_shutdown_script) new_setup.(holder_shutdown_script))
    (mkChannelPublicKeys cur.(counterparty_points).(funding_pubkey) points.(revocation_basepoint)
       points.(payment_point) points.(delayed_payment_basepoint) points.(htlc_basepoint))
    new_setup.(counterparty_selected_contest_delay)
    (keep cur.(counterparty_shutdown_script) new_setup.(counterparty_shutdown_script))
    new_setup.(commitment_type) in
  bool_decide (other = cur) && bool_decide (new_setup.(funding_outpoint) <> cur.(funding_outpoint)).

Definition get_chain_state (self : Channel) : ChainState :=
  let m := self.(monitor_state) in
  mkChainState m.(current_height) m.(funding_depth) m.(funding_double_spent_depth) m.(closing_depth)
    (bool_decide (is_Some self.(prev_setup))).

Definition build_counterparty_commitment_info (to_holder to_counterparty : Z)
    (offered received : list HTLCInfo2) (feerate : Z) : CommitmentInfo2 :=
  CommitmentInfo2_new true to_holder to_counterparty offered received feerate.

Definition build_holder_commitment_info (to_holder to_counterparty : Z)
    (offered received : list HTLCInfo2) (feerate : Z) : CommitmentInfo2 :=
  CommitmentInfo2_new false to_counterparty to_holder offered received feerate.

Definition htlcs_info2_to_oic `{Profile} {E : Type} (offered received : list HTLCInfo2)
  : res E (list HTLCOutputInCommitment) :=
  let conv (is_offered : bool) (h : HTLCInfo2) :=
    msat ← mul_u64 h.(value_sat) 1000;
    Ok (mkHTLCOutput is_offered msat h.(cltv_expiry) h.(payment_hash)) in
  o ← map_res (conv true) offered;
  r ← map_res (conv false) received;
  Ok (o ++ r).

(** ** Operations *)
Section Channel.
Context `{Profile} {V : Type} `{Validator V} (validator : V) `{Signer} (set_iter : gset Z -> list Z).
Context (hash_preimage : Z -> Z) (persist : Channel -> res Status unit).

(** A method of a channel; the node state is behind a lock that it takes. *)
Abbreviation channel_method A := (method (Channel * NodeState) Status A) (only parsing).

Definition set_estate (e : EnforcementState) : channel_method unit := fun '(self, state) =>
  ((with_estate self e, state), Ok tt).
Definition set_state (state : NodeState) : channel_method unit := fun '(self, _) => ((self, state), Ok tt).
Definition do_persist : channel_method unit := fun '(self, state) => ((self, state), persist self).

(** *** Points and secrets *)
Definition backwards {E : Type} (commitment_number : Z) : res E Z :=
  sub_u64 INITIAL_COMMITMENT_NUMBER commitment_number.

Definition get_per_commitment_point_unchecked (commitment_number : Z) : res Status PublicKey :=
  idx ← backwards commitment_number; Ok (point_for idx).

Definition get_per_commitment_point (self : Channel) (commitment_number : Z) : res Status PublicKey :=
  next1 ← add_u64 self.(enforcement_state).(next_holder_commit_num) 1;
  if next1 <? commitment_number then Err (Status_from (policy_error "policy-optional-fail-fast"))
  else get_per_commitment_point_unchecked commitment_number.

Definition get_per_commitment_secret (self : Channel) (commitment_number : Z) : res Status SecretKey :=
  n2 ← add_u64 commitment_number 2;
  when (self.(enforcement_state).(next_holder_commit_num) <? n2)
    (lift_ve (Policy_policy_error validator "policy-revoke-new-commitment-signed")) ;;
  idx ← backwards commitment_number;
  Ok (secret_for idx).

Definition get_per_commitment_secret_or_none (self : Channel) (commitment_number : Z)
  : res Status (option SecretKey) :=
  n2 ← add_u64 commitment_number 2;
  if self.(enforcement_state).(next_holder_commit_num) <? n2 then Ok None
  else idx ← backwards commitment_number; Ok (Some (secret_for idx)).

Definition check_future_secret (commitment_number : Z) (suggested : SecretKey) : res Status bool :=
  idx ← backwards commitment_number; Ok (bool_decide (suggested = secret_for idx)).

Definition get_counterparty_commitment_point (self : Channel) (commitment_number : Z)
  : res Status (option PublicKey) :=
  let state := self.(enforcement_state) in
  let next_commit_num := state.(next_counterparty_commit_num) in
  n1 ← add_u64 commitment_number 1;
  if next_commit_num <? n1 then Ok None
  else if next_commit_num =? n1 then Ok state.(current_counterparty_point)
  else if next_commit_num =? commitment_number then Ok state.(previous_counterparty_point)
  else match state.(counterparty_secrets) with
  | Some secrets =>
      idx ← backwards commitment_number;
      secret ← get_secret sha256 secrets idx;
      match secret with
      | Some s => key ← unwrap (secret_from_slice s); Ok (Some (from_secret_key key))
      | None => Ok None
      end
  | None => Ok None
  end.

(** *** Counterparty commitments *)

(** [make_counterparty_commitment_tx_with_setup] and the holder's version up to
    the constructor of the lightning package. *)
Definition make_commitment_params {E : Type} (view : ChannelSetup) (point : PublicKey)
    (commitment_number feerate to_holder to_counterparty : Z) (htlcs : list HTLCOutputInCommitment)
  : res E CommitmentParams :=
  idx ← backwards commitment_number;
  Ok (mkCommitmentParams view point idx feerate to_holder to_counterparty htlcs).

Definition sign_counterparty_commitment_tx_phase2 (funding_outpoint : OutPoint)
    (remote_per_commitment_point : PublicKey)
    (commitment_number feerate_per_kw to_holder_value_sat to_counterparty_value_sat : Z)
    (offered_htlcs received_htlcs : list HTLCInfo2) : channel_method (Signature * list Signature) :=
  '(self, state) ← get_self;
  let estate := self.(enforcement_state) in
  view ← call (setup_for_outpoint self funding_outpoint);
  call (lift_ve (v_validate_channel_value validator view)) ;;
  let info2 := build_counterparty_commitment_info to_holder_value_sat to_counterparty_value_sat
                 offered_htlcs received_htlcs feerate_per_kw in
  delta ← call (claimable_balances estate state None (Some info2) view self.(prev_setup));
  incoming_payment_summary ← call (incoming_payments_summary estate None (Some info2));
  call (lift_ve (v_validate_counterparty_commitment_tx validator estate commitment_number
                   remote_per_commitment_point view (get_chain_state self) info2)) ;;
  htlcs ← call (htlcs_info2_to_oic info2.(CommitInfo.offered_htlcs) info2.(CommitInfo.received_htlcs));
  params ← call (make_commitment_params view remote_per_commitment_point commitment_number feerate_per_kw
                   to_holder_value_sat to_counterparty_value_sat htlcs);
  sigs ← call (sign_counterparty params);
  outgoing_payment_summary ← call (payments_summary estate None (Some info2));
  call (lift_ve (validate_payments validator set_iter state self.(id0) incoming_payment_summary
                   outgoing_payment_summary delta)) ;;
  let funding_changed :=
    match estate.(counterparty_commitment_funding) with
    | Some f => bool_decide (f <> view.(Types.funding_outpoint))
    | None => false
    end in
  next ← call (add_u64 commitment_number 1);
  estate ← call (lift_ve (set_next_counterparty_commit_num validator estate next
                            remote_per_commitment_point info2 funding_changed));
  set_estate (with_funding_tags estate estate.(holder_commitment_funding)
                (Some view.(Types.funding_outpoint))) ;;
  state ← call (apply_payments validator set_iter state self.(id0) incoming_payment_summary
                  outgoing_payment_summary delta (Some info2));
  set_state state ;;
  do_persist ;;
  mret sigs.

(** The counterparty reveals the secret of a commitment it revokes. *)
Definition chan_validate_counterparty_revocation (revoke_num : Z) (old_secret : SecretKey)
  : channel_method unit :=
  '(self, _) ← get_self;
  let estate := self.(enforcement_state) in
  call (lift_ve (v_validate_counterparty_revocation validator estate revoke_num old_secret)) ;;
  match estate.(counterparty_secrets) with
  | Some secrets =>
      backwards_num ← call (backwards revoke_num);
      match provide_secret sha256 secrets backwards_num (secret_bytes old_secret) with
      | Ok secrets => set_estate (with_secrets estate (Some secrets))
      | Err _ => call (lift_ve (Policy_policy_error validator "policy-commitment-previous-revoked"))
      | Panic => call Panic
      end
  | None => mret tt
  end ;;
  '(self, _) ← get_self;
  next ← call (add_u64 revoke_num 1);
  estate ← call (lift_ve (set_next_counterparty_revoke_num validator self.(enforcement_state) next));
  set_estate estate ;;
  do_persist.

(** *** Holder commitments *)
(** The rebuilt transaction is for the matched view of the funding; the key that
    verifies the signature is that of the current setup. *)
Definition check_holder_tx_signatures (self : Channel) (point : PublicKey)
    (commit_sig : Signature) (htlc_sigs : list Signature) (tx : CommitmentParams) : res Status unit :=
  when (negb (verify_ecdsa (commitment_sighash tx) commit_sig
                self.(setup).(counterparty_points).(funding_pubkey)))
    (Err (Status_from (policy_error "policy-revoke-new-commitment-signed"))) ;;
  htlc_pubkey ← derive_public_key point self.(setup).(counterparty_points).(htlc_basepoint);
  for_each (fun '(ndx, sighash) =>
    sig ← unwrap (htlc_sigs !! ndx);
    when (negb (verify_ecdsa sighash sig htlc_pubkey))
      (Err (Status_from (policy_error "policy-revoke-new-commitment-signed"))))
    (imap pair (htlc_sighashes tx)).

Definition release_commitment_secret (self : Channel) (commitment_number : Z)
  : res Status (PublicKey * option SecretKey) :=
  n1 ← add_u64 commitment_number 1;
  next_holder_commitment_point ← get_per_commitment_point self n1;
  maybe_old_secret ← (if 1 <=? commitment_number then
                        secret ← get_per_commitment_secret self (commitment_number - 1); Ok (Some secret)
                      else Ok None);
  Ok (next_holder_commitment_point, maybe_old_secret).

Definition advance_holder_commitment_state (new_current_commitment_number : Z) (info2 : CommitmentInfo2)
    (counterparty_signatures : CommitmentSignatures) : channel_method (PublicKey * option SecretKey) :=
  '(self, _) ← get_self;
  next ← call (add_u64 new_current_commitment_number 1);
  estate ← call (lift_ve (set_next_holder_commit_num validator self.(enforcement_state) next info2
                            counterparty_signatures));
  set_estate estate ;;
  '(self, _) ← get_self;
  call (release_commitment_secret self new_current_commitment_number).

(** Storing a validated holder commitment: as the pending next one, or, for an
    old funding during a splice, in the snapshot of that funding. *)
Definition store_holder_commitment {E : Type} (estate : EnforcementState) (view : ChannelSetup)
    (commitment_number : Z) (info2 : CommitmentInfo2) (sigs : CommitmentSignatures)
  : res E EnforcementState :=
  if commitment_number =? estate.(next_holder_commit_num) then
    Ok (with_funding_tags (with_next_holder estate (Some (info2, sigs)))
          (Some view.(funding_outpoint)) estate.(counterparty_commitment_funding))
  else match estate.(prev_funding_commitment) with
  | Some prev =>
      n1 ← add_u64 commitment_number 1;
      Ok (if (n1 =? estate.(next_holder_commit_num))
             && bool_decide (estate.(holder_commitment_funding) <> Some view.(funding_outpoint))
          then with_prev_funding estate
                 (Some (mkPrevFundingCommitment prev.(outpoint) prev.(current_holder_info)
                          prev.(current_holder_signatures) (Some (info2, sigs))
                          prev.(current_counterparty_info) prev.(retiring_push_value_msat)))
          else estate)
  | None => Ok estate
  end.

Definition validate_holder_commitment_tx_phase2 (funding_outpoint : OutPoint)
    (commitment_number feerate_per_kw to_holder_value_sat to_counterparty_value_sat : Z)
    (offered_htlcs received_htlcs : list HTLCInfo2) (counterparty_commit_sig : Signature)
    (counterparty_htlc_sigs : list Signature) : channel_method unit :=
  '(self, state) ← get_self;
  let estate := self.(enforcement_state) in
  view ← call (setup_for_outpoint self funding_outpoint);
  per_commitment_point ← call (get_per_commitment_point self commitment_number);
  let info2 := build_holder_commitment_info to_holder_value_sat to_counterparty_value_sat
                 offered_htlcs received_htlcs feerate_per_kw in
  delta ← call (claimable_balances estate state (Some info2) None view self.(prev_setup));
  incoming_payment_summary ← call (incoming_payments_summary estate (Some info2) None);
  call (lift_ve (v_validate_holder_commitment_tx validator estate commitment_number
                   per_commitment_point view (get_chain_state self) info2)) ;;
  htlcs ← call (htlcs_info2_to_oic info2.(CommitInfo.offered_htlcs) info2.(CommitInfo.received_htlcs));
  tx ← call (make_commitment_params view per_commitment_point commitment_number feerate_per_kw
               to_holder_value_sat to_counterparty_value_sat htlcs);
  call (check_holder_tx_signatures self per_commitment_point counterparty_commit_sig
          counterparty_htlc_sigs tx) ;;
  outgoing_payment_summary ← call (payments_summary estate (Some info2) None);
  call (lift_ve (validate_payments validator set_iter state self.(id0) incoming_payment_summary
                   outgoing_payment_summary delta)) ;;
  estate ← call (store_holder_commitment estate view commitment_number info2
                   (mkCommitmentSignatures counterparty_commit_sig counterparty_htlc_sigs));
  set_estate estate ;;
  do_persist.

(** [next_holder_commit_info.take()] comes before the calls that may fail. *)
Definition revoke_previous_holder_commitment (new_current_commitment_number : Z)
  : channel_method (PublicKey * option SecretKey) :=
  '(self, state) ← get_self;
  let estate := self.(enforcement_state) in
  if negb (new_current_commitment_number =? estate.(next_holder_commit_num)) then
    call (release_commitment_secret self new_current_commitment_number)
  else match estate.(next_holder_commit_info) with
  | None =>
      call (lift_ve (Policy_policy_error validator "policy-revoke-new-commitment-signed")) ;;
      point ← call (get_per_commitment_point self new_current_commitment_number);
      mret (point, None)
  | Some (info2, sigs) =>
      let estate := with_next_holder estate None in
      set_estate estate ;;
      incoming_payment_summary ← call (incoming_payments_summary estate (Some info2) None);
      outgoing_payment_summary ← call (payments_summary estate (Some info2) None);
      delta ← call (claimable_balances estate state (Some info2) None self.(setup) self.(prev_setup));
      result ← advance_holder_commitment_state new_current_commitment_number info2 sigs;
      state ← call (apply_payments validator set_iter state self.(id0) incoming_payment_summary
                      outgoing_payment_summary delta (Some info2));
      set_state state ;;
      do_persist ;;
      mret result
  end.

Definition activate_initial_commitment : channel_method PublicKey :=
  '(self, _) ← get_self;
  let estate := self.(enforcement_state) in
  let num := estate.(next_holder_commit_num) in
  if (1 <? num) || ((num =? 1) && bool_decide (estate.(prev_funding_commitment) = None)) then
    call (Err invalid_argument)
  else match estate.(next_holder_commit_info) with
  | Some (info2, sigs) =>
      let estate := with_next_holder estate None in
      estate ← (if num =? 0 then call (estate_set_next_holder_commit_num estate 1 info2 sigs)
                else mret (with_holder estate num (Some info2) (Some sigs)));
      set_estate estate ;;
      do_persist ;;
      call (get_per_commitment_point_unchecked 1)
  | None => call (Err invalid_argument)
  end.

(** *** Closing *)
Record ClosableHolderCommitment := mkClosable {
  cl_commitment_number : Z;
  cl_info : CommitmentInfo2;
  cl_counterparty_signatures : CommitmentSignatures
}.

Definition get_holder_commitment_for_close (self : Channel) (commitment_number : Z)
  : res Status ClosableHolderCommitment :=
  let estate := self.(enforcement_state) in
  match (if commitment_number =? estate.(next_holder_commit_num)
         then estate.(next_holder_commit_info) else None) with
  | Some (info, sigs) => Ok (mkClosable commitment_number info sigs)
  | None =>
      info ← lift_ve (get_current_holder_commitment_info validator estate commitment_number);
      sigs ← ok_or internal_error estate.(current_counterparty_signatures);
      Ok (mkClosable commitment_number info sigs)
  end.

Definition get_latest_holder_commitment_for_close (self : Channel) : res Status ClosableHolderCommitment :=
  let estate := self.(enforcement_state) in
  commitment_number ← (if bool_decide (is_Some estate.(next_holder_commit_info))
                       then Ok estate.(next_holder_commit_num)
                       else ok_or internal_error (checked_sub 64 estate.(next_holder_commit_num) 1));
  get_holder_commitment_for_close self commitment_number.

Definition recompose_holder_commitment_tx (self : Channel) (commitment_number : Z)
    (info2 : CommitmentInfo2) : res Status CommitmentParams :=
  htlcs ← htlcs_info2_to_oic info2.(offered_htlcs) info2.(received_htlcs);
  point ← get_per_commitment_point self commitment_number;
  let build_feerate := if is_zero_fee_htlc self.(setup) then 0 else info2.(feerate_per_kw) in
  make_commitment_params self.(setup) point commitment_number build_feerate
    info2.(to_broadcaster_value_sat) info2.(to_countersigner_value_sat) htlcs.

Definition sign_holder_commitment_tx_phase2 (commitment_number : Z) : channel_method Signature :=
  '(self, _) ← get_self;
  closable ← call (get_holder_commitment_for_close self commitment_number);
  tx ← call (recompose_holder_commitment_tx self closable.(cl_commitment_number) closable.(cl_info));
  sig ← call (sign_holder tx);
  set_estate (with_closed self.(enforcement_state) true) ;;
  do_persist ;;
  mret sig.

(** *** Splices *)
Definition confirm_funding_locked (outpoint : OutPoint) : channel_method unit :=
  '(self, state) ← get_self;
  if bool_decide (self.(funding_locked) = Some outpoint) then mret tt
  else if bool_decide (outpoint <> self.(setup).(funding_outpoint)) then call (Err invalid_argument)
  else
    let was_splice := bool_decide (is_Some self.(prev_setup)) || bool_decide (is_Some self.(prev_prev_setup)) in
    let estate := retire_prev_funding self.(enforcement_state) in
    let push_sat := self.(setup).(push_value_msat) / 1000 in
    let value := self.(setup).(channel_value_sat) in
    let '(to_holder, to_cp) :=
      if self.(setup).(push_value_msat) <=? 2 ^ 63 - 1 then (saturating_sub value push_sat, push_sat)
      else let ih := estate.(initial_holder_value) in (ih, saturating_sub value ih) in
    let estate :=
      if was_splice then
        with_current_infos estate (Some (CommitmentInfo2_new false to_cp to_holder [] [] 0))
          (Some (CommitmentInfo2_new true to_holder to_cp [] [] 0))
      else estate in
    set_self (mkChannel estate self.(setup) self.(id0) self.(chan_id) self.(monitor_state) None None (Some outpoint), state) ;;
    do_persist.

(** [Node::setup_channel] on a ready channel: a splice.  The chain monitor is
    told of the new outpoint ([monitor_state'] is its state then); the setup is
    validated after the channel was replaced. *)
Definition splice_setup (validate_setup_channel : ChannelSetup -> res ValidationError unit)
    (persist_tracker : res Status unit) (monitor_state' : ChainState) (new_setup : ChannelSetup)
  : channel_method unit :=
  '(self, state) ← get_self;
  if bool_decide (self.(setup) = new_setup) then mret tt
  else if negb (is_splice_compatible self new_setup) then call (Err invalid_argument)
  else
    overdrawn ← call (if new_setup.(push_value_msat) <=? 2 ^ 63 - 1 then
                        value_msat ← mul_u64 new_setup.(channel_value_sat) 1000;
                        Ok (value_msat <? new_setup.(push_value_msat))
                      else Ok false);
    if (overdrawn : bool) then call (Err invalid_argument)
    else
      let estate := snapshot_funding_for_splice self.(enforcement_state) self.(setup).(funding_outpoint)
                      self.(setup).(push_value_msat) in
      set_self (mkChannel estate new_setup self.(id0) self.(chan_id) monitor_state' (Some self.(setup)) self.(prev_setup)
                  self.(funding_locked), state) ;;
      call (lift_ve (validate_setup_channel new_setup)) ;;
      call persist_tracker ;;
      do_persist.

(** [Node::setup_channel] on a stub: the first state of a ready channel. *)
Definition ready_channel (new_setup : ChannelSetup) (channel_id0 : ChannelId) (opt_channel_id : option ChannelId)
    (monitor_state' : ChainState)
  : res Status Channel :=
  to_holder_msat ← (if new_setup.(is_outbound) then
                      value_msat ← mul_u64 new_setup.(channel_value_sat) 1000;
                      ok_or (Status_from (policy_error "policy-routing-balanced"))
                        (checked_sub 64 value_msat new_setup.(push_value_msat))
                    else Ok new_setup.(push_value_msat));
  Ok (mkChannel (EnforcementState_new (v_minimum_initial_balance validator to_holder_msat)) new_setup
        channel_id0 opt_channel_id monitor_state' None None None).

(** *** Payments *)
Definition chan_htlcs_fulfilled (preimages : list Z) : channel_method unit :=
  '(_, state) ← get_self;
  state ← call (htlcs_fulfilled validator hash_preimage state preimages);
  set_state state.

Definition chan_balance (self : Channel) (state : NodeState) : res Status ChannelBalance :=
  estate_balance self.(enforcement_state) state self.(setup) (v_is_ready validator (get_chain_state self)).

(** [restore_payments]: on a restart the payments of the current commitments. *)
Definition restored_cltv (estate : EnforcementState)
    (holder counterparty : CommitmentInfo2 -> list HTLCInfo2) (pick : list Z -> option Z) (hash : Z)
  : option Z :=
  let from (o : option CommitmentInfo2) f := match o with Some i => pick (cltvs (f i) hash) | None => None end in
  opt_or (from estate.(current_holder_commit_info) holder)
    (from estate.(current_counterparty_commit_info) counterparty).

Definition restore_payments (self : Channel) (state : NodeState) : res Status NodeState :=
  let estate := self.(enforcement_state) in
  ins ← incoming_payments_summary estate None None;
  outs ← payments_summary estate None None;
  let payments := foldl (fun (m : gmap Z RoutedPayment) hash =>
    <[hash := RoutedPayment_apply (default RoutedPayment_new (m !! hash)) self.(id0)
                (summary_get ins hash) (summary_get outs hash)
                (restored_cltv estate received_htlcs offered_htlcs list_min hash)
                (restored_cltv estate offered_htlcs received_htlcs list_max hash)]> m)
    state.(payments) (summary_hashes set_iter ins outs) in
  Ok (with_payments state payments state.(excess_amount)).
End Channel.
