(* ===== verification/ChannelSafety.v ===== *)
(** * What a channel guarantees

    Safety of the commitment and revocation numbers over every sequence of
    channel operations, against any validator that satisfies [ValidatorLaws]. *)
From S2P Require Import Prelude Velocity Policy Ordered CommitInfo Types Secrets Enforcement SimpleValidator Validator NodeState Channel.

(** ** Code that may panic but returns no error *)
Definition no_err {E A : Type} (m : res E A) : Prop := match m with Err _ => False | _ => True end.

Lemma no_err_not_Err {E A : Type} (m : res E A) (e : E) : m = Err e -> no_err m -> False.
Proof. by intros ->. Qed.

Lemma no_err_bind {E A B : Type} (m : res E A) (f : A -> res E B) :
  no_err m -> (forall a, no_err (f a)) -> no_err (m ≫= f).
Proof. intros Hm Hf. destruct m; [apply Hf|done|done]. Qed.

Lemma no_err_fold {E A B : Type} (body : B -> A -> res E B) (l : list A) (b : B) :
  (forall b a, no_err (body b a)) -> no_err (fold_res body b l).
Proof.
  intros Hb. revert b. induction l as [|x l IH]; intros b; cbn [fold_res]; [done|].
  apply no_err_bind; auto.
Qed.

Lemma no_err_arith `{Profile} {E : Type} (w r : Z) : no_err (@arith _ E w r).
Proof. unfold arith. destruct (in_range w r); [done|]. by destruct overflow_checks. Qed.

Lemma no_err_unwrap {E A : Type} (o : option A) : no_err (@unwrap E A o).
Proof. by destruct o. Qed.

Ltac no_err_tac :=
  repeat first [ done | apply no_err_arith | apply no_err_unwrap | apply no_err_bind; [|intros ?]
               | apply no_err_fold; intros | case_match ].

Lemma apply_payments_no_err `{Profile} {V : Type} `{Validator V} {E : Type} (v : V) (set_iter : gset Z -> list Z)
    (s : NodeState) (c : list Z) (ins outs : PaymentMap) (d : BalanceDelta) (info : option CommitmentInfo2) :
  no_err (apply_payments (E:=E) v set_iter s c ins outs d info).
Proof.
  unfold apply_payments, preflight_payment, mark_fulfilled, apply_payment, updated_incoming_outgoing,
    updated_sum, sum_u64. no_err_tac.
Qed.

(** ** Running the methods of a channel *)
Lemma set_estate_bind {B : Type} (e : EnforcementState) (f : unit -> method (Channel * NodeState) Status B)
    (c : Channel) (st : NodeState) : (set_estate e ≫= f) (c, st) = f tt (with_estate c e, st).
Proof. done. Qed.

Lemma set_state_bind {B : Type} (st' : NodeState) (f : unit -> method (Channel * NodeState) Status B)
    (c : Channel) (st : NodeState) : (set_state st' ≫= f) (c, st) = f tt (c, st').
Proof. done. Qed.

Lemma persist_bind {B : Type} (persist : Channel -> res Status unit) (f : unit -> method (Channel * NodeState) Status B)
    (c : Channel) (st : NodeState) : (do_persist persist ≫= f) (c, st) = (call (persist c) ≫= f) (c, st).
Proof. done. Qed.

(** ** The setters under a strict validator *)
Section Setters.
Context `{Profile} {V : Type} `{HV : Validator V} {fsk : SecretKey -> PublicKey}.
Context {L : ValidatorLaws V fsk} (v : V) (Hstrict : v_strict v).

Lemma when_strict (b : bool) (tag : string) (u : unit) : when b (Policy_policy_error v tag) = Ok u -> b = false.
Proof. destruct b; [|done]. cbn [when]. intros Hu. by apply v_strict_error in Hu. Qed.

(** The holder side of two enforcement states agrees, and so on. *)
Definition same_holder (e e' : EnforcementState) : Prop :=
  e'.(next_holder_commit_num) = e.(next_holder_commit_num) /\
  e'.(next_holder_commit_info) = e.(next_holder_commit_info) /\
  e'.(current_holder_commit_info) = e.(current_holder_commit_info) /\
  e'.(current_counterparty_signatures) = e.(current_counterparty_signatures).

Definition same_counterparty (e e' : EnforcementState) : Prop :=
  e'.(next_counterparty_commit_num) = e.(next_counterparty_commit_num) /\
  e'.(next_counterparty_revoke_num) = e.(next_counterparty_revoke_num).

(** A number that is the current one or the next one. *)
Lemma expected_number {E : Type} (num cur : Z) (b : bool) :
  0 <= cur -> cur + 1 < 2 ^ 64 ->
  (if num =? cur then Ok false else cur1 ← add_u64 cur 1; Ok (negb (num =? cur1))) = @Ok E _ b ->
  b = false -> num = cur \/ num = cur + 1.
Proof.
  intros H0 H1 Hb ->. destruct (Z.eqb_spec num cur); [by left|].
  rewrite (add_u64_Ok cur 1) in Hb by (unfold uint; lia). cbn [mbind res_bind] in Hb.
  injection Hb as Hb. apply negb_false_iff, Z.eqb_eq in Hb. by right.
Qed.

Lemma set_commit_spec (e e' : EnforcementState) (num : Z) (pt : PublicKey) (info : CommitmentInfo2) (fc : bool) :
  0 <= e.(next_counterparty_revoke_num) -> e.(next_counterparty_revoke_num) + 2 < 2 ^ 64 ->
  0 <= e.(next_counterparty_commit_num) -> e.(next_counterparty_commit_num) + 1 < 2 ^ 64 ->
  set_next_counterparty_commit_num v e num pt info fc = Ok e' ->
  e.(next_counterparty_revoke_num) + 1 <= num /\
  (num = e.(next_counterparty_commit_num) \/ num = e.(next_counterparty_commit_num) + 1) /\
  e'.(next_counterparty_commit_num) = num /\
  e'.(next_counterparty_revoke_num) = e.(next_counterparty_revoke_num) /\ same_holder e e'.
Proof.
  intros Hr0 Hr Hc0 Hc Hs. unfold set_next_counterparty_commit_num in Hs.
  apply bind_Ok in Hs as (u1 & H1 & Hs). apply when_strict in H1. apply Z.eqb_neq in H1.
  apply bind_Ok in Hs as (floor & Hfl & Hs).
  assert (e.(next_counterparty_revoke_num) + 1 <= floor) as Hfloor.
  { destruct (_ || _); rewrite add_u64_Ok in Hfl by (unfold uint; lia); injection Hfl as <-; lia. }
  apply bind_Ok in Hs as (u2 & H2 & Hs). apply when_strict, Z.ltb_ge in H2.
  apply bind_Ok in Hs as (bad & Hbad & Hs). apply bind_Ok in Hs as (u3 & H3 & Hs). apply when_strict in H3.
  pose proof (expected_number num _ bad Hc0 Hc Hbad H3) as Hnum.
  unfold estate_set_next_counterparty_commit_num in Hs. apply bind_Ok in Hs as (u4 & _ & Hs).
  apply bind_Ok in Hs as (c1 & _ & Hs).
  split_and!; [lia|done|..];
    repeat (case_match; try done); injection Hs as <-; done.
Qed.

Lemma set_revoke_spec (e e' : EnforcementState) (num : Z) :
  0 <= num -> num + 2 < 2 ^ 64 -> 0 <= e.(next_counterparty_revoke_num) ->
  e.(next_counterparty_revoke_num) + 1 < 2 ^ 64 ->
  set_next_counterparty_revoke_num v e num = Ok e' ->
  num + 1 <= e.(next_counterparty_commit_num) <= num + 2 /\
  (num = e.(next_counterparty_revoke_num) \/ num = e.(next_counterparty_revoke_num) + 1) /\
  e'.(next_counterparty_revoke_num) = num /\
  e'.(next_counterparty_commit_num) = e.(next_counterparty_commit_num) /\ same_holder e e'.
Proof.
  intros Hn0 Hn Hr0 Hr Hs. unfold set_next_counterparty_revoke_num in Hs.
  apply bind_Ok in Hs as (u1 & _ & Hs).
  rewrite (add_u64_Ok num 2), (add_u64_Ok num 1) in Hs by (unfold uint; lia). cbn [mbind res_bind] in Hs.
  apply bind_Ok in Hs as (u2 & H2 & Hs). apply when_strict, Z.ltb_ge in H2.
  apply bind_Ok in Hs as (u3 & H3 & Hs). apply when_strict, Z.ltb_ge in H3.
  apply bind_Ok in Hs as (bad & Hbad & Hs). apply bind_Ok in Hs as (u4 & H4 & Hs). apply when_strict in H4.
  pose proof (expected_number num _ bad Hr0 Hr Hbad H4) as Hnum.
  unfold estate_set_next_counterparty_revoke_num in Hs. apply bind_Ok in Hs as (u5 & _ & Hs).
  apply bind_Ok in Hs as (n1 & _ & Hs). injection Hs as <-. split_and!; try done; lia.
Qed.

Lemma set_holder_spec (e e' : EnforcementState) (num : Z) (info : CommitmentInfo2) (sigs : CommitmentSignatures) :
  0 <= e.(next_holder_commit_num) -> e.(next_holder_commit_num) + 1 < 2 ^ 64 ->
  set_next_holder_commit_num v e num info sigs = Ok e' ->
  num = e.(next_holder_commit_num) + 1 /\ e' = with_holder e num (Some info) (Some sigs).
Proof.
  intros H0 H1 Hs. unfold set_next_holder_commit_num in Hs. apply bind_Ok in Hs as (bad & _ & Hs).
  apply bind_Ok in Hs as (u & _ & Hs). unfold estate_set_next_holder_commit_num in Hs.
  rewrite add_u64_Ok in Hs by (unfold uint; lia). cbn [mbind res_bind] in Hs.
  apply bind_Ok in Hs as (u2 & Ha & Hs). apply rassert_Ok, Z.eqb_eq in Ha. by injection Hs as <-.
Qed.
End Setters.

Section Outcomes.
Context `{Profile} {V : Type} `{HV : Validator V} (v : V) `{Signer} (set_iter : gset Z -> list Z).
Context (hash_preimage : Z -> Z) (persist : Channel -> res Status unit).

(** The numbers of a channel. *)
Abbreviation commit_num e := (e.(next_counterparty_commit_num)) (only parsing).
Abbreviation revoke_num e := (e.(next_counterparty_revoke_num)) (only parsing).
Abbreviation holder_num e := (e.(next_holder_commit_num)) (only parsing).

Definition channel_same (c c' : Channel) : Prop :=
  c'.(setup) = c.(setup) /\ c'.(id0) = c.(id0) /\ c'.(monitor_state) = c.(monitor_state) /\
  c'.(prev_setup) = c.(prev_setup) /\ c'.(prev_prev_setup) = c.(prev_prev_setup) /\
  c'.(funding_locked) = c.(funding_locked).

(** Signing a counterparty commitment: nothing changes, or every check passed
    and the counterparty number is set. *)
Lemma sign_outcome (c c' : Channel) (st st' : NodeState) (op : OutPoint) (pt : PublicKey)
    (n feerate to_h to_c : Z) (offered received : list HTLCInfo2) (o : res Status (Signature * list Signature)) :
  sign_counterparty_commitment_tx_phase2 v set_iter persist op pt n feerate to_h to_c offered received (c, st)
  = ((c', st'), o) ->
  (c', st') = (c, st) /\ is_ok o = false \/
  exists view info ins outs d n' e fc,
    setup_for_outpoint c op = Ok view /\
    info = build_counterparty_commitment_info to_h to_c offered received feerate /\
    v_validate_counterparty_commitment_tx v c.(enforcement_state) n pt view (get_chain_state c) info = Ok tt /\
    incoming_payments_summary (E:=Status) c.(enforcement_state) None (Some info) = Ok ins /\
    payments_summary (E:=Status) c.(enforcement_state) None (Some info) = Ok outs /\
    claimable_balances c.(enforcement_state) st None (Some info) view c.(prev_setup) = Ok d /\
    validate_payments v set_iter st c.(id0) ins outs d = Ok tt /\
    add_u64 (E:=Status) n 1 = Ok n' /\
    set_next_counterparty_commit_num v c.(enforcement_state) n' pt info fc = Ok e /\
    c' = with_estate c (with_funding_tags e e.(holder_commitment_funding) (Some view.(funding_outpoint))) /\
    (o = Panic \/ apply_payments (E:=Status) v set_iter st c.(id0) ins outs d (Some info) = Ok st' /\
       is_ok o = is_ok (persist c')).
Proof.
  unfold sign_counterparty_commitment_tx_phase2. intros Hm. run_get Hm.
  run_step Hm view Eview; [|by left]. run_step Hm u1 Evalue; [|by left]. run_step Hm d Ed; [|by left].
  run_step Hm ins Eins; [|by left]. run_step Hm u2 Evalid; [|by left]. run_step Hm htlcs Eh; [|by left].
  run_step Hm params Ep; [|by left]. run_step Hm sigs Esig; [|by left]. run_step Hm outs Eouts; [|by left].
  run_step Hm u3 Epay; [|by left]. run_step Hm n' En; [|by left]. run_step Hm e Ee; [|by left].
  rewrite set_estate_bind in Hm. right. destruct u2, u3. apply map_err_Ok in Evalid, Epay, Ee.
  do 8 eexists. split_and!; [exact Eview|done|exact Evalid|exact Eins|exact Eouts|exact Ed|exact Epay|exact En|exact Ee|..].
  - run_step Hm st2 Est2; [|run_end Hm]. rewrite set_state_bind, persist_bind in Hm.
    run_step Hm u4 Ep4; run_end Hm.
  - destruct (apply_payments _ _ _ _ _ _ _ _) as [st2|e2|] eqn:Ea in Hm.
    + right. rewrite call_Ok_bind, set_state_bind in Hm. unfold mbind at 1, method_bind at 1, do_persist in Hm.
      destruct (persist _) as [u|e'|] eqn:Hp in Hm; unfold mbind, method_bind, mret, method_ret in Hm;
        simplify_eq; rewrite Hp; done.
    + by apply no_err_not_Err in Ea; [|apply apply_payments_no_err].
    + left. rewrite call_Panic_bind in Hm. run_end Hm.
Qed.
(** What a method leaves alone. *)
Definition numbers_kept (c c' : Channel) : Prop :=
  same_holder c.(enforcement_state) c'.(enforcement_state) /\
  same_counterparty c.(enforcement_state) c'.(enforcement_state).

Lemma numbers_kept_refl (c : Channel) : numbers_kept c c.
Proof. split; split_and!; done. Qed.

(** The second half, from a channel [c1] with the numbers of [c]. *)
Lemma revocation_tail (c c1 c' : Channel) (st st' : NodeState) (rn : Z) (secret : SecretKey) (o : res Status unit) :
  v_validate_counterparty_revocation v c.(enforcement_state) rn secret = Ok tt -> numbers_kept c c1 ->
  (get_self ≫= fun '(self, _) => call (add_u64 rn 1) ≫= fun next =>
     call (lift_ve (set_next_counterparty_revoke_num v self.(enforcement_state) next)) ≫= fun estate =>
     set_estate estate ≫= fun _ => do_persist persist) (c1, st) = ((c', st'), o) ->
  is_ok o = false /\ numbers_kept c c' \/
  exists e1 num, v_validate_counterparty_revocation v c.(enforcement_state) rn secret = Ok tt /\
    same_holder c.(enforcement_state) e1 /\ same_counterparty c.(enforcement_state) e1 /\
    add_u64 (E:=Status) rn 1 = Ok num /\
    set_next_counterparty_revoke_num v e1 num = Ok c'.(enforcement_state).
Proof.
  intros Ev Hk Hr. run_get Hr. run_step Hr num En; [|simplify_eq; by left].
  run_step Hr e Ee; [|simplify_eq; by left]. apply map_err_Ok in Ee. rewrite set_estate_bind in Hr.
  unfold do_persist in Hr. injection Hr as <- _ _. right. exists c1.(enforcement_state), num.
  destruct Hk. split_and!; done.
Qed.

Lemma revocation_outcome (c c' : Channel) (st st' : NodeState) (rn : Z) (secret : SecretKey) (o : res Status unit) :
  chan_validate_counterparty_revocation v persist rn secret (c, st) = ((c', st'), o) ->
  o = Panic \/ is_ok o = false /\ numbers_kept c c' \/
  exists e1 num, v_validate_counterparty_revocation v c.(enforcement_state) rn secret = Ok tt /\
    same_holder c.(enforcement_state) e1 /\ same_counterparty c.(enforcement_state) e1 /\
    add_u64 (E:=Status) rn 1 = Ok num /\
    set_next_counterparty_revoke_num v e1 num = Ok c'.(enforcement_state).
Proof.
  unfold chan_validate_counterparty_revocation. intros Hm. run_get Hm.
  run_step Hm u1 Ev; [|simplify_eq; right; left; split; [done|apply numbers_kept_refl]].
  destruct u1. apply map_err_Ok in Ev.
  pose proof (fun c1 => revocation_tail c c1 c' st st' rn secret o Ev) as Hrest.
  destruct (counterparty_secrets (enforcement_state c)) as [secrets|]; [|].
  - unfold mbind at 1, method_bind at 1 in Hm.
    destruct (backwards rn) as [idx|e|] eqn:Eb; [|unfold backwards, sub_u64 in Eb; by apply no_err_not_Err in Eb; [|apply no_err_arith]|].
    + rewrite call_Ok_bind in Hm. destruct (provide_secret _ _ _ _) as [secrets'|e|].
      * right. eapply Hrest; [|exact Hm]. split; split_and!; done.
      * destruct (lift_ve _) as [[]|e'|]; unfold call in Hm; [|injection Hm as <- <- <-; right; left; split; [done|apply numbers_kept_refl]|].
        -- right. apply (Hrest c (numbers_kept_refl c) Hm).
        -- injection Hm as <- <- <-. by left.
      * unfold call in Hm. injection Hm as <- <- <-. by left.
    + rewrite call_Panic_bind in Hm. injection Hm as <- <- <-. by left.
  - right. apply (Hrest c (numbers_kept_refl c) Hm).
Qed.
(** Validating a holder commitment: nothing changes, or its checks passed and
    the state is what [store_holder_commitment] makes of it. *)
Lemma validate_holder_outcome (c c' : Channel) (st st' : NodeState) (op : OutPoint) (n feerate to_h to_c : Z)
    (offered received : list HTLCInfo2) (sig : Signature) (hsigs : list Signature) (o : res Status unit) :
  validate_holder_commitment_tx_phase2 v set_iter persist op n feerate to_h to_c offered received sig hsigs (c, st)
  = ((c', st'), o) ->
  (c', st') = (c, st) /\ is_ok o = false \/
  exists view pt info tx e,
    v_validate_holder_commitment_tx v c.(enforcement_state) n pt view (get_chain_state c) info = Ok tt /\
    check_holder_tx_signatures c pt sig hsigs tx = Ok tt /\
    store_holder_commitment (E:=Status) c.(enforcement_state) view n info (mkCommitmentSignatures sig hsigs) = Ok e /\
    c' = with_estate c e /\ st' = st.
Proof.
  unfold validate_holder_commitment_tx_phase2. intros Hm. run_get Hm.
  run_step Hm view Eview; [|by left]. run_step Hm pt Ept; [|by left]. run_step Hm d Ed; [|by left].
  run_step Hm ins Eins; [|by left]. run_step Hm u2 Evalid; [|by left]. run_step Hm htlcs Eh; [|by left].
  run_step Hm tx Etx; [|by left]. run_step Hm u3 Esig; [|by left]. run_step Hm outs Eouts; [|by left].
  run_step Hm u4 Epay; [|by left]. run_step Hm e Ee; [|by left]. rewrite set_estate_bind in Hm.
  unfold do_persist in Hm. injection Hm as <- <- _. right. destruct u2, u3. apply map_err_Ok in Evalid.
  by exists view, pt, (build_holder_commitment_info to_h to_c offered received feerate), tx, e.
Qed.

(** Where a stored holder commitment goes. *)
Lemma store_holder_spec {E : Type} (e e' : EnforcementState) (view : ChannelSetup) (n : Z) (info : CommitmentInfo2)
    (sigs : CommitmentSignatures) :
  store_holder_commitment (E:=E) e view n info sigs = Ok e' ->
  e'.(next_holder_commit_num) = e.(next_holder_commit_num) /\ same_counterparty e e' /\
  (e'.(next_holder_commit_info) = e.(next_holder_commit_info) \/
   n = e.(next_holder_commit_num) /\ e'.(next_holder_commit_info) = Some (info, sigs)).
Proof.
  unfold store_holder_commitment. destruct (Z.eqb_spec n e.(next_holder_commit_num)).
  - intros [= <-]. split_and!; try done. by right.
  - destruct (prev_funding_commitment e); [|intros [= <-]; split_and!; try done; by left].
    intros Hs. apply bind_Ok in Hs as (n1 & _ & Hs). injection Hs as <-.
    destruct (_ && _); split_and!; try done; by left.
Qed.

Lemma advance_cases (c c2 : Channel) (st st2 : NodeState) (n : Z) (info : CommitmentInfo2)
    (sigs : CommitmentSignatures) (r : res Status (PublicKey * option SecretKey)) :
  advance_holder_commitment_state v n info sigs (c, st) = ((c2, st2), r) ->
  st2 = st /\
  (c2 = c /\ is_ok r = false \/
   exists num e, add_u64 (E:=Status) n 1 = Ok num /\
     set_next_holder_commit_num v c.(enforcement_state) num info sigs = Ok e /\ c2 = with_estate c e).
Proof.
  unfold advance_holder_commitment_state. intros Hm. run_get Hm.
  run_step Hm num En; [|simplify_eq; split; [done|by left]].
  run_step Hm e Ee; [|simplify_eq; split; [done|by left]]. apply map_err_Ok in Ee.
  rewrite set_estate_bind in Hm. run_get Hm. unfold call in Hm. injection Hm as <- <- _.
  split; [done|]. right. by exists num, e.
Qed.

(** Revoking: the secret of an older commitment is looked up, or the pending
    commitment becomes current. *)
Lemma revoke_outcome (c c' : Channel) (st st' : NodeState) (n : Z) (o : res Status (PublicKey * option SecretKey)) :
  revoke_previous_holder_commitment v set_iter persist n (c, st) = ((c', st'), o) ->
  o = Panic \/
  c' = c /\ st' = st /\
    (o = release_commitment_secret v c n \/
     is_ok o = false \/ Policy_policy_error v "policy-revoke-new-commitment-signed" = Ok tt) \/
  exists info sigs, n = c.(enforcement_state).(next_holder_commit_num) /\
    c.(enforcement_state).(next_holder_commit_info) = Some (info, sigs) /\
    let e1 := with_next_holder c.(enforcement_state) None in
    (is_ok o = false /\ c' = with_estate c e1 \/
     exists num e, add_u64 (E:=Status) n 1 = Ok num /\ set_next_holder_commit_num v e1 num info sigs = Ok e /\
       c' = with_estate (with_estate c e1) e).
Proof.
  unfold revoke_previous_holder_commitment. intros Hm. run_get Hm.
  destruct (Z.eqb_spec n c.(enforcement_state).(next_holder_commit_num)) as [->|Hne]; cbn [negb] in Hm.
  2: { unfold call in Hm. injection Hm as <- <- <-. right. left. auto. }
  destruct (next_holder_commit_info (enforcement_state c)) as [[info sigs]|] eqn:Hp.
  2: { run_step Hm u Eu; [|simplify_eq; right; left; auto]. destruct u. apply map_err_Ok in Eu.
       run_step Hm pt Ept; [|simplify_eq; right; left; auto]. unfold mret, method_ret in Hm. simplify_eq.
       right. left. auto. }
  rewrite set_estate_bind in Hm. right. right. exists info, sigs. split_and!; [done|done|].
  run_step Hm ins Eins; [|simplify_eq; by left]. run_step Hm outs Eouts; [|simplify_eq; by left].
  run_step Hm d Ed; [|simplify_eq; by left]. unfold mbind at 1, method_bind at 1 in Hm.
  destruct (advance_holder_commitment_state _ _ _ _ _) as [[c2 st2] r] eqn:Ha.
  assert (Hc : (c', st') = (c2, st2) /\ is_ok o = is_ok r \/ exists x, r = Ok x /\ c' = c2).
  { destruct r as [x|e|]; [|injection Hm as <- <- <-; by left..]. right. exists x. split; [done|].
    run_step Hm st3 Est; [|by simplify_eq]. rewrite set_state_bind, persist_bind in Hm.
    run_step Hm u4 Ep4; run_end Hm. }
  apply advance_cases in Ha as [-> Ha]. destruct Ha as [[-> Hno]|(num & e & En & Ee & ->)].
  - left. destruct Hc as [[Heq Ho']|(x & -> & _)]; [|done]. simplify_eq. by rewrite Ho', Hno.
  - right. exists num, e. split_and!; [done|done|]. destruct Hc as [[Heq _]|(x & _ & ->)]; by simplify_eq.
Qed.

Lemma activate_outcome (c c' : Channel) (st st' : NodeState) (o : res Status PublicKey) :
  activate_initial_commitment persist (c, st) = ((c', st'), o) ->
  o = Panic \/ c' = c \/
  exists info sigs, c.(enforcement_state).(next_holder_commit_info) = Some (info, sigs) /\
    c'.(enforcement_state).(next_holder_commit_info) = None /\
    same_counterparty c.(enforcement_state) c'.(enforcement_state) /\
    (c'.(enforcement_state).(next_holder_commit_num) = c.(enforcement_state).(next_holder_commit_num) \/
     c.(enforcement_state).(next_holder_commit_num) = 0 /\ c'.(enforcement_state).(next_holder_commit_num) = 1).
Proof.
  unfold activate_initial_commitment. intros Hm. run_get Hm.
  destruct (_ || _); [unfold call in Hm; simplify_eq; auto|].
  destruct (next_holder_commit_info (enforcement_state c)) as [[info sigs]|] eqn:Hp;
    [|unfold call in Hm; simplify_eq; auto].
  assert (Htail : forall e, (set_estate e ≫= fun _ => do_persist persist ≫= fun _ =>
            call (get_per_commitment_point_unchecked 1)) (c, st) = ((c', st'), o) -> c' = with_estate c e).
  { intros e Ht. rewrite set_estate_bind, persist_bind in Ht. run_step Ht u Eu; run_end Ht. }
  destruct (Z.eqb_spec (next_holder_commit_num (enforcement_state c)) 0) as [Hz|Hz].
  - run_step Hm e Ee; [|simplify_eq; auto]. apply Htail in Hm as ->.
    unfold estate_set_next_holder_commit_num in Ee. apply bind_Ok in Ee as (x & _ & Ee).
    apply bind_Ok in Ee as (u & _ & Ee). injection Ee as <-. right. right. exists info, sigs.
    split_and!; try done. by right.
  - unfold mbind at 1, method_bind at 1, mret, method_ret in Hm. apply Htail in Hm as ->.
    right. right. exists info, sigs. split_and!; try done. by left.
Qed.

Lemma sign_holder_outcome (c c' : Channel) (st st' : NodeState) (n : Z) (o : res Status Signature) :
  sign_holder_commitment_tx_phase2 v persist n (c, st) = ((c', st'), o) ->
  c' = c /\ is_ok o = false \/
  c' = with_estate c (with_closed c.(enforcement_state) true) /\
  exists closable, get_holder_commitment_for_close v c n = Ok closable.
Proof.
  unfold sign_holder_commitment_tx_phase2. intros Hm. run_get Hm.
  run_step Hm cl Ecl; [|simplify_eq; by left]. run_step Hm tx Etx; [|simplify_eq; by left].
  run_step Hm sg Esig; [|simplify_eq; by left]. rewrite set_estate_bind, persist_bind in Hm. right.
  split; [|by exists cl]. run_step Hm u Eu; run_end Hm.
Qed.

Lemma lock_outcome (c c' : Channel) (st st' : NodeState) (op : OutPoint) (o : res Status unit) :
  confirm_funding_locked persist op (c, st) = ((c', st'), o) ->
  c'.(enforcement_state).(next_holder_commit_num) = c.(enforcement_state).(next_holder_commit_num) /\
  c'.(enforcement_state).(next_holder_commit_info) = c.(enforcement_state).(next_holder_commit_info) /\
  same_counterparty c.(enforcement_state) c'.(enforcement_state).
Proof.
  unfold confirm_funding_locked. intros Hm. run_get Hm.
  case_bool_decide; [unfold mret, method_ret in Hm; by simplify_eq|].
  case_bool_decide; [unfold call in Hm; by simplify_eq|].
  destruct (if _ <=? _ then _ else _) as [to_h to_c]. cbv beta iota in Hm.
  injection Hm as <- _ _. destruct (_ || _); done.
Qed.

Lemma splice_outcome (validate_setup : ChannelSetup -> res ValidationError unit) (persist_tracker : res Status unit)
    (ms : ChainState) (new_setup : ChannelSetup) (c c' : Channel) (st st' : NodeState) (o : res Status unit) :
  splice_setup persist validate_setup persist_tracker ms new_setup (c, st) = ((c', st'), o) ->
  c' = c \/
  c'.(enforcement_state) = snapshot_funding_for_splice c.(enforcement_state) c.(setup).(funding_outpoint)
                             c.(setup).(push_value_msat) /\
  c'.(setup) = new_setup /\ c'.(prev_setup) = Some c.(setup) /\ st' = st.
Proof.
  unfold splice_setup. intros Hm. run_get Hm.
  case_bool_decide; [unfold mret, method_ret in Hm; simplify_eq; by left|].
  destruct (negb _); [unfold call in Hm; simplify_eq; by left|].
  run_step Hm od Eod; [|simplify_eq; by left].
  destruct od; [unfold call in Hm; simplify_eq; by left|]. right. unfold mbind at 1, method_bind at 1, set_self in Hm.
  run_step Hm u1 E1; [|by simplify_eq]. run_step Hm u2 E2; [|by simplify_eq].
  unfold do_persist in Hm. by injection Hm as <- <- _.
Qed.
End Outcomes.

(** ** Histories of a channel *)

(** What the outside sees: signatures and secrets given out, commitments and
    revocations accepted. *)
Inductive event :=
| SignedCounterparty (n : Z)
| CounterpartyRevoked (n : Z)
| ValidatedHolder (n : Z)
| Released (n : Z)
| SignedHolder (n : Z).

Section History.
Context `{Profile} {V : Type} `{HV : Validator V} `{Signer} {L : ValidatorLaws V from_secret_key} (v : V).
Context (set_iter : gset Z -> list Z) (hash_preimage : Z -> Z) (persist : Channel -> res Status unit).

Abbreviation chan_state := (Channel * NodeState)%type (only parsing).

Definition when_ok {A : Type} (o : res Status A) (ev : event) : list event := if is_ok o then [ev] else [].

(** The events of validating holder commitment [n]: it counts as validated when
    the call succeeds, and also when it fails after storing it. *)
Definition validated_events (c c' : Channel) (o : res Status unit) (n : Z) : list event :=
  if is_ok o || bool_decide (c'.(enforcement_state).(next_holder_commit_info)
                             <> c.(enforcement_state).(next_holder_commit_info))
  then [ValidatedHolder n] else [].

Definition released_events (o : res Status (PublicKey * option SecretKey)) (n : Z) : list event :=
  match o with Ok (_, Some _) => [Released (n - 1)] | _ => [] end.

(** Numbers on the wire: far below the range of 64-bit integers (commitment
    numbers have 48 bits). *)
Definition small (n : Z) : Prop := 0 <= n < 2 ^ 62.

Definition numbers_small (c : Channel) : Prop :=
  small c.(enforcement_state).(next_holder_commit_num) /\
  small c.(enforcement_state).(next_counterparty_commit_num) /\
  small c.(enforcement_state).(next_counterparty_revoke_num).

(** One call, successful or not; a panic poisons the lock of the channel. *)
Inductive chan_step : chan_state -> list event -> chan_state -> Prop :=
| step_sign_counterparty c st c' st' op pt n feerate to_h to_c offered received o :
    small n -> o <> Panic ->
    sign_counterparty_commitment_tx_phase2 v set_iter persist op pt n feerate to_h to_c offered received (c, st)
      = ((c', st'), o) ->
    chan_step (c, st) (when_ok o (SignedCounterparty n)) (c', st')
| step_revocation c st c' st' n secret o :
    small n -> o <> Panic ->
    chan_validate_counterparty_revocation v persist n secret (c, st) = ((c', st'), o) ->
    chan_step (c, st) (when_ok o (CounterpartyRevoked n)) (c', st')
| step_validate_holder c st c' st' op n feerate to_h to_c offered received sig hsigs o :
    small n -> o <> Panic ->
    validate_holder_commitment_tx_phase2 v set_iter persist op n feerate to_h to_c offered received sig hsigs (c, st)
      = ((c', st'), o) ->
    chan_step (c, st) (validated_events c c' o n) (c', st')
| step_revoke c st c' st' n o :
    small n -> o <> Panic ->
    revoke_previous_holder_commitment v set_iter persist n (c, st) = ((c', st'), o) ->
    chan_step (c, st) (released_events o n) (c', st')
| step_secret c st n secret :
    small n -> get_per_commitment_secret v c n = Ok secret -> chan_step (c, st) [Released n] (c, st)
| step_secret_or_none c st n secret :
    small n -> get_per_commitment_secret_or_none c n = Ok (Some secret) -> chan_step (c, st) [Released n] (c, st)
| step_activate c st c' st' o :
    o <> Panic -> activate_initial_commitment persist (c, st) = ((c', st'), o) -> chan_step (c, st) [] (c', st')
| step_sign_holder c st c' st' n o :
    small n -> o <> Panic ->
    sign_holder_commitment_tx_phase2 v persist n (c, st) = ((c', st'), o) ->
    chan_step (c, st) (when_ok o (SignedHolder n)) (c', st')
| step_lock c st c' st' op o :
    confirm_funding_locked persist op (c, st) = ((c', st'), o) -> chan_step (c, st) [] (c', st')
| step_splice c st c' st' validate_setup persist_tracker ms new_setup o :
    splice_setup persist validate_setup persist_tracker ms new_setup (c, st) = ((c', st'), o) ->
    chan_step (c, st) [] (c', st')
| step_node c st c' st' :
    c'.(enforcement_state) = c.(enforcement_state) -> chan_step (c, st) [] (c', st').

(** A history with its events, oldest first. *)
Inductive history (s0 : chan_state) : list event -> chan_state -> Prop :=
| history_start : history s0 [] s0
| history_step t s ev s' : history s0 t s -> numbers_small s.1 -> chan_step s ev s' -> history s0 (t ++ ev) s'.

(** What holds after the events [t]. *)
Record channel_inv (t : list event) (c : Channel) : Prop := {
  inv_counterparty :
    c.(enforcement_state).(next_counterparty_commit_num) = 0 /\ c.(enforcement_state).(next_counterparty_revoke_num) = 0 \/
    c.(enforcement_state).(next_counterparty_revoke_num) + 1
      <= c.(enforcement_state).(next_counterparty_commit_num)
      <= c.(enforcement_state).(next_counterparty_revoke_num) + 2;
  inv_revoked : forall n, CounterpartyRevoked n ∈ t -> n < c.(enforcement_state).(next_counterparty_revoke_num);
  inv_released : forall n, Released n ∈ t -> n + 2 <= c.(enforcement_state).(next_holder_commit_num);
  inv_validated : forall n, 0 <= n < c.(enforcement_state).(next_holder_commit_num) -> ValidatedHolder n ∈ t;
  inv_pending : is_Some c.(enforcement_state).(next_holder_commit_info) ->
    ValidatedHolder c.(enforcement_state).(next_holder_commit_num) ∈ t;
  inv_nonneg : 0 <= c.(enforcement_state).(next_holder_commit_num) /\
    0 <= c.(enforcement_state).(next_counterparty_commit_num) /\ 0 <= c.(enforcement_state).(next_counterparty_revoke_num)
}.

(** What each event promises, given the events before it. *)
Definition event_ok (t : list event) (ev : event) : Prop :=
  match ev with
  | SignedCounterparty n => forall m, CounterpartyRevoked m ∈ t -> m < n
  | SignedHolder n => forall m, Released m ∈ t -> m < n
  | Released n => 0 <= n -> ValidatedHolder (n + 1) ∈ t
  | _ => True
  end.
Abbreviation h c := (c.(enforcement_state).(next_holder_commit_num)) (only parsing).
Abbreviation cm c := (c.(enforcement_state).(next_counterparty_commit_num)) (only parsing).
Abbreviation rv c := (c.(enforcement_state).(next_counterparty_revoke_num)) (only parsing).
Abbreviation pending c := (c.(enforcement_state).(next_holder_commit_info)) (only parsing).

Lemma inv_step (t evs : list event) (c c' : Channel) :
  channel_inv t c ->
  (cm c' = 0 /\ rv c' = 0 \/ rv c' + 1 <= cm c' <= rv c' + 2) -> rv c <= rv c' -> h c <= h c' ->
  (forall n, CounterpartyRevoked n ∈ evs -> n < rv c') ->
  (forall n, Released n ∈ evs -> n + 2 <= h c') ->
  (forall n, h c <= n < h c' -> ValidatedHolder n ∈ t ++ evs) ->
  (is_Some (pending c') -> ValidatedHolder (h c') ∈ t ++ evs) ->
  channel_inv (t ++ evs) c'.
Proof.
  intros [I1 I2 I3 I4 I5 I6] Hcp Hrv Hh E1 E2 E3 E4. split; [done|..]; [| | |done|lia].
  - intros n [Hn|Hn]%elem_of_app; [|by apply E1]. specialize (I2 n Hn). lia.
  - intros n [Hn|Hn]%elem_of_app; [|by apply E2]. specialize (I3 n Hn). lia.
  - intros n Hn. destruct (Z.lt_ge_cases n (h c)); [|apply E3; lia]. apply elem_of_app. left. apply I4. lia.
Qed.

(** A call that moves no number and adds no pending commitment. *)
Lemma inv_same (t evs : list event) (c c' : Channel) :
  channel_inv t c -> same_counterparty c.(enforcement_state) c'.(enforcement_state) ->
  h c' = h c -> (is_Some (pending c') -> is_Some (pending c)) ->
  (forall n, CounterpartyRevoked n ∉ evs) -> (forall n, Released n ∈ evs -> n + 2 <= h c) ->
  channel_inv (t ++ evs) c'.
Proof.
  intros Hi [Hc Hr] Hh Hp E1 E2. assert (Hi' := Hi). destruct Hi as [I1 I2 I3 I4 I5 I6].
  apply (inv_step t evs c c'); rewrite ?Hc, ?Hr, ?Hh; try done; try lia.
  - intros n Hn. by apply E1 in Hn.
  - intros Hs. apply elem_of_app. left. auto.
Qed.

Lemma secret_spec (c : Channel) (n : Z) (secret : SecretKey) :
  v_strict v -> small n -> get_per_commitment_secret v c n = Ok secret -> n + 2 <= h c.
Proof.
  intros Hs [Hn0 Hn] Hg. unfold get_per_commitment_secret in Hg.
  rewrite (add_u64_Ok n 2) in Hg by (unfold uint; lia). cbn [mbind res_bind] in Hg.
  apply bind_Ok in Hg as (u & Hu & _). destruct (Z.ltb_spec (h c) (n + 2)); [|lia].
  cbn [when] in Hu. apply map_err_Ok in Hu. by apply v_strict_error in Hu.
Qed.

Lemma secret_or_none_spec (c : Channel) (n : Z) (secret : SecretKey) :
  small n -> get_per_commitment_secret_or_none c n = Ok (Some secret) -> n + 2 <= h c.
Proof.
  intros [Hn0 Hn] Hg. unfold get_per_commitment_secret_or_none in Hg.
  rewrite (add_u64_Ok n 2) in Hg by (unfold uint; lia). cbn [mbind res_bind] in Hg.
  destruct (Z.ltb_spec (h c) (n + 2)); [done|lia].
Qed.

Lemma release_spec (c : Channel) (n : Z) (pt : PublicKey) (secret : SecretKey) :
  v_strict v -> small n -> release_commitment_secret v c n = Ok (pt, Some secret) -> 0 <= n - 1 /\ n + 1 <= h c.
Proof.
  intros Hs Hn Hr. unfold release_commitment_secret in Hr. apply bind_Ok in Hr as (n1 & _ & Hr).
  apply bind_Ok in Hr as (p & _ & Hr). apply bind_Ok in Hr as (os & Hos & Hr). injection Hr as -> ->.
  destruct (Z.leb_spec 1 n); [|done]. apply bind_Ok in Hos as (s & Hs' & _).
  apply secret_spec in Hs'; [|done|unfold small in *; lia]. lia.
Qed.

(** The commitment that closing signs is not one that can have been revoked. *)
Lemma close_spec (c : Channel) (n : Z) (cl : ClosableHolderCommitment) :
  v_strict v -> small n -> get_holder_commitment_for_close v c n = Ok cl -> h c <= n + 1.
Proof.
  intros Hs [Hn0 Hn] Hg. unfold get_holder_commitment_for_close in Hg.
  destruct (Z.eqb_spec n (h c)); [lia|]. apply bind_Ok in Hg as (info & Hi & _). apply map_err_Ok in Hi.
  unfold get_current_holder_commitment_info in Hi. rewrite (add_u64_Ok n 1) in Hi by (unfold uint; lia).
  cbn [mbind res_bind] in Hi. apply bind_Ok in Hi as (u & Hu & _).
  destruct (Z.eqb_spec (n + 1) (h c)); [lia|]. cbn [negb when] in Hu. by apply v_strict_error in Hu.
Qed.
Context (Hstrict : v_strict v).

Lemma not_elem_when_ok {A : Type} (o : res Status A) (ev ev' : event) : ev' <> ev -> ev' ∉ when_ok o ev.
Proof.
  intros Hne. unfold when_ok. destruct (is_ok o); [|apply not_elem_of_nil].
  by rewrite list_elem_of_singleton.
Qed.

Lemma not_elem_validated (c c' : Channel) (o : res Status unit) (n : Z) (ev : event) :
  ev <> ValidatedHolder n -> ev ∉ validated_events c c' o n.
Proof.
  intros Hne. unfold validated_events. destruct (_ || _); [|apply not_elem_of_nil].
  by rewrite list_elem_of_singleton.
Qed.

Lemma sign_step (t : list event) (c c' : Channel) (st st' : NodeState) (op : OutPoint) (pt : PublicKey)
    (n feerate to_h to_c : Z) (offered received : list HTLCInfo2) (o : res Status (Signature * list Signature)) :
  small n -> numbers_small c -> channel_inv t c ->
  sign_counterparty_commitment_tx_phase2 v set_iter persist op pt n feerate to_h to_c offered received (c, st)
    = ((c', st'), o) ->
  channel_inv (t ++ when_ok o (SignedCounterparty n)) c' /\ Forall (event_ok t) (when_ok o (SignedCounterparty n)).
Proof.
  intros Hn (Hh & Hc & Hr) Hi Hm. unfold small in *.
  apply sign_outcome in Hm as [[Heq Ho]|(view & info & ins & outs & d & n' & e & fc & _ & _ & Hval & _ & _ & _ & _ & Hn' & Hset & -> & _)].
  - injection Heq as -> ->. unfold when_ok. rewrite Ho, app_nil_r. split; [done|constructor].
  - rewrite add_u64_Ok in Hn' by (unfold uint; lia). injection Hn' as <-.
    apply (v_counterparty_number (ValidatorLaws:=L)) in Hval; [|done|lia|lia].
    apply (set_commit_spec v Hstrict) in Hset as (Hfl & Hnum & Hcm & Hrv & Hh1 & Hp & _); [|lia..].
    split.
    + eapply inv_step; [exact Hi|..]; cbn [with_estate enforcement_state with_funding_tags next_counterparty_commit_num
        next_counterparty_revoke_num next_holder_commit_num next_holder_commit_info]; rewrite ?Hcm, ?Hrv, ?Hh1; try lia.
      * intros m Hm. by apply not_elem_when_ok in Hm.
      * intros m Hm. by apply not_elem_when_ok in Hm.
      * rewrite Hp. intros Hs. apply elem_of_app. left. by apply (inv_pending _ _ Hi).
    + unfold when_ok. destruct (is_ok o); [|constructor]. constructor; [|constructor].
      intros m Hm. apply (inv_revoked _ _ Hi) in Hm. lia.
Qed.

Lemma revocation_step (t : list event) (c c' : Channel) (st st' : NodeState) (n : Z) (secret : SecretKey)
    (o : res Status unit) :
  small n -> o <> Panic -> numbers_small c -> channel_inv t c ->
  chan_validate_counterparty_revocation v persist n secret (c, st) = ((c', st'), o) ->
  channel_inv (t ++ when_ok o (CounterpartyRevoked n)) c'.
Proof.
  intros Hn Hpanic (Hh & Hc & Hr) Hi Hm. unfold small in *.
  apply revocation_outcome in Hm as [?|[[Ho [Hsh Hsc]]|(e1 & num & _ & Hsh & Hsc & Hnum & Hset)]]; [done|..].
  - unfold when_ok. rewrite Ho. destruct Hsh as (Hh1 & Hp1 & _).
    apply (inv_same t [] c c'); try done; [by rewrite Hp1|intros m Hm; by apply not_elem_of_nil in Hm..].
  - destruct Hsh as (Hh1 & Hp1 & _), Hsc as [Hc1 Hr1].
    rewrite add_u64_Ok in Hnum by (unfold uint; lia). injection Hnum as <-.
    apply (set_revoke_spec v Hstrict) in Hset as (Hb & Heq & Hrv & Hcm & (Hh2 & Hp2 & _)); [|lia..].
    rewrite Hc1, Hr1 in *. eapply inv_step; [exact Hi|..]; rewrite ?Hrv, ?Hcm, ?Hh2, ?Hh1; try lia.
    + intros m Hm. unfold when_ok in Hm. destruct (is_ok o); [|by apply not_elem_of_nil in Hm].
      apply list_elem_of_singleton in Hm. injection Hm as ->. lia.
    + intros m Hm. by apply not_elem_when_ok in Hm.
    + rewrite Hp2, Hp1. intros Hs. apply elem_of_app. left. by apply (inv_pending _ _ Hi).
Qed.

Lemma validate_holder_step (t : list event) (c c' : Channel) (st st' : NodeState) (op : OutPoint)
    (n feerate to_h to_c : Z) (offered received : list HTLCInfo2) (sig : Signature) (hsigs : list Signature)
    (o : res Status unit) :
  channel_inv t c ->
  validate_holder_commitment_tx_phase2 v set_iter persist op n feerate to_h to_c offered received sig hsigs (c, st)
    = ((c', st'), o) ->
  channel_inv (t ++ validated_events c c' o n) c'.
Proof.
  intros Hi Hm.
  assert (Hneg : forall ev, (forall k, ev <> ValidatedHolder k) -> ev ∉ validated_events c c' o n).
  { intros ev Hev. apply not_elem_validated. apply Hev. }
  apply validate_holder_outcome in Hm as [[Heq Ho]|(view & pt & info & tx & e & _ & _ & Hst & -> & ->)].
  - injection Heq as -> ->. apply (inv_same t _ c c); try done.
    + intros m. by apply Hneg.
    + intros m Hm. by apply Hneg in Hm.
  - apply store_holder_spec in Hst as (Hh & [Hc Hr] & Hp). destruct Hp as [Hp|[-> Hp]].
    + apply (inv_same t _ c); try done; [cbn; by rewrite Hp|intros m; by apply Hneg|intros m Hm; by apply Hneg in Hm].
    + eapply inv_step; [exact Hi|..]; cbn [with_estate enforcement_state]; rewrite ?Hh, ?Hc, ?Hr; try lia.
      * apply (inv_counterparty _ _ Hi).
      * intros m Hm. by apply Hneg in Hm.
      * intros m Hm. by apply Hneg in Hm.
      * intros _. apply elem_of_app. unfold validated_events. cbn [with_estate enforcement_state]. rewrite Hp.
        case_bool_decide as Hd; [rewrite orb_true_r; right; apply list_elem_of_here|].
        left. apply (inv_pending _ _ Hi). rewrite <- Hd. by eexists.
Qed.
Lemma released_elem (o : res Status (PublicKey * option SecretKey)) (n : Z) (ev : event) :
  ev ∈ released_events o n -> ev = Released (n - 1) /\ exists pt secret, o = Ok (pt, Some secret).
Proof.
  unfold released_events. destruct o as [[pt [secret|]]|e|]; intros Hev;
    [|by apply not_elem_of_nil in Hev..]. apply list_elem_of_singleton in Hev. split; [done|]. by exists pt, secret.
Qed.

(** Releasing the secret of a commitment that is two behind. *)
Lemma released_ok (t : list event) (c : Channel) (n : Z) :
  channel_inv t c -> n + 2 <= h c -> event_ok t (Released n).
Proof. intros Hi Hn Hn0. apply (inv_validated _ _ Hi). lia. Qed.

Lemma revoke_step (t : list event) (c c' : Channel) (st st' : NodeState) (n : Z)
    (o : res Status (PublicKey * option SecretKey)) :
  small n -> o <> Panic -> numbers_small c -> channel_inv t c ->
  revoke_previous_holder_commitment v set_iter persist n (c, st) = ((c', st'), o) ->
  channel_inv (t ++ released_events o n) c' /\ Forall (event_ok t) (released_events o n).
Proof.
  intros Hn Hpanic (Hh & _ & _) Hi Hm.
  apply revoke_outcome in Hm as [?|[(-> & -> & Ho)|(info & sigs & -> & Hpend & Hor)]]; [done|..].
  - assert (Hrel : forall ev, ev ∈ released_events o n -> exists m, ev = Released m /\ m + 2 <= h c).
    { intros ev Hev. apply released_elem in Hev as (-> & pt & secret & ->). exists (n - 1). split; [done|].
      destruct Ho as [Ho|[Ho|Ho]]; [|done|by apply v_strict_error in Ho].
      symmetry in Ho. apply release_spec in Ho; [lia|done|done]. }
    split.
    + apply (inv_same t _ c c); try done.
      * intros m Hm. apply Hrel in Hm as (m' & ? & _). done.
      * intros m Hm. apply Hrel in Hm as (m' & [= ->] & Hle). done.
    + apply Forall_forall. intros ev Hev. apply Hrel in Hev as (m & -> & Hle). by apply released_ok with c.
  - assert (Hv : ValidatedHolder (h c) ∈ t) by (apply (inv_pending _ _ Hi); rewrite Hpend; by eexists).
    destruct Hor as [[Ho ->]|(num & e & Hnum & Hset & ->)].
    + assert (released_events o (h c) = []) as -> by (destruct o as [[? ?]| |]; done). split; [|constructor].
      apply (inv_same t [] c); try done; [intros m Hm; by apply not_elem_of_nil in Hm..].
    + unfold small in *. rewrite add_u64_Ok in Hnum by (unfold uint; lia). injection Hnum as <-.
      apply (set_holder_spec v) in Hset as [_ ->]; cbn [with_next_holder next_holder_commit_num]; [|lia..]. split.
      * eapply inv_step; [exact Hi|..]; cbn [with_estate enforcement_state with_holder with_next_holder
          next_counterparty_commit_num next_counterparty_revoke_num next_holder_commit_num next_holder_commit_info];
          try lia; [apply (inv_counterparty _ _ Hi)|..].
        -- intros m Hm. apply released_elem in Hm as [? _]. done.
        -- intros m Hm. apply released_elem in Hm as [[= ->] _]. lia.
        -- intros m Hm. apply elem_of_app. left. by replace m with (h c) by lia.
        -- by intros [? ?].
      * apply Forall_forall. intros ev Hev. apply released_elem in Hev as [-> _]. intros _.
        by replace (h c - 1 + 1) with (h c) by lia.
Qed.

Lemma chan_step_inv (t evs : list event) (s s' : chan_state) :
  numbers_small s.1 -> channel_inv t s.1 -> chan_step s evs s' ->
  channel_inv (t ++ evs) s'.1 /\ Forall (event_ok t) evs.
Proof.
  assert (Hnil1 : forall n, CounterpartyRevoked n ∉ []) by (intros; apply not_elem_of_nil).
  assert (Hnil2 : forall n, Released n ∈ [] -> n + 2 <= h s.1) by (intros m Hm; by apply not_elem_of_nil in Hm).
  intros Hsm Hi Hstep. destruct Hstep as [c st c' st' op pt n feerate to_h to_c offered received o Hn Ho Hm
    |c st c' st' n secret o Hn Ho Hm|c st c' st' op n feerate to_h to_c offered received sig hsigs o Hn Ho Hm
    |c st c' st' n o Hn Ho Hm|c st n secret Hn Hs|c st n secret Hn Hs|c st c' st' o Ho Hm|c st c' st' n o Hn Ho Hm
    |c st c' st' op o Hm|c st c' st' vs pt ms ns o Hm|c st c' st' He]; cbn [fst] in *.
  - by eapply sign_step.
  - split; [by eapply revocation_step|]. unfold when_ok. destruct (is_ok o); repeat constructor.
  - split; [by eapply validate_holder_step|]. unfold validated_events. destruct (_ || _); repeat constructor.
  - by eapply revoke_step.
  - apply secret_spec in Hs; [|done|done]. split; [|constructor; [by apply released_ok with c|constructor]].
    apply (inv_same t _ c c); try done; intros m Hm; apply list_elem_of_singleton in Hm; [done|]. by injection Hm as ->.
  - apply secret_or_none_spec in Hs; [|done]. split; [|constructor; [by apply released_ok with c|constructor]].
    apply (inv_same t _ c c); try done; intros m Hm; apply list_elem_of_singleton in Hm; [done|]. by injection Hm as ->.
  - split; [|constructor].
    apply activate_outcome in Hm as [?|[->|(info & sigs & Hp & Hp' & Hc & Hor)]]; [done|by rewrite app_nil_r|].
    destruct Hor as [Hh|[Hh0 Hh1]].
    + apply (inv_same t [] c); try done.
    + destruct Hc as [Hc Hr]. eapply inv_step; [exact Hi|..]; rewrite ?Hc, ?Hr, ?Hh0, ?Hh1; try lia.
      * apply (inv_counterparty _ _ Hi).
      * intros m Hm. by apply Hnil1 in Hm.
      * intros m Hm. by apply not_elem_of_nil in Hm.
      * intros m Hm. rewrite app_nil_r. replace m with (h c) by lia. apply (inv_pending _ _ Hi). rewrite Hp. by eexists.
      * rewrite Hp'. by intros [? ?].
  - apply sign_holder_outcome in Hm as [[-> Hno]|[-> [cl Hcl]]].
    + unfold when_ok. rewrite Hno, app_nil_r. split; [done|constructor].
    + apply close_spec in Hcl; [|done|done]. split.
      * apply (inv_same t _ c); try done; [intros m; by apply not_elem_when_ok|].
        intros m Hm. by apply not_elem_when_ok in Hm.
      * unfold when_ok. destruct (is_ok o); [|constructor]. constructor; [|constructor].
        intros m Hm. apply (inv_released _ _ Hi) in Hm. lia.
  - apply lock_outcome in Hm as (Hh & Hp & Hc). split; [|constructor].
    apply (inv_same t [] c); try done. by rewrite Hp.
  - split; [|constructor]. apply splice_outcome in Hm as [->|(He & _)]; [by rewrite app_nil_r|].
    apply (inv_same t [] c); rewrite ?He; try done. by intros [? ?].
  - split; [|constructor]. apply (inv_same t [] c); rewrite ?He; done.
Qed.
Lemma chan_step_short (s s' : chan_state) (evs : list event) : chan_step s evs s' -> (length evs <= 1)%nat.
Proof.
  intros Hs. destruct Hs as [? ? ? ? ? ? ? ? ? ? ? ? o|? ? ? ? ? ? o| | | | | | | | |];
    unfold when_ok, validated_events, released_events; repeat case_match; cbn; lia.
Qed.

Lemma history_inv (c0 : Channel) (st0 : NodeState) (t : list event) (s : chan_state) :
  (exists value, c0.(enforcement_state) = EnforcementState_new value) -> history (c0, st0) t s ->
  channel_inv t s.1 /\ forall t1 ev t2, t = t1 ++ ev :: t2 -> event_ok t1 ev.
Proof.
  intros [value He] Hh. induction Hh as [|t s evs s' Hh [IH1 IH2] Hsm Hstep].
  - split; [|intros t1 ev t2 Heq; by destruct t1].
    cbn [fst]. split; rewrite ?He; cbn; [by left|..|by intros [? ?]|done]; intros n Hn;
      first [lia | by apply not_elem_of_nil in Hn].
  - destruct (chan_step_inv t evs s s' Hsm IH1 Hstep) as [Hi Hev]. split; [done|].
    intros t1 ev t2 Heq. apply chan_step_short in Hstep. destruct evs as [|ev0 [|ev1 evs]]; [..|cbn in Hstep; lia].
    + rewrite app_nil_r in Heq. eauto.
    + destruct (decide (t2 = [])) as [->|Hne].
      * apply app_inj_2 in Heq as [Ht Hl]; [|done]. injection Hl as <-. subst t1. by inversion_clear Hev.
      * destruct (exists_last Hne) as (t3 & x & ->). rewrite app_comm_cons, app_assoc in Heq.
        apply app_inj_2 in Heq as [Heq _]; [|done]. eauto.
Qed.
End History.

(** ** Properties *)

(** A signer whose keys are numbers, to evaluate the model. *)
Definition sample_signer : Signer := Build_Signer (fun n => n) (fun n => n) (fun s => s) (fun s => [s]) head
  (fun l => l) (fun _ => Ok (1, [])) (fun _ => Ok 2) (fun _ => 5) (fun _ => []) (fun _ p => Ok p) (fun _ _ _ => true).
Definition sample_channel : Channel :=
  mkChannel (EnforcementState_new 1000000) sample_setup [1] None sample_chain None None None.
Definition sample_policy : SimpleValidator := mkSimpleValidator (make_default_simple_policy Bitcoin).
Definition sample_checks : Validator SimpleValidator :=
  @SimpleValidator_validator release_profile (fun _ => 663) (fun _ => 703) (@from_secret_key sample_signer).
Definition sample_laws : @ValidatorLaws SimpleValidator release_profile sample_checks (@from_secret_key sample_signer) :=
  @SimpleValidator_laws release_profile (fun _ => 663) (fun _ => 703) (@from_secret_key sample_signer).
Definition always_persists (c : Channel) : res Status unit := Ok tt.
Definition sample_state : NodeState :=
  let vc := mkVelocityControl 0 300 (replicate 12 0) u64_max in NodeState_new vc vc [].

Section Sample.
#[local] Existing Instance sample_signer.
#[local] Existing Instance sample_checks.
#[local] Instance sample_profile : Profile := release_profile.

Definition sample_validate (n : Z) : method (Channel * NodeState) Status unit :=
  validate_holder_commitment_tx_phase2 sample_policy elements always_persists (mkOutPoint 77 0) n 1000 999000 0
    [] [] 7 [].
Definition sample_sign (pt n : Z) : method (Channel * NodeState) Status (Signature * list Signature) :=
  sign_counterparty_commitment_tx_phase2 sample_policy elements always_persists (mkOutPoint 77 0) pt n 1000 999000 0
    [] [].

(** Commitment 0 of both sides, then holder commitment 1 is validated. *)
Definition sample_0 : Channel * NodeState := (sample_channel, sample_state).
Definition sample_1 : Channel * NodeState := (sample_validate 0 sample_0).1.
Definition sample_2 : Channel * NodeState := (activate_initial_commitment always_persists sample_1).1.
Definition sample_3 : Channel * NodeState := (sample_sign 41 0 sample_2).1.
Definition sample_4 : Channel * NodeState := (sample_validate 1 sample_3).1.
(** Then holder commitment 0 is signed for a close, and revoked. *)
Definition sample_5 : Channel * NodeState :=
  (sign_holder_commitment_tx_phase2 sample_policy always_persists 0 sample_4).1.
Definition sample_6 : Channel * NodeState :=
  (revoke_previous_holder_commitment sample_policy elements always_persists 1 sample_5).1.

Lemma pair_run {A : Type} (m : method (Channel * NodeState) Status A) (s : Channel * NodeState) :
  m (s.1, s.2) = (((m s).1.1, (m s).1.2), (m s).2).
Proof. rewrite <- surjective_pairing. by rewrite <- !surjective_pairing. Qed.

Lemma sample_history_step (t t' evs evs' : list event) (s s' : Channel * NodeState) :
  history sample_policy elements always_persists sample_0 t s -> numbers_small s.1 ->
  chan_step sample_policy elements always_persists (s.1, s.2) evs (s'.1, s'.2) -> evs = evs' -> t' = t ++ evs' ->
  history sample_policy elements always_persists sample_0 t' s'.
Proof. intros Hh Hs Hstep <- ->. rewrite <- !surjective_pairing in Hstep. by eapply history_step. Qed.

(** One step of the run: its effect and events are evaluated. *)
Ltac sample_step t s step m :=
  eapply (sample_history_step t _ _ _ s);
  [|vm_compute; split_and!; congruence
   |eapply step; [..|exact (pair_run m s)]; first [vm_compute; congruence | unfold small; lia]
   |vm_compute; reflexivity|reflexivity].

Lemma history_4 : history sample_policy elements always_persists sample_0
  [ValidatedHolder 0; SignedCounterparty 0; ValidatedHolder 1] sample_4.
Proof.
  sample_step [ValidatedHolder 0; SignedCounterparty 0] sample_3
    (step_validate_holder sample_policy elements always_persists) (sample_validate 1).
  sample_step [ValidatedHolder 0] sample_2
    (step_sign_counterparty sample_policy elements always_persists) (sample_sign 41 0).
  sample_step [ValidatedHolder 0] sample_1
    (step_activate sample_policy elements always_persists)
    (activate_initial_commitment always_persists).
  sample_step (@nil event) sample_0
    (step_validate_holder sample_policy elements always_persists) (sample_validate 0).
  constructor.
Qed.
Lemma history_6 : history sample_policy elements always_persists sample_0
  [ValidatedHolder 0; SignedCounterparty 0; ValidatedHolder 1; SignedHolder 0; Released 0] sample_6.
Proof.
  sample_step [ValidatedHolder 0; SignedCounterparty 0; ValidatedHolder 1; SignedHolder 0] sample_5
    (step_revoke sample_policy elements always_persists)
    (revoke_previous_holder_commitment sample_policy elements always_persists 1).
  sample_step [ValidatedHolder 0; SignedCounterparty 0; ValidatedHolder 1] sample_4
    (step_sign_holder sample_policy elements always_persists)
    (sign_holder_commitment_tx_phase2 sample_policy always_persists 0).
  apply history_4.
Qed.
End Sample.



(** Closing does not stop revocation.  When the next holder commitment was
    validated before the current one is signed for broadcast, the channel still
    releases the secret of the signed commitment, although it is marked closed. *)
Theorem signed_then_revoked :
  exists t s, @history release_profile SimpleValidator sample_checks sample_signer sample_policy elements always_persists
      (sample_channel, sample_state) (t ++ [SignedHolder 0; Released 0]) s /\
    (s.1).(enforcement_state).(channel_closed) = true.
Proof. exists [ValidatedHolder 0; SignedCounterparty 0; ValidatedHolder 1], sample_6. split; [exact history_6|done]. Qed.



(** The guard that keeps unreleased secrets wraps around without overflow
    checks: the two largest commitment numbers pass it whatever the channel's
    state, and a call that revokes up to the largest number returns a secret.
    With overflow checks these calls panic. *)
Theorem secret_guard_wraps {V : Type} `{HV : Validator V} `{HS : Signer} (v : V)
    (set_iter : gset Z -> list Z) (persist : Channel -> res Status unit) (c : Channel) (st : NodeState) :
  0 < c.(enforcement_state).(next_holder_commit_num) < 2 ^ 64 - 1 ->
  get_per_commitment_secret (H:=release_profile) v c (2 ^ 64 - 1) = Ok (secret_for (2 ^ 48)) /\
  revoke_previous_holder_commitment (H:=release_profile) v set_iter persist (2 ^ 64 - 1) (c, st)
    = ((c, st), Ok (point_for INITIAL_COMMITMENT_NUMBER, Some (secret_for (2 ^ 48 + 1)))) /\
  get_per_commitment_secret (H:=debug_profile) v c (2 ^ 64 - 1) = Panic /\
  revoke_previous_holder_commitment (H:=debug_profile) v set_iter persist (2 ^ 64 - 1) (c, st) = ((c, st), Panic).
Proof.
  intros Hn. split_and!.
  - unfold get_per_commitment_secret. change (add_u64 (2 ^ 64 - 1) 2) with (Ok (E:=Status) 1).
    cbn [mbind res_bind]. destruct (Z.ltb_spec (c.(enforcement_state).(next_holder_commit_num)) 1); [lia|]. reflexivity.
  - unfold revoke_previous_holder_commitment. rewrite get_bind. cbv beta iota zeta.
    destruct (Z.eqb_spec (2 ^ 64 - 1) (c.(enforcement_state).(next_holder_commit_num))); [lia|]. cbn [negb].
    unfold call. f_equal. unfold release_commitment_secret.
    change (add_u64 (2 ^ 64 - 1) 1) with (Ok (E:=Status) 0). cbn [mbind res_bind].
    unfold get_per_commitment_point, get_per_commitment_secret.
    change (add_u64 (2 ^ 64 - 1 - 1) 2) with (Ok (E:=Status) 0). rewrite add_u64_Ok by (unfold uint; lia).
    cbn [mbind res_bind]. rewrite !(proj2 (Z.ltb_ge _ _)) by lia. reflexivity.
  - reflexivity.
  - unfold revoke_previous_holder_commitment. rewrite get_bind. cbv beta iota zeta.
    destruct (Z.eqb_spec (2 ^ 64 - 1) (c.(enforcement_state).(next_holder_commit_num))); [lia|]. reflexivity.
Qed.

Lemma secret_guard_wraps_witness :
  get_per_commitment_secret (H:=release_profile) (H0:=sample_checks) (H1:=sample_signer) sample_policy sample_2.1 (2 ^ 64 - 1)
  = Ok (2 ^ 48).
Proof.
  apply (secret_guard_wraps (HV:=sample_checks) (HS:=sample_signer) sample_policy elements always_persists
    sample_2.1 sample_2.2). vm_compute. split; reflexivity.
Defined.

(** The stored point of the previous counterparty commitment is never
    looked up: its value does not matter, and for a previous commitment whose
    secret was not revealed no point is returned. *)
Theorem previous_point_unused `{Profile} `{HS : Signer} (c c' : Channel) (n : Z) :
  0 <= n < 2 ^ 48 ->
  c'.(enforcement_state).(next_counterparty_commit_num) = c.(enforcement_state).(next_counterparty_commit_num) ->
  c'.(enforcement_state).(current_counterparty_point) = c.(enforcement_state).(current_counterparty_point) ->
  c'.(enforcement_state).(counterparty_secrets) = c.(enforcement_state).(counterparty_secrets) ->
  get_counterparty_commitment_point c' n = get_counterparty_commitment_point c n /\
  (forall secrets, c.(enforcement_state).(next_counterparty_commit_num) = n + 2 ->
     c.(enforcement_state).(counterparty_secrets) = Some secrets ->
     get_secret (E:=Status) sha256 secrets (INITIAL_COMMITMENT_NUMBER - n) = Ok None ->
     get_counterparty_commitment_point c n = Ok None).
Proof.
  intros Hn H1 H2 H3. unfold get_counterparty_commitment_point. rewrite H1, H2, H3.
  rewrite (add_u64_Ok n 1) by (unfold uint; lia). cbn [mbind res_bind]. split.
  - destruct (Z.ltb_spec c.(enforcement_state).(next_counterparty_commit_num) (n + 1)); [done|].
    destruct (Z.eqb_spec c.(enforcement_state).(next_counterparty_commit_num) (n + 1)); [done|].
    destruct (Z.eqb_spec c.(enforcement_state).(next_counterparty_commit_num) n); [lia|done].
  - intros secrets Hc -> Hg. rewrite Hc. rewrite (proj2 (Z.ltb_ge _ _)), !(proj2 (Z.eqb_neq _ _)) by lia.
    unfold backwards. rewrite sub_u64_Ok by (unfold uint, INITIAL_COMMITMENT_NUMBER; lia). cbn [mbind res_bind].
    by rewrite Hg.
Qed.

(** Two counterparty commitments signed, none revoked. *)
Definition sample_two : Channel := (sample_sign 42 1 sample_4).1.1.

Lemma previous_point_unused_witness :
  get_counterparty_commitment_point (H:=release_profile) (H1:=sample_signer) sample_two 0 = Ok None /\
  sample_two.(enforcement_state).(previous_counterparty_point) = Some 41.
Proof.
  split; [|vm_compute; reflexivity].
  eapply (previous_point_unused (H:=release_profile) (HS:=sample_signer) sample_two sample_two 0); try reflexivity;
    vm_compute; try split; try reflexivity; congruence.
Defined.

(** A holder commitment passes the signature check exactly when the
    counterparty's signature verifies for it and each of its HTLC transactions
    has a verifying signature at its position. *)
Theorem holder_signatures_checked `{HS : Signer} (c : Channel) (pt : PublicKey) (sg : Signature)
    (hsigs : list Signature) (tx : CommitmentParams) :
  check_holder_tx_signatures c pt sg hsigs tx = Ok tt <->
  verify_ecdsa (commitment_sighash tx) sg c.(setup).(counterparty_points).(funding_pubkey) = true /\
  exists key, derive_public_key pt c.(setup).(counterparty_points).(htlc_basepoint) = Ok key /\
    forall i sighash, htlc_sighashes tx !! i = Some sighash ->
      exists hsig, hsigs !! i = Some hsig /\ verify_ecdsa sighash hsig key = true.
Proof.
  unfold check_holder_tx_signatures.
  destruct (verify_ecdsa (commitment_sighash tx) sg _); cbn [negb when mbind res_bind]; [|intuition congruence].
  destruct (derive_public_key pt _) as [key|e|]; cbn [mbind res_bind];
    [|split; [done|by intros (_ & key & ? & _)]..].
  rewrite for_each_Ok, Forall_lookup. split.
  - intros Hf. split; [done|]. exists key. split; [done|]. intros i sighash Hi. specialize (Hf i (i, sighash)).
    rewrite list_lookup_imap, Hi in Hf. specialize (Hf eq_refl). cbv beta iota in Hf.
    apply bind_Ok in Hf as (hsig & Hh & Hv). exists hsig.
    destruct (hsigs !! i) as [x|]; [|done]. injection Hh as ->. split; [done|].
    by destruct (verify_ecdsa sighash hsig key).
  - intros (_ & key' & [= <-] & Hall) i [j sighash] Hi. rewrite list_lookup_imap in Hi.
    destruct (htlc_sighashes tx !! i) as [x|] eqn:Hx; [|done]. cbn in Hi. injection Hi as <- <-.
    destruct (Hall i x Hx) as (hsig & -> & Hv). cbn [unwrap mbind res_bind]. by rewrite Hv.
Qed.

Lemma for_each_Panic {E A : Type} (body : A -> res E unit) (l : list A) (i : nat) (x : A) :
  (forall j y, (j < i)%nat -> l !! j = Some y -> body y = Ok tt) -> l !! i = Some x -> body x = Panic ->
  for_each body l = Panic.
Proof.
  revert i. induction l as [|y l IH]; intros [|i] Hpre Hx Hp; [done..| |]; cbn [for_each].
  - cbn in Hx. injection Hx as ->. by rewrite Hp.
  - rewrite (Hpre 0%nat y); [|lia|done]. cbn [mbind res_bind]. apply (IH i); [|done|done].
    intros j z Hj Hz. apply (Hpre (S j)); [lia|done].
Qed.

(** A holder commitment that comes with fewer signatures than it has HTLC
    transactions is not rejected with an error: when the signatures that are
    there verify, the check indexes past their end and panics. *)
Theorem missing_htlc_signature_panics `{HS : Signer} (c : Channel) (pt : PublicKey) (sg : Signature)
    (hsigs : list Signature) (tx : CommitmentParams) (key : PublicKey) :
  verify_ecdsa (commitment_sighash tx) sg c.(setup).(counterparty_points).(funding_pubkey) = true ->
  derive_public_key pt c.(setup).(counterparty_points).(htlc_basepoint) = Ok key ->
  (forall i sighash hsig, htlc_sighashes tx !! i = Some sighash -> hsigs !! i = Some hsig ->
     verify_ecdsa sighash hsig key = true) ->
  (length hsigs < length (htlc_sighashes tx))%nat ->
  check_holder_tx_signatures c pt sg hsigs tx = Panic.
Proof.
  intros Hc Hk Hv Hlen. unfold check_holder_tx_signatures. rewrite Hc. cbn [negb when mbind res_bind].
  rewrite Hk. cbn [mbind res_bind]. destruct (lookup_lt_is_Some_2 _ _ Hlen) as [sighash Hs].
  apply (for_each_Panic _ _ (length hsigs) (length hsigs, sighash)).
  - intros j [j' x] Hj Hx. rewrite list_lookup_imap in Hx.
    destruct (htlc_sighashes tx !! j) as [y|] eqn:Hy; [|done]. cbn in Hx. injection Hx as <- <-.
    destruct (lookup_lt_is_Some_2 _ _ Hj) as [hsig Hh]. rewrite Hh. cbn [unwrap mbind res_bind].
    by rewrite (Hv j y hsig Hy Hh).
  - by rewrite list_lookup_imap, Hs.
  - by rewrite (lookup_ge_None_2 hsigs (length hsigs)).
Qed.

(** A signer that has one HTLC transaction per HTLC. *)
Definition htlc_signer : Signer := Build_Signer (fun n => n) (fun n => n) (fun s => s) (fun s => [s]) head
  (fun l => l) (fun _ => Ok (1, [])) (fun _ => Ok 2) (fun _ => 5) (fun p => oic_payment_hash <$> p.(cp_htlcs))
  (fun _ p => Ok p) (fun _ _ _ => true).

Lemma missing_htlc_signature_panics_witness :
  check_holder_tx_signatures (H1:=htlc_signer) sample_channel 1 7 []
    (mkCommitmentParams sample_setup 1 1 1000 900000 0 [mkHTLCOutput true 50000000 800200 9]) = Panic.
Proof.
  apply (missing_htlc_signature_panics (HS:=htlc_signer)) with (key := sample_setup.(counterparty_points).(htlc_basepoint)).
  - reflexivity.
  - reflexivity.
  - reflexivity.
  - cbn. lia.
Defined.

(** A splice whose new setup the validator rejects has taken effect: the
    call fails, but the channel carries the rejected setup, the old setup as the
    previous one, and no holder commitment to close with. *)
Theorem rejected_splice_takes_effect `{Profile} {V : Type} `{HV : Validator V} (v : V)
    (persist : Channel -> res Status unit) (validate_setup : ChannelSetup -> res ValidationError unit)
    (persist_tracker : res Status unit) (ms : ChainState) (new_setup : ChannelSetup) (c : Channel) (st : NodeState)
    (e : ValidationError) :
  is_splice_compatible c new_setup = true -> c.(setup) <> new_setup ->
  0 <= 1000 * new_setup.(channel_value_sat) < 2 ^ 64 -> new_setup.(push_value_msat) <= 1000 * new_setup.(channel_value_sat) ->
  validate_setup new_setup = Err e ->
  exists c', splice_setup persist validate_setup persist_tracker ms new_setup (c, st) = ((c', st), Err (Status_from e)) /\
    c'.(setup) = new_setup /\ c'.(prev_setup) = Some c.(setup) /\
    forall n, is_ok (get_holder_commitment_for_close v c' n) = false.
Proof.
  intros Hcomp Hne Hval Hpush Hrej. eexists. split_and!.
  - unfold splice_setup. rewrite get_bind. cbv beta iota zeta. rewrite bool_decide_false by done.
    rewrite Hcomp. cbn [negb]. rewrite mul_u64_Ok by (unfold uint; lia). cbn [mbind res_bind].
    rewrite (proj2 (Z.ltb_ge _ _)) by lia. 
    destruct (_ <=? _); rewrite call_Ok_bind; unfold mbind at 1, method_bind at 1, set_self; rewrite Hrej; reflexivity.
  - done.
  - done.
  - intros n. unfold get_holder_commitment_for_close. cbn [enforcement_state snapshot_funding_for_splice next_holder_commit_info].
    destruct (_ =? _); cbn [snapshot_funding_for_splice current_holder_commit_info current_counterparty_signatures];
      destruct (lift_ve _); done.
Qed.

Definition sample_spliced : ChannelSetup :=
  mkChannelSetup true 2000000 0 (mkOutPoint 88 0) 144 None sample_keys 144 None StaticRemoteKey.

Lemma rejected_splice_takes_effect_witness :
  is_ok (get_holder_commitment_for_close (H:=release_profile) (H0:=sample_checks) sample_policy sample_2.1 0) = true /\
  is_ok (get_holder_commitment_for_close (H:=release_profile) (H0:=sample_checks) sample_policy
           (splice_setup always_persists (fun _ => Err (policy_error "policy-channel-contest-delay-range-holder")) (Ok tt) sample_chain
              sample_spliced (H:=release_profile) sample_2).1.1 0) = false.
Proof.
  split; [vm_compute; reflexivity|].
  destruct (rejected_splice_takes_effect (H:=release_profile) (HV:=sample_checks) sample_policy always_persists
    (fun _ => Err (policy_error "policy-channel-contest-delay-range-holder")) (Ok tt) sample_chain sample_spliced
    sample_2.1 sample_2.2 (policy_error "policy-channel-contest-delay-range-holder")) as (c' & Hrun & _ & _ & Hclose).
  - vm_compute. reflexivity.
  - vm_compute. congruence.
  - cbn. lia.
  - cbn. lia.
  - reflexivity.
  - rewrite <- surjective_pairing in Hrun. rewrite Hrun. apply (Hclose 0).
Defined.
