(* ===== verification/TxValidator.v ===== *)
(** * The simple validator, transactions

    The methods of [SimpleValidator] ([vls-core/src/policy/simple_validator.rs])
    that validate whole transactions: channel parameters with the wallet, on-chain
    transactions and funding, mutual closes, second-level HTLC transactions and
    the sweeps of a closed channel.  With them the trait [Wallet]
    ([vls-core/src/wallet.rs]) and the weights of
    [util/transaction_utils.rs]. *)
From S2P Require Import Prelude Velocity Policy Ordered CommitInfo Types Bitcoin Script Secrets Enforcement SimpleValidator Validator NodeState Channel.

(** ** The trait [Wallet] *)
Class Wallet (W : Type) := {
  can_spend : W -> DerivationPath -> ScriptBuf -> res Status bool;
  allowlist_contains : W -> ScriptBuf -> DerivationPath -> bool
}.

(** [ChannelSlot] of [channel.rs]. *)
Record ChannelStub := mkChannelStub { stub_id0 : ChannelId; stub_blockheight : Z }.

Inductive ChannelSlot :=
| Stub (stub : ChannelStub)
| Ready (chan : Channel).

(** ** Data and functions of the lightning package *)
Record ClosingTransaction := mkClosingTransaction {
  ct_to_holder_value_sat : Z;
  ct_to_counterparty_value_sat : Z;
  ct_to_holder_script : ScriptBuf;
  ct_to_counterparty_script : ScriptBuf;
  ct_funding_outpoint : OutPoint
}.

Record TxCreationKeys := mkTxCreationKeys {
  tck_per_commitment_point : PublicKey;
  tck_revocation_key : PublicKey;
  tck_broadcaster_htlc_key : PublicKey;
  tck_countersignatory_htlc_key : PublicKey;
  tck_broadcaster_delayed_payment_key : PublicKey
}.

Inductive EcdsaSighashType := SighashAll | SighashSinglePlusAnyoneCanPay.

(** [transaction_output_index] of [HTLCOutputInCommitment]. *)
Record IndexedHTLC := mkIndexedHTLC {
  ih_htlc : HTLCOutputInCommitment;
  ih_output_index : option Z
}.

Class LightningLib := {
  make_funding_redeemscript : PublicKey -> PublicKey -> ScriptBuf;
  (** [trust().built_transaction()]. *)
  built_closing_tx : ClosingTransaction -> Transaction;
  build_htlc_transaction :
    Txid -> Z -> Z -> IndexedHTLC -> ChannelTypeFeatures -> PublicKey -> PublicKey -> Transaction;
  (** [SighashCache::p2wsh_signature_hash] of an input. *)
  p2wsh_signature_hash : Transaction -> nat -> ScriptBuf -> Z -> EcdsaSighashType -> option Z
}.

(** ** Weights: [util/transaction_utils.rs] *)
Section Weights.
Context `{Profile} `{BitcoinLib} {E : Type}.

Definition mutual_close_tx_weight (unsigned_tx : Transaction) : res E Z :=
  add_u64 (tx_weight unsigned_tx) (2 + 1 + 4 + 72 + 72 + 1 + 1 + 33 + 1 + 33 + 1 + 1).

Definition estimated_sweep_tx_weight (unsigned_tx : Transaction) : res E Z :=
  add_u64 (tx_weight unsigned_tx) 220.

Definition is_tx_non_malleable (tx : Transaction) (segwit_flags : list bool) : res E bool :=
  rassert (length tx.(input) =? length segwit_flags)%nat ;;
  Ok (forallb id segwit_flags).
End Weights.

(** ** The validator *)
Definition SAFE_COMMITMENT_TYPE : list CommitmentType := [StaticRemoteKey; AnchorsZeroFeeHtlc].
Definition MAX_CHAIN_LAG : Z := 2.
Definition ANCHOR_SEQS : list Z := [0x00000001].
Definition NON_ANCHOR_SEQS : list Z := [0x00000000; 0xfffffffd; 0xffffffff].

Section Validator.
Context `{Profile} `{BitcoinLib} `{LightningLib} {W : Type} `{Wallet W} (wallet : W).
Context (htlc_timeout_tx_weight htlc_success_tx_weight : ChannelTypeFeatures -> Z).
Context (policy : SimplePolicy).

Abbreviation policy_err := (policy_err policy).

(** [wallet.can_spend(..).map_err(|err| policy_error(tag, ..))?]. *)
Definition wallet_can_spend (tag : string) (path : DerivationPath) (script : ScriptBuf)
  : res ValidationError bool :=
  map_err (fun _ => policy_error tag) (can_spend wallet path script).

(** The wallet or the allowlist must know the script. *)
Definition check_destination (error_tag tag : string) (path : DerivationPath) (script : ScriptBuf)
  : res ValidationError unit :=
  spendable ← wallet_can_spend error_tag path script;
  when (negb spendable && negb (allowlist_contains wallet script path)) (policy_err tag).

Definition validate_setup_channel (setup : ChannelSetup) (holder_shutdown_key_path : DerivationPath)
  : res ValidationError unit :=
  when (bool_decide (setup.(commitment_type) ∉ SAFE_COMMITMENT_TYPE)) (policy_err "policy-channel-safe-type") ;;
  validate_delay policy "holder" setup.(counterparty_selected_contest_delay) ;;
  validate_delay policy "counterparty" setup.(holder_selected_contest_delay) ;;
  match setup.(holder_shutdown_script) with
  | Some script =>
      check_destination "policy-onchain-output-scriptpubkey" "policy-mutual-destination-allowlisted"
        holder_shutdown_key_path script
  | None => Ok tt
  end.

(** *** On-chain transactions *)

(** [keys.pubkeys(..).funding_pubkey] of a channel. *)
Context (holder_funding_pubkey : Channel -> PublicKey).

Definition add_beneficial_output (sum val : Z) : res ValidationError Z :=
  ok_or (policy_error "policy-onchain-fee-range") (checked_add 64 sum val).

Definition funding_script (chan : Channel) : ScriptBuf :=
  to_p2wsh (make_funding_redeemscript (holder_funding_pubkey chan)
              chan.(setup).(counterparty_points).(funding_pubkey)).

(** The arm of a channel output; returns the value that stays ours. *)
Definition validate_funding_output (output : TxOut) (slot : ChannelSlot) : res ValidationError Z :=
  match slot with
  | Ready chan =>
      let setup := chan.(setup) in
      when (negb (output.(value) =? setup.(channel_value_sat)))
        (policy_err "policy-onchain-output-match-commitment") ;;
      when (negb (output.(script_pubkey) =? funding_script chan))
        (policy_err "policy-onchain-output-scriptpubkey") ;;
      when (negb (chan.(enforcement_state).(next_holder_commit_num) =? 1))
        (policy_err "policy-onchain-initial-commitment-countersigned") ;;
      when (negb setup.(is_outbound)) (policy_err "policy-onchain-no-fund-inbound") ;;
      let push_val_sat := setup.(push_value_msat) / 1000 in
      when (0 <? push_val_sat) (policy_err "policy-onchain-no-channel-push") ;;
      ok_or (policy_error "policy-onchain-fee-range") (checked_sub 64 setup.(channel_value_sat) push_val_sat)
  | Stub _ => Panic
  end.

(** One round of the loop over the outputs: the sum of the beneficial outputs
    and the indices of the unknown ones. *)
Definition validate_output (channels : list (option ChannelSlot)) (opaths : list DerivationPath)
    (acc : Z * list nat) (io : nat * TxOut) : res ValidationError (Z * list nat) :=
  let '(beneficial_sum, unknowns) := acc in
  let '(outndx, output) := io in
  opath ← unwrap (opaths !! outndx);
  channel_slot ← unwrap (channels !! outndx);
  if bool_decide (opath <> []) then
    spendable ← wallet_can_spend "policy-onchain-output-scriptpubkey" opath output.(script_pubkey);
    if spendable || allowlist_contains wallet output.(script_pubkey) opath then
      sum ← add_beneficial_output beneficial_sum output.(value);
      Ok (sum, unknowns)
    else
      policy_err "policy-onchain-no-unknown-outputs" ;;
      Ok (beneficial_sum, unknowns)
  else if allowlist_contains wallet output.(script_pubkey) [] then
    sum ← add_beneficial_output beneficial_sum output.(value);
    Ok (sum, unknowns)
  else match channel_slot with
  | Some slot =>
      our_value ← validate_funding_output output slot;
      sum ← add_beneficial_output beneficial_sum our_value;
      Ok (sum, unknowns)
  | None => Ok (beneficial_sum, unknowns ++ [outndx])
  end.

Definition sum_inputs (values_sat : list Z) : res ValidationError Z :=
  fold_res (fun sum val => ok_or (policy_error "policy-onchain-fee-range") (checked_add 64 sum val))
    0 values_sat.

Definition validate_onchain_tx (channels : list (option ChannelSlot)) (tx : Transaction)
    (segwit_flags : list bool) (values_sat : list Z) (opaths : list DerivationPath)
    (weight_lower_bound : Z) : res ValidationError Z :=
  when (negb (tx.(version) =? 2)) (policy_err "policy-onchain-format-standard") ;;
  when (MAX_ONCHAIN_TX_SIZE <? base_size tx) (policy_err "policy-onchain-max-size") ;;
  (if existsb (fun c => bool_decide (is_Some c)) channels then
     non_malleable ← is_tx_non_malleable tx segwit_flags;
     when (negb non_malleable) (policy_err "policy-onchain-funding-non-malleable")
   else Ok tt) ;;
  acc ← fold_res (validate_output channels opaths) (0, []) (imap pair tx.(output));
  let '(beneficial_sum, unknowns) := acc in
  if (0 <? length unknowns)%nat then Err (unknown_destinations_error unknowns)
  else
    sum ← sum_inputs values_sat;
    validate_beneficial_value policy sum beneficial_sum weight_lower_bound.

(** *** Decoding a commitment transaction *)
Definition decode_commitment_tx (holder_funding_pubkey : PublicKey) (setup : ChannelSetup)
    (is_counterparty : bool) (tx : Transaction) (output_witscripts : list (list Z))
  : res ValidationError Phase1.CommitmentInfo :=
  when (negb (tx.(version) =? 2)) (policy_err "policy-commitment-version") ;;
  fold_res (fun info '(ind, out) =>
      witscript ← unwrap (output_witscripts !! ind);
      Phase1.handle_output holder_funding_pubkey setup info out witscript)
    (Phase1.new is_counterparty) (imap pair tx.(output)).

(** *** Second-level HTLC transactions *)
Definition htlc_policy_error : ValidationError := policy_error "policy-htlc-other".

(** [offered], from the redeemscript. *)
Definition htlc_direction (redeemscript : ScriptBuf) (anchors : bool) : res ValidationError bool :=
  if is_ok (parse_offered_htlc_script redeemscript anchors) then Ok true
  else if is_ok (parse_received_htlc_script redeemscript anchors) then Ok false
  else Err (policy_error "policy-commitment-scripts").

Definition sighash_type_for (setup : ChannelSetup) : EcdsaSighashType :=
  if is_anchors setup then SighashSinglePlusAnyoneCanPay else SighashAll.

Definition decode_and_validate_htlc_tx (is_counterparty : bool) (setup : ChannelSetup)
    (txkeys : TxCreationKeys) (tx : Transaction) (redeemscript : ScriptBuf) (htlc_amount_sat : Z)
  : res ValidationError (Z * IndexedHTLC * Z * EcdsaSighashType) :=
  let to_self_delay := if is_counterparty then setup.(holder_selected_contest_delay)
                       else setup.(counterparty_selected_contest_delay) in
  let sighash_type := sighash_type_for setup in
  original_tx_sighash ← ok_or (policy_error "policy-commitment-other")
                          (p2wsh_signature_hash tx 0 redeemscript htlc_amount_sat sighash_type);
  offered ← htlc_direction redeemscript (is_anchors setup);
  let cltv_expiry := if offered : bool then tx.(lock_time) else 0 in
  first_input ← unwrap (tx.(input) !! 0%nat);
  first_output ← unwrap (tx.(output) !! 0%nat);
  total_fee ← ok_or (policy_error "policy-commitment-fee-range")
                (checked_sub 64 htlc_amount_sat first_output.(value));
  build_feerate ←
    (if is_zero_fee_htlc setup then Ok 0
     else estimate_feerate_per_kw total_fee
            (if offered then htlc_timeout_tx_weight (features setup)
             else htlc_success_tx_weight (features setup)));
  amount_msat ← mul_u64 htlc_amount_sat 1000;
  let htlc := mkIndexedHTLC (mkHTLCOutput offered amount_msat cltv_expiry 0)
                (Some first_input.(previous_output).(vout)) in
  let recomposed_tx :=
    build_htlc_transaction first_input.(previous_output).(txid) build_feerate to_self_delay htlc
      (features setup) txkeys.(tck_broadcaster_delayed_payment_key) txkeys.(tck_revocation_key) in
  recomposed_tx_sighash ← unwrap (p2wsh_signature_hash recomposed_tx 0 redeemscript htlc_amount_sat sighash_type);
  if negb (recomposed_tx_sighash =? original_tx_sighash) then Err htlc_policy_error
  else Ok (build_feerate, htlc, recomposed_tx_sighash, sighash_type).

Definition validate_htlc_tx (setup : ChannelSetup) (htlc : HTLCOutputInCommitment) (feerate_per_kw : Z)
  : res ValidationError unit :=
  when (htlc.(oic_offered) && (htlc.(oic_cltv_expiry) =? 0)) (policy_err "policy-htlc-locktime") ;;
  when (negb (is_zero_fee_htlc setup) && (feerate_per_kw <? policy.(min_feerate_per_kw)))
    (policy_err "policy-htlc-fee-range") ;;
  when (policy.(max_feerate_per_kw) <? feerate_per_kw) (policy_err "policy-htlc-fee-range").

(** *** Mutual close *)
Definition check_epsilon (value0 value1 : Z) : res ValidationError unit :=
  when (outside_epsilon_range policy value0 value1) (policy_err "policy-mutual-value-matches-commitment").

Definition make_closing_tx (setup : ChannelSetup) (to_holder to_counterparty : Z)
    (holder_script counterparty_script : option ScriptBuf) : ClosingTransaction :=
  mkClosingTransaction to_holder to_counterparty (default ScriptBuf_new holder_script)
    (default ScriptBuf_new counterparty_script) setup.(funding_outpoint).

Definition validate_mutual_close_tx (setup : ChannelSetup) (estate : EnforcementState)
    (to_holder_value_sat to_counterparty_value_sat : Z)
    (holder_script counterparty_script : option ScriptBuf) (holder_wallet_path_hint : DerivationPath)
  : res ValidationError unit :=
  holder_info ← ok_or (policy_error "policy-mutual-value-matches-commitment")
                  estate.(current_holder_commit_info);
  counterparty_info ← ok_or (policy_error "policy-mutual-value-matches-commitment")
                        estate.(current_counterparty_commit_info);
  when ((0 <? to_holder_value_sat) && bool_decide (holder_script = None))
    (policy_err "policy-mutual-destination-allowlisted") ;;
  when ((0 <? to_counterparty_value_sat) && bool_decide (counterparty_script = None))
    (policy_err "policy-mutual-destination-allowlisted") ;;
  when (bool_decide (is_Some setup.(holder_shutdown_script)) && (0 <? to_holder_value_sat)
        && bool_decide (holder_script <> setup.(holder_shutdown_script)))
    (policy_err "policy-mutual-destination-allowlisted") ;;
  when (negb (htlcs_is_empty holder_info) || negb (htlcs_is_empty counterparty_info))
    (policy_err "policy-mutual-no-pending-htlcs") ;;
  weight ← mutual_close_tx_weight
             (built_closing_tx (make_closing_tx setup to_holder_value_sat to_counterparty_value_sat
                                  holder_script counterparty_script));
  sum_outputs ← ok_or (policy_error "policy-mutual-value-matches-commitment")
                  (checked_add 64 to_holder_value_sat to_counterparty_value_sat);
  validate_fee policy "policy-mutual-fee-range" setup.(channel_value_sat) sum_outputs weight ;;
  (if setup.(is_outbound) then
     check_epsilon to_counterparty_value_sat counterparty_info.(to_broadcaster_value_sat) ;;
     check_epsilon to_counterparty_value_sat holder_info.(to_countersigner_value_sat)
   else
     check_epsilon to_holder_value_sat holder_info.(to_broadcaster_value_sat) ;;
     check_epsilon to_holder_value_sat counterparty_info.(to_countersigner_value_sat)) ;;
  match holder_script with
  | Some script =>
      check_destination "policy-mutual-scripts" "policy-mutual-destination-allowlisted"
        holder_wallet_path_hint script
  | None => Ok tt
  end.

Record ValidateArgs := mkValidateArgs {
  va_to_holder_value_sat : Z;
  va_to_counterparty_value_sat : Z;
  va_holder_script : option ScriptBuf;
  va_counterparty_script : option ScriptBuf;
  va_wallet_path : DerivationPath
}.

(** [>] on [Option<u64>]: nothing is less than something. *)
Definition option_gt (a b : option Z) : bool :=
  match a, b with
  | Some x, Some y => y <? x
  | Some _, None => true
  | None, _ => false
  end.

(** The likely and the unlikely assignment of the outputs to the parties. *)
Definition close_args (holder_value_is_larger : bool) (tx : Transaction) (wallet_paths : list DerivationPath)
  : res ValidationError (ValidateArgs * ValidateArgs) :=
  if (length tx.(output) =? 1)%nat then
    o0 ← unwrap (tx.(output) !! 0%nat);
    p0 ← unwrap (wallet_paths !! 0%nat);
    let holders_output := mkValidateArgs o0.(value) 0 (Some o0.(script_pubkey)) None p0 in
    let cpartys_output := mkValidateArgs 0 o0.(value) None (Some o0.(script_pubkey)) [] in
    Ok (if holder_value_is_larger then (holders_output, cpartys_output) else (cpartys_output, holders_output))
  else
    o0 ← unwrap (tx.(output) !! 0%nat);
    o1 ← unwrap (tx.(output) !! 1%nat);
    p0 ← unwrap (wallet_paths !! 0%nat);
    p1 ← unwrap (wallet_paths !! 1%nat);
    let holder_first :=
      mkValidateArgs o0.(value) o1.(value) (Some o0.(script_pubkey)) (Some o1.(script_pubkey)) p0 in
    let cparty_first :=
      mkValidateArgs o1.(value) o0.(value) (Some o1.(script_pubkey)) (Some o0.(script_pubkey)) p1 in
    Ok (if holder_value_is_larger then (cparty_first, holder_first) else (holder_first, cparty_first)).

Definition validate_close_args (setup : ChannelSetup) (estate : EnforcementState) (args : ValidateArgs)
  : res ValidationError unit :=
  validate_mutual_close_tx setup estate args.(va_to_holder_value_sat) args.(va_to_counterparty_value_sat)
    args.(va_holder_script) args.(va_counterparty_script) args.(va_wallet_path).

(** The error of the likely attempt is the one returned. *)
Definition choose_close_args (setup : ChannelSetup) (estate : EnforcementState)
    (likely_args unlikely_args : ValidateArgs) : res ValidationError ValidateArgs :=
  match validate_close_args setup estate likely_args with
  | Ok _ => Ok likely_args
  | Panic => Panic
  | Err e =>
      match validate_close_args setup estate unlikely_args with
      | Ok _ => Ok unlikely_args
      | Err _ => Err e
      | Panic => Panic
      end
  end.

Definition decode_and_validate_mutual_close_tx (setup : ChannelSetup) (estate : EnforcementState)
    (tx : Transaction) (wallet_paths : list DerivationPath) : res ValidationError ClosingTransaction :=
  when (2 <? length tx.(output))%nat (Err transaction_format_error) ;;
  rassert (length wallet_paths =? length tx.(output))%nat ;;
  when (bool_decide (estate.(current_holder_commit_info) = None)) (policy_err "policy-mutual-other") ;;
  when (bool_decide (estate.(current_counterparty_commit_info) = None)) (policy_err "policy-mutual-other") ;;
  let holder_value := minimum_to_holder_value estate policy.(epsilon_sat) in
  let cparty_value := minimum_to_counterparty_value estate policy.(epsilon_sat) in
  args ← close_args (option_gt holder_value cparty_value) tx wallet_paths;
  good_args ← choose_close_args setup estate args.1 args.2;
  let closing_tx :=
    make_closing_tx setup good_args.(va_to_holder_value_sat) good_args.(va_to_counterparty_value_sat)
      good_args.(va_holder_script) good_args.(va_counterparty_script) in
  when (bool_decide (built_closing_tx closing_tx <> tx)) (policy_err "policy-onchain-format-standard") ;;
  Ok closing_tx.

(** *** Sweeps *)
Definition validate_sweep (tx : Transaction) (amount_sat : Z) (wallet_path : DerivationPath)
  : res ValidationError unit :=
  when (negb (tx.(version) =? 2)) (Err transaction_format_error) ;;
  (if (length tx.(input) =? 1)%nat then
     sum_outputs ← sum_u64 (value <$> tx.(output));
     weight ← estimated_sweep_tx_weight tx;
     validate_fee policy "policy-sweep-fee-range" amount_sat sum_outputs weight
   else Ok tt) ;;
  for_each (fun out =>
      check_destination "policy-onchain-output-scriptpubkey" "policy-sweep-destination-allowlisted"
        wallet_path out.(script_pubkey))
    tx.(output).

(** The lock time must have passed at a height a little above the known one. *)
Definition check_lock_time (cstate : ChainState) (tx : Transaction) : res ValidationError unit :=
  h ← add_u32 cstate.(current_height) MAX_CHAIN_LAG;
  height ← unwrap (Height_from_consensus h);
  when (negb (lock_time_satisfied tx.(lock_time) height)) (Err transaction_format_error).

(** Sequence number of the first input. *)
Definition first_sequence (tx : Transaction) : res ValidationError Z :=
  i ← unwrap (tx.(input) !! 0%nat); Ok i.(sequence).

Definition check_sequence (tx : Transaction) (valid_seqs : list Z) : res ValidationError unit :=
  seq ← first_sequence tx;
  when (bool_decide (seq ∉ valid_seqs)) (Err transaction_format_error).

(** [input], the index of the input to be signed, is only logged. *)
Definition validate_delayed_sweep (setup : ChannelSetup) (cstate : ChainState) (tx : Transaction)
    (input : nat) (amount_sat : Z) (wallet_path : DerivationPath) : res ValidationError unit :=
  validate_sweep tx amount_sat wallet_path ;;
  check_lock_time cstate tx ;;
  seq ← first_sequence tx;
  when (negb (seq =? setup.(counterparty_selected_contest_delay))) (Err transaction_format_error).

Definition validate_counterparty_htlc_sweep (setup : ChannelSetup) (cstate : ChainState)
    (tx : Transaction) (redeemscript : ScriptBuf) (input : nat) (amount_sat : Z)
    (wallet_path : DerivationPath) : res ValidationError unit :=
  validate_sweep tx amount_sat wallet_path ;;
  match parse_received_htlc_script redeemscript (is_anchors setup) with
  | Ok (_, _, _, _, cltv_expiry) =>
      when ((cltv_expiry <? 0) || (u32_max <? cltv_expiry)) (Err transaction_format_error) ;;
      when (cltv_expiry mod 2 ^ 32 <? tx.(lock_time)) (Err transaction_format_error)
  | _ =>
      match parse_offered_htlc_script redeemscript (is_anchors setup) with
      | Ok _ => check_lock_time cstate tx
      | _ => Err transaction_format_error
      end
  end ;;
  check_sequence tx (if is_anchors setup then ANCHOR_SEQS else NON_ANCHOR_SEQS).

Definition validate_justice_sweep (setup : ChannelSetup) (cstate : ChainState) (tx : Transaction)
    (input : nat) (amount_sat : Z) (wallet_path : DerivationPath) : res ValidationError unit :=
  validate_sweep tx amount_sat wallet_path ;;
  check_lock_time cstate tx ;;
  check_sequence tx NON_ANCHOR_SEQS.
End Validator.
