(* ===== verification/TxSafety.v ===== *)
(** * What transaction validation guarantees

    With a policy that warns about nothing: an accepted on-chain transaction
    pays only to known destinations and loses exactly its fee, an accepted mutual
    close pays each party what the last commitments say, an accepted sweep pays
    the wallet.  Decoding a commitment transaction accounts for every output. *)
From S2P Require Import Prelude Velocity Policy Ordered CommitInfo Types Bitcoin Script Secrets Enforcement SimpleValidator Validator NodeState Channel TxValidator.

Section Safety.
Context `{Profile} `{BitcoinLib} `{LightningLib} {W : Type} `{Wallet W} (wallet : W).
Context (policy : SimplePolicy) (Hstrict : strict_policy policy).

(** A destination of the wallet or of the allowlist. *)
Definition known_destination (path : DerivationPath) (script : ScriptBuf) : Prop :=
  can_spend wallet path script = Ok true \/ allowlist_contains wallet script path = true.

Lemma check_destination_Ok (etag tag : string) (path : DerivationPath) (script : ScriptBuf) (u : unit) :
  check_destination wallet policy etag tag path script = Ok u -> known_destination path script.
Proof.
  unfold check_destination, wallet_can_spend, known_destination. intros Hc.
  apply bind_Ok in Hc as (b & Hb & Hc). rewrite map_err_Ok in Hb. pol_inv.
  destruct b; [by left|]. right. by destruct (allowlist_contains wallet script path).
Qed.

(** ** Sweeps *)
Lemma validate_sweep_Ok (tx : Transaction) (amount : Z) (path : DerivationPath) (u : unit) :
  validate_sweep wallet policy tx amount path = Ok u ->
  tx.(version) = 2 /\ Forall (fun o => known_destination path o.(script_pubkey)) tx.(output) /\
  (length tx.(input) = 1%nat -> exists sum weight,
     sum_u64 (E:=ValidationError) (value <$> tx.(output)) = Ok sum /\
     estimated_sweep_tx_weight (E:=ValidationError) tx = Ok weight /\
     validate_fee policy "policy-sweep-fee-range" amount sum weight = Ok tt).
Proof.
  unfold validate_sweep. intros Hv. apply bind_Ok in Hv as (? & Hver & Hv).
  apply bind_Ok in Hv as (? & Hfee & Hv). apply when_Err_Ok in Hver. split_and!.
  - pol_inv. done.
  - destruct u. rewrite for_each_Ok in Hv. eapply Forall_impl; [exact Hv|]. cbn. intros o Ho.
    by eapply check_destination_Ok.
  - intros Hl. rewrite Hl in Hfee. cbn [Nat.eqb] in Hfee. apply bind_Ok in Hfee as (s & Hs & Hfee).
    apply bind_Ok in Hfee as (w & Hw & Hfee). exists s, w. split_and!; [done|done|].
    by destruct x0.
Qed.

(** ** On-chain transactions *)
Context (holder_funding_pubkey : Channel -> PublicKey).

Definition funds_channel (o : TxOut) (slot : option ChannelSlot) : Prop :=
  exists chan, slot = Some (Ready chan) /\
    o.(value) = chan.(setup).(channel_value_sat) /\
    o.(script_pubkey) = funding_script holder_funding_pubkey chan /\
    chan.(enforcement_state).(next_holder_commit_num) = 1 /\
    chan.(setup).(is_outbound) = true /\ chan.(setup).(push_value_msat) / 1000 <= 0.

(** What an output of an accepted transaction is. *)
Definition output_ok (channels : list (option ChannelSlot)) (opaths : list DerivationPath)
    (i : nat) (o : TxOut) : Prop :=
  (exists path, opaths !! i = Some path /\ known_destination path o.(script_pubkey)) \/
  (exists slot, channels !! i = Some slot /\ funds_channel o slot).

Lemma validate_funding_output_Ok (o : TxOut) (slot : ChannelSlot) (v : Z) :
  (forall chan, slot = Ready chan -> 0 <= chan.(setup).(push_value_msat)) ->
  validate_funding_output policy holder_funding_pubkey o slot = Ok v ->
  funds_channel o (Some slot) /\ v = o.(value).
Proof.
  destruct slot as [stub|chan]; [done|]. cbn [validate_funding_output]. intros Hp Hv. pol_inv.
  specialize (Hp chan eq_refl). unfold checked_sub in Hv. apply checked_Some in Hv as [-> _].
  pose proof (Z.div_pos (push_value_msat (setup chan)) 1000 Hp ltac:(lia)) as Hq.
  split; [|lia]. by exists chan.
Qed.

Lemma add_beneficial_Ok (sum v s : Z) : add_beneficial_output sum v = Ok s -> s = sum + v.
Proof. unfold add_beneficial_output, checked_add. intros Ha. pol_inv. by apply checked_Some in Ha as [-> _]. Qed.

Definition slots_wf (channels : list (option ChannelSlot)) : Prop :=
  forall i chan, channels !! i = Some (Some (Ready chan)) -> 0 <= chan.(setup).(push_value_msat).

(** One output: known and counted in full, or listed as unknown. *)
Lemma validate_output_Ok (channels : list (option ChannelSlot)) (opaths : list DerivationPath)
    (sum sum' : Z) (unknowns unknowns' : list nat) (i : nat) (o : TxOut) :
  slots_wf channels ->
  validate_output wallet policy holder_funding_pubkey channels opaths (sum, unknowns) (i, o)
    = Ok (sum', unknowns') ->
  (output_ok channels opaths i o /\ sum' = sum + o.(value) /\ unknowns' = unknowns) \/
  (unknowns' = unknowns ++ [i]).
Proof.
  intros Hwf. cbn [validate_output]. intros Hv. apply bind_Ok in Hv as (opath & Hop & Hv).
  apply bind_Ok in Hv as (slot & Hsl & Hv). apply unwrap_Ok in Hop. apply unwrap_Ok in Hsl.
  destruct (bool_decide (opath <> [])) eqn:Hne.
  - apply bind_Ok in Hv as (b & Hb & Hv). unfold wallet_can_spend in Hb. rewrite map_err_Ok in Hb.
    destruct (b || allowlist_contains wallet (script_pubkey o) opath) eqn:Hk; [|by pol_inv].
    apply bind_Ok in Hv as (s & Hs & [= <- <-]). apply add_beneficial_Ok in Hs. left.
    split_and!; [|done|done]. left. exists opath. split; [done|].
    destruct b; [by left|right; exact Hk].
  - destruct (allowlist_contains wallet (script_pubkey o) []) eqn:Hal.
    + apply bind_Ok in Hv as (s & Hs & [= <- <-]). apply add_beneficial_Ok in Hs. left.
      apply bool_decide_eq_false, dec_stable in Hne as ->.
      split_and!; [|done|done]. left. exists []. split; [done|]. by right.
    + destruct slot as [slot|]; [|right; by injection Hv as <- <-].
      apply bind_Ok in Hv as (v & Hfo & Hv). apply bind_Ok in Hv as (s & Hs & [= <- <-]).
      apply add_beneficial_Ok in Hs. apply validate_funding_output_Ok in Hfo as [Hf ->].
      * left. split_and!; [|done|done]. right. by exists (Some slot).
      * intros chan ->. by eapply Hwf.
Qed.

Lemma validate_outputs_unknowns (channels : list (option ChannelSlot)) (opaths : list DerivationPath)
    (l : list (nat * TxOut)) :
  slots_wf channels -> forall sum unknowns sum',
  fold_res (validate_output wallet policy holder_funding_pubkey channels opaths) (sum, unknowns) l
    = Ok (sum', []) ->
  unknowns = [] /\ sum' = sum + zsum ((fun io => value io.2) <$> l) /\
  Forall (fun io => output_ok channels opaths io.1 io.2) l.
Proof.
  intros Hwf. induction l as [|[i o] l IH]; intros sum unknowns sum' Hf; cbn [fold_res] in Hf.
  - injection Hf as -> ->. cbn [fmap list_fmap]. rewrite zsum_nil. split_and!; [done|lia|constructor].
  - apply bind_Ok in Hf as ([s u] & Hv & Hf). apply IH in Hf as (-> & -> & Hall).
    apply validate_output_Ok in Hv as [(Ho & -> & <-)|Hu]; [..|done].
    + rewrite fmap_cons, zsum_cons. split_and!; [done|cbn; lia|by constructor].
    + by destruct unknowns.
Qed.

Lemma fmap_imap_value (l : list TxOut) (k : nat) :
  (fun io : nat * TxOut => value io.2) <$> imap (fun i o => ((k + i)%nat, o)) l = value <$> l.
Proof.
  revert k. induction l as [|o l IH]; intros k; [done|]. cbn. f_equal.
  rewrite <- (IH (S k)). f_equal. apply imap_ext. intros i x _. unfold compose. f_equal. lia.
Qed.

Lemma sum_inputs_Ok (l : list Z) (s : Z) : sum_inputs l = Ok s -> s = zsum l.
Proof.
  unfold sum_inputs. cut (forall a, fold_res (E:=ValidationError)
    (fun sum val => ok_or (policy_error "policy-onchain-fee-range") (checked_add 64 sum val)) a l = Ok s ->
    s = a + zsum l); [intros Hc Hs; apply Hc in Hs; lia|].
  induction l as [|x l IH]; intros a Hs; cbn [fold_res] in Hs.
  - pol_inv. rewrite zsum_nil. lia.
  - apply bind_Ok in Hs as (b & Hb & Hs). apply IH in Hs as ->. unfold checked_add in Hb. pol_inv.
    apply checked_Some in Hb as [-> _]. rewrite zsum_cons. lia.
Qed.

Lemma onchain_outputs_Ok (channels : list (option ChannelSlot)) (tx : Transaction)
    (segwit_flags : list bool) (values_sat : list Z) (opaths : list DerivationPath) (weight fee : Z) :
  slots_wf channels ->
  validate_onchain_tx wallet policy holder_funding_pubkey channels tx segwit_flags values_sat opaths weight
    = Ok fee ->
  tx.(version) = 2 /\ base_size tx <= MAX_ONCHAIN_TX_SIZE /\
  ((exists slot, Some slot ∈ channels) -> Forall (fun f => f = true) segwit_flags) /\
  (forall i o, tx.(output) !! i = Some o -> output_ok channels opaths i o) /\
  zsum values_sat = zsum (value <$> tx.(output)) + fee /\ 0 <= fee /\
  (exists ins, validate_beneficial_value policy ins (ins - fee) weight = Ok fee).
Proof.
  intros Hwf Hv. unfold validate_onchain_tx in Hv.
  apply bind_Ok in Hv as (? & Hver & Hv). apply bind_Ok in Hv as (? & Hsz & Hv).
  apply bind_Ok in Hv as (? & Hmal & Hv). apply bind_Ok in Hv as ([sum unknowns] & Hf & Hv).
  destruct unknowns as [|u us]; [|done]. cbn [length Nat.ltb Nat.leb] in Hv.
  apply bind_Ok in Hv as (ins & Hins & Hv). apply sum_inputs_Ok in Hins.
  apply (validate_outputs_unknowns channels opaths _ Hwf) in Hf as (_ & -> & Hall).
  pose proof (fmap_imap_value tx.(output) 0) as Hval. cbn [Nat.add] in Hval.
  change (λ (i : nat) (o : TxOut), (i, o)) with (@pair nat TxOut) in Hval. rewrite Hval in Hv.
  assert (Hfee : fee = ins - (0 + zsum (value <$> tx.(output))) /\ 0 <= fee).
  { unfold validate_beneficial_value in Hv. apply bind_Ok in Hv as (nb & Hnb & Hv).
    rewrite ok_or_Ok in Hnb. unfold checked_sub in Hnb. apply checked_Some in Hnb as [-> Hu].
    unfold uint in Hu. apply bind_Ok in Hv as (? & _ & Hv). apply bind_Ok in Hv as (? & _ & Hv).
    injection Hv as <-. lia. }
  destruct Hfee as [Hfee Hpos]. pol_inv. split_and!; [done|lia|..|done|].
  - intros [slot Hslot]. rewrite (proj2 (existsb_exists _ channels)) in Hmal.
    + apply bind_Ok in Hmal as (b & Hb & Hmal). pol_inv. unfold is_tx_non_malleable in Hb. pol_inv. subst.
      apply Forall_forall. intros f Hf%list_elem_of_In.
      destruct (forallb_forall id segwit_flags) as [Hfa _]. by apply Hfa.
    + exists (Some slot). split; [by apply list_elem_of_In|]. by apply bool_decide_true.
  - intros i o Hio. rewrite Forall_forall in Hall. apply (Hall (i, o)).
    apply list_elem_of_lookup. exists i. by rewrite list_lookup_imap, Hio.
  - lia.
  - exists ins. by replace (ins - fee) with (0 + zsum (value <$> tx.(output))) by lia.
Qed.

(** ** Mutual close *)

(** What a close pays, compared with the last commitments: the party that does
    not pay the fee gets what they say, up to the policy's epsilon. *)
Record close_ok (setup : ChannelSetup) (estate : EnforcementState) (args : ValidateArgs) : Prop := mkCloseOk {
  co_infos : exists h c, estate.(current_holder_commit_info) = Some h /\
      estate.(current_counterparty_commit_info) = Some c /\
      htlcs_is_empty h = true /\ htlcs_is_empty c = true /\
      (setup.(is_outbound) = true ->
        Z.abs (args.(va_to_counterparty_value_sat) - c.(to_broadcaster_value_sat)) <= policy.(epsilon_sat) /\
        Z.abs (args.(va_to_counterparty_value_sat) - h.(to_countersigner_value_sat)) <= policy.(epsilon_sat)) /\
      (setup.(is_outbound) = false ->
        Z.abs (args.(va_to_holder_value_sat) - h.(to_broadcaster_value_sat)) <= policy.(epsilon_sat) /\
        Z.abs (args.(va_to_holder_value_sat) - c.(to_countersigner_value_sat)) <= policy.(epsilon_sat));
  co_value : args.(va_to_holder_value_sat) + args.(va_to_counterparty_value_sat) <= setup.(channel_value_sat);
  co_script : forall script, args.(va_holder_script) = Some script ->
      known_destination args.(va_wallet_path) script;
  co_upfront : 0 < args.(va_to_holder_value_sat) ->
      is_Some args.(va_holder_script) /\
      (is_Some setup.(holder_shutdown_script) -> args.(va_holder_script) = setup.(holder_shutdown_script));
  co_fee : exists weight,
      mutual_close_tx_weight (E:=ValidationError)
        (built_closing_tx (make_closing_tx setup args.(va_to_holder_value_sat)
           args.(va_to_counterparty_value_sat) args.(va_holder_script) args.(va_counterparty_script))) = Ok weight /\
      validate_fee policy "policy-mutual-fee-range" setup.(channel_value_sat)
        (args.(va_to_holder_value_sat) + args.(va_to_counterparty_value_sat)) weight = Ok tt
}.

Lemma check_epsilon_Ok (a b : Z) (u : unit) :
  check_epsilon policy a b = Ok u -> Z.abs (a - b) <= policy.(epsilon_sat).
Proof.
  unfold check_epsilon, outside_epsilon_range. intros Hc. apply (when_err_Ok policy _ _ _ Hstrict) in Hc.
  destruct (Z.ltb_spec b a); lia.
Qed.

Lemma validate_fee_le (tag : string) (ins outs weight : Z) (u : unit) :
  validate_fee policy tag ins outs weight = Ok u -> outs <= ins.
Proof.
  unfold validate_fee. intros Hv. apply bind_Ok in Hv as (f & Hf & _). apply ok_or_Ok in Hf.
  apply checked_Some in Hf as [_ Hf]. unfold uint in Hf. lia.
Qed.

Lemma validate_close_args_Ok (setup : ChannelSetup) (estate : EnforcementState) (args : ValidateArgs) (u : unit) :
  validate_close_args wallet policy setup estate args = Ok u -> close_ok setup estate args.
Proof.
  destruct args as [hv cv hs cs path]. unfold validate_close_args, validate_mutual_close_tx.
  cbn [va_to_holder_value_sat va_to_counterparty_value_sat va_holder_script va_counterparty_script va_wallet_path].
  intros Hv. apply bind_Ok in Hv as (h & Hh & Hv). apply ok_or_Ok in Hh.
  apply bind_Ok in Hv as (c & Hc & Hv). apply ok_or_Ok in Hc.
  apply bind_Ok in Hv as (? & Hhs & Hv). apply bind_Ok in Hv as (? & Hcs & Hv).
  apply bind_Ok in Hv as (? & Hup & Hv). apply bind_Ok in Hv as (? & Hht & Hv).
  apply bind_Ok in Hv as (w & Hw & Hv). apply bind_Ok in Hv as (sum & Hsum & Hv).
  apply bind_Ok in Hv as ([] & Hfee & Hv). apply bind_Ok in Hv as (? & Heps & Hv).
  apply ok_or_Ok, checked_Some in Hsum as [-> _]. pol_inv. apply orb_false_iff in Hht as [Hh0 Hc0]. pol_inv.
  split;
    cbn [va_to_holder_value_sat va_to_counterparty_value_sat va_holder_script va_counterparty_script va_wallet_path].
  - exists h, c. split_and!; [done|done|done|done|..];
      intros Ho; rewrite Ho in Heps; apply bind_Ok in Heps as (? & He1 & He2);
      by apply check_epsilon_Ok in He1, He2.
  - by eapply validate_fee_le.
  - intros script ->. by eapply check_destination_Ok.
  - intros Hpos. destruct (Z.ltb_spec 0 hv); [|lia]. destruct hs as [script|]; [|done]. split; [done|].
    intros Hus. rewrite (bool_decide_true (is_Some _)) in Hup by done. cbn in Hup.
    by apply bool_decide_eq_false, dec_stable in Hup.
  - by exists w.
Qed.

Lemma choose_close_args_Ok (setup : ChannelSetup) (estate : EnforcementState) (a1 a2 args : ValidateArgs) :
  choose_close_args wallet policy setup estate a1 a2 = Ok args ->
  (args = a1 \/ args = a2) /\ close_ok setup estate args.
Proof.
  unfold choose_close_args. destruct (validate_close_args _ _ _ _ a1) as [u|e|] eqn:E1; [|..|done].
  - intros [= <-]. split; [by left|]. by eapply validate_close_args_Ok.
  - destruct (validate_close_args _ _ _ _ a2) as [u|e2|] eqn:E2; [|done..].
    intros [= <-]. split; [by right|]. by eapply validate_close_args_Ok.
Qed.

(** The value and script of each party come from one output, and no output is
    given to both or to none. *)
Definition args_cover (tx : Transaction) (args : ValidateArgs) : Prop :=
  let side (v : Z) (s : option ScriptBuf) := match s with Some s => [mkTxOut v s] | None => [] end in
  side args.(va_to_holder_value_sat) args.(va_holder_script)
  ++ side args.(va_to_counterparty_value_sat) args.(va_counterparty_script) ≡ₚ tx.(output).

Lemma close_args_cover (larger : bool) (tx : Transaction) (paths : list DerivationPath) (a1 a2 : ValidateArgs) :
  (length tx.(output) <= 2)%nat -> close_args larger tx paths = Ok (a1, a2) ->
  args_cover tx a1 /\ args_cover tx a2.
Proof.
  unfold close_args, args_cover. destruct (output tx) as [|o0 [|o1 [|o2 l]]]; intros Hl Hc;
    cbn [length Nat.eqb] in Hc; pol_inv; [done|..|cbn in Hl; lia].
  - cbn in E. injection E as <-. destruct o0, larger; injection Hc as <- <-; by split.
  - cbn in E, E0. injection E as <-. injection E0 as <-.
    destruct o0, o1, larger; injection Hc as <- <-; split; cbn; done || solve_Permutation.
Qed.

Lemma decode_mutual_close_Ok (setup : ChannelSetup) (estate : EnforcementState) (tx : Transaction)
    (paths : list DerivationPath) (ct : ClosingTransaction) :
  decode_and_validate_mutual_close_tx wallet policy setup estate tx paths = Ok ct ->
  exists args, close_ok setup estate args /\ args_cover tx args /\
    ct = make_closing_tx setup args.(va_to_holder_value_sat) args.(va_to_counterparty_value_sat)
           args.(va_holder_script) args.(va_counterparty_script) /\
    built_closing_tx ct = tx.
Proof.
  unfold decode_and_validate_mutual_close_tx. intros Hv.
  apply bind_Ok in Hv as (? & Hlen & Hv). apply bind_Ok in Hv as (? & _ & Hv).
  apply bind_Ok in Hv as (? & _ & Hv). apply bind_Ok in Hv as (? & _ & Hv).
  apply bind_Ok in Hv as ([a1 a2] & Hargs & Hv). apply bind_Ok in Hv as (args & Hch & Hv).
  apply bind_Ok in Hv as (? & Hrec & Hv). injection Hv as <-. cbn [fst snd] in Hch.
  apply when_Err_Ok, Nat.ltb_ge in Hlen. apply close_args_cover in Hargs as [Hc1 Hc2]; [|done].
  apply choose_close_args_Ok in Hch as [Hor Hok]. exists args. split_and!; [done|..|done|].
  - by destruct Hor as [->| ->].
  - apply (when_err_Ok policy _ _ _ Hstrict) in Hrec. by apply bool_decide_eq_false, dec_stable in Hrec.
Qed.
End Safety.

(** ** Decoding a commitment transaction *)
Section Decode.
Context `{Profile} `{BitcoinLib} (policy : SimplePolicy).
Context (address_known : forall s, is_p2wpkh s = true -> is_Some (Address_from_script s)).

Lemma decode_fold_accounted (pk : PublicKey) (setup : ChannelSetup) (witscripts : list (list Z))
    (l : list (nat * TxOut)) :
  forall info info', Accounting.info_wf info -> 0 <= Accounting.info_outputs info ->
  Accounting.info_outputs info + Z.of_nat (length l) < 2 ^ 16 ->
  fold_res (fun info '(ind, out) =>
      witscript ← unwrap (witscripts !! ind); Phase1.handle_output pk setup info out witscript) info l
    = Ok info' ->
  Accounting.info_wf info' /\
  Accounting.info_outputs info' = Accounting.info_outputs info + Z.of_nat (length l) /\
  Accounting.info_value info' = Accounting.info_value info + zsum ((fun io => value io.2) <$> l).
Proof.
  induction l as [|[i o] l IH]; intros info info' Hwf Hpos Hn Hf; cbn [fold_res] in Hf.
  - injection Hf as <-. cbn [fmap list_fmap length]. rewrite zsum_nil. split_and!; [done|lia|lia].
  - apply bind_Ok in Hf as (info1 & Hh & Hf). apply bind_Ok in Hh as (ws & _ & Hh).
    cbn [length] in Hn. apply Accounting.handle_output_accounted in Hh as (Hw1 & Ho1 & Hv1); [|done|done|lia].
    apply IH in Hf as (Hw & Ho & Hv); [|done|lia|lia].
    rewrite fmap_cons, zsum_cons. cbn [length snd]. split_and!; [done|lia|lia].
Qed.

(** Everything that [decode_commitment_tx] counts. *)
Lemma decode_commitment_accounted (pk : PublicKey) (setup : ChannelSetup) (is_counterparty : bool)
    (tx : Transaction) (witscripts : list (list Z)) (info : Phase1.CommitmentInfo) :
  Z.of_nat (length tx.(output)) < 2 ^ 16 ->
  decode_commitment_tx policy pk setup is_counterparty tx witscripts = Ok info ->
  Accounting.info_wf info /\
  Accounting.info_outputs info = Z.of_nat (length tx.(output)) /\
  Accounting.info_value info = zsum (value <$> tx.(output)).
Proof.
  intros Hn Hd. unfold decode_commitment_tx in Hd. apply bind_Ok in Hd as (? & _ & Hd).
  apply decode_fold_accounted in Hd as (Hw & Ho & Hv).
  - rewrite length_imap in Ho. pose proof (fmap_imap_value tx.(output) 0) as Hval. cbn [Nat.add] in Hval.
    change (λ (i : nat) (o : TxOut), (i, o)) with (@pair nat TxOut) in Hval. rewrite Hval in Hv.
    split_and!; [done|exact Ho|exact Hv].
  - apply Accounting.info_wf_new.
  - done.
  - by rewrite length_imap.
Qed.
End Decode.

(** ** Concrete packages for the examples *)
#[export] Instance sample_wallet : Wallet unit := {|
  can_spend _ path script := Ok (bool_decide (path <> []) && (script =? 77));
  allowlist_contains _ script _ := script =? 88
|}.

Definition closing_outputs (ct : ClosingTransaction) : list TxOut :=
  let holder := mkTxOut ct.(ct_to_holder_value_sat) ct.(ct_to_holder_script) in
  let counterparty := mkTxOut ct.(ct_to_counterparty_value_sat) ct.(ct_to_counterparty_script) in
  filter (fun o => 0 < o.(value))
    (if ct.(ct_to_holder_value_sat) <? ct.(ct_to_counterparty_value_sat)
     then [holder; counterparty] else [counterparty; holder]).

#[export] Instance sample_lightning : LightningLib := {|
  make_funding_redeemscript a b := 1000 * a + b;
  built_closing_tx ct := mkTransaction 2 0 [mkTxIn ct.(ct_funding_outpoint) 0xffffffff] (closing_outputs ct);
  build_htlc_transaction txid _ delay htlc _ delayed revocation :=
    mkTransaction 2 htlc.(ih_htlc).(oic_cltv_expiry) [mkTxIn (mkOutPoint txid (default 0 htlc.(ih_output_index))) 0]
      [mkTxOut (htlc.(ih_htlc).(oic_amount_msat) / 1000) (delay + 1000 * (delayed + 1000 * revocation))];
  p2wsh_signature_hash tx _ script amount _ :=
    Some (zsum (value <$> tx.(output)) + script * 2 ^ 64 + amount * 2 ^ 128)
|}.

Definition sample_close_estate : EnforcementState :=
  with_counterparty
    (with_holder (EnforcementState_new 0) 2 (Some (mkCommitmentInfo2 false 400000 599000 [] [] 253)) None)
    2 (Some 11) None (Some (mkCommitmentInfo2 true 599000 400000 [] [] 253)) None.

Definition sample_close_tx : Transaction :=
  mkTransaction 2 0 [mkTxIn (mkOutPoint 77 0) 0xffffffff] [mkTxOut 400000 99; mkTxOut 598500 77].

Definition sample_funded_channel : Channel :=
  mkChannel (with_holder (EnforcementState_new 0) 1 None None) sample_setup [1] None sample_chain None None None.

(** ** Properties *)

(** C7: an on-chain transaction that passes validation under a strict policy
    spends its inputs on known outputs only: each output goes to the wallet or
    the allowlist, or funds an outbound channel with its exact value and script,
    without a push, once the initial commitment is countersigned; with a funding
    output every input is segwit.  The inputs add up to the outputs and the
    returned fee, with no overflow. *)
Theorem onchain_tx_safe `{Profile} `{BitcoinLib} `{LightningLib} {W : Type} `{Wallet W} (wallet : W)
    (policy : SimplePolicy) (holder_funding_pubkey : Channel -> PublicKey)
    (channels : list (option ChannelSlot)) (tx : Transaction) (segwit_flags : list bool)
    (values_sat : list Z) (opaths : list DerivationPath) (weight fee : Z) :
  strict_policy policy -> slots_wf channels ->
  validate_onchain_tx wallet policy holder_funding_pubkey channels tx segwit_flags values_sat opaths weight
    = Ok fee ->
  tx.(version) = 2 /\ base_size tx <= MAX_ONCHAIN_TX_SIZE /\
  ((exists slot, Some slot ∈ channels) -> Forall (fun f => f = true) segwit_flags) /\
  (forall i o, tx.(output) !! i = Some o -> output_ok wallet holder_funding_pubkey channels opaths i o) /\
  zsum values_sat = zsum (value <$> tx.(output)) + fee /\ 0 <= fee.
Proof.
  intros Hs Hwf Hv. eapply onchain_outputs_Ok in Hv as (H1' & H2' & H3' & H4' & H5' & H6' & _); [|done|done].
  split_and!; done.
Qed.

Lemma onchain_tx_safe_witness :
  let pk := fun _ : Channel => 5 in
  let script := funding_script pk sample_funded_channel in
  let tx := mkTransaction 2 0 [mkTxIn (mkOutPoint 3 0) 0] [mkTxOut 1000000 script; mkTxOut 5000 77; mkTxOut 7 88] in
  let channels := [Some (Ready sample_funded_channel); None; None] in
  zsum [1008007] = zsum (value <$> tx.(output)) + 3000 /\
  output_ok tt pk channels [[]; [1]; []] 0 (mkTxOut 1000000 script).
Proof.
  pose proof (onchain_tx_safe (H:=debug_profile) tt (make_default_simple_policy Bitcoin) (fun _ => 5)
    [Some (Ready sample_funded_channel); None; None]
    (mkTransaction 2 0 [mkTxIn (mkOutPoint 3 0) 0]
       [mkTxOut 1000000 (funding_script (fun _ => 5) sample_funded_channel); mkTxOut 5000 77; mkTxOut 7 88])
    [true] [1008007] [[]; [1]; []] 700 3000) as Hs.
  destruct Hs as (_ & _ & _ & Ho & Hz & _).
  - apply default_policy_strict.
  - intros [|[|[|i]]] chan Hc; try done. by injection Hc as <-.
  - vm_compute. reflexivity.
  - split; [exact Hz|]. by apply Ho.
Defined.

(** A mutual close that passes under a strict policy is the transaction
    that was submitted, and it is fair: its outputs are exactly those of the two
    parties, no HTLC is pending, the party that does not pay the fee gets its
    value of both last commitments up to epsilon, the outputs do not exceed the
    channel, the fee is in the policy's range, and the holder's output goes to
    the wallet or the allowlist and to the script agreed up front. *)
Theorem mutual_close_safe `{Profile} `{BitcoinLib} `{LightningLib} {W : Type} `{Wallet W} (wallet : W)
    (policy : SimplePolicy) (setup : ChannelSetup) (estate : EnforcementState) (tx : Transaction)
    (paths : list DerivationPath) (ct : ClosingTransaction) :
  strict_policy policy ->
  decode_and_validate_mutual_close_tx wallet policy setup estate tx paths = Ok ct ->
  exists args, close_ok wallet policy setup estate args /\ args_cover tx args /\
    ct = make_closing_tx setup args.(va_to_holder_value_sat) args.(va_to_counterparty_value_sat)
           args.(va_holder_script) args.(va_counterparty_script) /\
    built_closing_tx ct = tx.
Proof. intros Hs. by apply decode_mutual_close_Ok. Qed.

Lemma mutual_close_safe_witness :
  exists args, close_ok (H:=debug_profile) tt (make_default_simple_policy Bitcoin) sample_setup sample_close_estate args /\
    args_cover sample_close_tx args.
Proof.
  destruct (mutual_close_safe (H:=debug_profile) tt (make_default_simple_policy Bitcoin) sample_setup
    sample_close_estate sample_close_tx [[]; [1]]
    (mkClosingTransaction 598500 400000 77 99 (mkOutPoint 77 0))) as (args & Hok & Hcov & _).
  - apply default_policy_strict.
  - vm_compute. reflexivity.
  - exists args. exact (conj Hok Hcov).
Defined.

(** A mutual close without outputs is not rejected: it passes the check of
    the number of outputs, and the signer panics when it reads the first one. *)
Theorem mutual_close_no_outputs_panics `{Profile} `{BitcoinLib} `{LightningLib} {W : Type} `{Wallet W}
    (wallet : W) (policy : SimplePolicy) (setup : ChannelSetup) (estate : EnforcementState) (tx : Transaction) :
  tx.(output) = [] -> is_Some estate.(current_holder_commit_info) ->
  is_Some estate.(current_counterparty_commit_info) ->
  decode_and_validate_mutual_close_tx wallet policy setup estate tx [] = Panic.
Proof.
  intros Ho [h Hh] [c Hc]. unfold decode_and_validate_mutual_close_tx, close_args.
  rewrite Ho, Hh, Hc. done.
Qed.

Lemma mutual_close_no_outputs_panics_witness :
  decode_and_validate_mutual_close_tx (H:=release_profile) tt (make_default_simple_policy Bitcoin) sample_setup
    sample_close_estate (mkTransaction 2 0 [] []) [] = Panic.
Proof. apply mutual_close_no_outputs_panics; [reflexivity|by eexists|by eexists]. Defined.

(** A sweep of any of the three kinds that passes under a strict policy has
    version 2, pays every output to the wallet or the allowlist, and when it has
    one input its fee is in the policy's range. *)
Theorem sweeps_pay_wallet `{Profile} `{BitcoinLib} {W : Type} `{Wallet W} (wallet : W)
    (policy : SimplePolicy) (setup : ChannelSetup) (cstate : ChainState) (tx : Transaction)
    (redeemscript : ScriptBuf) (input : nat) (amount_sat : Z) (path : DerivationPath) :
  strict_policy policy ->
  validate_delayed_sweep wallet policy setup cstate tx input amount_sat path = Ok tt \/
  validate_counterparty_htlc_sweep wallet policy setup cstate tx redeemscript input amount_sat path = Ok tt \/
  validate_justice_sweep wallet policy setup cstate tx input amount_sat path = Ok tt ->
  tx.(version) = 2 /\ Forall (fun o => known_destination wallet path o.(script_pubkey)) tx.(output) /\
  (length tx.(Bitcoin.input) = 1%nat -> exists sum weight,
     sum_u64 (E:=ValidationError) (value <$> tx.(output)) = Ok sum /\
     estimated_sweep_tx_weight (E:=ValidationError) tx = Ok weight /\
     validate_fee policy "policy-sweep-fee-range" amount_sat sum weight = Ok tt).
Proof.
  intros Hs Hv.
  assert (Hsw : exists u, validate_sweep wallet policy tx amount_sat path = Ok u).
  { destruct Hv as [Hv|[Hv|Hv]]; apply bind_Ok in Hv as (u & Hu & _); by exists u. }
  destruct Hsw as [u Hu]. by eapply validate_sweep_Ok.
Qed.

Lemma sweeps_pay_wallet_witness :
  let tx := mkTransaction 2 0 [mkTxIn (mkOutPoint 3 0) 144] [mkTxOut 99000 77] in
  Forall (fun o => known_destination tt [1] o.(script_pubkey)) tx.(output).
Proof.
  apply (sweeps_pay_wallet (H:=debug_profile) tt (make_default_simple_policy Bitcoin) sample_setup sample_chain
    (mkTransaction 2 0 [mkTxIn (mkOutPoint 3 0) 144] [mkTxOut 99000 77]) 0 0 100000 [1]).
  - apply default_policy_strict.
  - left. vm_compute. reflexivity.
Defined.

(** The check of the contest delay looks at the first input whatever input
    is to be signed: with several inputs the others can be replaced, with any
    sequence numbers, and a delayed sweep is judged the same. *)
Theorem delayed_sweep_ignores_signed_input `{Profile} `{BitcoinLib} {W : Type} `{Wallet W} (wallet : W)
    (policy : SimplePolicy) (setup : ChannelSetup) (cstate : ChainState) (v lock : Z)
    (first : TxIn) (rest rest' : list TxIn) (outs : list TxOut) (input input' : nat) (amount_sat : Z)
    (path : DerivationPath) :
  rest <> [] -> rest' <> [] ->
  validate_delayed_sweep wallet policy setup cstate (mkTransaction v lock (first :: rest) outs) input amount_sat path
  = validate_delayed_sweep wallet policy setup cstate (mkTransaction v lock (first :: rest') outs) input'
      amount_sat path.
Proof.
  intros Hr Hr'. unfold validate_delayed_sweep, validate_sweep.
  destruct rest as [|a rest]; [done|]. destruct rest' as [|a' rest']; [done|]. reflexivity.
Qed.

Lemma delayed_sweep_ignores_signed_input_witness :
  let tx s := mkTransaction 2 0 [mkTxIn (mkOutPoint 3 0) 144; mkTxIn (mkOutPoint 4 0) s] [mkTxOut 99000 77] in
  validate_delayed_sweep (H:=debug_profile) tt (make_default_simple_policy Bitcoin) sample_setup sample_chain
    (tx 144) 1 100000 [1] = Ok tt /\
  validate_delayed_sweep (H:=debug_profile) tt (make_default_simple_policy Bitcoin) sample_setup sample_chain
    (tx 144) 1 100000 [1]
  = validate_delayed_sweep (H:=debug_profile) tt (make_default_simple_policy Bitcoin) sample_setup sample_chain
      (tx 0) 1 100000 [1].
Proof.
  split; [vm_compute; reflexivity|]. by apply delayed_sweep_ignores_signed_input.
Defined.

(** Decoding a commitment transaction accounts for every output and every
    satoshi: with fewer than 2^16 outputs, the outputs are the at most one output
    of each party, the anchors and the HTLCs that the info lists, and their values
    add up to those of the transaction; the delay is at most 2016 blocks and every
    HTLC hash has 20 bytes. *)
Theorem commitment_decode_accounts `{Profile} `{BitcoinLib} (policy : SimplePolicy) (pk : PublicKey)
    (setup : ChannelSetup) (is_counterparty : bool) (tx : Transaction) (witscripts : list (list Z))
    (info : Phase1.CommitmentInfo) :
  (forall s, is_p2wpkh s = true -> is_Some (Address_from_script s)) ->
  Z.of_nat (length tx.(output)) < 2 ^ 16 ->
  decode_commitment_tx policy pk setup is_counterparty tx witscripts = Ok info ->
  Accounting.info_wf info /\
  Accounting.info_outputs info = Z.of_nat (length tx.(output)) /\
  Accounting.info_value info = zsum (value <$> tx.(output)).
Proof. intros Ha. by apply decode_commitment_accounted. Qed.

Lemma commitment_decode_accounts_witness :
  exists info,
    decode_commitment_tx (H:=debug_profile) (make_default_simple_policy Bitcoin) 21 sample_setup true
      (mkTransaction 2 0 [] [mkTxOut 9000 500; mkTxOut 7000 1001; mkTxOut 5000 1002; mkTxOut 3000 1003])
      [[]; [1]; [2]; [3]] = Ok info /\
    Accounting.info_value info = 24000.
Proof.
  eexists. split; [vm_compute; reflexivity|].
  refine (proj2 (proj2 (commitment_decode_accounts (H:=debug_profile) (make_default_simple_policy Bitcoin) 21
    sample_setup true
    (mkTransaction 2 0 [] [mkTxOut 9000 500; mkTxOut 7000 1001; mkTxOut 5000 1002; mkTxOut 3000 1003])
    [[]; [1]; [2]; [3]] _ _ _ _))).
  - intros s _. by eexists.
  - vm_compute. reflexivity.
  - vm_compute. reflexivity.
Defined.
