(* ===== verification/ChannelTx.v ===== *)
(** * Channel operations on transactions: [vls-core/src/channel.rs]

    The operations of a ready channel that receive a transaction: the phase 1
    forms, which decode a commitment and compare it with one rebuilt from the
    decoded values, mutual closes, second-level HTLC transactions, the sweeps and
    splice inputs.  The transaction methods of the trait [Validator] are a second
    class, with the implementations of both validators. *)
From S2P Require Import Prelude Velocity Policy Ordered CommitInfo Types Bitcoin Script Secrets Enforcement SimpleValidator Validator NodeState Channel TxValidator.

(** ** The transaction methods of [Validator] *)
Class TransactionValidator (V W : Type) := {
  tv_validate_setup_channel : V -> W -> ChannelSetup -> DerivationPath -> res ValidationError unit;
  tv_validate_onchain_tx :
    V -> W -> list (option ChannelSlot) -> Transaction -> list bool -> list Z -> list DerivationPath -> Z ->
    res ValidationError Z;
  tv_decode_commitment_tx :
    V -> PublicKey -> ChannelSetup -> bool -> Transaction -> list (list Z) ->
    res ValidationError Phase1.CommitmentInfo;
  tv_decode_and_validate_htlc_tx :
    V -> bool -> ChannelSetup -> TxCreationKeys -> Transaction -> ScriptBuf -> Z ->
    res ValidationError (Z * IndexedHTLC * Z * EcdsaSighashType);
  tv_validate_htlc_tx : V -> ChannelSetup -> HTLCOutputInCommitment -> Z -> res ValidationError unit;
  tv_decode_and_validate_mutual_close_tx :
    V -> W -> ChannelSetup -> EnforcementState -> Transaction -> list DerivationPath ->
    res ValidationError ClosingTransaction;
  tv_validate_mutual_close_tx :
    V -> W -> ChannelSetup -> EnforcementState -> Z -> Z -> option ScriptBuf -> option ScriptBuf ->
    DerivationPath -> res ValidationError unit;
  tv_validate_delayed_sweep :
    V -> W -> ChannelSetup -> ChainState -> Transaction -> nat -> Z -> DerivationPath ->
    res ValidationError unit;
  tv_validate_counterparty_htlc_sweep :
    V -> W -> ChannelSetup -> ChainState -> Transaction -> ScriptBuf -> nat -> Z -> DerivationPath ->
    res ValidationError unit;
  tv_validate_justice_sweep :
    V -> W -> ChannelSetup -> ChainState -> Transaction -> nat -> Z -> DerivationPath ->
    res ValidationError unit
}.

Section Instances.
Context `{Profile} `{BitcoinLib} `{LightningLib} {W : Type} `{Wallet W}.
Context (htlc_timeout_tx_weight htlc_success_tx_weight : ChannelTypeFeatures -> Z).
Context (holder_funding_pubkey : Channel -> PublicKey).

Definition SimpleValidator_transactions : TransactionValidator SimpleValidator W := {|
  tv_validate_setup_channel v w := validate_setup_channel w v.(sv_policy);
  tv_validate_onchain_tx v w := validate_onchain_tx w v.(sv_policy) holder_funding_pubkey;
  tv_decode_commitment_tx v := decode_commitment_tx v.(sv_policy);
  tv_decode_and_validate_htlc_tx _ := decode_and_validate_htlc_tx htlc_timeout_tx_weight htlc_success_tx_weight;
  tv_validate_htlc_tx v := validate_htlc_tx v.(sv_policy);
  tv_decode_and_validate_mutual_close_tx v w := decode_and_validate_mutual_close_tx w v.(sv_policy);
  tv_validate_mutual_close_tx v w := validate_mutual_close_tx w v.(sv_policy);
  tv_validate_delayed_sweep v w := validate_delayed_sweep w v.(sv_policy);
  tv_validate_counterparty_htlc_sweep v w := validate_counterparty_htlc_sweep w v.(sv_policy);
  tv_validate_justice_sweep v w := validate_justice_sweep w v.(sv_policy)
|}.

(** [OnchainValidator] delegates each of them. *)
Definition OnchainValidator_transactions {V : Type} `{TransactionValidator V W}
  : TransactionValidator (OnchainValidator V) W := {|
  tv_validate_setup_channel v := tv_validate_setup_channel v.(inner V);
  tv_validate_onchain_tx v := tv_validate_onchain_tx v.(inner V);
  tv_decode_commitment_tx v := tv_decode_commitment_tx (W:=W) v.(inner V);
  tv_decode_and_validate_htlc_tx v := tv_decode_and_validate_htlc_tx (W:=W) v.(inner V);
  tv_validate_htlc_tx v := tv_validate_htlc_tx (W:=W) v.(inner V);
  tv_decode_and_validate_mutual_close_tx v := tv_decode_and_validate_mutual_close_tx v.(inner V);
  tv_validate_mutual_close_tx v := tv_validate_mutual_close_tx v.(inner V);
  tv_validate_delayed_sweep v := tv_validate_delayed_sweep v.(inner V);
  tv_validate_counterparty_htlc_sweep v := tv_validate_counterparty_htlc_sweep v.(inner V);
  tv_validate_justice_sweep v := tv_validate_justice_sweep v.(inner V)
|}.
End Instances.

(** ** Keys *)

(** The private keys that an operation signs with, by the values they are
    derived from. *)
Inductive SigningKey :=
| FundingKey
| DelayedPaymentKey (per_commitment_point : PublicKey)
| HtlcKey (per_commitment_point : PublicKey)
| RevocationKey (revocation_secret : SecretKey)
| PaymentKey.

Record TypedSignature := mkTypedSignature { sig : Signature; typ : EcdsaSighashType }.

(** The channel's public keys, and signing by the lightning and secp256k1
    packages. *)
Class TransactionSigner := {
  holder_pubkeys : ChannelPublicKeys;
  derive_new_tx_keys :
    PublicKey -> PublicKey -> PublicKey -> PublicKey -> PublicKey -> TxCreationKeys;
  get_htlc_redeemscript : HTLCOutputInCommitment -> ChannelTypeFeatures -> TxCreationKeys -> ScriptBuf;
  (** [trust().built_transaction().transaction] of a commitment of the
      counterparty ([true]) or of the holder, and the signature of the former by
      the funding key. *)
  built_commitment_tx : bool -> CommitmentParams -> Transaction;
  sign_built_commitment : CommitmentParams -> res Status Signature;
  sign_closing_transaction : ChannelSetup -> ClosingTransaction -> option Signature;
  sign_ecdsa : Z -> SigningKey -> Signature;
  compute_txid : Transaction -> Txid
}.

Section ChannelTx.
Context `{Profile} `{BitcoinLib} `{LightningLib} {V W : Type} `{Validator V} `{TransactionValidator V W}.
Context (validator : V) (wallet : W) `{Signer} `{TransactionSigner} (set_iter : gset Z -> list Z).
Context (persist : Channel -> res Status unit).

Abbreviation channel_method A := (method (Channel * NodeState) Status A) (only parsing).
Abbreviation do_persist := (do_persist persist).

Definition make_tx_keys (per_commitment_point : PublicKey) (a_points b_points : ChannelPublicKeys)
  : TxCreationKeys :=
  derive_new_tx_keys per_commitment_point a_points.(delayed_payment_basepoint) a_points.(htlc_basepoint)
    b_points.(revocation_basepoint) b_points.(htlc_basepoint).

Definition make_counterparty_tx_keys (self : Channel) (point : PublicKey) : TxCreationKeys :=
  make_tx_keys point self.(setup).(counterparty_points) holder_pubkeys.

Definition make_holder_tx_keys (self : Channel) (point : PublicKey) : TxCreationKeys :=
  make_tx_keys point holder_pubkeys self.(setup).(counterparty_points).

(** The previous outputs that a transaction spends. *)
Definition spent_by (tx : Transaction) : list OutPoint := previous_output <$> tx.(input).

(** *** Phase 1: counterparty commitments *)

(** The outcome when the transaction is not the one rebuilt: with a warning the
    host's transaction is signed as it is, and the state does not advance. *)
Definition sign_host_tx (self : Channel) (tx : Transaction) : res Status Signature :=
  lift_ve (Policy_policy_error validator "policy-commitment") ;;
  let host_view := setup_for_tx self (spent_by tx) in
  let host_redeemscript :=
    make_funding_redeemscript holder_pubkeys.(funding_pubkey)
      host_view.(counterparty_points).(funding_pubkey) in
  host_sighash ← ok_or internal_error
                   (p2wsh_signature_hash tx 0 host_redeemscript host_view.(channel_value_sat) SighashAll);
  Ok (sign_ecdsa host_sighash FundingKey).

Definition sign_counterparty_commitment_tx (tx : Transaction) (output_witscripts : list (list Z))
    (remote_per_commitment_point : PublicKey) (commitment_number feerate_per_kw : Z)
    (offered_htlcs received_htlcs : list HTLCInfo2) : channel_method Signature :=
  '(self, state) ← get_self;
  let estate := self.(enforcement_state) in
  if negb (length tx.(output) =? length output_witscripts)%nat then call (Err invalid_argument)
  else
    call (lift_ve (v_validate_channel_value validator self.(setup))) ;;
    info ← call (lift_ve (tv_decode_commitment_tx (W:=W) validator holder_pubkeys.(funding_pubkey) self.(setup)
                            true tx output_witscripts));
    let info2 := build_counterparty_commitment_info info.(Phase1.to_countersigner_value_sat)
                   info.(Phase1.to_broadcaster_value_sat) offered_htlcs received_htlcs feerate_per_kw in
    let view := setup_for_tx self (spent_by tx) in
    delta ← call (claimable_balances estate state None (Some info2) view self.(prev_setup));
    incoming_payment_summary ← call (incoming_payments_summary estate None (Some info2));
    call (lift_ve (v_validate_counterparty_commitment_tx validator estate commitment_number
                     remote_per_commitment_point view (get_chain_state self) info2)) ;;
    htlcs ← call (htlcs_info2_to_oic info2.(CommitInfo.offered_htlcs) info2.(CommitInfo.received_htlcs));
    recomposed_tx ← call (make_commitment_params view remote_per_commitment_point commitment_number
                            feerate_per_kw info2.(to_countersigner_value_sat)
                            info2.(to_broadcaster_value_sat) htlcs);
    if bool_decide (built_commitment_tx true recomposed_tx <> tx) then call (sign_host_tx self tx)
    else
      commit_num ← call (sub_u64 INITIAL_COMMITMENT_NUMBER recomposed_tx.(cp_backwards_number));
      let point := recomposed_tx.(cp_point) in
      sig ← call (sign_built_commitment recomposed_tx);
      outgoing_payment_summary ← call (payments_summary estate None (Some info2));
      call (lift_ve (validate_payments validator set_iter state self.(id0) incoming_payment_summary
                       outgoing_payment_summary delta)) ;;
      let funding_changed :=
        match estate.(counterparty_commitment_funding) with
        | Some f => bool_decide (f <> view.(funding_outpoint))
        | None => false
        end in
      next ← call (add_u64 commit_num 1);
      estate ← call (lift_ve (set_next_counterparty_commit_num validator estate next point info2
                                funding_changed));
      set_estate (with_funding_tags estate estate.(holder_commitment_funding)
                    (Some view.(funding_outpoint))) ;;
      state ← call (apply_payments validator set_iter state self.(id0) incoming_payment_summary
                      outgoing_payment_summary delta (Some info2));
      set_state state ;;
      do_persist ;;
      mret sig.

(** *** Phase 1: holder commitments *)
Definition make_validated_recomposed_holder_commitment_tx (self : Channel) (tx : Transaction)
    (output_witscripts : list (list Z)) (commitment_number : Z) (per_commitment_point : PublicKey)
    (feerate_per_kw : Z) (offered_htlcs received_htlcs : list HTLCInfo2)
  : res Status (CommitmentParams * CommitmentInfo2 * gmap Z Z) :=
  let estate := self.(enforcement_state) in
  let view := setup_for_tx self (spent_by tx) in
  if negb (length tx.(output) =? length output_witscripts)%nat then Err invalid_argument
  else
    lift_ve (v_validate_channel_value validator view) ;;
    info ← lift_ve (tv_decode_commitment_tx (W:=W) validator holder_pubkeys.(funding_pubkey) view false tx
                      output_witscripts);
    let info2 := build_holder_commitment_info info.(Phase1.to_broadcaster_value_sat)
                   info.(Phase1.to_countersigner_value_sat) offered_htlcs received_htlcs feerate_per_kw in
    incoming_payment_summary ← incoming_payments_summary estate (Some info2) None;
    lift_ve (v_validate_holder_commitment_tx validator estate commitment_number per_commitment_point view
               (get_chain_state self) info2) ;;
    htlcs ← htlcs_info2_to_oic info2.(CommitInfo.offered_htlcs) info2.(CommitInfo.received_htlcs);
    recomposed_tx ← make_commitment_params view per_commitment_point commitment_number feerate_per_kw
                      info.(Phase1.to_broadcaster_value_sat) info.(Phase1.to_countersigner_value_sat) htlcs;
    when (bool_decide (built_commitment_tx false recomposed_tx <> tx))
      (lift_ve (Policy_policy_error validator "policy-commitment")) ;;
    Ok (recomposed_tx, info2, incoming_payment_summary).

(** The straggler test compares the view with the current setup, where the
    phase 2 form compares it with the funding of the last holder commitment. *)
Definition store_holder_commitment_phase1 {E : Type} (self : Channel) (view : ChannelSetup)
    (commitment_number : Z) (info2 : CommitmentInfo2) (sigs : CommitmentSignatures)
  : res E EnforcementState :=
  let estate := self.(enforcement_state) in
  if commitment_number =? estate.(next_holder_commit_num) then
    Ok (with_funding_tags (with_next_holder estate (Some (info2, sigs)))
          (Some view.(funding_outpoint)) estate.(counterparty_commitment_funding))
  else match estate.(prev_funding_commitment) with
  | Some prev =>
      n1 ← add_u64 commitment_number 1;
      Ok (if (n1 =? estate.(next_holder_commit_num))
             && bool_decide (view.(funding_outpoint) <> self.(setup).(funding_outpoint))
          then with_prev_funding estate
                 (Some (mkPrevFundingCommitment prev.(outpoint) prev.(current_holder_info)
                          prev.(current_holder_signatures) (Some (info2, sigs))
                          prev.(current_counterparty_info) prev.(retiring_push_value_msat)))
          else estate)
  | None => Ok estate
  end.

Definition validate_holder_commitment_tx (tx : Transaction) (output_witscripts : list (list Z))
    (commitment_number feerate_per_kw : Z) (offered_htlcs received_htlcs : list HTLCInfo2)
    (counterparty_commit_sig : Signature) (counterparty_htlc_sigs : list Signature)
  : channel_method unit :=
  '(self, state) ← get_self;
  let estate := self.(enforcement_state) in
  per_commitment_point ← call (get_per_commitment_point self commitment_number);
  r ← call (make_validated_recomposed_holder_commitment_tx self tx output_witscripts commitment_number
              per_commitment_point feerate_per_kw offered_htlcs received_htlcs);
  let '(recomposed_tx, info2, incoming_payment_summary) := r in
  let view := setup_for_tx self (spent_by tx) in
  delta ← call (claimable_balances estate state (Some info2) None view self.(prev_setup));
  call (check_holder_tx_signatures self per_commitment_point counterparty_commit_sig
          counterparty_htlc_sigs recomposed_tx) ;;
  outgoing_payment_summary ← call (payments_summary estate (Some info2) None);
  call (lift_ve (validate_payments validator set_iter state self.(id0) incoming_payment_summary
                   outgoing_payment_summary delta)) ;;
  estate ← call (store_holder_commitment_phase1 self view commitment_number info2
                   (mkCommitmentSignatures counterparty_commit_sig counterparty_htlc_sigs));
  set_estate estate ;;
  do_persist.

(** *** Mutual close *)
Definition finish_close (closing_tx : ClosingTransaction) : channel_method Signature :=
  '(self, _) ← get_self;
  sig ← call (ok_or internal_error (sign_closing_transaction self.(setup) closing_tx));
  set_estate (with_closed self.(enforcement_state) true) ;;
  do_persist ;;
  mret sig.

Definition sign_mutual_close_tx (tx : Transaction) (opaths : list DerivationPath)
  : channel_method Signature :=
  '(self, _) ← get_self;
  if negb (length opaths =? length tx.(output))%nat then call (Err invalid_argument)
  else
    recomposed_tx ← call (lift_ve (tv_decode_and_validate_mutual_close_tx validator wallet self.(setup)
                                     self.(enforcement_state) tx opaths));
    finish_close recomposed_tx.

Definition sign_mutual_close_tx_phase2 (to_holder_value_sat to_counterparty_value_sat : Z)
    (holder_script counterparty_script : option ScriptBuf) (holder_wallet_path_hint : DerivationPath)
  : channel_method Signature :=
  '(self, _) ← get_self;
  call (lift_ve (tv_validate_mutual_close_tx validator wallet self.(setup) self.(enforcement_state)
                   to_holder_value_sat to_counterparty_value_sat holder_script counterparty_script
                   holder_wallet_path_hint)) ;;
  finish_close (make_closing_tx self.(setup) to_holder_value_sat to_counterparty_value_sat holder_script
                  counterparty_script).

(** *** Sweeps *)

(** Signing an input of a sweep once it is validated. *)
Definition sign_sweep_input (tx : Transaction) (input : nat) (redeemscript : ScriptBuf) (amount_sat : Z)
    (key : SigningKey) : res Status Signature :=
  sighash ← unwrap (p2wsh_signature_hash tx input redeemscript amount_sat SighashAll);
  Ok (sign_ecdsa sighash key).

Definition sign_delayed_sweep (self : Channel) (tx : Transaction) (input : nat) (commitment_number : Z)
    (redeemscript : ScriptBuf) (amount_sat : Z) (wallet_path : DerivationPath) : res Status Signature :=
  if (length tx.(Bitcoin.input) <=? input)%nat then Err invalid_argument
  else
    per_commitment_point ← get_per_commitment_point self commitment_number;
    lift_ve (tv_validate_delayed_sweep validator wallet self.(setup) (get_chain_state self) tx input
               amount_sat wallet_path) ;;
    sign_sweep_input tx input redeemscript amount_sat (DelayedPaymentKey per_commitment_point).

Definition sign_counterparty_htlc_sweep (self : Channel) (tx : Transaction) (input : nat)
    (remote_per_commitment_point : PublicKey) (redeemscript : ScriptBuf) (htlc_amount_sat : Z)
    (wallet_path : DerivationPath) : res Status Signature :=
  if (length tx.(Bitcoin.input) <=? input)%nat then Err invalid_argument
  else
    lift_ve (tv_validate_counterparty_htlc_sweep validator wallet self.(setup) (get_chain_state self) tx
               redeemscript input htlc_amount_sat wallet_path) ;;
    sign_sweep_input tx input redeemscript htlc_amount_sat (HtlcKey remote_per_commitment_point).

Definition sign_justice_sweep (self : Channel) (tx : Transaction) (input : nat)
    (revocation_secret : SecretKey) (redeemscript : ScriptBuf) (amount_sat : Z)
    (wallet_path : DerivationPath) : res Status Signature :=
  if (length tx.(Bitcoin.input) <=? input)%nat then Err invalid_argument
  else
    lift_ve (tv_validate_justice_sweep validator wallet self.(setup) (get_chain_state self) tx input
               amount_sat wallet_path) ;;
    sign_sweep_input tx input redeemscript amount_sat (RevocationKey revocation_secret).

(** *** Second-level HTLC transactions *)
Definition sign_htlc_tx (self : Channel) (tx : Transaction) (per_commitment_point : PublicKey)
    (redeemscript : ScriptBuf) (htlc_amount_sat : Z) (is_counterparty : bool) (txkeys : TxCreationKeys)
  : res Status TypedSignature :=
  r ← lift_ve (tv_decode_and_validate_htlc_tx (W:=W) validator is_counterparty self.(setup) txkeys tx
                 redeemscript htlc_amount_sat);
  let '(feerate_per_kw, htlc, recomposed_tx_sighash, sighash_type) := r in
  lift_ve (tv_validate_htlc_tx (W:=W) validator self.(setup) htlc.(ih_htlc) feerate_per_kw) ;;
  Ok (mkTypedSignature (sign_ecdsa recomposed_tx_sighash (HtlcKey per_commitment_point)) sighash_type).

Definition sign_holder_htlc_tx (self : Channel) (tx : Transaction) (commitment_number : Z)
    (opt_per_commitment_point : option PublicKey) (redeemscript : ScriptBuf) (htlc_amount_sat : Z)
  : res Status TypedSignature :=
  per_commitment_point ←
    match opt_per_commitment_point with
    | Some p => Ok p
    | None => get_per_commitment_point self commitment_number
    end;
  sign_htlc_tx self tx per_commitment_point redeemscript htlc_amount_sat false
    (make_holder_tx_keys self per_commitment_point).

Definition sign_counterparty_htlc_tx (self : Channel) (tx : Transaction)
    (remote_per_commitment_point : PublicKey) (redeemscript : ScriptBuf) (htlc_amount_sat : Z)
  : res Status TypedSignature :=
  sign_htlc_tx self tx remote_per_commitment_point redeemscript htlc_amount_sat true
    (make_counterparty_tx_keys self remote_per_commitment_point).

(** The phase 2 form validates nothing; the sighash type is always [All]. *)
Definition sign_holder_htlc_tx_phase2 (self : Channel) (tx : Transaction) (input : nat)
    (commitment_number : Z) (is_offered : bool) (cltv_expiry htlc_amount_msat payment_hash : Z)
  : res Status TypedSignature :=
  per_commitment_point ← get_per_commitment_point self commitment_number;
  let keys := make_holder_tx_keys self per_commitment_point in
  let htlc := mkHTLCOutput is_offered htlc_amount_msat cltv_expiry payment_hash in
  let witness_script := get_htlc_redeemscript htlc (features self.(setup)) keys in
  sighash ← unwrap (p2wsh_signature_hash tx input witness_script (htlc_amount_msat / 1000) SighashAll);
  Ok (mkTypedSignature (sign_ecdsa sighash (HtlcKey per_commitment_point)) SighashAll).

(** *** Splice inputs *)
Definition sign_splice_tx (self : Channel) (tx : Transaction) (input_index : nat)
    (remote_funding_key : PublicKey) (input_amount_sat : option Z) : res Status Signature :=
  i ← ok_or invalid_argument (tx.(Bitcoin.input) !! input_index);
  view ←
    (if bool_decide (i.(previous_output) = self.(setup).(funding_outpoint)) then Ok self.(setup)
     else match self.(prev_setup) with
     | Some prev =>
         if bool_decide (i.(previous_output) = prev.(funding_outpoint)) then Ok prev
         else match self.(prev_prev_setup) with
         | Some pp =>
             if bool_decide (i.(previous_output) = pp.(funding_outpoint)) then Ok pp
             else Err invalid_argument
         | None => Err invalid_argument
         end
     | None => Err invalid_argument
     end);
  if negb (remote_funding_key =? view.(counterparty_points).(funding_pubkey)) then Err invalid_argument
  else
    let amount := default view.(channel_value_sat) input_amount_sat in
    if negb (amount =? view.(channel_value_sat)) then Err invalid_argument
    else
      let redeemscript := make_funding_redeemscript holder_pubkeys.(funding_pubkey) remote_funding_key in
      sighash ← ok_or internal_error (p2wsh_signature_hash tx input_index redeemscript amount SighashAll);
      Ok (sign_ecdsa sighash FundingKey).

(** *** Keys for sweeping our output of a unilateral close *)
Inductive CloseWitness :=
| RevokeableWitness (revocation_pubkey : PublicKey) (contest_delay : Z)
| AnchorWitness
| PubkeyWitness.

(** The witness by the data its script is built from. *)
Definition get_unilateral_close_key (self : Channel) (commitment_point revocation_pubkey : option PublicKey)
  : res Status (SigningKey * CloseWitness) :=
  match commitment_point with
  | Some point =>
      match revocation_pubkey with
      | Some r => Ok (DelayedPaymentKey point,
                      RevokeableWitness r self.(setup).(counterparty_selected_contest_delay))
      | None => Err invalid_argument
      end
  | None =>
      if bool_decide (is_Some revocation_pubkey) then Err invalid_argument
      else Ok (PaymentKey, if is_anchors self.(setup) then AnchorWitness else PubkeyWitness)
  end.

(** *** HTLC outputs that can be spent *)

(** The transaction is one of the holder's, rebuilt from [info]. *)
Definition matches_holder_tx (self : Channel) (tx : Transaction) (commitment_number : Z)
    (info : CommitmentInfo2) : res Status bool :=
  per_commitment_point ← get_per_commitment_point self commitment_number;
  htlcs ← htlcs_info2_to_oic info.(CommitInfo.offered_htlcs) info.(CommitInfo.received_htlcs);
  expected_tx ← make_commitment_params self.(setup) per_commitment_point commitment_number
                  info.(feerate_per_kw) info.(to_broadcaster_value_sat)
                  info.(to_countersigner_value_sat) htlcs;
  Ok (compute_txid (built_commitment_tx false expected_tx) =? compute_txid tx).

Definition get_commitment_info (self : Channel) (tx : Transaction) (commitment_number : Z)
  : res Status (bool * CommitmentInfo2) :=
  let es := self.(enforcement_state) in
  let current_holder_commit_num := saturating_sub es.(next_holder_commit_num) 1 in
  let holder_info :=
    if commitment_number =? current_holder_commit_num then es.(current_holder_commit_info)
    else if commitment_number =? es.(next_holder_commit_num) then fst <$> es.(next_holder_commit_info)
    else None in
  found ← match holder_info with
          | Some info => matches_holder_tx self tx commitment_number info
          | None => Ok false
          end;
  match (if found : bool then holder_info else None) with
  | Some info => Ok (false, info)
  | None =>
      prev ← get_previous_counterparty_commit_info es commitment_number;
      info ← ok_or invalid_argument prev;
      Ok (true, info)
  end.

(** The points are unwrapped: the commitment number was found above. *)
Definition spendable_tx_keys (self : Channel) (is_counterparty_tx : bool) (commitment_number : Z)
  : res Status TxCreationKeys :=
  if is_counterparty_tx then
    point ← get_counterparty_commitment_point self commitment_number;
    p ← unwrap point;
    Ok (make_counterparty_tx_keys self p)
  else match get_per_commitment_point self commitment_number with
  | Ok p => Ok (make_holder_tx_keys self p)
  | _ => Panic
  end.

(** What the counterparty offered on its commitment, or we received on ours,
    needs the preimage. *)
Definition spendable_scripts (self : Channel) (state : NodeState) (is_counterparty_tx : bool)
    (txkeys : TxCreationKeys) (htlcs : list HTLCOutputInCommitment) : list ScriptBuf :=
  let can_spend (htlc : HTLCOutputInCommitment) :=
    if Bool.eqb htlc.(oic_offered) is_counterparty_tx
    then bool_decide (is_Some (state.(payments) !! htlc.(oic_payment_hash) ≫= preimage))
    else true in
  (fun htlc => to_p2wsh (get_htlc_redeemscript htlc (features self.(setup)) txkeys))
    <$> filter (fun htlc => can_spend htlc = true) htlcs.

Definition get_spendable_htlc_indices (self : Channel) (state : NodeState) (tx : Transaction)
    (commitment_number : Z) : res Status (list nat) :=
  r ← get_commitment_info self tx commitment_number;
  let '(is_counterparty_tx, info) := r in
  txkeys ← spendable_tx_keys self is_counterparty_tx commitment_number;
  htlcs ← htlcs_info2_to_oic info.(CommitInfo.offered_htlcs) info.(CommitInfo.received_htlcs);
  let spendable_htlcs := spendable_scripts self state is_counterparty_tx txkeys htlcs in
  Ok (fst <$> filter (fun io => io.2.(script_pubkey) ∈ spendable_htlcs) (imap pair tx.(output))).
End ChannelTx.
