(* ===== verification/ChannelTxSafety.v ===== *)
(** * What channel operations on transactions guarantee

    The phase 1 forms refine the phase 2 forms: what they accept is a transaction
    that the phase 2 form would have built from the decoded values, with the same
    effect on the channel and the node.  A mutual close is signed only when it is
    fair and marks the channel closed. *)
From S2P Require Import Prelude Velocity Policy Ordered CommitInfo Types Bitcoin Script Secrets Enforcement SimpleValidator Validator NodeState Channel ChannelSafety TxValidator TxSafety ChannelTx.

(** ** Views of the funding *)
Lemma setup_for_outpoint_own (self : Channel) :
  setup_for_outpoint self self.(setup).(funding_outpoint) = Ok self.(setup).
Proof. unfold setup_for_outpoint. by rewrite filter_cons_True. Qed.

Lemma setup_for_outpoint_view (self : Channel) (o : OutPoint) (view : ChannelSetup) :
  setup_for_outpoint self o = Ok view -> view.(funding_outpoint) = o.
Proof.
  unfold setup_for_outpoint. destruct (filter _ _) as [|v l] eqn:Hf; [done|]. intros [= <-].
  assert (Hv : v ∈ v :: l) by left. rewrite <- Hf in Hv. by apply list_elem_of_filter in Hv as [-> _].
Qed.

Lemma setup_for_tx_outpoint (self : Channel) (inputs : list OutPoint) :
  setup_for_outpoint self (setup_for_tx self inputs).(funding_outpoint) = Ok (setup_for_tx self inputs).
Proof.
  induction inputs as [|i inputs IH]; [apply setup_for_outpoint_own|]. cbn [setup_for_tx].
  destruct (setup_for_outpoint self i) as [view| |] eqn:Hi; [|exact IH..].
  by rewrite (setup_for_outpoint_view self i view Hi).
Qed.

Lemma backwards_twice `{Profile} {E : Type} (n idx c : Z) :
  u64 n -> backwards (E:=E) n = Ok idx -> sub_u64 (E:=E) INITIAL_COMMITMENT_NUMBER idx = Ok c -> c = n.
Proof.
  unfold backwards, sub_u64, arith, uint, in_range. intros Hn.
  destruct (0 <=? _) eqn:E1; cbn [andb].
  - destruct (_ <? 2 ^ 64) eqn:E2.
    + intros [= <-]. replace (INITIAL_COMMITMENT_NUMBER - (INITIAL_COMMITMENT_NUMBER - n)) with n by lia.
      destruct ((0 <=? n) && (n <? 2 ^ 64)) eqn:E3; [by intros [= <-]|lia].
    + unfold INITIAL_COMMITMENT_NUMBER in *. lia.
  - destruct overflow_checks; [done|]. intros [= <-].
    destruct ((0 <=? _) && (_ <? 2 ^ 64)) eqn:E2; unfold INITIAL_COMMITMENT_NUMBER in *; intros [= <-].
    + rewrite <- (Z.mod_small n (2 ^ 64)) at 2 by lia. apply andb_true_iff in E2.
      rewrite <- (Z.mod_small (_ - _) (2 ^ 64)) by lia. rewrite Zminus_mod_idemp_r. f_equal. lia.
    + rewrite Zminus_mod_idemp_r. rewrite <- (Z.mod_small n (2 ^ 64)) at 2 by lia. f_equal. lia.
Qed.

(** Read one successful call of a method, or replay one. *)
Ltac read_call H E := apply call_Ok in H; destruct H as (? & E & H); cbv beta iota zeta in H.
Ltac replay E := rewrite E, call_Ok_bind; cbv beta iota zeta.

Lemma lift_ve_Ok {A : Type} (m : res ValidationError A) (a : A) : m = Ok a -> lift_ve m = Ok a.
Proof. by intros ->. Qed.

Section Phase1.
Context `{Profile} `{BitcoinLib} `{LightningLib} {V W : Type} `{Validator V} `{!TransactionValidator V W}.
Context (validator : V) (wallet : W) `{Signer} `{!TransactionSigner} (set_iter : gset Z -> list Z).
Context (persist : Channel -> res Status unit).

(** A mismatch of the rebuilt transaction is an error. *)
Context (Hstrict : forall u, Policy_policy_error validator "policy-commitment" <> Ok u).

Lemma sign_host_tx_strict (self : Channel) (tx : Transaction) (sig : Signature) :
  sign_host_tx validator self tx <> Ok sig.
Proof.
  unfold sign_host_tx, lift_ve. intros Hs. apply bind_Ok in Hs as (u & Hu & _). rewrite map_err_Ok in Hu.
  by apply (Hstrict u).
Qed.

(** The lightning package signs a commitment with and without its HTLCs alike. *)
Context (Hsign : forall p sig, sign_built_commitment p = Ok sig -> exists hs, sign_counterparty p = Ok (sig, hs)).

Lemma phase1_sign_phase2 (self : Channel) (state : NodeState) (s' : Channel * NodeState) (tx : Transaction)
    (witscripts : list (list Z)) (point : PublicKey) (n feerate : Z) (offered received : list HTLCInfo2)
    (sig : Signature) :
  let view := setup_for_tx self (spent_by tx) in
  u64 n -> v_validate_channel_value validator view = Ok tt ->
  sign_counterparty_commitment_tx (W:=W) validator set_iter persist tx witscripts point n feerate offered received
    (self, state) = (s', Ok sig) ->
  exists info params hs,
    tv_decode_commitment_tx (W:=W) validator holder_pubkeys.(funding_pubkey) self.(setup) true tx witscripts = Ok info /\
    params.(cp_view) = view /\ params.(cp_point) = point /\ params.(cp_feerate) = feerate /\
    params.(cp_to_holder) = info.(Phase1.to_countersigner_value_sat) /\
    params.(cp_to_counterparty) = info.(Phase1.to_broadcaster_value_sat) /\
    built_commitment_tx true params = tx /\ sign_built_commitment params = Ok sig /\
    sign_counterparty_commitment_tx_phase2 validator set_iter persist view.(funding_outpoint) point n feerate
      info.(Phase1.to_countersigner_value_sat) info.(Phase1.to_broadcaster_value_sat) offered received
      (self, state) = (s', Ok (sig, hs)).
Proof.
  intros view Hn Hval Hrun. unfold sign_counterparty_commitment_tx in Hrun. run_get Hrun.
  destruct (negb _); [by injection Hrun|]. fold view in Hrun.
  read_call Hrun Evalue. read_call Hrun Einfo. read_call Hrun Edelta. read_call Hrun Ein.
  read_call Hrun Evalid. read_call Hrun Ehtlcs. read_call Hrun Eparams.
  destruct (bool_decide (built_commitment_tx true _ <> tx)) eqn:Hb.
  { injection Hrun as _ Hs. by apply sign_host_tx_strict in Hs. }
  apply bool_decide_eq_false, dec_stable in Hb.
  read_call Hrun Enum. read_call Hrun Esig. read_call Hrun Eout. read_call Hrun Epay.
  read_call Hrun Enext. read_call Hrun Eset.
  rename x0 into info, x5 into params.
  assert (Hp : params.(cp_view) = view /\ params.(cp_point) = point /\ params.(cp_feerate) = feerate /\
    params.(cp_to_holder) = info.(Phase1.to_countersigner_value_sat) /\
    params.(cp_to_counterparty) = info.(Phase1.to_broadcaster_value_sat) /\
    backwards (E:=Status) n = Ok params.(cp_backwards_number)).
  { unfold make_commitment_params in Eparams. apply bind_Ok in Eparams as (idx & Hidx & [= <-]). done. }
  change (make_commitment_params (E:=Status) view point n feerate info.(Phase1.to_countersigner_value_sat)
            info.(Phase1.to_broadcaster_value_sat) x4 = Ok params) in Eparams.
  destruct Hp as (Hp1 & Hp2 & Hp3 & Hp4 & Hp5 & Hidx).
  assert (x6 = n) as -> by (by eapply backwards_twice). rewrite Hp2 in Eset.
  destruct (Hsign params x7 Esig) as [hs Hhs].
  apply method_Ok in Hrun as (s1 & u1 & Hs1 & Hrun). destruct s1 as [self1 state1].
  apply method_Ok in Hrun as (s2 & st2 & Hap & Hrun). unfold call in Hap. injection Hap as <- Hap.
  apply method_Ok in Hrun as (s3 & u3 & Hs3 & Hrun). apply method_Ok in Hrun as (s4 & u4 & Hs4 & Hrun).
  unfold mret, method_ret in Hrun. injection Hrun as <- <-.
  exists info, params, hs. unfold lift_ve in Einfo. rewrite map_err_Ok in Einfo. split_and!; try done.
  unfold sign_counterparty_commitment_tx_phase2. rewrite get_bind. cbv beta iota zeta.
  unfold view in *. rewrite setup_for_tx_outpoint, call_Ok_bind. cbv beta iota zeta.
  replay (lift_ve_Ok _ _ Hval).
  replay Edelta. replay Ein. replay Evalid. replay Ehtlcs. replay Eparams. replay Hhs. replay Eout.
  replay Epay. replay Enext. replay Eset.
  unfold mbind at 1, method_bind at 1. rewrite Hs1. rewrite Hap, call_Ok_bind. cbv beta iota zeta.
  unfold mbind at 1, method_bind at 1. rewrite Hs3. unfold mbind, method_bind. rewrite Hs4. reflexivity.
Qed.

Lemma recomposed_holder_Ok (self : Channel) (tx : Transaction) (witscripts : list (list Z)) (n : Z)
    (point : PublicKey) (feerate : Z) (offered received : list HTLCInfo2) params info2 incoming :
  let view := setup_for_tx self (spent_by tx) in
  let estate := self.(enforcement_state) in
  make_validated_recomposed_holder_commitment_tx (W:=W) validator self tx witscripts n point feerate offered received
    = Ok (params, info2, incoming) ->
  exists info htlcs,
    tv_decode_commitment_tx (W:=W) validator holder_pubkeys.(funding_pubkey) view false tx witscripts = Ok info /\
    info2 = build_holder_commitment_info info.(Phase1.to_broadcaster_value_sat)
              info.(Phase1.to_countersigner_value_sat) offered received feerate /\
    incoming_payments_summary (E:=Status) estate (Some info2) None = Ok incoming /\
    lift_ve (v_validate_holder_commitment_tx validator estate n point view (get_chain_state self) info2) = Ok tt /\
    htlcs_info2_to_oic (E:=Status) info2.(CommitInfo.offered_htlcs) info2.(CommitInfo.received_htlcs) = Ok htlcs /\
    make_commitment_params (E:=Status) view point n feerate info.(Phase1.to_broadcaster_value_sat)
      info.(Phase1.to_countersigner_value_sat) htlcs = Ok params /\
    built_commitment_tx false params = tx.
Proof.
  intros view estate. unfold make_validated_recomposed_holder_commitment_tx. destruct (negb _); [done|].
  intros Hr. apply bind_Ok in Hr as (? & _ & Hr). apply bind_Ok in Hr as (info & Hinfo & Hr).
  apply bind_Ok in Hr as (inc & Hinc & Hr). apply bind_Ok in Hr as ([] & Hval & Hr).
  apply bind_Ok in Hr as (htlcs & Hh & Hr). apply bind_Ok in Hr as (p & Hp & Hr).
  apply bind_Ok in Hr as (u & Hm & Hr). injection Hr as <- <- <-.
  exists info, htlcs. unfold lift_ve in Hinfo. rewrite map_err_Ok in Hinfo. split_and!; try done.
  destruct (bool_decide _) eqn:Hb in Hm.
  - exfalso. unfold when, lift_ve in Hm. rewrite map_err_Ok in Hm. by apply (Hstrict u).
  - by apply bool_decide_eq_false, dec_stable in Hb.
Qed.

Lemma phase1_validate_phase2 (self : Channel) (state : NodeState) (s' : Channel * NodeState) (tx : Transaction)
    (witscripts : list (list Z)) (n feerate : Z) (offered received : list HTLCInfo2)
    (sig : Signature) (htlc_sigs : list Signature) :
  let view := setup_for_tx self (spent_by tx) in
  n = self.(enforcement_state).(next_holder_commit_num) ->
  validate_holder_commitment_tx (W:=W) validator set_iter persist tx witscripts n feerate offered received
    sig htlc_sigs (self, state) = (s', Ok tt) ->
  exists info params,
    tv_decode_commitment_tx (W:=W) validator holder_pubkeys.(funding_pubkey) view false tx witscripts = Ok info /\
    params.(cp_view) = view /\ params.(cp_to_holder) = info.(Phase1.to_broadcaster_value_sat) /\
    params.(cp_to_counterparty) = info.(Phase1.to_countersigner_value_sat) /\
    built_commitment_tx false params = tx /\
    validate_holder_commitment_tx_phase2 validator set_iter persist view.(funding_outpoint) n feerate
      info.(Phase1.to_broadcaster_value_sat) info.(Phase1.to_countersigner_value_sat) offered received
      sig htlc_sigs (self, state) = (s', Ok tt).
Proof.
  intros view Hnum Hrun. unfold validate_holder_commitment_tx in Hrun. run_get Hrun.
  read_call Hrun Epoint. apply call_Ok in Hrun as ([[params info2] incoming] & Er & Hrun).
  cbv beta iota zeta in Hrun. fold view in Hrun.
  read_call Hrun Edelta. read_call Hrun Esigs. read_call Hrun Eout. read_call Hrun Epay. read_call Hrun Estore.
  apply recomposed_holder_Ok in Er as (info & htlcs & Hdec & -> & Hinc & Hval & Hh & Hp & Hb). fold view in Hdec, Hval, Hp.
  exists info, params.
  assert (Hpar : params.(cp_view) = view /\ params.(cp_to_holder) = info.(Phase1.to_broadcaster_value_sat) /\
    params.(cp_to_counterparty) = info.(Phase1.to_countersigner_value_sat)).
  { unfold make_commitment_params in Hp. by apply bind_Ok in Hp as (idx & _ & [= <-]). }
  destruct Hpar as (H1' & H2' & H3'). split_and!; try done.
  unfold validate_holder_commitment_tx_phase2. rewrite get_bind. cbv beta iota zeta.
  unfold view in *. rewrite setup_for_tx_outpoint, call_Ok_bind. cbv beta iota zeta.
  replay Epoint. replay Edelta. replay Hinc. replay Hval. replay Hh. replay Hp. replay Esigs. replay Eout. replay Epay.
  assert (Hst : store_holder_commitment (E:=Status) self.(enforcement_state) (setup_for_tx self (spent_by tx)) n
    (build_holder_commitment_info info.(Phase1.to_broadcaster_value_sat)
       info.(Phase1.to_countersigner_value_sat) offered received feerate)
    (mkCommitmentSignatures sig htlc_sigs) = Ok x4).
  { rewrite <- Estore. unfold store_holder_commitment, store_holder_commitment_phase1.
    by rewrite Hnum, Z.eqb_refl. }
  replay Hst. exact Hrun.
Qed.
End Phase1.

(** ** Mutual close *)
Section Close.
Context `{Profile} `{BitcoinLib} `{LightningLib} {W : Type} `{Wallet W} `{!TransactionSigner}.
Context (tw sw : ChannelTypeFeatures -> Z) (holder_funding_pubkey : Channel -> PublicKey).
Context (validator : SimpleValidator) (wallet : W) (persist : Channel -> res Status unit).
#[local] Existing Instance SimpleValidator_transactions.

Lemma finish_close_Ok (ct : ClosingTransaction) (self : Channel) (state : NodeState)
    (s' : Channel * NodeState) (sig : Signature) :
  finish_close persist ct (self, state) = (s', Ok sig) ->
  s' = (with_estate self (with_closed self.(enforcement_state) true), state) /\
  sign_closing_transaction self.(setup) ct = Some sig /\
  persist (with_estate self (with_closed self.(enforcement_state) true)) = Ok tt.
Proof.
  unfold finish_close. intros Hr. run_get Hr. read_call Hr Es. apply ok_or_Ok in Es.
  unfold set_estate, do_persist, mbind, method_bind, mret, method_ret in Hr.
  destruct (persist _) as [[]| |] eqn:Hp in Hr; injection Hr as <-; by simplify_eq.
Qed.

Lemma sign_mutual_close_fair (self : Channel) (state : NodeState) (s' : Channel * NodeState)
    (tx : Transaction) (opaths : list DerivationPath) (sig : Signature) :
  strict_policy validator.(sv_policy) ->
  sign_mutual_close_tx (H3:=SimpleValidator_transactions tw sw holder_funding_pubkey)
    validator wallet persist tx opaths (self, state) = (s', Ok sig) ->
  s' = (with_estate self (with_closed self.(enforcement_state) true), state) /\
  exists args ct, close_ok wallet validator.(sv_policy) self.(setup) self.(enforcement_state) args /\
    args_cover tx args /\ built_closing_tx ct = tx /\ sign_closing_transaction self.(setup) ct = Some sig.
Proof.
  intros Hs Hr. unfold sign_mutual_close_tx in Hr. run_get Hr. destruct (negb _); [by injection Hr|].
  apply call_Ok in Hr as (ct & Hct & Hr). unfold lift_ve in Hct. rewrite map_err_Ok in Hct.
  apply finish_close_Ok in Hr as (-> & Hsig & _). split; [done|].
  apply decode_mutual_close_Ok in Hct as (args & Hok & Hcov & _ & Hb); [|done]. by exists args, ct.
Qed.
End Close.

(** ** Concrete keys for the examples *)
Definition sample_commitment_outputs (broadcaster countersigner : Z) : list TxOut :=
  (if 0 <? broadcaster then [mkTxOut broadcaster 1001] else [])
  ++ (if 0 <? countersigner then [mkTxOut countersigner 500] else []).

#[export] Instance sample_tx_signer : TransactionSigner := {|
  holder_pubkeys := mkChannelPublicKeys 5 15 25 35 45;
  derive_new_tx_keys p a b c d := mkTxCreationKeys p c b d a;
  get_htlc_redeemscript htlc _ _ := if htlc.(oic_offered) then 3 else 2;
  built_commitment_tx is_counterparty p :=
    mkTransaction 2 0 [mkTxIn p.(cp_view).(funding_outpoint) 0]
      (if is_counterparty : bool then sample_commitment_outputs p.(cp_to_counterparty) p.(cp_to_holder)
       else sample_commitment_outputs p.(cp_to_holder) p.(cp_to_counterparty));
  sign_built_commitment _ := Ok 1;
  sign_closing_transaction _ ct := Some (ct.(ct_to_holder_value_sat));
  sign_ecdsa sighash _ := sighash;
  compute_txid tx := zsum (value <$> tx.(output))
|}.

Definition sample_transactions : TransactionValidator SimpleValidator unit :=
  SimpleValidator_transactions (H:=release_profile) (fun _ => 663) (fun _ => 703) (fun _ => 5).

(** ** Properties *)

(** C6: The phase 1 form of signing a counterparty commitment refines the
    phase 2 form.  When a mismatch is an error, a phase 1 call that returns a
    signature was given exactly the transaction rebuilt from the decoded values,
    and the phase 2 call with these values returns the same signature and leaves
    channel and node in the same state. *)
Theorem phase1_sign_refines_phase2 `{Profile} `{BitcoinLib} `{LightningLib} {V W : Type} `{Validator V}
    `{!TransactionValidator V W} (validator : V) `{Signer} `{!TransactionSigner} (set_iter : gset Z -> list Z)
    (persist : Channel -> res Status unit) (self : Channel) (state : NodeState) (s' : Channel * NodeState)
    (tx : Transaction) (witscripts : list (list Z)) (point : PublicKey) (n feerate : Z)
    (offered received : list HTLCInfo2) (sig : Signature) :
  (forall u, Policy_policy_error validator "policy-commitment" <> Ok u) ->
  (forall p sig, sign_built_commitment p = Ok sig -> exists hs, sign_counterparty p = Ok (sig, hs)) ->
  let view := setup_for_tx self (spent_by tx) in
  u64 n -> v_validate_channel_value validator view = Ok tt ->
  sign_counterparty_commitment_tx (W:=W) validator set_iter persist tx witscripts point n feerate offered received
    (self, state) = (s', Ok sig) ->
  exists info params hs,
    tv_decode_commitment_tx (W:=W) validator holder_pubkeys.(funding_pubkey) self.(setup) true tx witscripts = Ok info /\
    params.(cp_view) = view /\ params.(cp_point) = point /\ params.(cp_feerate) = feerate /\
    params.(cp_to_holder) = info.(Phase1.to_countersigner_value_sat) /\
    params.(cp_to_counterparty) = info.(Phase1.to_broadcaster_value_sat) /\
    built_commitment_tx true params = tx /\ sign_built_commitment params = Ok sig /\
    sign_counterparty_commitment_tx_phase2 validator set_iter persist view.(funding_outpoint) point n feerate
      info.(Phase1.to_countersigner_value_sat) info.(Phase1.to_broadcaster_value_sat) offered received
      (self, state) = (s', Ok (sig, hs)).
Proof. intros Hp Hs. by apply phase1_sign_phase2. Qed.

Section Sample.
#[local] Instance sample_release : Profile := release_profile.
#[local] Existing Instance sample_signer.
#[local] Existing Instance sample_checks.
#[local] Existing Instance sample_transactions.

Definition sample_phase1_tx : Transaction :=
  mkTransaction 2 0 [mkTxIn (mkOutPoint 77 0) 0] [mkTxOut 999000 500].
Definition sample_phase1_sign : method (Channel * NodeState) Status Signature :=
  sign_counterparty_commitment_tx (W:=unit) sample_policy elements always_persists sample_phase1_tx [[]] 41 0 1000 [] [].

Lemma phase1_sign_refines_phase2_witness :
  exists s' v hs, sample_phase1_sign sample_2 = (s', Ok 1) /\
    sign_counterparty_commitment_tx_phase2 sample_policy elements always_persists (mkOutPoint 77 0) 41 0 1000
      v 0 [] [] sample_2 = (s', Ok (1, hs)).
Proof.
  destruct (phase1_sign_refines_phase2 (W:=unit) sample_policy elements always_persists
    sample_2.1 sample_2.2 (sample_phase1_sign sample_2).1 sample_phase1_tx [[]] 41 0 1000 [] [] 1)
    as (info & params & hs & Hdec & _ & _ & _ & _ & _ & _ & _ & Hrun).
  - intros u. vm_compute. discriminate.
  - intros p sig Hs. injection Hs as <-. by exists [].
  - split; lia.
  - vm_compute. reflexivity.
  - vm_compute. reflexivity.
  - exists (sample_phase1_sign sample_2).1, info.(Phase1.to_countersigner_value_sat), hs.
    split; [vm_compute; reflexivity|].
    assert (Hz : info.(Phase1.to_broadcaster_value_sat) = 0) by (vm_compute in Hdec; by injection Hdec as <-).
    rewrite Hz in Hrun. exact Hrun.
Defined.
End Sample.

(** The phase 1 form of validating the next holder commitment refines the
    phase 2 form in the same way: the transaction is the one rebuilt from the
    decoded values, and the phase 2 call accepts these values with the same
    signatures and the same effect. *)
Theorem phase1_validate_refines_phase2 `{Profile} `{BitcoinLib} `{LightningLib} {V W : Type} `{Validator V}
    `{!TransactionValidator V W} (validator : V) `{Signer} `{!TransactionSigner} (set_iter : gset Z -> list Z)
    (persist : Channel -> res Status unit) (self : Channel) (state : NodeState) (s' : Channel * NodeState)
    (tx : Transaction) (witscripts : list (list Z)) (n feerate : Z) (offered received : list HTLCInfo2)
    (sig : Signature) (htlc_sigs : list Signature) :
  (forall u, Policy_policy_error validator "policy-commitment" <> Ok u) ->
  let view := setup_for_tx self (spent_by tx) in
  n = self.(enforcement_state).(next_holder_commit_num) ->
  validate_holder_commitment_tx (W:=W) validator set_iter persist tx witscripts n feerate offered received
    sig htlc_sigs (self, state) = (s', Ok tt) ->
  exists info params,
    tv_decode_commitment_tx (W:=W) validator holder_pubkeys.(funding_pubkey) view false tx witscripts = Ok info /\
    params.(cp_view) = view /\ params.(cp_to_holder) = info.(Phase1.to_broadcaster_value_sat) /\
    params.(cp_to_counterparty) = info.(Phase1.to_countersigner_value_sat) /\
    built_commitment_tx false params = tx /\
    validate_holder_commitment_tx_phase2 validator set_iter persist view.(funding_outpoint) n feerate
      info.(Phase1.to_broadcaster_value_sat) info.(Phase1.to_countersigner_value_sat) offered received
      sig htlc_sigs (self, state) = (s', Ok tt).
Proof. intros Hp. by apply phase1_validate_phase2. Qed.

Section Sample.
#[local] Instance sample_release2 : Profile := release_profile.
#[local] Existing Instance sample_signer.
#[local] Existing Instance sample_checks.
#[local] Existing Instance sample_transactions.

Definition sample_holder_tx : Transaction :=
  mkTransaction 2 0 [mkTxIn (mkOutPoint 77 0) 0] [mkTxOut 999000 1001].
Definition sample_phase1_validate : method (Channel * NodeState) Status unit :=
  validate_holder_commitment_tx (W:=unit) sample_policy elements always_persists sample_holder_tx [[1]] 1 1000 [] [] 7 [].

Lemma phase1_validate_refines_phase2_witness :
  exists v, sample_phase1_validate sample_3 = ((sample_phase1_validate sample_3).1, Ok tt) /\
    validate_holder_commitment_tx_phase2 sample_policy elements always_persists (mkOutPoint 77 0) 1 1000
      v 0 [] [] 7 [] sample_3 = ((sample_phase1_validate sample_3).1, Ok tt).
Proof.
  destruct (phase1_validate_refines_phase2 (W:=unit) sample_policy elements always_persists
    sample_3.1 sample_3.2 (sample_phase1_validate sample_3).1 sample_holder_tx [[1]] 1 1000 [] [] 7 [])
    as (info & params & Hdec & _ & _ & _ & _ & Hrun).
  - intros u. vm_compute. discriminate.
  - vm_compute. reflexivity.
  - vm_compute. reflexivity.
  - exists info.(Phase1.to_broadcaster_value_sat). split; [vm_compute; reflexivity|].
    assert (Hz : info.(Phase1.to_countersigner_value_sat) = 0) by (vm_compute in Hdec; by injection Hdec as <-).
    rewrite Hz in Hrun. exact Hrun.
Defined.
End Sample.

(** C25: Signing a mutual close.  With the simple validator and a strict policy,
    a signature is given only for a submitted transaction that is fair to the
    holder, it is over that transaction, and the channel is closed from then on;
    nothing else of the channel or the node changes. *)
Theorem mutual_close_signed_fair `{Profile} `{BitcoinLib} `{LightningLib} {W : Type} `{Wallet W}
    `{!TransactionSigner} (tw sw : ChannelTypeFeatures -> Z) (holder_funding_pubkey : Channel -> PublicKey)
    (validator : SimpleValidator) (wallet : W) (persist : Channel -> res Status unit) (self : Channel)
    (state : NodeState) (s' : Channel * NodeState) (tx : Transaction) (opaths : list DerivationPath)
    (sig : Signature) :
  strict_policy validator.(sv_policy) ->
  sign_mutual_close_tx (H3:=SimpleValidator_transactions tw sw holder_funding_pubkey)
    validator wallet persist tx opaths (self, state) = (s', Ok sig) ->
  s' = (with_estate self (with_closed self.(enforcement_state) true), state) /\
  exists args ct, close_ok wallet validator.(sv_policy) self.(setup) self.(enforcement_state) args /\
    args_cover tx args /\ built_closing_tx ct = tx /\ sign_closing_transaction self.(setup) ct = Some sig.
Proof. apply sign_mutual_close_fair. Qed.

Lemma mutual_close_signed_fair_witness :
  let self := mkChannel sample_close_estate sample_setup [1] None sample_chain None None None in
  (with_estate self (with_closed sample_close_estate true)).(enforcement_state).(channel_closed) = true /\
  exists args ct, close_ok (H:=debug_profile) tt (make_default_simple_policy Bitcoin) sample_setup sample_close_estate args /\
    args_cover sample_close_tx args /\ built_closing_tx ct = sample_close_tx /\
    sign_closing_transaction sample_setup ct = Some 598500.
Proof.
  split; [reflexivity|].
  refine (proj2 (mutual_close_signed_fair (H:=debug_profile) (fun _ => 663) (fun _ => 703) (fun _ => 5) sample_policy tt
    always_persists (mkChannel sample_close_estate sample_setup [1] None sample_chain None None None) sample_state
    (with_estate (mkChannel sample_close_estate sample_setup [1] None sample_chain None None None)
       (with_closed sample_close_estate true), sample_state) sample_close_tx [[]; [1]] 598500 _ _)).
  - apply default_policy_strict.
  - vm_compute. reflexivity.
Defined.
