(* ===== verification/Monitor.v ===== *)
(** * The chain monitor: [vls-core/src/monitor.rs]

    What a channel knows of the chain: the confirmation of its funding, a double
    spend, a close and the sweeps of its outputs.  Blocks are decoded into state
    changes, which are applied forward when a block is added and backward when
    it is removed.  Log output is left out. *)
From S2P Require Import Prelude Policy Types Bitcoin Enforcement.

Definition MIN_DEPTH : Z := 100.
Definition MAX_CLOSING_DEPTH : Z := 2016.
Definition MAX_COMMITMENT_OUTPUTS : Z := 600.

Abbreviation BlockHash := Z (only parsing).

(** ** Outputs of a closing transaction *)
Record SecondLevelHTLCOutput := mkSecondLevel { sl_outpoint : OutPoint; spent : bool }.

Definition SecondLevel_new (outpoint : OutPoint) : SecondLevelHTLCOutput := mkSecondLevel outpoint false.
Definition set_spent (self : SecondLevelHTLCOutput) (b : bool) : SecondLevelHTLCOutput :=
  mkSecondLevel self.(sl_outpoint) b.
Definition matches_outpoint (self : SecondLevelHTLCOutput) (outpoint : OutPoint) : bool :=
  bool_decide (self.(sl_outpoint) = outpoint).

Record ClosingOutpoints := mkClosingOutpoints {
  co_txid : Txid;
  our_output : option (Z * bool);
  htlc_outputs : list Z;
  htlc_spents : list bool;
  second_level_htlc_outputs : list SecondLevelHTLCOutput
}.

Definition ClosingOutpoints_new (txid : Txid) (our_output_index : option Z) (htlc_output_indexes : list Z)
  : ClosingOutpoints :=
  mkClosingOutpoints txid ((fun i => (i, false)) <$> our_output_index) htlc_output_indexes
    (replicate (length htlc_output_indexes) false) [].

Definition includes_our_output (self : ClosingOutpoints) (outpoint : OutPoint) : bool :=
  (self.(co_txid) =? outpoint.(txid)) && bool_decide (fst <$> self.(our_output) = Some outpoint.(vout)).

Definition includes_htlc_output (self : ClosingOutpoints) (outpoint : OutPoint) : bool :=
  (self.(co_txid) =? outpoint.(txid)) && bool_decide (outpoint.(vout) ∈ self.(htlc_outputs)).

Definition set_our_output_spent {E : Type} (self : ClosingOutpoints) (vout : Z) (b : bool)
  : res E ClosingOutpoints :=
  p ← unwrap self.(our_output);
  rassert (p.1 =? vout) ;;
  Ok (mkClosingOutpoints self.(co_txid) (Some (p.1, b)) self.(htlc_outputs) self.(htlc_spents)
        self.(second_level_htlc_outputs)).

(** [iter().position]: the index of the first element equal to [x]. *)
Fixpoint position (x : Z) (l : list Z) : option nat :=
  match l with
  | [] => None
  | y :: l' => if y =? x then Some 0%nat else S <$> position x l'
  end.

Definition set_htlc_output_spent {E : Type} (self : ClosingOutpoints) (vout : Z) (b : bool)
  : res E ClosingOutpoints :=
  i ← unwrap (position vout self.(htlc_outputs));
  rassert (bool_decide (i < length self.(htlc_spents))%nat) ;;
  Ok (mkClosingOutpoints self.(co_txid) self.(our_output) self.(htlc_outputs)
        (<[i := b]> self.(htlc_spents)) self.(second_level_htlc_outputs)).

Definition is_all_spent (self : ClosingOutpoints) : bool :=
  default true (snd <$> self.(our_output)) && forallb id self.(htlc_spents)
  && forallb spent self.(second_level_htlc_outputs).

Definition with_second_level (self : ClosingOutpoints) (l : list SecondLevelHTLCOutput) : ClosingOutpoints :=
  mkClosingOutpoints self.(co_txid) self.(our_output) self.(htlc_outputs) self.(htlc_spents) l.

Definition add_second_level_htlc_output (self : ClosingOutpoints) (outpoint : OutPoint) : ClosingOutpoints :=
  with_second_level self (self.(second_level_htlc_outputs) ++ [SecondLevel_new outpoint]).

Definition includes_second_level_htlc_output (self : ClosingOutpoints) (outpoint : OutPoint) : bool :=
  existsb (fun h => matches_outpoint h outpoint) self.(second_level_htlc_outputs).

(** [iter_mut().find] and an update of the element found. *)
Fixpoint update_first {A : Type} (p : A -> bool) (f : A -> A) (l : list A) : option (list A) :=
  match l with
  | [] => None
  | x :: l' => if p x then Some (f x :: l') else cons x <$> update_first p f l'
  end.

Definition set_second_level_htlc_spent {E : Type} (self : ClosingOutpoints) (outpoint : OutPoint) (b : bool)
  : res E ClosingOutpoints :=
  l ← unwrap (update_first (fun h => matches_outpoint h outpoint) (fun h => set_spent h b)
                self.(second_level_htlc_outputs));
  Ok (with_second_level self l).

Definition remove_second_level_htlc_output (self : ClosingOutpoints) (outpoint : OutPoint) : ClosingOutpoints :=
  with_second_level self
    (filter (fun h => matches_outpoint h outpoint = false) self.(second_level_htlc_outputs)).

(** ** State *)
Record State := mkState {
  height : Z;
  funding_txids : list Txid;
  funding_vouts : list Z;
  funding_inputs : gset OutPoint;
  funding_height : option Z;
  funding_outpoint : option OutPoint;
  funding_double_spent_height : option Z;
  mutual_closing_height : option Z;
  unilateral_closing_height : option Z;
  closing_outpoints : option ClosingOutpoints;
  closing_swept_height : option Z;
  our_output_swept_height : option Z;
  saw_block : bool;
  saw_forget_channel : bool;
  channel_id : option ChannelId
}.

Inductive StateChange :=
| FundingConfirmed (outpoint : OutPoint)
| FundingInputSpent (outpoint : OutPoint)
| UnilateralCloseConfirmed (txid : Txid) (funding_outpoint : OutPoint) (our_output_index : option Z)
    (htlcs_indices : list Z)
| MutualCloseConfirmed (txid : Txid) (funding_outpoint : OutPoint)
| OurOutputSpent (vout : Z)
| HTLCOutputSpent (vout : Z) (second_level_htlc_outpoint : OutPoint)
| SecondLevelHTLCOutputSpent (outpoint : OutPoint).

(** Assignments to groups of fields. *)
Definition with_height (self : State) (h : Z) : State :=
  mkState h self.(funding_txids) self.(funding_vouts) self.(funding_inputs) self.(funding_height)
    self.(funding_outpoint) self.(funding_double_spent_height) self.(mutual_closing_height)
    self.(unilateral_closing_height) self.(closing_outpoints) self.(closing_swept_height)
    self.(our_output_swept_height) self.(saw_block) self.(saw_forget_channel) self.(channel_id).
Definition with_funding_txs (self : State) (txids : list Txid) (vouts : list Z) (inputs : gset OutPoint) : State :=
  mkState self.(height) txids vouts inputs self.(funding_height)
    self.(funding_outpoint) self.(funding_double_spent_height) self.(mutual_closing_height)
    self.(unilateral_closing_height) self.(closing_outpoints) self.(closing_swept_height)
    self.(our_output_swept_height) self.(saw_block) self.(saw_forget_channel) self.(channel_id).
Definition with_funding (self : State) (h : option Z) (outpoint : option OutPoint) (double_spent : option Z) : State :=
  mkState self.(height) self.(funding_txids) self.(funding_vouts) self.(funding_inputs) h
    outpoint double_spent self.(mutual_closing_height)
    self.(unilateral_closing_height) self.(closing_outpoints) self.(closing_swept_height)
    self.(our_output_swept_height) self.(saw_block) self.(saw_forget_channel) self.(channel_id).
Definition with_closing (self : State) (mutual unilateral : option Z) (outpoints : option ClosingOutpoints) : State :=
  mkState self.(height) self.(funding_txids) self.(funding_vouts) self.(funding_inputs) self.(funding_height)
    self.(funding_outpoint) self.(funding_double_spent_height) mutual
    unilateral outpoints self.(closing_swept_height)
    self.(our_output_swept_height) self.(saw_block) self.(saw_forget_channel) self.(channel_id).
Definition with_swept (self : State) (closing ours : option Z) : State :=
  mkState self.(height) self.(funding_txids) self.(funding_vouts) self.(funding_inputs) self.(funding_height)
    self.(funding_outpoint) self.(funding_double_spent_height) self.(mutual_closing_height)
    self.(unilateral_closing_height) self.(closing_outpoints) closing
    ours self.(saw_block) self.(saw_forget_channel) self.(channel_id).
Definition with_flags (self : State) (block forget : bool) (id : option ChannelId) : State :=
  mkState self.(height) self.(funding_txids) self.(funding_vouts) self.(funding_inputs) self.(funding_height)
    self.(funding_outpoint) self.(funding_double_spent_height) self.(mutual_closing_height)
    self.(unilateral_closing_height) self.(closing_outpoints) self.(closing_swept_height)
    self.(our_output_swept_height) block forget id.
Definition with_outpoints (self : State) (outpoints : ClosingOutpoints) : State :=
  with_closing self self.(mutual_closing_height) self.(unilateral_closing_height) (Some outpoints).

(** A state with the outpoints to watch and to stop watching so far. *)
Abbreviation watching := (State * list OutPoint * list OutPoint)%type (only parsing).

Definition close_adds (txid : Txid) (our_output_index : option Z) (htlcs_indices : list Z) : list OutPoint :=
  option_list (mkOutPoint txid <$> our_output_index) ++ (mkOutPoint txid <$> htlcs_indices).

Definition apply_forward_change {E : Type} (w : watching) (change : StateChange) : res E watching :=
  let '(self, adds, removes) := w in
  match change with
  | FundingConfirmed outpoint =>
      Ok (with_funding self (Some self.(height)) (Some outpoint) None, adds ++ [outpoint], removes)
  | FundingInputSpent outpoint =>
      Ok (with_funding self self.(funding_height) self.(funding_outpoint)
            (opt_or self.(funding_double_spent_height) (Some self.(height))), adds, removes ++ [outpoint])
  | UnilateralCloseConfirmed txid funding our_output_index htlcs_indices =>
      Ok (with_closing self self.(mutual_closing_height) (Some self.(height))
            (Some (ClosingOutpoints_new txid our_output_index htlcs_indices)),
          adds ++ close_adds txid our_output_index htlcs_indices, removes ++ [funding])
  | OurOutputSpent vout =>
      outpoints ← unwrap self.(closing_outpoints);
      outpoints ← set_our_output_spent outpoints vout true;
      Ok (with_outpoints self outpoints, adds, removes ++ [mkOutPoint outpoints.(co_txid) vout])
  | HTLCOutputSpent vout second_level =>
      outpoints ← unwrap self.(closing_outpoints);
      outpoints ← set_htlc_output_spent outpoints vout true;
      Ok (with_outpoints self (add_second_level_htlc_output outpoints second_level),
          adds ++ [second_level], removes ++ [mkOutPoint outpoints.(co_txid) vout])
  | SecondLevelHTLCOutputSpent outpoint =>
      outpoints ← unwrap self.(closing_outpoints);
      outpoints ← set_second_level_htlc_spent outpoints outpoint true;
      Ok (with_outpoints self outpoints, adds, removes ++ [outpoint])
  | MutualCloseConfirmed _ funding =>
      Ok (with_closing self (Some self.(height)) self.(unilateral_closing_height) self.(closing_outpoints),
          adds, removes ++ [funding])
  end.

Definition apply_backward_change {E : Type} (w : watching) (change : StateChange) : res E watching :=
  let '(self, adds, removes) := w in
  match change with
  | FundingConfirmed outpoint =>
      rassert (bool_decide (self.(funding_height) = Some self.(height))) ;;
      Ok (with_funding self None None self.(funding_double_spent_height), adds ++ [outpoint], removes)
  | FundingInputSpent outpoint =>
      Ok (with_funding self self.(funding_height) self.(funding_outpoint)
            (if bool_decide (self.(funding_double_spent_height) = Some self.(height)) then None
             else self.(funding_double_spent_height)), adds, removes ++ [outpoint])
  | UnilateralCloseConfirmed txid funding our_output_index htlcs_indices =>
      rassert (bool_decide (self.(unilateral_closing_height) = Some self.(height))) ;;
      Ok (with_closing self self.(mutual_closing_height) None None,
          adds ++ close_adds txid our_output_index htlcs_indices, removes ++ [funding])
  | OurOutputSpent vout =>
      outpoints ← unwrap self.(closing_outpoints);
      outpoints ← set_our_output_spent outpoints vout false;
      Ok (with_outpoints self outpoints, adds, removes ++ [mkOutPoint outpoints.(co_txid) vout])
  | HTLCOutputSpent vout second_level =>
      outpoints ← unwrap self.(closing_outpoints);
      outpoints ← set_htlc_output_spent outpoints vout false;
      Ok (with_outpoints self (remove_second_level_htlc_output outpoints second_level),
          adds ++ [mkOutPoint outpoints.(co_txid) vout], removes ++ [second_level])
  | SecondLevelHTLCOutputSpent outpoint =>
      outpoints ← unwrap self.(closing_outpoints);
      outpoints ← set_second_level_htlc_spent outpoints outpoint false;
      Ok (with_outpoints self outpoints, adds ++ [outpoint], removes)
  | MutualCloseConfirmed _ funding =>
      Ok (with_closing self None self.(unilateral_closing_height) self.(closing_outpoints),
          adds, removes ++ [funding])
  end.

(** ** Depths *)
Definition is_closing_swept (self : State) : bool := default false (is_all_spent <$> self.(closing_outpoints)).

Definition is_our_output_swept (self : State) : bool :=
  default false ((fun o => default true (snd <$> o.(our_output))) <$> self.(closing_outpoints)).

Definition depth_of `{Profile} {E : Type} (self : State) (other_height : option Z) : res E Z :=
  next ← add_u32 self.(height) 1;
  Ok (saturating_sub next (default next other_height)).

Definition deep_enough_and_saw_node_forget `{Profile} {E : Type} (self : State) (other_height : option Z)
    (limit : Z) : res E bool :=
  depth ← depth_of self other_height;
  Ok (if depth <? limit then false else self.(saw_forget_channel)).

Definition State_is_done `{Profile} {E : Type} (self : State) : res E bool :=
  d ← deep_enough_and_saw_node_forget self self.(funding_double_spent_height) MIN_DEPTH;
  if (d : bool) then Ok true else
  m ← deep_enough_and_saw_node_forget self self.(mutual_closing_height) MIN_DEPTH;
  if (m : bool) then Ok true else
  deep_enough_and_saw_node_forget self self.(closing_swept_height) MIN_DEPTH.

(** ** Decoding a block *)
Record BlockDecodeState := mkBlockDecodeState {
  changes : list StateChange;
  bd_version : Z;
  input_num : Z;
  output_num : Z;
  closing_tx : option Transaction;
  spent_htlc_outputs : list (Z * Z);
  block_hash : option BlockHash;
  bd_state : State
}.

Definition BlockDecodeState_new (state : State) : BlockDecodeState :=
  mkBlockDecodeState [] 0 0 0 None [] None state.
Definition new_with_block_hash (state : State) (hash : BlockHash) : BlockDecodeState :=
  mkBlockDecodeState [] 0 0 0 None [] (Some hash) state.

Definition add_change {E : Type} (self : BlockDecodeState) (change : StateChange) : res E BlockDecodeState :=
  w ← apply_forward_change (self.(bd_state), [], []) change;
  Ok (mkBlockDecodeState (self.(changes) ++ [change]) self.(bd_version) self.(input_num) self.(output_num)
        self.(closing_tx) self.(spent_htlc_outputs) self.(block_hash) w.1.1).

Definition with_closing_tx (self : BlockDecodeState) (tx : option Transaction) : BlockDecodeState :=
  mkBlockDecodeState self.(changes) self.(bd_version) self.(input_num) self.(output_num)
    tx self.(spent_htlc_outputs) self.(block_hash) self.(bd_state).
Definition with_spent_htlcs (self : BlockDecodeState) (l : list (Z * Z)) : BlockDecodeState :=
  mkBlockDecodeState self.(changes) self.(bd_version) self.(input_num) self.(output_num)
    self.(closing_tx) l self.(block_hash) self.(bd_state).
Definition with_nums (self : BlockDecodeState) (i o : Z) : BlockDecodeState :=
  mkBlockDecodeState self.(changes) self.(bd_version) i o
    self.(closing_tx) self.(spent_htlc_outputs) self.(block_hash) self.(bd_state).
Definition with_block_hash (self : BlockDecodeState) (hash : option BlockHash) : BlockDecodeState :=
  mkBlockDecodeState self.(changes) self.(bd_version) self.(input_num) self.(output_num)
    self.(closing_tx) self.(spent_htlc_outputs) hash self.(bd_state).

(** The trait [CommitmentPointProvider]: the points of the channel, the HTLC
    outputs it can spend, and the channel parameters, of which the decoders read
    the obscure factor and the scripts that the lightning package derives.  The
    points are [None] where the provider panics. *)
Class CommitmentPointProvider := {
  get_holder_commitment_point : Z -> option PublicKey;
  get_counterparty_point : Z -> option (option PublicKey);
  get_spendable_htlc_indices : Transaction -> Z -> res Status (list Z);
  obscure_factor : Z;
  holder_non_delayed_script : ScriptBuf;
  holder_delayed_script : PublicKey -> ScriptBuf;
  cp_delayed_script : PublicKey -> ScriptBuf;
  is_p2wsh : ScriptBuf -> bool
}.

Definition ANCHOR_OUTPUT_VALUE_SATOSHI : Z := 330.

Definition decode_commitment_number `{CommitmentPointProvider} (tx : Transaction) : option Z :=
  match tx.(input) with
  | [i] =>
      if negb (Z.shiftr i.(sequence) 24 mod 256 =? 128) || negb (Z.shiftr tx.(lock_time) 24 mod 256 =? 32)
      then None
      else Some (Z.lxor (Z.lor (Z.shiftl (Z.land i.(sequence) 16777215) 24) (Z.land tx.(lock_time) 16777215))
                   obscure_factor)
  | _ => None
  end.

Definition decode_commitment_tx `{CommitmentPointProvider} (tx : Transaction)
    (holder_per_commitment_point : PublicKey) (cp_per_commitment_point : option PublicKey)
  : option Z * list Z :=
  foldl (fun '(main_output_index, htlcs) '(idx, out) =>
    if out.(value) =? ANCHOR_OUTPUT_VALUE_SATOSHI then (main_output_index, htlcs)
    else if bool_decide (Some out.(script_pubkey) = (cp_delayed_script <$> cp_per_commitment_point))
    then (main_output_index, htlcs)
    else if (out.(script_pubkey) =? holder_non_delayed_script)
            || (out.(script_pubkey) =? holder_delayed_script holder_per_commitment_point)
    then (Some (Z.of_nat idx), htlcs)
    else if is_p2wsh out.(script_pubkey) then (main_output_index, htlcs ++ [Z.of_nat idx])
    else (main_output_index, htlcs))
  (None, []) (imap pair tx.(output)).

(** [PushListener]: the decode state and whether a block start was seen. *)
Definition PushListener : Type := BlockDecodeState * bool.

Inductive PushEvent :=
| BlockStart (hash : BlockHash)
| TransactionStart (version : Z)
| TransactionInput (txin : TxIn)
| TransactionOutput (txout : TxOut)
| TransactionEnd (lock_time : Z) (txid : Txid)
| BlockEnd.

Definition is_not_ready_for_push {E : Type} (self : PushListener) : res E bool :=
  let '(decode_state, saw_block) := self in
  if saw_block then rassert (bool_decide (is_Some decode_state.(block_hash))) ;; Ok false
  else rassert (bool_decide (decode_state.(block_hash) = None)) ;; Ok true.

Definition on_block_start {E : Type} (self : PushListener) (hash : BlockHash) : res E PushListener :=
  rassert (bool_decide (self.1.(block_hash) = None)) ;;
  Ok (with_block_hash self.1 (Some hash), true).

Definition on_transaction_start (d : BlockDecodeState) (v : Z) : BlockDecodeState :=
  mkBlockDecodeState d.(changes) v 0 0 None [] d.(block_hash) d.(bd_state).

Section Decode.
Context `{Profile} `{CommitmentPointProvider} {E : Type}.

(** A change that the spend of an output of a closing transaction makes. *)
Definition closing_input (d : BlockDecodeState) (prev : OutPoint) : res E BlockDecodeState :=
  match d.(bd_state).(closing_outpoints) with
  | Some c =>
      if includes_our_output c prev then add_change d (OurOutputSpent prev.(vout))
      else if includes_htlc_output c prev then
        Ok (with_spent_htlcs d (d.(spent_htlc_outputs) ++ [(prev.(vout), d.(input_num))]))
      else if includes_second_level_htlc_output c prev then add_change d (SecondLevelHTLCOutputSpent prev)
      else Ok d
  | None => Ok d
  end.

Definition on_transaction_input (d : BlockDecodeState) (i : TxIn) : res E BlockDecodeState :=
  let prev := i.(previous_output) in
  d ← (if bool_decide (prev ∈ d.(bd_state).(funding_inputs)) then add_change d (FundingInputSpent prev) else Ok d);
  let d := if bool_decide (Some prev = d.(bd_state).(funding_outpoint))
           then with_closing_tx d (Some (mkTransaction d.(bd_version) 0 [i] [])) else d in
  d ← closing_input d prev;
  let d := if bool_decide (is_Some d.(closing_tx)) && negb (d.(input_num) =? 0)
           then with_closing_tx d None else d in
  n ← add_u32 d.(input_num) 1;
  Ok (with_nums d n d.(output_num)).

Definition on_transaction_output (d : BlockDecodeState) (o : TxOut) : res E BlockDecodeState :=
  d ← match d.(closing_tx) with
      | Some tx =>
          rassert (d.(output_num) <? MAX_COMMITMENT_OUTPUTS) ;;
          Ok (with_closing_tx d (Some (mkTransaction tx.(version) tx.(lock_time) tx.(input) (tx.(output) ++ [o]))))
      | None => Ok d
      end;
  n ← add_u32 d.(output_num) 1;
  Ok (with_nums d d.(input_num) n).

(** The confirmed spend of the funding that is no splice: a commitment of either
    side, or a mutual close. *)
Definition closing_confirmed (d : BlockDecodeState) (tx : Transaction) (txid : Txid)
  : res E BlockDecodeState :=
  i ← unwrap (head tx.(input));
  match decode_commitment_number tx with
  | Some commitment_number =>
      holder_point ← unwrap (get_holder_commitment_point commitment_number);
      cp_point ← unwrap (get_counterparty_point commitment_number);
      let '(our_output_index, htlc_indices) := decode_commitment_tx tx holder_point cp_point in
      spendable ← (match htlc_indices with
                   | [] => Ok []
                   | _ => match get_spendable_htlc_indices tx commitment_number with
                          | Ok l => Ok l
                          | _ => Panic
                          end
                   end);
      add_change d (UnilateralCloseConfirmed txid i.(previous_output) our_output_index spendable)
  | None => add_change d (MutualCloseConfirmed txid i.(previous_output))
  end.

Definition on_transaction_end (d : BlockDecodeState) (lock : Z) (txid : Txid) : res E BlockDecodeState :=
  d ← match position txid d.(bd_state).(funding_txids) with
      | Some ind =>
          vout ← unwrap (d.(bd_state).(funding_vouts) !! ind);
          rassert (vout <? d.(output_num)) ;;
          add_change d (FundingConfirmed (mkOutPoint txid vout))
      | None => Ok d
      end;
  d ← match d.(closing_tx) with
      | Some tx =>
          let d := with_closing_tx d None in
          if bool_decide (txid ∈ d.(bd_state).(funding_txids)) then Ok d
          else closing_confirmed d (mkTransaction tx.(version) lock tx.(input) tx.(output)) txid
      | None => Ok d
      end;
  fold_res (fun d '(spent_vout, input_index) => add_change d (HTLCOutputSpent spent_vout (mkOutPoint txid input_index)))
    (with_spent_htlcs d []) d.(spent_htlc_outputs).

Definition push_event (self : PushListener) (e : PushEvent) : res E PushListener :=
  match e with
  | BlockStart hash => on_block_start self hash
  | BlockEnd => Ok self
  | _ =>
      not_ready ← is_not_ready_for_push self;
      if (not_ready : bool) then Ok self else
      d ← match e with
          | TransactionStart v => Ok (on_transaction_start self.1 v)
          | TransactionInput i => on_transaction_input self.1 i
          | TransactionOutput o => on_transaction_output self.1 o
          | TransactionEnd lock txid => on_transaction_end self.1 lock txid
          | _ => Ok self.1
          end;
      Ok (d, self.2)
  end.

(** *** Ends of blocks *)
Definition on_add_block_end (self : State) (hash : BlockHash) (decode_state : BlockDecodeState)
  : res E watching :=
  rassert (bool_decide (decode_state.(block_hash) = Some hash)) ;;
  h ← add_u32 self.(height) 1;
  let self := with_height (with_flags self true self.(saw_forget_channel) self.(channel_id)) h in
  let closing_was_swept := is_closing_swept self in
  let our_output_was_swept := is_our_output_swept self in
  '(self, adds, removes) ← fold_res apply_forward_change (self, [], []) decode_state.(changes);
  let closing := if negb closing_was_swept && is_closing_swept self then Some self.(height)
                 else self.(closing_swept_height) in
  let ours := if negb our_output_was_swept && is_our_output_swept self then Some self.(height)
              else self.(our_output_swept_height) in
  let self := with_swept self closing ours in
  _ ← State_is_done self;
  Ok (self, adds, removes).

Definition on_remove_block_end (self : State) (hash : BlockHash) (decode_state : BlockDecodeState)
  : res E watching :=
  rassert (bool_decide (decode_state.(block_hash) = Some hash)) ;;
  let closing_was_swept := is_closing_swept self in
  let our_output_was_swept := is_our_output_swept self in
  '(self, adds, removes) ← fold_res apply_backward_change (self, [], []) decode_state.(changes);
  let closing := if closing_was_swept && negb (is_closing_swept self) then None
                 else self.(closing_swept_height) in
  let ours := if our_output_was_swept && negb (is_our_output_swept self) then None
              else self.(our_output_swept_height) in
  let self := with_swept self closing ours in
  h ← sub_u32 self.(height) 1;
  Ok (with_height self h, adds, removes).
End Decode.

(** ** [ChainMonitorBase] and [ChainMonitor]

    The base shares its state with the monitor made from it; the monitor adds
    the decode state of a streamed block in progress. *)
Record ChainMonitor := mkChainMonitor {
  first_funding_outpoint : OutPoint;
  state : State;
  decode_state : option BlockDecodeState
}.

Definition State_new (height : Z) (chan_id : ChannelId) : State :=
  mkState height [] [] ∅ None None None None None None None None false false (Some chan_id).

Definition ChainMonitor_new (outpoint : OutPoint) (height : Z) (chan_id : ChannelId) : ChainMonitor :=
  mkChainMonitor outpoint (State_new height chan_id) None.

Definition new_from_persistence (outpoint : OutPoint) (s : State) (chan_id : ChannelId) : ChainMonitor :=
  mkChainMonitor outpoint (with_flags s s.(saw_block) s.(saw_forget_channel) (Some chan_id)) None.

Definition with_state (self : ChainMonitor) (s : State) : ChainMonitor :=
  mkChainMonitor self.(first_funding_outpoint) s self.(decode_state).

Definition add_funding_outpoint {E : Type} (self : ChainMonitor) (outpoint : OutPoint) : res E ChainMonitor :=
  let s := self.(state) in
  rassert (bool_decide (s.(funding_txids) = [])) ;;
  rassert (bool_decide (length s.(funding_txids) = length s.(funding_vouts))) ;;
  Ok (with_state self (with_funding_txs s (s.(funding_txids) ++ [outpoint.(txid)])
                         (s.(funding_vouts) ++ [outpoint.(vout)]) s.(funding_inputs))).

Definition replace_funding_outpoint (self : ChainMonitor) (outpoint : OutPoint) : ChainMonitor :=
  let s := with_funding_txs self.(state) [outpoint.(txid)] [outpoint.(vout)] self.(state).(funding_inputs) in
  mkChainMonitor outpoint (with_funding s None s.(funding_outpoint) None) self.(decode_state).

Definition tx_inputs (tx : Transaction) : gset OutPoint := list_to_set (previous_output <$> tx.(input)).

Definition add_funding_inputs (self : ChainMonitor) (tx : Transaction) : ChainMonitor :=
  let s := self.(state) in
  with_state self (with_funding_txs s s.(funding_txids) s.(funding_vouts) (s.(funding_inputs) ∪ tx_inputs tx)).

Definition add_funding {E : Type} (compute_txid : Transaction -> Txid) (self : ChainMonitor) (tx : Transaction)
    (vout : Z) : res E ChainMonitor :=
  let s := self.(state) in
  rassert (bool_decide (s.(funding_txids) = [])) ;;
  rassert (bool_decide (length s.(funding_txids) = length s.(funding_vouts))) ;;
  Ok (with_state self (with_funding_txs s (s.(funding_txids) ++ [compute_txid tx]) (s.(funding_vouts) ++ [vout])
                         (s.(funding_inputs) ∪ tx_inputs tx))).

Definition forget_channel (self : ChainMonitor) : ChainMonitor :=
  with_state self (with_flags self.(state) self.(state).(saw_block) true self.(state).(channel_id)).

Section Monitor.
Context `{Profile} `{CommitmentPointProvider} {E : Type} (compute_txid : Transaction -> Txid).

(** [state.height + 1 - h], from left to right. *)
Definition confirmations (s : State) (at_height : option Z) : res E Z :=
  match at_height with
  | Some h => next ← add_u32 s.(height) 1; sub_u32 next h
  | None => Ok 0
  end.

Definition as_chain_state (self : ChainMonitor) : res E ChainState :=
  let s := self.(state) in
  funding ← confirmations s s.(funding_height);
  double_spent ← confirmations s s.(funding_double_spent_height);
  closing ← confirmations s (opt_or s.(mutual_closing_height) s.(unilateral_closing_height));
  Ok (mkChainState s.(height) funding double_spent closing false).

Definition monitor_funding_depth (self : ChainMonitor) : res E Z :=
  depth_of self.(state) self.(state).(funding_height).
Definition monitor_double_spent_depth (self : ChainMonitor) : res E Z :=
  depth_of self.(state) self.(state).(funding_double_spent_height).
Definition monitor_closing_depth (self : ChainMonitor) : res E Z :=
  depth_of self.(state) (opt_or self.(state).(unilateral_closing_height) self.(state).(mutual_closing_height)).
Definition is_done (self : ChainMonitor) : res E bool := State_is_done self.(state).

(** The push events that a transaction makes. *)
Definition tx_events (tx : Transaction) : list PushEvent :=
  [TransactionStart tx.(version)] ++ (TransactionInput <$> tx.(input)) ++ (TransactionOutput <$> tx.(output))
  ++ [TransactionEnd tx.(lock_time) (compute_txid tx)].

Definition push_transactions (s : State) (hash : BlockHash) (txs : list Transaction)
  : res E (State * BlockDecodeState) :=
  let s := with_flags s true s.(saw_forget_channel) s.(channel_id) in
  listener ← fold_res push_event (new_with_block_hash s hash, true) (concat (tx_events <$> txs));
  Ok (s, listener.1).

Definition mon_on_add_block (self : ChainMonitor) (txs : list Transaction) (hash : BlockHash)
  : res E (ChainMonitor * (list OutPoint * list OutPoint)) :=
  '(s, d) ← push_transactions self.(state) hash txs;
  '(s, adds, removes) ← on_add_block_end s hash d;
  Ok (with_state self s, (adds, removes)).

Definition mon_on_remove_block (self : ChainMonitor) (txs : list Transaction) (hash : BlockHash)
  : res E (ChainMonitor * (list OutPoint * list OutPoint)) :=
  '(s, d) ← push_transactions self.(state) hash txs;
  '(s, adds, removes) ← on_remove_block_end s hash d;
  Ok (with_state self s, (adds, removes)).

(** The end of a streamed block: the decode state is taken in any case. *)
Definition streamed_block_end (finish : State -> BlockHash -> BlockDecodeState -> res E watching)
    (self : ChainMonitor) (hash : BlockHash) : res E (ChainMonitor * (list OutPoint * list OutPoint)) :=
  let taken := mkChainMonitor self.(first_funding_outpoint) self.(state) None in
  if negb self.(state).(saw_block) then Ok (taken, ([], []))
  else
    d ← unwrap self.(decode_state);
    '(s, adds, removes) ← finish self.(state) hash d;
    Ok (with_state taken s, (adds, removes)).

Definition mon_on_add_streamed_block_end := streamed_block_end on_add_block_end.
Definition mon_on_remove_streamed_block_end := streamed_block_end on_remove_block_end.

Definition mon_on_push (self : ChainMonitor) (e : PushEvent) : res E ChainMonitor :=
  let s := self.(state) in
  let d := default (BlockDecodeState_new s) self.(decode_state) in
  listener ← push_event (d, s.(saw_block)) e;
  Ok (mkChainMonitor self.(first_funding_outpoint)
        (with_flags s listener.2 s.(saw_forget_channel) s.(channel_id)) (Some listener.1)).
End Monitor.
