(* ===== verification/Tracker.v ===== *)
(** * The chain tracker: [vls-core/src/chain/tracker.rs]

    The headers of the chain that the signer follows, the validation of a block
    that is added or removed, and the outpoints that its listeners watch.  Blocks
    come with a compact proof or are streamed in chunks before.  Headers, their
    hashes and targets, the proofs and the block decoder are of other packages. *)
From S2P Require Import Prelude Policy Types Bitcoin Enforcement SimpleValidator Validator Monitor.

Inductive TrackerError :=
| InvalidChain
| OrphanBlock
| InvalidBlock
| BlockDecodeError
| ReorgTooDeep
| InvalidProof.

Record ListenSlot := mkListenSlot {
  txid_watches : gset Txid;
  watches : gset OutPoint;
  seen : gset OutPoint
}.

(** A block header; [rest] stands for its version, merkle root and nonce. *)
Record BlockHeader := mkBlockHeader { prev_blockhash : BlockHash; time : Z; bits : Z; rest : Z }.

#[export] Instance BlockHeader_eq_dec : EqDecision BlockHeader.
Proof. solve_decision. Defined.

(** [Headers]: the block header and the filter header. *)
Record Headers := mkHeaders { block_header : BlockHeader; filter_header : Z }.

Inductive ProofType :=
| Filter (txs : list Transaction)
| Block (hash : BlockHash)
| ExternalBlock.

Record TxoProof := mkTxoProof { attestations : list PublicKey; proof : ProofType; proof_filter_header : Z }.

Definition is_external (p : ProofType) : bool := match p with ExternalBlock => true | _ => false end.

(** The bitcoin, txoo and push-decoder packages. *)
Class ChainPackages := {
  header_hash : BlockHeader -> BlockHash;
  target_from_compact : Z -> Z;
  to_compact_lossy : Z -> Z;
  min_transition_threshold : Z -> Z;
  max_transition_threshold : Network -> Z -> Z;
  validate_pow : BlockHeader -> Z -> bool;
  proof_verify : TxoProof -> Z -> BlockHeader -> option BlockHash -> Z -> gset OutPoint -> bool;
  Decoder : Type;
  decoder_new : Decoder;
  decode_next : Decoder -> list Z -> option (Decoder * list PushEvent);
  decoder_finish : Decoder -> bool
}.

Definition DIFFCHANGE_INTERVAL : Z := 2016.
Definition MAX_REORG_SIZE : nat := 100.

Definition header_target `{ChainPackages} (h : BlockHeader) : Z := target_from_compact h.(bits).

Definition max_target {E : Type} (network : Network) : res E Z :=
  match network with
  | Regtest => Ok (Z.shiftl (Z.shiftl 8388607 (128 - 24)) 128)
  | Testnet => Ok (Z.shiftl (Z.shiftl 65535 (128 - 48)) 128)
  | Bitcoin => Ok (Z.shiftl (Z.shiftl 65535 (128 - 48)) 128)
  | _ => Panic
  end.

Definition validate_retarget `{ChainPackages} (prev_target target : Z) (network : Network)
  : res TrackerError unit :=
  let round_trip_target t := target_from_compact (to_compact_lossy t) in
  let min := round_trip_target (min_transition_threshold prev_target) in
  let max := round_trip_target (max_transition_threshold network prev_target) in
  chain_max ← max_target network;
  when (chain_max <? target) (Err InvalidBlock) ;;
  when (target <? min) (Err InvalidChain) ;;
  when (max <? target) (Err InvalidChain).

(** The trait [ChainListener].  Its methods return no error. *)
Class ChainListener (L K : Type) := {
  key : L -> K;
  on_add_block : forall E, L -> list Transaction -> BlockHash -> res E (L * (list OutPoint * list OutPoint));
  on_add_streamed_block_end : forall E, L -> BlockHash -> res E (L * (list OutPoint * list OutPoint));
  on_remove_block : forall E, L -> list Transaction -> BlockHash -> res E (L * (list OutPoint * list OutPoint));
  on_remove_streamed_block_end : forall E, L -> BlockHash -> res E (L * (list OutPoint * list OutPoint));
  on_push : forall E, L -> PushEvent -> res E L
}.

#[export] Instance ChainMonitor_listener `{Profile} `{CommitmentPointProvider} (compute_txid : Transaction -> Txid)
  : ChainListener ChainMonitor OutPoint := {|
  key := first_funding_outpoint;
  on_add_block E := mon_on_add_block compute_txid;
  on_add_streamed_block_end E := mon_on_add_streamed_block_end;
  on_remove_block E := mon_on_remove_block compute_txid;
  on_remove_streamed_block_end E := mon_on_remove_streamed_block_end;
  on_push E := mon_on_push
|}.

Section Tracker.
Context `{Profile} `{ChainPackages} {L K : Type} `{Countable K} `{ChainListener L K}.
(** [validator_factory.make_validator(network, node_id, None)] is [validator]. *)
Context {V : Type} `{Policy V} (validator : V).

Record TrackerDecodeState := mkTrackerDecodeState { decoder : Decoder; offset : Z; td_block_hash : BlockHash }.

Record ChainTracker := mkChainTracker {
  headers : list Headers;
  tip : Headers;
  tracker_height : Z;
  network : Network;
  listeners : gmap K (L * ListenSlot);
  tracker_decode_state : option TrackerDecodeState;
  trusted_oracle_pubkeys : list PublicKey;
  allow_deep_reorgs : bool
}.

Definition ChainTracker_new (network : Network) (height : Z) (tip : Headers) (oracles : list PublicKey)
  : res TrackerError ChainTracker :=
  when (negb (validate_pow tip.(block_header) (header_target tip.(block_header)))) (Err InvalidBlock) ;;
  Ok (mkChainTracker [] tip height network ∅ None oracles false).

Definition set_allow_deep_reorgs (self : ChainTracker) (allow : bool) : ChainTracker :=
  mkChainTracker self.(headers) self.(tip) self.(tracker_height) self.(network) self.(listeners)
    self.(tracker_decode_state) self.(trusted_oracle_pubkeys) allow.

Definition tracker_restore (headers : list Headers) (tip : Headers) (height : Z) (network : Network)
    (listeners : gmap K (L * ListenSlot)) (oracles : list PublicKey) : ChainTracker :=
  mkChainTracker headers tip height network listeners None oracles false.

Definition with_chain (self : ChainTracker) (headers : list Headers) (tip : Headers) (height : Z) : ChainTracker :=
  mkChainTracker headers tip height self.(network) self.(listeners)
    self.(tracker_decode_state) self.(trusted_oracle_pubkeys) self.(allow_deep_reorgs).
Definition with_listeners (self : ChainTracker) (m : gmap K (L * ListenSlot)) : ChainTracker :=
  mkChainTracker self.(headers) self.(tip) self.(tracker_height) self.(network) m
    self.(tracker_decode_state) self.(trusted_oracle_pubkeys) self.(allow_deep_reorgs).
Definition with_decode (self : ChainTracker) (d : option TrackerDecodeState) : ChainTracker :=
  mkChainTracker self.(headers) self.(tip) self.(tracker_height) self.(network) self.(listeners)
    d self.(trusted_oracle_pubkeys) self.(allow_deep_reorgs).

(** *** Watches *)
Definition get_all_watches (self : ChainTracker) (include_reverse : bool) : gset Txid * gset OutPoint :=
  map_fold (fun _ '(_, slot) '(txids, outpoints) =>
    (txids ∪ slot.(txid_watches),
     outpoints ∪ slot.(watches) ∪ (if include_reverse then slot.(seen) else ∅)))
    (∅, ∅) self.(listeners).

Definition get_all_forward_watches (self : ChainTracker) : gset Txid * gset OutPoint := get_all_watches self false.
Definition get_all_reverse_watches (self : ChainTracker) : gset Txid * gset OutPoint := get_all_watches self true.

(** What the outcome of a listener does to its slot. *)
Definition slot_add (slot : ListenSlot) (adds removes : list OutPoint) : ListenSlot :=
  mkListenSlot slot.(txid_watches) ((slot.(watches) ∪ list_to_set adds) ∖ list_to_set removes)
    (slot.(seen) ∪ list_to_set removes).

Definition slot_remove (slot : ListenSlot) (adds removes : list OutPoint) : ListenSlot :=
  mkListenSlot slot.(txid_watches) ((slot.(watches) ∪ list_to_set removes) ∖ list_to_set adds)
    (slot.(seen) ∖ list_to_set removes).

(** [for (listener, slot) in listeners.values_mut()]. *)
Definition notify {E : Type} (self : ChainTracker)
    (event : L -> res E (L * (list OutPoint * list OutPoint)))
    (update : ListenSlot -> list OutPoint -> list OutPoint -> ListenSlot) : res E ChainTracker :=
  m ← fold_res (fun m '(k, (listener, slot)) =>
        '(listener, (adds, removes)) ← event listener;
        Ok (<[k := (listener, update slot adds removes)]> m))
      self.(listeners) (map_to_list self.(listeners));
  Ok (with_listeners self m).

Definition notify_listeners_add {E : Type} (self : ChainTracker) (txs : option (list Transaction)) (hash : BlockHash)
  : res E ChainTracker :=
  notify self (fun l => match txs with
                        | Some txs => on_add_block E l txs hash
                        | None => on_add_streamed_block_end E l hash
                        end) slot_add.

Definition notify_listeners_remove {E : Type} (self : ChainTracker) (txs : option (list Transaction))
    (hash : BlockHash) : res E ChainTracker :=
  notify self (fun l => match txs with
                        | Some txs => on_remove_block E l txs hash
                        | None => on_remove_streamed_block_end E l hash
                        end) slot_remove.

Definition add_listener (self : ChainTracker) (listener : L) (initial_txid_watches : gset Txid) : ChainTracker :=
  with_listeners self (<[key listener := (listener, mkListenSlot initial_txid_watches ∅ ∅)]> self.(listeners)).

Definition restore_listener (self : ChainTracker) (k : K) (listener : L) (slot : ListenSlot) : ChainTracker :=
  with_listeners self (<[k := (listener, slot)]> self.(listeners)).

Definition remove_listener (self : ChainTracker) (k : K) : ChainTracker :=
  with_listeners self (delete k self.(listeners)).

Definition add_listener_watches {E : Type} (self : ChainTracker) (k : K) (w : gset OutPoint) : res E ChainTracker :=
  '(listener, slot) ← unwrap (self.(listeners) !! k);
  Ok (with_listeners self
        (<[k := (listener, mkListenSlot slot.(txid_watches) (slot.(watches) ∪ w) slot.(seen))]> self.(listeners))).

(** *** Blocks *)
Definition check_difficulty (self : ChainTracker) (height : Z) (header prev_header : BlockHeader)
  : res TrackerError unit :=
  special ← (match self.(network) with
             | Testnet =>
                 chain_max ← max_target self.(network);
                 if header_target header =? chain_max then
                   late ← add_u32 prev_header.(time) (60 * 20); Ok (late <? header.(time))
                 else Ok false
             | _ => Ok false
             end);
  if (special : bool) then Ok tt else
  next ← add_u32 height 1;
  if next mod DIFFCHANGE_INTERVAL =? 0 then
    validate_retarget (header_target prev_header) (header_target header) self.(network)
  else
    when (negb (header.(bits) =? prev_header.(bits)) && match self.(network) with Testnet => false | _ => true end)
      (Err InvalidChain).

Definition tracker_validate_block (self : ChainTracker) (height : Z) (external_block_hash : option BlockHash)
    (prev_headers hs : Headers) (p : TxoProof) (is_remove : bool) : res TrackerError unit :=
  let header := hs.(block_header) in
  let prev_header := prev_headers.(block_header) in
  when (negb (header.(prev_blockhash) =? header_hash prev_header)) (Err OrphanBlock) ;;
  when (negb (validate_pow header (header_target header))) (Err InvalidBlock) ;;
  check_difficulty self height header prev_header ;;
  let '(_, outpoint_watches) :=
    if is_remove then get_all_reverse_watches self else get_all_forward_watches self in
  let prev_filter_header := prev_headers.(filter_header) in
  if prev_filter_header =? 0 then Ok tt
  else
    next ← add_u32 height 1;
    map_err (fun _ => InvalidProof)
      (validate_block validator
         (proof_verify p next header external_block_hash prev_filter_header outpoint_watches)
         p.(attestations) self.(trusted_oracle_pubkeys)).

Abbreviation tracker_method A := (method ChainTracker TrackerError A) (only parsing).

(** [decode_state.take()] comes before the checks that may fail. *)
Definition maybe_finish_decoding_block (p : TxoProof) (expected_block_hash : BlockHash) : tracker_method unit :=
  self ← get_self;
  call (rassert (bool_decide (is_external p.(proof) = bool_decide (is_Some self.(tracker_decode_state))))) ;;
  match self.(tracker_decode_state) with
  | Some d =>
      set_self (with_decode self None) ;;
      call (when (negb (decoder_finish d.(decoder))) (Err BlockDecodeError)) ;;
      call (when (negb (d.(td_block_hash) =? expected_block_hash)) (Err BlockDecodeError))
  | None => mret tt
  end.

(** Decoding a chunk pushes its events to every listener. *)
Definition tracker_push {E : Type} (self : ChainTracker) (hash : BlockHash) (e : PushEvent) : res E ChainTracker :=
  match e with BlockStart h => rassert (h =? hash) | _ => Ok tt end ;;
  m ← fold_res (fun m '(k, (listener, slot)) => listener ← on_push E listener e; Ok (<[k := (listener, slot)]> m))
      self.(listeners) (map_to_list self.(listeners));
  Ok (with_listeners self m).

Definition block_chunk (hash : BlockHash) (offset' : Z) (chunk : list Z) : tracker_method unit :=
  self ← get_self;
  self ← call (if offset' =? 0 then
                 rassert (bool_decide (self.(tracker_decode_state) = None)) ;;
                 Ok (with_decode self (Some (mkTrackerDecodeState decoder_new 0 hash)))
               else Ok self);
  set_self self ;;
  d ← call (unwrap self.(tracker_decode_state));
  call (rassert (d.(td_block_hash) =? hash)) ;;
  call (rassert (d.(offset) =? offset')) ;;
  '(dec, events) ← call (unwrap (decode_next d.(decoder) chunk));
  self ← call (fold_res (fun t e => tracker_push t hash e) self events);
  next ← call (add_u32 d.(offset) (Z.of_nat (length chunk) mod 2 ^ 32));
  set_self (with_decode self (Some (mkTrackerDecodeState dec next hash))).

Definition notify_proof (hash : BlockHash) (p : ProofType)
    (notify' : ChainTracker -> option (list Transaction) -> BlockHash -> res TrackerError ChainTracker)
  : tracker_method unit :=
  self ← get_self;
  self ← call (match p with
               | Filter txs => notify' self (Some txs) hash
               | Block _ => Err InvalidProof
               | ExternalBlock => notify' self None hash
               end);
  set_self self.

Definition add_block (header : BlockHeader) (p : TxoProof) : tracker_method unit :=
  let message_block_hash := header_hash header in
  maybe_finish_decoding_block p message_block_hash ;;
  self ← get_self;
  let hs := mkHeaders header p.(proof_filter_header) in
  let expected := if is_external p.(proof) then Some message_block_hash else None in
  call (tracker_validate_block self self.(tracker_height) expected self.(tip) hs p false) ;;
  notify_proof message_block_hash p.(proof) notify_listeners_add ;;
  self ← get_self;
  height ← call (add_u32 self.(tracker_height) 1);
  set_self (with_chain self (self.(tip) :: take (MAX_REORG_SIZE - 1) self.(headers)) hs height).

(** The front header is popped before the block is validated; the hash that the
    streamed block and the listeners are given is that of the previous block. *)
Definition remove_block (p : TxoProof) (supplied_prev_headers : Headers) : tracker_method BlockHeader :=
  self ← get_self;
  match self.(headers) with
  | [] => call (when (negb self.(allow_deep_reorgs)) (Err ReorgTooDeep))
  | h :: hs =>
      call (when (bool_decide (supplied_prev_headers.(block_header) <> h.(block_header))) (Err InvalidChain)) ;;
      call (when (negb (supplied_prev_headers.(filter_header) =? h.(filter_header))) (Err InvalidChain)) ;;
      set_self (with_chain self hs self.(tip) self.(tracker_height))
  end ;;
  let tip_block_hash := header_hash supplied_prev_headers.(block_header) in
  maybe_finish_decoding_block p tip_block_hash ;;
  self ← get_self;
  let expected := if is_external p.(proof) then Some tip_block_hash else None in
  prev_height ← call (sub_u32 self.(tracker_height) 1);
  call (tracker_validate_block self prev_height expected supplied_prev_headers self.(tip) p true) ;;
  notify_proof tip_block_hash p.(proof) notify_listeners_remove ;;
  self ← get_self;
  height ← call (sub_u32 self.(tracker_height) 1);
  set_self (with_chain self self.(headers) supplied_prev_headers height) ;;
  mret self.(tip).(block_header).
End Tracker.
