(* ===== verification/ChainSafety.v ===== *)
(** * What the chain monitor and the tracker guarantee

    Removing a block undoes what adding it did, where it does; the headers of the
    tracker form a chain. *)
From S2P Require Import Prelude Policy Types Bitcoin Enforcement SimpleValidator Validator Monitor Tracker.

(** ** Lists of outputs *)
Lemma position_lookup (x : Z) (l : list Z) (i : nat) : position x l = Some i -> l !! i = Some x.
Proof.
  revert i. induction l as [|y l IH]; intros i Hp; [done|]. cbn [position] in Hp.
  destruct (Z.eqb_spec y x) as [->|]; [by injection Hp as <-|].
  destruct (position x l) as [j|]; [|done]. cbn in Hp. injection Hp as <-. by apply IH.
Qed.

Lemma filter_fresh (l : list SecondLevelHTLCOutput) (op : OutPoint) :
  existsb (fun h => matches_outpoint h op) l = false ->
  filter (fun h => matches_outpoint h op = false) (l ++ [SecondLevel_new op]) = l.
Proof.
  induction l as [|h l IH]; cbn [existsb app]; intros Hf.
  - rewrite filter_cons_False; [done|]. unfold matches_outpoint. cbn. by rewrite bool_decide_true.
  - apply orb_false_iff in Hf as [Hh Hl]. rewrite filter_cons_True by done. by rewrite IH.
Qed.

(** The first match is unspent: marking it and unmarking it changes nothing. *)
Lemma update_first_undo (l : list SecondLevelHTLCOutput) (op : OutPoint) (h : SecondLevelHTLCOutput) :
  find (fun h => matches_outpoint h op) l = Some h -> h.(spent) = false ->
  exists l', update_first (fun h => matches_outpoint h op) (fun h => set_spent h true) l = Some l' /\
    update_first (fun h => matches_outpoint h op) (fun h => set_spent h false) l' = Some l.
Proof.
  induction l as [|x l IH]; cbn [find]; [done|]. intros Hf Hs. cbn [update_first].
  destruct (matches_outpoint x op) eqn:Hm.
  - injection Hf as ->. eexists. split; [done|]. cbn [update_first].
    change (matches_outpoint (set_spent h true) op) with (matches_outpoint h op). rewrite Hm.
    destruct h as [o b]. cbn in Hs. by subst b.
  - destruct (IH Hf Hs) as (l' & -> & Hl'). eexists. split; [done|]. cbn [update_first]. by rewrite Hm, Hl'.
Qed.

(** ** One change, forward and backward *)

(** A change that a block makes to a state for the first time. *)
Definition enabled (s : State) (c : StateChange) : Prop :=
  match c with
  | FundingConfirmed _ =>
      s.(funding_height) = None /\ s.(funding_outpoint) = None /\ s.(funding_double_spent_height) = None
  | FundingInputSpent _ => s.(funding_double_spent_height) <> Some (s.(height) + 1)
  | UnilateralCloseConfirmed _ _ _ _ => s.(unilateral_closing_height) = None /\ s.(closing_outpoints) = None
  | MutualCloseConfirmed _ _ => s.(mutual_closing_height) = None
  | OurOutputSpent v => exists o, s.(closing_outpoints) = Some o /\ o.(our_output) = Some (v, false)
  | HTLCOutputSpent v op => exists o i, s.(closing_outpoints) = Some o /\ position v o.(htlc_outputs) = Some i /\
      o.(htlc_spents) !! i = Some false /\ includes_second_level_htlc_output o op = false
  | SecondLevelHTLCOutputSpent op => exists o h, s.(closing_outpoints) = Some o /\
      find (fun h => matches_outpoint h op) o.(second_level_htlc_outputs) = Some h /\ h.(spent) = false
  end.

Definition swept_ok (s : State) : Prop :=
  (is_closing_swept s = false -> s.(closing_swept_height) = None) /\
  (is_our_output_swept s = false -> s.(our_output_swept_height) = None).

(** Whether the change spends an HTLC output of either level. *)
Definition spends_htlc (c : StateChange) : bool :=
  match c with HTLCOutputSpent _ _ | SecondLevelHTLCOutputSpent _ => true | _ => false end.

Lemma State_eta (s : State) :
  mkState s.(height) s.(funding_txids) s.(funding_vouts) s.(funding_inputs) s.(funding_height)
    s.(funding_outpoint) s.(funding_double_spent_height) s.(mutual_closing_height)
    s.(unilateral_closing_height) s.(closing_outpoints) s.(closing_swept_height)
    s.(our_output_swept_height) s.(saw_block) s.(saw_forget_channel) s.(channel_id) = s.
Proof. by destruct s. Qed.

(** The change is undone at the new height, whatever the swept heights became
    in between. *)
Lemma change_undone {E : Type} (s : State) (c : StateChange) (a b : option Z) :
  enabled s c ->
  exists s1 adds removes, let up := with_height s (s.(height) + 1) in
    apply_forward_change (E:=E) (up, [], []) c = Ok (s1, adds, removes) /\
    exists adds' removes',
    apply_backward_change (E:=E) (with_swept s1 a b, [], []) c = Ok (with_swept up a b, adds', removes') /\
    (if spends_htlc c then adds' = removes /\ removes' = adds
     else adds' = adds /\ removes' = removes) /\
    s1.(height) = s.(height) + 1 /\ s1.(closing_swept_height) = s.(closing_swept_height) /\
    s1.(our_output_swept_height) = s.(our_output_swept_height).
Proof.
  destruct s as [ht txids vouts ins fh fo ds mu un co cs os sb sf id]. unfold with_height. cbn [height].
  destruct c as [op|op|tx op ours htlcs|tx op|v|v op|op]; cbn [enabled spends_htlc].
  - cbn. intros (-> & -> & ->). do 3 eexists. split; [done|]. do 2 eexists. cbn. by rewrite bool_decide_true.
  - cbn. intros Hne. do 3 eexists. split; [done|]. do 2 eexists. split; [|done]. cbn.
    destruct ds as [d|]; cbn; [by rewrite bool_decide_false|by rewrite bool_decide_true].
  - cbn. intros (-> & ->). do 3 eexists. split; [done|]. do 2 eexists. cbn. by rewrite bool_decide_true.
  - cbn. intros ->. do 3 eexists. split; [done|]. do 2 eexists. done.
  - cbn. intros ([tx o hs hb sl] & -> & Ho). cbn in Ho. subst o. do 3 eexists.
    split; [cbn; by rewrite Z.eqb_refl|]. do 2 eexists. cbn. by rewrite Z.eqb_refl.
  - cbn. intros ([tx o hs hb sl] & i & -> & Hp & Hb & Hf). cbn in Hp, Hb, Hf.
    pose proof (lookup_lt_Some _ _ _ Hb) as Hlen.
    do 3 eexists. split.
    { cbn. unfold set_htlc_output_spent. cbn [htlc_outputs]. rewrite Hp. cbn. by rewrite bool_decide_true. }
    do 2 eexists. split.
    { unfold with_outpoints, with_closing, add_second_level_htlc_output, with_second_level. cbn.
      unfold set_htlc_output_spent. cbn. rewrite Hp. cbn.
      rewrite bool_decide_true by (by rewrite length_insert). cbn. do 4 f_equal.
      unfold remove_second_level_htlc_output, with_second_level. cbn. f_equal.
      by rewrite filter_fresh, list_insert_insert_eq, list_insert_id. }
    done.
  - cbn. intros ([tx o hs hb sl] & h & -> & Hf & Hs). cbn in Hf.
    destruct (update_first_undo sl op h Hf Hs) as (l' & Hl & Hl'). do 3 eexists. split.
    { cbn. unfold set_second_level_htlc_spent. cbn. by rewrite Hl. }
    do 2 eexists. split; [cbn; unfold set_second_level_htlc_spent; cbn; by rewrite Hl'|].
    done.
Qed.

(** *** A funding transaction spends its inputs in the block that confirms it *)
Lemma inputs_forward {E : Type} (s : State) (ops : list OutPoint) (adds removes : list OutPoint) :
  exists ds, fold_res (apply_forward_change (E:=E)) (s, adds, removes) (FundingInputSpent <$> ops)
    = Ok (with_funding s s.(funding_height) s.(funding_outpoint) ds, adds, removes ++ ops).
Proof.
  revert s removes. induction ops as [|op ops IH]; intros s removes.
  - exists s.(funding_double_spent_height). rewrite app_nil_r. by destruct s.
  - rewrite fmap_cons. cbn [fold_res apply_forward_change mbind res_bind].
    match goal with |- context [fold_res _ (?s1, _, ?r1) _] => destruct (IH s1 r1) as (ds & ->) end.
    exists ds. by rewrite <- (assoc_L (++)).
Qed.

Lemma inputs_backward {E : Type} (s : State) (ops : list OutPoint) (adds removes : list OutPoint) :
  s.(funding_double_spent_height) = None ->
  fold_res (apply_backward_change (E:=E)) (s, adds, removes) (FundingInputSpent <$> ops) = Ok (s, adds, removes ++ ops).
Proof.
  intros Hds. revert removes. induction ops as [|op ops IH]; intros removes; [by rewrite app_nil_r|].
  rewrite fmap_cons. cbn [fold_res apply_backward_change mbind res_bind]. rewrite Hds, bool_decide_false by done.
  assert (with_funding s s.(funding_height) s.(funding_outpoint) None = s) as -> by (rewrite <- Hds; by destruct s).
  by rewrite IH, <- (assoc_L (++)).
Qed.

Lemma fold_res_app {E A B : Type} (body : B -> A -> res E B) (b : B) (l1 l2 : list A) :
  fold_res body b (l1 ++ l2) = (b' ← fold_res body b l1; fold_res body b' l2).
Proof.
  revert b. induction l1 as [|x l1 IH]; intros b; [done|]. cbn [app fold_res].
  destruct (body b x); cbn [mbind res_bind]; [apply IH|done|done].
Qed.

(** The changes that the theorem below covers: any single one, or the inputs and
    the confirmation of a funding transaction. *)
Inductive undoable (s : State) : list StateChange -> Prop :=
| undo_none : undoable s []
| undo_one c : enabled s c -> undoable s [c]
| undo_funding ops op : enabled s (FundingConfirmed op) ->
    undoable s ((FundingInputSpent <$> ops) ++ [FundingConfirmed op]).

Definition touches_htlc (cs : list StateChange) : bool := existsb spends_htlc cs.

Lemma changes_undone {E : Type} (s : State) (cs : list StateChange) (a b : option Z) :
  undoable s cs ->
  exists s1 adds removes adds' removes', let up := with_height s (s.(height) + 1) in
    fold_res (apply_forward_change (E:=E)) (up, [], []) cs = Ok (s1, adds, removes) /\
    fold_res (apply_backward_change (E:=E)) (with_swept s1 a b, [], []) cs = Ok (with_swept up a b, adds', removes') /\
    (if touches_htlc cs then adds' = removes /\ removes' = adds else adds' = adds /\ removes' = removes) /\
    s1.(height) = s.(height) + 1 /\ s1.(closing_swept_height) = s.(closing_swept_height) /\
    s1.(our_output_swept_height) = s.(our_output_swept_height).
Proof.
  intros [|c Hc|ops op (Hfh & Hfo & Hds)].
  - by do 5 eexists.
  - destruct (change_undone (E:=E) s c a b Hc) as (s1 & adds & removes & Hf & adds' & removes' & Hb & Hw & Hr).
    exists s1, adds, removes, adds', removes'. cbv zeta in *. cbn [fold_res]. rewrite Hf, Hb.
    unfold touches_htlc. cbn [existsb]. rewrite orb_false_r. done.
  - assert (touches_htlc ((FundingInputSpent <$> ops) ++ [FundingConfirmed op]) = false) as ->.
    { unfold touches_htlc. rewrite existsb_app. apply orb_false_iff. split; [|done]. by induction ops. }
    destruct (inputs_forward (E:=E) (with_height s (s.(height) + 1)) ops [] []) as (ds & Hf).
    do 5 eexists. cbv zeta. split; [rewrite fold_res_app, Hf; reflexivity|]. split; [|done].
    rewrite fold_res_app, inputs_backward by done. cbn. rewrite bool_decide_true by done. cbn. 
    unfold with_funding, with_swept, with_height. cbn. rewrite Hfh, Hfo, Hds. done.
Qed.

Lemma is_done_Ok `{Profile} {E : Type} (s : State) :
  0 <= s.(height) -> s.(height) + 1 < 2 ^ 32 -> exists b, State_is_done (E:=E) s = Ok b.
Proof.
  intros H0 H1. unfold State_is_done, deep_enough_and_saw_node_forget, depth_of.
  rewrite !add_u32_Ok by (unfold uint; lia). cbn [mbind res_bind].
  repeat case_match; by eexists.
Qed.

(** Undoing the swept heights. *)
Lemma swept_undone (was now : bool) (before : option Z) (h : Z) :
  (was = false -> before = None) ->
  (if now && negb was then None else if negb was && now then Some h else before) = before.
Proof. destruct was, now; cbn; intros Hb; try done; by rewrite Hb. Qed.

(** The flag that the first block sets. *)
Definition synced (s : State) : State := with_flags s true s.(saw_forget_channel) s.(channel_id).

Lemma undoable_synced (s : State) (cs : list StateChange) : undoable s cs -> undoable (synced s) cs.
Proof.
  assert (Hen : forall c, enabled s c -> enabled (synced s) c) by (intros []; done).
  intros []; constructor; auto.
Qed.

Lemma synced_restored (s : State) (a b c o : option Z) (h : Z) :
  h = s.(height) -> c = s.(closing_swept_height) -> o = s.(our_output_swept_height) ->
  with_height (with_swept (with_swept (with_height (synced s) (s.(height) + 1)) a b) c o) h = synced s.
Proof. intros -> -> ->. by destruct s. Qed.

Lemma reorg_undone `{Profile} {E : Type} (s : State) (cs : list StateChange) (hash : Z)
    (d d' : BlockDecodeState) :
  undoable s cs -> swept_ok s -> 0 <= s.(height) -> s.(height) + 2 < 2 ^ 32 ->
  d.(block_hash) = Some hash -> d'.(block_hash) = Some hash -> d.(changes) = cs -> d'.(changes) = cs ->
  exists s1 adds removes adds' removes',
    on_add_block_end (E:=E) s hash d = Ok (s1, adds, removes) /\
    on_remove_block_end (E:=E) s1 hash d' = Ok (synced s, adds', removes') /\
    s1.(height) = s.(height) + 1 /\
    (if touches_htlc cs then adds' = removes /\ removes' = adds else adds' = adds /\ removes' = removes).
Proof.
  intros Hu [Hs1 Hs2] H0 H1 Hd Hd' Hc Hc'. apply undoable_synced in Hu.
  unfold on_add_block_end, on_remove_block_end. rewrite Hd, Hd', Hc, Hc', !bool_decide_true by done.
  cbn [rassert mbind res_bind]. rewrite add_u32_Ok by (unfold uint; lia). cbn [mbind res_bind].
  change (with_height (with_flags s true (saw_forget_channel s) (channel_id s)) (height s + 1))
    with (with_height (synced s) (height (synced s) + 1)).
  set (up := with_height (synced s) (height (synced s) + 1)).
  destruct (changes_undone (E:=E) (synced s) cs None None Hu) as (s1 & adds & removes & _ & _ & Hf & _).
  fold up in Hf. cbv zeta in Hf. rewrite Hf. cbn [mbind res_bind].
  set (closing := if negb (is_closing_swept up) && is_closing_swept s1 then _ else _).
  set (ours := if negb (is_our_output_swept up) && is_our_output_swept s1 then _ else _).
  destruct (changes_undone (E:=E) (synced s) cs closing ours Hu)
    as (s1' & adds1 & removes1 & adds' & removes' & Hf' & Hb & Hw & Hh & Hcs & Hos).
  cbv zeta in Hf', Hb. fold up in Hf', Hb. rewrite Hf in Hf'. injection Hf' as <- <- <-.
  destruct (is_done_Ok (E:=E) (with_swept s1 closing ours)) as (b & ->); [cbn; rewrite Hh; cbn; lia..|].
  cbn [mbind res_bind]. do 5 eexists. split; [done|].
  cbn [is_closing_swept is_our_output_swept with_swept closing_outpoints]. rewrite Hb. cbn [mbind res_bind].
  rewrite sub_u32_Ok by (unfold uint; cbn; lia). cbn [mbind res_bind]. split; [|split; [done|]].
  - do 3 f_equal. apply (synced_restored s closing ours); [cbn; lia|..].
    + unfold closing. rewrite Hcs. apply (swept_undone (is_closing_swept s) (is_closing_swept s1)). exact Hs1.
    + unfold ours. rewrite Hos. apply (swept_undone (is_our_output_swept s) (is_our_output_swept s1)). exact Hs2.
  - done.
Qed.


(** ** A concrete channel *)
Definition sample_provider : CommitmentPointProvider :=
  Build_CommitmentPointProvider (fun _ => Some 1) (fun _ => Some None) (fun _ _ => Ok [1]) 0 1 (fun _ => 2) (fun _ => 3)
    (fun s => s =? 4).

(** Transactions are identified by their version. *)
Definition funding_tx : Transaction := mkTransaction 77 0 [mkTxIn (mkOutPoint 1 0) 0] [mkTxOut 1000000 5].
Definition close_tx : Transaction := mkTransaction 88 536870912 [mkTxIn (mkOutPoint 77 0) 2147483648]
  [mkTxOut 900000 1; mkTxOut 50000 4].
Definition sweep_tx : Transaction := mkTransaction 99 0 [mkTxIn (mkOutPoint 88 0) 0] [mkTxOut 890000 6].
Definition htlc_tx : Transaction := mkTransaction 90 0 [mkTxIn (mkOutPoint 88 1) 0] [mkTxOut 49000 6].

Definition sample_new : ChainMonitor :=
  mkChainMonitor (mkOutPoint 77 0) (with_funding_txs (State_new 100 [1]) [77] [0] {[mkOutPoint 1 0]}) None.

(** The monitor after a block with the given transactions. *)
Definition block_added (m : ChainMonitor) (txs : list Transaction) : ChainMonitor :=
  match mon_on_add_block (H:=release_profile) (H0:=sample_provider) (E:=Status) version m txs 9 with
  | Ok (m', _) => m'
  | _ => m
  end.
Definition block_decoded (m : ChainMonitor) (txs : list Transaction) : BlockDecodeState :=
  match push_transactions (H:=release_profile) (H0:=sample_provider) (E:=Status) version m.(state) 9 txs with
  | Ok (_, d) => d
  | _ => BlockDecodeState_new m.(state)
  end.
Definition sample_funded : ChainMonitor := block_added sample_new [funding_tx].
Definition sample_closed : ChainMonitor := block_added sample_funded [close_tx].


(** When a block holds a unilateral close and the spend of our output of
    it, removing the block panics: the changes are undone in the order in which
    they were made, and the first one drops the outputs that the second needs. *)
Theorem close_and_sweep_reorg_panics `{Profile} {E : Type} (s : State) (hash : Z) (d : BlockDecodeState)
    (tx : Z) (funding : OutPoint) (ours : option Z) (htlcs : list Z) (v : Z) (rest : list StateChange) :
  d.(changes) = UnilateralCloseConfirmed tx funding ours htlcs :: OurOutputSpent v :: rest ->
  on_remove_block_end (E:=E) s hash d = Panic.
Proof.
  intros Hc. unfold on_remove_block_end. rewrite Hc. destruct (bool_decide (d.(block_hash) = Some hash)); [|done].
  cbn [rassert mbind res_bind fold_res apply_backward_change].
  by destruct (bool_decide (s.(unilateral_closing_height) = Some s.(height))).
Qed.

Lemma close_and_sweep_reorg_panics_witness :
  is_ok (mon_on_add_block (H:=release_profile) (H0:=sample_provider) (E:=Status) version sample_funded [close_tx; sweep_tx] 9)
    = true /\
  mon_on_remove_block (H:=release_profile) (H0:=sample_provider) (E:=Status) version
    (block_added sample_funded [close_tx; sweep_tx]) [close_tx; sweep_tx] 9 = Panic.
Proof.
  split; [vm_compute; reflexivity|].
  pose proof (close_and_sweep_reorg_panics (H:=release_profile) (E:=Status)
    (synced (block_added sample_funded [close_tx; sweep_tx]).(state)) 9
    (block_decoded (block_added sample_funded [close_tx; sweep_tx]) [close_tx; sweep_tx])
    88 (mkOutPoint 77 0) (Some 0) [1] 0 []) as Hp.
  assert (push_transactions (H:=release_profile) (H0:=sample_provider) (E:=Status) version
            (state (block_added sample_funded [close_tx; sweep_tx])) 9 [close_tx; sweep_tx]
          = Ok (synced (block_added sample_funded [close_tx; sweep_tx]).(state),
                block_decoded (block_added sample_funded [close_tx; sweep_tx]) [close_tx; sweep_tx])) as Hd
    by (vm_compute; reflexivity).
  unfold mon_on_remove_block. rewrite Hd. cbn [mbind res_bind]. rewrite Hp; [reflexivity|]. vm_compute. reflexivity.
Defined.

(** Removing the block that spends an HTLC output leaves the wrong watches.
    The monitor's state is restored, but the watches that it returns are the
    exchanged ones: afterwards the HTLC output, which is unspent again, is no
    longer watched, and the output of the removed transaction is. *)
Theorem htlc_reorg_stops_watching `{Profile} {E : Type} (s : State) (o : ClosingOutpoints) (v : Z) (op : OutPoint)
    (hash : Z) (d d' : BlockDecodeState) (slot : ListenSlot) :
  enabled s (HTLCOutputSpent v op) -> s.(closing_outpoints) = Some o -> op <> mkOutPoint o.(co_txid) v ->
  swept_ok s -> 0 <= s.(height) -> s.(height) + 2 < 2 ^ 32 ->
  d.(block_hash) = Some hash -> d'.(block_hash) = Some hash ->
  d.(changes) = [HTLCOutputSpent v op] -> d'.(changes) = [HTLCOutputSpent v op] ->
  exists s1 adds removes adds' removes',
    on_add_block_end (E:=E) s hash d = Ok (s1, adds, removes) /\
    on_remove_block_end (E:=E) s1 hash d' = Ok (synced s, adds', removes') /\
    let slot' := slot_remove (slot_add slot adds removes) adds' removes' in
    ~ mkOutPoint o.(co_txid) v ∈ slot'.(watches) /\ op ∈ slot'.(watches).
Proof.
  intros Hen Ho Hne Hsw H0 H1 Hd Hd' Hc Hc'.
  destruct (reorg_undone (E:=E) s [HTLCOutputSpent v op] hash d d') as (s1 & adds & removes & adds' & removes' & Hadd & Hrem & _ & Hw);
    try done; [by constructor|]. cbn in Hw. destruct Hw as [-> ->].
  assert (adds = [op] /\ removes = [mkOutPoint o.(co_txid) v]) as [-> ->].
  { revert Hadd. unfold on_add_block_end. rewrite Hd, bool_decide_true, Hc by done. cbn [rassert mbind res_bind].
    rewrite add_u32_Ok by (unfold uint; lia). cbn [mbind res_bind fold_res apply_forward_change].
    cbn [with_height with_flags closing_outpoints]. rewrite Ho. cbn [unwrap mbind res_bind]. intros Hadd.
    apply bind_Ok in Hadd as ([[s2 a] r] & Hf & Hadd). apply bind_Ok in Hf as (w & Hf & Hw). injection Hw as ->.
    apply bind_Ok in Hf as (o' & Ho' & Hf). injection Hf as _ <- <-.
    apply bind_Ok in Hadd as (b & _ & Hadd). injection Hadd as _ <- <-. split; [done|].
    unfold set_htlc_output_spent in Ho'. apply bind_Ok in Ho' as (i & _ & Ho').
    apply bind_Ok in Ho' as (u & _ & Ho'). by injection Ho' as <-. }
  exists s1, [op], [mkOutPoint o.(co_txid) v], [mkOutPoint o.(co_txid) v], [op]. cbv zeta. split_and!; [done|done|..].
  - cbn. rewrite elem_of_difference, !elem_of_union, !elem_of_singleton. tauto.
  - cbn. rewrite elem_of_difference, !elem_of_union, !elem_of_singleton, elem_of_empty. tauto.
Qed.

Lemma htlc_reorg_stops_watching_witness :
  exists adds' removes',
    mon_on_remove_block (H:=release_profile) (H0:=sample_provider) (E:=Status) version
      (block_added sample_closed [htlc_tx]) [htlc_tx] 9 = Ok (sample_closed, (adds', removes')) /\
    ~ mkOutPoint 88 1 ∈ (slot_remove (slot_add (mkListenSlot ∅ {[mkOutPoint 88 1]} ∅) [mkOutPoint 90 0] [mkOutPoint 88 1])
                         adds' removes').(watches).
Proof.
  destruct (htlc_reorg_stops_watching (H:=release_profile) (E:=Status) sample_closed.(state)
    (ClosingOutpoints_new 88 (Some 0) [1]) 1 (mkOutPoint 90 0) 9
    (block_decoded sample_closed [htlc_tx]) (block_decoded (block_added sample_closed [htlc_tx]) [htlc_tx])
    (mkListenSlot ∅ {[mkOutPoint 88 1]} ∅)) as (s1 & adds & removes & adds' & removes' & Hadd & Hrem & Hw & _).
  - vm_compute. exists (ClosingOutpoints_new 88 (Some 0) [1]), 0%nat. done.
  - vm_compute. reflexivity.
  - done.
  - by vm_compute.
  - by vm_compute.
  - by vm_compute.
  - vm_compute. reflexivity.
  - vm_compute. reflexivity.
  - vm_compute. reflexivity.
  - vm_compute. reflexivity.
  - exists adds', removes'. vm_compute in Hadd. injection Hadd as <- <- <-. split; [|exact Hw].
    vm_compute in Hrem. injection Hrem as <- <-. vm_compute. reflexivity.
Defined.

(** Without a funding outpoint no input starts a closing transaction. *)
Lemma add_change_closing {E : Type} (d d' : BlockDecodeState) (c : StateChange) :
  add_change (E:=E) d c = Ok d' -> d'.(closing_tx) = d.(closing_tx).
Proof. intros Ha. apply bind_Ok in Ha as (w & _ & Ha). by injection Ha as <-. Qed.

Lemma closing_input_closing {E : Type} (d d' : BlockDecodeState) (prev : OutPoint) :
  closing_input (E:=E) d prev = Ok d' -> d'.(closing_tx) = d.(closing_tx).
Proof.
  unfold closing_input. repeat case_match; intros Hd; try (by apply add_change_closing in Hd); by injection Hd as <-.
Qed.

Lemma no_funding_no_close `{Profile} {E : Type} (d : BlockDecodeState) (i : TxIn) (d' : BlockDecodeState) :
  d.(bd_state).(funding_outpoint) = None -> d.(closing_tx) = None ->
  on_transaction_input (E:=E) d i = Ok d' -> d'.(closing_tx) = None.
Proof.
  intros Hfo Hct Hi. unfold on_transaction_input in Hi. apply bind_Ok in Hi as (d1 & H1 & Hi).
  assert (d1.(bd_state).(funding_outpoint) = None /\ d1.(closing_tx) = None) as [Hfo1 Hct1].
  { destruct (bool_decide _); [|by injection H1 as <-]. apply bind_Ok in H1 as (w & Hw & H1).
    injection H1 as <-. cbn in Hw. by injection Hw as <-. }
  rewrite Hfo1, bool_decide_false in Hi by done. apply bind_Ok in Hi as (d2 & H2 & Hi).
  apply closing_input_closing in H2. apply bind_Ok in Hi as (n & _ & Hi). injection Hi as <-. cbn.
  rewrite H2, Hct1, bool_decide_false by (by intros [? ?]). cbn. by rewrite H2.
Qed.

Lemma confirm_added `{Profile} {E : Type} (s : State) (new : OutPoint) (hash : Z) (d : BlockDecodeState) :
  0 <= s.(height) -> s.(height) + 2 < 2 ^ 32 -> d.(block_hash) = Some hash -> d.(changes) = [FundingConfirmed new] ->
  exists s1, on_add_block_end (E:=E) s hash d = Ok (s1, [new], []) /\
    s1.(height) = s.(height) + 1 /\ s1.(funding_height) = Some s1.(height).
Proof.
  intros H0 H1 Hd Hc. unfold on_add_block_end. rewrite Hd, Hc, bool_decide_true by done.
  cbn [rassert mbind res_bind]. rewrite add_u32_Ok by (unfold uint; lia).
  cbn [mbind res_bind fold_res apply_forward_change].
  match goal with |- context [State_is_done ?s1] => set (s2 := s1) end.
  destruct (is_done_Ok (E:=E) s2) as (b & ->); [subst s2; cbn [with_swept height with_funding with_height]; lia..|].
  cbn [mbind res_bind]. by exists s2.
Qed.

Lemma confirm_removed `{Profile} {E : Type} (s : State) (new : OutPoint) (hash : Z) (d : BlockDecodeState) :
  0 < s.(height) < 2 ^ 32 -> s.(funding_height) = Some s.(height) ->
  d.(block_hash) = Some hash -> d.(changes) = [FundingConfirmed new] ->
  exists s1, on_remove_block_end (E:=E) s hash d = Ok (s1, [new], []) /\ s1.(funding_outpoint) = None.
Proof.
  intros H0 Hf Hd Hc. unfold on_remove_block_end. rewrite Hd, Hc, bool_decide_true by done.
  cbn [rassert mbind res_bind fold_res apply_backward_change]. rewrite Hf, bool_decide_true by done.
  cbn [rassert mbind res_bind]. rewrite sub_u32_Ok by (unfold uint; cbn [with_swept height with_funding]; lia).
  cbn [mbind res_bind]. by eexists.
Qed.

(** A reorganisation during a splice loses the funding.  When the funding
    was replaced and the new one is confirmed, removing that block leaves no
    funding outpoint at all: the one before the splice is not restored, and a
    spend of it is no longer taken for a close. *)
Theorem splice_reorg_forgets_funding `{Profile} {E : Type} (m : ChainMonitor)
    (old new : OutPoint) (hash : Z) (d d' : BlockDecodeState) :
  m.(state).(funding_outpoint) = Some old -> 0 <= m.(state).(height) -> m.(state).(height) + 2 < 2 ^ 32 ->
  d.(block_hash) = Some hash -> d'.(block_hash) = Some hash ->
  d.(changes) = [FundingConfirmed new] -> d'.(changes) = [FundingConfirmed new] ->
  exists s1 s2 w1 w2,
    on_add_block_end (E:=E) (replace_funding_outpoint m new).(state) hash d = Ok (s1, w1.1, w1.2) /\
    on_remove_block_end (E:=E) s1 hash d' = Ok (s2, w2.1, w2.2) /\
    s2.(funding_outpoint) = None /\
    forall b i b', b.(bd_state) = s2 -> b.(closing_tx) = None ->
      on_transaction_input (E:=E) b i = Ok b' -> b'.(closing_tx) = None.
Proof.
  intros Ho H0 H1 Hd Hd' Hc Hc'.
  destruct (confirm_added (E:=E) (replace_funding_outpoint m new).(state) new hash d) as (s1 & Hadd & Hh & Hfh); [done..|].
  change (height (state (replace_funding_outpoint m new))) with (height (state m)) in Hh.
  destruct (confirm_removed (E:=E) s1 new hash d') as (s2 & Hrem & Hfo); [lia|done..|].
  exists s1, s2, ([new], []), ([new], []). cbn [fst snd]. split_and!; [done|done|done|].
  intros b i b' Hs Hct Hi. apply (no_funding_no_close (E:=E) b i b'); [by rewrite Hs|done|done].
Qed.

Lemma splice_reorg_forgets_funding_witness : exists s1 s2 w1 w2,
  on_add_block_end (H:=release_profile) (E:=Status) (replace_funding_outpoint sample_funded (mkOutPoint 66 0)).(state) 9
    (block_decoded (replace_funding_outpoint sample_funded (mkOutPoint 66 0))
       [mkTransaction 66 0 [mkTxIn (mkOutPoint 77 0) 0; mkTxIn (mkOutPoint 2 0) 0] [mkTxOut 1500000 5]])
    = Ok (s1, w1.1, w1.2) /\
  on_remove_block_end (H:=release_profile) (E:=Status) s1 9
    (block_decoded (block_added (replace_funding_outpoint sample_funded (mkOutPoint 66 0))
       [mkTransaction 66 0 [mkTxIn (mkOutPoint 77 0) 0; mkTxIn (mkOutPoint 2 0) 0] [mkTxOut 1500000 5]])
       [mkTransaction 66 0 [mkTxIn (mkOutPoint 77 0) 0; mkTxIn (mkOutPoint 2 0) 0] [mkTxOut 1500000 5]])
    = Ok (s2, w2.1, w2.2) /\
  s2.(funding_outpoint) = None.
Proof.
  destruct (splice_reorg_forgets_funding (H:=release_profile) (E:=Status) sample_funded
    (mkOutPoint 77 0) (mkOutPoint 66 0) 9
    (block_decoded (replace_funding_outpoint sample_funded (mkOutPoint 66 0))
       [mkTransaction 66 0 [mkTxIn (mkOutPoint 77 0) 0; mkTxIn (mkOutPoint 2 0) 0] [mkTxOut 1500000 5]])
    (block_decoded (block_added (replace_funding_outpoint sample_funded (mkOutPoint 66 0))
       [mkTransaction 66 0 [mkTxIn (mkOutPoint 77 0) 0; mkTxIn (mkOutPoint 2 0) 0] [mkTxOut 1500000 5]])
       [mkTransaction 66 0 [mkTxIn (mkOutPoint 77 0) 0; mkTxIn (mkOutPoint 2 0) 0] [mkTxOut 1500000 5]]))
    as (s1 & s2 & w1 & w2 & H1 & H2 & H3 & _).
  - vm_compute. reflexivity.
  - by vm_compute.
  - by vm_compute.
  - vm_compute. reflexivity.
  - vm_compute. reflexivity.
  - vm_compute. reflexivity.
  - vm_compute. reflexivity.
  - exists s1, s2, w1, w2. exact (conj H1 (conj H2 H3)).
Defined.
