(* ===== verification/TrackerSafety.v ===== *)
(** * What the tracker guarantees

    The headers that the tracker keeps form a chain, and removing a block goes
    back to the chain before it; what a failing removal leaves. *)
From S2P Require Import Prelude Policy Types Bitcoin Enforcement SimpleValidator Validator Monitor Tracker.

Section Safety.
Context `{Profile} `{ChainPackages} {L K : Type} `{Countable K} `{ChainListener L K}.
Context {V : Type} `{Policy V} (v : V).
Abbreviation tracker := (ChainTracker (L:=L) (K:=K)).

(** ** Steps that leave the chain alone *)
Definition same_chain (t t' : tracker) : Prop :=
  t'.(headers) = t.(headers) /\ t'.(tip) = t.(tip) /\ t'.(tracker_height) = t.(tracker_height) /\
  t'.(allow_deep_reorgs) = t.(allow_deep_reorgs).

Lemma same_chain_trans (t1 t2 t3 : tracker) : same_chain t1 t2 -> same_chain t2 t3 -> same_chain t1 t3.
Proof. unfold same_chain. intuition congruence. Qed.

Lemma finish_same_chain (p : TxoProof) (hash : Z) (t t' : tracker) (o : res TrackerError unit) :
  maybe_finish_decoding_block p hash t = (t', o) -> same_chain t t'.
Proof.
  unfold maybe_finish_decoding_block. intros Hm. run_get Hm. run_step Hm u Eu; [|by subst t'].
  destruct (tracker_decode_state t) as [d|]; [|by injection Hm as <- _].
  rewrite set_bind in Hm. run_step Hm u1 Eu1; [|by subst t']. by injection Hm as <- _.
Qed.

Lemma notify_same_chain {E : Type} (t t' : tracker) (event : L -> res E (L * (list OutPoint * list OutPoint)))
    (update : ListenSlot -> list OutPoint -> list OutPoint -> ListenSlot) :
  notify t event update = Ok t' -> same_chain t t'.
Proof. intros Hn. apply bind_Ok in Hn as (m & _ & Hn). by injection Hn as <-. Qed.

Lemma notify_proof_same_chain (hash : Z) (p : ProofType)
    (f : tracker -> option (list Transaction) -> Z -> res TrackerError tracker) (t t' : tracker) (o : res TrackerError unit) :
  (forall t1 t2 txs, f t1 txs hash = Ok t2 -> same_chain t1 t2) ->
  notify_proof hash p f t = (t', o) -> same_chain t t'.
Proof.
  intros Hf Hm. unfold notify_proof in Hm. run_get Hm. run_step Hm t1 Et; [|by subst t'].
  injection Hm as <- _. destruct p; [by eapply Hf|done|by eapply Hf].
Qed.

Lemma push_same_chain {E : Type} (hash : Z) (events : list PushEvent) (t t' : tracker) :
  fold_res (E:=E) (fun t e => tracker_push t hash e) t events = Ok t' -> same_chain t t'.
Proof.
  revert t. induction events as [|e events IH]; intros t Hf; [by injection Hf as <-|].
  cbn [fold_res] in Hf. apply bind_Ok in Hf as (t1 & Ht1 & Hf). apply IH in Hf.
  refine (same_chain_trans _ t1 _ _ Hf).
  apply bind_Ok in Ht1 as (u & _ & Ht1). apply bind_Ok in Ht1 as (m & _ & Ht1). by injection Ht1 as <-.
Qed.

Lemma chunk_same_chain (hash off : Z) (chunk : list Z) (t t' : tracker) (o : res TrackerError unit) :
  block_chunk hash off chunk t = (t', o) -> same_chain t t'.
Proof.
  unfold block_chunk. intros Hm. run_get Hm. run_step Hm t1 Et; [|by subst t'].
  assert (same_chain t t1) as Ht1.
  { destruct (off =? 0); [|by injection Et as <-]. apply bind_Ok in Et as (u & _ & Et). by injection Et as <-. }
  rewrite set_bind in Hm. run_step Hm d Ed; [|by subst t'].
  run_step Hm u1 E1; [|by subst t']. run_step Hm u2 E2; [|by subst t'].
  run_step Hm de Ede; [|by subst t']. destruct de as [dec events].
  run_step Hm t2 Et2; [|by subst t']. apply push_same_chain in Et2. run_step Hm n En; [|by subst t'].
  injection Hm as <- _. refine (same_chain_trans _ t1 _ Ht1 _). exact Et2.
Qed.

(** ** The two operations on the chain *)
Lemma add_outcome (header : BlockHeader) (p : TxoProof) (t t' : tracker) (o : res TrackerError unit) :
  add_block v header p t = (t', o) ->
  same_chain t t' /\ is_ok o = false \/
  o = Ok tt /\ t'.(tip) = mkHeaders header p.(proof_filter_header) /\
    t'.(headers) = t.(tip) :: take (MAX_REORG_SIZE - 1) t.(headers) /\
    t'.(allow_deep_reorgs) = t.(allow_deep_reorgs) /\
    add_u32 (E:=TrackerError) t.(tracker_height) 1 = Ok t'.(tracker_height) /\
    exists t1, same_chain t t1 /\
      tracker_validate_block v t1 t.(tracker_height) (if is_external p.(proof) then Some (header_hash header) else None)
        t.(tip) (mkHeaders header p.(proof_filter_header)) p false = Ok tt.
Proof.
  unfold add_block. intros Hm. apply method_cases in Hm as [(u & t1 & Hf & Hm)|(r & Hf & _ & Hno)];
    apply finish_same_chain in Hf; [|by left]. assert (Hs1 := Hf). destruct Hf as (Eh & Et & Ehh & Ea).
  run_get Hm. run_step Hm u1 Ev; [|subst t'; by left]. destruct u1.
  apply method_cases in Hm as [(u2 & t2 & Hn & Hm)|(r & Hn & _ & Hno)];
    apply notify_proof_same_chain in Hn; try (intros *; apply notify_same_chain);
    [|left; split; [by eapply same_chain_trans|done]].
  assert (Hs2 := same_chain_trans _ _ _ Hs1 Hn). destruct Hs2 as (Eh2 & Et2 & Ehh2 & Ea2).
  run_get Hm. rewrite Eh2, Et2, Ehh2 in Hm. run_step Hm h Eh3; [|left; split; [by subst t'; split_and!|done]].
  injection Hm as <- <-. right. split_and!; try done. exists t1. split; [done|]. by rewrite <- Et, <- Ehh.
Qed.

(** The headers after the front one was taken off. *)
Definition popped (t : tracker) (prev : Headers) (t1 : tracker) : Prop :=
  t1.(tip) = t.(tip) /\ t1.(tracker_height) = t.(tracker_height) /\
  t1.(allow_deep_reorgs) = t.(allow_deep_reorgs) /\
  match t.(headers) with
  | [] => t.(allow_deep_reorgs) = true /\ t1.(headers) = []
  | h0 :: hs => prev = h0 /\ t1.(headers) = hs
  end.

Lemma popped_same (t t1 t2 : tracker) (prev : Headers) : popped t prev t1 -> same_chain t1 t2 -> popped t prev t2.
Proof. unfold popped. by intros Hp (-> & -> & -> & ->). Qed.

Lemma remove_pops (prev : Headers) (t t1 : tracker) (u : unit) :
  match t.(headers) with
  | [] => call (when (negb t.(allow_deep_reorgs)) (Err ReorgTooDeep))
  | h :: hs =>
      call (when (bool_decide (prev.(block_header) <> h.(block_header))) (Err InvalidChain)) ;;
      call (when (negb (prev.(filter_header) =? h.(filter_header))) (Err InvalidChain)) ;;
      set_self (with_chain t hs t.(tip) t.(tracker_height))
  end t = (t1, Ok u) -> popped t prev t1.
Proof.
  intros Hm. unfold popped. destruct (headers t) as [|h0 hs] eqn:Hh.
  - unfold call in Hm. destruct (allow_deep_reorgs t) eqn:Ha; [|done]. injection Hm as <-. by rewrite Hh.
  - run_step Hm u1 E1; [|done]. run_step Hm u2 E2; [|done]. injection Hm as <- _. do 3 (split; [done|]). split; [|done].
    destruct (bool_decide_reflect (block_header prev <> block_header h0)) as [?|Hb]; [done|].
    destruct (Z.eqb_spec prev.(filter_header) h0.(filter_header)); [|done].
    destruct prev, h0. cbn in *. f_equal; [|done]. by apply dec_stable.
Qed.

Lemma remove_outcome (p : TxoProof) (prev : Headers) (t t' : tracker) (h : BlockHeader) :
  remove_block v p prev t = (t', Ok h) ->
  h = t.(tip).(block_header) /\ t'.(tip) = prev /\
  match t.(headers) with
  | [] => t.(allow_deep_reorgs) = true /\ t'.(headers) = []
  | h0 :: hs => prev = h0 /\ t'.(headers) = hs
  end /\
  sub_u32 (E:=TrackerError) t.(tracker_height) 1 = Ok t'.(tracker_height) /\
  t'.(allow_deep_reorgs) = t.(allow_deep_reorgs) /\
  t.(tip).(block_header).(prev_blockhash) = header_hash prev.(block_header).
Proof.
  unfold remove_block. intros Hm. run_get Hm.
  apply method_cases in Hm as [(u & t1 & H0' & Hm)|(r & _ & _ & ?)]; [|done]. apply remove_pops in H0'.
  apply method_cases in Hm as [(u1 & t2 & Hf & Hm)|(r & _ & _ & ?)]; [|done].
  apply finish_same_chain in Hf. assert (Hp := popped_same _ _ _ _ H0' Hf).
  run_get Hm. run_step Hm ph Eph; [|done]. run_step Hm u2 Ev; [|done].
  apply method_cases in Hm as [(u3 & t3 & Hn & Hm)|(r & _ & _ & ?)]; [|done].
  apply notify_proof_same_chain in Hn; [|intros *; apply notify_same_chain].
  destruct (popped_same _ _ _ _ Hp Hn) as (Et & Eh & Ea & Ehs). run_get Hm. run_step Hm h2 Eh2; [|done].
  rewrite set_bind in Hm. injection Hm as <- <-. cbn [tip headers tracker_height with_chain].
  rewrite Et. rewrite Eh in Eh2. split_and!; try done.
  apply bind_Ok in Ev as (u4 & Ev & _). destruct Hp as (-> & _) in Ev.
  destruct (Z.eqb_spec t.(tip).(block_header).(prev_blockhash) (header_hash prev.(block_header))); done.
Qed.
(** ** Chains *)

(** Each header names the hash of the next one as its predecessor. *)
Fixpoint linked (l : list Headers) : Prop :=
  match l with
  | h :: ((h' :: _) as l') => h.(block_header).(prev_blockhash) = header_hash h'.(block_header) /\ linked l'
  | _ => True
  end.

Definition pow_ok (h : Headers) : Prop := validate_pow h.(block_header) (header_target h.(block_header)) = true.

Definition chain_ok (t : tracker) : Prop :=
  linked (t.(tip) :: t.(headers)) /\ Forall pow_ok (t.(tip) :: t.(headers)) /\
  (length t.(headers) <= MAX_REORG_SIZE)%nat /\ t.(allow_deep_reorgs) = false.

Lemma linked_take (n : nat) (l : list Headers) : linked l -> linked (take n l).
Proof.
  revert n. induction l as [|h l IH]; intros [|n] Hl; try done. destruct l as [|h' l]; [by destruct n|].
  destruct n as [|n]; [done|]. destruct Hl as [Hh Hl]. specialize (IH (S n) Hl). cbn in *. done.
Qed.

(** What the tracker goes through while deep reorganisations are refused, which
    is the default: calls that succeed, and additions that fail. *)
Inductive tracker_step : tracker -> tracker -> Prop :=
| step_add header p t t' o : o <> Panic -> add_block v header p t = (t', o) -> tracker_step t t'
| step_remove p prev t t' h : remove_block v p prev t = (t', Ok h) -> tracker_step t t'
| step_chunk hash off chunk t t' : block_chunk hash off chunk t = (t', Ok tt) -> tracker_step t t'
| step_listeners t m : tracker_step t (with_listeners t m).

Lemma same_chain_ok (t t' : tracker) : same_chain t t' -> chain_ok t -> chain_ok t'.
Proof. unfold chain_ok. by intros (-> & -> & _ & ->). Qed.

Lemma add_chain_ok (header : BlockHeader) (p : TxoProof) (t t' : tracker) (o : res TrackerError unit) :
  add_block v header p t = (t', o) -> chain_ok t -> chain_ok t'.
Proof.
  intros Ha Hc. apply add_outcome in Ha as [[Hs _]|(-> & Et & Eh & Ea & _ & t1 & Hs & Hv)]; [by eapply same_chain_ok|].
  destruct Hc as (Hl & Hp & Hn & Hd). unfold chain_ok. rewrite Et, Eh, Ea.
  apply bind_Ok in Hv as (u1 & H1' & Hv). apply bind_Ok in Hv as (u2 & H2' & _). cbn [block_header] in H1', H2'.
  destruct (Z.eqb_spec header.(prev_blockhash) (header_hash t.(tip).(block_header))) as [Hprev|]; [|done].
  assert (Hpow : validate_pow header (header_target header) = true) by (destruct (validate_pow _ _); done).
  split_and!.
  - split; [done|]. apply (linked_take MAX_REORG_SIZE) in Hl. exact Hl.
  - constructor; [done|]. inversion Hp; subst. constructor; [done|]. by apply Forall_take.
  - cbn [length]. rewrite length_take. unfold MAX_REORG_SIZE. lia.
  - done.
Qed.

Lemma remove_chain_ok (p : TxoProof) (prev : Headers) (t t' : tracker) (h : BlockHeader) :
  remove_block v p prev t = (t', Ok h) -> chain_ok t -> chain_ok t'.
Proof.
  intros Hr (Hl & Hp & Hn & Hd). apply remove_outcome in Hr as (_ & Et & Eh & _ & Ea & _).
  unfold chain_ok. rewrite Et, Ea. destruct (headers t) as [|h0 hs]; [by destruct Eh; congruence|].
  destruct Eh as [-> ->]. split_and!; [apply Hl|by inversion Hp|cbn in Hn; lia|done].
Qed.

Lemma reachable_chain_ok (t t' : tracker) : rtc tracker_step t t' -> chain_ok t -> chain_ok t'.
Proof.
  intros Hr. induction Hr as [t|t t1 t2 Hs _ IH]; [done|]. intros Hc. apply IH. clear IH.
  destruct Hs as [header p t t' o _ Ha|p prev t t' h Hr|hash off chunk t t' Hb|t m].
  - by eapply add_chain_ok.
  - by eapply remove_chain_ok.
  - apply chunk_same_chain in Hb. by eapply same_chain_ok.
  - done.
Qed.
End Safety.

(** ** Properties *)


(** Headers identified by [rest], and a listener that watches nothing. *)
Definition sample_packages : ChainPackages :=
  Build_ChainPackages rest (fun b => b) (fun t => t) (fun t => t / 4) (fun _ t => t * 4) (fun _ _ => true)
    (fun p _ _ _ _ _ => bool_decide (attestations p <> [])) unit tt (fun _ _ => Some (tt, [])) (fun _ => true).
Definition quiet_listener : ChainListener unit Z :=
  {| key _ := 0; on_add_block E l _ _ := Ok (l, ([], [])); on_add_streamed_block_end E l _ := Ok (l, ([], []));
     on_remove_block E l _ _ := Ok (l, ([], [])); on_remove_streamed_block_end E l _ := Ok (l, ([], []));
     on_push E l _ := Ok l |}.
Definition sample_filter : SimpleValidator := mkSimpleValidator (make_default_simple_policy Bitcoin).

(** Block [n] on block [n - 1]. *)
Definition sample_header (n : Z) : BlockHeader := mkBlockHeader (n - 1) (600 * n) 5 n.
Definition sample_headers (n : Z) : Headers := mkHeaders (sample_header n) n.
Definition sample_proof (n : Z) : TxoProof := mkTxoProof [1] (Filter []) n.
Definition bad_proof (n : Z) : TxoProof := mkTxoProof [] (Filter []) n.
Definition sample_tracker : ChainTracker (H0:=sample_packages) (L:=unit) (K:=Z) :=
  mkChainTracker [] (sample_headers 100) 100 Bitcoin ∅ None [] false.

Section Samples.
#[local] Existing Instance sample_packages.
#[local] Existing Instance quiet_listener.
#[local] Existing Instance SimpleValidator_policy.
#[local] Instance samples_profile : Profile := release_profile.

Definition sample_add (n : Z) : method (ChainTracker (L:=unit) (K:=Z)) TrackerError unit :=
  add_block sample_filter (sample_header n) (sample_proof n).
Definition sample_101 : ChainTracker (L:=unit) (K:=Z) := (sample_add 101 sample_tracker).1.
Definition sample_102 : ChainTracker (L:=unit) (K:=Z) := (sample_add 102 sample_101).1.
Definition sample_back : ChainTracker (L:=unit) (K:=Z) :=
  (remove_block sample_filter (sample_proof 102) (sample_headers 101) sample_102).1.

End Samples.

(** Removing the block that was added last returns its header and goes back
    to the tip and the height before it, with the same headers below except the
    one that no longer fitted. *)
Theorem tracker_add_remove_roundtrip `{Profile} `{ChainPackages} {L K : Type} `{Countable K} `{ChainListener L K}
    {V : Type} `{Policy V} (v : V) (header h : BlockHeader) (p p' : TxoProof) (prev : Headers)
    (t t1 t2 : ChainTracker (L:=L) (K:=K)) :
  0 <= t.(tracker_height) < 2 ^ 32 - 1 ->
  add_block v header p t = (t1, Ok tt) -> remove_block v p' prev t1 = (t2, Ok h) ->
  h = header /\ t2.(tip) = t.(tip) /\ t2.(tracker_height) = t.(tracker_height) /\
  t2.(headers) = take (MAX_REORG_SIZE - 1) t.(headers).
Proof.
  intros Hh Ha Hr. apply add_outcome in Ha as [[_ ?]|(_ & Et & Eh & _ & Ehh & _)]; [done|].
  apply remove_outcome in Hr as (-> & Et2 & Eh2 & Ehh2 & _). rewrite Eh in Eh2. destruct Eh2 as [-> Eh2].
  rewrite add_u32_Ok in Ehh by (unfold uint; lia). injection Ehh as Ehh. rewrite <- Ehh in Ehh2.
  rewrite sub_u32_Ok in Ehh2 by (unfold uint; lia). injection Ehh2 as Ehh2. rewrite Et. split_and!; try done. lia.
Qed.

Lemma tracker_add_remove_roundtrip_witness :
  sample_back.(tip) = sample_101.(tip) /\ sample_back.(tracker_height) = 101.
Proof.
  destruct (tracker_add_remove_roundtrip (H:=release_profile) (H0:=sample_packages) (H2:=quiet_listener)
    (H3:=SimpleValidator_policy) sample_filter (sample_header 102) (sample_header 102)
    (sample_proof 102) (sample_proof 102) (sample_headers 101) sample_101 sample_102 sample_back) as (_ & Ht & Hh & _).
  - by vm_compute.
  - vm_compute. reflexivity.
  - vm_compute. reflexivity.
  - split; [exact Ht|]. rewrite Hh. reflexivity.
Defined.

(** A removal that fails validation is not undone.  The previous header is
    taken off before the block is validated, so after the failure the tracker
    still has the tip but no longer the header below it, and the correct removal
    of the tip is refused from then on. *)
Theorem failed_remove_drops_header `{Profile} `{ChainPackages} {L K : Type} `{Countable K} `{ChainListener L K}
    {V : Type} `{Policy V} (v : V) (p : TxoProof) (h h2 : Headers) (hs : list Headers) (e : TrackerError)
    (t : ChainTracker (L:=L) (K:=K)) :
  t.(headers) = h :: h2 :: hs -> t.(tracker_decode_state) = None -> is_external p.(proof) = false ->
  1 <= t.(tracker_height) < 2 ^ 32 -> h.(block_header) <> h2.(block_header) ->
  tracker_validate_block v (with_chain t (h2 :: hs) t.(tip) t.(tracker_height)) (t.(tracker_height) - 1) None h t.(tip) p true
    = Err e ->
  let t' := with_chain t (h2 :: hs) t.(tip) t.(tracker_height) in
  remove_block v p h t = (t', Err e) /\ forall p', remove_block v p' h t' = (t', Err InvalidChain).
Proof.
  intros Hh Hd Hx Hht Hne Hv t'. split.
  - unfold remove_block. rewrite get_bind, Hh, bool_decide_false, Z.eqb_refl by (intros Hc; by apply Hc).
    cbn [when negb]. unfold mbind at 1, method_bind at 1. rewrite !call_Ok_bind.
    cbn [set_self]. unfold maybe_finish_decoding_block.
    unfold mbind at 1, method_bind at 1. rewrite get_bind. cbn [with_chain tracker_decode_state]. rewrite Hd, Hx.
    cbn [bool_decide]. rewrite bool_decide_true by (by rewrite bool_decide_false by (by intros [? ?])).
    cbn [rassert]. rewrite call_Ok_bind. cbn [mret method_ret]. rewrite get_bind. cbn [with_chain tracker_height tip].
    rewrite sub_u32_Ok by (unfold uint; lia). rewrite call_Ok_bind. 
    unfold mbind at 1, method_bind at 1, call at 1. by rewrite Hv.
  - intros p'. unfold remove_block. rewrite get_bind. cbn [t' with_chain headers].
    rewrite bool_decide_true by done. reflexivity.
Qed.

Lemma failed_remove_drops_header_witness :
  (remove_block (H:=release_profile) (H2:=quiet_listener) (H3:=SimpleValidator_policy) sample_filter
     (sample_proof 102) (sample_headers 101)
     (remove_block (H:=release_profile) (H2:=quiet_listener) (H3:=SimpleValidator_policy) sample_filter
        (bad_proof 102) (sample_headers 101) sample_102).1).2 = Err InvalidChain.
Proof.
  destruct (failed_remove_drops_header (H:=release_profile) (H0:=sample_packages) (H2:=quiet_listener)
    (H3:=SimpleValidator_policy) sample_filter (bad_proof 102) (sample_headers 101) (sample_headers 100) [] InvalidProof
    sample_102) as [Hr Hn].
  - vm_compute. reflexivity.
  - vm_compute. reflexivity.
  - vm_compute. reflexivity.
  - by vm_compute.
  - vm_compute. congruence.
  - vm_compute. reflexivity.
  - rewrite Hr. cbn [fst]. by rewrite Hn.
Defined.

(** A streamed block cannot be removed.  The hash that the streamed block is
    compared with is that of the previous block, so when the block that is the
    tip was streamed, its removal fails. *)
Theorem streamed_remove_rejected `{Profile} `{ChainPackages} {L K : Type} `{Countable K} `{ChainListener L K}
    {V : Type} `{Policy V} (v : V) (p : TxoProof) (h : Headers) (hs : list Headers) (d : TrackerDecodeState)
    (t : ChainTracker (L:=L) (K:=K)) :
  t.(headers) = h :: hs -> is_external p.(proof) = true -> t.(tracker_decode_state) = Some d ->
  d.(td_block_hash) = header_hash t.(tip).(block_header) ->
  header_hash t.(tip).(block_header) <> header_hash h.(block_header) ->
  (remove_block v p h t).2 = Err BlockDecodeError.
Proof.
  intros Hh Hx Hd Hdh Hne. unfold remove_block. rewrite get_bind, Hh, bool_decide_false, Z.eqb_refl by (intros Hc; by apply Hc).
  cbn [when negb]. unfold mbind at 1, method_bind at 1. rewrite !call_Ok_bind. cbn [set_self].
  unfold maybe_finish_decoding_block. unfold mbind at 1, method_bind at 1. rewrite get_bind.
  cbn [with_chain tracker_decode_state]. rewrite Hd, Hx.
  rewrite bool_decide_true by (by rewrite bool_decide_true by eauto). cbn [rassert]. rewrite call_Ok_bind, set_bind.
  destruct (decoder_finish (decoder d)); cbn [negb when]; [|done]. rewrite call_Ok_bind, Hdh.
  rewrite (proj2 (Z.eqb_neq _ _)) by done. reflexivity.
Qed.

Definition sample_streamed : ChainTracker (H0:=sample_packages) (L:=unit) (K:=Z) :=
  (block_chunk (H:=release_profile) (H2:=quiet_listener) 102 0 [1; 2] sample_102).1.

Lemma streamed_remove_rejected_witness :
  (remove_block (H:=release_profile) (H2:=quiet_listener) (H3:=SimpleValidator_policy) sample_filter
     (mkTxoProof [1] ExternalBlock 102) (sample_headers 101) sample_streamed).2 = Err BlockDecodeError.
Proof.
  apply (streamed_remove_rejected (H:=release_profile) (H0:=sample_packages) (H2:=quiet_listener)
    (H3:=SimpleValidator_policy) sample_filter (mkTxoProof [1] ExternalBlock 102) (sample_headers 101) [sample_headers 100]
    (mkTrackerDecodeState (H0:=sample_packages) tt 2 102)).
  - vm_compute. reflexivity.
  - reflexivity.
  - vm_compute. reflexivity.
  - vm_compute. reflexivity.
  - vm_compute. congruence.
Defined.
