(* ===== verification/BTree.v ===== *)
(** * [BTreeMap]

    Rust compares strings byte by byte.  A [BTreeMap] is a finite map together
    with its iteration in key order; [range(prefix..)] cut at the first key that
    lacks the prefix visits exactly the keys with the prefix. *)
From S2P Require Import Prelude Ordered.
From Stdlib Require Import Ascii.

(** ** Byte order on strings *)
Lemma ascii_compare_eq (a b : ascii) : Ascii.compare a b = Eq <-> a = b.
Proof. split; [apply Ascii.compare_eq_iff|intros ->]. unfold Ascii.compare. apply N.compare_refl. Qed.

Lemma ascii_compare_trans (a b c : ascii) :
  Ascii.compare a b = Lt -> Ascii.compare b c = Lt -> Ascii.compare a c = Lt.
Proof. unfold Ascii.compare. rewrite !N.compare_lt_iff. apply N.lt_trans. Qed.

Lemma string_compare_cons (a b : ascii) (s t : string) :
  String.compare (String a s) (String b t) = then_with (Ascii.compare a b) (String.compare s t).
Proof. cbn. by destruct (Ascii.compare a b). Qed.

#[export] Program Instance string_ord : Ord string := {| ord_cmp := String.compare |}.
Next Obligation.
  split; [apply String.compare_eq_iff|intros ->]. induction y as [|a y IH]; [done|].
  rewrite string_compare_cons, (proj2 (ascii_compare_eq a a)) by done. exact IH.
Qed.
Next Obligation. intros x y. apply String.compare_antisym. Qed.
Next Obligation.
  intros x. induction x as [|a x IH]; intros [|b y] [|c z]; try done.
  rewrite !string_compare_cons, !then_with_Lt.
  intros [Hab|[Hab Hxy]] [Hbc|[Hbc Hyz]].
  - left. by eapply ascii_compare_trans.
  - left. by apply ascii_compare_eq in Hbc as <-.
  - left. by apply ascii_compare_eq in Hab as ->.
  - right. apply ascii_compare_eq in Hab as ->, Hbc as ->. split; [by apply ascii_compare_eq|by eapply IH].
Qed.

(** [starts_with]. *)
Definition starts_with (prefix key : string) : bool := String.prefix prefix key.

Lemma starts_with_le (p k : string) : starts_with p k = true -> ord_le p k.
Proof.
  unfold starts_with, ord_le, ord_cmp, string_ord. revert k.
  induction p as [|a p IH]; intros [|b k]; try done. cbn [String.prefix].
  destruct (ascii_dec a b) as [->|]; [|done]. intros Hp%IH.
  rewrite string_compare_cons, (proj2 (ascii_compare_eq b b)) by done. exact Hp.
Qed.

(** Past the prefix range no key has the prefix again. *)
Lemma starts_with_gap (p k k' : string) :
  ord_le p k -> starts_with p k = false -> ord_le k k' -> starts_with p k' = false.
Proof.
  unfold starts_with, ord_le, ord_cmp, string_ord. revert k k'.
  induction p as [|a p IH]; intros [|b k] [|c k']; try done.
  rewrite !string_compare_cons. cbn [String.prefix]. intros Hpk Hp Hkk.
  destruct (ascii_dec a c) as [->|]; [|done]. destruct (ascii_dec c b) as [->|Hcb].
  - rewrite (proj2 (ascii_compare_eq b b)) in Hpk, Hkk by done. by eapply IH.
  - exfalso. destruct (Ascii.compare c b) eqn:Hc; cbn in Hpk; try done.
    + by apply ascii_compare_eq in Hc.
    + unfold Ascii.compare in *. rewrite N.compare_antisym, Hc in Hkk. done.
Qed.

(** ** Iteration *)
Section Iter.
Context {K : Type} `{EqDecision K} `{!Countable K} `{!Ord K} {A : Type}.
Implicit Types (m : gmap K A) (k : K).

(** [iter()], in key order. *)
Definition btree_iter m : list (K * A) :=
  omap (fun k => (fun v => (k, v)) <$> m !! k) (vec_sort (elements (dom m))).

Lemma btree_iter_keys m : (btree_iter m).*1 = vec_sort (elements (dom m)).
Proof.
  unfold btree_iter. assert (Hin : forall k, k ∈ vec_sort (elements (dom m)) -> is_Some (m !! k)).
  { intros k. rewrite vec_sort_perm. rewrite elem_of_elements. by rewrite elem_of_dom. }
  induction (vec_sort (elements (dom m))) as [|k l IH]; [done|]. cbn.
  destruct (Hin k) as [v Hv]; [left|]. rewrite Hv. cbn. f_equal. apply IH.
  intros k' Hk'. apply Hin. by right.
Qed.

Lemma btree_iter_elem m k (v : A) : (k, v) ∈ btree_iter m <-> m !! k = Some v.
Proof.
  unfold btree_iter. rewrite list_elem_of_omap. split.
  - intros (k' & _ & Hk). destruct (m !! k') eqn:Hm; [|done]. by simplify_eq/=.
  - intros Hm. exists k. split; [|by rewrite Hm]. rewrite vec_sort_perm, elem_of_elements, elem_of_dom. by eauto.
Qed.

Lemma btree_iter_NoDup m : NoDup (btree_iter m).*1.
Proof. rewrite btree_iter_keys, vec_sort_perm. apply NoDup_elements. Qed.

Lemma list_to_map_btree_iter m : list_to_map (btree_iter m) = m.
Proof.
  apply map_eq. intros k. destruct (m !! k) as [v|] eqn:Hm.
  - apply elem_of_list_to_map_1; [apply btree_iter_NoDup|by apply btree_iter_elem].
  - apply not_elem_of_list_to_map_1. intros ([k' v] & -> & Hkv)%list_elem_of_fmap.
    apply btree_iter_elem in Hkv. cbn in *. congruence.
Qed.

Lemma btree_iter_sorted m : StronglySorted ord_le (btree_iter m).*1.
Proof. rewrite btree_iter_keys. apply vec_sort_sorted. Qed.

End Iter.

(** ** Prefix ranges *)
Section BTree.
Context {A : Type}.
Implicit Types (m : gmap string A) (k : string).

(** [range(lo..)], as a list. *)
Fixpoint skip_to (lo : string) (l : list (string * A)) : list (string * A) :=
  match l with
  | [] => []
  | kv :: l' => if decide (ord_le lo kv.1) then l else skip_to lo l'
  end.

Definition range_from m (lo : string) : list (string * A) := skip_to lo (btree_iter m).

(** The loop of [get_prefix]: push while the prefix matches, then break. *)
Fixpoint take_prefix (prefix : string) (l : list (string * A)) : list (string * A) :=
  match l with
  | [] => []
  | kv :: l' => if starts_with prefix kv.1 then kv :: take_prefix prefix l' else []
  end.

(** What lies before the range lacks the prefix, and what follows a gap too. *)
Lemma prefix_range (prefix : string) (l : list (string * A)) :
  StronglySorted ord_le l.*1 ->
  take_prefix prefix (skip_to prefix l) = filter (fun kv => starts_with prefix kv.1 = true) l.
Proof.
  induction l as [|[k v] l IH]; [done|]. cbn [fmap list_fmap skip_to fst]. intros Hs.
  pose proof (StronglySorted_inv Hs) as [Hs' Hall]. destruct (decide (ord_le prefix k)) as [Hle|Hlt].
  - clear IH. cbn [take_prefix fst].
    assert (Hr : forall l', StronglySorted ord_le l'.*1 -> Forall (ord_le prefix) l'.*1 ->
      take_prefix prefix l' = filter (fun kv => starts_with prefix kv.1 = true) l').
    { clear. induction l' as [|[k v] l' IH]; [done|]. cbn [fmap list_fmap take_prefix fst]. intros Hs Hp.
      apply StronglySorted_inv in Hs as [Hs Hall]. apply Forall_cons in Hp as [Hpk Hp].
      destruct (starts_with prefix k) eqn:Hk.
      - rewrite filter_cons_True by done. f_equal. by apply IH.
      - rewrite filter_cons_False by (cbn [fst]; by rewrite Hk). symmetry. clear IH.
        induction l' as [|[k' v'] l' IH]; [done|]. cbn [fmap list_fmap fst] in Hall, Hp, Hs. apply Forall_cons in Hall as [Hkk Hall].
        rewrite filter_cons_False.
        + apply IH; [by apply StronglySorted_inv in Hs as [? _]|done|by apply Forall_cons in Hp as [_ ?]].
        + cbn [fst]. by rewrite (starts_with_gap prefix k k'). }
    apply (Hr ((k, v) :: l)); [done|]. cbn. constructor; [done|].
    eapply Forall_impl; [exact Hall|]. intros k' Hkk. by etrans.
  - rewrite filter_cons_False; [by apply IH|]. cbn [fst]. intros Hk. by apply starts_with_le in Hk.
Qed.

Definition prefix_entries m (prefix : string) : list (string * A) :=
  take_prefix prefix (range_from m prefix).

Lemma prefix_entries_filter m (prefix : string) :
  prefix_entries m prefix = filter (fun kv => starts_with prefix kv.1 = true) (btree_iter m).
Proof. apply prefix_range, btree_iter_sorted. Qed.
End BTree.

Lemma btree_iter_fmap {A B : Type} (f : A -> B) (m : gmap string A) :
  btree_iter (f <$> m) = (fun kv => (kv.1, f kv.2)) <$> btree_iter m.
Proof.
  unfold btree_iter. rewrite dom_fmap_L. induction (vec_sort (elements (dom m))) as [|k l IH]; [done|]. cbn.
  rewrite lookup_fmap. destruct (m !! k); cbn; [by f_equal|done].
Qed.

(** A sorted list with distinct keys is the iteration of its map. *)
Lemma omap_list_to_map {A : Type} (l : list (string * A)) :
  NoDup l.*1 -> omap (fun k => (fun v => (k, v)) <$> (list_to_map l : gmap string A) !! k) l.*1 = l.
Proof.
  intros Hn. assert (Hin : forall kv, kv ∈ l -> (list_to_map l : gmap string A) !! kv.1 = Some kv.2).
  { intros [k v] Hkv. by apply elem_of_list_to_map_1. }
  generalize dependent (list_to_map l : gmap string A). intros m Hin. clear Hn.
  induction l as [|[k v] l IH]; [done|]. cbn.
  pose proof (Hin (k, v) ltac:(left)) as Hk. cbn in Hk. rewrite Hk. cbn. f_equal. apply IH. intros kv Hkv. apply Hin. by right.
Qed.

Lemma btree_iter_list_to_map {A : Type} (l : list (string * A)) :
  NoDup l.*1 -> StronglySorted ord_le l.*1 -> btree_iter (list_to_map l) = l.
Proof.
  intros Hn Hs. unfold btree_iter.
  assert (vec_sort (elements (dom (list_to_map l : gmap string A))) = l.*1) as ->; [|by apply omap_list_to_map].
  apply sorted_unique; [apply vec_sort_sorted|done|].
  rewrite vec_sort_perm. apply NoDup_Permutation; [apply NoDup_elements|done|]. intros k.
  by rewrite elem_of_elements, dom_list_to_map, elem_of_list_to_set.
Qed.

Lemma sublist_sorted {A : Type} (R : relation A) (l1 l2 : list A) :
  l1 `sublist_of` l2 -> StronglySorted R l2 -> StronglySorted R l1.
Proof.
  induction 1 as [|x l1 l2 Hs IH|x l1 l2 Hs IH]; intros [Hl Hx]%StronglySorted_inv || intros Hl; auto.
  - constructor; [by apply IH|]. rewrite !Forall_forall in *. intros y Hy. apply Hx. by eapply elem_of_sublist.
Qed.

Lemma btree_iter_filter {A : Type} (P : string -> bool) (m : gmap string A) :
  btree_iter (filter (fun kv => P kv.1 = true) m) = filter (fun kv => P kv.1 = true) (btree_iter m).
Proof.
  set (l := filter (fun kv => P kv.1 = true) (btree_iter m)).
  assert (Hsub : l.*1 `sublist_of` (btree_iter m).*1) by apply fmap_sublist, sublist_filter.
  assert (Hn : NoDup l.*1) by (exact (sublist_NoDup _ _ (btree_iter_NoDup m) Hsub)).
  assert (filter (fun kv => P kv.1 = true) m = list_to_map l) as ->.
  { apply map_eq. intros k. apply option_eq. intros v. rewrite map_lookup_filter_Some, <- elem_of_list_to_map by done.
    unfold l. rewrite list_elem_of_filter, btree_iter_elem. tauto. }
  apply btree_iter_list_to_map; [done|].
  eapply sublist_sorted; [exact Hsub|apply btree_iter_sorted].
Qed.
