(* ===== verification/KvvSpec.v ===== *)
(** * The contract of a versioned store

    What a [KVVStore] promises, as functions on finite maps, and the proofs that
    the memory store and the redb store keep it. *)
From S2P Require Import Prelude Ordered Types BTree Kvv.

(** ** Specification *)
Abbreviation vmap := (gmap string (Z * list Z)) (only parsing).

(** An entry may replace what is stored: a higher version, or the same one with
    the same value. *)
Definition entry_ok (m : vmap) (key : string) (version : Z) (value : list Z) : bool :=
  match m !! key with
  | Some (ver, val) => (ver <? version) || ((ver =? version) && bool_decide (val = value))
  | None => true
  end.

Definition spec_put_with_version (m : vmap) (key : string) (version : Z) (value : list Z) : res Error vmap :=
  if entry_ok m key version value then Ok (<[key := (version, value)]> m) else Err VersionMismatch.

Definition batch_ok (m : vmap) (kvvs : list KVV) : bool :=
  forallb (fun kvv => entry_ok m kvv.1 kvv.2.1 kvv.2.2) kvvs.

Definition spec_put_batch (m : vmap) (kvvs : list KVV) : res Error vmap :=
  if batch_ok m kvvs then Ok (list_to_map kvvs ∪ m) else Err VersionMismatch.

Definition spec_reset (m : vmap) : vmap := (fun vv => (0, vv.2)) <$> m.

(** Versions fit 64 bits. *)
Definition versions_u64 (m : vmap) : Prop := map_Forall (fun _ vv => u64 vv.1) m.

(** ** The contract *)

(** An operation that ends in [out] from [s] does on the view what [spec] says. *)
Definition refines {S : Type} (inv : S -> Prop) (view : S -> vmap) (s : S) (out : S * res Error unit)
    (spec : res Error vmap) : Prop :=
  inv out.1 /\
  match spec with
  | Ok m => out.2 = Ok tt /\ view out.1 = m
  | Err e => out.2 = Err e /\ view out.1 = view s
  | Panic => False
  end.

Class KVVLaws (S : Type) `{Profile} `{KVVStore S} := {
  kv_inv : S -> Prop;
  kv_view : S -> vmap;
  kv_view_u64 : forall s, kv_inv s -> versions_u64 (kv_view s);
  kv_get_spec : forall s key, kv_inv s -> kv_get s key = Ok (kv_view s !! key);
  kv_get_version_spec : forall s key, kv_inv s -> kv_get_version s key = Ok (fst <$> kv_view s !! key);
  kv_get_prefix_spec : forall s prefix, kv_inv s -> kv_get_prefix s prefix = Ok (prefix_entries (kv_view s) prefix);
  kv_put_with_version_spec : forall s key version value, kv_inv s -> u64 version ->
    refines kv_inv kv_view s (kv_put_with_version key version value s)
      (spec_put_with_version (kv_view s) key version value);
  kv_put_batch_spec : forall s kvvs, kv_inv s -> NoDup kvvs.*1 -> Forall (fun kvv => u64 kvv.2.1) kvvs ->
    refines kv_inv kv_view s (kv_put_batch kvvs s) (spec_put_batch (kv_view s) kvvs);
  kv_reset_versions_spec : forall s, kv_inv s ->
    refines kv_inv kv_view s (kv_reset_versions s) (Ok (spec_reset (kv_view s)));
  kv_put_spec : forall s key value, kv_inv s ->
    kv_put key value s = (version ← call (next_version (fst <$> kv_view s !! key));
                          kv_put_with_version key version value) s;
  kv_delete_spec : forall s key, kv_delete key s = kv_put key [] s
}.

(** ** Maps *)
Lemma entry_ok_insert (m : vmap) (key : string) (version : Z) (value : list Z) :
  entry_ok m key version value = true ->
  (exists ver, fst <$> m !! key = Some ver /\ ver <= version) \/ m !! key = None.
Proof.
  unfold entry_ok. destruct (m !! key) as [[ver val]|]; [|by right]. intros Ho. left. exists ver.
  split; [done|]. apply orb_true_iff in Ho as [?|Ho]; [lia|]. apply andb_true_iff in Ho as [? _]. lia.
Qed.

Lemma versions_insert (m : vmap) (key : string) (version : Z) (value : list Z) :
  versions_u64 m -> u64 version -> versions_u64 (<[key := (version, value)]> m).
Proof. intros Hm Hv. by apply map_Forall_insert_2. Qed.

Lemma versions_reset (m : vmap) : versions_u64 (spec_reset m).
Proof. intros k vv. unfold spec_reset. rewrite lookup_fmap_Some. intros (vv' & <- & _). done. Qed.

(** Inserting a batch entry by entry, with distinct keys. *)
Lemma foldl_insert_union {A : Type} (l : list (string * A)) (m : gmap string A) :
  NoDup l.*1 -> foldl (fun m kv => <[kv.1 := kv.2]> m) m l = list_to_map l ∪ m.
Proof.
  revert m. induction l as [|[k v] l IH]; intros m Hn; cbn [foldl list_to_map foldr fst snd].
  - by rewrite map_empty_union.
  - apply NoDup_cons in Hn as [Hk Hn]. rewrite IH by done.
    rewrite <- insert_union_r by (by apply not_elem_of_list_to_map_1). by rewrite insert_union_l.
Qed.

(** Same version and value: nothing to write. *)
Lemma entry_same (m : vmap) (key : string) (version : Z) (value : list Z) :
  m !! key = Some (version, value) -> <[key := (version, value)]> m = m.
Proof. intros Hk. by apply insert_id. Qed.

(** ** The memory store *)
Section MemoryLaws.
Context `{Profile}.

Lemma mem_put_with_version (s : MemoryKVVStore) (key : string) (version : Z) (value : list Z) :
  Memory.put_with_version key version value s =
    match spec_put_with_version s.(mem_data) key version value with
    | Ok m => (mkMemory m s.(mem_signer_id), Ok tt)
    | Err e => (s, Err e)
    | Panic => (s, Panic)
    end.
Proof.
  unfold Memory.put_with_version, spec_put_with_version, entry_ok. rewrite get_bind. cbv beta.
  destruct (mem_data s !! key) as [[ver val]|] eqn:Hk; [|done].
  destruct (Z.ltb_spec version ver), (Z.ltb_spec ver version), (Z.eqb_spec version ver), (Z.eqb_spec ver version);
    try lia; cbn [orb andb]; try done.
  subst version. destruct (decide (val = value)) as [->|Hne].
  - rewrite bool_decide_false by (intros Hc; done). rewrite bool_decide_true by done.
    rewrite entry_same by done. by destruct s.
  - rewrite bool_decide_true by done. by rewrite bool_decide_false.
Qed.

Lemma check_kvv_ok (m : vmap) (kvv : KVV) :
  Memory.check_kvv m kvv = if entry_ok m kvv.1 kvv.2.1 kvv.2.2 then Ok tt else Err VersionMismatch.
Proof.
  destruct kvv as [key [version value]]. unfold Memory.check_kvv, entry_ok. cbn [fst snd].
  destruct (m !! key) as [[ver val]|]; [|done].
  destruct (Z.ltb_spec version ver), (Z.ltb_spec ver version), (Z.eqb_spec version ver), (Z.eqb_spec ver version);
    try lia; cbn [orb andb]; try done.
  destruct (decide (val = value)) as [->|Hne].
  - rewrite bool_decide_false by (intros Hc; done). by rewrite bool_decide_true.
  - rewrite bool_decide_true by done. by rewrite bool_decide_false.
Qed.

Lemma for_each_check (m : vmap) (kvvs : list KVV) :
  for_each (Memory.check_kvv m) kvvs = if batch_ok m kvvs then Ok tt else Err VersionMismatch.
Proof.
  induction kvvs as [|kvv kvvs IH]; [done|]. cbn [for_each batch_ok forallb].
  rewrite check_kvv_ok. destruct (entry_ok _ _ _ _); [|done]. exact IH.
Qed.

Lemma mem_put_batch (s : MemoryKVVStore) (kvvs : list KVV) :
  NoDup kvvs.*1 ->
  Memory.put_batch kvvs s =
    match spec_put_batch s.(mem_data) kvvs with
    | Ok m => (mkMemory m s.(mem_signer_id), Ok tt)
    | Err e => (s, Err e)
    | Panic => (s, Panic)
    end.
Proof.
  intros Hn. unfold Memory.put_batch, spec_put_batch. rewrite get_bind, for_each_check.
  destruct (batch_ok _ _); [|done]. rewrite call_Ok_bind. unfold Memory.set_data, Memory.insert_kvv.
  by rewrite foldl_insert_union.
Qed.

Lemma versions_union (kvvs : list KVV) (m : vmap) :
  Forall (fun kvv => u64 kvv.2.1) kvvs -> versions_u64 m -> versions_u64 (list_to_map kvvs ∪ m).
Proof.
  intros Hl Hm. apply map_Forall_union_2; [|done]. intros k vv Hk.
  apply elem_of_list_to_map_2 in Hk. rewrite Forall_forall in Hl. by apply Hl in Hk.
Qed.

#[export] Program Instance MemoryKVVStore_laws : KVVLaws MemoryKVVStore := {|
  kv_inv s := versions_u64 s.(mem_data);
  kv_view := mem_data
|}.
Next Obligation. done. Qed.
Next Obligation. done. Qed.
Next Obligation. done. Qed.
Next Obligation. done. Qed.
Next Obligation.
  intros s key version value Hs Hv. cbn [kv_put_with_version MemoryKVVStore_kvv]. rewrite mem_put_with_version.
  unfold spec_put_with_version. destruct (entry_ok _ _ _ _); [|done]. split; [by apply versions_insert|done].
Qed.
Next Obligation.
  intros s kvvs Hs Hn Hl. cbn [kv_put_batch MemoryKVVStore_kvv]. rewrite mem_put_batch by done.
  unfold spec_put_batch. destruct (batch_ok _ _); [|done]. split; [by apply versions_union|done].
Qed.
Next Obligation. intros s Hs. split; [apply versions_reset|done]. Qed.
Next Obligation. done. Qed.
Next Obligation. done. Qed.
End MemoryLaws.

(** ** The redb store *)
Lemma length_be_bytes (n : nat) (z : Z) : length (Redb.to_be_bytes n z) = n.
Proof. unfold Redb.to_be_bytes. by rewrite length_reverse, length_to_le_bytes. Qed.

Lemma from_to_be_bytes (z : Z) : u64 z -> Redb.from_be_bytes (Redb.to_be_bytes 8 z) = z.
Proof.
  unfold Redb.from_be_bytes, Redb.to_be_bytes, uint. intros Hz. rewrite reverse_involutive.
  apply from_to_le_bytes. lia.
Qed.

(** What a row of the table stands for. *)
Definition row_view (vv : list Z) : VV := (Redb.from_be_bytes (take 8 vv), drop 8 vv).

Definition row (vv : VV) : list Z := Redb.encode_vv vv.1 vv.2.

Lemma row_view_row (vv : VV) : u64 vv.1 -> row_view (row vv) = vv.
Proof.
  destruct vv as [version value]. unfold row_view, row, Redb.encode_vv. cbn [fst snd]. intros Hv.
  rewrite take_app_length' by (by rewrite length_be_bytes).
  rewrite drop_app_length' by (by rewrite length_be_bytes). by rewrite from_to_be_bytes.
Qed.

Lemma decode_row {E : Type} (vv : VV) : u64 vv.1 -> Redb.decode_vv (E:=E) (row vv) = Ok vv.
Proof.
  intros Hv. unfold Redb.decode_vv. destruct (Nat.ltb_spec (length (row vv)) 8) as [Hl|Hl].
  - unfold row, Redb.encode_vv in Hl. rewrite length_app, length_be_bytes in Hl. lia.
  - f_equal. exact (row_view_row vv Hv).
Qed.

Lemma row_inj (vv vv' : VV) : u64 vv.1 -> u64 vv'.1 -> row vv = row vv' -> vv = vv'.
Proof. intros Hv Hv' Hr. by rewrite <- (row_view_row vv), Hr, row_view_row. Qed.

(** The table holds the rows of a map, and the cache its versions. *)
Definition redb_holds (s : RedbKVVStore) (m : vmap) : Prop :=
  s.(redb_table) = row <$> m /\ s.(redb_versions) = fst <$> m /\ versions_u64 m.

Definition redb_view (s : RedbKVVStore) : vmap := row_view <$> s.(redb_table).

Lemma redb_holds_view (s : RedbKVVStore) (m : vmap) : redb_holds s m -> redb_view s = m.
Proof.
  intros (Ht & _ & Hu). unfold redb_view. rewrite Ht, <- map_fmap_compose.
  rewrite <- (map_fmap_id m) at 2. apply map_fmap_ext. intros k vv Hk. cbn.
  apply row_view_row. exact (Hu k vv Hk).
Qed.

Definition redb_inv (s : RedbKVVStore) : Prop := redb_holds s (redb_view s).

Lemma redb_holds_inv (s : RedbKVVStore) (m : vmap) : redb_holds s m -> redb_inv s.
Proof. intros Hs. unfold redb_inv. by rewrite (redb_holds_view s m Hs). Qed.

Lemma redb_versions_lookup (s : RedbKVVStore) (m : vmap) (key : string) :
  redb_holds s m -> s.(redb_versions) !! key = fst <$> m !! key.
Proof. intros (_ & -> & _). apply lookup_fmap. Qed.

Lemma redb_table_lookup (s : RedbKVVStore) (m : vmap) (key : string) :
  redb_holds s m -> s.(redb_table) !! key = row <$> m !! key.
Proof. intros (-> & _ & _). apply lookup_fmap. Qed.

Section RedbLaws.
Context `{Profile}.

(** Writing one entry keeps table and cache together. *)
Lemma redb_write (s : RedbKVVStore) (m : vmap) (key : string) (version : Z) (value : list Z) :
  redb_holds s m -> u64 version ->
  redb_holds (mkRedb (<[key := Redb.encode_vv version value]> s.(redb_table))
                (<[key := version]> s.(redb_versions)) s.(redb_signer_id)) (<[key := (version, value)]> m).
Proof.
  intros (Ht & Hv & Hu) Hver. split_and!; cbn [redb_table redb_versions].
  - by rewrite Ht, fmap_insert.
  - by rewrite Hv, fmap_insert.
  - by apply versions_insert.
Qed.

Lemma redb_put_with_version (s : RedbKVVStore) (m : vmap) (key : string) (version : Z) (value : list Z) :
  redb_holds s m -> u64 version ->
  match spec_put_with_version m key version value with
  | Ok m' => exists s', Redb.put_with_version key version value s = (s', Ok tt) /\ redb_holds s' m'
                       /\ s'.(redb_signer_id) = s.(redb_signer_id)
  | Err e => Redb.put_with_version key version value s = (s, Err e)
  | Panic => False
  end.
Proof.
  intros Hs Hver. pose proof Hs as (Ht & Hv & Hu).
  unfold spec_put_with_version, entry_ok, Redb.put_with_version.
  rewrite get_bind. cbv beta zeta.
  rewrite (redb_versions_lookup s m key Hs).
  destruct (m !! key) as [[ver val]|] eqn:Hk; cbn [fmap option_fmap option_map fst].
  - destruct (Z.ltb_spec version ver), (Z.ltb_spec ver version), (Z.eqb_spec version ver), (Z.eqb_spec ver version);
      try lia; cbn [orb andb]; try done.
    + eexists. split_and!; [reflexivity|by apply redb_write|done].
    + subst ver. rewrite (redb_table_lookup s m key Hs), Hk. cbn [fmap option_fmap option_map unwrap].
      rewrite call_Ok_bind. cbv beta. change (Redb.encode_vv version value) with (row (version, value)).
      destruct (decide (val = value)) as [->|Hne].
      * rewrite bool_decide_true by done. rewrite bool_decide_false by (intros Hc; done).
        exists s. split_and!; [done|by rewrite entry_same|done].
      * rewrite bool_decide_false by done. rewrite bool_decide_true; [done|]. intros Hr. apply Hne.
        apply row_inj in Hr; [congruence|exact Hver|exact Hver].
  - eexists. split_and!; [reflexivity|by apply redb_write|done].
Qed.

(** One entry of a batch whose key was not seen before; [m0] is what the store
    held, [m] what the open transaction holds. *)
Lemma batch_write (m0 m : vmap) (staged : gmap string Z) (key : string) (version : Z) (value : list Z) (b : bool) :
  exists m1 st1,
    @Ok Error _ (<[key := Redb.encode_vv version value]> (row <$> m), <[key := version]> staged, b)
      = Ok (row <$> m1, st1, b) /\
    (forall k, k <> key -> m1 !! k = m !! k /\ st1 !! k = staged !! k) /\
    m1 = <[key := (version, value)]> m /\ st1 ∪ (fst <$> m0) = <[key := version]> (staged ∪ (fst <$> m0)).
Proof.
  exists (<[key := (version, value)]> m), (<[key := version]> staged). split_and!.
  - by rewrite fmap_insert.
  - intros k Hk. by rewrite !lookup_insert_ne.
  - done.
  - by rewrite insert_union_l.
Qed.

Lemma batch_step_one (m0 m : vmap) (staged : gmap string Z) (mismatch : bool) (key : string) (version : Z)
    (value : list Z) :
  u64 version -> m !! key = m0 !! key -> staged !! key = None ->
  exists m1 st1,
    Redb.batch_step (fst <$> m0) (row <$> m, staged, mismatch) (key, (version, value))
      = Ok (row <$> m1, st1, mismatch || negb (entry_ok m0 key version value)) /\
    (forall k, k <> key -> m1 !! k = m !! k /\ st1 !! k = staged !! k) /\
    (entry_ok m0 key version value = true -> m1 = <[key := (version, value)]> m /\
       st1 ∪ (fst <$> m0) = <[key := version]> (staged ∪ (fst <$> m0))).
Proof.
  intros Hver Hmk Hst. unfold Redb.batch_step, entry_ok. rewrite lookup_fmap.
  destruct (m0 !! key) as [[ver val]|] eqn:Hk0; cbn [fmap option_fmap option_map fst].
  - destruct (Z.eqb_spec version ver) as [->|Hne].
    + rewrite lookup_fmap, Hmk. cbn [fmap option_fmap option_map unwrap mbind res_bind].
      rewrite Z.ltb_irrefl, Z.eqb_refl. cbn [orb andb].
      exists m, staged. split_and!; [|done|].
      * do 3 f_equal. rewrite <- bool_decide_not. apply bool_decide_ext. split.
        -- intros Hr ->. by apply Hr.
        -- intros Hvv Hr. apply Hvv. change (row (ver, val) = row (ver, value)) in Hr.
           apply row_inj in Hr; [congruence|exact Hver|exact Hver].
      * intros ->%bool_decide_eq_true. rewrite entry_same by (by rewrite Hmk). split; [done|].
        symmetry. apply insert_id. rewrite lookup_union, Hst, lookup_fmap, Hk0. done.
    + destruct (batch_write m0 m staged key version value (mismatch || (version <? ver))) as (m1 & st1 & He & Ho & Hw).
      exists m1, st1. rewrite He. split_and!; [|done|done]. do 3 f_equal.
      destruct (Z.ltb_spec version ver), (Z.ltb_spec ver version), (Z.eqb_spec ver version); cbn; try done; lia.
  - destruct (batch_write m0 m staged key version value mismatch) as (m1 & st1 & He & Ho & Hw).
    exists m1, st1. rewrite He, orb_false_r. done.
Qed.

(** The loop of a batch over distinct keys. *)
Lemma batch_steps (m0 : vmap) (kvvs : list KVV) :
  NoDup kvvs.*1 -> Forall (fun kvv => u64 kvv.2.1) kvvs ->
  forall m staged mismatch,
  (forall key, key ∈ kvvs.*1 -> m !! key = m0 !! key /\ staged !! key = None) ->
  exists m' staged',
    fold_res (Redb.batch_step (fst <$> m0)) (row <$> m, staged, mismatch) kvvs
      = Ok (row <$> m', staged', mismatch || negb (batch_ok m0 kvvs)) /\
    (batch_ok m0 kvvs = true -> m' = list_to_map kvvs ∪ m /\
       staged' ∪ (fst <$> m0) = (fst <$> (list_to_map kvvs : vmap)) ∪ (staged ∪ (fst <$> m0))).
Proof.
  induction kvvs as [|[key [version value]] kvvs IH]; intros Hn Hl m staged mismatch Hsame.
  { exists m, staged. cbn. rewrite orb_false_r. split; [done|]. intros _.
    by rewrite fmap_empty, !map_empty_union. }
  apply NoDup_cons in Hn as [Hkey Hn]. apply Forall_cons in Hl as [Hver Hl].
  destruct (Hsame key) as [Hmk Hst]; [left|]. cbn [fold_res].
  destruct (batch_step_one m0 m staged mismatch key version value Hver Hmk Hst) as (m1 & st1 & -> & Hoth & Hok).
  cbn [mbind res_bind].
  destruct (IH Hn Hl m1 st1 (mismatch || negb (entry_ok m0 key version value))) as (m' & st' & -> & Hfin).
  { intros k Hk. destruct (Hoth k) as [-> ->]; [by intros ->|]. apply Hsame. by right. }
  exists m', st'. cbn [batch_ok forallb fst snd]. split.
  - do 2 f_equal. unfold batch_ok. by destruct mismatch, (entry_ok m0 key version value), (forallb _ kvvs).
  - intros [Hok1 Hb]%andb_true_iff. destruct (Hok Hok1) as [-> Hst1]. destruct (Hfin Hb) as [-> ->].
    rewrite Hst1. cbn [list_to_map foldr fst snd].
    assert (Hnone : (list_to_map kvvs : vmap) !! key = None) by (by apply not_elem_of_list_to_map_1).
    rewrite <- insert_union_r, insert_union_l by done. split; [done|].
    rewrite fmap_insert, <- insert_union_r, insert_union_l; [done|]. by rewrite lookup_fmap, Hnone.
Qed.

Lemma redb_put_batch (s : RedbKVVStore) (m : vmap) (kvvs : list KVV) :
  redb_holds s m -> NoDup kvvs.*1 -> Forall (fun kvv => u64 kvv.2.1) kvvs ->
  match spec_put_batch m kvvs with
  | Ok m' => exists s', Redb.put_batch kvvs s = (s', Ok tt) /\ redb_holds s' m'
  | Err e => Redb.put_batch kvvs s = (s, Err e)
  | Panic => False
  end.
Proof.
  intros (Ht & Hv & Hu) Hn Hl. unfold spec_put_batch, Redb.put_batch. rewrite get_bind, Ht, Hv.
  destruct (batch_steps m kvvs Hn Hl m ∅ false) as (m' & st' & -> & Hfin); [done|].
  rewrite call_Ok_bind. cbv beta iota zeta. cbn [orb].
  destruct (batch_ok m kvvs) eqn:Hb; cbn [negb]; [|done].
  destruct (Hfin eq_refl) as [-> Hst]. eexists. split; [reflexivity|]. split_and!; cbn [redb_table redb_versions].
  - done.
  - rewrite Hst, map_empty_union. symmetry. apply map_fmap_union.
  - by apply versions_union.
Qed.

Lemma reset_entry_row (m : vmap) (key : string) (vv : VV) :
  m !! key = Some vv -> u64 vv.1 ->
  Redb.reset_entry (row <$> m) key = Ok (row <$> <[key := (0, vv.2)]> m).
Proof.
  intros Hm Hv. unfold Redb.reset_entry. rewrite lookup_fmap, Hm.
  cbn [fmap option_fmap option_map unwrap mbind res_bind]. rewrite decode_row by done. cbn [res_bind].
  by rewrite fmap_insert.
Qed.

(** Resetting walks the keys of the cache. *)
Lemma redb_reset_fold (m0 : vmap) (keys : list string) :
  versions_u64 m0 -> NoDup keys -> (forall k, k ∈ keys -> is_Some (m0 !! k)) ->
  forall m : vmap, (forall k, k ∈ keys -> m !! k = m0 !! k) ->
  exists m' : vmap, fold_res Redb.reset_entry (row <$> m) keys = Ok (row <$> m') /\
    forall k, m' !! k = if decide (k ∈ keys) then (fun vv => (0, vv.2)) <$> m !! k else m !! k.
Proof.
  intros Hu. induction keys as [|key keys IH]; intros Hn Hin m Hsame.
  { exists m. split; [done|]. intros k. by rewrite decide_False by apply not_elem_of_nil. }
  apply NoDup_cons in Hn as [Hkey Hn]. destruct (Hin key) as [vv Hvv]; [left|]. cbn [fold_res].
  assert (Hmk : m !! key = Some vv) by (rewrite Hsame; [done|left]).
  rewrite (reset_entry_row m key vv Hmk (Hu key vv Hvv)).
  cbn [mbind res_bind].
  destruct (IH Hn) with (m := <[key := (0, vv.2)]> m) as (m' & Hf & Hm').
  { intros k Hk. apply Hin. by right. }
  { intros k Hk. rewrite lookup_insert_ne by (by intros ->). apply Hsame. by right. }
  exists m'. split; [exact Hf|]. intros k. rewrite Hm'.
  destruct (decide (k = key)) as [->|Hne].
  - rewrite (decide_False (P:=key ∈ keys)) by done. rewrite decide_True by left.
    rewrite lookup_insert_eq, (Hsame key), Hvv by left. done.
  - rewrite lookup_insert_ne by done. destruct (decide (k ∈ keys)) as [Hk|Hk].
    + rewrite decide_True by (by right). done.
    + rewrite decide_False; [done|]. intros [->|?]%elem_of_cons; done.
Qed.

Lemma redb_reset (s : RedbKVVStore) (m : vmap) :
  redb_holds s m -> exists s', Redb.reset_versions s = (s', Ok tt) /\ redb_holds s' (spec_reset m).
Proof.
  intros (Ht & Hv & Hu). unfold Redb.reset_versions. rewrite get_bind, Ht.
  assert (Hkeys : forall k, k ∈ (btree_iter s.(redb_versions)).*1 <-> is_Some (m !! k)).
  { intros k. rewrite btree_iter_keys, vec_sort_perm, elem_of_elements, Hv, dom_fmap. apply elem_of_dom. }
  destruct (redb_reset_fold m (btree_iter s.(redb_versions)).*1 Hu (btree_iter_NoDup _)) with (m := m)
    as (m' & -> & Hm'); [by intros; apply Hkeys|done|].
  rewrite call_Ok_bind. cbv beta. eexists. split; [reflexivity|].
  assert (m' = spec_reset m) as ->.
  { apply map_eq. intros k. rewrite Hm'. unfold spec_reset. rewrite lookup_fmap.
    destruct (decide (k ∈ _)) as [Hk|Hk]; [done|]. destruct (m !! k) eqn:Hmk; [|done].
    exfalso. apply Hk, Hkeys. by rewrite Hmk. }
  split_and!; cbn [redb_table redb_versions]; [done| |apply versions_reset].
  rewrite Hv. unfold spec_reset. rewrite <- !map_fmap_compose. apply map_fmap_ext. done.
Qed.

Lemma redb_get_prefix (s : RedbKVVStore) (m : vmap) (prefix : string) :
  redb_holds s m -> Redb.get_prefix s prefix = Ok (prefix_entries m prefix).
Proof.
  intros (Ht & _ & Hu). unfold Redb.get_prefix. rewrite Ht, !prefix_entries_filter.
  rewrite btree_iter_fmap. assert (Hin : forall kv, kv ∈ btree_iter m -> u64 kv.2.1).
  { intros [k vv] Hkv. apply btree_iter_elem in Hkv. exact (Hu k vv Hkv). }
  induction (btree_iter m) as [|[k vv] l IH]; [done|]. rewrite fmap_cons. cbn [fst snd].
  destruct (starts_with prefix k) eqn:Hk.
  - rewrite !filter_cons_True by done. cbn [map_res]. rewrite decode_row by (apply (Hin (k, vv)); left).
    cbn [mbind res_bind]. rewrite IH; [done|]. intros kv Hkv. apply Hin. by right.
  - rewrite !filter_cons_False by (cbn [fst]; by rewrite Hk). apply IH. intros kv Hkv. apply Hin. by right.
Qed.

#[export] Program Instance RedbKVVStore_laws : KVVLaws RedbKVVStore := {|
  kv_inv := redb_inv;
  kv_view := redb_view
|}.
Next Obligation. by intros s (_ & _ & Hu). Qed.
Next Obligation.
  intros s key Hs. cbn [kv_get RedbKVVStore_kvv]. unfold Redb.get. rewrite (redb_table_lookup s _ key Hs).
  destruct (redb_view s !! key) as [vv|] eqn:Hk; [|done]. cbn [fmap option_fmap option_map].
  destruct Hs as (_ & _ & Hu). by rewrite decode_row by exact (Hu key vv Hk).
Qed.
Next Obligation.
  intros s key Hs. cbn [kv_get_version RedbKVVStore_kvv]. unfold Redb.get_version.
  by rewrite (redb_versions_lookup s _ key Hs).
Qed.
Next Obligation. intros s prefix Hs. by apply redb_get_prefix. Qed.
Next Obligation.
  intros s key version value Hs Hv. pose proof (redb_put_with_version s _ key version value Hs Hv) as Hp.
  cbn [kv_put_with_version RedbKVVStore_kvv]. unfold refines.
  destruct (spec_put_with_version _ _ _ _) as [m'|e|]; [|by rewrite Hp|done].
  destruct Hp as (s' & -> & Hs' & _). split; [by eapply redb_holds_inv|]. split; [done|by apply redb_holds_view].
Qed.
Next Obligation.
  intros s kvvs Hs Hn Hl. pose proof (redb_put_batch s _ kvvs Hs Hn Hl) as Hp.
  cbn [kv_put_batch RedbKVVStore_kvv]. unfold refines.
  destruct (spec_put_batch _ _) as [m'|e|]; [|by rewrite Hp|done].
  destruct Hp as (s' & -> & Hs'). split; [by eapply redb_holds_inv|]. split; [done|by apply redb_holds_view].
Qed.
Next Obligation.
  intros s Hs. destruct (redb_reset s _ Hs) as (s' & Hr & Hs'). cbn [kv_reset_versions RedbKVVStore_kvv].
  unfold refines. rewrite Hr. split; [by eapply redb_holds_inv|]. split; [done|by apply redb_holds_view].
Qed.
Next Obligation.
  intros s key value Hs. cbn [kv_put kv_put_with_version RedbKVVStore_kvv]. unfold Redb.put.
  by rewrite get_bind, (redb_versions_lookup s _ key Hs).
Qed.
Next Obligation. done. Qed.
End RedbLaws.
