(* ===== verification/KvvTx.v ===== *)
(** * Transactional stores: [vls-persist/src/kvv/transactional.rs] and [kvv/cloud.rs]

    Two stores that wrap another one and keep a commit log between [enter] and
    [commit].  The transactional store checks a write against the log and the
    wrapped store together, the cloud store against the wrapped store alone. *)
From S2P Require Import Prelude Ordered Types BTree Kvv.

(** [commit_log: Mutex<Option<BTreeMap<String, (u64, Vec<u8>)>>>]. *)
Abbreviation commit_log := (option (gmap string (Z * list Z))) (only parsing).

(** [result.insert(key.clone(), version_value.clone())] for the keys of the log
    with the prefix, over what the wrapped store has. *)
Definition merge_prefix (log : commit_log) (prefix : string) (found : list KVV) : list KVV :=
  let result : gmap string (Z * list Z) := list_to_map found in
  btree_iter (match log with
              | Some log => filter (fun kv => starts_with prefix kv.1 = true) log ∪ result
              | None => result
              end).

(** ** [TransactionalKVVStore] *)
Record TransactionalKVVStore (L : Type) := mkTx { tx_inner : L; tx_commit_log : commit_log }.

Arguments mkTx {L}.
Arguments tx_inner {L}.
Arguments tx_commit_log {L}.

Module Tx.
Section Tx.
Context {L : Type} `{Profile} `{KVVStore L}.
Implicit Types (self : TransactionalKVVStore L).

Definition new (inner : L) : TransactionalKVVStore L := mkTx inner None.

(** A call of the wrapped store. *)
Definition inner {A : Type} (m : method L Error A) : method (TransactionalKVVStore L) Error A := fun self =>
  let '(l, r) := m self.(tx_inner) in (mkTx l self.(tx_commit_log), r).

Definition set_log (log : commit_log) : method (TransactionalKVVStore L) Error unit := fun self =>
  (mkTx self.(tx_inner) log, Ok tt).

Definition do_get_version self (log : gmap string (Z * list Z)) (key : string) : res Error (option Z) :=
  match log !! key with
  | Some (version, _) => Ok (Some version)
  | None => kv_get_version self.(tx_inner) key
  end.

Definition do_get self (log : gmap string (Z * list Z)) (key : string) : res Error (option VV) :=
  match log !! key with
  | Some vv => Ok (Some vv)
  | None => kv_get self.(tx_inner) key
  end.

Definition put_with_version (key : string) (version : Z) (value : list Z)
  : method (TransactionalKVVStore L) Error unit :=
  self ← get_self;
  match self.(tx_commit_log) with
  | None => inner (kv_put_with_version key version value)
  | Some log =>
      existing ← call (do_get self log key);
      match existing with
      | Some (existing_version, existing_value) =>
          if version <? existing_version then call (Err VersionMismatch)
          else if version =? existing_version then
            if bool_decide (existing_value <> value) then call (Err VersionMismatch) else mret tt
          else set_log (Some (<[key := (version, value)]> log))
      | None => set_log (Some (<[key := (version, value)]> log))
      end
  end.

Definition get_version self (key : string) : res Error (option Z) :=
  match self.(tx_commit_log) with
  | Some log => do_get_version self log key
  | None => kv_get_version self.(tx_inner) key
  end.

Definition get self (key : string) : res Error (option VV) :=
  match self.(tx_commit_log) with
  | Some log => do_get self log key
  | None => kv_get self.(tx_inner) key
  end.

Definition put (key : string) (value : list Z) : method (TransactionalKVVStore L) Error unit :=
  self ← get_self;
  existing ← call (get_version self key);
  version ← call (next_version existing);
  put_with_version key version value.

(** In a transaction the entries are put one by one, up to the first error. *)
Fixpoint put_each (kvvs : list KVV) : method (TransactionalKVVStore L) Error unit :=
  match kvvs with
  | [] => mret tt
  | (key, (version, value)) :: kvvs' => put_with_version key version value ;; put_each kvvs'
  end.

Definition put_batch (kvvs : list KVV) : method (TransactionalKVVStore L) Error unit :=
  self ← get_self;
  match self.(tx_commit_log) with
  | None => inner (kv_put_batch kvvs)
  | Some _ => put_each kvvs
  end.

Definition get_prefix self (prefix : string) : res Error (list KVV) :=
  found ← kv_get_prefix self.(tx_inner) prefix;
  Ok (merge_prefix self.(tx_commit_log) prefix found).

Definition delete (key : string) : method (TransactionalKVVStore L) Error unit := put key [].

Definition clear_database : method (TransactionalKVVStore L) Error unit :=
  self ← get_self;
  call (match self.(tx_commit_log) with
        | Some log => rassert (bool_decide (log = ∅))
        | None => Ok tt
        end) ;;
  inner kv_clear_database.

Definition enter : method (TransactionalKVVStore L) Error unit :=
  self ← get_self;
  call (rassert (bool_decide (self.(tx_commit_log) = None))) ;;
  set_log (Some ∅).

Definition prepare : method (TransactionalKVVStore L) Error Mutations :=
  self ← get_self;
  mret (match self.(tx_commit_log) with Some log => btree_iter log | None => [] end).

(** The log is taken before the wrapped store is written. *)
Definition commit : method (TransactionalKVVStore L) Error unit :=
  self ← get_self;
  match self.(tx_commit_log) with
  | None => mret tt
  | Some log =>
      set_log None ;;
      if bool_decide (log = ∅) then mret tt else inner (kv_put_batch (btree_iter log))
  end.

Definition put_batch_unlogged (kvvs : list KVV) : method (TransactionalKVVStore L) Error unit :=
  self ← get_self;
  call (rassert (bool_decide (self.(tx_commit_log) = None))) ;;
  inner (kv_put_batch kvvs).

Definition reset_versions : method (TransactionalKVVStore L) Error unit :=
  self ← get_self;
  call (rassert (bool_decide (self.(tx_commit_log) = None))) ;;
  inner kv_reset_versions.

Definition signer_id self : list Z := kv_signer_id self.(tx_inner).
End Tx.
End Tx.

#[export] Instance TransactionalKVVStore_kvv {L : Type} `{Profile} `{KVVStore L}
  : KVVStore (TransactionalKVVStore L) := {|
  kv_put := Tx.put;
  kv_put_with_version := Tx.put_with_version;
  kv_put_batch := Tx.put_batch;
  kv_get := Tx.get;
  kv_get_version := Tx.get_version;
  kv_get_prefix := Tx.get_prefix;
  kv_delete := Tx.delete;
  kv_clear_database := Tx.clear_database;
  kv_enter := Tx.enter;
  kv_prepare := Tx.prepare;
  kv_commit := Tx.commit;
  kv_put_batch_unlogged := Tx.put_batch_unlogged;
  kv_reset_versions := Tx.reset_versions;
  kv_signer_id := Tx.signer_id
|}.

(** ** [CloudKVVStore] *)
Record CloudKVVStore (L : Type) := mkCloud { local : L; cloud_commit_log : commit_log }.

Arguments mkCloud {L}.
Arguments local {L}.
Arguments cloud_commit_log {L}.

Definition LAST_WRITER_KEY : string := "_WRITER".

Module Cloud.
Section Cloud.
Context {L : Type} `{Profile} `{KVVStore L}.
Implicit Types (self : CloudKVVStore L).

Definition new (local : L) : CloudKVVStore L := mkCloud local None.

Definition get_local self (key : string) : res Error (option VV) := kv_get self.(local) key.

Definition on_local {A : Type} (m : method L Error A) : method (CloudKVVStore L) Error A := fun self =>
  let '(l, r) := m self.(local) in (mkCloud l self.(cloud_commit_log), r).

Definition set_log (log : commit_log) : method (CloudKVVStore L) Error unit := fun self =>
  (mkCloud self.(local) log, Ok tt).

Definition do_get_version self (log : gmap string (Z * list Z)) (key : string) : res Error (option Z) :=
  match log !! key with
  | Some (v, _) => Ok (Some v)
  | None => kv_get_version self.(local) key
  end.

Definition do_get self (log : gmap string (Z * list Z)) (key : string) : res Error (option VV) :=
  match log !! key with
  | Some vv => Ok (Some vv)
  | None => kv_get self.(local) key
  end.

Definition is_in_sync self (version_value : option VV) : bool :=
  match kv_get self.(local) LAST_WRITER_KEY with
  | Ok vv => bool_decide (version_value = vv)
  | _ => false
  end.

(** The version is checked against the local store, not against the log. *)
Definition put_with_version (key : string) (version : Z) (value : list Z)
  : method (CloudKVVStore L) Error unit :=
  self ← get_self;
  log ← call (unwrap self.(cloud_commit_log));
  existing_version ← call (kv_get_version self.(local) key);
  match existing_version with
  | Some v =>
      if version <? v then call (Err VersionMismatch)
      else if version =? v then
        got ← call (kv_get self.(local) key);
        existing ← call (unwrap got);
        if bool_decide (existing.2 <> value) then call (Err VersionMismatch) else mret tt
      else set_log (Some (<[key := (version, value)]> log))
  | None => set_log (Some (<[key := (version, value)]> log))
  end.

Definition put (key : string) (value : list Z) : method (CloudKVVStore L) Error unit :=
  self ← get_self;
  existing ← call (kv_get_version self.(local) key);
  version ← call (next_version existing);
  put_with_version key version value.

Fixpoint put_batch (kvvs : list KVV) : method (CloudKVVStore L) Error unit :=
  match kvvs with
  | [] => mret tt
  | (key, (version, value)) :: kvvs' => put_with_version key version value ;; put_batch kvvs'
  end.

Definition get self (key : string) : res Error (option VV) :=
  log ← unwrap self.(cloud_commit_log);
  do_get self log key.

Definition get_version self (key : string) : res Error (option Z) :=
  log ← unwrap self.(cloud_commit_log);
  do_get_version self log key.

Definition get_prefix self (prefix : string) : res Error (list KVV) :=
  found ← kv_get_prefix self.(local) prefix;
  Ok (merge_prefix self.(cloud_commit_log) prefix found).

Definition delete (key : string) : method (CloudKVVStore L) Error unit := put key [].

Definition clear_database : method (CloudKVVStore L) Error unit :=
  self ← get_self;
  log ← call (unwrap self.(cloud_commit_log));
  call (rassert (bool_decide (log = ∅))) ;;
  on_local kv_clear_database.

Definition signer_id self : list Z := kv_signer_id self.(local).

(** A transaction starts with the record of its writer. *)
Definition enter : method (CloudKVVStore L) Error unit :=
  self ← get_self;
  last_writer ← call (kv_get self.(local) LAST_WRITER_KEY);
  next_writer_version ← call (next_version (fst <$> last_writer));
  call (rassert (bool_decide (self.(cloud_commit_log) = None))) ;;
  set_log (Some {[ LAST_WRITER_KEY := (next_writer_version, signer_id self) ]}).

Definition prepare : method (CloudKVVStore L) Error Mutations :=
  self ← get_self;
  log ← call (unwrap self.(cloud_commit_log));
  match btree_iter log with
  | [(key, _)] =>
      call (rassert (bool_decide (key = LAST_WRITER_KEY))) ;;
      set_log (Some ∅) ;;
      mret []
  | mutations => mret mutations
  end.

Definition commit : method (CloudKVVStore L) Error unit :=
  self ← get_self;
  log ← call (unwrap self.(cloud_commit_log));
  set_log None ;;
  on_local (kv_put_batch (btree_iter log)).

Definition put_batch_unlogged (kvvs : list KVV) : method (CloudKVVStore L) Error unit :=
  self ← get_self;
  call (rassert (bool_decide (self.(cloud_commit_log) = None))) ;;
  on_local (kv_put_batch kvvs).

Definition reset_versions : method (CloudKVVStore L) Error unit :=
  self ← get_self;
  match kv_get self.(local) LAST_WRITER_KEY with
  | Ok None => on_local kv_reset_versions
  | _ => call Panic
  end.
End Cloud.
End Cloud.

#[export] Instance CloudKVVStore_kvv {L : Type} `{Profile} `{KVVStore L} : KVVStore (CloudKVVStore L) := {|
  kv_put := Cloud.put;
  kv_put_with_version := Cloud.put_with_version;
  kv_put_batch := Cloud.put_batch;
  kv_get := Cloud.get;
  kv_get_version := Cloud.get_version;
  kv_get_prefix := Cloud.get_prefix;
  kv_delete := Cloud.delete;
  kv_clear_database := Cloud.clear_database;
  kv_enter := Cloud.enter;
  kv_prepare := Cloud.prepare;
  kv_commit := Cloud.commit;
  kv_put_batch_unlogged := Cloud.put_batch_unlogged;
  kv_reset_versions := Cloud.reset_versions;
  kv_signer_id := Cloud.signer_id
|}.
