(* ===== verification/KvvSafety.v ===== *)
(** * What the stores guarantee

    Programs over a store are lists of operations.  A store with the laws of
    [KvvSpec] runs every program as the finite map does; the redb store
    therefore runs as the memory store, a transaction commits as a whole, and a
    cloud replica that applies the prepared mutations holds what the local store
    holds. *)
From S2P Require Import Prelude Ordered Types BTree Kvv KvvSpec KvvTx.

(** ** Programs *)
Inductive kv_op :=
  | OpPut (key : string) (value : list Z)
  | OpPutWithVersion (key : string) (version : Z) (value : list Z)
  | OpDelete (key : string)
  | OpPutBatch (kvvs : list KVV)
  | OpGet (key : string)
  | OpGetVersion (key : string)
  | OpGetPrefix (prefix : string)
  | OpResetVersions.

Inductive kv_out := OutUnit | OutEntry (vv : option VV) | OutVersion (v : option Z) | OutEntries (l : list KVV).

(** The arguments a program may use: 64-bit versions, and a batch with one entry
    for a key. *)
Definition op_ok (op : kv_op) : Prop :=
  match op with
  | OpPutWithVersion _ version _ => u64 version
  | OpPutBatch kvvs => NoDup kvvs.*1 /\ Forall (fun kvv => u64 kvv.2.1) kvvs
  | _ => True
  end.

Definition done_unit {S : Type} (m : method S Error unit) : method S Error kv_out := m ;; mret OutUnit.

Section Programs.
Context {S : Type} `{Profile} `{KVVStore S}.

Definition run_op (op : kv_op) : method S Error kv_out :=
  match op with
  | OpPut key value => done_unit (kv_put key value)
  | OpPutWithVersion key version value => done_unit (kv_put_with_version key version value)
  | OpDelete key => done_unit (kv_delete key)
  | OpPutBatch kvvs => done_unit (kv_put_batch kvvs)
  | OpGet key => s ← get_self; vv ← call (kv_get s key); mret (OutEntry vv)
  | OpGetVersion key => s ← get_self; v ← call (kv_get_version s key); mret (OutVersion v)
  | OpGetPrefix prefix => s ← get_self; l ← call (kv_get_prefix s prefix); mret (OutEntries l)
  | OpResetVersions => done_unit kv_reset_versions
  end.

(** An error is an answer; a panic ends the program. *)
Fixpoint run_ops (ops : list kv_op) (s : S) : S * list (res Error kv_out) :=
  match ops with
  | [] => (s, [])
  | op :: ops' =>
      let '(s1, r) := run_op op s in
      match r with
      | Panic => (s1, [Panic])
      | _ => let '(s2, rs) := run_ops ops' s1 in (s2, r :: rs)
      end
  end.
End Programs.

(** ** The same programs on a finite map *)
Section SpecPrograms.
Context `{Profile}.

Definition spec_write (m : vmap) (r : res Error vmap) : vmap * res Error kv_out :=
  match r with Ok m' => (m', Ok OutUnit) | Err e => (m, Err e) | Panic => (m, Panic) end.

Definition spec_put (m : vmap) (key : string) (value : list Z) : res Error vmap :=
  version ← next_version (fst <$> m !! key);
  spec_put_with_version m key version value.

Definition spec_op (op : kv_op) (m : vmap) : vmap * res Error kv_out :=
  match op with
  | OpPut key value => spec_write m (spec_put m key value)
  | OpPutWithVersion key version value => spec_write m (spec_put_with_version m key version value)
  | OpDelete key => spec_write m (spec_put m key [])
  | OpPutBatch kvvs => spec_write m (spec_put_batch m kvvs)
  | OpGet key => (m, Ok (OutEntry (m !! key)))
  | OpGetVersion key => (m, Ok (OutVersion (fst <$> m !! key)))
  | OpGetPrefix prefix => (m, Ok (OutEntries (prefix_entries m prefix)))
  | OpResetVersions => (spec_reset m, Ok OutUnit)
  end.

Fixpoint spec_ops (ops : list kv_op) (m : vmap) : vmap * list (res Error kv_out) :=
  match ops with
  | [] => (m, [])
  | op :: ops' =>
      let '(m1, r) := spec_op op m in
      match r with
      | Panic => (m1, [Panic])
      | _ => let '(m2, rs) := spec_ops ops' m1 in (m2, r :: rs)
      end
  end.

Lemma next_version_u64 (existing : option Z) (v : Z) :
  next_version existing = Ok v -> u64 v.
Proof. destruct existing as [e|]; cbn; [apply add_u64_uint|intros [= <-]; done]. Qed.
End SpecPrograms.

(** ** A lawful store runs programs as the map does *)
Section Lawful.
Context {S : Type} `{KVVLaws S}.

Lemma done_unit_out (m : method S Error unit) (s : S) :
  done_unit m s = ((m s).1, match (m s).2 with Ok _ => Ok OutUnit | Err e => Err e | Panic => Panic end).
Proof. unfold done_unit, mbind, method_bind. destruct (m s) as [s' [[]|e|]]; done. Qed.

Lemma refines_write (s : S) (m : method S Error unit) (spec : res Error vmap) :
  refines kv_inv kv_view s (m s) spec ->
  kv_inv (done_unit m s).1 /\ (kv_view (done_unit m s).1, (done_unit m s).2) = spec_write (kv_view s) spec.
Proof.
  rewrite done_unit_out. intros [Hi Hr]. split; [done|]. cbn [fst snd].
  destruct spec; [destruct Hr as [-> ->]..|]; done.
Qed.

Lemma refines_put (s : S) (key : string) (value : list Z) :
  kv_inv s ->
  kv_inv (done_unit (kv_put key value) s).1 /\
  (kv_view (done_unit (kv_put key value) s).1, (done_unit (kv_put key value) s).2)
    = spec_write (kv_view s) (spec_put (kv_view s) key value).
Proof.
  intros Hs. rewrite done_unit_out, kv_put_spec by done. unfold spec_put.
  destruct (next_version _) as [v|e|] eqn:Hv; [|done..]. cbn [mbind res_bind]. rewrite call_Ok_bind.
  pose proof (refines_write s _ _ (kv_put_with_version_spec s key v value Hs (next_version_u64 _ v Hv))) as Hr.
  by rewrite done_unit_out in Hr.
Qed.

Lemma lawful_op (op : kv_op) (s : S) :
  kv_inv s -> op_ok op ->
  kv_inv (run_op op s).1 /\ (kv_view (run_op op s).1, (run_op op s).2) = spec_op op (kv_view s).
Proof.
  intros Hs Hop. destruct op as [k v|k ver v|k|l|k|k|p|]; cbn [run_op spec_op op_ok] in *.
  - by apply refines_put.
  - apply refines_write. by apply kv_put_with_version_spec.
  - rewrite done_unit_out, kv_delete_spec, <- done_unit_out. by apply refines_put.
  - destruct Hop. apply refines_write. by apply kv_put_batch_spec.
  - rewrite get_bind, kv_get_spec by done. done.
  - rewrite get_bind, kv_get_version_spec by done. done.
  - rewrite get_bind, kv_get_prefix_spec by done. done.
  - exact (refines_write s _ _ (kv_reset_versions_spec s Hs)).
Qed.

Lemma lawful_ops (ops : list kv_op) (s : S) :
  kv_inv s -> Forall op_ok ops ->
  kv_inv (run_ops ops s).1 /\ (kv_view (run_ops ops s).1, (run_ops ops s).2) = spec_ops ops (kv_view s).
Proof.
  revert s. induction ops as [|op ops IH]; intros s Hs Hops; [done|].
  apply Forall_cons in Hops as [Hop Hops]. destruct (lawful_op op s Hs Hop) as [Hs1 Hv1].
  cbn [run_ops spec_ops]. destruct (run_op op s) as [s1 r]. cbn [fst snd] in *. rewrite <- Hv1.
  destruct (IH s1 Hs1 Hops) as [Hs2 Hv2]. rewrite <- Hv2.
  destruct (run_ops ops s1) as [s2 rs]. by destruct r.
Qed.
End Lawful.

(** ** Versions *)

(** Every key of [m] is in [m'] with a version at least as high, and an unchanged
    version has its value unchanged. *)
Definition grows (m m' : vmap) : Prop :=
  forall key vv, m !! key = Some vv ->
  exists vv', m' !! key = Some vv' /\ vv.1 <= vv'.1 /\ (vv'.1 = vv.1 -> vv' = vv).

#[export] Instance grows_preorder : PreOrder grows.
Proof.
  split; [intros m key vv Hk; eauto with lia|].
  intros m1 m2 m3 H12 H23 key vv Hk. destruct (H12 key vv Hk) as (vv2 & Hk2 & Hle2 & Heq2).
  destruct (H23 key vv2 Hk2) as (vv3 & Hk3 & Hle3 & Heq3). exists vv3. split_and!; [done|lia|].
  intros Heq. rewrite Heq3 by lia. apply Heq2. lia.
Qed.

Lemma entry_ok_spec (m : vmap) (key : string) (version : Z) (value : list Z) (vv : VV) :
  entry_ok m key version value = true -> m !! key = Some vv ->
  vv.1 <= version /\ (version = vv.1 -> (version, value) = vv).
Proof.
  unfold entry_ok. intros Ho Hk. rewrite Hk in Ho. destruct vv as [ver val]. cbn [fst].
  apply orb_true_iff in Ho as [Hlt|[Hv Hb]%andb_true_iff]; [lia|]. apply bool_decide_eq_true in Hb as ->.
  split; [lia|]. by intros ->.
Qed.

Lemma grows_insert (m : vmap) (key : string) (version : Z) (value : list Z) :
  entry_ok m key version value = true -> grows m (<[key := (version, value)]> m).
Proof.
  intros Ho k vv Hk. destruct (decide (k = key)) as [->|Hne].
  - exists (version, value). rewrite lookup_insert_eq. split; [done|]. by eapply entry_ok_spec.
  - exists vv. rewrite lookup_insert_ne by done. eauto with lia.
Qed.

Lemma batch_ok_elem (m : vmap) (kvvs : list KVV) (key : string) (vv : VV) :
  batch_ok m kvvs = true -> (key, vv) ∈ kvvs -> entry_ok m key vv.1 vv.2 = true.
Proof.
  unfold batch_ok. rewrite forallb_forall. intros Hb Hin. apply (Hb (key, vv)). by apply list_elem_of_In.
Qed.

Lemma grows_batch (m : vmap) (kvvs : list KVV) :
  batch_ok m kvvs = true -> grows m (list_to_map kvvs ∪ m).
Proof.
  intros Hb k vv Hk. destruct ((list_to_map kvvs : vmap) !! k) as [[ver val]|] eqn:Hl.
  - exists (ver, val). rewrite (lookup_union_Some_l _ _ _ _ Hl). split; [done|].
    apply elem_of_list_to_map_2 in Hl. eapply entry_ok_spec; [|done]. by apply (batch_ok_elem _ _ _ _ Hb) in Hl.
  - exists vv. rewrite lookup_union_r by done. eauto with lia.
Qed.

Definition no_reset (op : kv_op) : bool := match op with OpResetVersions => false | _ => true end.

Section Grows.
Context `{Profile}.

Lemma grows_write (m : vmap) (key : string) (version : Z) (value : list Z) :
  grows m (spec_write m (spec_put_with_version m key version value)).1.
Proof.
  unfold spec_put_with_version. destruct (entry_ok m key version value) eqn:Ho; [by apply grows_insert|done].
Qed.

Lemma grows_put (m : vmap) (key : string) (value : list Z) : grows m (spec_write m (spec_put m key value)).1.
Proof. unfold spec_put. destruct (next_version _); [apply grows_write|done..]. Qed.

Lemma grows_op (op : kv_op) (m : vmap) : no_reset op = true -> grows m (spec_op op m).1.
Proof.
  intros Hop. destruct op; cbn [spec_op]; auto using grows_put, grows_write; try done.
  unfold spec_put_batch. destruct (batch_ok m kvvs) eqn:Hb; [by apply grows_batch|done].
Qed.

Lemma grows_ops (ops : list kv_op) (m : vmap) :
  Forall (fun op => no_reset op = true) ops -> grows m (spec_ops ops m).1.
Proof.
  revert m. induction ops as [|op ops IH]; intros m Hops; [done|]. apply Forall_cons in Hops as [Hop Hops].
  cbn [spec_ops]. pose proof (grows_op op m Hop) as Hm. destruct (spec_op op m) as [m1 r]. cbn [fst] in Hm.
  specialize (IH m1 Hops). destruct (spec_ops ops m1) as [m2 rs]. destruct r; cbn [fst] in *; [by etrans..|done].
Qed.
End Grows.

(** ** Reopening the redb database *)
Lemma new_store_fold (l : list KVV) (versions : gmap string Z) :
  NoDup l.*1 -> Forall (fun kv => u64 kv.2.1) l ->
  fold_res (fun (versions : gmap string Z) '(key, vv) =>
      decoded ← Redb.decode_vv vv; @Ok Error _ (<[key := decoded.1]> versions))
    versions ((fun kv => (kv.1, row kv.2)) <$> l)
  = Ok (list_to_map ((fun kv => (kv.1, kv.2.1)) <$> l) ∪ versions).
Proof.
  revert versions. induction l as [|[k vv] l IH]; intros versions Hn Hl.
  { cbn. by rewrite map_empty_union. }
  apply NoDup_cons in Hn as [Hk Hn]. apply Forall_cons in Hl as [Hv Hl]. cbn [fmap list_fmap fold_res fst snd].
  rewrite decode_row by done. cbn [mbind res_bind]. etrans; [by apply IH|]. f_equal. cbn [list_to_map foldr fst snd].
  rewrite <- insert_union_r, insert_union_l; [done|]. apply not_elem_of_list_to_map_1.
  by rewrite <- list_fmap_compose.
Qed.

Lemma new_store_holds (s : RedbKVVStore) (m : vmap) :
  redb_holds s m -> Redb.new_store s.(redb_table) s.(redb_signer_id) = Ok s.
Proof.
  intros (Ht & Hv & Hu). unfold Redb.new_store. rewrite Ht, btree_iter_fmap.
  rewrite new_store_fold; [|apply btree_iter_NoDup|].
  - assert (list_to_map ((fun kv => (kv.1, kv.2.1)) <$> btree_iter m) = fst <$> m) as ->
      by (etrans; [exact (list_to_map_fmap fst _)|by rewrite list_to_map_btree_iter]).
    cbn [mbind res_bind]. rewrite map_union_empty, <- Hv, <- Ht. by destruct s.
  - apply Forall_forall. intros [k vv] Hkv. apply btree_iter_elem in Hkv. exact (Hu k vv Hkv).
Qed.

Lemma redb_empty_inv (signer_id : list Z) : redb_inv (mkRedb ∅ ∅ signer_id).
Proof.
  apply (redb_holds_inv _ ∅). split_and!; cbn [redb_table redb_versions]; [by rewrite fmap_empty..|apply map_Forall_empty].
Qed.

Section StoreTheorems.
Context `{Profile}.

(** C14: On any sequence of puts, versioned puts, deletes, batches, lookups, prefix
    scans and version resets, the redb store gives the answers, errors included,
    that the memory store gives, holds the same entries at the end, and reopening
    its database gives back the store with its cached versions. *)
Theorem redb_runs_as_memory (ops : list kv_op) (signer_id : list Z) :
  Forall op_ok ops ->
  let redb := run_ops ops (mkRedb ∅ ∅ signer_id) in
  let memory := run_ops ops (Memory.new signer_id) in
  redb.2 = memory.2 /\ redb_view redb.1 = memory.1.(mem_data) /\
  Redb.new_store redb.1.(redb_table) redb.1.(redb_signer_id) = Ok redb.1.
Proof.
  intros Hops. cbv zeta. destruct (lawful_ops ops (mkRedb ∅ ∅ signer_id)) as [Hi Hr]; [apply redb_empty_inv|done|].
  destruct (lawful_ops ops (Memory.new signer_id)) as [_ Hm]; [apply map_Forall_empty|done|].
  cbn [kv_view RedbKVVStore_laws MemoryKVVStore_laws Memory.new mem_data] in Hr, Hm.
  assert (He : redb_view (mkRedb ∅ ∅ signer_id) = ∅) by apply fmap_empty.
  rewrite He in Hr. rewrite <- Hm in Hr. inversion Hr as [[Hv Ho]]. split_and!; [done|done|].
  exact (new_store_holds _ _ Hi).
Qed.

(** In every store that keeps the contract, no sequence of operations other
    than a version reset loses a key, lowers its version, or changes a value under
    an unchanged version. *)
Theorem versions_only_grow {S : Type} `{!KVVStore S} `{!KVVLaws S} (ops : list kv_op) (s : S) :
  kv_inv s -> Forall op_ok ops -> Forall (fun op => no_reset op = true) ops ->
  grows (kv_view s) (kv_view (run_ops ops s).1).
Proof.
  intros Hs Hops Hn. destruct (lawful_ops ops s Hs Hops) as [_ Hr].
  pose proof (grows_ops ops (kv_view s) Hn) as Hg. by rewrite <- Hr in Hg.
Qed.
End StoreTheorems.

Section StoreWitnesses.
#[local] Existing Instance debug_profile.

Lemma redb_runs_as_memory_witness :
  let ops := [OpPut "channel/01" [7; 8]; OpPutWithVersion "channel/01" 0 [9]; OpPut "channel/02" [5];
              OpPutBatch [("channel/01", (4, [1])); ("node", (0, []))]; OpDelete "channel/02";
              OpGetPrefix "channel/"; OpResetVersions; OpGet "channel/02"] in
  (run_ops ops (mkRedb ∅ ∅ [1; 2])).2
    = [Ok OutUnit; Err VersionMismatch; Ok OutUnit; Ok OutUnit; Ok OutUnit;
       Ok (OutEntries [("channel/01", (4, [1])); ("channel/02", (1, []))]); Ok OutUnit;
       Ok (OutEntry (Some (0, [])))].
Proof.
  intros ops. assert (Hops : Forall op_ok ops)
    by (repeat constructor; first [done|unfold uint; cbn; lia|by apply (bool_decide_unpack _)]).
  destruct (redb_runs_as_memory ops [1; 2] Hops) as [-> _].
  vm_compute. reflexivity.
Defined.

Lemma versions_only_grow_witness :
  let s := mkMemory {[ "node" := (3, [1]) ]} [0] in
  grows (kv_view s) (kv_view (run_ops [OpPut "node" [2]; OpPutWithVersion "node" 2 [3]; OpDelete "node"] s).1).
Proof.
  intros s. apply (versions_only_grow _ s).
  - apply map_Forall_singleton. done.
  - repeat constructor; unfold uint; cbn; lia.
  - repeat constructor.
Defined.
End StoreWitnesses.

(** ** Clearing the redb database *)
Section Clear.
Context `{Profile}.

Lemma reset_missing (keys : list string) : keys <> [] -> fold_res Redb.reset_entry ∅ keys = Panic.
Proof. by destruct keys. Qed.

(** Clearing the redb store empties its table and keeps its cached versions, so
    for every key that was stored the store has no entry but a version, putting any
    value under that version panics, and resetting versions panics; opening the
    database again gives an empty store that has neither. *)
Theorem redb_clear_keeps_versions (s : RedbKVVStore) (key : string) (vv : VV) (value : list Z) :
  redb_inv s -> redb_view s !! key = Some vv ->
  let s' := (Redb.clear_database s).1 in
  (Redb.clear_database s).2 = Ok tt /\
  Redb.get s' key = Ok None /\ Redb.get_version s' key = Ok (Some vv.1) /\
  (Redb.put_with_version key vv.1 value s').2 = Panic /\ (Redb.reset_versions s').2 = Panic /\
  Redb.new_store s'.(redb_table) s'.(redb_signer_id) = Ok (mkRedb ∅ ∅ s.(redb_signer_id)).
Proof.
  intros Hs Hk. cbv zeta. pose proof (redb_versions_lookup s _ key Hs) as Hv. rewrite Hk in Hv.
  cbn [fmap option_fmap option_map] in Hv.
  assert (Redb.clear_database s = (mkRedb ∅ (redb_versions s) (redb_signer_id s), Ok tt)) as -> by done.
  cbn [fst snd]. split_and!; [done|done| | | |done].
  - unfold Redb.get_version. cbn [redb_versions]. by rewrite Hv.
  - unfold Redb.put_with_version. rewrite get_bind. cbn [redb_versions redb_table]. rewrite Hv.
    by rewrite Z.ltb_irrefl, Z.eqb_refl, lookup_empty.
  - unfold Redb.reset_versions. rewrite get_bind. cbn [redb_versions redb_table].
    rewrite reset_missing; [done|]. intros Hnil. apply btree_iter_elem in Hv.
    apply (list_elem_of_fmap_2 fst) in Hv. rewrite Hnil in Hv. by apply not_elem_of_nil in Hv.
Qed.
End Clear.

Lemma redb_clear_keeps_versions_witness :
  let s := mkRedb {[ "node" := Redb.encode_vv 2 [7] ]} {[ "node" := 2 ]} [0] in
  let s' := (Redb.clear_database s).1 in
  (Redb.clear_database s).2 = Ok tt /\
  Redb.get s' "node" = Ok None /\ Redb.get_version s' "node" = Ok (Some 2) /\
  (Redb.put_with_version "node" 2 [7] s').2 = Panic /\ (Redb.reset_versions s').2 = Panic /\
  Redb.new_store s'.(redb_table) s'.(redb_signer_id) = Ok (mkRedb ∅ ∅ [0]).
Proof.
  intros s. apply (redb_clear_keeps_versions s "node" (2, [7]) [7]).
  - apply (redb_holds_inv s {[ "node" := (2, [7]) ]}). split_and!; [vm_compute; reflexivity..|].
    apply map_Forall_singleton. done.
  - vm_compute. reflexivity.
Defined.
