(* ===== verification/KvvTxSafety.v ===== *)
(** * Transactions

    What a session between [enter] and [commit] guarantees, for a transactional
    and for a cloud store over any lawful store. *)
From S2P Require Import Prelude Ordered Types BTree Kvv KvvSpec KvvTx KvvSafety.

(** The entries of a commit log go past what the wrapped store holds. *)
Definition strict_over (m log : vmap) : Prop :=
  versions_u64 log /\ forall key vv vv0, log !! key = Some vv -> m !! key = Some vv0 -> vv0.1 < vv.1.

Lemma strict_over_empty (m : vmap) : strict_over m ∅.
Proof. split; [apply map_Forall_empty|]. intros key vv vv0 Hk. by rewrite lookup_empty in Hk. Qed.

Lemma strict_over_insert (m log : vmap) (key : string) (version : Z) (value : list Z) :
  strict_over m log -> u64 version -> (forall vv0, m !! key = Some vv0 -> vv0.1 < version) ->
  strict_over m (<[key := (version, value)]> log).
Proof.
  intros [Hu Hlt] Hv Hnew. split; [by apply versions_insert|]. intros k vv vv0.
  destruct (decide (k = key)) as [->|Hne].
  - rewrite lookup_insert_eq. intros [= <-] Hm. by apply Hnew.
  - rewrite lookup_insert_ne by done. apply Hlt.
Qed.

(** Such a log is a batch that the wrapped store accepts. *)
Lemma strict_over_batch (m log : vmap) :
  strict_over m log -> spec_put_batch m (btree_iter log) = Ok (log ∪ m).
Proof.
  intros [_ Hlt]. unfold spec_put_batch.
  assert (batch_ok m (btree_iter log) = true) as ->; [|by rewrite list_to_map_btree_iter].
  apply forallb_forall. intros [key [ver val]] Hin%list_elem_of_In%btree_iter_elem. unfold entry_ok. cbn [fst snd].
  destruct (m !! key) as [[ver0 val0]|] eqn:Hm; [|done]. specialize (Hlt key _ _ Hin Hm). cbn in Hlt.
  apply orb_true_iff. left. by apply Z.ltb_lt.
Qed.

Lemma log_batch_ok (log : vmap) :
  versions_u64 log -> NoDup (btree_iter log).*1 /\ Forall (fun kvv => u64 kvv.2.1) (btree_iter log).
Proof.
  intros Hu. split; [apply btree_iter_NoDup|]. apply Forall_forall. intros [k vv] Hkv%btree_iter_elem.
  exact (Hu k vv Hkv).
Qed.

(** A scan over the log and the wrapped store is a scan over their union. *)
Lemma prefix_entries_map (m : vmap) (prefix : string) :
  prefix_entries m prefix = btree_iter (filter (fun kv => starts_with prefix kv.1 = true) m).
Proof. by rewrite prefix_entries_filter, (btree_iter_filter (starts_with prefix)). Qed.

Lemma merge_prefix_union (log m : vmap) (prefix : string) :
  merge_prefix (Some log) prefix (prefix_entries m prefix) = prefix_entries (log ∪ m) prefix.
Proof.
  unfold merge_prefix. rewrite !prefix_entries_map, list_to_map_btree_iter. f_equal. apply map_eq. intros k.
  rewrite lookup_union, !map_lookup_filter, lookup_union.
  destruct (log !! k), (m !! k); cbn; repeat case_guard; done.
Qed.

(** ** The transactional store *)
Section TxSession.
Context {L : Type} `{KVVLaws L}.

(** The operations of a session. *)
Definition tx_op (op : kv_op) : bool :=
  match op with OpPutBatch _ | OpResetVersions => false | _ => true end.

Lemma tx_do_get (inner : L) (log : vmap) (key : string) :
  kv_inv inner -> Tx.do_get (mkTx inner (Some log)) log key = Ok ((log ∪ kv_view inner) !! key).
Proof.
  intros Hi. unfold Tx.do_get. rewrite lookup_union. destruct (log !! key) as [vv|]; cbn [tx_inner].
  - by destruct (kv_view inner !! key).
  - rewrite kv_get_spec by done. by destruct (kv_view inner !! key).
Qed.

Lemma tx_do_get_version (inner : L) (log : vmap) (key : string) :
  kv_inv inner -> Tx.do_get_version (mkTx inner (Some log)) log key = Ok (fst <$> (log ∪ kv_view inner) !! key).
Proof.
  intros Hi. unfold Tx.do_get_version. rewrite lookup_union. destruct (log !! key) as [[ver val]|]; cbn [tx_inner].
  - by destruct (kv_view inner !! key).
  - rewrite kv_get_version_spec by done. by destruct (kv_view inner !! key).
Qed.

(** What a write in a session does: the wrapped store stays, and the log and the
    store together change as the specification says. *)
Definition session_write (inner : L) (log : vmap) (out : TransactionalKVVStore L * res Error unit)
    (spec : res Error vmap) : Prop :=
  exists log', out.1 = mkTx inner (Some log') /\ strict_over (kv_view inner) log' /\
    (log' ∪ kv_view inner, match out.2 with Ok _ => Ok OutUnit | Err e => Err e | Panic => Panic end)
      = spec_write (log ∪ kv_view inner) spec.

Lemma strict_over_union (m log : vmap) (key : string) (version : Z) (value : list Z) :
  strict_over m log -> u64 version ->
  (forall vv0, (log ∪ m) !! key = Some vv0 -> vv0.1 < version) ->
  strict_over m (<[key := (version, value)]> log).
Proof.
  intros Hs Hv Hlt. apply strict_over_insert; [done|done|]. intros vv0 Hm.
  destruct (log !! key) as [vv|] eqn:Hl.
  - destruct Hs as [_ Hs]. specialize (Hs key vv vv0 Hl Hm). specialize (Hlt vv).
    rewrite (lookup_union_Some_l _ _ _ _ Hl) in Hlt. specialize (Hlt eq_refl). lia.
  - apply Hlt. by rewrite lookup_union_r.
Qed.

Lemma tx_put_with_version (inner : L) (log : vmap) (key : string) (version : Z) (value : list Z) :
  kv_inv inner -> strict_over (kv_view inner) log -> u64 version ->
  session_write inner log (Tx.put_with_version key version value (mkTx inner (Some log)))
    (spec_put_with_version (log ∪ kv_view inner) key version value).
Proof.
  intros Hi Hs Hv. unfold Tx.put_with_version, spec_put_with_version, entry_ok, session_write.
  rewrite get_bind. cbn [tx_commit_log]. rewrite tx_do_get by done. rewrite call_Ok_bind.
  pose proof (strict_over_union (kv_view inner) log key version value Hs Hv) as Hnew.
  destruct ((log ∪ kv_view inner) !! key) as [[ver val]|] eqn:Hk.
  - destruct (Z.ltb_spec version ver), (Z.ltb_spec ver version), (Z.eqb_spec version ver), (Z.eqb_spec ver version);
      try lia; cbn [orb andb].
    + by exists log.
    + exists (<[key := (version, value)]> log). split_and!; [done| |by rewrite insert_union_l].
      apply Hnew. by intros vv0 [= <-].
    + subst ver. destruct (decide (val = value)) as [->|Hne].
      * rewrite bool_decide_false, bool_decide_true by auto. exists log. split_and!; [done..|].
        cbn. by rewrite insert_id.
      * rewrite bool_decide_true, bool_decide_false by auto. by exists log.
  - exists (<[key := (version, value)]> log). split_and!; [done| |by rewrite insert_union_l].
    by apply Hnew.
Qed.

Lemma tx_put (inner : L) (log : vmap) (key : string) (value : list Z) :
  kv_inv inner -> strict_over (kv_view inner) log ->
  session_write inner log (Tx.put key value (mkTx inner (Some log)))
    (spec_put (log ∪ kv_view inner) key value).
Proof.
  intros Hi Hs. unfold Tx.put, spec_put. rewrite get_bind. unfold Tx.get_version. cbn [tx_commit_log].
  rewrite tx_do_get_version by done. rewrite call_Ok_bind.
  destruct (next_version _) as [v|e|] eqn:Hv; [|by exists log..]. rewrite call_Ok_bind. cbn [mbind res_bind].
  apply tx_put_with_version; [done..|]. by eapply next_version_u64.
Qed.

Lemma session_write_op (inner : L) (log : vmap) (m : method (TransactionalKVVStore L) Error unit)
    (spec : res Error vmap) :
  session_write inner log (m (mkTx inner (Some log))) spec ->
  exists log', (done_unit m (mkTx inner (Some log))).1 = mkTx inner (Some log') /\
    strict_over (kv_view inner) log' /\
    (log' ∪ kv_view inner, (done_unit m (mkTx inner (Some log))).2) = spec_write (log ∪ kv_view inner) spec.
Proof.
  intros (log' & Hs & Ho & Hw). exists log'. unfold done_unit, mbind, method_bind.
  destruct (m _) as [s' r]. cbn [fst snd] in *. rewrite <- Hw. by destruct r.
Qed.

Lemma tx_session_op (op : kv_op) (inner : L) (log : vmap) :
  kv_inv inner -> strict_over (kv_view inner) log -> op_ok op -> tx_op op = true ->
  exists log', (run_op op (mkTx inner (Some log))).1 = mkTx inner (Some log') /\
    strict_over (kv_view inner) log' /\
    (log' ∪ kv_view inner, (run_op op (mkTx inner (Some log))).2) = spec_op op (log ∪ kv_view inner).
Proof.
  intros Hi Hs Hop Ht. destruct op as [k v|k ver v|k|l|k|k|p|]; cbn [run_op spec_op op_ok] in *; try done.
  - apply session_write_op. by apply tx_put.
  - apply session_write_op. by apply tx_put_with_version.
  - apply session_write_op. by apply tx_put.
  - exists log. rewrite get_bind. cbn [kv_get TransactionalKVVStore_kvv]. unfold Tx.get. cbn [tx_commit_log].
    by rewrite tx_do_get.
  - exists log. rewrite get_bind. cbn [kv_get_version TransactionalKVVStore_kvv]. unfold Tx.get_version.
    cbn [tx_commit_log]. by rewrite tx_do_get_version.
  - exists log. rewrite get_bind. cbn [kv_get_prefix TransactionalKVVStore_kvv]. unfold Tx.get_prefix.
    cbn [tx_inner tx_commit_log]. rewrite kv_get_prefix_spec by done. cbn [mbind res_bind].
    by rewrite merge_prefix_union.
Qed.

Lemma tx_session_ops (ops : list kv_op) (inner : L) (log : vmap) :
  kv_inv inner -> strict_over (kv_view inner) log -> Forall op_ok ops -> Forall (fun op => tx_op op = true) ops ->
  exists log', (run_ops ops (mkTx inner (Some log))).1 = mkTx inner (Some log') /\
    strict_over (kv_view inner) log' /\
    (log' ∪ kv_view inner, (run_ops ops (mkTx inner (Some log))).2) = spec_ops ops (log ∪ kv_view inner).
Proof.
  intros Hi. revert log. induction ops as [|op ops IH]; intros log Hs Hops Ht; [by exists log|].
  apply Forall_cons in Hops as [Hop Hops]. apply Forall_cons in Ht as [Ht1 Ht].
  destruct (tx_session_op op inner log Hi Hs Hop Ht1) as (log1 & Hs1 & Hl1 & Ho1).
  cbn [run_ops spec_ops]. rewrite <- Ho1. destruct (run_op op _) as [s1 r]. cbn [fst snd] in *. subst s1.
  destruct (IH log1 Hl1 Hops Ht) as (log2 & Hs2 & Hl2 & Ho2). rewrite <- Ho2.
  destruct (run_ops ops _) as [s2 rs]. cbn [fst snd] in *. subst s2.
  destruct r; [by exists log2..|by exists log1].
Qed.

Lemma tx_commit_log_batch (inner : L) (log : vmap) :
  kv_inv inner -> strict_over (kv_view inner) log ->
  exists inner', Tx.commit (mkTx inner (Some log)) = (mkTx inner' None, Ok tt) /\ kv_inv inner' /\
    kv_view inner' = log ∪ kv_view inner.
Proof.
  intros Hi Hs. unfold Tx.commit. rewrite get_bind. cbn [tx_commit_log]. unfold Tx.set_log, mbind, method_bind.
  destruct (bool_decide_reflect (log = ∅)) as [->|_].
  - exists inner. by rewrite map_empty_union.
  - destruct (log_batch_ok log (proj1 Hs)) as [Hn Hu].
    pose proof (kv_put_batch_spec inner (btree_iter log) Hi Hn Hu) as [Hinv Hr].
    rewrite strict_over_batch in Hr by done. unfold Tx.inner. cbn [tx_inner].
    destruct (kv_put_batch _ inner) as [inner' r]. cbn [fst snd tx_commit_log] in *. destruct Hr as [-> Hv].
    by exists inner'.
Qed.

(** C20: A transaction is atomic and isolated over any lawful store: between [enter]
    and [commit] every put, delete, lookup and scan answers as the wrapped store
    itself would have answered, the wrapped store does not change before [commit],
    [prepare] lists what [commit] writes, and [commit] succeeds and leaves the
    wrapped store as if the operations had been made on it directly. *)
Theorem transaction_atomic (ops : list kv_op) (inner : L) :
  kv_inv inner -> Forall op_ok ops -> Forall (fun op => tx_op op = true) ops ->
  let direct := run_ops ops inner in
  exists s1 s2 s3 mutations,
    Tx.enter (Tx.new inner) = (s1, Ok tt) /\
    run_ops ops s1 = (s2, direct.2) /\ s2.(tx_inner) = inner /\
    Tx.prepare s2 = (s2, Ok mutations) /\
    spec_put_batch (kv_view inner) mutations = Ok (kv_view direct.1) /\
    Tx.commit s2 = (s3, Ok tt) /\ s3.(tx_commit_log) = None /\ kv_inv s3.(tx_inner) /\
    kv_view s3.(tx_inner) = kv_view direct.1.
Proof.
  intros Hi Hops Ht. cbv zeta. destruct (lawful_ops ops inner Hi Hops) as [_ Hd].
  destruct (tx_session_ops ops inner ∅ Hi (strict_over_empty _) Hops Ht) as (log & Hs2 & Hl & Ho).
  rewrite map_empty_union, <- Hd in Ho. injection Ho as Hv Hout.
  destruct (tx_commit_log_batch inner log Hi Hl) as (inner' & Hc & Hi' & Hv').
  exists (mkTx inner (Some ∅)), (mkTx inner (Some log)), (mkTx inner' None), (btree_iter log).
  split_and!; try done; [| |cbn [tx_inner]; by rewrite Hv', Hv].
  - destruct (run_ops ops (mkTx _ _)) as [s2 outs]. cbn [fst snd] in *. by subst.
  - rewrite strict_over_batch by done. by rewrite Hv.
Qed.

(** In a transaction a batch is not atomic: when an entry after the first is
    refused, the batch fails with a version mismatch and the entries before it
    stay in the log, so that [commit] writes them. *)
Theorem tx_batch_not_atomic (inner : L) (log : vmap) (key1 key2 : string) (version1 version2 : Z)
    (value1 value2 : list Z) :
  kv_inv inner -> strict_over (kv_view inner) log -> u64 version1 -> u64 version2 -> key1 <> key2 ->
  (log ∪ kv_view inner) !! key1 = None -> entry_ok (log ∪ kv_view inner) key2 version2 value2 = false ->
  exists s' s'', Tx.put_batch [(key1, (version1, value1)); (key2, (version2, value2))] (mkTx inner (Some log))
      = (s', Err VersionMismatch) /\
    Tx.commit s' = (s'', Ok tt) /\ kv_view s''.(tx_inner) !! key1 = Some (version1, value1).
Proof.
  intros Hi Hs Hv1 Hv2 Hne Hk1 Hk2.
  destruct (tx_put_with_version inner log key1 version1 value1 Hi Hs Hv1) as (log1 & Hs1 & Hl1 & Ho1).
  unfold spec_put_with_version, entry_ok in Ho1. rewrite Hk1 in Ho1. injection Ho1 as Hu1 Ho1.
  destruct (tx_put_with_version inner log1 key2 version2 value2 Hi Hl1 Hv2) as (log2 & Hs2 & Hl2 & Ho2).
  assert (Hk2' : entry_ok (log1 ∪ kv_view inner) key2 version2 value2 = false)
    by (revert Hk2; unfold entry_ok; by rewrite Hu1, lookup_insert_ne).
  unfold spec_put_with_version in Ho2. rewrite Hk2' in Ho2. injection Ho2 as Hu2 Ho2.
  destruct (tx_commit_log_batch inner log2 Hi Hl2) as (inner' & Hc & _ & Hv').
  exists (mkTx inner (Some log2)), (mkTx inner' None). cbn [tx_inner].
  split_and!; [|done|by rewrite Hv', Hu2, Hu1, lookup_insert_eq].
  unfold Tx.put_batch. rewrite get_bind. cbn [tx_commit_log Tx.put_each]. unfold mbind, method_bind.
  destruct (Tx.put_with_version key1 _ _ _) as [s1 [[]|e|]]; cbn [fst snd] in *; [subst s1|done..].
  destruct (Tx.put_with_version key2 _ _ _) as [s2 [[]|e|]]; cbn [fst snd] in *; [done| |done].
  subst s2. by injection Ho2 as ->.
Qed.
End TxSession.

(** ** The cloud store *)
Section CloudSession.
Context {L : Type} `{KVVLaws L}.

(** The operations of a session that leave the writer record alone. *)
Definition cloud_op (op : kv_op) : bool :=
  match op with
  | OpPut key _ | OpPutWithVersion key _ _ | OpDelete key => bool_decide (key <> LAST_WRITER_KEY)
  | OpPutBatch kvvs => bool_decide (LAST_WRITER_KEY ∉ kvvs.*1)
  | OpResetVersions => false
  | _ => true
  end.

(** No version is at the end of its range. *)
Definition room (m : vmap) : Prop := map_Forall (fun _ vv => u64 (vv.1 + 1)) m.

(** A step of a session: no panic, the local store stays, and the writer record
    of the log stays. *)
Definition cloud_step {A : Type} (local : L) (log : vmap) (out : CloudKVVStore L * res Error A) : Prop :=
  exists log', out.1 = mkCloud local (Some log') /\ out.2 <> Panic /\ strict_over (kv_view local) log' /\
    log' !! LAST_WRITER_KEY = log !! LAST_WRITER_KEY.

Lemma cloud_insert (local : L) (log : vmap) (key : string) (version : Z) (value : list Z) :
  strict_over (kv_view local) log -> u64 version -> key <> LAST_WRITER_KEY ->
  (forall vv0, kv_view local !! key = Some vv0 -> vv0.1 < version) ->
  cloud_step local log (Cloud.set_log (Some (<[key := (version, value)]> log)) (mkCloud local (Some log))).
Proof.
  intros Hs Hv Hk Hlt. exists (<[key := (version, value)]> log).
  split_and!; [done|done|by apply strict_over_insert|by rewrite lookup_insert_ne].
Qed.

Lemma cloud_stays {A : Type} (local : L) (log : vmap) (r : res Error A) :
  strict_over (kv_view local) log -> r <> Panic -> cloud_step local log (mkCloud local (Some log), r).
Proof. intros Hs Hr. by exists log. Qed.

Lemma cloud_put_with_version (local : L) (log : vmap) (key : string) (version : Z) (value : list Z) :
  kv_inv local -> strict_over (kv_view local) log -> u64 version -> key <> LAST_WRITER_KEY ->
  cloud_step local log (Cloud.put_with_version key version value (mkCloud local (Some log))).
Proof.
  intros Hi Hs Hv Hk. unfold Cloud.put_with_version. rewrite get_bind. cbn [cloud_commit_log unwrap].
  rewrite call_Ok_bind. cbn [KvvTx.local]. rewrite kv_get_version_spec by done. rewrite call_Ok_bind.
  pose proof (cloud_insert local log key version value Hs Hv Hk) as Hnew.
  destruct (kv_view local !! key) as [[ver val]|] eqn:Hm; cbn [fmap option_fmap option_map fst].
  - destruct (Z.ltb_spec version ver); [by apply cloud_stays|].
    destruct (Z.eqb_spec version ver) as [->|Hne].
    + rewrite kv_get_spec, Hm by done. rewrite call_Ok_bind. cbn [unwrap]. rewrite call_Ok_bind.
      destruct (bool_decide _); by apply cloud_stays.
    + apply Hnew. intros vv0 [= <-]. cbn. lia.
  - by apply Hnew.
Qed.

Lemma cloud_put (local : L) (log : vmap) (key : string) (value : list Z) :
  kv_inv local -> room (kv_view local) -> strict_over (kv_view local) log -> key <> LAST_WRITER_KEY ->
  cloud_step local log (Cloud.put key value (mkCloud local (Some log))).
Proof.
  intros Hi Hr Hs Hk. unfold Cloud.put. rewrite get_bind. cbn [KvvTx.local].
  rewrite kv_get_version_spec by done. rewrite call_Ok_bind.
  destruct (kv_view local !! key) as [[ver val]|] eqn:Hm; cbn [fmap option_fmap option_map fst next_version].
  - pose proof (Hr key _ Hm) as Hu. cbn in Hu. rewrite add_u64_Ok by done. rewrite call_Ok_bind.
    by apply cloud_put_with_version.
  - rewrite call_Ok_bind. by apply cloud_put_with_version.
Qed.

(** Steps compose. *)
Lemma cloud_step_bind {A B : Type} (local : L) (log : vmap) (m : method (CloudKVVStore L) Error A)
    (k : A -> method (CloudKVVStore L) Error B) :
  cloud_step local log (m (mkCloud local (Some log))) ->
  (forall a log', strict_over (kv_view local) log' -> cloud_step local log' (k a (mkCloud local (Some log')))) ->
  cloud_step local log ((a ← m; k a) (mkCloud local (Some log))).
Proof.
  intros (log1 & Hs1 & Hp & Hl & Hw) Hk. unfold mbind, method_bind.
  destruct (m _) as [s1 [a|e|]]; cbn [fst snd] in *; subst s1; [|by exists log1|done].
  destruct (Hk a log1 Hl) as (log2 & Hs2 & Hp2 & Hl2 & Hw2). exists log2. split_and!; [done..|congruence].
Qed.

Lemma cloud_put_batch (local : L) (log : vmap) (kvvs : list KVV) :
  kv_inv local -> strict_over (kv_view local) log -> Forall (fun kvv => u64 kvv.2.1) kvvs ->
  LAST_WRITER_KEY ∉ kvvs.*1 ->
  cloud_step local log (Cloud.put_batch kvvs (mkCloud local (Some log))).
Proof.
  intros Hi Hs Hu Hk. revert log Hs. induction kvvs as [|[key [version value]] kvvs IH]; intros log Hs;
    [by apply cloud_stays|].
  apply Forall_cons in Hu as [Hv Hu]. apply not_elem_of_cons in Hk as [Hk Hks]. cbn [Cloud.put_batch].
  apply cloud_step_bind; [by apply cloud_put_with_version; auto|]. intros _ log' Hl. by apply IH.
Qed.

Lemma cloud_session_op (op : kv_op) (local : L) (log : vmap) :
  kv_inv local -> room (kv_view local) -> strict_over (kv_view local) log -> op_ok op -> cloud_op op = true ->
  cloud_step local log (run_op op (mkCloud local (Some log))).
Proof.
  intros Hi Hr Hs Hop Hc. destruct op as [k v|k ver v|k|l|k|k|p|]; cbn [run_op op_ok cloud_op] in *;
    try apply bool_decide_eq_true in Hc; try done.
  - apply cloud_step_bind; [by apply cloud_put|]. intros. by apply cloud_stays.
  - apply cloud_step_bind; [by apply cloud_put_with_version|]. intros. by apply cloud_stays.
  - apply cloud_step_bind; [by apply cloud_put|]. intros. by apply cloud_stays.
  - destruct Hop as [_ Hu]. apply cloud_step_bind; [by apply cloud_put_batch|]. intros. by apply cloud_stays.
  - rewrite get_bind. cbn [kv_get CloudKVVStore_kvv]. unfold Cloud.get, Cloud.do_get.
    cbn [cloud_commit_log unwrap mbind res_bind KvvTx.local]. rewrite kv_get_spec by done.
    destruct (log !! k); by apply cloud_stays.
  - rewrite get_bind. cbn [kv_get_version CloudKVVStore_kvv]. unfold Cloud.get_version, Cloud.do_get_version.
    cbn [cloud_commit_log unwrap mbind res_bind KvvTx.local]. rewrite kv_get_version_spec by done.
    destruct (log !! k) as [[]|]; by apply cloud_stays.
  - rewrite get_bind. cbn [kv_get_prefix CloudKVVStore_kvv]. unfold Cloud.get_prefix. cbn [KvvTx.local].
    rewrite kv_get_prefix_spec by done. by apply cloud_stays.
Qed.

(** A whole session up to [prepare]. *)
Definition session (ops : list kv_op) : method (CloudKVVStore L) Error Mutations := fun s =>
  let '(s1, r) := Cloud.enter s in
  match r with
  | Ok _ => Cloud.prepare (run_ops ops s1).1
  | Err e => (s1, Err e)
  | Panic => (s1, Panic)
  end.

Lemma cloud_session_ops (ops : list kv_op) (local : L) (log : vmap) :
  kv_inv local -> room (kv_view local) -> strict_over (kv_view local) log ->
  Forall op_ok ops -> Forall (fun op => cloud_op op = true) ops ->
  exists log', (run_ops ops (mkCloud local (Some log))).1 = mkCloud local (Some log') /\
    (Panic ∉ (run_ops ops (mkCloud local (Some log))).2) /\ strict_over (kv_view local) log' /\
    log' !! LAST_WRITER_KEY = log !! LAST_WRITER_KEY.
Proof.
  intros Hi Hr. revert log. induction ops as [|op ops IH]; intros log Hs Hops Hc.
  { exists log. split_and!; [done|apply not_elem_of_nil|done..]. }
  apply Forall_cons in Hops as [Hop Hops]. apply Forall_cons in Hc as [Hc1 Hc].
  destruct (cloud_session_op op local log Hi Hr Hs Hop Hc1) as (log1 & Hs1 & Hp1 & Hl1 & Hw1).
  cbn [run_ops]. destruct (run_op op _) as [s1 r]. cbn [fst snd] in *. subst s1.
  destruct (IH log1 Hl1 Hops Hc) as (log2 & Hs2 & Hp2 & Hl2 & Hw2).
  destruct (run_ops ops _) as [s2 rs]. cbn [fst snd] in *. subst s2.
  exists log2. destruct r; [| |done]; (split_and!; [done| |done|congruence]);
    apply not_elem_of_cons; done.
Qed.

(** The writer record of a session. *)
Definition writer_version (m : vmap) : Z :=
  match m !! LAST_WRITER_KEY with Some vv => vv.1 + 1 | None => 0 end.

Lemma cloud_enter (local : L) :
  kv_inv local -> room (kv_view local) ->
  let log := {[ LAST_WRITER_KEY := (writer_version (kv_view local), kv_signer_id local) ]} in
  Cloud.enter (Cloud.new local) = (mkCloud local (Some log), Ok tt) /\ strict_over (kv_view local) log.
Proof.
  intros Hi Hr. cbv zeta. unfold Cloud.enter, Cloud.new, writer_version. rewrite get_bind. cbn [KvvTx.local].
  rewrite kv_get_spec by done. rewrite call_Ok_bind.
  assert (Hnew : forall w, u64 w -> (forall vv0, kv_view local !! LAST_WRITER_KEY = Some vv0 -> vv0.1 < w) ->
    strict_over (kv_view local) {[ LAST_WRITER_KEY := (w, kv_signer_id local) ]})
    by (intros w Hw Hlt; apply strict_over_insert; [apply strict_over_empty|done..]).
  destruct (kv_view local !! LAST_WRITER_KEY) as [[ver val]|] eqn:Hm; cbn [fmap option_fmap option_map fst next_version].
  - pose proof (Hr _ _ Hm) as Hu. cbn in Hu. rewrite add_u64_Ok by done. split; [done|].
    apply Hnew; [done|]. intros vv0 [= <-]. cbn. lia.
  - split; [done|]. by apply Hnew.
Qed.

Lemma cloud_prepare (local : L) (log : vmap) :
  is_Some (log !! LAST_WRITER_KEY) -> strict_over (kv_view local) log ->
  exists log', Cloud.prepare (mkCloud local (Some log)) = (mkCloud local (Some log'), Ok (btree_iter log')) /\
    strict_over (kv_view local) log' /\ (log' = log \/ log' = ∅).
Proof.
  intros [w Hw] Hs. unfold Cloud.prepare. rewrite get_bind. cbn [cloud_commit_log unwrap]. rewrite call_Ok_bind.
  apply btree_iter_elem in Hw. destruct (btree_iter log) as [|[key vv] [|kv l]] eqn:Hl.
  - by apply not_elem_of_nil in Hw.
  - apply list_elem_of_singleton in Hw as [= <- <-]. exists ∅. split_and!; [done|apply strict_over_empty|by right].
  - exists log. rewrite Hl. split_and!; [done|done|by left].
Qed.

Lemma cloud_commit (local : L) (log : vmap) :
  kv_inv local -> strict_over (kv_view local) log ->
  exists local', Cloud.commit (mkCloud local (Some log)) = (mkCloud local' None, Ok tt) /\ kv_inv local' /\
    kv_view local' = log ∪ kv_view local.
Proof.
  intros Hi Hs. unfold Cloud.commit. rewrite get_bind. cbn [cloud_commit_log unwrap]. rewrite call_Ok_bind.
  unfold Cloud.set_log, mbind, method_bind. destruct (log_batch_ok log (proj1 Hs)) as [Hn Hu].
  pose proof (kv_put_batch_spec local (btree_iter log) Hi Hn Hu) as [Hinv Hr].
  rewrite strict_over_batch in Hr by done. unfold Cloud.on_local. cbn [KvvTx.local cloud_commit_log].
  destruct (kv_put_batch _ local) as [local' r]. cbn [fst snd] in *. destruct Hr as [-> Hv]. by exists local'.
Qed.

(** What a session prepares. *)
Lemma cloud_session (ops : list kv_op) (local : L) :
  kv_inv local -> room (kv_view local) -> Forall op_ok ops -> Forall (fun op => cloud_op op = true) ops ->
  exists log, session ops (Cloud.new local) = (mkCloud local (Some log), Ok (btree_iter log)) /\
    strict_over (kv_view local) log /\
    (log = ∅ \/ log !! LAST_WRITER_KEY = Some (writer_version (kv_view local), kv_signer_id local)).
Proof.
  intros Hi Hr Hops Hc. destruct (cloud_enter local Hi Hr) as [He Hs].
  destruct (cloud_session_ops ops local _ Hi Hr Hs Hops Hc) as (log & Hrun & _ & Hl & Hw).
  rewrite lookup_singleton_eq in Hw.
  destruct (cloud_prepare local log ltac:(by rewrite Hw) Hl) as (log' & Hp & Hl' & Hor).
  exists log'. split_and!; [|done|destruct Hor as [->| ->]; by auto].
  unfold session. by rewrite He, Hrun.
Qed.
End CloudSession.

Section CloudTheorems.
Context {L R : Type} `{Profile} `{!KVVStore L} `{!KVVStore R} `{!KVVLaws L} `{!KVVLaws R}.

(** What the replica makes of the mutations of a session. *)
Lemma replica_put_batch (replica : R) (m log : vmap) :
  kv_inv replica -> kv_view replica = m -> strict_over m log ->
  exists replica', kv_put_batch (btree_iter log) replica = (replica', Ok tt) /\ kv_inv replica' /\
    kv_view replica' = log ∪ m.
Proof.
  intros Hi Hm Hs. destruct (log_batch_ok log (proj1 Hs)) as [Hn Hu].
  pose proof (kv_put_batch_spec replica (btree_iter log) Hi Hn Hu) as [Hinv Hr].
  rewrite Hm, strict_over_batch in Hr by done. destruct (kv_put_batch _ replica) as [replica' r].
  cbn [fst snd] in *. destruct Hr as [-> Hv]. by exists replica'.
Qed.

(** A cloud replica that holds what the local store holds accepts the mutations
    that a session prepares, [commit] of the session succeeds, and local store and
    replica hold the same entries afterwards, so the sync check on the replica's
    writer record passes.  No operation of the session panics or touches the local
    store before [commit]. *)
Theorem cloud_replica_in_sync (ops : list kv_op) (store : L) (replica : R) :
  kv_inv store -> kv_inv replica -> kv_view replica = kv_view store -> room (kv_view store) ->
  Forall op_ok ops -> Forall (fun op => cloud_op op = true) ops ->
  exists mutations s1 s2 replica',
    session ops (Cloud.new store) = (s1, Ok mutations) /\ local s1 = store /\
    kv_put_batch mutations replica = (replica', Ok tt) /\
    Cloud.commit s1 = (s2, Ok tt) /\ kv_view (local s2) = kv_view replica' /\
    Cloud.is_in_sync s2 (kv_view replica' !! LAST_WRITER_KEY) = true.
Proof.
  intros Hi Hri Hv Hr Hops Hc. destruct (cloud_session ops store Hi Hr Hops Hc) as (log & Hs & Hl & _).
  destruct (cloud_commit store log Hi Hl) as (store' & Hcm & Hi' & Hv').
  destruct (replica_put_batch replica _ log Hri Hv Hl) as (replica' & Hp & _ & Hrv).
  exists (btree_iter log), (mkCloud store (Some log)), (mkCloud store' None), replica'.
  assert (Hsame : kv_view store' = kv_view replica') by congruence. split_and!; try done.
  unfold Cloud.is_in_sync. cbn [local]. rewrite kv_get_spec by done. rewrite Hsame. by apply bool_decide_eq_true.
Qed.

(** When two signers with different ids start from the same state and both
    prepare changes, the replica takes the first set of mutations and refuses the
    second as a version conflict, without changing, and the second signer's sync
    check against the replica fails. *)
Theorem stale_writer_rejected (ops_a ops_b : list kv_op) (a b : L) (replica : R)
    (s_a s_b : CloudKVVStore L) (muts_a muts_b : Mutations) :
  kv_inv a -> kv_inv b -> kv_inv replica ->
  kv_view a = kv_view replica -> kv_view b = kv_view replica -> room (kv_view replica) ->
  kv_signer_id a <> kv_signer_id b ->
  Forall op_ok (ops_a ++ ops_b) -> Forall (fun op => cloud_op op = true) (ops_a ++ ops_b) ->
  session ops_a (Cloud.new a) = (s_a, Ok muts_a) -> session ops_b (Cloud.new b) = (s_b, Ok muts_b) ->
  muts_a <> [] -> muts_b <> [] ->
  exists replica1 replica2,
    kv_put_batch muts_a replica = (replica1, Ok tt) /\
    kv_put_batch muts_b replica1 = (replica2, Err VersionMismatch) /\ kv_view replica2 = kv_view replica1 /\
    Cloud.is_in_sync s_b (kv_view replica1 !! LAST_WRITER_KEY) = false.
Proof.
  intros Ha Hb Hri Hva Hvb Hr Hid [Ho1 Ho2]%Forall_app [Hc1 Hc2]%Forall_app Hsa Hsb Hna Hnb.
  rewrite <- Hva in Hr. destruct (cloud_session ops_a a Ha Hr Ho1 Hc1) as (log_a & Hsa' & Hla & Hwa).
  rewrite Hva, <- Hvb in Hr. destruct (cloud_session ops_b b Hb Hr Ho2 Hc2) as (log_b & Hsb' & Hlb & Hwb).
  rewrite Hsa in Hsa'. rewrite Hsb in Hsb'. injection Hsa' as -> ->. injection Hsb' as -> ->.
  destruct Hwa as [->|Hwa]; [done|]. destruct Hwb as [->|Hwb]; [done|].
  rewrite Hva in Hla, Hwa. rewrite Hvb in Hwb.
  destruct (replica_put_batch replica _ log_a Hri eq_refl Hla) as (replica1 & Hp & Hi1 & Hv1).
  assert (Hw1 : kv_view replica1 !! LAST_WRITER_KEY = Some (writer_version (kv_view replica), kv_signer_id a))
    by (rewrite Hv1; by apply lookup_union_Some_l).
  destruct (log_batch_ok log_b (proj1 Hlb)) as [Hn Hu].
  pose proof (kv_put_batch_spec replica1 (btree_iter log_b) Hi1 Hn Hu) as [_ Hb2].
  assert (Hbad : batch_ok (kv_view replica1) (btree_iter log_b) = false).
  { apply not_true_iff_false. intros Hok. apply btree_iter_elem in Hwb.
    apply (batch_ok_elem _ _ _ _ Hok) in Hwb. unfold entry_ok in Hwb. rewrite Hw1 in Hwb. cbn [fst snd] in Hwb.
    rewrite Z.ltb_irrefl, Z.eqb_refl, bool_decide_false in Hwb by done. done. }
  unfold spec_put_batch in Hb2. rewrite Hbad in Hb2.
  destruct (kv_put_batch (btree_iter log_b) replica1) as [replica2 r] eqn:Hpb. cbn [fst snd] in Hb2. destruct Hb2 as [-> Hv2].
  exists replica1, replica2. split_and!; [done|done|done|].
  unfold Cloud.is_in_sync. cbn [local]. rewrite kv_get_spec by done. apply bool_decide_eq_false.
  rewrite Hw1, Hvb. intros Heq. unfold writer_version in Heq.
  destruct (kv_view replica !! LAST_WRITER_KEY) as [[ver val]|]; [|done]. injection Heq as Heq _. cbn in Heq. lia.
Qed.
End CloudTheorems.

Section TxWitnesses.
#[local] Existing Instance debug_profile.

Lemma transaction_atomic_witness :
  let ops := [OpPut "channel/01" [1]; OpGet "channel/01"; OpPut "channel/01" [2]; OpGetPrefix "channel/"] in
  exists s1 s2 s3 mutations,
    Tx.enter (Tx.new (Memory.new [9])) = (s1, Ok tt) /\
    run_ops ops s1 = (s2, (run_ops ops (Memory.new [9])).2) /\ s2.(tx_inner) = Memory.new [9] /\
    Tx.prepare s2 = (s2, Ok mutations) /\
    spec_put_batch (kv_view (Memory.new [9])) mutations = Ok (kv_view (run_ops ops (Memory.new [9])).1) /\
    Tx.commit s2 = (s3, Ok tt) /\ s3.(tx_commit_log) = None /\ kv_inv s3.(tx_inner) /\
    kv_view s3.(tx_inner) = kv_view (run_ops ops (Memory.new [9])).1.
Proof.
  intros ops. apply (transaction_atomic ops (Memory.new [9])).
  - apply map_Forall_empty.
  - repeat constructor.
  - repeat constructor.
Defined.

Lemma tx_batch_not_atomic_witness :
  exists s' s'', Tx.put_batch [("a", (0, [1])); ("b", (2, [2]))] (mkTx (mkMemory {[ "b" := (3, [3]) ]} [9]) (Some ∅))
      = (s', Err VersionMismatch) /\
    Tx.commit s' = (s'', Ok tt) /\ kv_view s''.(tx_inner) !! "a" = Some (0, [1]).
Proof.
  apply (tx_batch_not_atomic (mkMemory {[ "b" := (3, [3]) ]} [9]) ∅ "a" "b" 0 2 [1] [2]);
    [apply map_Forall_singleton; done|apply strict_over_empty|done..].
Defined.

Definition writer_state : vmap := {[ "node" := (3, [1]); LAST_WRITER_KEY := (5, [8]) ]}.

Lemma writer_state_ok : versions_u64 writer_state /\ room writer_state.
Proof. split; apply (bool_decide_unpack _); vm_compute; exact I. Qed.

Lemma cloud_replica_in_sync_witness :
  let ops := [OpPut "node" [2]; OpPutBatch [("x", (0, [1])); ("node", (1, []))]] in
  exists mutations s1 s2 replica',
    session ops (Cloud.new (mkMemory writer_state [7])) = (s1, Ok mutations) /\
    local s1 = mkMemory writer_state [7] /\
    kv_put_batch mutations (mkMemory writer_state [0]) = (replica', Ok tt) /\
    Cloud.commit s1 = (s2, Ok tt) /\ kv_view (local s2) = kv_view replica' /\
    Cloud.is_in_sync s2 (kv_view replica' !! LAST_WRITER_KEY) = true.
Proof.
  intros ops. apply (cloud_replica_in_sync ops (mkMemory writer_state [7]) (mkMemory writer_state [0]));
    try exact (proj1 writer_state_ok); try exact (proj2 writer_state_ok); [done| |repeat constructor].
  repeat constructor; first [done|by apply (bool_decide_unpack _)].
Defined.

Lemma stale_writer_rejected_witness :
  let a := mkMemory writer_state [7] in
  let b := mkMemory writer_state [8] in
  let replica := mkMemory writer_state [0] in
  let prepared_a := session [OpPut "node" [2]] (Cloud.new a) in
  let prepared_b := session [OpDelete "node"] (Cloud.new b) in
  exists muts_a muts_b replica1 replica2,
    prepared_a.2 = Ok muts_a /\ prepared_b.2 = Ok muts_b /\
    kv_put_batch muts_a replica = (replica1, Ok tt) /\
    kv_put_batch muts_b replica1 = (replica2, Err VersionMismatch) /\ kv_view replica2 = kv_view replica1 /\
    Cloud.is_in_sync prepared_b.1 (kv_view replica1 !! LAST_WRITER_KEY) = false.
Proof.
  intros a b replica prepared_a prepared_b.
  exists [(LAST_WRITER_KEY, (6, [7])); ("node", (4, [2]))], [(LAST_WRITER_KEY, (6, [8])); ("node", (4, []))].
  destruct (stale_writer_rejected [OpPut "node" [2]] [OpDelete "node"] a b replica prepared_a.1 prepared_b.1
    [(LAST_WRITER_KEY, (6, [7])); ("node", (4, [2]))] [(LAST_WRITER_KEY, (6, [8])); ("node", (4, []))])
    as (replica1 & replica2 & Hr); try exact (proj1 writer_state_ok); try exact (proj2 writer_state_ok);
    [done|done|done|repeat constructor|repeat constructor|vm_compute; reflexivity|vm_compute; reflexivity|done|done|].
  exists replica1, replica2. split; [vm_compute; reflexivity|]. split; [vm_compute; reflexivity|exact Hr].
Defined.
End TxWitnesses.
