(* ===== verification/Persister.v ===== *)
(** * Persisters: [vls-core/src/persist/mod.rs], [vls-persist/src/kvv.rs], [backup_persister.rs]

    The trait [Persist] as a class; the persister over a versioned store, the
    composite of a main and a backup persister, and the authentication codes of
    external storage.  Serialization, hex and the encoding of keys, headers and
    allowlist entries are of other packages. *)
From S2P Require Import Prelude Ordered Velocity Policy Types Bitcoin Enforcement SimpleValidator NodeState Channel TxValidator Monitor Tracker BTree Kvv.

(** ** Entries *)

(** [NodeConfig]. *)
Inductive KeyDerivationStyle := Native | Ldk | Lnd.

Definition key_derivation_style_u8 (style : KeyDerivationStyle) : Z :=
  match style with Native => 1 | Ldk => 2 | Lnd => 3 end.

Definition KeyDerivationStyle_try_from (v : Z) : option KeyDerivationStyle :=
  if v =? 1 then Some Native else if v =? 2 then Some Ldk else if v =? 3 then Some Lnd else None.

Record NodeConfig := mkNodeConfig {
  config_network : Network;
  config_style : KeyDerivationStyle;
  config_use_checkpoints : bool;
  config_allow_deep_reorgs : bool
}.

Definition NodeConfig_new (network : Network) : NodeConfig :=
  mkNodeConfig network Native true (match network with Testnet => true | _ => false end).

(** [model::NodeEntry] of the store, and the one that [get_nodes] returns. *)
Record StoredNodeEntry := mkStoredNodeEntry { stored_style : Z; stored_network : string }.
Record NodeEntry := mkNodeEntry { entry_style : Z; entry_network : string; entry_state : NodeState }.

Record ChannelEntry := mkChannelEntry {
  entry_channel_value_satoshis : Z;
  entry_channel_setup : option ChannelSetup;
  entry_id : option ChannelId;
  entry_enforcement_state : EnforcementState;
  entry_prev_setup : option ChannelSetup;
  entry_prev_prev_setup : option ChannelSetup;
  entry_blockheight : option Z
}.

Record ChainTrackerEntry := mkChainTrackerEntry {
  entry_headers : list (list Z);
  entry_tip : list Z;
  entry_height : Z;
  entry_tracker_network : Network;
  entry_listeners : list (OutPoint * (State * ListenSlot))
}.

Abbreviation ChainTrackerListenerEntry := (OutPoint * (State * ListenSlot))%type (only parsing).

(** [ValueFormat] for one type of value. *)
Class ValueFormat (T : Type) := {
  ser_value : T -> res Error (list Z);
  de_value : list Z -> res Error T
}.

(** The packages that encode the parts of a key or a value. *)
Class Encodings := {
  hex_encode : list Z -> string;
  hex_decode : string -> option (list Z);
  pubkey_serialize : PublicKey -> list Z;
  pubkey_from_slice : list Z -> option PublicKey;
  network_to_string : Network -> string;
  network_parse : string -> option Network;
  allowable_from_str : string -> Network -> option Allowable;
  serialize_headers : Headers -> list Z;
  deserialize_headers : list Z -> option Headers;
  deserialize_block_header : list Z -> option BlockHeader
}.

(** The tracker of a node. *)
Abbreviation NodeTracker := (ChainTracker (L:=ChainMonitor) (K:=OutPoint)) (only parsing).

(** ** The trait [Persist] *)
Class Persist `{ChainPackages} (P : Type) := {
  p_enter : method P Error unit;
  p_prepare : method P Error Mutations;
  p_commit : method P Error unit;
  p_put_batch_unlogged : Mutations -> method P Error unit;
  p_new_node : PublicKey -> NodeConfig -> NodeState -> method P Error unit;
  p_update_node : PublicKey -> NodeState -> method P Error unit;
  p_delete_node : PublicKey -> method P Error unit;
  p_new_channel : PublicKey -> ChannelStub -> method P Error unit;
  p_delete_channel : PublicKey -> ChannelId -> method P Error unit;
  p_new_tracker : PublicKey -> NodeTracker -> method P Error unit;
  p_update_tracker : PublicKey -> NodeTracker -> method P Error unit;
  p_get_tracker : P -> PublicKey -> res Error (NodeTracker * list ChainTrackerListenerEntry);
  p_update_channel : PublicKey -> Channel -> method P Error unit;
  p_get_channel : P -> PublicKey -> ChannelId -> res Error ChannelEntry;
  p_get_node_channels : P -> PublicKey -> res Error (list (ChannelId * ChannelEntry));
  p_update_node_allowlist : PublicKey -> list string -> method P Error unit;
  p_get_node_allowlist : P -> PublicKey -> res Error (list string);
  p_get_nodes : P -> res Error (list (PublicKey * NodeEntry));
  p_clear_database : method P Error unit;
  p_on_initial_restore : P -> P * bool;
  p_recovery_required : P -> bool;
  p_begin_replication : method P Error Mutations;
  p_signer_id : P -> list Z
}.

(** The default methods of the trait; two are unimplemented. *)
Definition persist_default_enter {P : Type} : method P Error unit := mret tt.
Definition persist_default_prepare {P : Type} : method P Error Mutations := mret [].
Definition persist_default_commit {P : Type} : method P Error unit := mret tt.
Definition default_put_batch_unlogged {P : Type} (_ : Mutations) : method P Error unit := call Panic.
Definition default_on_initial_restore {P : Type} (self : P) : P * bool := (self, false).
Definition default_recovery_required {P : Type} (_ : P) : bool := false.
Definition default_begin_replication {P : Type} : method P Error Mutations := call Panic.

(** ** [DummyPersister] *)
Inductive DummyPersister := mkDummyPersister.

#[export] Instance DummyPersister_persist `{ChainPackages} : Persist DummyPersister := {|
  p_enter := persist_default_enter;
  p_prepare := persist_default_prepare;
  p_commit := persist_default_commit;
  p_put_batch_unlogged := default_put_batch_unlogged;
  p_new_node _ _ _ := mret tt;
  p_update_node _ _ := mret tt;
  p_delete_node _ := mret tt;
  p_new_channel _ _ := mret tt;
  p_delete_channel _ _ := mret tt;
  p_new_tracker _ _ := mret tt;
  p_update_tracker _ _ := mret tt;
  p_get_tracker _ _ := Err InternalError;
  p_update_channel _ _ := mret tt;
  p_get_channel _ _ _ := Err InternalError;
  p_get_node_channels _ _ := Ok [];
  p_update_node_allowlist _ _ := mret tt;
  p_get_node_allowlist _ _ := Ok [];
  p_get_nodes _ := Ok [];
  p_clear_database := mret tt;
  p_on_initial_restore := default_on_initial_restore;
  p_recovery_required := default_recovery_required;
  p_begin_replication := default_begin_replication;
  p_signer_id _ := []
|}.

(** ** Keys *)
Section Keys.
Context `{Encodings}.

Definition NODE_ENTRY_PREFIX : string := "node/entry".
Definition NODE_STATE_PREFIX : string := "node/state".
Definition NODE_TRACKER_PREFIX : string := "node/tracker".
Definition ALLOWLIST_PREFIX : string := "node/allowlist".
Definition CHANNEL_PREFIX : string := "channel".
Definition SEPARATOR : string := "/".

Definition make_key (prefix : string) (key : list Z) : string :=
  (prefix ++ "/" ++ hex_encode key)%string.

Definition make_key2 (prefix : string) (key1 key2 : list Z) : string :=
  (prefix ++ "/" ++ hex_encode key1 ++ "/" ++ hex_encode key2)%string.

(** [strip_prefix]. *)
Fixpoint strip_prefix (prefix key : string) : option string :=
  match prefix, key with
  | EmptyString, _ => Some key
  | String a prefix', String b key' => if Ascii.eqb a b then strip_prefix prefix' key' else None
  | String _ _, EmptyString => None
  end.

Fixpoint ends_with_separator (s : string) : bool :=
  match s with
  | EmptyString => false
  | String _ EmptyString => bool_decide (s = SEPARATOR)
  | String _ s' => ends_with_separator s'
  end.

Definition extract_key_suffix {E : Type} (prefix key : string) : res E (list Z) :=
  rassert (ends_with_separator prefix) ;;
  suffix ← unwrap (strip_prefix prefix key);
  unwrap (hex_decode suffix).
End Keys.

(** [result.unwrap()] of a call. *)
Definition unwrap_call {S E A : Type} (m : method S E A) : method S E A := fun s =>
  let '(s', r) := m s in (s', match r with Ok a => Ok a | _ => Panic end).

(** ** [KVVPersister] *)
Section KVVPersister.
Context `{Profile} `{Encodings} `{ChainPackages} {S : Type} `{KVVStore S}.
Context `{ValueFormat StoredNodeEntry} `{ValueFormat NodeStateEntry} `{ValueFormat ChannelEntry}
  `{ValueFormat (list string)} `{ValueFormat ChainTrackerEntry}.
Context (hash_preimage : Z -> Z).

Definition update_node (node_id : PublicKey) (state : NodeState) : method S Error unit :=
  let key := make_key NODE_STATE_PREFIX (pubkey_serialize node_id) in
  value ← call (ser_value (NodeStateEntry_from state));
  kv_put key value.

Definition new_node (node_id : PublicKey) (config : NodeConfig) (state : NodeState) : method S Error unit :=
  unwrap_call (update_node node_id state) ;;
  let key := make_key NODE_ENTRY_PREFIX (pubkey_serialize node_id) in
  value ← call (ser_value (mkStoredNodeEntry (key_derivation_style_u8 config.(config_style))
                             (network_to_string config.(config_network))));
  kv_put key value.

Definition delete_node (node_id : PublicKey) : method S Error unit :=
  let id := pubkey_serialize node_id in
  kv_delete (make_key NODE_ENTRY_PREFIX id) ;;
  kv_delete (make_key NODE_STATE_PREFIX id).

(** The entry of a stub, and of a ready channel. *)
Definition stub_entry (stub : ChannelStub) : ChannelEntry :=
  mkChannelEntry 0 None None (EnforcementState_new 0) None None (Some stub.(stub_blockheight)).

Definition channel_entry (channel : Channel) : ChannelEntry :=
  mkChannelEntry channel.(setup).(channel_value_sat) (Some channel.(setup)) channel.(chan_id)
    channel.(enforcement_state) channel.(prev_setup) channel.(prev_prev_setup) None.

Definition channel_key (node_id : PublicKey) (channel_id : ChannelId) : string :=
  make_key2 CHANNEL_PREFIX (pubkey_serialize node_id) channel_id.

Definition new_channel (node_id : PublicKey) (stub : ChannelStub) : method S Error unit :=
  let key := channel_key node_id stub.(stub_id0) in
  value ← call (ser_value (stub_entry stub));
  kv_put key value.

Definition delete_channel (node_id : PublicKey) (channel_id : ChannelId) : method S Error unit :=
  kv_delete (channel_key node_id channel_id).

(** [impl From<&ChainTracker<ChainMonitor>> for ChainTrackerEntry]. *)
Definition ChainTrackerEntry_from (t : NodeTracker) : ChainTrackerEntry :=
  mkChainTrackerEntry (serialize_headers <$> t.(headers)) (serialize_headers t.(tip)) t.(tracker_height) t.(network)
    ((fun '(k, (l, s)) => (k, (l.(state), s))) <$> map_to_list t.(listeners)).

(** A tip of the old format has no filter header. *)
Definition into_tracker {E : Type} (self : ChainTrackerEntry)
  : res E (NodeTracker * list ChainTrackerListenerEntry) :=
  tip ← (match deserialize_headers self.(entry_tip) with
         | Some tip => Ok tip
         | None => tip ← unwrap (deserialize_block_header self.(entry_tip)); Ok (mkHeaders tip 0)
         end);
  headers ← map_res (fun h => unwrap (deserialize_headers h)) self.(entry_headers);
  Ok (tracker_restore headers tip self.(entry_height) self.(entry_tracker_network) ∅ [], self.(entry_listeners)).

Definition update_tracker (node_id : PublicKey) (tracker : NodeTracker) : method S Error unit :=
  let key := make_key NODE_TRACKER_PREFIX (pubkey_serialize node_id) in
  value ← call (ser_value (ChainTrackerEntry_from tracker));
  kv_put key value.

Definition new_tracker (node_id : PublicKey) (tracker : NodeTracker) : method S Error unit :=
  update_tracker node_id tracker.

Definition get_tracker (self : S) (node_id : PublicKey)
  : res Error (NodeTracker * list ChainTrackerListenerEntry) :=
  let key := make_key NODE_TRACKER_PREFIX (pubkey_serialize node_id) in
  got ← kv_get self key;
  value ← unwrap got;
  model ← de_value value.2;
  into_tracker model.

Definition update_channel (node_id : PublicKey) (channel : Channel) : method S Error unit :=
  let key := channel_key node_id channel.(id0) in
  value ← call (ser_value (channel_entry channel));
  kv_put key value.

Definition get_channel (self : S) (node_id : PublicKey) (channel_id : ChannelId) : res Error ChannelEntry :=
  got ← kv_get self (channel_key node_id channel_id);
  '(_, bytes) ← ok_or NotFound got;
  when (bool_decide (bytes = [])) (Err NotFound) ;;
  de_value bytes.

(** One entry of the loop of [get_node_channels]; a tombstone is skipped. *)
Definition node_channel (prefix : string) (kvv : KVV) : res Error (option (ChannelId * ChannelEntry)) :=
  let '(key, (_, value)) := kvv in
  if bool_decide (value = []) then Ok None
  else
    suffix ← extract_key_suffix prefix key;
    entry ← de_value value;
    Ok (Some (suffix, entry)).

Definition get_node_channels (self : S) (node_id : PublicKey) : res Error (list (ChannelId * ChannelEntry)) :=
  let prefix := (make_key CHANNEL_PREFIX (pubkey_serialize node_id) ++ SEPARATOR)%string in
  kvvs ← kv_get_prefix self prefix;
  found ← map_res (node_channel prefix) kvvs;
  Ok (omap (M:=list) id found).

Definition update_node_allowlist (node_id : PublicKey) (allowlist : list string) : method S Error unit :=
  let key := make_key ALLOWLIST_PREFIX (pubkey_serialize node_id) in
  value ← call (ser_value allowlist);
  kv_put key value.

Definition get_node_allowlist (self : S) (node_id : PublicKey) : res Error (list string) :=
  let key := make_key ALLOWLIST_PREFIX (pubkey_serialize node_id) in
  got ← kv_get self key;
  value ← unwrap got;
  de_value value.2.

(** The allowlist of a node in [get_nodes]: an error of the store gives an empty
    list. *)
Definition restored_allowlist (self : S) (node_id : PublicKey) (network : Network) : res Error (list Allowable) :=
  match get_node_allowlist self node_id with
  | Ok strings => map_res (fun s => ok_or SerdeError (allowable_from_str s network)) strings
  | Err _ => Ok []
  | Panic => Panic
  end.

Definition get_node (self : S) (prefix : string) (kvv : KVV) : res Error (PublicKey * NodeEntry) :=
  let '(key, (_, value)) := kvv in
  suffix ← extract_key_suffix prefix key;
  node_id ← unwrap (pubkey_from_slice suffix);
  entry ← de_value (T:=StoredNodeEntry) value;
  got ← kv_get self (make_key NODE_STATE_PREFIX (pubkey_serialize node_id));
  state_value ← ok_or NotFound got;
  state_entry ← de_value (T:=NodeStateEntry) state_value.2;
  network ← ok_or SerdeError (network_parse entry.(stored_network));
  allowlist ← restored_allowlist self node_id network;
  Ok (node_id, mkNodeEntry entry.(stored_style) entry.(stored_network)
                 (get_node_state hash_preimage state_entry allowlist)).

Definition get_nodes (self : S) : res Error (list (PublicKey * NodeEntry)) :=
  let prefix := (NODE_ENTRY_PREFIX ++ SEPARATOR)%string in
  kvvs ← kv_get_prefix self prefix;
  map_res (get_node self prefix) (filter (fun kvv => kvv.2.2 <> []) kvvs).

Definition begin_replication : method S Error Mutations :=
  kv_reset_versions ;;
  self ← get_self;
  call (kv_get_prefix self "").

#[export] Instance KVVPersister_persist : Persist S := {|
  p_enter := kv_enter;
  p_prepare := kv_prepare;
  p_commit := kv_commit;
  p_put_batch_unlogged := kv_put_batch_unlogged;
  p_new_node := new_node;
  p_update_node := update_node;
  p_delete_node := delete_node;
  p_new_channel := new_channel;
  p_delete_channel := delete_channel;
  p_new_tracker := new_tracker;
  p_update_tracker := update_tracker;
  p_get_tracker := get_tracker;
  p_update_channel := update_channel;
  p_get_channel := get_channel;
  p_get_node_channels := get_node_channels;
  p_update_node_allowlist := update_node_allowlist;
  p_get_node_allowlist := get_node_allowlist;
  p_get_nodes := get_nodes;
  p_clear_database := kv_clear_database;
  p_on_initial_restore := default_on_initial_restore;
  p_recovery_required := default_recovery_required;
  p_begin_replication := begin_replication;
  p_signer_id := kv_signer_id
|}.
End KVVPersister.

(** ** [BackupPersister] *)
Record BackupPersister (M B : Type) := mkBackupPersister {
  main : M;
  backup : B;
  initial_restore_complete : bool
}.

Arguments mkBackupPersister {M B}.
Arguments main {M B}.
Arguments backup {M B}.
Arguments initial_restore_complete {M B}.

Module Backup.
Section Backup.
Context `{ChainPackages} {M B : Type} `{!Persist M} `{!Persist B}.
Implicit Types (self : BackupPersister M B).

Definition new (main : M) (backup : B) : BackupPersister M B := mkBackupPersister main backup false.

Definition main_is_ready self : bool := negb (p_recovery_required self.(main)) || self.(initial_restore_complete).

Definition on_main {A : Type} (m : method M Error A) : method (BackupPersister M B) Error A := fun self =>
  let '(x, r) := m self.(main) in (mkBackupPersister x self.(backup) self.(initial_restore_complete), r).

Definition on_backup {A : Type} (m : method B Error A) : method (BackupPersister M B) Error A := fun self =>
  let '(x, r) := m self.(backup) in (mkBackupPersister self.(main) x self.(initial_restore_complete), r).

(** Every write: the main persister first, if it is ready, then the backup. *)
Definition write_both (on_m : method M Error unit) (on_b : method B Error unit)
  : method (BackupPersister M B) Error unit :=
  self ← get_self;
  (if main_is_ready self then on_main on_m else mret tt) ;;
  on_backup on_b.

Definition read_one {A : Type} (from_main : M -> res Error A) (from_backup : B -> res Error A) self : res Error A :=
  if main_is_ready self then from_main self.(main) else from_backup self.(backup).

Definition new_node node_id config state := write_both (p_new_node node_id config state) (p_new_node node_id config state).
Definition update_node node_id state := write_both (p_update_node node_id state) (p_update_node node_id state).
Definition delete_node node_id := write_both (p_delete_node node_id) (p_delete_node node_id).
Definition new_channel node_id stub := write_both (p_new_channel node_id stub) (p_new_channel node_id stub).
Definition delete_channel node_id channel_id :=
  write_both (p_delete_channel node_id channel_id) (p_delete_channel node_id channel_id).
Definition new_tracker node_id tracker := write_both (p_new_tracker node_id tracker) (p_new_tracker node_id tracker).
Definition update_tracker node_id tracker :=
  write_both (p_update_tracker node_id tracker) (p_update_tracker node_id tracker).
Definition get_tracker self node_id :=
  read_one (fun m => p_get_tracker m node_id) (fun b => p_get_tracker b node_id) self.
Definition update_channel node_id channel :=
  write_both (p_update_channel node_id channel) (p_update_channel node_id channel).
Definition get_channel self node_id channel_id :=
  read_one (fun m => p_get_channel m node_id channel_id) (fun b => p_get_channel b node_id channel_id) self.
Definition get_node_channels self node_id :=
  read_one (fun m => p_get_node_channels m node_id) (fun b => p_get_node_channels b node_id) self.
Definition update_node_allowlist node_id allowlist :=
  write_both (p_update_node_allowlist node_id allowlist) (p_update_node_allowlist node_id allowlist).
Definition get_node_allowlist self node_id :=
  read_one (fun m => p_get_node_allowlist m node_id) (fun b => p_get_node_allowlist b node_id) self.
Definition get_nodes self := read_one (fun m => p_get_nodes m) (fun b => p_get_nodes b) self.

Definition clear_database : method (BackupPersister M B) Error unit :=
  on_main p_clear_database ;;
  on_backup p_clear_database.

Definition on_initial_restore self : BackupPersister M B * bool :=
  (mkBackupPersister self.(main) self.(backup) true, true).

Definition signer_id self : list Z := p_signer_id self.(main).
End Backup.
End Backup.

#[export] Instance BackupPersister_persist `{ChainPackages} {M B : Type} `{!Persist M} `{!Persist B}
  : Persist (BackupPersister M B) := {|
  p_enter := persist_default_enter;
  p_prepare := persist_default_prepare;
  p_commit := persist_default_commit;
  p_put_batch_unlogged := default_put_batch_unlogged;
  p_new_node := Backup.new_node;
  p_update_node := Backup.update_node;
  p_delete_node := Backup.delete_node;
  p_new_channel := Backup.new_channel;
  p_delete_channel := Backup.delete_channel;
  p_new_tracker := Backup.new_tracker;
  p_update_tracker := Backup.update_tracker;
  p_get_tracker := Backup.get_tracker;
  p_update_channel := Backup.update_channel;
  p_get_channel := Backup.get_channel;
  p_get_node_channels := Backup.get_node_channels;
  p_update_node_allowlist := Backup.update_node_allowlist;
  p_get_node_allowlist := Backup.get_node_allowlist;
  p_get_nodes := Backup.get_nodes;
  p_clear_database := Backup.clear_database;
  p_on_initial_restore := Backup.on_initial_restore;
  p_recovery_required := default_recovery_required;
  p_begin_replication := default_begin_replication;
  p_signer_id := Backup.signer_id
|}.

(** ** [ExternalPersistHelper]

    [hmac secret input] is the HMAC of the bytes given to the engine. *)
Section ExternalPersist.
Context (hmac : list Z -> list Z -> list Z).

Record ExternalPersistHelper := mkExternalPersistHelper { shared_secret : list Z; last_nonce : list Z }.

Definition ExternalPersistHelper_new (shared_secret : list Z) : ExternalPersistHelper :=
  mkExternalPersistHelper shared_secret (replicate 32 0).

(** [entropy] is what the entropy source returns. *)
Definition new_nonce (self : ExternalPersistHelper) (entropy : list Z) : ExternalPersistHelper * list Z :=
  (mkExternalPersistHelper self.(shared_secret) entropy, entropy).

(** [str::as_bytes]. *)
Fixpoint as_bytes (s : string) : list Z :=
  match s with
  | EmptyString => []
  | String a s' => Z.of_N (Ascii.N_of_ascii a) :: as_bytes s'
  end.

Definition add_to_hmac (key : string) (version : Z) (value : list Z) (engine : list Z) : list Z :=
  engine ++ as_bytes key ++ Redb.to_be_bytes 8 version ++ value.

Definition compute_shared_hmac (secret nonce : list Z) (kvs : Mutations) : list Z :=
  hmac secret (foldl (fun engine '(key, (version, value)) => add_to_hmac key version value engine)
                 (secret ++ nonce) kvs).

Definition client_hmac (self : ExternalPersistHelper) (kvs : Mutations) : list Z :=
  compute_shared_hmac self.(shared_secret) [1] kvs.

Definition server_hmac (self : ExternalPersistHelper) (kvs : Mutations) : list Z :=
  compute_shared_hmac self.(shared_secret) [2] kvs.

Definition check_hmac (self : ExternalPersistHelper) (kvs : Mutations) (received_hmac : list Z) : bool :=
  bool_decide (received_hmac = compute_shared_hmac self.(shared_secret) self.(last_nonce) kvs).
End ExternalPersist.
