(* ===== verification/PersisterSafety.v ===== *)
(** * What a persister keeps

    Over any lawful store and any serialization that round-trips, the channels
    that a node persisted are the channels that a restart finds. *)
From S2P Require Import Prelude Ordered Velocity Policy Types Bitcoin Enforcement SimpleValidator NodeState Channel TxValidator Monitor Tracker BTree Kvv KvvSpec KvvTx KvvSafety Persister.
From Stdlib Require Import Ascii.

(** ** Encodings *)
Definition bytes (l : list Z) : Prop := Forall (fun b => 0 <= b < 256) l.

Fixpoint no_separator (s : string) : bool :=
  match s with
  | EmptyString => true
  | String a s' => negb (Ascii.eqb a "/"%char) && no_separator s'
  end.

(** The value can be serialized, reads back, and is not the empty value of a
    tombstone. *)
Definition ser_ok {T : Type} `{ValueFormat T} (x : T) : Prop :=
  exists b, ser_value x = Ok b /\ b <> [] /\ de_value b = Ok x.

Class EncodingLaws `{Encodings} := {
  hex_roundtrip : forall b, bytes b -> hex_decode (hex_encode b) = Some b;
  hex_no_separator : forall b, bytes b -> no_separator (hex_encode b) = true;
  pubkey_bytes : forall k, bytes (pubkey_serialize k);
  pubkey_roundtrip : forall k, pubkey_from_slice (pubkey_serialize k) = Some k
}.

(** ** Strings *)
Lemma string_app_nil (a : string) : ("" ++ a = a)%string.
Proof. done. Qed.

Lemma string_app_cons (x : ascii) (p a : string) : (String x p ++ a = String x (p ++ a))%string.
Proof. done. Qed.

Lemma string_app_nil_r (a : string) : (a ++ "" = a)%string.
Proof. induction a as [|x a IH]; [done|]. by rewrite string_app_cons, IH. Qed.

Lemma string_app_assoc (a b c : string) : ((a ++ b) ++ c = a ++ b ++ c)%string.
Proof. induction a as [|x a IH]; [done|]. by rewrite !string_app_cons, IH. Qed.

Lemma prefix_app (p a b : string) : String.prefix (p ++ a) (p ++ b) = String.prefix a b.
Proof. induction p as [|x p IH]; [done|]. rewrite !string_app_cons. cbn. destruct (ascii_dec x x); [exact IH|done]. Qed.

Lemma prefix_refl (a b : string) : String.prefix a (a ++ b) = true.
Proof. rewrite <- (string_app_nil_r a) at 1. rewrite prefix_app. by destruct b. Qed.

Lemma strip_prefix_app (p s : string) : strip_prefix p (p ++ s) = Some s.
Proof. induction p as [|x p IH]; [done|]. rewrite string_app_cons. cbn. by rewrite Ascii.eqb_refl. Qed.

(** Up to the first separator. *)
Lemma prefix_separator (a b c d : string) :
  no_separator a = true -> no_separator b = true ->
  String.prefix (a ++ "/" ++ d) (b ++ "/" ++ c) = true -> a = b.
Proof.
  revert b. induction a as [|x a IH]; intros [|y b]; [done| | |]; cbn [no_separator];
    rewrite ?string_app_nil, ?string_app_cons; intros Ha Hb Hp; cbn [String.prefix] in Hp.
  - apply andb_true_iff in Hb as [Hy _]. destruct (ascii_dec "/" y) as [<-|]; done.
  - apply andb_true_iff in Ha as [Hx _]. destruct (ascii_dec x "/") as [->|]; done.
  - apply andb_true_iff in Ha as [_ Ha]. apply andb_true_iff in Hb as [_ Hb].
    destruct (ascii_dec x y) as [->|]; [|done]. f_equal. by apply IH.
Qed.

Lemma separator_inj (a b c d : string) :
  no_separator a = true -> no_separator b = true -> (a ++ "/" ++ c = b ++ "/" ++ d)%string -> a = b /\ c = d.
Proof.
  intros Ha Hb Heq. assert (a = b) as <-.
  { apply (prefix_separator a b d c Ha Hb). rewrite Heq. rewrite <- (string_app_nil_r (b ++ "/" ++ d)) at 2. apply prefix_refl. }
  split; [done|]. clear Ha Hb. induction a as [|x a IH]; [by injection Heq|].
  rewrite !string_app_cons in Heq. injection Heq as Heq. by apply IH.
Qed.

(** ** Keys *)
Lemma string_app_inj (p a b : string) : (p ++ a = p ++ b)%string -> a = b.
Proof. induction p as [|x p IH]; [done|]. rewrite !string_app_cons. intros [= Heq]. by apply IH. Qed.

Section KeyLemmas.
Context `{EncodingLaws}.

Lemma hex_inj (a b : list Z) : bytes a -> bytes b -> hex_encode a = hex_encode b -> a = b.
Proof. intros Ha Hb Heq. pose proof (hex_roundtrip a Ha) as Hr. rewrite Heq, hex_roundtrip in Hr by done. congruence. Qed.

Lemma pubkey_inj (n n' : PublicKey) : pubkey_serialize n = pubkey_serialize n' -> n = n'.
Proof. intros Heq. pose proof (pubkey_roundtrip n) as Hr. rewrite Heq, pubkey_roundtrip in Hr. congruence. Qed.

Lemma channel_key_inj (n n' : PublicKey) (c c' : ChannelId) :
  bytes c -> bytes c' -> channel_key n c = channel_key n' c' -> n = n' /\ c = c'.
Proof.
  intros Hc Hc' Heq. unfold channel_key, make_key2 in Heq. do 2 apply string_app_inj in Heq.
  apply separator_inj in Heq as [Hn Hcc]; [|apply hex_no_separator, pubkey_bytes..].
  split; [|by apply hex_inj]. apply pubkey_inj, hex_inj; [apply pubkey_bytes..|done].
Qed.

Definition node_prefix (n : PublicKey) : string :=
  (make_key CHANNEL_PREFIX (pubkey_serialize n) ++ SEPARATOR)%string.

Lemma channel_key_split (n : PublicKey) (c : ChannelId) : channel_key n c = (node_prefix n ++ hex_encode c)%string.
Proof.
  unfold channel_key, make_key2, node_prefix, make_key, SEPARATOR. rewrite !string_app_assoc. done.
Qed.

Lemma channel_key_prefix (n n' : PublicKey) (c : ChannelId) :
  starts_with (node_prefix n) (channel_key n' c) = true <-> n = n'.
Proof.
  split; [|intros ->; rewrite channel_key_split; apply prefix_refl].
  unfold starts_with, node_prefix, channel_key, make_key, make_key2, SEPARATOR.
  rewrite !string_app_assoc, prefix_app, prefix_app. intros Hp.
  apply (prefix_separator _ _ (hex_encode c) "") in Hp; [|apply hex_no_separator, pubkey_bytes..].
  apply pubkey_inj, hex_inj; [apply pubkey_bytes..|done].
Qed.

Lemma node_prefix_channel (n : PublicKey) (key : string) :
  starts_with (node_prefix n) key = true -> starts_with (CHANNEL_PREFIX ++ SEPARATOR) key = true.
Proof.
  unfold starts_with, node_prefix, make_key. rewrite !string_app_assoc.
  change (CHANNEL_PREFIX ++ SEPARATOR)%string with "channel/".
  change (CHANNEL_PREFIX ++ "/" ++ hex_encode (pubkey_serialize n) ++ SEPARATOR)%string
    with ("channel/" ++ hex_encode (pubkey_serialize n) ++ SEPARATOR)%string.
  generalize (hex_encode (pubkey_serialize n) ++ SEPARATOR)%string as t. generalize "channel/" as p. intros p t.
  revert key. induction p as [|x p IH]; intros key Hp; [by destruct key|]. rewrite string_app_cons in Hp.
  destruct key as [|y key]; [done|]. cbn [String.prefix] in *. destruct (ascii_dec x y); [by apply IH|done].
Qed.

Lemma ends_with_separator_app (s : string) : ends_with_separator (s ++ SEPARATOR) = true.
Proof.
  induction s as [|x s IH]; [done|]. rewrite string_app_cons. cbn [ends_with_separator].
  destruct (s ++ SEPARATOR)%string eqn:Hs; [|done]. by destruct s.
Qed.

Lemma channel_key_suffix {E : Type} (n : PublicKey) (c : ChannelId) :
  bytes c -> extract_key_suffix (E:=E) (node_prefix n) (channel_key n c) = Ok c.
Proof.
  intros Hc. unfold extract_key_suffix.
  assert (ends_with_separator (node_prefix n) = true) as -> by apply ends_with_separator_app.
  cbn [rassert mbind res_bind]. rewrite channel_key_split, strip_prefix_app. cbn [unwrap mbind res_bind].
  by rewrite hex_roundtrip.
Qed.

(** The other keys are not of channels. *)
Definition node_key (key : string) : Prop :=
  exists prefix id, key = make_key prefix id /\
    prefix ∈ [NODE_ENTRY_PREFIX; NODE_STATE_PREFIX; NODE_TRACKER_PREFIX; ALLOWLIST_PREFIX].

Lemma node_key_not_channel (key : string) :
  node_key key -> starts_with (CHANNEL_PREFIX ++ SEPARATOR) key = false.
Proof. intros (prefix & id & -> & Hin). unfold make_key.
  repeat (apply elem_of_cons in Hin as [->|Hin]; [done|]). by apply not_elem_of_nil in Hin.
Qed.

Lemma channel_key_is_channel (n : PublicKey) (c : ChannelId) :
  starts_with (CHANNEL_PREFIX ++ SEPARATOR) (channel_key n c) = true.
Proof. apply (node_prefix_channel n). by apply channel_key_prefix. Qed.
End KeyLemmas.

(** ** Puts *)
Definition bounded (k : Z) (m : vmap) : Prop := map_Forall (fun _ vv => 0 <= vv.1 < k) m.

Section Puts.
Context {S : Type} `{KVVLaws S}.

(** A put below the end of the version range succeeds and writes its key. *)
Lemma put_Ok (s : S) (k : Z) (key : string) (value : list Z) :
  kv_inv s -> bounded k (kv_view s) -> 0 <= k < 2 ^ 64 ->
  exists s' version, kv_put key value s = (s', Ok tt) /\ kv_inv s' /\
    kv_view s' = <[key := (version, value)]> (kv_view s) /\ bounded (k + 1) (kv_view s').
Proof.
  intros Hi Hb Hk. rewrite kv_put_spec by done.
  assert (Hv : exists v, next_version (fst <$> kv_view s !! key) = Ok v /\ 0 <= v <= k /\
                 entry_ok (kv_view s) key v value = true).
  { unfold entry_ok. destruct (kv_view s !! key) as [[ver val]|] eqn:Hm; cbn [fmap option_fmap option_map fst next_version].
    - pose proof (Hb key _ Hm) as Hver. cbn in Hver. exists (ver + 1). rewrite add_u64_Ok by (unfold uint; lia).
      split_and!; [done|lia|lia|]. apply orb_true_iff. left. lia.
    - exists 0. split_and!; done || lia. }
  destruct Hv as (v & -> & Hvk & Ho). rewrite call_Ok_bind.
  pose proof (kv_put_with_version_spec s key v value Hi ltac:(unfold uint; lia)) as [Hi' Hr].
  unfold spec_put_with_version in Hr. rewrite Ho in Hr.
  destruct (kv_put_with_version key v value s) as [s' r]. cbn [fst snd] in *. destruct Hr as [-> Hview].
  exists s', v. split_and!; [done..|]. rewrite Hview. apply map_Forall_insert_2; [cbn; lia|].
  eapply map_Forall_impl; [exact Hb|]. cbn. lia.
Qed.
End Puts.

(** ** The channels of a store *)
Section Persisted.
Context `{Profile} `{EncodingLaws} `{ChainPackages} {S : Type} `{!KVVStore S} `{!KVVLaws S}.
Context `{ValueFormat StoredNodeEntry} `{ValueFormat NodeStateEntry} `{ValueFormat ChannelEntry}
  `{ValueFormat (list string)} `{ValueFormat ChainTrackerEntry}.

Abbreviation channels := (gmap (PublicKey * ChannelId) (option ChannelEntry)) (only parsing).

(** What a value says of a channel: an entry, or that it was deleted. *)
Definition value_of (value : list Z) (o : option ChannelEntry) : Prop :=
  match o with Some e => value <> [] /\ de_value value = Ok e | None => value = [] end.

Record persisted (m : vmap) (chans : channels) : Prop := mkPersisted {
  persisted_entry : forall n c o, chans !! (n, c) = Some o ->
    exists version value, m !! channel_key n c = Some (version, value) /\ value_of value o;
  persisted_none : forall n c, bytes c -> chans !! (n, c) = None -> m !! channel_key n c = None;
  persisted_only : forall key vv, m !! key = Some vv -> starts_with (CHANNEL_PREFIX ++ SEPARATOR) key = true ->
    exists n c, key = channel_key n c /\ bytes c /\ is_Some (chans !! (n, c))
}.

Lemma persisted_empty : persisted ∅ ∅.
Proof. split; intros *; rewrite ?lookup_empty; done. Qed.

Lemma persisted_node_key (m : vmap) (chans : channels) (key : string) (vv : VV) :
  node_key key -> persisted m chans -> persisted (<[key := vv]> m) chans.
Proof.
  intros Hk Hp. assert (Hne : forall n c, channel_key n c <> key).
  { intros n c <-. apply node_key_not_channel in Hk. by rewrite channel_key_is_channel in Hk. }
  split.
  - intros n c o Ho. rewrite lookup_insert_ne by (intros Heq; by destruct (Hne n c)). by eapply persisted_entry.
  - intros n c Hc Hn. rewrite lookup_insert_ne by (intros Heq; by destruct (Hne n c)). by eapply persisted_none.
  - intros key' vv' Hl Hs. destruct (decide (key' = key)) as [->|Hkk].
    + apply node_key_not_channel in Hk. congruence.
    + rewrite lookup_insert_ne in Hl by done. by eapply persisted_only.
Qed.

Lemma persisted_channel (m : vmap) (chans : channels) (n : PublicKey) (c : ChannelId) (version : Z)
    (value : list Z) (o : option ChannelEntry) :
  bytes c -> (forall n' c', is_Some (chans !! (n', c')) -> bytes c') -> value_of value o -> persisted m chans ->
  persisted (<[channel_key n c := (version, value)]> m) (<[(n, c) := o]> chans).
Proof.
  intros Hc Hb Hv Hp. split.
  - intros n' c' o' Ho. destruct (decide ((n', c') = (n, c))) as [[= -> ->]|Hne].
    + rewrite lookup_insert_eq in Ho. injection Ho as <-. rewrite lookup_insert_eq. eauto.
    + rewrite lookup_insert_ne in Ho by done. rewrite lookup_insert_ne; [by eapply persisted_entry|].
      intros Heq. apply channel_key_inj in Heq as [-> ->]; [done|done|]. apply (Hb n'). by rewrite Ho.
  - intros n' c' Hc' Ho. destruct (decide ((n', c') = (n, c))) as [[= -> ->]|Hne];
      [by rewrite lookup_insert_eq in Ho|]. rewrite lookup_insert_ne in Ho by done.
    rewrite lookup_insert_ne; [by eapply persisted_none|].
    intros Heq. by apply channel_key_inj in Heq as [-> ->].
  - intros key vv Hl Hs. destruct (decide (key = channel_key n c)) as [->|Hne].
    + exists n, c. rewrite lookup_insert_eq. eauto.
    + rewrite lookup_insert_ne in Hl by done. destruct (persisted_only _ _ Hp key vv Hl Hs) as (n' & c' & -> & Hb' & Ho).
      exists n', c'. split_and!; [done..|]. rewrite lookup_insert_ne; [done|]. by intros [= -> ->].
Qed.

(** ** Operations of a persister *)
Inductive persist_op :=
  | PNewNode (n : PublicKey) (config : NodeConfig) (st : NodeState)
  | PUpdateNode (n : PublicKey) (st : NodeState)
  | PDeleteNode (n : PublicKey)
  | PNewChannel (n : PublicKey) (stub : ChannelStub)
  | PUpdateChannel (n : PublicKey) (channel : Channel)
  | PDeleteChannel (n : PublicKey) (c : ChannelId)
  | PUpdateTracker (n : PublicKey) (tracker : NodeTracker)
  | PUpdateAllowlist (n : PublicKey) (l : list string).

Definition run_persist (op : persist_op) : method S Error unit :=
  match op with
  | PNewNode n config st => new_node n config st
  | PUpdateNode n st => update_node n st
  | PDeleteNode n => delete_node n
  | PNewChannel n stub => new_channel n stub
  | PUpdateChannel n channel => update_channel n channel
  | PDeleteChannel n c => delete_channel n c
  | PUpdateTracker n tracker => update_tracker n tracker
  | PUpdateAllowlist n l => update_node_allowlist n l
  end.

(** The channels that the operations leave, as a map. *)
Definition spec_persist (op : persist_op) (chans : channels) : channels :=
  match op with
  | PNewChannel n stub => <[(n, stub.(stub_id0)) := Some (stub_entry stub)]> chans
  | PUpdateChannel n channel => <[(n, channel.(id0)) := Some (channel_entry channel)]> chans
  | PDeleteChannel n c => <[(n, c) := None]> chans
  | _ => chans
  end.

(** A channel id is a string of bytes, and what is written can be read. *)
Definition stored_node_entry (config : NodeConfig) : StoredNodeEntry :=
  mkStoredNodeEntry (key_derivation_style_u8 config.(config_style)) (network_to_string config.(config_network)).

Definition persist_op_ok (op : persist_op) : Prop :=
  match op with
  | PNewNode _ config st => ser_ok (stored_node_entry config) /\ ser_ok (NodeStateEntry_from st)
  | PUpdateNode _ st => ser_ok (NodeStateEntry_from st)
  | PDeleteNode _ => True
  | PNewChannel _ stub => bytes stub.(stub_id0) /\ ser_ok (stub_entry stub)
  | PUpdateChannel _ channel => bytes channel.(id0) /\ ser_ok (channel_entry channel)
  | PDeleteChannel _ c => bytes c
  | PUpdateTracker _ tracker => ser_ok (ChainTrackerEntry_from tracker)
  | PUpdateAllowlist _ l => ser_ok l
  end.

Fixpoint run_persists (ops : list persist_op) : method S Error unit :=
  match ops with [] => mret tt | op :: ops' => run_persist op ;; run_persists ops' end.

Definition spec_persists (ops : list persist_op) : channels := foldl (fun chans op => spec_persist op chans) ∅ ops.

(** A store that holds these channels, after [k] puts. *)
Definition holds (k : Z) (s : S) (chans : channels) : Prop :=
  kv_inv s /\ bounded k (kv_view s) /\ persisted (kv_view s) chans /\
  forall n c, is_Some (chans !! (n, c)) -> bytes c.

Lemma holds_mono (k k' : Z) (s : S) (chans : channels) : k <= k' -> holds k s chans -> holds k' s chans.
Proof.
  intros Hk (Hi & Hb & Hp & Hc). split_and!; [done| |done|done].
  eapply map_Forall_impl; [exact Hb|]. cbn. lia.
Qed.

Lemma holds_fresh (s : S) : kv_inv s -> kv_view s = ∅ -> holds 0 s ∅.
Proof.
  intros Hi He. split_and!; [done|by rewrite He; apply map_Forall_empty|rewrite He; apply persisted_empty|].
  intros n c. rewrite lookup_empty. by intros [].
Qed.

Lemma put_node_key (k : Z) (s : S) (chans : channels) (key : string) (value : list Z) :
  holds k s chans -> 0 <= k < 2 ^ 64 -> node_key key ->
  exists s', kv_put key value s = (s', Ok tt) /\ holds (k + 1) s' chans.
Proof.
  intros (Hi & Hb & Hp & Hc) Hk Hkey. destruct (put_Ok s k key value Hi Hb Hk) as (s' & v & Hput & Hi' & Hv & Hb').
  exists s'. split; [done|]. split_and!; [done|done| |done]. rewrite Hv. by apply persisted_node_key.
Qed.

Lemma put_channel_key (k : Z) (s : S) (chans : channels) (n : PublicKey) (c : ChannelId) (value : list Z)
    (o : option ChannelEntry) :
  holds k s chans -> 0 <= k < 2 ^ 64 -> bytes c -> value_of value o ->
  exists s', kv_put (channel_key n c) value s = (s', Ok tt) /\ holds (k + 1) s' (<[(n, c) := o]> chans).
Proof.
  intros (Hi & Hb & Hp & Hc) Hk Hbc Hval.
  destruct (put_Ok s k (channel_key n c) value Hi Hb Hk) as (s' & v & Hput & Hi' & Hv & Hb').
  exists s'. split; [done|]. split_and!; [done|done|rewrite Hv; by apply persisted_channel|].
  intros n' c' Ho. destruct (decide ((n', c') = (n, c))) as [[= -> ->]|Hne]; [done|].
  rewrite lookup_insert_ne in Ho by done. by eapply Hc.
Qed.

Lemma node_keys (id : list Z) :
  node_key (make_key NODE_ENTRY_PREFIX id) /\ node_key (make_key NODE_STATE_PREFIX id) /\
  node_key (make_key NODE_TRACKER_PREFIX id) /\ node_key (make_key ALLOWLIST_PREFIX id).
Proof. split_and!; eexists _, id; (split; [reflexivity|]); set_solver. Qed.

Lemma update_node_holds (k : Z) (s : S) (chans : channels) (n : PublicKey) (st : NodeState) :
  holds k s chans -> 0 <= k < 2 ^ 64 -> ser_ok (NodeStateEntry_from st) ->
  exists s', update_node n st s = (s', Ok tt) /\ holds (k + 1) s' chans.
Proof.
  intros Hh Hk (b & Hb & _). unfold update_node. rewrite Hb.
  rewrite call_Ok_bind. apply put_node_key; [done|done|apply node_keys].
Qed.

Lemma run_persist_holds (op : persist_op) (k : Z) (s : S) (chans : channels) :
  holds k s chans -> 0 <= k -> k + 2 < 2 ^ 64 -> persist_op_ok op ->
  exists s', run_persist op s = (s', Ok tt) /\ holds (k + 2) s' (spec_persist op chans).
Proof.
  intros Hh Hk0 Hk Hop. assert (Hput : forall key value s1 k1, holds k1 s1 chans -> k <= k1 <= k + 1 -> node_key key ->
    exists s2, kv_put key value s1 = (s2, Ok tt) /\ holds (k1 + 1) s2 chans)
    by (intros; apply put_node_key; [done|lia|done]).
  assert (Hlast : forall s1 chans', holds (k + 1) s1 chans' -> holds (k + 2) s1 chans')
    by (intros; eapply holds_mono; [|done]; lia).
  pose proof node_keys as Hkeys.
  destruct op as [n config st|n st|n|n stub|n ch|n c|n t|n l]; cbn [run_persist spec_persist persist_op_ok] in *;
    destruct (Hkeys (pubkey_serialize n)) as (K1 & K2 & K3 & K4).
  - destruct Hop as [(b & Hb & _) Hst]. unfold new_node.
    destruct (update_node_holds k s chans n st Hh ltac:(lia) Hst) as (s1 & Hp1 & Hh1).
    unfold mbind at 1, method_bind at 1, unwrap_call. rewrite Hp1. fold (stored_node_entry config).
    rewrite Hb, call_Ok_bind. destruct (Hput _ b s1 (k + 1) Hh1 ltac:(lia) K1) as (s2 & -> & Hh2).
    exists s2. split; [done|]. by replace (k + 2) with (k + 1 + 1) by lia.
  - destruct (update_node_holds k s chans n st Hh ltac:(lia) Hop) as (s1 & -> & Hh1). eauto.
  - unfold delete_node. destruct (Hput _ [] s k Hh ltac:(lia) K1) as (s1 & Hp1 & Hh1).
    unfold mbind, method_bind. rewrite kv_delete_spec, Hp1, kv_delete_spec.
    destruct (Hput _ [] s1 (k + 1) Hh1 ltac:(lia) K2) as (s2 & -> & Hh2). exists s2. split; [done|].
    by replace (k + 2) with (k + 1 + 1) by lia.
  - destruct Hop as [Hc (b & Hser & Hb & Hd)]. unfold new_channel. rewrite Hser, call_Ok_bind.
    destruct (put_channel_key k s chans n _ b (Some (stub_entry stub)) Hh ltac:(lia) Hc) as (s1 & -> & Hh1); eauto.
    by split.
  - destruct Hop as [Hc (b & Hser & Hb & Hd)]. unfold update_channel. rewrite Hser, call_Ok_bind.
    destruct (put_channel_key k s chans n _ b (Some (channel_entry ch)) Hh ltac:(lia) Hc) as (s1 & -> & Hh1); eauto.
    by split.
  - unfold delete_channel. rewrite kv_delete_spec.
    destruct (put_channel_key k s chans n c [] None Hh ltac:(lia) Hop) as (s1 & -> & Hh1); eauto. done.
  - destruct Hop as (b & Hser & _). unfold update_tracker. rewrite Hser, call_Ok_bind.
    destruct (Hput _ b s k Hh ltac:(lia) K3) as (s1 & -> & Hh1). eauto.
  - destruct Hop as (b & Hser & _). unfold update_node_allowlist. rewrite Hser, call_Ok_bind.
    destruct (Hput _ b s k Hh ltac:(lia) K4) as (s1 & -> & Hh1). eauto.
Qed.

Lemma run_persists_holds (ops : list persist_op) (k : Z) (s : S) (chans : channels) :
  holds k s chans -> 0 <= k -> k + 2 * Z.of_nat (length ops) < 2 ^ 64 -> Forall persist_op_ok ops ->
  exists s' k', run_persists ops s = (s', Ok tt) /\
    holds k' s' (foldl (fun chans op => spec_persist op chans) chans ops).
Proof.
  revert k s chans. induction ops as [|op ops IH]; intros k s chans Hh Hk0 Hk Hops; [by eexists _, _|].
  apply Forall_cons in Hops as [Hop Hops]. cbn [length] in Hk.
  destruct (run_persist_holds op k s chans Hh Hk0 ltac:(lia) Hop) as (s1 & Hr & Hh1).
  cbn [run_persists foldl]. unfold mbind, method_bind. rewrite Hr. apply (IH (k + 2)); [done|lia|lia|done].
Qed.
End Persisted.

(** ** Reading the channels back *)
Section Restored.
Context `{Profile} `{EncodingLaws} `{ChainPackages} {S : Type} `{!KVVStore S} `{!KVVLaws S}.
Context `{ValueFormat StoredNodeEntry} `{ValueFormat NodeStateEntry} `{ValueFormat ChannelEntry}
  `{ValueFormat (list string)} `{ValueFormat ChainTrackerEntry}.

Abbreviation channels := (gmap (PublicKey * ChannelId) (option ChannelEntry)) (only parsing).

Lemma get_channel_holds (k : Z) (s : S) (chans : channels) (n : PublicKey) (c : ChannelId) :
  holds k s chans -> bytes c ->
  get_channel s n c = match chans !! (n, c) with Some (Some e) => Ok e | _ => Err NotFound end.
Proof.
  intros (Hi & _ & Hp & _) Hc. unfold get_channel. rewrite kv_get_spec by done. cbn [mbind res_bind].
  destruct (chans !! (n, c)) as [o|] eqn:Ho.
  - destruct (persisted_entry _ _ Hp n c o Ho) as (ver & val & -> & Hv). cbn [ok_or mbind res_bind].
    destruct o as [e|]; cbn [value_of] in Hv; [|by subst val]. destruct Hv as [Hne Hd].
    by rewrite bool_decide_false.
  - by rewrite (persisted_none _ _ Hp n c Hc Ho).
Qed.

(** The entries of one node. *)
Definition node_entry_of (chans : channels) (n : PublicKey) (kv : KVV) : Prop :=
  exists c o, kv.1 = channel_key n c /\ bytes c /\ chans !! (n, c) = Some o /\ value_of kv.2.2 o.

Lemma node_channel_entry (chans : channels) (n : PublicKey) (kv : KVV) :
  node_entry_of chans n kv ->
  exists c o, kv.1 = channel_key n c /\ bytes c /\ chans !! (n, c) = Some o /\
    node_channel (node_prefix n) kv = Ok ((fun e => (c, e)) <$> o).
Proof.
  destruct kv as [key [ver val]]. intros (c & o & Hk & Hc & Ho & Hv). cbn [fst snd] in *. exists c, o.
  split_and!; [done..|]. unfold node_channel. destruct o as [e|]; cbn [value_of] in Hv; [|by subst val].
  destruct Hv as [Hne Hd]. rewrite bool_decide_false by done. rewrite Hk, channel_key_suffix by done.
  cbn [mbind res_bind]. by rewrite Hd.
Qed.

Lemma node_channels_list (chans : channels) (n : PublicKey) (kvs : list KVV) :
  Forall (node_entry_of chans n) kvs -> NoDup kvs.*1 ->
  exists found, map_res (node_channel (node_prefix n)) kvs = Ok found /\
    NoDup (omap (M:=list) id found).*1 /\
    forall c e, (c, e) ∈ omap (M:=list) id found <->
      (channel_key n c ∈ kvs.*1 /\ bytes c /\ chans !! (n, c) = Some (Some e)).
Proof.
  induction kvs as [|kv kvs IH]; intros Hall Hn.
  { exists []. split_and!; [done|constructor|]. intros c e. cbn. rewrite !elem_of_nil. tauto. }
  apply Forall_cons in Hall as [Hkv Hall]. apply NoDup_cons in Hn as [Hnot Hn].
  destruct (IH Hall Hn) as (found & Hf & Hnd & Hin). clear IH.
  destruct (node_channel_entry chans n kv Hkv) as (c & o & Hk & Hc & Ho & He).
  cbn [map_res]. rewrite He. cbn [mbind res_bind]. rewrite Hf. exists (((fun e => (c, e)) <$> o) :: found).
  split; [done|]. cbn [fmap list_fmap]. rewrite Hk in Hnot |- *.
  destruct o as [e|]; cbn [fmap option_fmap option_map]; cbn [omap list_omap]; cbn [id].
  - split.
    + cbn [fmap list_fmap fst]. apply NoDup_cons. split; [|done].
      intros ([c' e'] & -> & Hce)%list_elem_of_fmap. cbn [fst] in *. by apply Hin in Hce as [Hck _].
    + intros c' e'. rewrite elem_of_cons, Hin, elem_of_cons. split.
      * intros [[= -> ->]|(Hck & Hb & Hce)]; [by auto|]. by auto.
      * intros ([Heq|Hck] & Hb & Hce); [|by auto]. apply channel_key_inj in Heq as [_ ->]; [|done..].
        left. congruence.
  - split; [done|]. intros c' e'. rewrite Hin, elem_of_cons. split; [by intros (? & ? & ?); auto|].
    intros ([Heq|Hck] & Hb & Hce); [|done]. apply channel_key_inj in Heq as [_ ->]; [|done..]. congruence.
Qed.

Lemma get_node_channels_holds (k : Z) (s : S) (chans : channels) (n : PublicKey) :
  holds k s chans ->
  exists l, get_node_channels s n = Ok l /\ NoDup l.*1 /\
    forall c e, (c, e) ∈ l <-> chans !! (n, c) = Some (Some e).
Proof.
  intros (Hi & _ & Hp & Hb). unfold get_node_channels. fold (node_prefix n). rewrite kv_get_prefix_spec by done.
  cbn [mbind res_bind]. rewrite prefix_entries_filter.
  set (kvs := filter _ (btree_iter (kv_view s))).
  assert (Hkvs : forall key vv, (key, vv) ∈ kvs <-> starts_with (node_prefix n) key = true /\ kv_view s !! key = Some vv)
    by (intros; unfold kvs; by rewrite list_elem_of_filter, btree_iter_elem).
  destruct (node_channels_list chans n kvs) as (found & Hf & Hnd & Hin).
  - apply Forall_forall. intros [key [ver val]] [Hs Hl]%Hkvs.
    destruct (persisted_only _ _ Hp key _ Hl (node_prefix_channel n key Hs)) as (n' & c & -> & Hc & o & Ho).
    apply channel_key_prefix in Hs as <-. destruct (persisted_entry _ _ Hp n c o Ho) as (ver' & val' & Hl' & Hv).
    rewrite Hl' in Hl. injection Hl as -> ->. exists c, o. done.
  - eapply sublist_NoDup; [exact (btree_iter_NoDup (kv_view s))|]. apply fmap_sublist, sublist_filter.
  - exists (omap (M:=list) id found). rewrite Hf. split_and!; [done|done|]. intros c e. rewrite Hin. split; [tauto|].
    intros Hce. split_and!; [|by eapply Hb|done].
    destruct (persisted_entry _ _ Hp n c _ Hce) as (ver & val & Hl & _).
    apply list_elem_of_fmap. exists (channel_key n c, (ver, val)). split; [done|]. apply Hkvs. split; [|done].
    by apply channel_key_prefix.
Qed.

End Restored.

(** ** Contracts of the trait that the store does not keep *)
Section Contracts.
Context `{Profile} `{EncodingLaws} `{ChainPackages} {S : Type} `{!KVVStore S} `{!KVVLaws S}.
Context `{ValueFormat StoredNodeEntry} `{ValueFormat NodeStateEntry} `{ValueFormat ChannelEntry}
  `{ValueFormat (list string)} `{ValueFormat ChainTrackerEntry}.

(** Creating a channel that is already stored does not fail: it replaces the
    enforcement state of the ready channel by the entry of a fresh stub. *)
Theorem new_channel_overwrites (k : Z) (s : S) (chans : gmap (PublicKey * ChannelId) (option ChannelEntry))
    (n : PublicKey) (channel : Channel) (stub : ChannelStub) :
  holds k s chans -> 0 <= k -> k + 4 < 2 ^ 64 ->
  persist_op_ok (PUpdateChannel n channel) -> persist_op_ok (PNewChannel n stub) -> stub.(stub_id0) = channel.(id0) ->
  exists s1 s2, update_channel n channel s = (s1, Ok tt) /\ get_channel s1 n channel.(id0) = Ok (channel_entry channel) /\
    new_channel n stub s1 = (s2, Ok tt) /\ get_channel s2 n channel.(id0) = Ok (stub_entry stub).
Proof.
  intros Hh Hk0 Hk Hc Hs Hid. assert (Hb : bytes channel.(id0)) by apply Hc.
  destruct (run_persist_holds _ k s chans Hh Hk0 ltac:(lia) Hc) as (s1 & Hr1 & Hh1).
  destruct (run_persist_holds _ (k + 2) s1 _ Hh1 ltac:(lia) ltac:(lia) Hs) as (s2 & Hr2 & Hh2).
  exists s1, s2. split; [exact Hr1|]. rewrite (get_channel_holds _ _ _ n _ Hh1 Hb).
  split; [cbn [spec_persist]; by rewrite lookup_insert_eq|]. split; [exact Hr2|].
  rewrite (get_channel_holds _ _ _ n _ Hh2 Hb). cbn [spec_persist]. by rewrite Hid, lookup_insert_eq.
Qed.

(** Deleting a node leaves its channels in the store. *)
Theorem delete_node_keeps_channels (k : Z) (s : S) (chans : gmap (PublicKey * ChannelId) (option ChannelEntry))
    (n : PublicKey) (c : ChannelId) :
  holds k s chans -> 0 <= k -> k + 2 < 2 ^ 64 -> bytes c ->
  exists s', delete_node n s = (s', Ok tt) /\ get_channel s' n c = get_channel s n c.
Proof.
  intros Hh Hk0 Hk Hc. destruct (run_persist_holds (PDeleteNode n) k s chans Hh Hk0 Hk I) as (s' & Hr & Hh').
  exists s'. split; [exact Hr|]. by rewrite (get_channel_holds _ _ _ n c Hh' Hc), (get_channel_holds _ _ _ n c Hh Hc).
Qed.
End Contracts.

(** ** The composite persister *)
Section BackupSync.
Context `{Profile} `{EncodingLaws} `{ChainPackages}.
Context {M B : Type} `{!KVVStore M} `{!KVVLaws M} `{!KVVStore B} `{!KVVLaws B}.
Context `{ValueFormat StoredNodeEntry} `{ValueFormat NodeStateEntry} `{ValueFormat ChannelEntry}
  `{ValueFormat (list string)} `{ValueFormat ChainTrackerEntry}.
Context (hash_preimage : Z -> Z).
#[local] Instance main_persist : Persist M := KVVPersister_persist hash_preimage.
#[local] Instance backup_persist : Persist B := KVVPersister_persist hash_preimage.

(** The operations of the trait. *)
Definition p_run {P : Type} `{!Persist P} (op : persist_op) : method P Error unit :=
  match op with
  | PNewNode n config st => p_new_node n config st
  | PUpdateNode n st => p_update_node n st
  | PDeleteNode n => p_delete_node n
  | PNewChannel n stub => p_new_channel n stub
  | PUpdateChannel n channel => p_update_channel n channel
  | PDeleteChannel n c => p_delete_channel n c
  | PUpdateTracker n tracker => p_update_tracker n tracker
  | PUpdateAllowlist n l => p_update_node_allowlist n l
  end.

Fixpoint p_runs {P : Type} `{!Persist P} (ops : list persist_op) : method P Error unit :=
  match ops with [] => mret tt | op :: ops' => p_run op ;; p_runs ops' end.

Lemma backup_run (op : persist_op) (b : BackupPersister M B) :
  p_run op b = Backup.write_both (run_persist op) (run_persist op) b.
Proof. by destruct op. Qed.

Lemma backup_runs_hold (ops : list persist_op) (k : Z) (b : BackupPersister M B)
    (chans : gmap (PublicKey * ChannelId) (option ChannelEntry)) :
  holds k b.(main) chans -> holds k b.(backup) chans -> 0 <= k -> k + 2 * Z.of_nat (length ops) < 2 ^ 64 ->
  Forall persist_op_ok ops ->
  exists b' k', p_runs ops b = (b', Ok tt) /\
    holds k' b'.(main) (foldl (fun chans op => spec_persist op chans) chans ops) /\
    holds k' b'.(backup) (foldl (fun chans op => spec_persist op chans) chans ops).
Proof.
  revert k b chans. induction ops as [|op ops IH]; intros k b chans Hm Hb Hk0 Hk Hops; [by eexists _, _|].
  apply Forall_cons in Hops as [Hop Hops]. cbn [length] in Hk.
  destruct (run_persist_holds op k b.(main) chans Hm Hk0 ltac:(lia) Hop) as (m1 & Hr1 & Hm1).
  destruct (run_persist_holds op k b.(backup) chans Hb Hk0 ltac:(lia) Hop) as (b1 & Hr2 & Hb1).
  cbn [p_runs foldl]. unfold mbind, method_bind. rewrite backup_run.
  assert (Backup.write_both (run_persist op) (run_persist op) b
    = (mkBackupPersister m1 b1 b.(initial_restore_complete), Ok tt)) as ->.
  { unfold Backup.write_both. rewrite get_bind. unfold mbind, method_bind, Backup.on_main, Backup.on_backup.
    cbn. rewrite Hr1. cbn. by rewrite Hr2. }
  apply (IH (k + 2)); [done|done|lia|lia|done].
Qed.

(** With stores as main and backup, every persistence call that the composite
    persister makes reaches both, so that the channels read from the backup alone
    are those read from the main persister: the ones written last. *)
Theorem backup_keeps_channels (ops : list persist_op) (m : M) (b : B) :
  kv_inv m -> kv_view m = ∅ -> kv_inv b -> kv_view b = ∅ ->
  Forall persist_op_ok ops -> 2 * Z.of_nat (length ops) < 2 ^ 64 ->
  exists b', p_runs ops (Backup.new m b) = (b', Ok tt) /\
    forall n c, bytes c ->
      Backup.get_channel b' n c = p_get_channel b'.(backup) n c /\
      p_get_channel b'.(backup) n c
        = match spec_persists ops !! (n, c) with Some (Some e) => Ok e | _ => Err NotFound end.
Proof.
  intros Hi He Hi' He' Hops Hlen. assert (Hm : holds 0 m ∅) by (by apply holds_fresh).
  assert (Hb : holds 0 b ∅) by (by apply holds_fresh).
  destruct (backup_runs_hold ops 0 (Backup.new m b) ∅ Hm Hb ltac:(lia) ltac:(lia) Hops) as (b' & k' & Hr & Hm' & Hb').
  exists b'. split; [done|]. intros n c Hc.
  assert (Hg : p_get_channel b'.(backup) n c = match spec_persists ops !! (n, c) with Some (Some e) => Ok e | _ => Err NotFound end)
    by (exact (get_channel_holds k' _ _ n c Hb' Hc)).
  split; [|exact Hg]. rewrite Hg. exact (get_channel_holds k' _ _ n c Hm' Hc).
Qed.
End BackupSync.

Section BackupContext.
Context `{Profile} `{EncodingLaws} `{ChainPackages}.
Context {M L : Type} `{!KVVStore M} `{!KVVLaws M} `{!KVVStore L} `{!KVVLaws L}.
Context `{ValueFormat StoredNodeEntry} `{ValueFormat NodeStateEntry} `{ValueFormat ChannelEntry}
  `{ValueFormat (list string)} `{ValueFormat ChainTrackerEntry}.
Context (hash_preimage : Z -> Z).
#[local] Instance main_store_persist : Persist M := KVVPersister_persist hash_preimage.
#[local] Instance cloud_store_persist : Persist (CloudKVVStore L) := KVVPersister_persist hash_preimage.

(** The composite persister does not pass [enter] on to its backup: with a cloud
    store as the backup, a channel update between [enter] and [commit] panics after
    the main persister was written. *)
Theorem backup_context_not_entered (m m' : M) (store : L) (n : PublicKey) (channel : Channel) :
  kv_inv store -> ser_ok (channel_entry channel) -> update_channel n channel m = (m', Ok tt) ->
  let s := (p_enter (Backup.new m (Cloud.new store))).1 in
  (p_enter (Backup.new m (Cloud.new store))).2 = Ok tt /\
  (p_update_channel n channel s).2 = Panic /\ (p_update_channel n channel s).1.(main) = m'.
Proof.
  intros Hi (b & Hser & _) Hm. cbv zeta.
  assert (Hp : exists c, update_channel n channel (Cloud.new store) = (c, Panic)).
  { unfold update_channel. rewrite Hser, call_Ok_bind. cbn [kv_put CloudKVVStore_kvv]. unfold Cloud.put.
    rewrite get_bind. cbn [Cloud.new local]. rewrite kv_get_version_spec by done. rewrite call_Ok_bind.
    destruct (next_version _) as [v|e|] eqn:Hv; [eexists; reflexivity| |eexists; reflexivity].
    exfalso. destruct (kv_view store !! _) as [[ver val]|]; cbn in Hv; [|done]. unfold add_u64, arith in Hv.
    destruct (in_range _ _); [done|]. by destruct overflow_checks. }
  destruct Hp as [c Hp]. split; [done|].
  assert (p_update_channel n channel (Backup.new m (Cloud.new store)) = (mkBackupPersister m' c false, Panic)) as Hpu.
  { cbn [p_update_channel BackupPersister_persist]. unfold Backup.update_channel, Backup.write_both. rewrite get_bind.
    unfold mbind, method_bind, Backup.on_main, Backup.on_backup. cbn. rewrite Hm. cbn. by rewrite Hp. }
  cbn [p_enter BackupPersister_persist persist_default_enter mret method_ret fst]. by rewrite Hpu.
Qed.
End BackupContext.

(** ** Authentication codes of external storage *)
Section Hmac.
Context (hmac : list Z -> list Z -> list Z).

(** The bytes that the code covers. *)
Definition kvs_bytes (kvs : Mutations) : list Z :=
  concat ((fun kvv => as_bytes kvv.1 ++ Redb.to_be_bytes 8 kvv.2.1 ++ kvv.2.2) <$> kvs).

Lemma compute_shared_hmac_bytes (secret nonce : list Z) (kvs : Mutations) :
  compute_shared_hmac hmac secret nonce kvs = hmac secret (secret ++ nonce ++ kvs_bytes kvs).
Proof.
  unfold compute_shared_hmac. f_equal. rewrite app_assoc. generalize (secret ++ nonce) as engine.
  induction kvs as [|[key [version value]] kvs IH]; intros engine; [cbn; by rewrite app_nil_r|].
  cbn [foldl]. rewrite IH. unfold add_to_hmac, kvs_bytes. cbn [concat fmap list_fmap fst snd]. by rewrite <- !app_assoc.
Qed.

(** The code does not delimit the fields it covers: two consecutive mutations
    and the single mutation whose value also holds the second key, version and
    value have the same code, so the signer accepts one for the other. *)
Theorem hmac_does_not_delimit (self : ExternalPersistHelper) (key1 key2 : string) (version1 version2 : Z)
    (value1 value2 : list Z) (kvs : Mutations) (received : list Z) :
  let joined := value1 ++ as_bytes key2 ++ Redb.to_be_bytes 8 version2 ++ value2 in
  check_hmac hmac self ((key1, (version1, value1)) :: (key2, (version2, value2)) :: kvs) received
  = check_hmac hmac self ((key1, (version1, joined)) :: kvs) received.
Proof.
  cbv zeta. unfold check_hmac. rewrite !compute_shared_hmac_bytes. unfold kvs_bytes. cbn [concat fmap list_fmap fst snd].
  by rewrite <- !app_assoc.
Qed.

Lemma kvs_bytes_inj (kvs kvs' : Mutations) :
  (fun kvv => (kvv.1, length kvv.2.2)) <$> kvs = (fun kvv => (kvv.1, length kvv.2.2)) <$> kvs' ->
  Forall (fun kvv => u64 kvv.2.1) kvs -> Forall (fun kvv => u64 kvv.2.1) kvs' ->
  kvs_bytes kvs = kvs_bytes kvs' -> kvs = kvs'.
Proof.
  revert kvs'. induction kvs as [|[k [v x]] kvs IH]; intros [|[k' [v' x']] kvs']; try done.
  intros [= -> Hlen Hs] Hu Hu' Hb. apply Forall_cons in Hu as [Hv Hu], Hu' as [Hv' Hu'].
  unfold kvs_bytes in Hb. cbn [concat fmap list_fmap fst snd] in Hb, Hv, Hv'. rewrite <- !app_assoc in Hb. apply app_inv_head in Hb.
  apply app_inj_1 in Hb as [Hver Hb]; [|by rewrite !length_be_bytes].
  apply app_inj_1 in Hb as [-> Hb]; [|done].
  assert (v = v') as -> by (rewrite <- (from_to_be_bytes v), Hver by done; by apply from_to_be_bytes).
  f_equal. by apply IH.
Qed.

(** Mutations with the same keys in the same order and values of the same
    lengths are bound by the code: if HMAC has no collision on what is signed, the
    signer accepts for a response only the mutations that the server signed. *)
Theorem hmac_binds_values (self : ExternalPersistHelper) (kvs kvs' : Mutations) :
  (forall a b, hmac self.(shared_secret) a = hmac self.(shared_secret) b -> a = b) ->
  (fun kvv => (kvv.1, length kvv.2.2)) <$> kvs = (fun kvv => (kvv.1, length kvv.2.2)) <$> kvs' ->
  Forall (fun kvv => u64 kvv.2.1) kvs -> Forall (fun kvv => u64 kvv.2.1) kvs' ->
  check_hmac hmac self kvs' (compute_shared_hmac hmac self.(shared_secret) self.(last_nonce) kvs) = true ->
  kvs = kvs'.
Proof.
  intros Hinj Hs Hu Hu' Hc. unfold check_hmac in Hc. apply bool_decide_eq_true in Hc.
  rewrite !compute_shared_hmac_bytes in Hc. apply Hinj, app_inv_head, app_inv_head in Hc.
  by apply kvs_bytes_inj.
Qed.
End Hmac.

(** ** Sample encodings *)
Definition hex_digits : list ascii := String.list_ascii_of_string "0123456789abcdef".

Definition hex_digit (d : Z) : ascii := nth (Z.to_nat d) hex_digits "0"%char.

Definition unhex_digit (a : ascii) : option Z :=
  let n := Z.of_N (N_of_ascii a) in
  if (48 <=? n) && (n <=? 57) then Some (n - 48)
  else if (97 <=? n) && (n <=? 102) then Some (n - 87) else None.

Fixpoint sample_hex (l : list Z) : string :=
  match l with [] => "" | b :: l' => String (hex_digit (b / 16)) (String (hex_digit (b mod 16)) (sample_hex l')) end.

Fixpoint sample_unhex (s : string) : option (list Z) :=
  match s with
  | "" => Some []
  | String a (String b s') =>
      match unhex_digit a, unhex_digit b, sample_unhex s' with
      | Some x, Some y, Some l => Some (16 * x + y :: l)
      | _, _, _ => None
      end
  | _ => None
  end.

Definition byte_ok (b : Z) : bool :=
  bool_decide (unhex_digit (hex_digit (b / 16)) = Some (b / 16)) &&
  bool_decide (unhex_digit (hex_digit (b mod 16)) = Some (b mod 16)) &&
  negb (Ascii.eqb (hex_digit (b / 16)) "/"%char) && negb (Ascii.eqb (hex_digit (b mod 16)) "/"%char).

Lemma byte_ok_all (b : Z) : 0 <= b < 256 -> byte_ok b = true.
Proof.
  intros Hb. assert (Hall : forallb byte_ok (seqZ 0 256) = true) by (vm_compute; reflexivity).
  rewrite forallb_forall in Hall. apply Hall, list_elem_of_In, elem_of_seqZ. lia.
Qed.

#[export] Instance sample_encodings : Encodings := {|
  hex_encode := sample_hex;
  hex_decode := sample_unhex;
  pubkey_serialize k := if 0 <=? k then replicate (Z.to_nat k) 1 else 0 :: replicate (Z.to_nat (- k)) 1;
  pubkey_from_slice l := match l with 0 :: r => Some (- Z.of_nat (length r)) | _ => Some (Z.of_nat (length l)) end;
  network_to_string _ := "bitcoin";
  network_parse s := if bool_decide (s = "bitcoin") then Some Bitcoin else None;
  allowable_from_str _ _ := None;
  serialize_headers h := [h.(filter_header)];
  deserialize_headers _ := None;
  deserialize_block_header _ := None
|}.

#[export] Instance sample_encoding_laws : EncodingLaws.
Proof.
  split.
  - induction 1 as [|b l Hb _ IH]; [done|]. pose proof (byte_ok_all b Hb) as Ho. unfold byte_ok in Ho.
    rewrite !andb_true_iff, !bool_decide_eq_true in Ho. destruct Ho as [[[H1 H2] _] _].
    cbn [hex_encode hex_decode sample_encodings sample_hex sample_unhex] in *. rewrite H1, H2, IH.
    rewrite <- Z.div_mod by lia. done.
  - induction 1 as [|b l Hb _ IH]; [done|]. pose proof (byte_ok_all b Hb) as Ho. unfold byte_ok in Ho.
    rewrite !andb_true_iff in Ho. destruct Ho as [[_ H1] H2].
    cbn [hex_encode sample_encodings sample_hex no_separator] in *. by rewrite H1, H2, IH.
  - intros k. cbn. unfold bytes. destruct (0 <=? k); [|constructor; [lia|]]; apply Forall_replicate; lia.
  - intros k. cbn. destruct (Z.leb_spec 0 k).
    + destruct (Z.to_nat k) eqn:Hk; cbn; [f_equal; lia|]. rewrite length_replicate. f_equal. lia.
    + rewrite length_replicate. f_equal. lia.
Qed.

Definition sample_chain_packages : ChainPackages :=
  Build_ChainPackages (fun h => h.(rest)) id id id (fun _ t => t) (fun _ _ => true) (fun _ _ _ _ _ _ => true)
    unit tt (fun _ _ => None) (fun _ => true).

Definition sample_stub : ChannelStub := mkChannelStub [9] 100.
Definition kept_channel : Channel :=
  mkChannel (EnforcementState_new 1000000) sample_setup [9] None sample_chain None None None.
Definition sample_control_state : NodeState :=
  NodeState_new (mkVelocityControl 0 300 [] 0) (mkVelocityControl 0 300 [] 0) [].

(** Values told apart by a byte. *)
#[local] Instance format_stored : ValueFormat StoredNodeEntry :=
  {| ser_value _ := Ok [1]; de_value _ := Ok (mkStoredNodeEntry 1 "bitcoin") |}.
#[local] Instance format_state : ValueFormat NodeStateEntry :=
  {| ser_value _ := Ok [1]; de_value _ := Ok (NodeStateEntry_from sample_control_state) |}.
#[local] Instance format_channel : ValueFormat ChannelEntry :=
  {| ser_value e := Ok [match e.(entry_blockheight) with Some _ => 1 | None => 2 end];
     de_value b := Ok (if bool_decide (b = [1]) then stub_entry sample_stub else channel_entry kept_channel) |}.
#[local] Instance format_allowlist : ValueFormat (list string) := {| ser_value _ := Ok [1]; de_value _ := Ok [] |}.
#[local] Instance format_tracker : ValueFormat ChainTrackerEntry :=
  {| ser_value _ := Ok [1]; de_value _ := Err SerdeError |}.

Section PersistWitness.
#[local] Existing Instance debug_profile.
#[local] Existing Instance sample_chain_packages.


Lemma sample_ops_ok :
  bytes [9] /\ persist_op_ok (PUpdateChannel 7 kept_channel) /\ persist_op_ok (PNewChannel 7 sample_stub).
Proof.
  assert (H9 : bytes [9]) by (constructor; [lia|constructor]).
  split; [exact H9|]. split; (split; [exact H9|]); [by exists [2]|by exists [1]].
Qed.

Lemma new_channel_overwrites_witness :
  exists s1 s2, update_channel 7 kept_channel (Memory.new [0]) = (s1, Ok tt) /\
    get_channel s1 7 [9] = Ok (channel_entry kept_channel) /\
    new_channel 7 sample_stub s1 = (s2, Ok tt) /\ get_channel s2 7 [9] = Ok (stub_entry sample_stub).
Proof.
  destruct sample_ops_ok as (H9 & Hu & Hn).
  apply (new_channel_overwrites 0 (Memory.new [0]) ∅ 7 kept_channel sample_stub);
    [apply holds_fresh; [apply map_Forall_empty|done]|lia|lia|exact Hu|exact Hn|done].
Defined.

Lemma delete_node_keeps_channels_witness :
  exists s', delete_node 7 (Memory.new [0]) = (s', Ok tt) /\ get_channel s' 7 [9] = get_channel (Memory.new [0]) 7 [9].
Proof.
  apply (delete_node_keeps_channels 0 (Memory.new [0]) ∅ 7 [9]);
    [apply holds_fresh; [apply map_Forall_empty|done]|lia|lia|exact (proj1 sample_ops_ok)].
Defined.

#[local] Instance sample_persist {S : Type} `{KVVStore S} : Persist S := KVVPersister_persist id.

Lemma backup_keeps_channels_witness :
  let ops := [PNewChannel 7 sample_stub; PUpdateChannel 7 kept_channel] in
  exists b', p_runs ops (Backup.new (mkRedb ∅ ∅ [1]) (Memory.new [0])) = (b', Ok tt) /\
    get_channel b'.(backup) 7 [9] = Ok (channel_entry kept_channel).
Proof.
  intros ops. destruct sample_ops_ok as (H9 & Hu & Hn).
  destruct (backup_keeps_channels id ops (mkRedb ∅ ∅ [1]) (Memory.new [0])) as (b' & Hr & Hg);
    [apply redb_empty_inv|apply fmap_empty|apply map_Forall_empty|done
    |apply Forall_cons_2; [exact Hn|apply Forall_cons_2; [exact Hu|apply Forall_nil_2]]|cbn; lia|].
  exists b'. split; [exact Hr|]. etrans; [exact (proj2 (Hg 7 [9] H9))|]. vm_compute. reflexivity.
Defined.

Lemma backup_context_not_entered_witness :
  let s := (p_enter (Backup.new (Memory.new [1]) (Cloud.new (Memory.new [0])))).1 in
  let m' := (update_channel 7 kept_channel (Memory.new [1])).1 in
  (p_enter (Backup.new (Memory.new [1]) (Cloud.new (Memory.new [0])))).2 = Ok tt /\
  (p_update_channel 7 kept_channel s).2 = Panic /\ (p_update_channel 7 kept_channel s).1.(main) = m'.
Proof.
  intros s m'. apply (backup_context_not_entered id (Memory.new [1]) m' (Memory.new [0]) 7 kept_channel).
  - apply map_Forall_empty.
  - exact (proj2 (proj1 (proj2 sample_ops_ok))).
  - vm_compute. reflexivity.
Defined.

Lemma hmac_binds_values_witness :
  let self := mkExternalPersistHelper [1; 2] [3] in
  let kvs := [("node", (4, [5; 6]))] in
  let kvs' := [("node", (4, [5; 6]))] in
  check_hmac (fun s x => s ++ x) self kvs' (compute_shared_hmac (fun s x => s ++ x) [1; 2] [3] kvs) = true /\ kvs = kvs'.
Proof.
  intros self kvs kvs'. split; [vm_compute; reflexivity|].
  apply (hmac_binds_values (fun s x => s ++ x) self kvs kvs').
  - intros a b Hab. by apply app_inv_head in Hab.
  - reflexivity.
  - by constructor; [done|constructor].
  - by constructor; [done|constructor].
  - vm_compute. reflexivity.
Defined.
End PersistWitness.
