(* ===== verification/Node.v ===== *)
(** * The node: [vls-core/src/node.rs]

    The channel map of a node with the tracker, the node state and the persister:
    creating, setting up, splicing, forgetting and pruning channels, restoring a
    node from persistence, and checking on-chain transactions.  A channel slot is
    shared by the two ids of a channel, and the state of its chain monitor is
    shared by the channel and the tracker: slots and monitors are kept in stores,
    and the maps hold references.  Keys, addresses and signatures are of other
    packages. *)
From S2P Require Import Prelude Velocity Policy Ordered CommitInfo Types Bitcoin Script Secrets Enforcement SimpleValidator Validator NodeState Channel TxValidator ChannelTx Monitor Tracker BTree Kvv Persister.

(** ** The wallet of a node *)

(** Key derivation and addresses; an address is kept by its script. *)
Class WalletKeys := {
  account_pubkey : DerivationPath -> PublicKey;
  xpub_derive_pub : Z -> DerivationPath -> option PublicKey;
  p2wpkh_script : PublicKey -> ScriptBuf;
  p2shwpkh_script : PublicKey -> ScriptBuf;
  p2tr_script : PublicKey -> ScriptBuf;
  p2pkh_script : PublicKey -> ScriptBuf
}.

Definition get_key_path_len (self : KeyDerivationStyle) : option nat :=
  match self with Native => Some 1%nat | Ldk => None | Lnd => Some 2%nat end.

(** What the wallet methods of a node read. *)
Record NodeWallet := mkNodeWallet { wallet_style : KeyDerivationStyle; wallet_allowlist : gset Allowable }.

Section NodeWallet.
Context `{WalletKeys}.

Definition get_wallet_pubkey (self : NodeWallet) (child_path : DerivationPath) : res Status PublicKey :=
  match get_key_path_len self.(wallet_style) with
  | Some len => if (length child_path =? len)%nat then Ok (account_pubkey child_path) else Err invalid_argument
  | None => Ok (account_pubkey child_path)
  end.

Definition check_wallet_pubkey (self : NodeWallet) (child_path : DerivationPath) (pubkey : PublicKey)
  : res Status bool :=
  wallet_pubkey ← get_wallet_pubkey self child_path;
  Ok (wallet_pubkey =? pubkey).

Definition node_can_spend (self : NodeWallet) (child_path : DerivationPath) (script_pubkey : ScriptBuf)
  : res Status bool :=
  if bool_decide (child_path = []) then Ok false
  else
    pubkey ← get_wallet_pubkey self child_path;
    Ok ((script_pubkey =? p2wpkh_script pubkey) || (script_pubkey =? p2shwpkh_script pubkey)
        || (script_pubkey =? p2tr_script pubkey)).

Definition get_native_address (self : NodeWallet) (child_path : DerivationPath) : res Status ScriptBuf :=
  if bool_decide (child_path = []) then Err invalid_argument
  else pubkey ← get_wallet_pubkey self child_path; Ok (p2wpkh_script pubkey).

Definition get_taproot_address (self : NodeWallet) (child_path : DerivationPath) : res Status ScriptBuf :=
  if bool_decide (child_path = []) then Err invalid_argument
  else pubkey ← get_wallet_pubkey self child_path; Ok (p2tr_script pubkey).

Definition get_wrapped_address (self : NodeWallet) (child_path : DerivationPath) : res Status ScriptBuf :=
  if bool_decide (child_path = []) then Err invalid_argument
  else pubkey ← get_wallet_pubkey self child_path; Ok (p2shwpkh_script pubkey).

(** One entry of the allowlist against a script at a path. *)
Definition allowable_matches {E : Type} (script_pubkey : ScriptBuf) (path : DerivationPath) (a : Allowable)
  : res E bool :=
  match a with
  | XPub xp =>
      pubkey ← unwrap (xpub_derive_pub xp path);
      Ok ((script_pubkey =? p2wpkh_script pubkey) || (script_pubkey =? p2pkh_script pubkey)
          || (script_pubkey =? p2tr_script pubkey))
  | _ => Ok false
  end.

(** The loop returns at the first match. *)
Fixpoint any_matches {E : Type} (script_pubkey : ScriptBuf) (path : DerivationPath) (l : list Allowable)
  : res E bool :=
  match l with
  | [] => Ok false
  | a :: l' =>
      hit ← allowable_matches script_pubkey path a;
      if (hit : bool) then Ok true else any_matches script_pubkey path l'
  end.

Definition node_allowlist_contains {E : Type} (self : NodeWallet) (script_pubkey : ScriptBuf) (path : DerivationPath)
  : res E bool :=
  if bool_decide (Script script_pubkey ∈ self.(wallet_allowlist)) then Ok true
  else if bool_decide (path = []) then Ok false
  else any_matches script_pubkey path (elements self.(wallet_allowlist)).

(** [Wallet] answers with a boolean: where [node_allowlist_contains] panics on a
    derivation that fails, this instance answers [false]. *)
#[export] Instance NodeWallet_wallet : Wallet NodeWallet := {|
  can_spend := node_can_spend;
  allowlist_contains self script path :=
    match node_allowlist_contains (E:=Status) self script path with Ok b => b | _ => false end
|}.
End NodeWallet.

(** ** [SpendType] *)
Inductive SpendType := Invalid | P2pkh | P2wpkh | P2shP2wpkh | P2wsh | P2tr.

#[export] Instance SpendType_eq_dec : EqDecision SpendType.
Proof. solve_decision. Defined.

(** The script predicates of the bitcoin package that are not in [BitcoinLib]. *)
Class SpendScripts := {
  is_p2pkh : ScriptBuf -> bool;
  is_p2sh : ScriptBuf -> bool;
  is_p2tr : ScriptBuf -> bool
}.

Definition from_script_pubkey `{BitcoinLib} `{SpendScripts} (script : ScriptBuf) : SpendType :=
  if is_p2pkh script then P2pkh
  else if is_p2sh script then P2shP2wpkh
  else if is_p2wpkh script then P2wpkh
  else if Bitcoin.is_p2wsh script then P2wsh
  else if is_p2tr script then P2tr
  else Invalid.

(** ** [ChannelStub] as a [ChannelBase] *)
Section Stub.
Context `{Profile} `{Signer}.

Definition stub_is_ready : bool := false.

Definition stub_get_per_commitment_point (commitment_number : Z) : res Status PublicKey :=
  if bool_decide (commitment_number ∈ [0; 1; 2]) then get_per_commitment_point_unchecked commitment_number
  else Err (Status_from (policy_error "policy-optional-fail-fast")).

Definition stub_get_per_commitment_secret (_ : Z) : res Status SecretKey :=
  Err (Status_from (policy_error "policy-revoke-new-commitment-valid")).

Definition stub_get_per_commitment_secret_or_none (_ : Z) : option SecretKey := None.
End Stub.

(** ** [Node] *)
Definition CHANNEL_STUB_PRUNE_BLOCKS : Z := 6.

(** A channel slot; the monitor of a ready channel is a reference. *)
Inductive NodeSlot :=
| StubSlot (stub : ChannelStub)
| ReadySlot (chan : Channel) (monitor : nat).

Definition to_channel_slot (slot : NodeSlot) : ChannelSlot :=
  match slot with StubSlot stub => Stub stub | ReadySlot chan _ => Ready chan end.

(** The tracker with references for listeners. *)
Abbreviation RefTracker := (ChainTracker (L:=nat) (K:=OutPoint)) (only parsing).

Section Node.
Context `{Profile} `{BitcoinLib} `{SpendScripts} `{ChainPackages} `{CommitmentPointProvider} `{WalletKeys}.
Context {P : Type} `{!Persist P} {V : Type} `{Validator V} `{TransactionValidator V NodeWallet}.
Context (validator : V) (compute_txid : Transaction -> Txid).

Record Node := mkNode {
  node_id : PublicKey;
  node_config : NodeConfig;
  channels : gmap ChannelId nat;
  slots : gmap nat NodeSlot;
  monitors : gmap nat ChainMonitor;
  next_ref : nat;
  tracker : RefTracker;
  node_state : NodeState;
  persister : P
}.

Abbreviation node_method A := (method Node Status A) (only parsing).

Definition with_channels (self : Node) (c : gmap ChannelId nat) : Node :=
  mkNode self.(node_id) self.(node_config) c self.(slots) self.(monitors) self.(next_ref) self.(tracker)
    self.(node_state) self.(persister).
Definition with_slot (self : Node) (r : nat) (slot : NodeSlot) : Node :=
  mkNode self.(node_id) self.(node_config) self.(channels) (<[r := slot]> self.(slots)) self.(monitors)
    self.(next_ref) self.(tracker) self.(node_state) self.(persister).
Definition with_monitor (self : Node) (r : nat) (m : ChainMonitor) : Node :=
  mkNode self.(node_id) self.(node_config) self.(channels) self.(slots) (<[r := m]> self.(monitors))
    self.(next_ref) self.(tracker) self.(node_state) self.(persister).
Definition with_tracker (self : Node) (t : RefTracker) : Node :=
  mkNode self.(node_id) self.(node_config) self.(channels) self.(slots) self.(monitors) self.(next_ref) t
    self.(node_state) self.(persister).
Definition with_node_state (self : Node) (s : NodeState) : Node :=
  mkNode self.(node_id) self.(node_config) self.(channels) self.(slots) self.(monitors) self.(next_ref)
    self.(tracker) s self.(persister).
Definition with_persister (self : Node) (p : P) : Node :=
  mkNode self.(node_id) self.(node_config) self.(channels) self.(slots) self.(monitors) self.(next_ref)
    self.(tracker) self.(node_state) p.
Definition with_next_ref (self : Node) (n : nat) : Node :=
  mkNode self.(node_id) self.(node_config) self.(channels) self.(slots) self.(monitors) n self.(tracker)
    self.(node_state) self.(persister).

(** [Arc::new]. *)
Definition alloc_slot (slot : NodeSlot) : node_method nat :=
  self ← get_self;
  set_self (with_next_ref (with_slot self self.(next_ref) slot) (S self.(next_ref))) ;;
  mret self.(next_ref).

Definition alloc_monitor (m : ChainMonitor) : node_method nat :=
  self ← get_self;
  set_self (with_next_ref (with_monitor self self.(next_ref) m) (S self.(next_ref))) ;;
  mret self.(next_ref).

(** A call of the persister; [on_err] is what the caller makes of an error. *)
Definition persist_or {A : Type} (on_err : res Status A) (m : method P Error A) : node_method A := fun self =>
  let '(p, r) := m self.(persister) in
  (with_persister self p, match r with Ok a => Ok a | Err _ => on_err | Panic => Panic end).

(** The tracker with the monitors that its listeners refer to. *)
Definition resolve_tracker (self : Node) : NodeTracker :=
  let t := self.(tracker) in
  mkChainTracker t.(headers) t.(tip) t.(tracker_height) t.(network)
    (omap (fun l : nat * ListenSlot => (fun m => (m, l.2)) <$> self.(monitors) !! l.1) t.(listeners))
    t.(tracker_decode_state) t.(trusted_oracle_pubkeys) t.(allow_deep_reorgs).

Definition persist_node_tracker (on_err : res Status unit) : node_method unit :=
  self ← get_self;
  persist_or on_err (p_update_tracker self.(node_id) (resolve_tracker self)).

Definition node_wallet (self : Node) : NodeWallet :=
  mkNodeWallet self.(node_config).(config_style) self.(node_state).(allowlist).

(** *** Finding and creating channels *)
Definition get_channel_slot (self : Node) (channel_id : ChannelId) : res Status nat :=
  ok_or invalid_argument (self.(channels) !! channel_id).

(** A channel as its methods see it, with the state of its monitor. *)
Definition at_chain_state (chan : Channel) (cs : ChainState) : Channel :=
  mkChannel chan.(enforcement_state) chan.(setup) chan.(id0) chan.(chan_id) cs chan.(prev_setup)
    chan.(prev_prev_setup) chan.(funding_locked).

(** A method of a ready channel, which takes the lock of the node state; it
    persists through the parameter of the channel methods. *)
Definition run_channel {A : Type} (r : nat) (chan : Channel) (monitor : nat)
    (f : method (Channel * NodeState) Status A) : node_method A :=
  self ← get_self;
  m ← call (unwrap (self.(monitors) !! monitor));
  let cs := match as_chain_state (E:=Status) m with Ok cs => cs | _ => chan.(monitor_state) end in
  let '((c, st), o) := f (at_chain_state chan cs, self.(node_state)) in
  set_self (with_node_state (with_slot self r (ReadySlot c monitor)) st) ;;
  call o.

Definition with_channel {A : Type} (channel_id : ChannelId) (f : method (Channel * NodeState) Status A)
  : node_method A :=
  self ← get_self;
  r ← call (get_channel_slot self channel_id);
  slot ← call (unwrap (self.(slots) !! r));
  match slot with
  | StubSlot _ => call (Err invalid_argument)
  | ReadySlot chan monitor => run_channel r chan monitor f
  end.

(** A stub has no setup to confirm against. *)
Definition confirm_funding_lock (persist : Channel -> res Status unit) (channel_id : ChannelId) (outpoint : OutPoint)
  : node_method unit :=
  self ← get_self;
  r ← call (get_channel_slot self channel_id);
  slot ← call (unwrap (self.(slots) !! r));
  match slot with
  | StubSlot _ => mret tt
  | ReadySlot chan monitor => run_channel r chan monitor (confirm_funding_locked persist outpoint)
  end.

Definition find_or_create_channel (channel_id : ChannelId) : node_method (ChannelId * NodeSlot) :=
  self ← get_self;
  let blockheight := self.(tracker).(tracker_height) in
  if Policy_max_channels validator <=? Z.of_nat (size self.(channels)) then call (Err failed_precondition)
  else
    match self.(channels) !! channel_id with
    | Some r => slot ← call (unwrap (self.(slots) !! r)); mret (channel_id, slot)
    | None =>
        let stub := mkChannelStub channel_id blockheight in
        r ← alloc_slot (StubSlot stub);
        self ← get_self;
        set_self (with_channels self (<[channel_id := r]> self.(channels))) ;;
        persist_or Panic (p_new_channel self.(node_id) stub) ;;
        mret (channel_id, StubSlot stub)
    end.

Definition node_new_channel (dbid : Z) (peer_id : list Z) : node_method (ChannelId * NodeSlot) :=
  self ← get_self;
  if dbid <=? self.(node_state).(dbid_high_water_mark) then
    call (Err (Status_from (policy_error "policy-channel-original-channel-id-reuse")))
  else find_or_create_channel (new_from_peer_id_and_oid peer_id dbid).

(** The ready channel with this funding outpoint, by its reference. *)
Definition has_funding_outpoint (self : Node) (outpoint : OutPoint) (r : nat) : bool :=
  match self.(slots) !! r with
  | Some (ReadySlot chan _) => bool_decide (chan.(setup).(Types.funding_outpoint) = outpoint)
  | _ => false
  end.

Definition find_channel_with_funding_outpoint (self : Node) (outpoint : OutPoint) : option nat :=
  head (filter (fun r => has_funding_outpoint self outpoint r = true) (btree_iter self.(channels)).*2).

(** *** Forgetting and pruning *)

(** [ChannelId::oid] of the id that was passed; the mark is raised for a stub
    and for a ready channel alike. *)
Definition raise_high_water_mark (channel_id : ChannelId) : node_method unit :=
  self ← get_self;
  oid ← call (ChannelId_oid channel_id);
  let st := self.(node_state) in
  if st.(dbid_high_water_mark) <? oid then
    let st := mkNodeState st.(invoices) st.(issued_invoices) st.(payments) st.(excess_amount) st.(velocity_control)
                st.(node_fee_velocity_control) oid st.(allowlist) in
    set_self (with_node_state self st) ;;
    persist_or Panic (p_update_node self.(node_id) st)
  else mret tt.

(** [Channel::forget]: the flag is in the monitor, the channel is persisted. *)
Definition chan_forget (chan : Channel) (monitor : nat) : node_method unit :=
  self ← get_self;
  m ← call (unwrap (self.(monitors) !! monitor));
  set_self (with_monitor self monitor (Monitor.forget_channel m)) ;;
  persist_or (Err internal_error) (p_update_channel self.(node_id) chan).

Definition node_forget_channel (channel_id : ChannelId) : node_method unit :=
  self ← get_self;
  match self.(channels) !! channel_id with
  | None => mret tt
  | Some r =>
      slot ← call (unwrap (self.(slots) !! r));
      match slot with
      | ReadySlot chan monitor =>
          chan_forget chan monitor ;;
          raise_high_water_mark channel_id
      | StubSlot _ =>
          raise_high_water_mark channel_id ;;
          self ← get_self;
          set_self (with_channels self (delete channel_id self.(channels))) ;;
          persist_or Panic (p_delete_channel self.(node_id) channel_id)
      end
  end.

(** Whether [prune_channels] removes a slot. *)
Definition stub_prune_time (self : Node) : Z :=
  match self.(node_config).(config_network) with
  | Regtest => CHANNEL_STUB_PRUNE_BLOCKS + 100
  | _ => CHANNEL_STUB_PRUNE_BLOCKS
  end.

Definition slot_prunable (self : Node) (r : nat) : res Status bool :=
  slot ← unwrap (self.(slots) !! r);
  match slot with
  | ReadySlot _ monitor => m ← unwrap (self.(monitors) !! monitor); is_done m
  | StubSlot stub =>
      Ok (stub_prune_time self <? saturating_sub self.(tracker).(tracker_height) stub.(stub_blockheight))
  end.

Definition keys_to_remove (self : Node) : res Status (list (ChannelId * nat)) :=
  found ← map_res (fun '(key, r) => p ← slot_prunable self r; Ok (if (p : bool) then Some (key, r) else None))
            (btree_iter self.(channels));
  Ok (omap (M:=list) id found).

(** [true] when the tracker lost a listener. *)
Definition prune_channel (modified : bool) (kr : ChannelId * nat) : node_method bool :=
  let '(key, r) := kr in
  self ← get_self;
  call (unwrap (self.(channels) !! key)) ;;
  set_self (with_channels self (delete key self.(channels))) ;;
  slot ← call (unwrap (self.(slots) !! r));
  modified ← (match slot with
              | ReadySlot _ monitor =>
                  m ← call (unwrap (self.(monitors) !! monitor));
                  self ← get_self;
                  set_self (with_tracker self (remove_listener self.(tracker) m.(first_funding_outpoint))) ;;
                  mret true
              | StubSlot _ => mret modified
              end);
  persist_or Panic (p_delete_channel self.(node_id) key) ;;
  mret modified.

Fixpoint prune_each (modified : bool) (l : list (ChannelId * nat)) : node_method bool :=
  match l with
  | [] => mret modified
  | kr :: l' => m ← prune_channel modified kr; prune_each m l'
  end.

Definition prune_channels : node_method unit :=
  self ← get_self;
  keys ← call (keys_to_remove self);
  modified ← prune_each false keys;
  if (modified : bool) then persist_node_tracker Panic else mret tt.

(** [get_heartbeat], without the signature and the balance that is only logged. *)
Definition heartbeat (timeless_workaround : bool) (now : Z) : node_method Headers :=
  self ← get_self;
  pruned ← call (heartbeat_prune timeless_workaround self.(node_state) now);
  set_self (with_node_state self pruned.2) ;;
  (if (pruned.1 : bool) then persist_or Panic (p_update_node self.(node_id) pruned.2) else mret tt) ;;
  prune_channels ;;
  self ← get_self;
  mret self.(tracker).(tip).

(** *** Setting up a channel *)
Definition txid_watch (setup : ChannelSetup) : gset Txid := {[ setup.(Types.funding_outpoint).(txid) ]}.

(** [tracker.add_listener(monitor.as_monitor(provider), ..)]: the key is the
    outpoint that the monitor has, and no block is being decoded. *)
Definition as_monitor (m : ChainMonitor) : ChainMonitor := mkChainMonitor m.(first_funding_outpoint) m.(state) None.

Definition add_ref_listener (monitor : nat) (m : ChainMonitor) (setup : ChannelSetup) : node_method unit :=
  self ← get_self;
  let t := self.(tracker) in
  set_self (with_tracker (with_monitor self monitor (as_monitor m))
    (with_listeners t (<[m.(first_funding_outpoint) := (monitor, mkListenSlot (txid_watch setup) ∅ ∅)]>
                         t.(listeners)))).

(** A ready channel: the same setup again, or a splice.  The channel is replaced
    before the setup is validated. *)
Definition setup_ready (r : nat) (chan : Channel) (monitor : nat) (new_setup : ChannelSetup)
    (holder_shutdown_key_path : DerivationPath) : node_method Channel :=
  if bool_decide (chan.(setup) = new_setup) then mret chan
  else
    self ← get_self;
    m ← call (unwrap (self.(monitors) !! monitor));
    let m' := replace_funding_outpoint m new_setup.(Types.funding_outpoint) in
    let chain := match as_chain_state (E:=Status) m' with Ok c => c | _ => chan.(monitor_state) end in
    let validate s := tv_validate_setup_channel validator (node_wallet self) s holder_shutdown_key_path in
    let '((spliced, _), r_splice) :=
      splice_setup (fun _ => Ok tt) validate (Ok tt) chain new_setup (chan, self.(node_state)) in
    (if bool_decide (spliced.(setup) = new_setup)
     then set_self (with_slot (with_monitor self monitor m') r (ReadySlot spliced monitor)) else mret tt) ;;
    call r_splice ;;
    self ← get_self;
    set_self (with_tracker self (remove_listener self.(tracker) chan.(setup).(Types.funding_outpoint))) ;;
    add_ref_listener monitor m' new_setup ;;
    persist_node_tracker (Err internal_error) ;;
    persist_or (Err internal_error) (p_update_channel self.(node_id) spliced) ;;
    mret spliced.

(** A stub becomes a ready channel in a new slot, under both ids. *)
Definition setup_stub (channel_id0 : ChannelId) (opt_channel_id : option ChannelId) (new_setup : ChannelSetup)
    (holder_shutdown_key_path : DerivationPath) : node_method Channel :=
  self ← get_self;
  let chan_id := default channel_id0 opt_channel_id in
  let outpoint := new_setup.(Types.funding_outpoint) in
  m ← call (add_funding_outpoint (ChainMonitor_new outpoint self.(tracker).(tracker_height) chan_id) outpoint);
  chain ← call (as_chain_state m);
  chan ← call (ready_channel validator new_setup channel_id0 opt_channel_id chain);
  call (lift_ve (tv_validate_setup_channel validator (node_wallet self) new_setup holder_shutdown_key_path)) ;;
  monitor ← alloc_monitor m;
  r ← alloc_slot (ReadySlot chan monitor);
  self ← get_self;
  set_self (with_channels self (<[channel_id0 := r]> (<[chan_id := r]> self.(channels)))) ;;
  add_ref_listener monitor m new_setup ;;
  persist_node_tracker (Err internal_error) ;;
  persist_or (Err internal_error) (p_update_channel self.(node_id) chan) ;;
  mret chan.

Definition setup_channel (channel_id0 : ChannelId) (opt_channel_id : option ChannelId) (new_setup : ChannelSetup)
    (holder_shutdown_key_path : DerivationPath) : node_method Channel :=
  self ← get_self;
  r ← call (get_channel_slot self channel_id0);
  slot ← call (unwrap (self.(slots) !! r));
  match slot with
  | ReadySlot chan monitor => setup_ready r chan monitor new_setup holder_shutdown_key_path
  | StubSlot _ => setup_stub channel_id0 opt_channel_id new_setup holder_shutdown_key_path
  end.

(** *** On-chain transactions *)

(** The channels that the outputs of a transaction fund. *)
Definition funded_channels (self : Node) (tx : Transaction) : list (option nat) :=
  imap (fun ndx _ => find_channel_with_funding_outpoint self (mkOutPoint (compute_txid tx) (Z.of_nat ndx)))
    tx.(output).

Definition funded_slots (self : Node) (tx : Transaction) : list (option ChannelSlot) :=
  (fun o => match o with Some r => to_channel_slot <$> self.(slots) !! r | None => None end)
    <$> funded_channels self tx.

(** The witness that an input will get, at least.  A unilateral close key comes
    with the lengths of its witness stack. *)
Definition input_weight (prev_outs : list TxOut) (weight : Z) (uck : nat * option (list Z))
  : res ValidationError Z :=
  let '(idx, uck) := uck in
  prev_out ← unwrap (prev_outs !! idx);
  if bool_decide (from_script_pubkey prev_out.(script_pubkey) = Invalid) then Ok weight
  else
    let wit_len := match uck with Some stack => zsum ((fun len => 1 + len) <$> stack) | None => 33 end in
    Ok (weight + (2 + 1 + 1 + 72 + 1 + wit_len)).

(** The fee velocity is charged when the transaction is checked. *)
Definition check_onchain_tx (now : Z) (tx : Transaction) (segwit_flags : list bool) (prev_outs : list TxOut)
    (uniclosekeys : list (option (list Z))) (opaths : list DerivationPath) : method Node ValidationError unit :=
  self ← get_self;
  weight_lower_bound ← call (fold_res (input_weight prev_outs) (tx_weight tx) (imap pair uniclosekeys));
  let values_sat := (fun o => o.(value)) <$> prev_outs in
  non_beneficial_sat ← call (tv_validate_onchain_tx validator (node_wallet self) (funded_slots self tx) tx
                               segwit_flags values_sat opaths weight_lower_bound);
  fee_msat ← call (mul_u64 non_beneficial_sat 1000);
  let st := self.(node_state) in
  inserted ← call (Velocity.insert st.(node_fee_velocity_control) (now / NANOS) fee_msat);
  set_self (with_node_state self
    (mkNodeState st.(invoices) st.(issued_invoices) st.(payments) st.(excess_amount) st.(velocity_control)
       inserted.2 st.(dbid_high_water_mark) st.(allowlist))) ;;
  call (when (negb inserted.1) (Policy_policy_error validator "policy-onchain-fee-range")).

(** The effects of [unchecked_sign_onchain_tx] once the inputs are signed: the
    inputs of a funding transaction are watched. *)
Definition watch_funding (tx : Transaction) (r : nat) : node_method unit :=
  self ← get_self;
  slot ← call (unwrap (self.(slots) !! r));
  match slot with
  | StubSlot _ => call Panic
  | ReadySlot chan monitor =>
      m ← call (unwrap (self.(monitors) !! monitor));
      t ← call (add_listener_watches self.(tracker) m.(first_funding_outpoint) (tx_inputs tx));
      set_self (with_tracker (with_monitor self monitor (add_funding_inputs m tx)) t) ;;
      persist_or (Err internal_error) (p_update_channel self.(node_id) chan)
  end.

Fixpoint watch_each (tx : Transaction) (l : list (option nat)) : node_method unit :=
  match l with
  | [] => mret tt
  | Some r :: l' => watch_funding tx r ;; watch_each tx l'
  | None :: l' => watch_each tx l'
  end.

(** [signed] is what signing the inputs gives. *)
Definition unchecked_sign_onchain_tx {A : Type} (signed : res Status A) (tx : Transaction) : node_method A :=
  self ← get_self;
  let found := funded_channels self tx in
  witvec ← call signed;
  watch_each tx found ;;
  persist_node_tracker (Err internal_error) ;;
  mret witvec.

(** *** Restoring a node *)

(** [new_full]: the state gets fresh velocity controls from the policy. *)
Definition new_full {E : Type} (config : NodeConfig) (id : PublicKey) (st : NodeState) (t : RefTracker) (p : P)
  : res E Node :=
  global ← Velocity.new (Policy_global_velocity_control validator);
  fee ← Velocity.new (Policy_fee_velocity_control validator);
  let st := mkNodeState st.(invoices) st.(issued_invoices) st.(payments) st.(excess_amount) global fee
              st.(dbid_high_water_mark) st.(allowlist) in
  Ok (mkNode id config ∅ ∅ ∅ 0 t st p).

(** A persisted channel; [listeners] are the entries that have no channel yet. *)
Definition restore_ids (id0 : ChannelId) (id : option ChannelId) (r : nat) : node_method unit :=
  self ← get_self;
  let c := <[id0 := r]> self.(channels) in
  set_self (with_channels self (match id with Some id => <[id := r]> c | None => c end)).

Definition restore_ready (set_iter : gset Z -> list Z) (channel_id0 : ChannelId) (entry : ChannelEntry)
    (new_setup : ChannelSetup) (listeners : gmap OutPoint (State * ListenSlot))
  : node_method (gmap OutPoint (State * ListenSlot)) :=
  let outpoint := new_setup.(Types.funding_outpoint) in
  found ← call (unwrap (listeners !! outpoint));
  let m := Monitor.new_from_persistence outpoint found.1 (default channel_id0 entry.(entry_id)) in
  let chain := match as_chain_state (E:=Status) m with Ok c => c | _ => mkChainState 0 0 0 0 false end in
  let chan := mkChannel entry.(entry_enforcement_state) new_setup channel_id0 entry.(entry_id) chain
                entry.(entry_prev_setup) entry.(entry_prev_prev_setup) None in
  self ← get_self;
  st ← call (restore_payments set_iter chan self.(node_state));
  set_self (with_node_state self st) ;;
  monitor ← alloc_monitor m;
  r ← alloc_slot (ReadySlot chan monitor);
  self ← get_self;
  set_self (with_tracker self (restore_listener self.(tracker) outpoint monitor found.2)) ;;
  restore_ids channel_id0 entry.(entry_id) r ;;
  mret (delete outpoint listeners).

Definition restore_channel (set_iter : gset Z -> list Z) (blockheight : Z)
    (listeners : gmap OutPoint (State * ListenSlot)) (e : ChannelId * ChannelEntry)
  : node_method (gmap OutPoint (State * ListenSlot)) :=
  let '(channel_id0, entry) := e in
  match entry.(entry_channel_setup) with
  | None =>
      r ← alloc_slot (StubSlot (mkChannelStub channel_id0 (default blockheight entry.(entry_blockheight))));
      restore_ids channel_id0 entry.(entry_id) r ;;
      mret listeners
  | Some new_setup => restore_ready set_iter channel_id0 entry new_setup listeners
  end.

Fixpoint restore_channels (set_iter : gset Z -> list Z) (blockheight : Z)
    (listeners : gmap OutPoint (State * ListenSlot)) (l : list (ChannelId * ChannelEntry))
  : node_method (gmap OutPoint (State * ListenSlot)) :=
  match l with
  | [] => mret listeners
  | e :: l' =>
      rest ← restore_channel set_iter blockheight listeners e;
      restore_channels set_iter blockheight rest l'
  end.

(** A tracker as it comes from the persister has no listeners. *)
Definition unlistened (t : NodeTracker) (oracles : list PublicKey) (deep : bool) : RefTracker :=
  mkChainTracker t.(headers) t.(tip) t.(tracker_height) t.(network) ∅ t.(tracker_decode_state) oracles deep.

Definition expect_persisted {A : Type} (r : res Error A) : res Status A :=
  match r with Ok a => Ok a | _ => Panic end.

(** [derived_id] is the id of the node that the seed gives. *)
Definition node_from_persistence (set_iter : gset Z -> list Z) (config : NodeConfig)
    (expected_node_id derived_id : PublicKey) (oracles : list PublicKey) (st : NodeState) (p : P) : res Status Node :=
  rassert (derived_id =? expected_node_id) ;;
  '(t, listener_entries) ← expect_persisted (p_get_tracker p derived_id);
  node ← new_full config derived_id st (unlistened t oracles config.(config_allow_deep_reorgs)) p;
  entries ← expect_persisted (p_get_node_channels p derived_id);
  let '(node, r) := restore_channels set_iter t.(tracker_height) (list_to_map (reverse listener_entries)) entries node in
  rest ← r;
  rassert (bool_decide (rest = ∅)) ;;
  Ok node.

(** [maybe_sync_persister]; stubs are not written. *)
Fixpoint sync_channels (l : list (ChannelId * nat)) : node_method unit :=
  match l with
  | [] => mret tt
  | (_, r) :: l' =>
      self ← get_self;
      slot ← call (unwrap (self.(slots) !! r));
      (match slot with
       | StubSlot _ => mret tt
       | ReadySlot chan _ => persist_or (Err internal_error) (p_update_channel self.(node_id) chan)
       end) ;;
      sync_channels l'
  end.

Definition maybe_sync_persister (allowable_to_string : Allowable -> string) : node_method unit :=
  self ← get_self;
  let '(p, sync) := p_on_initial_restore self.(persister) in
  set_self (with_persister self p) ;;
  if (sync : bool) then
    persist_or (Err internal_error) (p_new_node self.(node_id) self.(node_config) self.(node_state)) ;;
    persist_or (Err internal_error)
      (p_update_node_allowlist self.(node_id) (allowable_to_string <$> elements self.(node_state).(allowlist))) ;;
    persist_node_tracker (Err internal_error) ;;
    sync_channels (btree_iter self.(channels))
  else mret tt.

(** [restore_node]; a tracker at height 0 starts from the latest checkpoint. *)
Definition restore_node `{Encodings} (set_iter : gset Z -> list Z) (allowable_to_string : Allowable -> string)
    (get_latest_checkpoint : Network -> option (Z * Headers)) (derived_id : PublicKey) (oracles : list PublicKey)
    (id : PublicKey) (entry : NodeEntry) (p : P) : res Status Node :=
  network ← unwrap (network_parse entry.(entry_network));
  style ← unwrap (KeyDerivationStyle_try_from entry.(entry_style));
  let config := mkNodeConfig network style true (match network with Testnet => true | _ => false end) in
  strings ← expect_persisted (p_get_node_allowlist p id);
  allow ← map_res (fun s => unwrap (allowable_from_str s network)) strings;
  let st := restore_node_state entry.(entry_state) allow in
  node ← node_from_persistence set_iter config id derived_id oracles st p;
  let node :=
    match get_latest_checkpoint network with
    | Some (height, tip) =>
        if node.(tracker).(tracker_height) =? 0 then
          let t := node.(tracker) in
          with_tracker node (mkChainTracker [] tip height t.(Tracker.network) t.(listeners) t.(tracker_decode_state)
                               t.(trusted_oracle_pubkeys) t.(allow_deep_reorgs))
        else node
    | None => node
    end in
  let '(node, r) := maybe_sync_persister allowable_to_string node in
  r ;;
  Ok node.
End Node.
