(* ===== verification/NodeChannels.v ===== *)
(** * Safety of the channel map of a node

    The calls of a node, of its channels and of its state as steps; the
    high-water mark of channel ids over any sequence of steps, the references
    of the channel map, what pruning removes, what a setup registers and what
    a restart restores. *)
From S2P Require Import Prelude Velocity Policy Ordered CommitInfo Types Bitcoin Script Secrets Enforcement SimpleValidator Validator NodeState NodeSafety Channel ChannelSafety TxValidator TxSafety ChannelTx ChannelTxSafety Monitor Tracker ChainSafety TrackerSafety BTree Kvv Persister PersisterSafety Node.

(** ** The calls of a channel and of the node state keep the mark *)
Section Mark.
Context `{Profile} {V : Type} `{Validator V} (validator : V) (set_iter : gset Z -> list Z) (hash_preimage : Z -> Z).

Lemma apply_payments_mark {E : Type} (st st' : NodeState) c ins outs d info :
  apply_payments (E:=E) validator set_iter st c ins outs d info = Ok st' ->
  st'.(dbid_high_water_mark) = st.(dbid_high_water_mark).
Proof.
  unfold apply_payments. intros H'. apply bind_Ok in H' as ([] & _ & H'). apply bind_Ok in H' as ([] & _ & H').
  apply bind_Ok in H' as (? & _ & H'). by simplify_eq.
Qed.

Lemma htlc_fulfilled_mark {E : Type} (st st' : NodeState) pre b :
  htlc_fulfilled (E:=E) validator hash_preimage st pre = Ok (b, st') ->
  st'.(dbid_high_water_mark) = st.(dbid_high_water_mark).
Proof.
  unfold htlc_fulfilled. intros H'. repeat case_match; try by simplify_eq.
  all: apply bind_Ok in H' as ([] & _ & H'); apply bind_Ok in H' as (? & _ & H'); by simplify_eq.
Qed.

Lemma htlcs_fulfilled_mark {E : Type} (st st' : NodeState) l :
  htlcs_fulfilled (E:=E) validator hash_preimage st l = Ok st' ->
  st'.(dbid_high_water_mark) = st.(dbid_high_water_mark).
Proof.
  unfold htlcs_fulfilled. revert st. induction l as [|pre l IH]; intros st H'; [by simplify_eq/=|].
  cbn [fold_res] in H'. apply bind_Ok in H' as (st1 & H1 & H'). apply bind_Ok in H1 as ([b st2] & H2 & H1).
  simplify_eq. rewrite (IH _ H'). by eapply htlc_fulfilled_mark.
Qed.

Lemma heartbeat_prune_mark {E : Type} (tw : bool) (st st' : NodeState) now b :
  heartbeat_prune (E:=E) tw st now = Ok (b, st') -> st'.(dbid_high_water_mark) = st.(dbid_high_water_mark).
Proof.
  unfold heartbeat_prune, prune_invoices, prune_issued_invoices, prune_forwarded_payments. intros H'.
  repeat (apply bind_Ok in H' as ([] & Hb & H'); apply bind_Ok in Hb as (? & _ & Hb); simplify_eq). done.
Qed.

Lemma add_payment_state_mark {P : Type} `{Policy P} (policy : P) (st st' : NodeState) h ih now ps b :
  add_payment_state policy st h ih now ps = Ok (b, st') -> st'.(dbid_high_water_mark) = st.(dbid_high_water_mark).
Proof.
  unfold add_payment_state. intros H'. repeat case_match; try by simplify_eq.
  apply bind_Ok in H' as ([] & _ & H'). by case_match; simplify_eq.
Qed.

Lemma track_issued_mark {P : Type} `{Policy P} (policy : P) (st st' : NodeState) h ih ps :
  track_issued_invoice policy st h ih ps = Ok st' -> st'.(dbid_high_water_mark) = st.(dbid_high_water_mark).
Proof. unfold track_issued_invoice. intros H'. by repeat (case_match; simplify_eq; try done). Qed.
End Mark.

(** ** Calls as steps *)
Section Calls.
Context `{Profile} `{BitcoinLib} `{LightningLib} {V W : Type} `{Validator V} `{TransactionValidator V W}.
Context (validator : V) (wallet : W) `{Signer} `{TransactionSigner} (set_iter : gset Z -> list Z).
Context (hash_preimage : Z -> Z) (persist : Channel -> res Status unit).

(** A call of a ready channel that changes it or the node state, with any outcome. *)
Inductive channel_call (s s' : Channel * NodeState) : Prop :=
| call_sign_counterparty op pt n feerate to_h to_c offered received o :
    sign_counterparty_commitment_tx_phase2 validator set_iter persist op pt n feerate to_h to_c offered received s
      = (s', o) -> channel_call s s'
| call_sign_counterparty_tx tx scripts pt n feerate offered received o :
    sign_counterparty_commitment_tx (W:=W) validator set_iter persist tx scripts pt n feerate offered received s
      = (s', o) -> channel_call s s'
| call_revocation n secret o :
    chan_validate_counterparty_revocation validator persist n secret s = (s', o) -> channel_call s s'
| call_validate_holder op n feerate to_h to_c offered received sig sigs o :
    validate_holder_commitment_tx_phase2 validator set_iter persist op n feerate to_h to_c offered received sig sigs s
      = (s', o) -> channel_call s s'
| call_validate_holder_tx tx scripts n feerate offered received sig sigs o :
    validate_holder_commitment_tx (W:=W) validator set_iter persist tx scripts n feerate offered received sig sigs s
      = (s', o) -> channel_call s s'
| call_revoke n o : revoke_previous_holder_commitment validator set_iter persist n s = (s', o) -> channel_call s s'
| call_activate o : activate_initial_commitment persist s = (s', o) -> channel_call s s'
| call_sign_holder n o : sign_holder_commitment_tx_phase2 validator persist n s = (s', o) -> channel_call s s'
| call_lock op o : confirm_funding_locked persist op s = (s', o) -> channel_call s s'
| call_mutual_close tx paths o : sign_mutual_close_tx validator wallet persist tx paths s = (s', o) -> channel_call s s'
| call_mutual_close_values to_h to_c hs cs path o :
    sign_mutual_close_tx_phase2 validator wallet persist to_h to_c hs cs path s = (s', o) -> channel_call s s'
| call_preimages l o : chan_htlcs_fulfilled validator hash_preimage l s = (s', o) -> channel_call s s'.

Definition same_mark (k : Z) (s : Channel * NodeState) : Prop := s.2.(dbid_high_water_mark) = k.

Lemma wp_set_estate {B : Type} e (f : unit -> method (Channel * NodeState) Status B) Q c st :
  wp (f tt) Q (with_estate c e, st) -> wp (set_estate e ≫= f) Q (c, st).
Proof. done. Qed.

Lemma wp_set_state {B : Type} st1 (f : unit -> method (Channel * NodeState) Status B) Q c st :
  wp (f tt) Q (c, st1) -> wp (set_state st1 ≫= f) Q (c, st).
Proof. done. Qed.

Lemma wp_do_persist {B : Type} (f : unit -> method (Channel * NodeState) Status B) Q c st :
  (forall o, Q o (c, st)) -> wp (f tt) Q (c, st) -> wp (do_persist persist ≫= f) Q (c, st).
Proof. intros Ho Hf. apply wp_bind. unfold wp at 1, do_persist. cbn [fst snd]. destruct (persist c) as [[]|e|]; auto. Qed.
End Calls.

Lemma wp_last_persist (persist : Channel -> res Status unit) Q c st :
  (forall o, Q o (c, st)) -> wp (do_persist persist) Q (c, st).
Proof. intros Ho. apply Ho. Qed.

Ltac solve_mark :=
  unfold same_mark; cbn [snd];
  first [done | by eapply apply_payments_mark | by eapply htlcs_fulfilled_mark].

(** One step of a channel method, for the mark of the node state. *)
Ltac chan_step :=
  cbv beta iota zeta;
  lazymatch goal with
  | |- wp ((_ ≫= _) ≫= _) _ _ => apply wp_assoc
  | |- wp (mret _ ≫= _) _ _ => apply wp_ret_bind
  | |- wp (get_self ≫= _) _ _ => apply wp_get
  | |- wp (set_self _ ≫= _) _ _ => apply wp_set
  | |- wp (set_estate _ ≫= _) _ _ => apply wp_set_estate
  | |- wp (set_state _ ≫= _) _ _ => apply wp_set_state
  | |- wp (do_persist _ ≫= _) _ _ => apply wp_do_persist; [intros ?; solve_mark|]
  | |- wp (call _ ≫= _) _ _ => apply wp_call; [intros ? ?|intros ? _; solve_mark]
  | |- wp (match ?x with _ => _ end ≫= _) _ _ => destruct x eqn:?
  | |- wp (match ?x with _ => _ end) _ _ => destruct x eqn:?
  | |- wp (do_persist _) _ _ => apply wp_last_persist; intros ?; solve_mark
  | |- wp (call _) _ _ => apply wp_end; solve_mark
  | |- wp (mret _) _ _ => apply wp_ret; solve_mark
  | |- wp (set_state _) _ _ => unfold wp; solve_mark
  end.

Tactic Notation "call_mark" reference(d) hyp(Hc) :=
  eapply (wp_run _ (fun _ => same_mark _)) in Hc; [exact Hc|]; unfold d; repeat chan_step.

Section CallMark.
Context `{Profile} `{BitcoinLib} `{LightningLib} {V W : Type} `{Validator V} `{TransactionValidator V W}.
Context (validator : V) (wallet : W) `{Signer} `{TransactionSigner} (set_iter : gset Z -> list Z).
Context (hash_preimage : Z -> Z) (persist : Channel -> res Status unit).

Lemma advance_mark n info sigs k c st :
  st.(dbid_high_water_mark) = k ->
  wp (advance_holder_commitment_state validator n info sigs) (fun _ => same_mark k) (c, st).
Proof. intros <-. unfold advance_holder_commitment_state. repeat chan_step. Qed.

Lemma channel_call_mark c st c' st' :
  channel_call validator wallet set_iter hash_preimage persist (c, st) (c', st') ->
  st'.(dbid_high_water_mark) = st.(dbid_high_water_mark).
Proof.
  intros Hcall. change (same_mark st.(dbid_high_water_mark) (c', st')). destruct Hcall.
  - call_mark sign_counterparty_commitment_tx_phase2 H6.
  - call_mark sign_counterparty_commitment_tx H6.
  - call_mark chan_validate_counterparty_revocation H6.
  - call_mark validate_holder_commitment_tx_phase2 H6.
  - call_mark validate_holder_commitment_tx H6.
  - call_mark revoke_previous_holder_commitment H6.
    all: eapply wp_bind, wp_mono; [by apply advance_mark|]; intros [r| |] [c2 st2] Hst; try done.
    all: unfold same_mark in *; cbn [snd] in *.
    all: repeat chan_step.
  - call_mark activate_initial_commitment H6.
  - call_mark sign_holder_commitment_tx_phase2 H6.
  - call_mark confirm_funding_locked H6.
  - call_mark sign_mutual_close_tx H6. unfold finish_close. repeat chan_step.
  - call_mark sign_mutual_close_tx_phase2 H6. unfold finish_close. repeat chan_step.
  - call_mark chan_htlcs_fulfilled H6.
Qed.

Lemma channel_calls_mark s s' :
  rtc (channel_call validator wallet set_iter hash_preimage persist) s s' ->
  s'.2.(dbid_high_water_mark) = s.2.(dbid_high_water_mark).
Proof. induction 1 as [|[c st] [c1 st1] s' Hc _ IH]; [done|]. rewrite IH. by eapply channel_call_mark. Qed.

(** A call that changes the state of the node only. *)
Inductive state_call {P I : Type} `{Policy P} `{InvoiceAttributes I} (policy : P) (st st' : NodeState) : Prop :=
| call_add_invoice tw (invoice : I) now b :
    add_invoice validator policy tw st invoice now = Ok (b, st') -> state_call policy st st'
| call_add_keysend payee h amount now now' b :
    add_keysend policy st payee h amount now now' = Ok (b, st') -> state_call policy st st'
| call_sign_bolt11 (signed : res Status (I * Signature)) sig :
    sign_bolt11_invoice policy st signed = Ok (sig, st') -> state_call policy st st'
| call_sign_bolt12 tw pk pk' created expiry now (signed : res Status (I * Signature)) sig :
    sign_bolt12_invoice validator policy tw st pk pk' created expiry now signed = Ok (sig, st') ->
    state_call policy st st'
| call_update_velocity : st' = update_velocity_controls policy st -> state_call policy st st'
| call_add_allowlist parse written l o : add_allowlist parse written st l = (st', o) -> state_call policy st st'
| call_set_allowlist parse written l o : set_allowlist parse written st l = (st', o) -> state_call policy st st'
| call_remove_allowlist parse written l o :
    remove_allowlist parse written st l = (st', o) -> state_call policy st st'.

Lemma state_call_mark {P I : Type} `{Policy P} `{InvoiceAttributes I} (policy : P) (st st' : NodeState) :
  state_call (I:=I) policy st st' -> st'.(dbid_high_water_mark) = st.(dbid_high_water_mark).
Proof.
  intros [tw inv now b Hc|payee h a now now' b Hc|sg sig Hc|tw pk pk' cr ex now sg sig Hc| ->|p w l o Hc|p w l o Hc|p w l o Hc].
  - apply bind_Ok in Hc as (? & _ & Hc). exact (add_payment_state_mark _ _ _ _ _ _ _ _ Hc).
  - exact (add_payment_state_mark _ _ _ _ _ _ _ _ Hc).
  - apply bind_Ok in Hc as ([] & _ & Hc). apply bind_Ok in Hc as (? & Ht & Hc). simplify_eq.
    by eapply track_issued_mark.
  - apply bind_Ok in Hc as (? & _ & Hc). apply bind_Ok in Hc as ([] & _ & Hc).
    apply bind_Ok in Hc as (? & Ht & Hc). simplify_eq. by eapply track_issued_mark.
  - done.
  - unfold add_allowlist in Hc. case_match. by simplify_eq.
  - unfold set_allowlist in Hc. case_match. by simplify_eq.
  - unfold remove_allowlist in Hc. case_match. by simplify_eq.
Qed.
End CallMark.

(** ** The calls of a node *)
Section NodeCalls.
Context `{Profile} `{BitcoinLib} `{SpendScripts} `{ChainPackages} `{CommitmentPointProvider} `{WalletKeys}.
Context {P : Type} `{!Persist P} {V : Type} `{Validator V} `{TransactionValidator V NodeWallet}.
Context (validator : V) (compute_txid : Transaction -> Txid).

Abbreviation node := (Node (P:=P)) (only parsing).

Lemma wp_persist {A B : Type} on_err (m : method P Error A) (f : A -> method node Status B) Q n :
  (forall o p, is_ok o = false -> Q o (with_persister n p)) -> (forall a p, wp (f a) Q (with_persister n p)) ->
  (forall a, on_err <> Ok a) ->
  wp (persist_or on_err m ≫= f) Q n.
Proof.
  intros Ho Hf He. apply wp_bind. unfold wp at 1, persist_or. destruct (m n.(persister)) as [p [a|e|]]; cbn [fst snd].
  - apply Hf.
  - destruct on_err as [a|e'|]; [by destruct (He a)|by apply Ho..].
  - by apply Ho.
Qed.

Lemma wp_last_persist_or {A : Type} on_err (m : method P Error A) Q n :
  (forall o p, Q o (with_persister n p)) -> wp (persist_or on_err m) Q n.
Proof. intros Ho. unfold wp, persist_or. destruct (m n.(persister)) as [p r]. apply Ho. Qed.
End NodeCalls.

(** One step of a node method: [fin] closes the goals at an end, [calls] is tried
    on the call of another method. *)
Ltac node_step calls fin :=
  cbv beta iota zeta;
  lazymatch goal with
  | |- wp ((_ ≫= _) ≫= _) _ _ => apply wp_assoc
  | |- wp (mret _ ≫= _) _ _ => apply wp_ret_bind
  | |- wp (get_self ≫= _) _ _ => apply wp_get
  | |- wp (set_self _ ≫= _) _ _ => apply wp_set
  | |- wp (alloc_slot _ ≫= _) _ _ => unfold alloc_slot at 1
  | |- wp (alloc_monitor _ ≫= _) _ _ => unfold alloc_monitor at 1
  | |- wp (add_ref_listener _ _ _ ≫= _) _ _ => unfold add_ref_listener at 1
  | |- wp (persist_node_tracker _ ≫= _) _ _ => unfold persist_node_tracker at 1
  | |- wp (persist_node_tracker _) _ _ => unfold persist_node_tracker
  | |- wp (persist_or _ _ ≫= _) _ _ => apply wp_persist; [intros ? ? ?; fin|intros ? ?|done]
  | |- wp (call _ ≫= _) _ _ => apply wp_call; [intros ? ?|intros ? ?; fin]
  | |- wp (match ?x with _ => _ end ≫= _) _ _ => destruct x eqn:?
  | |- wp (match ?x with _ => _ end) _ _ => destruct x eqn:?
  | |- wp (persist_or _ _) _ _ => apply wp_last_persist_or; intros ? ?; fin
  | |- wp (set_self _) _ _ => unfold wp; fin
  | |- wp (call _) _ _ => apply wp_end; fin
  | |- wp (mret _) _ _ => apply wp_ret; fin
  | |- wp (_ ≫= _) _ _ => apply wp_bind; eapply wp_mono; [calls|]; cbv beta; intros [?|?|] ? ?; [..|fin|fin]
  | |- wp _ _ _ => eapply wp_mono; [calls|]; cbv beta; intros ? ? ?; fin
  end.

Section NodeMark.
Context `{Profile} `{BitcoinLib} `{SpendScripts} `{ChainPackages} `{CommitmentPointProvider} `{WalletKeys}.
Context {P : Type} `{!Persist P} {V : Type} `{Validator V} `{TransactionValidator V NodeWallet}.
Context (validator : V) (compute_txid : Transaction -> Txid).

Abbreviation node := (Node (P:=P)) (only parsing).

(** The mark is at least [k]. *)
Definition mark_from (k : Z) (n : node) : Prop := k <= n.(node_state).(dbid_high_water_mark).

Ltac mark_end :=
  simplify_eq; unfold mark_from in *; cbn [fst snd node_state with_channels with_slot with_monitor with_tracker with_next_ref with_persister with_node_state dbid_high_water_mark] in *; first [done|lia|congruence].

Lemma raise_mark id oid (k : Z) (n : node) :
  mark_from k n -> ChannelId_oid (E:=Status) id = Ok oid ->
  wp (raise_high_water_mark id) (fun o n' => mark_from k n' /\ (is_ok o = true -> mark_from oid n')) n.
Proof.
  intros Hk Hid. unfold raise_high_water_mark. rewrite Hid.
  repeat node_step fail ltac:(split; intros; mark_end).
Qed.

Lemma raise_keeps_mark id (k : Z) (n : node) : mark_from k n -> wp (raise_high_water_mark id) (fun _ => mark_from k) n.
Proof. intros Hk. unfold raise_high_water_mark. repeat node_step fail mark_end. Qed.

Lemma create_mark id (k : Z) (n : node) :
  mark_from k n -> wp (find_or_create_channel validator id) (fun _ => mark_from k) n.
Proof. intros Hk. unfold find_or_create_channel. repeat node_step fail mark_end. Qed.

Lemma new_channel_mark dbid peer (k : Z) (n : node) :
  mark_from k n -> wp (node_new_channel validator dbid peer) (fun _ => mark_from k) n.
Proof. intros Hk. unfold node_new_channel. repeat node_step ltac:(by apply create_mark) mark_end. Qed.

Lemma forget_mark id (k : Z) (n : node) : mark_from k n -> wp (node_forget_channel id) (fun _ => mark_from k) n.
Proof.
  intros Hk. unfold node_forget_channel, chan_forget.
  repeat node_step ltac:(apply raise_keeps_mark; mark_end) mark_end.
Qed.

Lemma prune_channel_mark b kr (k : Z) (n : node) : mark_from k n -> wp (prune_channel b kr) (fun _ => mark_from k) n.
Proof. intros Hk. destruct kr as [key r]. unfold prune_channel. repeat node_step fail mark_end. Qed.

Lemma prune_each_mark l b (k : Z) (n : node) : mark_from k n -> wp (prune_each b l) (fun _ => mark_from k) n.
Proof.
  revert b n. induction l as [|kr l IH]; intros b n Hk; cbn [prune_each]; [by apply wp_ret|].
  repeat node_step ltac:(first [by apply prune_channel_mark|by apply IH]) mark_end.
Qed.

Lemma prune_mark (k : Z) (n : node) : mark_from k n -> wp prune_channels (fun _ => mark_from k) n.
Proof. intros Hk. unfold prune_channels. repeat node_step ltac:(by apply prune_each_mark) mark_end. Qed.

Lemma heartbeat_mark tw now (k : Z) (n : node) : mark_from k n -> wp (heartbeat tw now) (fun _ => mark_from k) n.
Proof.
  intros Hk. unfold heartbeat. node_step fail mark_end. node_step fail mark_end.
  destruct a as [b st]. apply heartbeat_prune_mark in H7.
  repeat node_step ltac:(apply prune_mark; mark_end) mark_end.
Qed.

Lemma setup_mark id0 id new_setup path (k : Z) (n : node) :
  mark_from k n -> wp (setup_channel validator id0 id new_setup path) (fun _ => mark_from k) n.
Proof.
  intros Hk. unfold setup_channel, setup_ready, setup_stub. repeat node_step fail mark_end.
Qed.

Lemma check_onchain_mark now tx flags prev ucks paths (k : Z) (n : node) :
  mark_from k n -> wp (check_onchain_tx validator compute_txid now tx flags prev ucks paths) (fun _ => mark_from k) n.
Proof. intros Hk. unfold check_onchain_tx. repeat node_step fail mark_end. Qed.

Lemma watch_each_mark tx l (k : Z) (n : node) : mark_from k n -> wp (watch_each tx l) (fun _ => mark_from k) n.
Proof.
  revert n. induction l as [|[r|] l IH]; intros n Hk; cbn [watch_each]; [by apply wp_ret| |by apply IH].
  unfold watch_funding. repeat node_step ltac:(apply IH; mark_end) mark_end.
Qed.

Lemma sign_onchain_mark {A : Type} (signed : res Status A) tx (k : Z) (n : node) :
  mark_from k n -> wp (unchecked_sign_onchain_tx compute_txid signed tx) (fun _ => mark_from k) n.
Proof. intros Hk. unfold unchecked_sign_onchain_tx. repeat node_step ltac:(by apply watch_each_mark) mark_end. Qed.

(** A method of a channel that keeps the mark, run by the node. *)
Definition keeps_mark {A : Type} (f : method (Channel * NodeState) Status A) : Prop :=
  forall c st c' st' o, f (c, st) = ((c', st'), o) -> st'.(dbid_high_water_mark) = st.(dbid_high_water_mark).

Lemma run_channel_mark {A : Type} r chan mon (f : method (Channel * NodeState) Status A) (k : Z) (n : node) :
  keeps_mark f -> mark_from k n -> wp (run_channel r chan mon f) (fun _ => mark_from k) n.
Proof.
  intros Hf Hk. unfold run_channel. do 2 node_step fail mark_end. cbv beta iota zeta.
  destruct (f _) as [[c st] o] eqn:Hrun. apply Hf in Hrun. repeat node_step fail mark_end.
Qed.

Lemma with_channel_mark {A : Type} id (f : method (Channel * NodeState) Status A) (k : Z) (n : node) :
  keeps_mark f -> mark_from k n -> wp (with_channel id f) (fun _ => mark_from k) n.
Proof. intros Hf Hk. unfold with_channel. repeat node_step ltac:(by apply run_channel_mark) mark_end. Qed.

Lemma confirm_lock_mark persist id op (k : Z) (n : node) :
  mark_from k n -> wp (confirm_funding_lock persist id op) (fun _ => mark_from k) n.
Proof.
  intros Hk. unfold confirm_funding_lock.
  assert (Hf : keeps_mark (confirm_funding_locked persist op)).
  { intros c st c' st' o Hrun. change (same_mark st.(dbid_high_water_mark) (c', st')).
    call_mark confirm_funding_locked Hrun. }
  repeat node_step ltac:(by apply run_channel_mark) mark_end.
Qed.
End NodeMark.

(** ** References *)
Section Refs.
Context `{Profile} `{BitcoinLib} `{SpendScripts} `{ChainPackages} `{CommitmentPointProvider} `{WalletKeys}.
Context {P : Type} `{!Persist P} {V : Type} `{Validator V} `{TransactionValidator V NodeWallet}.
Context (validator : V) (compute_txid : Transaction -> Txid).

Abbreviation node := (Node (P:=P)) (only parsing).

(** Every id refers to a slot, every ready slot to a monitor of its own, every
    listener of the tracker to a monitor; references from [next_ref] on are free. *)
Record refs_ok (n : node) : Prop := {
  refs_slots : forall id r, n.(channels) !! id = Some r -> is_Some (n.(slots) !! r);
  refs_monitors : forall r chan mon, n.(slots) !! r = Some (ReadySlot chan mon) -> is_Some (n.(monitors) !! mon);
  refs_own : forall r r' chan chan' mon,
    n.(slots) !! r = Some (ReadySlot chan mon) -> n.(slots) !! r' = Some (ReadySlot chan' mon) -> r = r';
  refs_listeners : forall o mon s, n.(tracker).(listeners) !! o = Some (mon, s) -> is_Some (n.(monitors) !! mon);
  refs_fresh : forall r, (n.(next_ref) <= r)%nat -> n.(slots) !! r = None /\ n.(monitors) !! r = None
}.

Lemma refs_persister (n : node) p : refs_ok n -> refs_ok (with_persister n p).
Proof. by intros []. Qed.

Lemma refs_state (n : node) st : refs_ok n -> refs_ok (with_node_state n st).
Proof. by intros []. Qed.

Lemma refs_delete (n : node) id : refs_ok n -> refs_ok (with_channels n (delete id n.(channels))).
Proof. intros []. split; cbn; try done. intros id' r [_ ?]%lookup_delete_Some. eauto. Qed.

Lemma refs_insert (n : node) id r :
  refs_ok n -> is_Some (n.(slots) !! r) -> refs_ok (with_channels n (<[id := r]> n.(channels))).
Proof.
  intros [] Hr. split; cbn; try done. intros id' r' [[_ <-]|[_ ?]]%lookup_insert_Some; eauto.
Qed.

Lemma refs_insert2 (n : node) id id' r :
  refs_ok n -> is_Some (n.(slots) !! r) -> refs_ok (with_channels n (<[id := r]> (<[id' := r]> n.(channels)))).
Proof.
  intros Hn Hr. exact (refs_insert (with_channels n (<[id' := r]> n.(channels))) id r (refs_insert n id' r Hn Hr) Hr).
Qed.

Lemma refs_stub (n : node) stub :
  refs_ok n -> refs_ok (with_next_ref (with_slot n n.(next_ref) (StubSlot stub)) (S n.(next_ref))).
Proof.
  intros []. split; cbn; try done.
  - intros id r Hid. destruct (decide (r = n.(next_ref))) as [->|]; [by rewrite lookup_insert_eq|].
    rewrite lookup_insert_ne by done. eauto.
  - intros r chan mon [[_ ?]|[_ ?]]%lookup_insert_Some; [done|eauto].
  - intros r r' chan chan' mon [[_ ?]|[_ ?]]%lookup_insert_Some [[_ ?]|[_ ?]]%lookup_insert_Some; try done. eauto.
  - intros r Hr. rewrite lookup_insert_ne by lia. apply refs_fresh0. lia.
Qed.

(** A new monitor, and a ready slot that refers to it. *)
Lemma refs_ready (n : node) chan m :
  refs_ok n ->
  refs_ok (with_next_ref
    (with_slot (with_next_ref (with_monitor n n.(next_ref) m) (S n.(next_ref))) (S n.(next_ref))
       (ReadySlot chan n.(next_ref))) (S (S n.(next_ref)))).
Proof.
  intros [].
  assert (Hmon : forall r chan mon, n.(slots) !! r = Some (ReadySlot chan mon) -> mon <> n.(next_ref)).
  { intros r chan' mon Hr ->. destruct (refs_monitors0 _ _ _ Hr) as [x Hx].
    destruct (refs_fresh0 n.(next_ref)) as [_ Hn]; [done|congruence]. }
  split; cbn.
  - intros id r Hid. destruct (decide (r = S n.(next_ref))) as [->|]; [by rewrite lookup_insert_eq|].
    rewrite lookup_insert_ne by done. eauto.
  - intros r chan' mon [[_ ?]|[_ Hr]]%lookup_insert_Some; simplify_eq; [by rewrite lookup_insert_eq|].
    rewrite lookup_insert_ne by (apply not_eq_sym; eauto). eauto.
  - intros r r' c c' mon [[<- ?]|[_ ?]]%lookup_insert_Some [[<- ?]|[_ ?]]%lookup_insert_Some; simplify_eq; eauto.
    + by exfalso; eapply Hmon.
    + by exfalso; eapply Hmon.
  - intros o mon s Ho. destruct (decide (mon = n.(next_ref))) as [->|]; [by rewrite lookup_insert_eq|].
    rewrite lookup_insert_ne by done. eauto.
  - intros r Hr. rewrite !lookup_insert_ne by lia. apply refs_fresh0. lia.
Qed.

(** The slot of a channel is replaced; its monitor stays. *)
Lemma refs_replace (n : node) r chan chan' mon :
  refs_ok n -> n.(slots) !! r = Some (ReadySlot chan mon) -> refs_ok (with_slot n r (ReadySlot chan' mon)).
Proof.
  intros [] Hr. split; cbn; try done.
  - intros id r' Hid. destruct (decide (r' = r)) as [->|]; [by rewrite lookup_insert_eq|].
    rewrite lookup_insert_ne by done. eauto.
  - intros r' c m [[_ ?]|[_ ?]]%lookup_insert_Some; simplify_eq; eauto.
  - intros r1 r2 c c' m [[<- ?]|[? ?]]%lookup_insert_Some [[<- ?]|[? ?]]%lookup_insert_Some; simplify_eq; eauto.
  - intros r' Hr'. rewrite lookup_insert_ne; [by apply refs_fresh0|]. intros <-.
    destruct (refs_fresh0 r Hr'). congruence.
Qed.

Lemma refs_monitor (n : node) mon m :
  refs_ok n -> is_Some (n.(monitors) !! mon) -> refs_ok (with_monitor n mon m).
Proof.
  intros [] Hm. assert (Hk : forall x, is_Some (n.(monitors) !! x) -> is_Some (<[mon := m]> n.(monitors) !! x)).
  { intros x Hx. destruct (decide (x = mon)) as [->|]; [by rewrite lookup_insert_eq|by rewrite lookup_insert_ne]. }
  split; cbn; try done; eauto.
  intros r Hr. rewrite lookup_insert_ne; [by apply refs_fresh0|]. intros <-.
  destruct (refs_fresh0 mon Hr) as [_ Hn], Hm. congruence.
Qed.

(** The listeners of another tracker refer to monitors too. *)
Lemma refs_tracker (n : node) t :
  refs_ok n -> (forall o mon s, t.(listeners) !! o = Some (mon, s) -> is_Some (n.(monitors) !! mon)) ->
  refs_ok (with_tracker n t).
Proof. by intros [] Ht; split. Qed.

Lemma refs_remove_listener (n : node) o : refs_ok n -> refs_ok (with_tracker n (remove_listener n.(tracker) o)).
Proof.
  intros Hn. apply refs_tracker; [done|]. unfold remove_listener. cbn. intros o' mon s [_ ?]%lookup_delete_Some.
  by eapply refs_listeners.
Qed.

Lemma refs_add_watches (n : node) (t : RefTracker) o watches :
  refs_ok n -> add_listener_watches (E:=Status) n.(tracker) o watches = Ok t -> refs_ok (with_tracker n t).
Proof.
  intros Hn Ht. apply refs_tracker; [done|]. unfold add_listener_watches in Ht.
  apply bind_Ok in Ht as ([mon s] & Hs & Ht). simplify_eq. cbn.
  intros o' mon' s' [[_ ?]|[_ ?]]%lookup_insert_Some; simplify_eq; [|by eapply refs_listeners].
  eapply refs_listeners; [done|]. by destruct (listeners _ !! o) eqn:Hl; simplify_eq/=.
Qed.
End Refs.

Create HintDb refs discriminated.
#[export] Hint Resolve refs_persister refs_state refs_delete refs_insert refs_stub refs_monitor
  refs_remove_listener refs_add_watches : refs.
#[export] Hint Extern 1 (is_Some _) => (cbn; rewrite lookup_insert_eq; by eexists) : refs.

Ltac refs_end := first [done | solve [eauto 12 with refs]].

Section RefsCalls.
Context `{Profile} `{BitcoinLib} `{SpendScripts} `{ChainPackages} `{CommitmentPointProvider} `{WalletKeys}.
Context {P : Type} `{!Persist P} {V : Type} `{Validator V} `{TransactionValidator V NodeWallet}.
Context (validator : V) (compute_txid : Transaction -> Txid).

Abbreviation node := (Node (P:=P)) (only parsing).

Lemma raise_refs id (n : node) : refs_ok n -> wp (raise_high_water_mark id) (fun _ => refs_ok) n.
Proof. intros Hn. unfold raise_high_water_mark. repeat node_step fail refs_end. Qed.

Lemma create_refs id (n : node) : refs_ok n -> wp (find_or_create_channel validator id) (fun _ => refs_ok) n.
Proof. intros Hn. unfold find_or_create_channel. repeat node_step fail refs_end. Qed.

Lemma new_channel_refs dbid peer (n : node) : refs_ok n -> wp (node_new_channel validator dbid peer) (fun _ => refs_ok) n.
Proof. intros Hn. unfold node_new_channel. repeat node_step ltac:(by apply create_refs) refs_end. Qed.

Lemma unwrap_Some {E A : Type} (o : option A) (a : A) : unwrap (E:=E) o = Ok a -> o = Some a.
Proof. by destruct o; cbn; intros; simplify_eq. Qed.

Lemma forget_refs id (n : node) : refs_ok n -> wp (node_forget_channel id) (fun _ => refs_ok) n.
Proof.
  intros Hn. unfold node_forget_channel, chan_forget.
  repeat (node_step ltac:(apply raise_refs; refs_end) refs_end;
          try match goal with H : unwrap _ = Ok _ |- _ => apply unwrap_Some in H end).
Qed.

Lemma prune_each_refs l b (n : node) : refs_ok n -> wp (prune_each b l) (fun _ => refs_ok) n.
Proof.
  revert b n. induction l as [|[key r] l IH]; intros b n Hn; cbn [prune_each]; [by apply wp_ret|].
  unfold prune_channel. repeat node_step ltac:(apply IH; refs_end) refs_end.
Qed.

Lemma prune_refs (n : node) : refs_ok n -> wp prune_channels (fun _ => refs_ok) n.
Proof. intros Hn. unfold prune_channels. repeat node_step ltac:(by apply prune_each_refs) refs_end. Qed.

Lemma heartbeat_refs tw now (n : node) : refs_ok n -> wp (heartbeat tw now) (fun _ => refs_ok) n.
Proof. intros Hn. unfold heartbeat. repeat node_step ltac:(apply prune_refs; refs_end) refs_end. Qed.

Lemma check_onchain_refs now tx flags prev ucks paths (n : node) :
  refs_ok n -> wp (check_onchain_tx validator compute_txid now tx flags prev ucks paths) (fun _ => refs_ok) n.
Proof. intros Hn. unfold check_onchain_tx. repeat node_step fail refs_end. Qed.

Lemma watch_each_refs tx l (n : node) : refs_ok n -> wp (watch_each tx l) (fun _ => refs_ok) n.
Proof.
  revert n. induction l as [|[r|] l IH]; intros n Hn; cbn [watch_each]; [by apply wp_ret| |by apply IH].
  unfold watch_funding.
  repeat (node_step ltac:(apply IH; refs_end) refs_end;
          try match goal with H : unwrap _ = Ok _ |- _ => apply unwrap_Some in H end).
Qed.

Lemma run_channel_refs {A : Type} r chan mon (f : method (Channel * NodeState) Status A) (n : node) :
  refs_ok n -> n.(slots) !! r = Some (ReadySlot chan mon) -> wp (run_channel r chan mon f) (fun _ => refs_ok) n.
Proof.
  intros Hn Hr. unfold run_channel. do 2 node_step fail refs_end. cbv beta iota zeta. destruct (f _) as [[c st] o].
  pose proof (refs_replace n r chan c mon Hn Hr). repeat node_step fail refs_end.
Qed.

Lemma with_channel_refs {A : Type} id (f : method (Channel * NodeState) Status A) (n : node) :
  refs_ok n -> wp (with_channel id f) (fun _ => refs_ok) n.
Proof.
  intros Hn. unfold with_channel. do 3 node_step fail refs_end. apply unwrap_Some in H8.
  repeat node_step ltac:(by apply run_channel_refs) refs_end.
Qed.

Lemma confirm_lock_refs persist id op (n : node) :
  refs_ok n -> wp (confirm_funding_lock persist id op) (fun _ => refs_ok) n.
Proof.
  intros Hn. unfold confirm_funding_lock. do 3 node_step fail refs_end. apply unwrap_Some in H8.
  repeat node_step ltac:(by apply run_channel_refs) refs_end.
Qed.

Lemma sign_onchain_refs {A : Type} (signed : res Status A) tx (n : node) :
  refs_ok n -> wp (unchecked_sign_onchain_tx compute_txid signed tx) (fun _ => refs_ok) n.
Proof. intros Hn. unfold unchecked_sign_onchain_tx. repeat node_step ltac:(by apply watch_each_refs) refs_end. Qed.

Lemma refs_add_listener (n : node) mon m o s :
  refs_ok n -> is_Some (n.(monitors) !! mon) ->
  refs_ok (with_tracker (with_monitor n mon m) (with_listeners n.(tracker) (<[o := (mon, s)]> n.(tracker).(listeners)))).
Proof.
  intros Hn Hm. pose proof (refs_monitor n mon m Hn Hm) as Hn'. apply refs_tracker; [done|]. cbn.
  intros o' mon' s' [[_ ?]|[_ Ho]]%lookup_insert_Some; simplify_eq; [by rewrite lookup_insert_eq|].
  exact (refs_listeners _ Hn' _ _ _ Ho).
Qed.

Lemma setup_stub_refs id0 id new_setup path (n : node) :
  refs_ok n -> wp (setup_stub validator id0 id new_setup path) (fun _ => refs_ok) n.
Proof.
  intros Hn. unfold setup_stub, alloc_monitor, alloc_slot, add_ref_listener.
  do 5 node_step fail refs_end.
  repeat lazymatch goal with |- wp _ _ (with_channels _ _) => fail | _ => node_step fail fail end.
  match goal with |- wp _ _ ?x => set (n1 := x) end.
  assert (Hn1 : refs_ok n1).
  { apply refs_insert2; [by apply refs_ready|refs_end]. }
  assert (Hm : is_Some (monitors n1 !! next_ref n)) by refs_end.
  clearbody n1. pose proof (refs_add_listener n1) as Hl. repeat node_step fail refs_end.
Qed.

Lemma setup_refs id0 id new_setup path (n : node) :
  refs_ok n -> wp (setup_channel validator id0 id new_setup path) (fun _ => refs_ok) n.
Proof.
  intros Hn. unfold setup_channel. do 3 node_step fail refs_end. apply unwrap_Some in H8.
  destruct a0 as [stub|chan mon]; [by apply setup_stub_refs|]. unfold setup_ready, add_ref_listener.
  destruct (bool_decide _); [by apply wp_ret|]. do 2 node_step fail refs_end. apply unwrap_Some in H9.
  case_match. destruct p as [spliced st]. apply wp_bind.
  match goal with |- context [set_self ?x] => set (n1 := x) end.
  assert (Hn1 : refs_ok n1 /\ is_Some (n1.(monitors) !! mon)).
  { subst n1. split; [|refs_end]. apply refs_replace with chan; [|done]. apply refs_monitor; [done|by eexists]. }
  clearbody n1.
  eapply (wp_mono _ (fun _ n' => refs_ok n' /\ is_Some (n'.(monitors) !! mon))).
  { destruct (bool_decide _); [exact Hn1|]. split; [done|by eexists]. }
  intros [[]| |] n2 [Hn2 Hm2]; try done. pose proof (refs_add_listener (with_tracker n2 (remove_listener n2.(tracker) chan.(setup).(Types.funding_outpoint)))) as Hl.
  assert (Hr : refs_ok (with_tracker n2 (remove_listener n2.(tracker) chan.(setup).(Types.funding_outpoint)))) by refs_end.
  repeat node_step fail refs_end.
Qed.
End RefsCalls.

(** ** Pruning *)
(** *** What pruning is meant to remove

    A stub is kept for six blocks, on regtest for a hundred more.  A channel is
    kept until the node forgot it and what ended it is 100 blocks deep. *)
Definition resolved (s : State) : Prop :=
  s.(saw_forget_channel) = true /\
  exists h, Some h ∈ [s.(funding_double_spent_height); s.(mutual_closing_height); s.(closing_swept_height)] /\
    h + 100 <= s.(height) + 1.

Definition obsolete `{ChainPackages} {P : Type} (n : Node (P:=P)) (slot : NodeSlot) : Prop :=
  match slot with
  | StubSlot stub =>
      stub.(stub_blockheight) + (match n.(node_config).(config_network) with Regtest => 106 | _ => 6 end)
        < n.(tracker).(tracker_height)
  | ReadySlot _ mon => exists m, n.(monitors) !! mon = Some m /\ resolved m.(state)
  end.

Lemma deep_enough_spec `{Profile} {E : Type} (s : State) (o : option Z) :
  0 <= s.(height) < 2 ^ 32 - 1 ->
  exists b, deep_enough_and_saw_node_forget (E:=E) s o MIN_DEPTH = Ok b /\
    (b = true <-> s.(saw_forget_channel) = true /\ exists h, o = Some h /\ h + 100 <= s.(height) + 1).
Proof.
  intros Hh. unfold deep_enough_and_saw_node_forget, depth_of. rewrite add_u32_Ok by (unfold u32, uint; lia).
  cbn [mbind res_bind]. eexists. split; [reflexivity|]. unfold saturating_sub, MIN_DEPTH.
  destruct o as [h|]; cbn; (case_match eqn:Hlt; [apply Z.ltb_lt in Hlt|apply Z.ltb_ge in Hlt]).
  - split; [done|]. intros (_ & h' & [= <-] & Hd). lia.
  - split; [|tauto]. intros Hf. split; [done|]. exists h. split; [done|]. lia.
  - split; [done|]. by intros (_ & h & ? & _).
  - lia.
Qed.

Lemma is_done_spec `{Profile} {E : Type} (m : ChainMonitor) :
  0 <= m.(state).(height) < 2 ^ 32 - 1 ->
  exists b, is_done (E:=E) m = Ok b /\ (b = true <-> resolved m.(state)).
Proof.
  intros Hh. unfold is_done, State_is_done, resolved.
  destruct (deep_enough_spec (E:=E) _ m.(state).(funding_double_spent_height) Hh) as (b1 & -> & H1).
  destruct (deep_enough_spec (E:=E) _ m.(state).(mutual_closing_height) Hh) as (b2 & -> & H2).
  destruct (deep_enough_spec (E:=E) _ m.(state).(closing_swept_height) Hh) as (b3 & -> & H3).
  cbn [mbind res_bind]. exists (b1 || b2 || b3). split; [by destruct b1, b2|].
  rewrite !orb_true_iff, H1, H2, H3. setoid_rewrite elem_of_cons. setoid_rewrite elem_of_cons.
  setoid_rewrite list_elem_of_singleton. split.
  - intros [[(? & h & ? & ?)|(? & h & ? & ?)]|(? & h & ? & ?)]; (split; [done|]); exists h; eauto.
  - intros (Hf & h & Ho & Hd). destruct Ho as [Ho|[Ho|Ho]]; [left; left|left; right|right]; (split; [done|]); by exists h.
Qed.

Section Pruning.
Context `{Profile} `{BitcoinLib} `{SpendScripts} `{ChainPackages} `{CommitmentPointProvider} `{WalletKeys}.
Context {P : Type} `{!Persist P}.

Abbreviation node := (Node (P:=P)) (only parsing).

(** The outpoint that the monitor of a slot is listed under. *)
Definition slot_outpoint (n : node) (r : nat) : option OutPoint :=
  match n.(slots) !! r with
  | Some (ReadySlot _ mon) => first_funding_outpoint <$> n.(monitors) !! mon
  | _ => None
  end.

(** The parts of a node that pruning does not touch. *)
Definition same_store (n n' : node) : Prop :=
  n'.(slots) = n.(slots) /\ n'.(monitors) = n.(monitors) /\ n'.(node_state) = n.(node_state) /\
  n'.(node_id) = n.(node_id) /\ n'.(node_config) = n.(node_config) /\ n'.(next_ref) = n.(next_ref).

(** What is left when the entries [l] are removed. *)
Definition removed (n n' : node) (l : list (ChannelId * nat)) : Prop :=
  same_store n n' /\
  (forall id, n'.(channels) !! id = if decide (id ∈ l.*1) then None else n.(channels) !! id) /\
  (forall o, n'.(tracker).(listeners) !! o
           = if decide (Some o ∈ slot_outpoint n <$> l.*2) then None else n.(tracker).(listeners) !! o).

Context (Hdelete : forall nid id p, exists p', p_delete_channel nid id p = (p', Ok tt)).
Context (Htracker : forall nid t p, exists p', p_update_tracker nid t p = (p', Ok tt)).

Lemma persist_or_Ok {A B : Type} e (m : method P Error A) (f : A -> method node Status B) (n : node) p a :
  m n.(persister) = (p, Ok a) -> (persist_or e m ≫= f) n = f a (with_persister n p).
Proof. intros Hm. unfold persist_or, mbind, method_bind. by rewrite Hm. Qed.

Lemma prune_channel_spec b key r (n : node) :
  refs_ok n -> n.(channels) !! key = Some r ->
  exists n' b', prune_channel b (key, r) n = (n', Ok b') /\ refs_ok n' /\ removed n n' [(key, r)].
Proof.
  intros Hn Hk. destruct (refs_slots _ Hn _ _ Hk) as [slot Hs]. unfold prune_channel.
  rewrite get_bind, Hk. cbn [unwrap ok_or]. rewrite call_Ok_bind, set_bind, Hs. cbn [unwrap ok_or]. rewrite call_Ok_bind.
  destruct (Hdelete n.(node_id) key n.(persister)) as [p Hp].
  assert (Hch : forall id, delete key n.(channels) !! id = if decide (id ∈ [key]) then None else n.(channels) !! id).
  { intros id. rewrite lookup_delete. apply decide_ext. rewrite list_elem_of_singleton. split; congruence. }
  destruct slot as [stub|chan mon].
  - exists (with_persister (with_channels n (delete key n.(channels))) p), b.
    split; [exact (persist_or_Ok _ _ _ (with_channels n (delete key n.(channels))) p tt Hp)|].
    split; [refs_end|]. split; [by split_and!|split; [exact Hch|]].
    intros o. cbn. unfold slot_outpoint. rewrite Hs. case_decide as Ho; [|done].
    by apply list_elem_of_singleton in Ho.
  - destruct (refs_monitors _ Hn _ _ _ Hs) as [m Hm]. rewrite Hm. cbn [unwrap ok_or].
    set (n1 := with_channels n (delete key n.(channels))).
    set (n2 := with_tracker n1 (remove_listener n.(tracker) m.(first_funding_outpoint))).
    exists (with_persister n2 p), true. split; [exact (persist_or_Ok _ _ _ n2 p tt Hp)|].
    split; [apply refs_persister, (refs_remove_listener n1); refs_end|]. split; [by split_and!|split; [exact Hch|]].
    intros o. cbn. unfold slot_outpoint. rewrite Hs, Hm. cbn. rewrite lookup_delete.
    apply decide_ext. rewrite list_elem_of_singleton. split; congruence.
Qed.

Lemma removed_trans (n n1 n2 : node) l1 l2 : removed n n1 l1 -> removed n1 n2 l2 -> removed n n2 (l1 ++ l2).
Proof.
  intros ((Hs & Hm & Hst & Hid & Hc & Hr) & Hch & Hl) ((Hs' & Hm' & Hst' & Hid' & Hc' & Hr') & Hch' & Hl').
  assert (Ho : forall r, slot_outpoint n1 r = slot_outpoint n r) by (intros r; unfold slot_outpoint; by rewrite Hs, Hm).
  split; [unfold same_store; split_and!; congruence|split].
  - intros id. rewrite Hch', Hch, fmap_app. pose proof (elem_of_app l1.*1 l2.*1 id). repeat case_decide; tauto.
  - intros o. rewrite Hl', Hl, !fmap_app. rewrite (list_fmap_ext _ _ _ (fun _ r _ => Ho r)).
    pose proof (elem_of_app (slot_outpoint n <$> l1.*2) (slot_outpoint n <$> l2.*2) (Some o)).
    repeat case_decide; tauto.
Qed.

Lemma prune_each_spec l b (n : node) :
  refs_ok n -> NoDup l.*1 -> Forall (fun kr => n.(channels) !! kr.1 = Some kr.2) l ->
  exists n' b', prune_each b l n = (n', Ok b') /\ removed n n' l.
Proof.
  revert b n. induction l as [|[key r] l IH]; intros b n Hn Hnd Hall.
  { exists n, b. split; [done|]. split; [by split_and!|done]. }
  apply Forall_cons in Hall as [Hk Hall]. cbn [fmap list_fmap] in Hnd. apply NoDup_cons in Hnd as [Hni Hnd].
  destruct (prune_channel_spec b key r n Hn Hk) as (n1 & b1 & Hp1 & Hn1 & Hr1).
  destruct (IH b1 n1 Hn1 Hnd) as (n2 & b2 & Hp2 & Hr2).
  { rewrite Forall_forall in *. intros [k' r'] Hin. destruct Hr1 as (_ & Hch & _). cbn. rewrite Hch.
    rewrite decide_False; [by apply (Hall _ Hin)|]. cbn. rewrite list_elem_of_singleton. intros ->.
    apply Hni, list_elem_of_fmap. by exists (key, r'). }
  exists n2, b2. split; [|by apply (removed_trans n n1 n2 [(key, r)] l)].
  cbn [prune_each]. unfold mbind, method_bind. rewrite Hp1. exact Hp2.
Qed.

Lemma map_res_total {E A B : Type} (f : A -> res E B) (g : A -> B) (l : list A) :
  Forall (fun x => f x = Ok (g x)) l -> map_res f l = Ok (g <$> l).
Proof. induction 1 as [|x l Hx _ IH]; [done|]. cbn [map_res]. by rewrite Hx, IH. Qed.

Lemma omap_filter {A : Type} (f : A -> bool) (l : list A) :
  omap (M:=list) id ((fun x => if f x then Some x else None) <$> l) = filter (fun x => f x = true) l.
Proof.
  induction l as [|x l IH]; [done|]. rewrite filter_cons, fmap_cons, <- IH. by destruct (f x).
Qed.

(** Whether a slot is pruned, when the test does not panic. *)
Definition prunable (n : node) (r : nat) : bool :=
  match slot_prunable n r with Ok b => b | _ => false end.

Definition heights_fit (n : node) : Prop :=
  forall mon m, n.(monitors) !! mon = Some m -> 0 <= m.(state).(height) < 2 ^ 32 - 1.

Lemma slot_prunable_total (n : node) id r :
  refs_ok n -> heights_fit n -> n.(channels) !! id = Some r ->
  exists slot, n.(slots) !! r = Some slot /\ slot_prunable n r = Ok (prunable n r) /\
    (prunable n r = true <-> obsolete n slot).
Proof.
  intros Hn Hd Hid. destruct (refs_slots _ Hn _ _ Hid) as [slot Hs]. exists slot. split; [done|].
  unfold prunable, slot_prunable. rewrite Hs. destruct slot as [stub|chan mon]; cbn [unwrap mbind res_bind obsolete].
  - split; [done|]. rewrite Z.ltb_lt. unfold stub_prune_time, CHANNEL_STUB_PRUNE_BLOCKS, saturating_sub.
    destruct (config_network _); lia.
  - destruct (refs_monitors _ Hn _ _ _ Hs) as [m Hm]. destruct (is_done_spec (E:=Status) m (Hd _ _ Hm)) as (b & Hb & Hr).
    rewrite Hm. cbn [unwrap mbind res_bind]. rewrite Hb. split; [done|]. rewrite Hr.
    split; [by exists m|]. by intros (m' & [= <-] & ?).
Qed.

(** The entries that are pruned. *)
Definition prunable_keys (n : node) : list (ChannelId * nat) :=
  filter (fun kr => prunable n kr.2 = true) (btree_iter n.(channels)).

Lemma keys_to_remove_spec (n : node) :
  refs_ok n -> heights_fit n ->
  keys_to_remove n = Ok (prunable_keys n).
Proof.
  intros Hn Hd. unfold keys_to_remove.
  rewrite (map_res_total _ (fun kr => if prunable n kr.2 then Some kr else None)).
  - exact (f_equal Ok (omap_filter (fun kr => prunable n kr.2) (btree_iter n.(channels)))).
  - apply Forall_forall. intros [key r] Hin. apply btree_iter_elem in Hin.
    destruct (slot_prunable_total _ _ _ Hn Hd Hin) as (slot & _ & -> & _). done.
Qed.

Lemma prunable_key (n : node) id : id ∈ (prunable_keys n).*1 <-> exists r, n.(channels) !! id = Some r /\ prunable n r = true.
Proof.
  unfold prunable_keys. rewrite list_elem_of_fmap. split.
  - intros ([id' r] & -> & [Hp Hin]%list_elem_of_filter). apply btree_iter_elem in Hin. by exists r.
  - intros (r & Hid & Hp). exists (id, r). by rewrite list_elem_of_filter, btree_iter_elem.
Qed.

Lemma prunable_outpoint (n : node) o :
  refs_ok n -> heights_fit n ->
  Some o ∈ slot_outpoint n <$> (prunable_keys n).*2 <->
  exists id r chan mon m, n.(channels) !! id = Some r /\ n.(slots) !! r = Some (ReadySlot chan mon) /\
    n.(monitors) !! mon = Some m /\ resolved m.(state) /\ m.(first_funding_outpoint) = o.
Proof.
  intros Hn Hd. unfold prunable_keys. rewrite list_elem_of_fmap. split.
  - intros (r & Ho & ([id r'] & -> & [Hp Hin]%list_elem_of_filter)%list_elem_of_fmap). apply btree_iter_elem in Hin.
    destruct (slot_prunable_total _ _ _ Hn Hd Hin) as (slot & Hs & _ & Hr). apply Hr in Hp.
    cbn [snd] in *. unfold slot_outpoint in Ho. rewrite Hs in Ho. destruct slot as [|chan mon]; [done|].
    destruct Hp as (m & Hm & Hp). rewrite Hm in Ho. simplify_eq/=. by exists id, r', chan, mon, m.
  - intros (id & r & chan & mon & m & Hid & Hs & Hm & Hr & <-). exists r.
    split; [unfold slot_outpoint; rewrite Hs; cbn; by rewrite Hm|]. apply list_elem_of_fmap. exists (id, r).
    rewrite list_elem_of_filter, btree_iter_elem. split_and!; [done| |done].
    destruct (slot_prunable_total _ _ _ Hn Hd Hid) as (slot & Hs' & _ & Hp). apply Hp. simplify_eq. by exists m.
Qed.

Lemma prune_channels_spec (n : node) :
  refs_ok n -> heights_fit n ->
  exists n', prune_channels n = (n', Ok tt) /\
    removed n n' (prunable_keys n).
Proof.
  intros Hn Hd. destruct (prune_each_spec (prunable_keys n) false n Hn) as (n1 & b & Hp & Hr).
  { eapply sublist_NoDup; [apply (btree_iter_NoDup n.(channels))|]. apply fmap_sublist, sublist_filter. }
  { apply Forall_forall. intros [key r] [_ Hin]%list_elem_of_filter. by apply btree_iter_elem. }
  unfold prune_channels. rewrite get_bind, keys_to_remove_spec, call_Ok_bind by done.
  unfold mbind, method_bind. rewrite Hp. destruct b; [|by exists n1].
  destruct (Htracker n1.(node_id) (resolve_tracker n1) n1.(persister)) as [p Hpt].
  exists (with_persister n1 p). split; [|exact Hr].
  unfold persist_node_tracker. rewrite get_bind. unfold persist_or. by rewrite Hpt.
Qed.
End Pruning.

Section Steps.
Context `{Profile} `{BitcoinLib} `{LightningLib} `{SpendScripts} `{ChainPackages} `{CommitmentPointProvider}.
Context `{WalletKeys} `{Signer} `{TransactionSigner}.
Context {P : Type} `{!Persist P} {V : Type} `{Validator V} `{TransactionValidator V NodeWallet}.
Context {PO I : Type} {HPO : Policy PO} {HI : InvoiceAttributes I} (policy : PO).
Context (validator : V) (compute_txid : Transaction -> Txid) (set_iter : gset Z -> list Z) (hash_preimage : Z -> Z).

Abbreviation node := (Node (P:=P)) (only parsing).

(** Blocks change the tracker, the slots of its listeners and the monitors that
    they refer to; [p] is the persister afterwards. *)
Definition after_blocks (n : node) (t : RefTracker) (ms : gmap nat ChainMonitor) (p : P) : node :=
  mkNode n.(node_id) n.(node_config) n.(channels) n.(slots) ms n.(next_ref) t n.(node_state) p.

(** One call, with any outcome. *)
Inductive node_call (n n' : node) : Prop :=
| node_call_new dbid peer o : node_new_channel validator dbid peer n = (n', o) -> node_call n n'
| node_call_new_random id o : find_or_create_channel validator id n = (n', o) -> node_call n n'
| node_call_setup id0 id new_setup path o :
    setup_channel validator id0 id new_setup path n = (n', o) -> node_call n n'
| node_call_forget id o : node_forget_channel id n = (n', o) -> node_call n n'
| node_call_heartbeat tw now o : heartbeat tw now n = (n', o) -> node_call n n'
| node_call_check_onchain now tx flags prev ucks paths o :
    check_onchain_tx validator compute_txid now tx flags prev ucks paths n = (n', o) -> node_call n n'
| node_call_sign_onchain (A : Type) (signed : res Status A) tx o :
    unchecked_sign_onchain_tx compute_txid signed tx n = (n', o) -> node_call n n'
| node_call_channel persist (A : Type) id (f : method (Channel * NodeState) Status A) n1 o p :
    (forall s, rtc (channel_call validator (node_wallet n) set_iter hash_preimage persist) s (f s).1) ->
    with_channel id f n = (n1, o) -> n' = with_persister n1 p -> node_call n n'
| node_call_lock persist id outpoint n1 o p :
    confirm_funding_lock persist id outpoint n = (n1, o) -> n' = with_persister n1 p -> node_call n n'
| node_call_state st p :
    state_call validator (I:=I) policy n.(node_state) st ->
    n' = with_persister (with_node_state n st) p -> node_call n n'
| node_call_blocks t ms p :
    fst <$> t.(listeners) = fst <$> n.(tracker).(listeners) -> dom ms = dom n.(monitors) ->
    n' = after_blocks n t ms p -> node_call n n'.

Lemma node_call_mark (k : Z) (n n' : node) : mark_from k n -> node_call n n' -> mark_from k n'.
Proof.
  intros Hk [? ? o Hc|? o Hc|? ? ? ? o Hc|? o Hc|? ? o Hc|? ? ? ? ? ? o Hc|? ? ? o Hc
            |pe A id f n1 o p Hf Hc ->|pe id op n1 o p Hc ->|st p Hc ->|t ms p _ _ ->].
  - eapply (wp_run _ (fun _ => mark_from k)); [by apply new_channel_mark|exact Hc].
  - eapply (wp_run _ (fun _ => mark_from k)); [by apply create_mark|exact Hc].
  - eapply (wp_run _ (fun _ => mark_from k)); [by apply setup_mark|exact Hc].
  - eapply (wp_run _ (fun _ => mark_from k)); [by apply forget_mark|exact Hc].
  - eapply (wp_run _ (fun _ => mark_from k)); [by apply heartbeat_mark|exact Hc].
  - eapply (wp_run _ (fun _ => mark_from k)); [by apply check_onchain_mark|exact Hc].
  - eapply (wp_run _ (fun _ => mark_from k)); [by apply sign_onchain_mark|exact Hc].
  - change (mark_from k n1). eapply (wp_run _ (fun _ => mark_from k)); [|exact Hc]. apply with_channel_mark; [|done].
    intros c st c' st' o' Hrun. specialize (Hf (c, st)). rewrite Hrun in Hf. by apply channel_calls_mark in Hf.
  - change (mark_from k n1). eapply (wp_run _ (fun _ => mark_from k)); [|exact Hc]. by apply confirm_lock_mark.
  - apply state_call_mark in Hc. unfold mark_from in *. cbn. by rewrite Hc.
  - done.
Qed.

Lemma node_calls_mark (k : Z) (n n' : node) : mark_from k n -> rtc node_call n n' -> mark_from k n'.
Proof. intros Hk. induction 1; eauto using node_call_mark. Qed.

Lemma forget_raises_mark id oid (n n' : node) u :
  is_Some (n.(channels) !! id) -> ChannelId_oid (E:=Status) id = Ok oid ->
  node_forget_channel id n = (n', Ok u) -> mark_from oid n'.
Proof.
  intros [r Hr] Hid Hrun.
  refine (wp_run _ (fun o n' => is_ok o = true -> mark_from oid n') _ _ _ _ Hrun eq_refl).
  unfold node_forget_channel, chan_forget. apply wp_get. rewrite Hr.
  assert (Hraise : forall n1 : node, wp (raise_high_water_mark id) (fun o n2 => is_ok o = true -> mark_from oid n2) n1).
  { intros n1. eapply wp_mono; [by apply (raise_mark id oid n1.(node_state).(dbid_high_water_mark)); [apply Z.le_refl|]|].
    by intros o n2 []. }
  repeat node_step ltac:(apply Hraise) ltac:(try (intros ?; cbn in *; congruence); auto).
Qed.

(** A node without channels. *)
Definition fresh_node (n : node) : Prop :=
  n.(channels) = ∅ /\ n.(slots) = ∅ /\ n.(monitors) = ∅ /\ n.(tracker).(listeners) = ∅.

Lemma fresh_node_refs (n : node) : fresh_node n -> refs_ok n.
Proof. intros (Hc & Hs & Hm & Hl). split; intros *; rewrite ?Hc, ?Hs, ?Hm, ?Hl, ?lookup_empty; done. Qed.

Lemma node_call_refs (n n' : node) : refs_ok n -> node_call n n' -> refs_ok n'.
Proof.
  intros Hn [? ? o Hc|? o Hc|? ? ? ? o Hc|? o Hc|? ? o Hc|? ? ? ? ? ? o Hc|? ? ? o Hc
            |pe A id f n1 o p Hf Hc ->|pe id op n1 o p Hc ->|st p Hc ->|t ms p Ht Hms ->].
  - eapply (wp_run _ (fun _ => refs_ok)); [by apply new_channel_refs|exact Hc].
  - eapply (wp_run _ (fun _ => refs_ok)); [by apply create_refs|exact Hc].
  - eapply (wp_run _ (fun _ => refs_ok)); [by apply setup_refs|exact Hc].
  - eapply (wp_run _ (fun _ => refs_ok)); [by apply forget_refs|exact Hc].
  - eapply (wp_run _ (fun _ => refs_ok)); [by apply heartbeat_refs|exact Hc].
  - eapply (wp_run _ (fun _ => refs_ok)); [by apply check_onchain_refs|exact Hc].
  - eapply (wp_run _ (fun _ => refs_ok)); [by apply sign_onchain_refs|exact Hc].
  - apply refs_persister. eapply (wp_run _ (fun _ => refs_ok)); [|exact Hc]. by apply with_channel_refs.
  - apply refs_persister. eapply (wp_run _ (fun _ => refs_ok)); [|exact Hc]. by apply confirm_lock_refs.
  - refs_end.
  - assert (Hdom : forall x, is_Some (ms !! x) <-> is_Some (n.(monitors) !! x)) by (intros x; by rewrite <- !elem_of_dom, Hms).
    destruct Hn. split; cbn; try done.
    + intros r chan mon Hr. apply Hdom. eauto.
    + intros o mon s Ho. apply Hdom. assert (Hf : (fst <$> t.(listeners)) !! o = Some mon) by (by rewrite lookup_fmap, Ho).
      rewrite Ht, lookup_fmap in Hf. destruct (listeners (tracker n) !! o) as [[mon' s']|] eqn:Ho'; simplify_eq/=. eauto.
    + intros r Hr. destruct (refs_fresh0 r Hr) as [? Hm]. split; [done|]. apply eq_None_not_Some. rewrite Hdom, Hm.
      by intros [? ?].
Qed.

(** In every node that calls make from one without channels, whatever their
    outcome, each channel id refers to a slot, each ready slot to a monitor that no
    other slot has, and each listener of the tracker to a monitor. *)
Theorem references_resolve (n n' : node) : fresh_node n -> rtc node_call n n' -> refs_ok n'.
Proof. intros Hf. assert (Hn := fresh_node_refs _ Hf). clear Hf. induction 1; eauto using node_call_refs. Qed.

(** Channel ids are not reused. Once a channel that was opened as number
    [dbid] is forgotten, no later call creates a channel with a number up to
    [dbid], for any peer and whatever calls of the node, its channels and its
    chain come in between: the request is refused and changes nothing. *)
Theorem forgotten_id_not_reused (n n1 n2 : node) (peer peer' : list Z) (dbid dbid' : Z) (u : unit) :
  u64 dbid -> is_Some (n.(channels) !! new_from_peer_id_and_oid peer dbid) ->
  node_forget_channel (new_from_peer_id_and_oid peer dbid) n = (n1, Ok u) ->
  rtc node_call n1 n2 -> dbid' <= dbid ->
  node_new_channel validator dbid' peer' n2
    = (n2, Err (Status_from (policy_error "policy-channel-original-channel-id-reuse"))).
Proof.
  intros Hu Hin Hf Hsteps Hle.
  assert (Hm : mark_from dbid n2).
  { eapply node_calls_mark, Hsteps. eapply forget_raises_mark; [exact Hin| |exact Hf]. by apply oid_suffix. }
  unfold node_new_channel, mark_from in *. rewrite get_bind, (proj2 (Z.leb_le _ _)) by lia. done.
Qed.

(** C30: Pruning on a node whose references resolve and whose persister answers
    returns. It removes exactly the stubs that outlived their grace period and the
    ready channels that the node forgot and whose funding was double-spent, mutually
    closed or swept 100 blocks deep, and from the tracker exactly the listeners of
    the latter. *)
Theorem prune_removes_exactly (n : node) :
  (forall nid id p, exists p', p_delete_channel nid id p = (p', Ok tt)) ->
  (forall nid t p, exists p', p_update_tracker nid t p = (p', Ok tt)) ->
  refs_ok n -> heights_fit n ->
  exists n', prune_channels n = (n', Ok tt) /\
    (forall id r, n'.(channels) !! id = Some r
       <-> n.(channels) !! id = Some r /\ exists slot, n.(slots) !! r = Some slot /\ ~ obsolete n slot) /\
    (forall o l, n'.(tracker).(listeners) !! o = Some l
       <-> n.(tracker).(listeners) !! o = Some l /\
           forall id r chan mon m, n.(channels) !! id = Some r -> n.(slots) !! r = Some (ReadySlot chan mon) ->
             n.(monitors) !! mon = Some m -> resolved m.(state) -> m.(first_funding_outpoint) <> o).
Proof.
  intros Hd Ht Hn Hh. destruct (prune_channels_spec Hd Ht n Hn Hh) as (n' & Hrun & _ & Hch & Hl).
  exists n'. split; [done|]. split.
  - intros id r. rewrite Hch. case_decide as Hin; rewrite prunable_key in Hin.
    + split; [done|]. intros (Hid & slot & Hs & Ho). destruct Hin as (r' & Hid' & Hp).
      destruct (slot_prunable_total _ _ _ Hn Hh Hid) as (slot' & Hs' & _ & Hr). simplify_eq. tauto.
    + split; [|tauto]. intros Hid. split; [done|].
      destruct (slot_prunable_total _ _ _ Hn Hh Hid) as (slot & Hs & _ & Hr). exists slot. split; [done|].
      rewrite <- Hr. intros Hp. apply Hin. by exists r.
  - intros o l. rewrite Hl. case_decide as Hin; rewrite prunable_outpoint in Hin by done.
    + split; [done|]. intros [_ Hno]. destruct Hin as (id & r & chan & mon & m & ? & ? & ? & ? & ?).
      by destruct (Hno id r chan mon m).
    + split; [|tauto]. intros Ho. split; [done|]. intros id r chan mon m ? ? ? ? Heq. apply Hin.
      by exists id, r, chan, mon, m.
Qed.
End Steps.

(** ** A node to evaluate the model *)
#[export] Instance sample_wallet_keys : WalletKeys :=
  {| account_pubkey p := zsum p; xpub_derive_pub x p := Some (x + zsum p); p2wpkh_script k := k; p2shwpkh_script k := k;
     p2tr_script k := k; p2pkh_script k := k |}.
#[export] Instance sample_spend_scripts : SpendScripts :=
  {| is_p2pkh _ := false; is_p2sh _ := false; is_p2tr _ := false |}.
Definition sample_node_transactions : TransactionValidator SimpleValidator NodeWallet :=
  SimpleValidator_transactions (H:=release_profile) (fun _ => 663) (fun _ => 703) (fun _ => 5).

Section NodeSample.
#[local] Instance node_sample_profile : Profile := release_profile.
#[local] Existing Instance sample_chain_packages.
#[local] Existing Instance sample_provider.
#[local] Existing Instance sample_signer.
#[local] Existing Instance sample_checks.
#[local] Existing Instance sample_node_transactions.

Definition sample_node_tracker : ChainTracker (L:=nat) (K:=OutPoint) :=
  mkChainTracker [] (sample_headers 100) 100 Bitcoin ∅ None [] false.
Definition empty_node : Node (P:=DummyPersister) :=
  mkNode 7 (NodeConfig_new Bitcoin) ∅ ∅ ∅ 0 sample_node_tracker sample_state mkDummyPersister.

Definition peer : list Z := replicate 33 2.
Definition opened_id : ChannelId := new_from_peer_id_and_oid peer 5.
Definition opened_node : Node (P:=DummyPersister) := (node_new_channel sample_policy 5 peer empty_node).1.
Definition forgotten_node : Node (P:=DummyPersister) := (node_forget_channel opened_id opened_node).1.
Definition later_node : Node (P:=DummyPersister) := (heartbeat false 0 forgotten_node).1.
Definition ready_node : Node (P:=DummyPersister) :=
  (setup_channel sample_policy opened_id (Some [4]) sample_setup [] opened_node).1.

Lemma forgotten_id_not_reused_witness :
  node_new_channel sample_policy 4 (replicate 33 3) later_node
  = (later_node, Err (Status_from (policy_error "policy-channel-original-channel-id-reuse"))).
Proof.
  apply (forgotten_id_not_reused (I:=unit) (HPO:=SimpleValidator_policy) (HI:=unit_invoice) sample_policy sample_policy (fun tx => tx.(version)) elements id
           opened_node forgotten_node later_node peer (replicate 33 3) 5 4 tt).
  - unfold u64, uint. lia.
  - vm_compute. by eexists.
  - vm_compute. reflexivity.
  - apply rtc_once. eapply node_call_heartbeat. unfold later_node. apply surjective_pairing.
  - lia.
Defined.

Lemma references_resolve_witness : refs_ok later_node.
Proof.
  apply (references_resolve (I:=unit) (HPO:=SimpleValidator_policy) (HI:=unit_invoice) sample_policy sample_policy
           (fun tx => tx.(version)) elements id empty_node later_node).
  - by unfold fresh_node; split_and!.
  - eapply rtc_l; [|eapply rtc_l; [|apply rtc_once]].
    + eapply node_call_new. apply (surjective_pairing (node_new_channel sample_policy 5 peer empty_node)).
    + eapply node_call_forget. apply (surjective_pairing (node_forget_channel opened_id opened_node)).
    + eapply node_call_heartbeat. apply (surjective_pairing (heartbeat false 0 forgotten_node)).
Defined.

(** The channel is done 100 blocks after a mutual close. *)
Definition done_monitor : ChainMonitor :=
  mkChainMonitor (mkOutPoint 77 0)
    (mkState 500 [77] [0] ∅ (Some 100) (Some (mkOutPoint 77 0)) None (Some 400) None None None None true true (Some [4]))
    None.
Definition closed_node : Node (P:=DummyPersister) := with_monitor ready_node 1 done_monitor.

Lemma closed_node_refs : refs_ok closed_node.
Proof.
  apply refs_monitor; [|vm_compute; by eexists].
  refine (wp_run _ (fun _ => refs_ok) opened_node _ _ (setup_refs _ _ _ _ _ _ _) (surjective_pairing _)).
  refine (wp_run _ (fun _ => refs_ok) empty_node _ _ (new_channel_refs _ _ _ _ _) (surjective_pairing _)).
  apply fresh_node_refs. by unfold fresh_node; split_and!.
Qed.

Lemma done_resolved : resolved done_monitor.(state).
Proof. split; [reflexivity|]. exists 400. split; [right; left|cbn; lia]. Qed.

Lemma prune_removes_exactly_witness :
  exists n', prune_channels closed_node = (n', Ok tt) /\ n'.(channels) !! opened_id <> Some 2%nat /\
    n'.(tracker).(listeners) !! mkOutPoint 77 0 = None.
Proof.
  destruct (prune_removes_exactly closed_node) as (n' & Hrun & Hch & Hl).
  - intros nid id p. by exists p.
  - intros nid t p. by exists p.
  - apply closed_node_refs.
  - intros mon m Hm. assert (Hms : monitors closed_node = {[1%nat := done_monitor]}) by (vm_compute; reflexivity).
    rewrite Hms in Hm. apply lookup_singleton_Some in Hm as [_ <-]. cbn. lia.
  - exists n'. split; [exact Hrun|]. split.
    + intros (_ & slot & Hs & Ho)%Hch. apply Ho.
      assert (Hslot : exists chan, slots closed_node !! 2%nat = Some (ReadySlot chan 1%nat)) by (eexists; vm_compute; reflexivity).
      destruct Hslot as [chan Hslot]. rewrite Hslot in Hs. injection Hs as <-. exists done_monitor.
      split; [vm_compute; reflexivity|]. exact done_resolved.
    + destruct (n'.(tracker).(listeners) !! mkOutPoint 77 0) as [l|] eqn:Ho; [|reflexivity]. exfalso.
      apply Hl in Ho as [_ Ho]. refine (Ho opened_id 2%nat _ 1%nat done_monitor _ _ _ done_resolved _); vm_compute; reflexivity.
Defined.
End NodeSample.
