(* ===== verification/NodeRestore.v ===== *)
(** * Setting up and restoring the channels of a node

    What a setup registers, what a splice does to the watched outpoints, and what
    a node has after it was restored from its persister. *)
From S2P Require Import Prelude Velocity Policy Ordered CommitInfo Types Bitcoin Script Secrets Enforcement SimpleValidator Validator NodeState Channel ChannelSafety TxValidator TxSafety ChannelTx ChannelTxSafety Monitor Tracker ChainSafety TrackerSafety BTree Kvv Persister PersisterSafety Node NodeChannels.

(** ** Setting up a channel *)
Section Setup.
Context `{Profile} `{BitcoinLib} `{SpendScripts} `{ChainPackages} `{CommitmentPointProvider} `{WalletKeys}.
Context {P : Type} `{!Persist P} {V : Type} `{Validator V} `{TransactionValidator V NodeWallet} (validator : V).

Abbreviation node := (Node (P:=P)) (only parsing).

(** What a setup registers: the ids, the slot, the monitor and its listener. *)
Definition registered (n n' : node) (id0 id : ChannelId) (chan : Channel) (outpoint : OutPoint) : Prop :=
  exists r mon m,
    n'.(channels) = <[id0 := r]> (<[id := r]> n.(channels)) /\
    n'.(slots) = <[r := ReadySlot chan mon]> n.(slots) /\ n'.(monitors) !! mon = Some m /\
    m.(first_funding_outpoint) = outpoint /\ m.(state).(funding_txids) = [outpoint.(txid)] /\
    n'.(tracker).(listeners)
      = <[outpoint := (mon, mkListenSlot {[ outpoint.(txid) ]} ∅ ∅)]> n.(tracker).(listeners).

Lemma persist_or_inv {A : Type} e (m : method P Error A) (n n' : node) o :
  persist_or e m n = (n', o) -> exists p, n' = with_persister n p.
Proof. unfold persist_or. destruct (m n.(persister)) as [p r]. intros [= <- _]. by exists p. Qed.

Lemma lift_ve_inv {A : Type} (r : res ValidationError A) (a : A) : lift_ve r = Ok a -> r = Ok a.
Proof. by destruct r; intros; simplify_eq/=. Qed.

Ltac run_alloc H :=
  cbv [alloc_monitor alloc_slot add_ref_listener mbind method_bind get_self set_self mret method_ret] in H;
  first [injection H as <- <-|injection H as <-].

Lemma setup_stub_registers id0 id new_setup path (n n' : node) chan :
  setup_stub validator id0 id new_setup path n = (n', Ok chan) ->
  registered n n' id0 (default id0 id) chan new_setup.(Types.funding_outpoint) /\
  chan.(setup) = new_setup /\ chan.(enforcement_state).(next_holder_commit_num) = 0 /\
  tv_validate_setup_channel validator (node_wallet n) new_setup path = Ok tt.
Proof.
  unfold setup_stub. rewrite get_bind. cbv zeta. intros Hrun.
  apply call_Ok in Hrun as (m & Hm & Hrun). apply call_Ok in Hrun as (cs & Hcs & Hrun).
  apply call_Ok in Hrun as (c & Hc & Hrun). apply call_Ok in Hrun as ([] & Hval%lift_ve_inv & Hrun).
  apply method_Ok in Hrun as (n1 & mon & Ha & Hrun). run_alloc Ha.
  apply method_Ok in Hrun as (n2 & r & Ha & Hrun). run_alloc Ha. rewrite get_bind, set_bind in Hrun.
  apply method_Ok in Hrun as (n3 & [] & Ha & Hrun). run_alloc Ha.
  apply method_Ok in Hrun as (n4 & [] & [p4 ->]%persist_or_inv & Hrun).
  apply method_Ok in Hrun as (n5 & [] & [p5 ->]%persist_or_inv & Hrun). injection Hrun as <- <-.
  assert (Hchan : c.(setup) = new_setup /\ c.(enforcement_state).(next_holder_commit_num) = 0).
  { unfold ready_channel in Hc. apply bind_Ok in Hc as (v & _ & Hc). by simplify_eq. }
  assert (Hmon : m.(first_funding_outpoint) = new_setup.(Types.funding_outpoint) /\
                 m.(state).(funding_txids) = [new_setup.(Types.funding_outpoint).(txid)]).
  { unfold add_funding_outpoint in Hm. rewrite !bool_decide_eq_true_2 in Hm by done. cbn in Hm. by simplify_eq. }
  destruct Hmon as [Hfirst Htx]. split; [|tauto].
  exists (S n.(next_ref)), n.(next_ref), (as_monitor m). cbn. rewrite Hfirst, lookup_insert_eq. by split_and!.
Qed.

Lemma splice_setup_Ok validate cs new_setup (chan : Channel) st s u :
  chan.(setup) <> new_setup ->
  splice_setup (fun _ => Ok tt) validate (Ok tt) cs new_setup (chan, st) = (s, Ok u) ->
  validate new_setup = Ok tt /\ s.1.(setup) = new_setup /\ s.1.(prev_setup) = Some chan.(setup) /\
  s.1.(prev_prev_setup) = chan.(prev_setup).
Proof.
  intros Hne. unfold splice_setup. rewrite get_bind. cbv beta iota zeta. rewrite bool_decide_eq_false_2 by done.
  destruct (negb _); [done|]. intros Hrun. apply call_Ok in Hrun as (over & _ & Hrun). destruct over; [done|].
  rewrite set_bind in Hrun. apply call_Ok in Hrun as ([] & Hv%lift_ve_inv & Hrun).
  apply call_Ok in Hrun as ([] & _ & Hrun). injection Hrun as <- <-. done.
Qed.

(** A splice moves the listener of the channel to the new outpoint. *)
Definition spliced_to (n n' : node) (r mon : nat) (chan chan' : Channel) (new_setup : ChannelSetup) : Prop :=
  let outpoint := new_setup.(Types.funding_outpoint) in
  chan'.(setup) = new_setup /\ chan'.(prev_setup) = Some chan.(setup) /\ chan'.(prev_prev_setup) = chan.(prev_setup) /\
  n'.(channels) = n.(channels) /\ n'.(slots) = <[r := ReadySlot chan' mon]> n.(slots) /\
  (exists m, n'.(monitors) !! mon = Some m /\ m.(first_funding_outpoint) = outpoint /\
     m.(state).(funding_txids) = [outpoint.(txid)] /\ m.(state).(funding_height) = None) /\
  n'.(tracker).(listeners)
    = <[outpoint := (mon, mkListenSlot {[ outpoint.(txid) ]} ∅ ∅)]>
        (delete chan.(setup).(Types.funding_outpoint) n.(tracker).(listeners)).

Lemma setup_ready_splices r chan mon new_setup path (n n' : node) chan' :
  chan.(setup) <> new_setup -> setup_ready validator r chan mon new_setup path n = (n', Ok chan') ->
  spliced_to n n' r mon chan chan' new_setup /\
  tv_validate_setup_channel validator (node_wallet n) new_setup path = Ok tt.
Proof.
  intros Hne. unfold setup_ready. rewrite bool_decide_eq_false_2 by done. rewrite get_bind. intros Hrun.
  apply call_Ok in Hrun as (m & Hm & Hrun). cbv zeta in Hrun.
  destruct (splice_setup _ _ _ _ _ _) as [[spliced st] o] eqn:Hs.
  destruct o as [[]| |].
  2,3: exfalso; apply method_Ok in Hrun as (n1 & [] & _ & Hrun); done.
  destruct (splice_setup_Ok _ _ _ _ _ _ _ Hne Hs) as (Hv & Hset & Hprev & Hpp). cbn [fst] in *.
  rewrite bool_decide_eq_true_2, set_bind, call_Ok_bind, get_bind, set_bind in Hrun by done.
  apply method_Ok in Hrun as (n3 & [] & Ha & Hrun). run_alloc Ha.
  apply method_Ok in Hrun as (n4 & [] & [p4 ->]%persist_or_inv & Hrun).
  apply method_Ok in Hrun as (n5 & [] & [p5 ->]%persist_or_inv & Hrun). injection Hrun as <- <-.
  split; [|done]. unfold spliced_to. split_and!; try done. cbn. rewrite lookup_insert_eq. by eexists.
Qed.

(** Setting up a channel. On a stub it validates the setup, and a call that
    succeeds leaves a ready channel under both ids with commitment number 0, a new
    monitor of its funding and a listener that watches the funding transaction. On a
    ready channel a different setup that succeeds is validated too; it leaves the
    channel in its slot with the previous setups shifted, and moves the monitor and
    the listener to the new funding outpoint: the tracker has no listener for the
    previous funding any more. *)
Theorem setup_registers_channel (n n' : node) (id0 : ChannelId) (id : option ChannelId) (new_setup : ChannelSetup)
    (path : DerivationPath) (r : nat) (slot : NodeSlot) (chan : Channel) :
  n.(channels) !! id0 = Some r -> n.(slots) !! r = Some slot ->
  setup_channel validator id0 id new_setup path n = (n', Ok chan) ->
  match slot with
  | StubSlot _ =>
      registered n n' id0 (default id0 id) chan new_setup.(Types.funding_outpoint) /\
      chan.(setup) = new_setup /\ chan.(enforcement_state).(next_holder_commit_num) = 0 /\
      tv_validate_setup_channel validator (node_wallet n) new_setup path = Ok tt
  | ReadySlot old mon =>
      old.(setup) = new_setup /\ chan = old /\ n' = n \/
      old.(setup) <> new_setup /\ spliced_to n n' r mon old chan new_setup /\
      tv_validate_setup_channel validator (node_wallet n) new_setup path = Ok tt
  end.
Proof.
  intros Hid Hs. unfold setup_channel, get_channel_slot. rewrite get_bind, Hid. cbn [ok_or]. rewrite call_Ok_bind, Hs.
  cbn [unwrap]. rewrite call_Ok_bind. destruct slot as [stub|old mon]; intros Hrun.
  - by apply setup_stub_registers.
  - destruct (decide (old.(setup) = new_setup)) as [Heq|Hne].
    + left. unfold setup_ready in Hrun. rewrite bool_decide_eq_true_2 in Hrun by done. by injection Hrun as <- <-.
    + right. split; [done|]. by apply setup_ready_splices.
Qed.
End Setup.

(** ** Restoring a node *)
Section Restore.
Context `{Profile} `{BitcoinLib} `{SpendScripts} `{ChainPackages} `{CommitmentPointProvider} `{WalletKeys}.
Context {P : Type} `{!Persist P} {V : Type} `{Validator V} (validator : V) (set_iter : gset Z -> list Z).

Abbreviation node := (Node (P:=P)) (only parsing).
Abbreviation persisted := (gmap OutPoint (State * ListenSlot)) (only parsing).

(** The ids of a persisted channel, and its funding outpoint when it is ready. *)
Definition entry_ids (e : ChannelId * ChannelEntry) : list ChannelId :=
  e.1 :: match e.2.(entry_id) with Some id => if decide (id = e.1) then [] else [id] | None => [] end.

Definition entry_outpoint (e : ChannelId * ChannelEntry) : option OutPoint :=
  Types.funding_outpoint <$> e.2.(entry_channel_setup).

Definition ready_outpoints (l : list (ChannelId * ChannelEntry)) : list OutPoint := omap entry_outpoint l.

(** The payments of the commitments can be summed up. *)
Definition summaries_fit (estate : EnforcementState) : Prop :=
  (exists ins, incoming_payments_summary (E:=Status) estate None None = Ok ins) /\
  exists outs, payments_summary (E:=Status) estate None None = Ok outs.

(** What a node holds for a persisted channel: a slot under its ids, and for a
    ready channel the persisted state, with its monitor under the tracker. *)
Definition restored (height : Z) (ls : persisted) (n : node) (e : ChannelId * ChannelEntry) : Prop :=
  exists r, (forall id, id ∈ entry_ids e -> n.(channels) !! id = Some r) /\
    match e.2.(entry_channel_setup) with
    | None => n.(slots) !! r = Some (StubSlot (mkChannelStub e.1 (default height e.2.(entry_blockheight))))
    | Some s =>
        exists mon cs st slot,
          n.(slots) !! r = Some (ReadySlot (mkChannel e.2.(entry_enforcement_state) s e.1 e.2.(entry_id) cs
                                  e.2.(entry_prev_setup) e.2.(entry_prev_prev_setup) None) mon) /\
          ls !! s.(Types.funding_outpoint) = Some (st, slot) /\
          n.(monitors) !! mon
            = Some (Monitor.new_from_persistence s.(Types.funding_outpoint) st (default e.1 e.2.(entry_id))) /\
          n.(tracker).(listeners) !! s.(Types.funding_outpoint) = Some (mon, slot)
    end.

(** What restoring one channel leaves as it is. *)
Definition restore_frame (e : ChannelId * ChannelEntry) (n n' : node) : Prop :=
  (forall id, id ∉ entry_ids e -> n'.(channels) !! id = n.(channels) !! id) /\
  (forall r, (r < n.(next_ref))%nat -> n'.(slots) !! r = n.(slots) !! r /\ n'.(monitors) !! r = n.(monitors) !! r) /\
  (forall o, entry_outpoint e <> Some o -> n'.(tracker).(listeners) !! o = n.(tracker).(listeners) !! o) /\
  n'.(node_state).(velocity_control) = n.(node_state).(velocity_control) /\
  n'.(node_state).(node_fee_velocity_control) = n.(node_state).(node_fee_velocity_control) /\
  n'.(node_state).(dbid_high_water_mark) = n.(node_state).(dbid_high_water_mark).

Lemma restore_payments_ok chan st :
  summaries_fit chan.(enforcement_state) ->
  exists st', restore_payments set_iter chan st = Ok st' /\
    st'.(velocity_control) = st.(velocity_control) /\
    st'.(node_fee_velocity_control) = st.(node_fee_velocity_control) /\
    st'.(dbid_high_water_mark) = st.(dbid_high_water_mark).
Proof.
  intros [[ins Hins] [outs Houts]]. unfold restore_payments. rewrite Hins. cbn [mbind res_bind]. rewrite Houts.
  cbn [mbind res_bind]. by eexists.
Qed.

Lemma restore_ids_spec (n : node) e r :
  exists c, restore_ids e.1 e.2.(entry_id) r n = (with_channels n c, Ok tt) /\
    (forall id, id ∈ entry_ids e -> c !! id = Some r) /\ (forall id, id ∉ entry_ids e -> c !! id = n.(channels) !! id).
Proof.
  exists (match e.2.(entry_id) with Some id => <[id := r]> (<[e.1 := r]> n.(channels)) | None => <[e.1 := r]> n.(channels) end).
  split; [done|]. destruct e as [id0 e]. unfold entry_ids. cbn [fst snd]. split; intros id Hid.
  - destruct e.(entry_id) as [i|]; [|by apply list_elem_of_singleton in Hid as ->; rewrite lookup_insert_eq].
    destruct (decide (id = i)) as [->|Hne]; [by rewrite lookup_insert_eq|]. rewrite lookup_insert_ne by done.
    apply elem_of_cons in Hid as [->|Hid]; [by rewrite lookup_insert_eq|].
    case_decide; [by apply elem_of_nil in Hid|by apply list_elem_of_singleton in Hid].
  - apply not_elem_of_cons in Hid as [Hne Hid]. destruct e.(entry_id) as [i|]; [|by rewrite lookup_insert_ne].
    assert (id <> i) by (intros ->; case_decide; [congruence|by apply Hid, list_elem_of_singleton]).
    by rewrite !lookup_insert_ne.
Qed.

Lemma bind_run {S E A B : Type} (m : method S E A) (f : A -> method S E B) (s s1 : S) (a : A) :
  m s = (s1, Ok a) -> (m ≫= f) s = f a s1.
Proof. intros Hm. unfold mbind, method_bind. by rewrite Hm. Qed.

Lemma refs_channels (n : node) c :
  refs_ok n -> (forall id r, c !! id = Some r -> is_Some (n.(slots) !! r)) -> refs_ok (with_channels n c).
Proof. by intros [] Hc; split. Qed.

Lemma refs_restored_ids (n : node) e r c :
  refs_ok n -> is_Some (n.(slots) !! r) -> (forall id, id ∈ entry_ids e -> c !! id = Some r) ->
  (forall id, id ∉ entry_ids e -> c !! id = n.(channels) !! id) -> refs_ok (with_channels n c).
Proof.
  intros Hn Hr Hin Hout. apply refs_channels; [done|]. intros id r' Hid.
  destruct (decide (id ∈ entry_ids e)) as [Hi|Hi].
  - rewrite (Hin _ Hi) in Hid. by simplify_eq.
  - rewrite (Hout _ Hi) in Hid. by eapply refs_slots.
Qed.

Lemma restore_stub_spec (height : Z) (ls rest : persisted) (n : node) e :
  refs_ok n -> e.2.(entry_channel_setup) = None ->
  exists n', restore_channel set_iter height rest e n = (n', Ok rest) /\
    refs_ok n' /\ restored height ls n' e /\ restore_frame e n n' /\ (n.(next_ref) <= n'.(next_ref))%nat.
Proof.
  intros Hn He. destruct e as [id0 e]. cbn in He. unfold restore_channel. rewrite He.
  set (stub := StubSlot _). set (n1 := with_next_ref (with_slot n n.(next_ref) stub) (S n.(next_ref))).
  destruct (restore_ids_spec n1 (id0, e) n.(next_ref)) as (c & Hids & Hin & Hout).
  assert (Hn1 : refs_ok n1) by apply (refs_stub n _ Hn).
  assert (Hs1 : slots n1 !! next_ref n = Some stub) by apply lookup_insert_eq.
  exists (with_channels n1 c). split; [|split; [|split; [|split]]].
  - rewrite (bind_run (alloc_slot stub) _ n n1 n.(next_ref)) by done. by rewrite (bind_run _ _ _ _ _ Hids).
  - by eapply refs_restored_ids; [..|exact Hin|exact Hout].
  - exists n.(next_ref). split; [exact Hin|]. cbn [fst snd]. by rewrite He.
  - unfold restore_frame. split_and!; try done. intros r Hr. split; [|done]. cbn. by rewrite lookup_insert_ne by lia.
  - cbn. lia.
Qed.

Lemma restore_ready_spec (height : Z) (ls rest : persisted) (n : node) e s x :
  refs_ok n -> e.2.(entry_channel_setup) = Some s -> summaries_fit e.2.(entry_enforcement_state) ->
  ls !! s.(Types.funding_outpoint) = Some x -> rest !! s.(Types.funding_outpoint) = Some x ->
  exists n', restore_channel set_iter height rest e n = (n', Ok (delete s.(Types.funding_outpoint) rest)) /\
    refs_ok n' /\ restored height ls n' e /\ restore_frame e n n' /\ (n.(next_ref) <= n'.(next_ref))%nat.
Proof.
  intros Hn He Hfit Hls Hrest. destruct e as [id0 e], x as [st slot]. cbn in He, Hfit.
  unfold restore_channel. rewrite He. unfold restore_ready. rewrite Hrest. cbn [unwrap ok_or].
  rewrite call_Ok_bind. cbv zeta. cbn [fst snd].
  set (m := Monitor.new_from_persistence _ _ _). set (cs := match as_chain_state m with Ok _ => _ | _ => _ end).
  set (chan := mkChannel _ _ _ _ _ _ _ _). rewrite get_bind.
  destruct (restore_payments_ok chan n.(node_state)) as (nst & Hpay & Hv & Hf & Hmark); [done|].
  rewrite Hpay, call_Ok_bind, set_bind.
  set (n0 := with_node_state n nst).
  set (n1 := with_next_ref (with_monitor n0 n0.(next_ref) m) (S n0.(next_ref))).
  rewrite (bind_run (alloc_monitor m) _ n0 n1 n.(next_ref)) by done.
  set (n2 := with_next_ref (with_slot n1 (S n.(next_ref)) (ReadySlot chan n.(next_ref))) (S (S n.(next_ref)))).
  rewrite (bind_run (alloc_slot _) _ n1 n2 (S n.(next_ref))) by done. rewrite get_bind, set_bind.
  set (n3 := with_tracker n2 _).
  destruct (restore_ids_spec n3 (id0, e) (S n.(next_ref))) as (c & Hids & Hin & Hout).
  assert (Hn2 : refs_ok n2) by (by apply (refs_ready n0), refs_state).
  assert (Hm2 : monitors n2 !! next_ref n = Some m) by apply lookup_insert_eq.
  assert (Hs2 : slots n2 !! S (next_ref n) = Some (ReadySlot chan n.(next_ref))) by apply lookup_insert_eq.
  assert (Hn3 : refs_ok n3).
  { apply refs_tracker; [done|]. unfold restore_listener. cbn -[n2]. intros o mon sl [[_ ?]|[_ ?]]%lookup_insert_Some.
    - simplify_eq. by eexists.
    - by eapply refs_listeners. }
  exists (with_channels n3 c). split; [|split; [|split; [|split]]].
  - by rewrite (bind_run _ _ _ _ _ Hids).
  - by eapply refs_restored_ids; [..|exact Hin|exact Hout].
  - exists (S n.(next_ref)). split; [exact Hin|]. cbn [fst snd]. rewrite He. exists n.(next_ref), cs, st, slot.
    split_and!; try done. cbn. apply lookup_insert_eq.
  - unfold restore_frame. split_and!; try done.
    + intros r Hr. cbn. by rewrite !lookup_insert_ne by lia.
    + intros o Ho. unfold entry_outpoint in Ho. cbn in Ho. rewrite He in Ho. cbn. rewrite lookup_insert_ne; [done|].
      intros Heq. apply Ho. cbn. by rewrite Heq.
  - cbn. lia.
Qed.

(** A restored channel stays while another one is restored. *)
Lemma restored_kept height (ls : persisted) (n n' : node) e e' :
  refs_ok n -> restored height ls n e -> restore_frame e' n n' ->
  (forall id, id ∈ entry_ids e -> id ∉ entry_ids e') ->
  (forall o, entry_outpoint e = Some o -> entry_outpoint e' <> Some o) -> restored height ls n' e.
Proof.
  intros Hn (r & Hids & Hr) (Hc & Hs & Hl & _) Hdis Ho.
  assert (Hlt : forall x, is_Some (n.(slots) !! x) \/ is_Some (n.(monitors) !! x) -> (x < n.(next_ref))%nat).
  { intros x Hx. destruct (decide (x < n.(next_ref))%nat) as [|Hge]; [done|].
    destruct (refs_fresh _ Hn x) as [H1' H2']; [lia|]. rewrite H1', H2' in Hx. by destruct Hx as [[]|[]]. }
  exists r. split.
  { intros id Hid. rewrite Hc by auto. auto. }
  unfold entry_outpoint in Ho. destruct e.2.(entry_channel_setup) as [s|].
  - destruct Hr as (mon & cs & st & slot & Hr & Hst & Hm & Ht). exists mon, cs, st, slot.
    destruct (Hs r) as [-> _]; [apply Hlt; left; by eexists|].
    destruct (Hs mon) as [_ ->]; [apply Hlt; right; by eexists|]. rewrite Hl by (by apply Ho). done.
  - destruct (Hs r) as [-> _]; [apply Hlt; left; by eexists|done].
Qed.

Definition fits (ls rest : persisted) (e : ChannelId * ChannelEntry) : Prop :=
  match e.2.(entry_channel_setup) with
  | Some s => summaries_fit e.2.(entry_enforcement_state) /\
      exists x, ls !! s.(Types.funding_outpoint) = Some x /\ rest !! s.(Types.funding_outpoint) = Some x
  | None => True
  end.

Lemma restore_channel_spec (height : Z) (ls rest : persisted) (n : node) e :
  refs_ok n -> fits ls rest e ->
  exists n', restore_channel set_iter height rest e n
      = (n', Ok (match entry_outpoint e with Some o => delete o rest | None => rest end)) /\
    refs_ok n' /\ restored height ls n' e /\ restore_frame e n n'.
Proof.
  unfold fits, entry_outpoint. intros Hn He. destruct e.2.(entry_channel_setup) as [s|] eqn:Hs.
  - destruct He as [Hfit (x & Hls & Hrest)].
    destruct (restore_ready_spec height ls rest n e s x) as (n' & ? & ? & ? & ? & _); eauto.
  - destruct (restore_stub_spec height ls rest n e) as (n' & ? & ? & ? & ? & _); eauto.
Qed.

Definition same_controls (st st' : NodeState) : Prop :=
  st'.(velocity_control) = st.(velocity_control) /\
  st'.(node_fee_velocity_control) = st.(node_fee_velocity_control) /\
  st'.(dbid_high_water_mark) = st.(dbid_high_water_mark).

Lemma concat_NoDup_disjoint {A B : Type} (f : A -> list B) (d l : list A) e e0 x :
  NoDup (concat (f <$> d ++ e :: l)) -> e0 ∈ d -> x ∈ f e0 -> x ∉ f e.
Proof.
  rewrite fmap_app, concat_app. cbn. intros (_ & Hd & _)%NoDup_app Hin Hx Hx'. apply (Hd x).
  - apply list_elem_of_In, in_concat. exists (f e0). rewrite <- !list_elem_of_In. split; [|done].
    apply list_elem_of_fmap. by exists e0.
  - apply elem_of_app. by left.
Qed.

Lemma omap_NoDup_disjoint {A B : Type} (g : A -> option B) (d l : list A) e e0 o :
  NoDup (omap g (d ++ e :: l)) -> e0 ∈ d ++ l -> g e0 = Some o -> g e <> Some o.
Proof.
  intros Hnd [Hin|Hin]%elem_of_app Ho He.
  - rewrite omap_app in Hnd. apply NoDup_app in Hnd as (_ & Hd & _). apply (Hd o); [apply list_elem_of_omap; by eauto|].
    cbn. rewrite He. by left.
  - rewrite omap_app in Hnd. apply NoDup_app in Hnd as (_ & _ & Hnd). cbn in Hnd. rewrite He in Hnd.
    apply NoDup_cons in Hnd as [Hni _]. apply Hni, list_elem_of_omap. by eauto.
Qed.

Lemma restore_channels_spec (height : Z) (ls : persisted) l done (rest : persisted) (n : node) :
  refs_ok n -> NoDup (concat (entry_ids <$> done ++ l)) -> NoDup (ready_outpoints (done ++ l)) ->
  Forall (fits ls rest) l -> Forall (restored height ls n) done ->
  exists n', restore_channels set_iter height rest l n = (n', Ok (foldl (fun m o => delete o m) rest (ready_outpoints l))) /\
    Forall (restored height ls n') (done ++ l) /\ same_controls n.(node_state) n'.(node_state).
Proof.
  revert done rest n. induction l as [|e l IH]; intros done rest n Hn Hids Hops Hfit Hdone.
  { exists n. rewrite app_nil_r. by split_and!. }
  apply Forall_cons in Hfit as [He Hfit].
  destruct (restore_channel_spec height ls rest n e Hn He) as (n1 & Hrun & Hn1 & Hr1 & Hf1).
  set (rest1 := match entry_outpoint e with Some o => delete o rest | None => rest end) in *.
  destruct (IH (done ++ [e]) rest1 n1 Hn1) as (n2 & Hrun2 & Hall & Hsame).
  - by rewrite <- app_assoc.
  - by rewrite <- app_assoc.
  - rewrite Forall_forall in *. intros e' He'. specialize (Hfit _ He'). unfold fits in *.
    destruct e'.2.(entry_channel_setup) as [s'|] eqn:Hs'; [|done]. destruct Hfit as [Hf' (x & Hls & Hrest)].
    split; [done|]. exists x. split; [done|]. subst rest1. destruct (entry_outpoint e) as [o|] eqn:Ho; [|done].
    rewrite lookup_delete_ne; [done|]. intros ->.
    eapply (omap_NoDup_disjoint entry_outpoint done l e e'); [exact Hops|apply elem_of_app; by right| |exact Ho].
    unfold entry_outpoint. by rewrite Hs'.
  - apply Forall_app. split; [|by constructor]. rewrite Forall_forall in *. intros e0 He0.
    eapply restored_kept; [exact Hn|by apply Hdone|exact Hf1|..].
    + intros id Hid. by eapply concat_NoDup_disjoint.
    + intros o Ho. eapply omap_NoDup_disjoint; [exact Hops|apply elem_of_app; by left|done].
  - exists n2. rewrite <- app_assoc in Hall. split_and!; [|done|].
    + cbn [restore_channels]. rewrite (bind_run _ _ _ _ _ Hrun), Hrun2. do 2 f_equal. subst rest1.
      unfold ready_outpoints. cbn. by destruct (entry_outpoint e).
    + destruct Hf1 as (_ & _ & _ & Hv & Hf & Hm), Hsame as (Hv' & Hf' & Hm').
      split_and!; [by rewrite Hv'|by rewrite Hf'|by rewrite Hm'].
Qed.

Lemma foldl_delete_empty (ops : list OutPoint) (m : persisted) :
  (forall o, is_Some (m !! o) -> o ∈ ops) -> foldl (fun m o => delete o m) m ops = ∅.
Proof.
  revert m. induction ops as [|o ops IH]; intros m Hm; cbn.
  - apply map_eq. intros o. rewrite lookup_empty. apply eq_None_not_Some. intros Ho. by apply Hm, elem_of_nil in Ho.
  - apply IH. intros o' Ho'. destruct (decide (o' = o)) as [->|Hne].
    + rewrite lookup_delete_eq in Ho'. by destruct Ho'.
    + rewrite lookup_delete_ne in Ho' by done. by apply Hm, elem_of_cons in Ho' as [|].
Qed.

(** C24: A node is restored from what its persister holds. When the ids of the
    persisted channels differ, their funding outpoints differ and are exactly those
    of the persisted listeners, the restart succeeds; every channel is back under its
    ids with its setups and its enforcement state, the monitor of each ready channel
    has the persisted state and is listed in the tracker under the funding outpoint
    with the persisted watches. The high-water mark is the persisted one; the velocity
    controls are new ones made from the policy, whatever was persisted. *)
Theorem restart_restores_node (config : NodeConfig) (id : PublicKey) (oracles : list PublicKey) (st : NodeState)
    (p : P) (t : NodeTracker) (ls : list ChainTrackerListenerEntry) (entries : list (ChannelId * ChannelEntry))
    (vc fc : VelocityControl) :
  p_get_tracker p id = Ok (t, ls) -> p_get_node_channels p id = Ok entries ->
  NoDup ls.*1 -> NoDup (concat (entry_ids <$> entries)) -> NoDup (ready_outpoints entries) ->
  (forall o, o ∈ ls.*1 <-> o ∈ ready_outpoints entries) ->
  Forall (fun e => summaries_fit e.2.(entry_enforcement_state)) entries ->
  Velocity.new (E:=Status) (Policy_global_velocity_control validator) = Ok vc ->
  Velocity.new (E:=Status) (Policy_fee_velocity_control validator) = Ok fc ->
  exists n, node_from_persistence validator set_iter config id id oracles st p = Ok n /\
    Forall (restored t.(tracker_height) (list_to_map ls) n) entries /\
    n.(node_state).(dbid_high_water_mark) = st.(dbid_high_water_mark) /\
    n.(node_state).(velocity_control) = vc /\ n.(node_state).(node_fee_velocity_control) = fc.
Proof.
  intros Ht Hch Hls Hids Hops Hdom Hfit Hvc Hfc. unfold node_from_persistence. rewrite Z.eqb_refl, Ht.
  cbn [rassert when mbind res_bind expect_persisted]. unfold new_full. rewrite Hvc. cbn [mbind res_bind]. rewrite Hfc.
  cbn [mbind res_bind]. rewrite Hch. cbn [mbind res_bind expect_persisted].
  rewrite (list_to_map_proper (reverse ls) ls) by (rewrite ?reverse_Permutation; try done; by rewrite fmap_reverse, reverse_Permutation).
  match goal with |- context [restore_channels _ _ ?m _ ?x] => set (n0 := x); set (m0 := m) end.
  destruct (restore_channels_spec t.(tracker_height) m0 entries [] m0 n0) as (n & Hrun & Hall & Hv & Hf & Hm); try done.
  - rewrite Forall_forall in *. intros e He. unfold fits. destruct e.2.(entry_channel_setup) as [s|] eqn:Hs; [|done].
    split; [by apply Hfit|]. assert (Ho : s.(Types.funding_outpoint) ∈ ls.*1).
    { apply Hdom, list_elem_of_omap. exists e. split; [done|]. unfold entry_outpoint. by rewrite Hs. }
    apply list_elem_of_fmap in Ho as ([o x] & -> & Hin). exists x. split; by apply elem_of_list_to_map_1.
  - rewrite Hrun. cbn [mbind res_bind]. exists n. rewrite foldl_delete_empty.
    + rewrite bool_decide_eq_true_2 by done. by split_and!.
    + intros o [x Hx%elem_of_list_to_map_2]. apply Hdom, list_elem_of_fmap. by exists (o, x).
Qed.
(** Each persisted listener is taken by one channel. *)
Lemma restore_channels_distinct height (rest rest' : persisted) l (n n' : node) :
  restore_channels set_iter height rest l n = (n', Ok rest') ->
  NoDup (ready_outpoints l) /\ forall o, o ∈ ready_outpoints l -> is_Some (rest !! o).
Proof.
  revert rest n. induction l as [|[id0 entry] l IH]; intros rest n; cbn [restore_channels].
  - intros _. split; [constructor|]. by intros o ?%not_elem_of_nil.
  - intros Hrun. apply method_Ok in Hrun as (n1 & rest1 & He & Hrun). apply IH in Hrun as [Hnd Hin].
    unfold ready_outpoints, entry_outpoint. cbn. unfold restore_channel in He.
    destruct entry.(entry_channel_setup) as [s|]; cbn.
    + unfold restore_ready in He. apply call_Ok in He as (x & Hx%unwrap_Some & He). cbv zeta in He. rewrite get_bind in He.
      apply call_Ok in He as (st & _ & He). rewrite set_bind in He. apply method_Ok in He as (? & ? & _ & He).
      apply method_Ok in He as (? & ? & _ & He). rewrite get_bind, set_bind in He.
      apply method_Ok in He as (? & ? & _ & He). injection He as _ <-. split.
      * apply NoDup_cons. split; [|exact Hnd]. intros Ho%Hin. rewrite lookup_delete_eq in Ho. by destruct Ho.
      * intros o [->|Ho]%elem_of_cons; [by eexists|]. apply Hin in Ho as [y [_ Hy]%lookup_delete_Some]. by eexists.
    + apply method_Ok in He as (? & ? & _ & He). apply method_Ok in He as (? & ? & _ & He). injection He as _ <-. done.
Qed.

Lemma restart_needs_distinct (config : NodeConfig) (id derived : PublicKey) (oracles : list PublicKey) (st : NodeState)
    (p : P) (entries : list (ChannelId * ChannelEntry)) (n : node) :
  p_get_node_channels p derived = Ok entries ->
  node_from_persistence validator set_iter config id derived oracles st p = Ok n -> NoDup (ready_outpoints entries).
Proof.
  intros Hch Hn. unfold node_from_persistence in Hn. rewrite Hch in Hn. apply bind_Ok in Hn as ([] & _ & Hn).
  apply bind_Ok in Hn as ([t ls] & _ & Hn). apply bind_Ok in Hn as (n0 & _ & Hn).
  cbn [expect_persisted mbind res_bind] in Hn. destruct (restore_channels _ _ _ _ n0) as [n1 r] eqn:Hr.
  apply bind_Ok in Hn as (rest & -> & _). by apply restore_channels_distinct in Hr as [? _].
Qed.
End Restore.

(** ** Samples *)

(** A persister that holds what was saved. *)
Record Saved `{ChainPackages} := mkSaved {
  saved_tracker : ChainTracker (L:=ChainMonitor) (K:=OutPoint);
  saved_listeners : list (OutPoint * (State * ListenSlot));
  saved_channels : list (ChannelId * ChannelEntry)
}.

#[export] Instance Saved_persist `{ChainPackages} : Persist Saved := {|
  p_enter := persist_default_enter;
  p_prepare := persist_default_prepare;
  p_commit := persist_default_commit;
  p_put_batch_unlogged := default_put_batch_unlogged;
  p_new_node _ _ _ := mret tt;
  p_update_node _ _ := mret tt;
  p_delete_node _ := mret tt;
  p_new_channel _ _ := mret tt;
  p_delete_channel _ _ := mret tt;
  p_new_tracker _ _ := mret tt;
  p_update_tracker _ _ := mret tt;
  p_get_tracker s _ := Ok (s.(saved_tracker), s.(saved_listeners));
  p_update_channel _ _ := mret tt;
  p_get_channel _ _ _ := Err InternalError;
  p_get_node_channels s _ := Ok s.(saved_channels);
  p_update_node_allowlist _ _ := mret tt;
  p_get_node_allowlist _ _ := Ok [];
  p_get_nodes _ := Ok [];
  p_clear_database := mret tt;
  p_on_initial_restore := default_on_initial_restore;
  p_recovery_required := default_recovery_required;
  p_begin_replication := default_begin_replication;
  p_signer_id _ := []
|}.

Section RestoreSample.
#[local] Instance restore_sample_profile : Profile := release_profile.
#[local] Existing Instance sample_chain_packages.
#[local] Existing Instance sample_provider.
#[local] Existing Instance sample_signer.
#[local] Existing Instance sample_checks.
#[local] Existing Instance sample_node_transactions.

Definition new_funding : ChannelSetup :=
  mkChannelSetup true 1000000 0 (mkOutPoint 78 0) 144 None sample_keys 144 None StaticRemoteKey.

(** The channel that was opened is set up, and spliced. *)
Definition set_up := setup_channel sample_policy opened_id (Some [4]) sample_setup [] opened_node.
Definition sample_spliced_up := setup_channel sample_policy opened_id (Some [4]) new_funding [] ready_node.
Definition set_up_channel : Channel :=
  match set_up.2 with Ok c => c | _ => sample_channel end.
Definition spliced_channel : Channel := match sample_spliced_up.2 with Ok c => c | _ => sample_channel end.

Lemma setup_registers_channel_witness :
  registered opened_node ready_node opened_id [4] set_up_channel (mkOutPoint 77 0) /\
  spliced_to ready_node sample_spliced_up.1 2 1 set_up_channel spliced_channel new_funding /\
  sample_spliced_up.1.(tracker).(listeners) !! mkOutPoint 77 0 = None.
Proof.
  split; [|split].
  - apply (setup_registers_channel sample_policy opened_node ready_node opened_id (Some [4]) sample_setup [] 0
             (StubSlot (mkChannelStub opened_id 100)) set_up_channel); vm_compute; reflexivity.
  - destruct (setup_registers_channel sample_policy ready_node sample_spliced_up.1 opened_id (Some [4]) new_funding [] 2
                (ReadySlot set_up_channel 1) spliced_channel) as [[He _]|(_ & Hs & _)];
      [vm_compute; reflexivity..|discriminate|exact Hs].
  - vm_compute. reflexivity.
Defined.

Definition saved_entry : ChannelEntry := channel_entry (mkChannel (EnforcementState_new 1000000) sample_setup opened_id
  (Some [4]) sample_chain None None None).
Definition saved_state : State :=
  mkState 500 [77] [0] ∅ (Some 100) (Some (mkOutPoint 77 0)) None None None None None None true false (Some [4]).
Definition saved : Saved :=
  mkSaved sample_chain_packages (mkChainTracker [] (sample_headers 100) 100 Bitcoin ∅ None [] false)
    [(mkOutPoint 77 0, (saved_state, mkListenSlot {[ 77 ]} ∅ ∅))]
    [(opened_id, saved_entry); ([9], stub_entry (mkChannelStub [9] 90))].

Definition spent_state : NodeState :=
  let vc := mkVelocityControl 0 300 (replicate 12 7) 100 in NodeState_new vc vc [].

Definition fresh_control : VelocityControl :=
  match Velocity.new (E:=Status) (Policy_global_velocity_control sample_policy) with Ok v => v | _ => spent_state.(velocity_control) end.
Definition fresh_fee_control : VelocityControl :=
  match Velocity.new (E:=Status) (Policy_fee_velocity_control sample_policy) with Ok v => v | _ => spent_state.(velocity_control) end.

Lemma restart_restores_node_witness :
  exists n, node_from_persistence sample_policy elements (NodeConfig_new Bitcoin) 7 7 [] spent_state saved = Ok n /\
    n.(node_state).(velocity_control) <> spent_state.(velocity_control) /\
    Forall (restored 100 (list_to_map saved.(saved_listeners)) n) saved.(saved_channels).
Proof.
  destruct (restart_restores_node sample_policy elements (NodeConfig_new Bitcoin) 7 [] spent_state saved
              saved.(saved_tracker) saved.(saved_listeners) saved.(saved_channels) fresh_control fresh_fee_control)
    as (n & Hn & Hr & _ & Hv & _).
  - reflexivity.
  - reflexivity.
  - apply NoDup_singleton.
  - apply (bool_decide_unpack _). vm_compute. exact I.
  - apply (bool_decide_unpack _). vm_compute. exact I.
  - intros o. vm_compute. tauto.
  - repeat (apply Forall_cons_2 || apply Forall_nil_2); split; vm_compute; by eexists.
  - vm_compute. reflexivity.
  - vm_compute. reflexivity.
  - exists n. split; [exact Hn|]. split; [|exact Hr]. rewrite Hv. vm_compute. discriminate.
Defined.
End RestoreSample.
