(* ===== verification/Approver.v ===== *)
(** * Payment approval: [vls-protocol-signer/src/approver.rs]

    The trait [Approve] with its provided methods, the approvers that always
    answer the same, the velocity approver and the memo approver.  An approver
    changes in place; the node is changed by what it adds.  The clocks of approver
    and node are arguments. *)
From S2P Require Import Prelude Velocity Policy Ordered CommitInfo Types Bitcoin Script Secrets Enforcement SimpleValidator Validator NodeState NodeSafety Channel ChannelSafety TxValidator TxSafety ChannelTx ChannelTxSafety Monitor Tracker ChainSafety TrackerSafety BTree Kvv Persister PersisterSafety Node NodeChannels.

(** [now] is in seconds. *)
Class Approve (I A : Type) := {
  approve_invoice : Z -> I -> method A Status bool;
  approve_keysend : Z -> Z -> Z -> method A Status bool;
  approve_onchain : Transaction -> list TxOut -> list nat -> method A Status bool
}.

(** ** Approvers that always answer the same *)
Inductive PositiveApprover := mkPositiveApprover.
Inductive WarningPositiveApprover := mkWarningPositiveApprover.
Inductive NegativeApprover := mkNegativeApprover.

#[export] Instance PositiveApprover_approve (I : Type) : Approve I PositiveApprover := {|
  approve_invoice _ _ := mret true;
  approve_keysend _ _ _ := mret true;
  approve_onchain _ _ _ := mret true
|}.

#[export] Instance WarningPositiveApprover_approve (I : Type) : Approve I WarningPositiveApprover := {|
  approve_invoice _ _ := mret true;
  approve_keysend _ _ _ := mret true;
  approve_onchain _ _ _ := mret true
|}.

#[export] Instance NegativeApprover_approve (I : Type) : Approve I NegativeApprover := {|
  approve_invoice _ _ := mret false;
  approve_keysend _ _ _ := mret false;
  approve_onchain _ _ _ := mret false
|}.

(** ** [VelocityApprover] *)
Record VelocityApprover (A : Type) := mkVelocityApprover { control : VelocityControl; velocity_delegate : A }.
Arguments mkVelocityApprover {_} _ _.
Arguments control {_} _.
Arguments velocity_delegate {_} _.

Section VelocityApprover.
Context `{Profile} {I A : Type} `{InvoiceAttributes I} `{!Approve I A}.

Definition set_control (self : VelocityApprover A) (c : VelocityControl) : VelocityApprover A :=
  mkVelocityApprover c self.(velocity_delegate).

(** The delegate is asked. *)
Definition velocity_ask (ask : method A Status bool) : method (VelocityApprover A) Status bool := fun self =>
  let '(d, r) := ask self.(velocity_delegate) in (mkVelocityApprover self.(control) d, r).

(** A manual approval clears the control. *)
Definition velocity_approve (now amount_msat : Z) (ask : method A Status bool)
  : method (VelocityApprover A) Status bool :=
  self ← get_self;
  inserted ← call (Velocity.insert self.(control) now amount_msat);
  set_self (set_control self inserted.2) ;;
  if (inserted.1 : bool) then mret true
  else
    success ← velocity_ask ask;
    if (success : bool) then
      self ← get_self;
      set_self (set_control self (Velocity.clear self.(control))) ;;
      mret true
    else mret false.

#[export] Instance VelocityApprover_approve : Approve I (VelocityApprover A) := {|
  approve_invoice now invoice :=
    velocity_approve now (inv_amount_milli_satoshis invoice) (approve_invoice now invoice);
  approve_keysend now payment_hash amount_msat :=
    velocity_approve now amount_msat (approve_keysend (I:=I) now payment_hash amount_msat);
  approve_onchain tx prev_outs unknown_indices :=
    velocity_ask (approve_onchain (I:=I) tx prev_outs unknown_indices)
|}.
End VelocityApprover.

(** ** [MemoApprover] *)
Inductive Approval (I : Type) :=
| Approval_Invoice (invoice : I)
| Approval_KeySend (payment_hash amount_msat : Z)
| Approval_Onchain (tx : Transaction).
Arguments Approval_Invoice {_} _.
Arguments Approval_KeySend {_} _ _.
Arguments Approval_Onchain {_} _.

Record MemoApprover (I A : Type) := mkMemoApprover { memo_delegate : A; approvals : list (Approval I) }.
Arguments mkMemoApprover {_ _} _ _.
Arguments memo_delegate {_ _} _.
Arguments approvals {_ _} _.

Section MemoApprover.
Context {I A : Type} `{InvoiceAttributes I} `{!Approve I A}.

Definition memo_set (self : MemoApprover I A) (l : list (Approval I)) : MemoApprover I A :=
  mkMemoApprover self.(memo_delegate) l.

Definition matches_invoice (invoice : I) (a : Approval I) : bool :=
  match a with Approval_Invoice i => inv_invoice_hash i =? inv_invoice_hash invoice | _ => false end.

Definition matches_keysend (payment_hash amount_msat : Z) (a : Approval I) : bool :=
  match a with Approval_KeySend h m => (h =? payment_hash) && (m =? amount_msat) | _ => false end.

Definition matches_onchain (tx : Transaction) (a : Approval I) : bool :=
  match a with Approval_Onchain t => bool_decide (t = tx) | _ => false end.

(** The memorized approvals are drained, also by an early return. *)
Definition memo_approve (matches : Approval I -> bool) (ask : method A Status bool)
  : method (MemoApprover I A) Status bool := fun self =>
  if existsb matches self.(approvals) then (memo_set self [], Ok true)
  else let '(d, r) := ask self.(memo_delegate) in (mkMemoApprover d [], r).

#[export] Instance MemoApprover_approve : Approve I (MemoApprover I A) := {|
  approve_invoice now invoice := memo_approve (matches_invoice invoice) (approve_invoice now invoice);
  approve_keysend now payment_hash amount_msat :=
    memo_approve (matches_keysend payment_hash amount_msat) (approve_keysend (I:=I) now payment_hash amount_msat);
  approve_onchain tx prev_outs unknown_indices :=
    memo_approve (matches_onchain tx) (approve_onchain (I:=I) tx prev_outs unknown_indices)
|}.
End MemoApprover.

(** ** The provided methods of [Approve] *)
Section Proposals.
Context `{Profile} `{BitcoinLib} `{SpendScripts} `{ChainPackages} `{CommitmentPointProvider} `{WalletKeys}.
Context {P : Type} `{!Persist P} {V : Type} `{HV : Validator V} `{TransactionValidator V NodeWallet}.
Context {PO : Type} `{HPO : Policy PO} {I A : Type} `{InvoiceAttributes I} `{!Approve I A}.
Context (validator : V) (policy : PO) (compute_txid : Transaction -> Txid) (timeless_workaround : bool).

Abbreviation node := (Node (P:=P)) (only parsing).

(** [Node::add_invoice] and [Node::add_keysend]: a new payment is persisted. *)
Definition node_add_payment (hash : Z) (add : NodeState -> res Status (bool * NodeState)) : method node Status bool :=
  self ← get_self;
  added ← call (add self.(node_state));
  set_self (with_node_state self added.2) ;;
  (if added.1 && bool_decide (self.(node_state).(invoices) !! hash = None)
   then persist_or Panic (p_update_node self.(node_id) added.2) else mret tt) ;;
  mret added.1.

Definition node_add_invoice (invoice : I) (now : Z) : method node Status bool :=
  node_add_payment (inv_payment_hash invoice)
    (fun st => add_invoice validator policy timeless_workaround st invoice now).

Definition node_add_keysend (payee : PublicKey) (payment_hash amount_msat now now' : Z) : method node Status bool :=
  node_add_payment payment_hash (fun st => add_keysend policy st payee payment_hash amount_msat now now').

(** A method of the approver, and one of the node. *)
Definition on_approver {B : Type} (m : method A Status B) : method (A * node) Status B := fun '(a, n) =>
  let '(a', r) := m a in ((a', n), r).
Definition on_node {B : Type} (m : method node Status B) : method (A * node) Status B := fun '(a, n) =>
  let '(n', r) := m n in ((a, n'), r).

Definition handle_proposed_invoice (approver_secs now : Z) (invoice : I) : method (A * node) Status bool :=
  let '(payment_hash, _, invoice_hash) := payment_state_from_invoice invoice in
  self ← get_self;
  had ← call (has_payment self.2.(node_state) payment_hash invoice_hash);
  if (had : bool) then mret true
  else if allowlist_contains_payee self.2.(node_state) (inv_payee_pub_key invoice) then
    on_node (node_add_invoice invoice now)
  else
    approved ← on_approver (approve_invoice approver_secs invoice);
    if (approved : bool) then on_node (node_add_invoice invoice now) else mret false.

Definition handle_proposed_keysend (approver_secs now now' now'' : Z) (payee : PublicKey)
    (payment_hash amount_msat : Z) : method (A * node) Status bool :=
  let '(_, invoice_hash) := payment_state_from_keysend payee payment_hash amount_msat now in
  self ← get_self;
  had ← call (has_payment self.2.(node_state) payment_hash invoice_hash);
  if (had : bool) then mret true
  else
    approved ← on_approver (approve_keysend (I:=I) approver_secs payment_hash amount_msat);
    if (approved : bool) then on_node (node_add_keysend payee payment_hash amount_msat now' now'') else mret false.

Definition handle_proposed_onchain (now : Z) (tx : Transaction) (segwit_flags : list bool) (prev_outs : list TxOut)
    (uniclosekeys : list (option (list Z))) (opaths : list DerivationPath) : method (A * node) Status bool :=
  fun '(a, n) =>
  let '(n', check_result) :=
    check_onchain_tx validator compute_txid now tx segwit_flags prev_outs uniclosekeys opaths n in
  match check_result with
  | Ok _ => ((a, n'), Ok true)
  | Err ve =>
      match ve.(kind) with
      | UnknownDestinations indices => on_approver (approve_onchain (I:=I) tx prev_outs indices) (a, n')
      | _ => ((a, n'), Err failed_precondition)
      end
  | Panic => ((a, n'), Panic)
  end.
End Proposals.

(** ** The velocity approver over a run of requests *)
Section VelocityRuns.
Context `{Profile} {I A : Type} `{InvoiceAttributes I} `{!Approve I A}.

Inductive request := RInvoice (now : Z) (invoice : I) | RKeysend (now payment_hash amount_msat : Z).

Definition request_secs (r : request) : Z := match r with RInvoice now _ => now | RKeysend now _ _ => now end.
Definition request_amount (r : request) : Z :=
  match r with RInvoice _ i => inv_amount_milli_satoshis i | RKeysend _ _ a => a end.

Definition ask_request {B : Type} `{!Approve I B} (r : request) : method B Status bool :=
  match r with
  | RInvoice now invoice => approve_invoice now invoice
  | RKeysend now h a => approve_keysend (I:=I) now h a
  end.

(** The amounts that were approved without the delegate since its last approval. *)
Fixpoint run_requests (self : VelocityApprover A) (auto : list (Z * Z)) (l : list request)
  : option (VelocityApprover A * list (Z * Z)) :=
  match l with
  | [] => Some (self, auto)
  | r :: l' =>
      match Velocity.insert (E:=Status) self.(control) (request_secs r) (request_amount r), ask_request r self with
      | Ok (true, _), (self', Ok true) => run_requests self' (auto ++ [(request_secs r, request_amount r)]) l'
      | _, (self', Ok true) => run_requests self' [] l'
      | _, (self', Ok false) => run_requests self' auto l'
      | _, _ => None
      end
  end.

Definition requests_ok (l : list request) : Prop :=
  events_ok ((fun r => (request_secs r, request_amount r)) <$> l).

(** The delegate answers. *)
Definition answers : Prop := forall (r : request) (d : A), exists d' b, ask_request r d = (d', Ok b).

Lemma velocity_approve_cases (r : request) (self : VelocityApprover A) ok c :
  answers -> Velocity.insert (E:=Status) self.(control) (request_secs r) (request_amount r) = Ok (ok, c) ->
  exists self' b, ask_request r self = (self', Ok b) /\
    (ok = true -> b = true /\ self'.(control) = c) /\
    (ok = false -> self'.(control) = if b then Velocity.clear c else c).
Proof.
  intros Ha Hi. destruct (Ha r self.(velocity_delegate)) as (d & b & Hd).
  assert (Heq : ask_request r self
                = velocity_approve (request_secs r) (request_amount r) (ask_request r) self) by (by destruct r).
  rewrite Heq. unfold velocity_approve. rewrite get_bind, Hi, call_Ok_bind, set_bind. cbn [fst snd].
  destruct ok; [by do 2 eexists|]. unfold velocity_ask, mbind, method_bind. cbn [velocity_delegate set_control].
  rewrite Hd. destruct b; by do 2 eexists.
Qed.

Lemma refines_clear (v : VelocityControl) h : refines v h -> refines (Velocity.clear v) [].
Proof.
  intros [? ? ? ? ? ? ?]. unfold Velocity.clear.
  constructor; cbn [buckets bucket_interval start_sec limit]; rewrite ?length_fmap; try done.
  rewrite buckets_of_nil. clear. induction v.(buckets) as [|b l IH]; [done|]. cbn. by rewrite <- IH.
Qed.

Lemma run_requests_bound (lim interval : Z) (n : nat) (l : list request) (self : VelocityApprover A) (auto : list (Z * Z)) :
  answers -> requests_ok l -> 0 <= lim < u64_max ->
  refines self.(control) auto -> self.(control).(limit) = lim -> self.(control).(bucket_interval) = interval ->
  length self.(control).(buckets) = n ->
  Forall (fun r => self.(control).(start_sec) <= request_secs r) l ->
  Forall (fun e : Z * Z => Forall (fun r => e.1 <= request_secs r) l) auto ->
  (forall t0, span_sum t0 (t0 + (Z.of_nat n - 1) * interval) auto <= lim) ->
  exists self' auto', run_requests self auto l = Some (self', auto') /\
    forall t0, span_sum t0 (t0 + (Z.of_nat n - 1) * interval) auto' <= lim.
Proof.
  intros Hans. revert self auto.
  induction l as [|r l IH]; intros self auto [Hs Hu] Hlim Hr HL HI Hn Hst Hpast Hb; [by exists self, auto|].
  apply StronglySorted_inv in Hs as [Hs Hle]. apply Forall_cons in Hu as [[Ht Ha] Hu].
  assert (Hle' : Forall (fun r' => request_secs r <= request_secs r') l) by exact (proj1 (Forall_fmap _ _ _) Hle).
  apply Forall_cons in Hst as [Hst _]. cbn [fst snd] in *. unfold uint in Ht, Ha.
  pose proof (insert_refines (E:=Status) self.(control) auto (request_secs r) (request_amount r) Hr
                ltac:(lia) ltac:(lia) ltac:(lia)) as Hi.
  destruct (spec_insert _ _ _ auto _ _) as [ok h'] eqn:Hsp.
  destruct Hi as (c & Hi & Hr' & HI' & HL' & Hn' & Hst').
  destruct (velocity_approve_cases r self ok c Hans Hi) as (self' & b & Hask & Hok & Hno).
  cbn [run_requests]. rewrite Hi, Hask.
  assert (Hge : forall c', c'.(start_sec) <= request_secs r ->
    Forall (fun r' => c'.(start_sec) <= request_secs r') l).
  { intros c' Hc'. eapply Forall_impl; [exact Hle'|]. cbn. intros r' Hr1. lia. }
  assert (Hlater : forall h, Forall (fun e : Z * Z => Forall (fun r' => e.1 <= request_secs r') (r :: l)) h ->
    Forall (fun e : Z * Z => Forall (fun r' => e.1 <= request_secs r') l) h).
  { intros h Hh. eapply Forall_impl; [exact Hh|]. cbn. by intros e [_ ?]%Forall_cons. }
  destruct ok.
  - destruct (Hok eq_refl) as [-> Hc]. unfold spec_insert in Hsp.
    assert (Hspan : forall t0, span_sum t0 (t0 + (Z.of_nat n - 1) * interval) h' <= lim).
    { intros t0. pose proof (spec_insert_span interval n lim auto (request_secs r) (request_amount r) t0
        (t0 + (Z.of_nat n - 1) * interval)) as Hsi. unfold spec_insert in Hsi. rewrite HI, Hn, HL in Hsp.
      rewrite Hsp in Hsi. apply Hsi; try (apply Hr || lia || auto).
      - rewrite <- HI. apply Hr.
      - rewrite <- Hn. apply Hr.
      - eapply Forall_impl; [exact Hpast|]. cbn. by intros e [? _]%Forall_cons. }
    case_match; [done|]. simplify_eq.
    apply IH; [by split|..]; rewrite ?Hc; auto; try congruence.
    apply Forall_app. split; [apply Hlater; exact Hpast|]. constructor; [exact Hle'|constructor].
  - assert (h' = auto) as -> by (unfold spec_insert in Hsp; destruct (Z.ltb _ _); congruence).
    specialize (Hno eq_refl). destruct b.
    + apply IH; [by split|..]; rewrite ?Hno; cbn [Velocity.clear limit bucket_interval buckets start_sec];
        rewrite ?length_fmap; auto; try congruence.
      * by eapply refines_clear.
      * intros t0. unfold span_sum, amounts, zsum. cbn. lia.
    + apply IH; [by split|..]; rewrite ?Hno; auto; try congruence.
Qed.
End VelocityRuns.

(** ** Properties *)

(** A velocity approver over a control with limit [lim] and [n] buckets of
    [interval] seconds, with any delegate that answers, answers every request when
    the clock does not go back; over every stretch of [(n - 1) * interval] seconds
    the amounts that it approved without its delegate, since the delegate last
    approved, sum to at most the limit. *)
Theorem velocity_approver_bound `{Profile} {I A : Type} `{InvoiceAttributes I} `{!Approve I A}
    (lim interval : Z) (n : nat) (delegate : A) (l : list (request (I:=I))) :
  0 <= lim < u64_max -> 0 < interval -> (0 < n)%nat -> requests_ok l -> answers (I:=I) (A:=A) ->
  exists c self auto,
    new_with_intervals (E:=Status) lim interval n = Ok c /\
    run_requests (mkVelocityApprover c delegate) [] l = Some (self, auto) /\
    forall t0, span_sum t0 (t0 + (Z.of_nat n - 1) * interval) auto <= lim.
Proof.
  intros Hlim Hi Hn Hl Ha.
  destruct (new_with_intervals (E:=Status) lim interval n) as [c| |] eqn:Hc.
  2,3: unfold new_with_intervals, rassert in Hc; rewrite (proj2 (Z.ltb_lt _ _) Hi),
    (proj2 (Nat.ltb_lt _ _) Hn) in Hc; discriminate.
  destruct (refines_new lim interval n c Hc) as (Hr & HI & HL & Hlen).
  assert (Hst : c.(start_sec) = 0) by (unfold new_with_intervals in Hc; res_inv; done).
  destruct (run_requests_bound lim interval n l (mkVelocityApprover c delegate) []) as (self & auto & Hrun & Hb); try done.
  - cbn. rewrite Hst. destruct Hl as [_ Hu]. eapply Forall_impl; [exact (proj1 (Forall_fmap _ _ _) Hu)|].
    cbn. intros r [Hr0 _]. unfold uint in Hr0. lia.
  - intros t0. unfold span_sum, amounts, zsum. cbn. lia.
  - by exists c, self, auto.
Qed.

(** An invoice that is its amount, and a delegate that accepts the hash 9. *)
Definition amount_invoice : InvoiceAttributes Z := Build_InvoiceAttributes Z id id id (fun _ => 3) (fun _ => 0) (fun _ => 0).
Inductive PickyApprover := mkPickyApprover.
#[export] Instance PickyApprover_approve (I : Type) : Approve I PickyApprover := {|
  approve_invoice _ _ := mret false;
  approve_keysend _ h _ := mret (h =? 9);
  approve_onchain _ _ _ := mret true
|}.

Section VelocityWitness.
#[local] Existing Instance debug_profile.
#[local] Existing Instance amount_invoice.

Lemma velocity_approver_bound_witness :
  exists c self auto,
    new_with_intervals (E:=Status) 100 300 12 = Ok c /\
    run_requests (mkVelocityApprover c mkPickyApprover) []
      [RInvoice 10 60; RInvoice 20 50; RKeysend 30 9 70; RKeysend 40 1 80; RInvoice 50 40]
      = Some (self, auto) /\ auto = [(40, 80)] /\
    forall t0, span_sum t0 (t0 + (Z.of_nat 12 - 1) * 300) auto <= 100.
Proof.
  destruct (velocity_approver_bound 100 300 12 mkPickyApprover
              [RInvoice 10 60; RInvoice 20 50; RKeysend 30 9 70; RKeysend 40 1 80; RInvoice 50 40])
    as (c & self & auto & Hc & Hrun & Hb).
  - done.
  - lia.
  - lia.
  - split; repeat constructor; cbn; lia.
  - intros [now i|now h a] d; by do 2 eexists.
  - exists c, self, auto. split; [exact Hc|]. split; [exact Hrun|]. split; [|exact Hb].
    vm_compute in Hc. injection Hc as <-. vm_compute in Hrun. by injection Hrun as _ <-.
Defined.
End VelocityWitness.

(** A memorized approval decides at most one request. Whatever is requested
    next, the memory is empty afterwards; a request that matches is approved without
    the delegate, and every other one, and every later one, is answered by it. *)
Theorem memo_used_once {I A : Type} `{InvoiceAttributes I} `{!Approve I A} (self : MemoApprover I A)
    (r : request (I:=I)) (self' : MemoApprover I A) (o : res Status bool) :
  ask_request r self = (self', o) ->
  let matching := match r with RInvoice _ i => matches_invoice i | RKeysend _ h a => matches_keysend h a end in
  self'.(approvals) = [] /\
  (if existsb matching self.(approvals) then o = Ok true /\ self'.(memo_delegate) = self.(memo_delegate)
   else ask_request r self.(memo_delegate) = (self'.(memo_delegate), o)) /\
  forall r', ask_request r' self'
    = (mkMemoApprover (ask_request r' self'.(memo_delegate)).1 [], (ask_request r' self'.(memo_delegate)).2).
Proof.
  intros Hr matching.
  assert (Hlater : self'.(approvals) = [] -> forall r', ask_request r' self'
    = (mkMemoApprover (ask_request r' self'.(memo_delegate)).1 [], (ask_request r' self'.(memo_delegate)).2)).
  { intros Hnil r'. destruct self' as [d l]. cbn in Hnil. subst l.
    assert (Heq : forall m : Approval I -> bool, memo_approve m (ask_request r') (mkMemoApprover d [])
      = (mkMemoApprover (ask_request r' d).1 [], (ask_request r' d).2)).
    { intros m. unfold memo_approve. cbn [existsb approvals memo_delegate]. by destruct (ask_request r' d). }
    by destruct r'; apply Heq. }
  assert (Hm : ask_request r self = memo_approve matching (ask_request r) self) by (by destruct r).
  rewrite Hm in Hr. unfold memo_approve in Hr. destruct (existsb matching self.(approvals)).
  - simplify_eq. by split_and!; [..|apply Hlater].
  - destruct (ask_request r self.(memo_delegate)) as [d r0]. simplify_eq. by split_and!; [..|apply Hlater].
Qed.

Section MemoWitness.
#[local] Existing Instance amount_invoice.

Lemma memo_used_once_witness :
  let memo := mkMemoApprover mkNegativeApprover [Approval_KeySend 1 2; Approval_Invoice 60] in
  ask_request (RInvoice 10 60) memo = (mkMemoApprover mkNegativeApprover [], Ok true) /\
  ask_request (RInvoice 20 60) (mkMemoApprover (I:=Z) mkNegativeApprover [])
    = (mkMemoApprover mkNegativeApprover [], Ok false).
Proof.
  intros memo. split; [reflexivity|].
  destruct (memo_used_once memo (RInvoice 10 60) (mkMemoApprover mkNegativeApprover []) (Ok true)) as (_ & _ & Hl);
    [reflexivity|].
  exact (Hl (RInvoice 20 60)).
Defined.
End MemoWitness.

Section ProposalProps.
Context `{Profile} `{BitcoinLib} `{SpendScripts} `{ChainPackages} `{CommitmentPointProvider} `{WalletKeys}.
Context {P : Type} `{!Persist P} {V : Type} `{HV : Validator V} `{TransactionValidator V NodeWallet}.
Context {PO : Type} `{HPO : Policy PO} {I A : Type} `{InvoiceAttributes I} `{!Approve I A}.
Context (validator : V) (policy : PO) (compute_txid : Transaction -> Txid) (timeless_workaround : bool).

Abbreviation node := (Node (P:=P)) (only parsing).

(** The payment is recorded under its hash. *)
Definition recorded (n : node) (invoice : I) : Prop :=
  exists ps, n.(node_state).(invoices) !! inv_payment_hash invoice = Some ps /\
    ps.(NodeState.invoice_hash) = inv_invoice_hash invoice.

Lemma node_add_invoice_Ok (invoice : I) (now : Z) (n n' : node) (b : bool) :
  n.(node_state).(invoices) !! inv_payment_hash invoice = None ->
  node_add_invoice validator policy timeless_workaround invoice now n = (n', Ok b) ->
  validate_invoice validator timeless_workaround (inv_duration_since_epoch invoice) (inv_expiry_duration invoice) now
    = Ok tt /\
  exists c, Velocity.insert (E:=Status) n.(node_state).(velocity_control) (now / NANOS)
              (inv_amount_milli_satoshis invoice) = Ok (b, c) /\
    n'.(node_state).(velocity_control) = c /\
    if b then recorded n' invoice else n'.(node_state).(invoices) = n.(node_state).(invoices).
Proof.
  intros Hnone. unfold node_add_invoice, node_add_payment. rewrite get_bind. intros Hrun.
  apply call_Ok in Hrun as ([ok st] & Hadd & Hrun). cbn [fst snd] in Hrun. rewrite set_bind in Hrun.
  apply bind_Ok in Hadd as ([] & Hval & Hadd). unfold payment_state_from_invoice, add_payment_state in Hadd.
  destruct (_ <=? _) in Hadd; [done|]. rewrite Hnone in Hadd. apply bind_Ok in Hadd as ([ok' c] & Hins & Hadd). cbn in Hins.
  assert (Hst : ok = b /\ n'.(node_state) = st).
  { destruct (ok && _); [|by injection Hrun as <- <-]. apply method_Ok in Hrun as (n1 & [] & Hp & Hrun).
    unfold persist_or in Hp. destruct (p_update_node _ _ _) as [p r].
    injection Hp as <- _. by injection Hrun as <- <-. }
  destruct Hst as [<- Hst]. clear Hrun. split.
  { unfold lift_ve in Hval. destruct (validate_invoice _ _ _ _ _) as [[]| |]; by simplify_eq/=. }
  exists c. unfold recorded. rewrite Hst. clear Hst. destruct ok'; simplify_eq/=; split_and!; try done.
  eexists. split; [apply lookup_insert_eq|]. done.
Qed.

(** What happens to a proposed invoice. A call that returns leaves the node as
    it was and says yes when the invoice is recorded already, and no when the payee
    is not allowlisted and the approver refuses. Otherwise the payee is allowlisted
    or the approver accepted, the invoice is not expired, and the answer is that of
    the velocity control of the node, which is charged; the invoice is recorded
    exactly when the answer is yes. *)
Theorem proposed_invoice_outcome (a a' : A) (n n' : node) (secs now : Z) (invoice : I) (b : bool) :
  handle_proposed_invoice validator policy timeless_workaround secs now invoice (a, n) = ((a', n'), Ok b) ->
  let listed := allowlist_contains_payee n.(node_state) (inv_payee_pub_key invoice) in
  recorded n invoice /\ b = true /\ a' = a /\ n' = n \/
  n.(node_state).(invoices) !! inv_payment_hash invoice = None /\
  (listed = false /\ approve_invoice secs invoice a = (a', Ok false) /\ b = false /\ n' = n \/
   (listed = true /\ a' = a \/ listed = false /\ approve_invoice secs invoice a = (a', Ok true)) /\
   validate_invoice validator timeless_workaround (inv_duration_since_epoch invoice) (inv_expiry_duration invoice) now
     = Ok tt /\
   exists c, Velocity.insert (E:=Status) n.(node_state).(velocity_control) (now / NANOS)
               (inv_amount_milli_satoshis invoice) = Ok (b, c) /\
     n'.(node_state).(velocity_control) = c /\
     if b then recorded n' invoice else n'.(node_state).(invoices) = n.(node_state).(invoices)).
Proof.
  unfold handle_proposed_invoice, payment_state_from_invoice. cbv beta iota zeta. rewrite get_bind. intros Hrun.
  apply call_Ok in Hrun as (had & Hhad & Hrun). unfold has_payment in Hhad. cbn [snd] in *.
  assert (Hadd : forall a1, on_node (node_add_invoice validator policy timeless_workaround invoice now) (a1, n)
      = (a', n', Ok b) -> a1 = a' /\ node_add_invoice validator policy timeless_workaround invoice now n = (n', Ok b)).
  { intros a1 Hon. unfold on_node in Hon. destruct (node_add_invoice _ _ _ _ _ n) as [n1 r]. by simplify_eq. }
  destruct (invoices (node_state n) !! inv_payment_hash invoice) as [ps|] eqn:Hps.
  - left. destruct (Z.eqb_spec ps.(NodeState.invoice_hash) (inv_invoice_hash invoice)); [|done]. simplify_eq.
    injection Hrun as <- <- <-. split_and!; try done. by exists ps.
  - right. split; [done|]. simplify_eq. destruct (allowlist_contains_payee _ _) eqn:Hl.
    + right. destruct (Hadd _ Hrun) as [<- Hrun']. split; [by left|]. by apply node_add_invoice_Ok.
    + apply method_Ok in Hrun as ([a1 n1] & ok & Happ & Hrun). unfold on_approver in Happ.
      destruct (approve_invoice secs invoice a) as [a2 r] eqn:Hap. simplify_eq. destruct ok.
      * right. destruct (Hadd _ Hrun) as [<- Hrun']. split; [by right|]. by apply node_add_invoice_Ok.
      * left. by injection Hrun as <- <- <-.
Qed.

Lemma insert_no_err {E : Type} v t m : no_err (Velocity.insert (E:=E) v t m).
Proof. unfold Velocity.insert, Velocity.shift, udiv, urem. no_err_tac. Qed.

Lemma input_weight_no_err prev_outs l w : no_err (fold_res (input_weight prev_outs) w l).
Proof. apply no_err_fold. intros w' [idx uck]. unfold input_weight. no_err_tac. Qed.

(** What happens to a proposed on-chain transaction, when exceeding the fee
    velocity is not demoted to a warning. A call that returns says yes without asking
    the approver when the transaction passed the policy and its fee was accepted by the
    fee velocity control, which is charged. It gives the answer of the approver when
    the transaction has unknown destinations; then nothing is charged, and the fee was
    not looked at. *)
Theorem proposed_onchain_outcome (a a' : A) (n n' : node) (now : Z) (tx : Transaction) (flags : list bool)
    (prev_outs : list TxOut) (ucks : list (option (list Z))) (opaths : list DerivationPath) (b : bool) :
  Policy_policy_error validator "policy-onchain-fee-range" = Err (policy_error "policy-onchain-fee-range") ->
  handle_proposed_onchain (I:=I) validator compute_txid now tx flags prev_outs ucks opaths (a, n) = ((a', n'), Ok b) ->
  exists weight,
    let checked := tv_validate_onchain_tx validator (node_wallet n) (funded_slots compute_txid n tx) tx flags
                     (value <$> prev_outs) opaths weight in
    b = true /\ a' = a /\
    (exists fee_sat fee_msat c, checked = Ok fee_sat /\ mul_u64 (E:=ValidationError) fee_sat 1000 = Ok fee_msat /\
       Velocity.insert (E:=ValidationError) n.(node_state).(node_fee_velocity_control) (now / NANOS) fee_msat = Ok (true, c) /\
       n'.(node_state).(node_fee_velocity_control) = c) \/
    (exists ve indices, checked = Err ve /\ ve.(kind) = UnknownDestinations indices /\
       approve_onchain (I:=I) tx prev_outs indices a = (a', Ok b) /\ n' = n).
Proof.
  intros Hpol. unfold handle_proposed_onchain, check_onchain_tx. rewrite get_bind.
  pose proof (input_weight_no_err prev_outs (imap pair ucks) (tx_weight tx)) as Hw.
  destruct (fold_res (input_weight prev_outs) _ _) as [weight| |]; [|done|done].
  rewrite call_Ok_bind. cbv zeta. intros Hrun. exists weight.
  destruct (tv_validate_onchain_tx _ _ _ _ _ _ _ _) as [fee|ve|] eqn:Hv; [|..|done].
  - rewrite call_Ok_bind in Hrun. assert (Hm := no_err_arith (E:=ValidationError) 64 (fee * 1000)).
    change (arith 64 (fee * 1000)) with (mul_u64 (E:=ValidationError) fee 1000) in Hm.
    destruct (mul_u64 fee 1000) as [msat| |] eqn:Hmul; [|done|done]. rewrite call_Ok_bind in Hrun.
    assert (Hi := insert_no_err (E:=ValidationError) n.(node_state).(node_fee_velocity_control) (now / NANOS) msat).
    destruct (Velocity.insert _ _ _) as [[ok c]| |] eqn:Hins; [|done|done]. rewrite call_Ok_bind, set_bind in Hrun.
    cbn [fst snd] in Hrun. destruct ok; cbn [negb when] in Hrun.
    + left. injection Hrun as <- <- <-. split_and!; try done. by exists fee, msat, c.
    + unfold call in Hrun. by rewrite Hpol in Hrun.
  - right. unfold call, mbind, method_bind in Hrun. destruct ve as [tg k]. cbn [kind] in Hrun.
    destruct k as [| | | | |indices]; try done. exists (mkValidationError tg (UnknownDestinations indices)), indices.
    split_and!; try done; unfold on_approver in Hrun; destruct (approve_onchain tx prev_outs indices a) as [a1 r];
      by simplify_eq.
Qed.
End ProposalProps.

Section ProposalWitness.
#[local] Instance proposal_profile : Profile := release_profile.
#[local] Existing Instance sample_chain_packages.
#[local] Existing Instance sample_provider.
#[local] Existing Instance sample_signer.
#[local] Existing Instance sample_checks.
#[local] Existing Instance sample_node_transactions.
#[local] Existing Instance unit_invoice.
#[local] Existing Instance SimpleValidator_policy.

Definition proposed := handle_proposed_invoice sample_policy sample_policy false 0 0 tt (mkPositiveApprover, empty_node).

Lemma proposed_invoice_outcome_witness : recorded proposed.1.2 tt /\ ~ recorded empty_node tt.
Proof.
  assert (Hn : ~ recorded empty_node tt) by (intros (ps & Hps & _); discriminate). split; [|exact Hn].
  destruct (proposed_invoice_outcome sample_policy sample_policy false mkPositiveApprover mkPositiveApprover empty_node
              proposed.1.2 0 0 tt true) as [[? _]|(_ & [(_ & _ & ? & _)|(_ & _ & c & _ & _ & Hr)])].
  - vm_compute. reflexivity.
  - exfalso. by apply Hn.
  - discriminate.
  - exact Hr.
Defined.
(** One output of 1000 satoshi to an unknown script, from an input of 10 bitcoin. *)
Definition unknown_tx : Transaction := mkTransaction 2 0 [mkTxIn (mkOutPoint 5 0) 0] [mkTxOut 1000 999].
Definition proposed_onchain :=
  handle_proposed_onchain (I:=unit) sample_policy (fun tx => tx.(version)) 0 unknown_tx [true] [mkTxOut 1000000000 3] [None] [[]]
    (mkPositiveApprover, empty_node).

(** The approved transaction pays almost 10 bitcoin in fees; nothing is charged. *)
Lemma proposed_onchain_outcome_witness : proposed_onchain.2 = Ok true /\ proposed_onchain.1.2 = empty_node.
Proof.
  split; [vm_compute; reflexivity|].
  destruct (proposed_onchain_outcome (I:=unit) sample_policy (fun tx => tx.(version)) mkPositiveApprover mkPositiveApprover
              empty_node proposed_onchain.1.2 0 unknown_tx [true] [mkTxOut 1000000000 3] [None] [[]] true)
    as (w & [(_ & _ & fee & msat & c & Hf & _)|(_ & _ & _ & _ & _ & Heq)]).
  - vm_compute. reflexivity.
  - vm_compute. reflexivity.
  - exfalso. vm_compute in Hf. discriminate.
  - exact Heq.
Defined.
End ProposalWitness.
