(* ===== verification/Wire.v ===== *)
(** * Framing of protocol messages: [vls-protocol/src/msgs.rs]

    Length-framed BOLT messages and the headers of the serial line, over a reader
    that is the list of bytes it still has.  The body of a message is read and
    written by code that a derive macro generates: the class [DeBolt]. *)
From S2P Require Import Prelude Ordered Types BTree Kvv KvvSpec.

(** [vls_protocol::Error]; the texts and counts that only serve a message are left out. *)
Inductive ProtocolError :=
| UnexpectedType (message_type : Z)
| BadFraming
| BitcoinDecode
| TrailingBytes (remaining message_type : Z)
| UnknownMessageType (message_type remaining : Z)
| ShortRead
| MessageTooLarge
| Eof
| Io
| DeveloperField.

Definition MAX_MESSAGE_SIZE : Z := 128 * 1024.

(** ** Readers

    A reader is changed in place; an input that ends early is an I/O error and
    leaves nothing. *)
Abbreviation reader A := (method (list Z) ProtocolError A) (only parsing).

Definition read_exact (n : nat) : reader (list Z) :=
  r ← get_self;
  if (length r <? n)%nat then set_self [] ;; call (Err Io)
  else set_self (drop n r) ;; mret (take n r).

Definition read_be (n : nat) : reader Z :=
  b ← read_exact n;
  mret (Redb.from_be_bytes b).

(** [serde_bolt::take::Take]: a reader that reads at most so many bytes of the
    reader below, which it borrows. *)
Class TakeReader := {
  Take : Type;
  take_new : Z -> list Z -> Take;
  take_below : Take -> list Z;
  take_remaining : Take -> nat;
  take_exact : nat -> method Take ProtocolError (list Z)
}.
Abbreviation take_reader A := (method Take ProtocolError A) (only parsing).

Definition take_be `{TakeReader} (n : nat) : take_reader Z :=
  b ← take_exact n;
  mret (Redb.from_be_bytes b).

Definition under_take `{TakeReader} {A : Type} (len : Z) (m : take_reader A) : reader A := fun r =>
  let '(t, o) := m (take_new len r) in (take_below t, o).

(** ** Messages of one type, and of all types *)
Class DeBolt `{TakeReader} (T : Type) := {
  TYPE : Z;
  consensus_encode : T -> list Z;
  consensus_decode : take_reader T
}.

(** [Message::read_message]: [None] is [Message::Unknown]. *)
Class ReadMessage `{TakeReader} (M : Type) := read_any : Z -> take_reader (option M).

Definition check_message_length (len : Z) : res ProtocolError unit :=
  if len <? 2 then Err ShortRead
  else if MAX_MESSAGE_SIZE <? len then Err MessageTooLarge
  else Ok tt.

Definition from_reader `{TakeReader} {M : Type} `{!ReadMessage M} (len : Z) : reader M :=
  call (check_message_length len) ;;
  under_take len (
    message_type ← take_be 2;
    message ← read_any message_type;
    t ← get_self;
    match message with
    | None => call (Err (UnknownMessageType message_type (Z.of_nat (take_remaining t))))
    | Some m =>
        if (take_remaining t =? 0)%nat then mret m
        else call (Err (TrailingBytes (Z.of_nat (take_remaining t)) message_type))
    end).

Definition read `{TakeReader} {M : Type} `{!ReadMessage M} : reader M :=
  len ← read_be 4;
  from_reader len.

Definition read_message `{TakeReader} {T : Type} `{!DeBolt T} : reader T :=
  len ← read_be 4;
  call (check_message_length len) ;;
  under_take len (
    message_type ← take_be 2;
    if negb (message_type =? TYPE) then call (Err (UnexpectedType message_type))
    else
      m ← consensus_decode;
      t ← get_self;
      if (take_remaining t =? 0)%nat then mret m else call (Err (TrailingBytes (Z.of_nat (take_remaining t)) TYPE))).

(** The length is not checked. *)
Definition read_raw : reader (list Z) :=
  len ← read_be 4;
  read_exact (Z.to_nat len).

(** [len as u32]. *)
Definition from_vec `{TakeReader} {M : Type} `{!ReadMessage M} (v : list Z) : res ProtocolError M :=
  (from_reader (Z.of_nat (length v) mod 2 ^ 32) v).2.

Definition write_vec (buf : list Z) : list Z :=
  Redb.to_be_bytes 4 (Z.of_nat (length buf) mod 2 ^ 32) ++ buf.

(** [SerBolt::as_vec] and [write] put the type before the body. *)
Definition as_vec `{TakeReader} {T : Type} `{!DeBolt T} (value : T) : list Z :=
  Redb.to_be_bytes 2 TYPE ++ consensus_encode value.

Definition write `{TakeReader} {T : Type} `{!DeBolt T} (value : T) : list Z := write_vec (as_vec value).

(** ** The serial line *)
Record SerialRequestHeader := mkSerialRequestHeader { srh_sequence : Z; srh_peer_id : list Z; srh_dbid : Z }.

Definition write_serial_request_header (srh : SerialRequestHeader) : list Z :=
  Redb.to_be_bytes 2 0xaa55 ++ Redb.to_be_bytes 2 srh.(srh_sequence) ++ srh.(srh_peer_id)
  ++ Redb.to_be_bytes 8 srh.(srh_dbid).

Definition write_serial_response_header (sequence : Z) : list Z :=
  Redb.to_be_bytes 2 0x5aa5 ++ Redb.to_be_bytes 2 sequence.

Definition read_serial_request_header : reader SerialRequestHeader :=
  magic ← read_be 2;
  if negb (magic =? 0xaa55) then call (Err BadFraming)
  else
    sequence ← read_be 2;
    peer_id ← read_exact 33;
    dbid ← read_be 8;
    mret (mkSerialRequestHeader sequence peer_id dbid).

Definition read_serial_response_header (expected_sequence : Z) : reader unit :=
  magic ← read_be 2;
  if negb (magic =? 0x5aa5) then call (Err BadFraming)
  else
    sequence ← read_be 2;
    if negb (sequence =? expected_sequence) then call (Err BadFraming) else mret tt.

(** ** Reading what was written *)
Lemma from_to_be (n : nat) (z : Z) :
  0 <= z < 256 ^ Z.of_nat n -> Redb.from_be_bytes (Redb.to_be_bytes n z) = z.
Proof.
  intros Hz. unfold Redb.from_be_bytes, Redb.to_be_bytes. rewrite reverse_involutive. by apply from_to_le_bytes.
Qed.

Lemma read_exact_app (b r : list Z) : read_exact (length b) (b ++ r) = (r, Ok b).
Proof.
  unfold read_exact. rewrite get_bind, length_app.
  destruct (Nat.ltb_spec (length b + length r) (length b)); [lia|].
  rewrite set_bind, drop_app_length, take_app_length. done.
Qed.

Lemma read_be_app (n : nat) (z : Z) (r : list Z) :
  0 <= z < 256 ^ Z.of_nat n -> read_be n (Redb.to_be_bytes n z ++ r) = (r, Ok z).
Proof.
  intros Hz. unfold read_be, mbind, method_bind.
  pose proof (read_exact_app (Redb.to_be_bytes n z) r) as He. rewrite length_be_bytes in He.
  rewrite He. unfold mret, method_ret. by rewrite from_to_be.
Qed.

(** What [Take] documents: it starts at the reader below with its limit, and reading
    what both have gives these bytes and counts them. *)
Class TakeLaws `{TakeReader} := {
  take_new_below len r : take_below (take_new len r) = r;
  take_new_remaining len r : 0 <= len -> take_remaining (take_new len r) = Z.to_nat len;
  take_exact_Ok n t :
    (n <= take_remaining t)%nat -> (n <= length (take_below t))%nat ->
    exists t', take_exact n t = (t', Ok (take n (take_below t))) /\ take_below t' = drop n (take_below t) /\
      take_remaining t' = (take_remaining t - n)%nat
}.

Definition at_take `{TakeReader} (k : nat) (r : list Z) (t : Take) : Prop := take_remaining t = k /\ take_below t = r.

Lemma at_take_new `{TakeLaws} (buf r : list Z) :
  at_take (length buf) (buf ++ r) (take_new (Z.of_nat (length buf)) (buf ++ r)).
Proof. split; [|apply take_new_below]. rewrite take_new_remaining by lia. by rewrite Nat2Z.id. Qed.

Lemma take_be_app `{TakeLaws} (n : nat) (z : Z) (r : list Z) (k : nat) t :
  0 <= z < 256 ^ Z.of_nat n -> at_take (n + k) (Redb.to_be_bytes n z ++ r) t ->
  exists t', take_be n t = (t', Ok z) /\ at_take k r t'.
Proof.
  intros Hz [Hk Hr]. assert (Hl := length_be_bytes n z).
  destruct (take_exact_Ok n t) as (t' & He & Hb & Hm); [lia|rewrite Hr, length_app; lia|].
  exists t'. split.
  - unfold take_be, mbind, method_bind. rewrite He, Hr. unfold mret, method_ret.
    rewrite <- Hl at 1. by rewrite take_app_length, from_to_be.
  - split; [lia|]. rewrite Hb, Hr. rewrite <- Hl at 1. apply drop_app_length.
Qed.

Lemma frame_length (buf r : list Z) :
  Z.of_nat (length buf) < 2 ^ 32 ->
  read_be 4 (write_vec buf ++ r) = (buf ++ r, Ok (Z.of_nat (length buf))).
Proof.
  intros Hb. unfold write_vec. rewrite <- app_assoc, Z.mod_small by lia. apply read_be_app. lia.
Qed.

Lemma check_length_ok (len : Z) : 2 <= len <= MAX_MESSAGE_SIZE -> check_message_length len = Ok tt.
Proof.
  intros [H1 H2]. unfold check_message_length.
  by rewrite (proj2 (Z.ltb_ge _ _)), (proj2 (Z.ltb_ge _ _)) by lia.
Qed.

(** What the generated code promises: decoding what was encoded reads exactly
    that, and [Message] reads its type by the same decoder. *)
Class DeBoltLaws `{TakeReader} (T : Type) `{!DeBolt T} := {
  type_u16 : 0 <= TYPE < 2 ^ 16;
  decode_encode v r k t :
    at_take (length (consensus_encode v) + k) (consensus_encode v ++ r) t ->
    exists t', consensus_decode t = (t', Ok v) /\ at_take k r t'
}.

Definition reads_as `{TakeReader} {T M : Type} `{!DeBolt T} `{!ReadMessage M} (inj : T -> M) : Prop :=
  forall t, read_any TYPE t = (m ← consensus_decode; mret (Some (inj m))) t.

(** The length of the frame of a value is accepted. *)
Definition frame_fits `{TakeReader} {T : Type} `{!DeBolt T} (v : T) : Prop :=
  Z.of_nat (length (as_vec v)) <= MAX_MESSAGE_SIZE.

(** [read] until [n] messages are read. *)
Fixpoint read_n `{TakeReader} {M : Type} `{!ReadMessage M} (n : nat) : reader (list M) :=
  match n with
  | O => mret []
  | S n' => m ← read; l ← read_n n'; mret (m :: l)
  end.

Section Laws.
Context `{TakeLaws} {T M : Type} `{!DeBolt T} `{!DeBoltLaws T} `{!ReadMessage M} (inj : T -> M).

Lemma as_vec_length (v : T) : length (as_vec v) = (2 + length (consensus_encode v))%nat.
Proof. unfold as_vec. by rewrite length_app, length_be_bytes. Qed.

Lemma typed_body (v : T) r t :
  at_take (length (as_vec v)) (as_vec v ++ r) t ->
  exists t', take_be 2 t = (t', Ok TYPE) /\ at_take (length (consensus_encode v) + 0) (consensus_encode v ++ r) t'.
Proof.
  rewrite as_vec_length, Nat.add_0_r. unfold as_vec. rewrite <- app_assoc. apply take_be_app.
  pose proof type_u16. change (256 ^ Z.of_nat 2) with (2 ^ 16). lia.
Qed.

Lemma from_reader_as_vec (v : T) r :
  reads_as inj -> frame_fits v ->
  from_reader (Z.of_nat (length (as_vec v))) (as_vec v ++ r) = (r, Ok (inj v)).
Proof.
  intros Hr Hf. unfold from_reader. rewrite check_length_ok, call_Ok_bind.
  2:{ unfold frame_fits in Hf. pose proof (as_vec_length v). lia. }
  unfold under_take. destruct (typed_body v r _ (at_take_new _ _)) as (t1 & H1 & Ht1).
  rewrite (run_bind _ _ _ _ _ H1). destruct (decode_encode _ _ _ _ Ht1) as (t2 & H2 & [Hk Hb]).
  rewrite (run_bind _ _ _ t2 (Some (inj v))) by (by rewrite Hr, (run_bind _ _ _ _ _ H2)).
  rewrite get_bind, Hk. cbn. by rewrite Hb.
Qed.

Lemma frame_small (v : T) : frame_fits v -> Z.of_nat (length (as_vec v)) < 2 ^ 32.
Proof. unfold frame_fits, MAX_MESSAGE_SIZE. lia. Qed.

Lemma read_write (v : T) r : reads_as inj -> frame_fits v -> read (write v ++ r) = (r, Ok (inj v)).
Proof.
  intros Hr Hf. unfold read, write.
  rewrite (run_bind _ _ _ _ _ (frame_length _ r (frame_small v Hf))). by apply from_reader_as_vec.
Qed.

Lemma read_n_write (vs : list T) r :
  reads_as inj -> Forall frame_fits vs ->
  read_n (length vs) (concat (write <$> vs) ++ r) = (r, Ok (inj <$> vs)).
Proof.
  intros Hr. induction 1 as [|v vs Hf _ IH]; [done|]. cbn [length fmap list_fmap concat read_n].
  rewrite <- app_assoc, (run_bind _ _ _ _ _ (read_write v _ Hr Hf)). by rewrite (run_bind _ _ _ _ _ IH).
Qed.

Lemma read_message_write (v : T) r : frame_fits v -> read_message (write v ++ r) = (r, Ok v).
Proof.
  intros Hf. unfold read_message, write.
  rewrite (run_bind _ _ _ _ _ (frame_length _ r (frame_small v Hf))), check_length_ok, call_Ok_bind.
  2:{ unfold frame_fits in Hf. pose proof (as_vec_length v). lia. }
  unfold under_take. destruct (typed_body v r _ (at_take_new _ _)) as (t1 & H1 & Ht1).
  rewrite (run_bind _ _ _ _ _ H1), Z.eqb_refl. cbn [negb]. destruct (decode_encode _ _ _ _ Ht1) as (t2 & H2 & [Hk Hb]).
  rewrite (run_bind _ _ _ _ _ H2), get_bind, Hk. cbn. by rewrite Hb.
Qed.
End Laws.

(** ** Properties *)


(** What a refused frame leaves in the stream. A frame whose length is below two
    or above the maximum is refused with its body unread, and so is a frame of a
    type that the signer does not know: the bytes of the body are then what the next
    read takes as a frame. The raw read accepts the lengths that are refused. *)
Theorem refused_frame_left `{TakeLaws} {M : Type} `{!ReadMessage M} (body r : list Z) (ty : Z) :
  Z.of_nat (length body) < 2 ^ 32 - 2 -> 0 <= ty < 2 ^ 16 ->
  (Z.of_nat (length body) < 2 \/ MAX_MESSAGE_SIZE < Z.of_nat (length body) ->
   exists e, e ∈ [ShortRead; MessageTooLarge] /\ read (write_vec body ++ r) = (body ++ r, Err e)) /\
  (Z.of_nat (length body) + 2 <= MAX_MESSAGE_SIZE -> (forall t, read_any ty t = (t, Ok None)) ->
   read (write_vec (Redb.to_be_bytes 2 ty ++ body) ++ r)
     = (body ++ r, Err (UnknownMessageType ty (Z.of_nat (length body))))) /\
  read_raw (write_vec body ++ r) = (r, Ok body).
Proof.
  intros Hb Hty. split_and!.
  - intros Hlen. unfold read. rewrite (run_bind _ _ _ _ _ (frame_length body r ltac:(lia))).
    unfold from_reader, check_message_length.
    destruct (Z.ltb_spec (Z.of_nat (length body)) 2); [exists ShortRead; split; [left|done]|].
    rewrite (proj2 (Z.ltb_lt _ _)) by lia. exists MessageTooLarge. split; [right; left|done].
  - intros Hm Hu. unfold read.
    assert (Hlen : length (Redb.to_be_bytes 2 ty ++ body) = (2 + length body)%nat) by (by rewrite length_app, length_be_bytes).
    rewrite (run_bind _ _ _ _ _ (frame_length _ r ltac:(rewrite Hlen; lia))).
    unfold from_reader. rewrite check_length_ok, call_Ok_bind by (rewrite Hlen; lia).
    pose proof (at_take_new (Redb.to_be_bytes 2 ty ++ body) r) as Ht. rewrite Hlen, <- app_assoc in Ht |- *.
    destruct (take_be_app 2 ty (body ++ r) (length body) _ ltac:(change (256 ^ Z.of_nat 2) with (2 ^ 16); lia) Ht)
      as (t1 & H1 & [Hk Hbelow]).
    unfold under_take. rewrite (run_bind _ _ _ _ _ H1), (run_bind _ _ _ _ _ (Hu _)), get_bind, Hk. cbn. by rewrite Hbelow.
  - unfold read_raw. rewrite (run_bind _ _ _ _ _ (frame_length body r ltac:(lia))), Nat2Z.id.
    apply read_exact_app.
Qed.

(** The header of a serial request is read back with its sequence number, peer
    and channel number, and that of a response exactly by who expects its sequence
    number; other first bytes are a framing error. *)
Theorem serial_headers_roundtrip (srh : SerialRequestHeader) (seq seq' magic : Z) (r : list Z) :
  0 <= srh.(srh_sequence) < 2 ^ 16 -> length srh.(srh_peer_id) = 33%nat -> u64 srh.(srh_dbid) ->
  0 <= seq < 2 ^ 16 -> 0 <= magic < 2 ^ 16 ->
  read_serial_request_header (write_serial_request_header srh ++ r) = (r, Ok srh) /\
  read_serial_response_header seq' (write_serial_response_header seq ++ r)
    = (r, if seq =? seq' then Ok tt else Err BadFraming) /\
  (magic <> 0xaa55 -> read_serial_request_header (Redb.to_be_bytes 2 magic ++ r) = (r, Err BadFraming)) /\
  (magic <> 0x5aa5 -> read_serial_response_header seq' (Redb.to_be_bytes 2 magic ++ r) = (r, Err BadFraming)).
Proof.
  intros Hs Hp Hd Hq Hm. unfold uint in Hd. destruct srh as [s p d]. cbn [srh_sequence srh_peer_id srh_dbid] in *.
  assert (H2 : forall z, 0 <= z < 2 ^ 16 -> forall r, read_be 2 (Redb.to_be_bytes 2 z ++ r) = (r, Ok z)).
  { intros z Hz r'. apply read_be_app. change (256 ^ Z.of_nat 2) with (2 ^ 16). lia. }
  split_and!.
  - unfold read_serial_request_header, write_serial_request_header. cbn [srh_sequence srh_peer_id srh_dbid].
    rewrite <- !app_assoc. rewrite (run_bind _ _ _ _ _ (H2 0xaa55 ltac:(lia) _)). cbn [negb Z.eqb Pos.eqb].
    rewrite (run_bind _ _ _ _ _ (H2 _ Hs _)). rewrite <- Hp at 1.
    rewrite (run_bind _ _ _ _ _ (read_exact_app _ _)).
    by rewrite (run_bind _ _ _ _ _ (read_be_app 8 d r ltac:(change (256 ^ Z.of_nat 8) with (2 ^ 64); lia))).
  - unfold read_serial_response_header, write_serial_response_header. rewrite <- app_assoc.
    rewrite (run_bind _ _ _ _ _ (H2 0x5aa5 ltac:(lia) _)). cbn [negb Z.eqb Pos.eqb].
    rewrite (run_bind _ _ _ _ _ (H2 _ Hq _)). by destruct (seq =? seq').
  - intros Hne. unfold read_serial_request_header. rewrite (run_bind _ _ _ _ _ (H2 _ Hm _)).
    by rewrite (proj2 (Z.eqb_neq _ _) Hne).
  - intros Hne. unfold read_serial_response_header. rewrite (run_bind _ _ _ _ _ (H2 _ Hm _)).
    by rewrite (proj2 (Z.eqb_neq _ _) Hne).
Qed.

(** ** [MemleakReply], a message of one byte, to evaluate the framing *)
Record SampleTake := mkTake { tk_limit : nat; tk_below : list Z }.

#[export] Instance sample_take : TakeReader := {|
  Take := SampleTake;
  take_new len r := mkTake (Z.to_nat len) r;
  take_below := tk_below;
  take_remaining := tk_limit;
  take_exact n t :=
    if (t.(tk_limit) <? n)%nat then (mkTake 0 (drop t.(tk_limit) t.(tk_below)), Err Io)
    else let '(r, b) := read_exact n t.(tk_below) in (mkTake (t.(tk_limit) - n) r, b)
|}.

#[export] Instance sample_take_laws : TakeLaws.
Proof.
  split; [done|done|]. intros n [k r] Hk Hr. cbn [take_exact take_below take_remaining sample_take tk_below tk_limit] in *.
  destruct (Nat.ltb_spec k n); [lia|]. unfold read_exact. rewrite get_bind.
  destruct (Nat.ltb_spec (length r) n); [lia|]. by eexists.
Qed.

#[export] Instance memleak_debolt : DeBolt bool := {|
  TYPE := 133;
  consensus_encode (v : bool) := [if v then 1 else 0];
  consensus_decode := b ← take_be 1; mret (negb (b =? 0))
|}.
#[export] Instance memleak_read : ReadMessage bool := fun ty =>
  if ty =? 133 then m ← consensus_decode; mret (Some m) else mret None.

#[export] Instance memleak_laws : DeBoltLaws bool.
Proof.
  split; [cbn; lia|]. intros v r k t Ht. cbn [consensus_decode consensus_encode memleak_debolt] in *.
  assert (He : [if v then 1 else 0] = Redb.to_be_bytes 1 (if v then 1 else 0)) by (by destruct v). rewrite He in Ht.
  destruct (take_be_app 1 (if v then 1 else 0) r k t) as (t' & H1 & Ht'); [destruct v; cbn; lia|exact Ht|].
  exists t'. split; [|done]. rewrite (run_bind _ _ _ _ _ H1). by destruct v.
Qed.


(** The body of a frame of type 7 is read as the message [MemleakReply]. *)
Lemma refused_frame_left_witness :
  read (M:=bool) (write_vec (Redb.to_be_bytes 2 7 ++ write true) ++ [9]) = (write true ++ [9], Err (UnknownMessageType 7 7)) /\
  read (write true ++ [9]) = ([9], Ok true).
Proof.
  split; [|reflexivity].
  refine (proj1 (proj2 (refused_frame_left (M:=bool) (write true) [9] 7 _ _)) _ _).
  - cbn. lia.
  - lia.
  - unfold MAX_MESSAGE_SIZE. cbn. lia.
  - reflexivity.
Defined.

Lemma serial_headers_roundtrip_witness :
  read_serial_request_header (write_serial_request_header (mkSerialRequestHeader 3 (replicate 33 2) 5) ++ [9])
  = ([9], Ok (mkSerialRequestHeader 3 (replicate 33 2) 5)).
Proof.
  apply (serial_headers_roundtrip (mkSerialRequestHeader 3 (replicate 33 2) 5) 3 4 0 [9]);
    cbn; unfold uint; lia || reflexivity.
Defined.
