(* ===== verification/Messages.v ===== *)
(** * Requests and replies: [vls-protocol/src/msgs.rs], [model.rs] and [psbt.rs]

    The requests that the handlers serve, with the fields that they read, their
    replies, the data that these carry, and the decoding of a partially signed
    transaction.  Byte arrays are lists of bytes; a key, a signature or a script in
    a reply is the value itself, since its bytes are of another package. *)
From S2P Require Import Prelude Types Bitcoin CommitInfo TxValidator ChannelTx Monitor Tracker Persister Node Wire.

(** ** Data of messages *)
Abbreviation PubKey := (list Z) (only parsing).
Abbreviation DisclosedSecret := (list Z) (only parsing).
Abbreviation Octets := (list Z) (only parsing).

Record Basepoints := mkBasepoints {
  bp_revocation : PubKey;
  bp_payment : PubKey;
  bp_htlc : PubKey;
  bp_delayed_payment : PubKey
}.

Record BitcoinSignature := mkBitcoinSignature { bs_signature : list Z; bs_sighash : Z }.

Record Htlc := mkHtlc { side : Z; htlc_amount : Z; htlc_payment_hash : Z; ctlv_expiry : Z }.

Definition Htlc_LOCAL : Z := 0.
Definition Htlc_REMOTE : Z := 1.

Record CloseInfo := mkCloseInfo { ci_channel_id : Z; ci_peer_id : PubKey; ci_commitment_point : option PubKey }.

Record Utxo := mkUtxo { utxo_txid : Txid; utxo_outnum : Z; utxo_keyindex : Z; utxo_close_info : option CloseInfo }.

(** ** Partially signed transactions

    The fields of [bitcoin::psbt] that the signer reads or writes; a map is the
    list of its values. *)

(** An element of a witness, by what it is made of. *)
Inductive WitnessItem :=
| WitnessEmpty
| WitnessSignature (sig : Z)
| WitnessPubkey (key : PublicKey)
| WitnessClose (w : CloseWitness)
| WitnessScript (script : ScriptBuf).

Record PsbtInput := mkPsbtInput {
  non_witness_utxo : option Transaction;
  witness_utxo : option TxOut;
  redeem_script : option ScriptBuf;
  final_script_sig : option ScriptBuf;
  final_script_witness : option (list WitnessItem)
}.

Record PsbtOutput := mkPsbtOutput {
  bip32_derivation : list DerivationPath;
  tap_key_origins : list (list Z * DerivationPath);
  witness_script : option ScriptBuf
}.

Record Psbt := mkPsbt { unsigned_tx : Transaction; inputs : list PsbtInput; outputs : list PsbtOutput }.

Record StreamedPSBT := mkStreamedPSBT { psbt : Psbt; segwit_flags : list bool }.

Definition with_witness_utxo (i : PsbtInput) (non_witness : option Transaction) (o : option TxOut) : PsbtInput :=
  mkPsbtInput non_witness o i.(redeem_script) i.(final_script_sig) i.(final_script_witness).
Definition with_script_sig (i : PsbtInput) (s : option ScriptBuf) : PsbtInput :=
  mkPsbtInput i.(non_witness_utxo) i.(witness_utxo) i.(redeem_script) s i.(final_script_witness).
Definition with_script_witness (i : PsbtInput) (w : option (list WitnessItem)) : PsbtInput :=
  mkPsbtInput i.(non_witness_utxo) i.(witness_utxo) i.(redeem_script) i.(final_script_sig) w.

Section Streamed.
Context (compute_txid : Transaction -> Txid) (is_witness_program : ScriptBuf -> bool).

(** The previous transaction of an input is replaced by the output that the
    input spends, and by whether that output is segwit. *)
Definition summarize_input (tx : Transaction) (ind : nat) (i : PsbtInput) : res ProtocolError (PsbtInput * bool) :=
  match i.(non_witness_utxo) with
  | None => Ok (i, false)
  | Some input_tx =>
      txin ← unwrap (tx.(input) !! ind);
      let prevout := txin.(previous_output) in
      when (negb (compute_txid input_tx =? prevout.(txid))) (Err BitcoinDecode) ;;
      when (Z.of_nat (length input_tx.(output)) <=? prevout.(vout)) (Err BitcoinDecode) ;;
      out ← unwrap (input_tx.(output) !! Z.to_nat prevout.(vout));
      let segwit := is_witness_program out.(script_pubkey) in
      match i.(witness_utxo) with
      | Some txo => if bool_decide (txo <> out) then Err BitcoinDecode else Ok (with_witness_utxo i None (Some txo), segwit)
      | None => Ok (with_witness_utxo i None (Some out), segwit)
      end
  end.

(** [StreamedPSBT::consensus_decode_from_finite_reader], once the maps are read;
    the scripts and witnesses that [unsigned_tx_checks] refuses are not in the
    model of a transaction. *)
Definition StreamedPSBT_from (global : Psbt) : res ProtocolError StreamedPSBT :=
  summarized ← map_res (fun '(ind, i) => summarize_input global.(unsigned_tx) ind i) (imap pair global.(inputs));
  Ok (mkStreamedPSBT (mkPsbt global.(unsigned_tx) summarized.*1 global.(outputs)) summarized.*2).
End Streamed.

(** ** Versions of the protocol *)
Definition PROTOCOL_VERSION_REVOKE : Z := 5.
Definition PROTOCOL_VERSION_NO_SECRET : Z := 6.
Definition DEFAULT_MAX_PROTOCOL_VERSION : Z := PROTOCOL_VERSION_NO_SECRET.
Definition MIN_PROTOCOL_VERSION : Z := 2.
Definition CODE_ORPHAN_BLOCK : Z := 401.

(** ** Requests *)
Record HsmdInit := mkHsmdInit {
  has_developer_fields : bool;
  hsm_wire_min_version : Z;
  hsm_wire_max_version : Z
}.

Record SetupChannel := mkSetupChannel {
  sc_is_outbound : bool;
  sc_channel_value : Z;
  sc_push_value : Z;
  sc_funding_txid : Txid;
  sc_funding_txout : Z;
  sc_to_self_delay : Z;
  sc_local_shutdown_script : Octets;
  sc_remote_basepoints : Basepoints;
  sc_remote_funding_pubkey : PubKey;
  sc_remote_to_self_delay : Z;
  sc_remote_shutdown_script : Octets;
  sc_channel_type : Octets
}.

Record SignRemoteCommitmentTx := mkSignRemoteCommitmentTx {
  rc_tx : Transaction;
  rc_psbt : Psbt;
  rc_remote_per_commitment_point : PubKey;
  rc_commitment_number : Z;
  rc_htlcs : list Htlc;
  rc_feerate : Z
}.

Record SignRemoteCommitmentTx2 := mkSignRemoteCommitmentTx2 {
  rc2_remote_per_commitment_point : PubKey;
  rc2_commitment_number : Z;
  rc2_feerate : Z;
  rc2_to_local_value_sat : Z;
  rc2_to_remote_value_sat : Z;
  rc2_htlcs : list Htlc
}.

Record ValidateCommitmentTx := mkValidateCommitmentTx {
  vc_tx : Transaction;
  vc_psbt : Psbt;
  vc_htlcs : list Htlc;
  vc_commitment_number : Z;
  vc_feerate : Z;
  vc_signature : BitcoinSignature;
  vc_htlc_signatures : list BitcoinSignature
}.

Record ValidateCommitmentTx2 := mkValidateCommitmentTx2 {
  vc2_commitment_number : Z;
  vc2_feerate : Z;
  vc2_to_local_value_sat : Z;
  vc2_to_remote_value_sat : Z;
  vc2_htlcs : list Htlc;
  vc2_signature : BitcoinSignature;
  vc2_htlc_signatures : list BitcoinSignature
}.

Record SignLocalHtlcTx2 := mkSignLocalHtlcTx2 {
  lh2_tx : Transaction;
  lh2_input : Z;
  lh2_per_commitment_number : Z;
  lh2_offered : bool;
  lh2_cltv_expiry : Z;
  lh2_htlc_amount_msat : Z;
  lh2_payment_hash : Z
}.

Record SignMutualCloseTx2 := mkSignMutualCloseTx2 {
  mc2_to_local_value_sat : Z;
  mc2_to_remote_value_sat : Z;
  mc2_local_script : Octets;
  mc2_remote_script : Octets;
  mc2_local_wallet_path_hint : DerivationPath
}.

(** A transaction that spends an output of a commitment, with its PSBT and the
    script of the input; the fields that six requests share. *)
Record SweepRequest := mkSweepRequest { sw_tx : Transaction; sw_psbt : Psbt; sw_wscript : Octets }.

(** The channel that a request to the root handler names. *)
Record ChannelRef := mkChannelRef { cr_peer_id : PubKey; cr_dbid : Z }.

Inductive Message :=
| Ping (id : Z) (message : Octets)
| M_HsmdInit (m : HsmdInit)
| HsmdInit2 (has_dev_seed : bool) (dev_allowlist : list Octets)
| HsmdDevPreinit (allowlist : list Octets)
| HsmdDevPreinit2 (allowlist : option (list Octets))
| Memleak
| SignBolt12 (message_name field_name merkle_root public_tweak : Octets)
| SignBolt12V2 (message_name field_name merkle_root info public_tweak : Octets)
| PreapproveInvoice (invstring : Octets)
| PreapproveKeysend (destination : PubKey) (payment_hash amount_msat : Z)
| DeriveSecret (info : Octets)
| SignMessage (message : Octets)
| Ecdh (point : PubKey)
| NewChannel (peer_id : PubKey) (dbid : Z)
| ForgetChannel (node_id : PubKey) (dbid : Z)
| GetChannelBasepoints (node_id : PubKey) (dbid : Z)
| SignWithdrawal (utxos : list Utxo) (psbt : StreamedPSBT)
| SignInvoice (u5bytes hrp : Octets)
| SignBolt12Invoice (invoice_bytes : Octets)
| SignHtlcTxMingle (utxos : list Utxo) (psbt : StreamedPSBT)
| SignSpliceTx (tx : Transaction) (psbt : Psbt) (remote_funding_key : PubKey) (input_index : Z)
| SignCommitmentTx (channel : ChannelRef) (tx : Transaction) (psbt : Psbt) (commitment_number : Z)
| TipInfo
| ForwardWatches
| ReverseWatches
| AddBlock (header : Octets) (unspent_proof : option TxoProof)
| RemoveBlock (unspent_proof : option Octets) (prev_block_header : BlockHeader) (prev_filter_header : Z)
| BlockChunk (hash : BlockHash) (offset : Z) (content : Octets)
| GetHeartbeat
| NodeInfo
| SignNodeAnnouncement (announcement : Octets)
| SignChannelUpdate (update : Octets)
| SignGossipMessage (message : Octets)
| CheckPubKey (index : Z) (pubkey : PubKey)
| SignAnyDelayedPaymentToUs (channel : ChannelRef) (commitment_number : Z) (sweep : SweepRequest) (input : Z)
| SignAnyRemoteHtlcToUs (channel : ChannelRef) (remote_per_commitment_point : PubKey) (sweep : SweepRequest) (input : Z)
| SignAnyPenaltyToUs (channel : ChannelRef) (revocation_secret : DisclosedSecret) (sweep : SweepRequest) (input : Z)
| SignAnyLocalHtlcTx (channel : ChannelRef) (commitment_number : Z) (sweep : SweepRequest) (input : Z)
| SignAnyChannelAnnouncement (channel : ChannelRef) (announcement : Octets)
| SignAnchorspend (channel : ChannelRef) (utxos : list Utxo) (psbt : StreamedPSBT)
| GetSecureRandomBytes
| CheckChannelStateSync (node_channel_entry_json : Octets)
| CheckFutureSecret (commitment_number : Z) (secret : DisclosedSecret)
| GetPerCommitmentPoint (commitment_number : Z)
| GetPerCommitmentPoint2 (commitment_number : Z)
| M_SetupChannel (m : SetupChannel)
| CheckOutpoint (funding_txid : Txid) (funding_txout : Z)
| LockOutpoint (funding_txid : Txid) (funding_txout : Z)
| SignRemoteHtlcTx (sweep : SweepRequest) (remote_per_commitment_point : PubKey)
| M_SignLocalHtlcTx2 (m : SignLocalHtlcTx2)
| M_SignRemoteCommitmentTx (m : SignRemoteCommitmentTx)
| M_SignRemoteCommitmentTx2 (m : SignRemoteCommitmentTx2)
| SignDelayedPaymentToUs (commitment_number : Z) (sweep : SweepRequest)
| SignRemoteHtlcToUs (remote_per_commitment_point : PubKey) (sweep : SweepRequest)
| SignLocalHtlcTx (commitment_number : Z) (sweep : SweepRequest)
| SignPenaltyToUs (revocation_secret : DisclosedSecret) (sweep : SweepRequest)
| SignMutualCloseTx (tx : Transaction) (psbt : Psbt)
| M_SignMutualCloseTx2 (m : SignMutualCloseTx2)
| M_ValidateCommitmentTx (m : ValidateCommitmentTx)
| M_ValidateCommitmentTx2 (m : ValidateCommitmentTx2)
| RevokeCommitmentTx (commitment_number : Z)
| SignLocalCommitmentTx2 (commitment_number : Z)
| ValidateRevocation (commitment_number : Z) (commitment_secret : DisclosedSecret)
| SignChannelAnnouncement (announcement : Octets)
| OtherMessage (message_type : Z).

(** ** Replies *)
Inductive Reply :=
| Pong (id : Z)
| HsmdInitReplyV2 (node_id : PublicKey)
| HsmdInitReplyV4 (hsm_version : Z) (hsm_capabilities : list Z) (node_id : PublicKey)
| HsmdInit2Reply (node_id : PublicKey)
| HsmdDevPreinitReply (node_id : PublicKey)
| MemleakReply (result : bool)
| SignBolt12Reply (signature : Signature)
| SignBolt12V2Reply (signature : Signature)
| PreapproveInvoiceReply (result : bool)
| PreapproveKeysendReply (result : bool)
| DeriveSecretReply (secret : SecretKey)
| SignMessageReply (signature : Octets)
| EcdhReply (secret : Octets)
| NewChannelReply
| ForgetChannelReply
| GetChannelBasepointsReply (keys : ChannelPublicKeys)
| SignWithdrawalReply (psbt : Psbt)
| SignInvoiceReply (signature : Signature)
| SignBolt12InvoiceReply (signature : Signature)
| SignHtlcTxMingleReply (psbt : Psbt)
| SignCommitmentTxReply (signature : TypedSignature)
| TipInfoReply (height : Z) (block_hash : BlockHash)
| ForwardWatchesReply (txids : list Txid) (outpoints : list OutPoint)
| ReverseWatchesReply (txids : list Txid) (outpoints : list OutPoint)
| SignerError (code : Z)
| AddBlockReply
| RemoveBlockReply
| BlockChunkReply
| GetHeartbeatReply (tip : Headers)
| NodeInfoReply (network_name : string) (node_id : PublicKey)
| SignNodeAnnouncementReply (signature : Signature)
| SignChannelUpdateReply (update : Octets)
| SignGossipMessageReply (signature : Signature)
| CheckPubKeyReply (ok : bool)
| SignTxReply (signature : TypedSignature)
| SignAnyChannelAnnouncementReply (node_signature bitcoin_signature : Signature)
| SignChannelAnnouncementReply (node_signature bitcoin_signature : Signature)
| SignAnchorspendReply (psbt : Psbt)
| GetSecureRandomBytesReply (random_bytes : Octets)
| CheckChannelStateSyncReply (state_matches : bool) (signer_channel_entry : option ChannelEntry)
| CheckFutureSecretReply (result : bool)
| GetPerCommitmentPointReply (point : PublicKey) (secret : option SecretKey)
| GetPerCommitmentPoint2Reply (point : PublicKey)
| SetupChannelReply
| CheckOutpointReply (is_buried : bool)
| LockOutpointReply
| SignCommitmentTxWithHtlcsReply (signature : Signature) (htlc_signatures : list Signature)
| ValidateCommitmentTxReply (old_commitment_secret : option SecretKey) (next_per_commitment_point : PublicKey)
| RevokeCommitmentTxReply (old_commitment_secret : SecretKey) (next_per_commitment_point : PublicKey)
| ValidateRevocationReply.
