(* ===== verification/Withdrawal.v ===== *)
(** * Withdrawals: [node.rs] and [vls-protocol-signer/src/handler.rs]

    The loop of [Node::unchecked_sign_onchain_tx] that signs the inputs of a
    transaction, and [RootHandler::sign_withdrawal], which collects the keys of the
    inputs, asks the approver and fills the witnesses of the PSBT. *)
From S2P Require Import Prelude Velocity Policy Ordered CommitInfo Types Bitcoin Script Secrets Enforcement SimpleValidator Validator NodeState Channel TxValidator ChannelTx Monitor Tracker BTree Kvv Persister Node Approver Wire Messages.

(** ** Signing the inputs of a transaction *)
Inductive InputKey := WalletKey (path : DerivationPath) | CloseKey (key : SigningKey).

(** Signature hashes, signatures and the bytes of scripts, of the bitcoin and
    secp256k1 packages. *)
Class InputSigner := {
  close_pubkey : SigningKey -> PublicKey;
  close_script_len : CloseWitness -> Z;
  script_len : ScriptBuf -> Z;
  item_script : WitnessItem -> ScriptBuf;
  script_push : ScriptBuf -> ScriptBuf;
  revocation_from_basepoint : PublicKey -> PublicKey -> PublicKey;
  legacy_signature_hash : Transaction -> nat -> ScriptBuf -> option Z;
  p2wpkh_signature_hash : Transaction -> nat -> ScriptBuf -> Z -> option Z;
  taproot_signature_hash : Transaction -> nat -> list TxOut -> option Z;
  sign_input_ecdsa : Z -> InputKey -> Z;
  sign_input_schnorr : Z -> InputKey -> Z
}.

Section SignInputs.
Context `{BitcoinLib} `{LightningLib} `{SpendScripts} `{WalletKeys} `{InputSigner}.

(** The stack of [get_unilateral_close_key]. *)
Definition close_stack (key : SigningKey) (w : CloseWitness) : list WitnessItem :=
  match w with
  | RevokeableWitness _ _ => [WitnessEmpty; WitnessClose w]
  | AnchorWitness => [WitnessClose w]
  | PubkeyWitness => [WitnessPubkey (close_pubkey key)]
  end.

Definition item_len (i : WitnessItem) : Z :=
  match i with
  | WitnessEmpty => 0
  | WitnessSignature _ => 72
  | WitnessPubkey _ => 33
  | WitnessClose w => close_script_len w
  | WitnessScript s => script_len s
  end.

Definition input_pubkey (key : InputKey) : PublicKey :=
  match key with WalletKey path => account_pubkey path | CloseKey k => close_pubkey k end.

(** The key of an input with the rest of its witness. *)
Definition input_key (wallet : NodeWallet) (ipaths : list DerivationPath) (idx : nat)
    (uck : option (SigningKey * CloseWitness)) : res Status (InputKey * list WitnessItem) :=
  match uck with
  | Some (key, w) => Ok (CloseKey key, close_stack key w)
  | None =>
      path ← unwrap (ipaths !! idx);
      pubkey ← get_wallet_pubkey wallet path;
      Ok (WalletKey path, [WitnessPubkey pubkey])
  end.

(** The signature of an input by its spend type. *)
Definition input_signature (wallet : NodeWallet) (tx : Transaction) (ipaths : list DerivationPath)
    (prev_outs : list TxOut) (idx : nat) (prev_out : TxOut) (key : InputKey) (witness : list WitnessItem)
  : res Status Z :=
  let pubkey := input_pubkey key in
  let script := prev_out.(script_pubkey) in
  match from_script_pubkey script with
  | P2pkh =>
      rassert (script =? p2pkh_script pubkey) ;;
      sighash ← ok_or internal_error (legacy_signature_hash tx idx (p2pkh_script pubkey));
      Ok (sign_input_ecdsa sighash key)
  | P2wpkh =>
      rassert (script =? p2wpkh_script pubkey) ;;
      sighash ← unwrap (p2wpkh_signature_hash tx idx (p2wpkh_script pubkey) prev_out.(value));
      Ok (sign_input_ecdsa sighash key)
  | P2shP2wpkh =>
      rassert (script =? p2shwpkh_script pubkey) ;;
      sighash ← unwrap (p2wpkh_signature_hash tx idx (p2wpkh_script pubkey) prev_out.(value));
      Ok (sign_input_ecdsa sighash key)
  | P2wsh =>
      item ← unwrap (last witness);
      sighash ← unwrap (p2wsh_signature_hash tx idx (item_script item) prev_out.(value) SighashAll);
      Ok (sign_input_ecdsa sighash key)
  | P2tr =>
      path ← unwrap (ipaths !! idx);
      wallet_addr ← get_taproot_address wallet path;
      out_addr ← ok_or invalid_argument (Address_from_script script);
      if negb (wallet_addr =? out_addr) then Err invalid_argument
      else
        sighash ← unwrap (taproot_signature_hash tx idx prev_outs);
        Ok (sign_input_schnorr sighash key)
  | Invalid => Err invalid_argument
  end.

(** One input; an input that is not ours gets an empty witness. *)
Definition sign_input (wallet : NodeWallet) (tx : Transaction) (ipaths : list DerivationPath) (prev_outs : list TxOut)
    (iu : nat * option (SigningKey * CloseWitness)) : res Status (list WitnessItem) :=
  let '(idx, uck) := iu in
  prev_out ← unwrap (prev_outs !! idx);
  let spend_type := from_script_pubkey prev_out.(script_pubkey) in
  skip ← (if bool_decide (spend_type = Invalid) then Ok true
          else match uck with
               | Some _ => Ok false
               | None => path ← unwrap (ipaths !! idx); Ok (bool_decide (path = []))
               end);
  if (skip : bool) then Ok []
  else
    '(key, witness) ← input_key wallet ipaths idx uck;
    sigvec ← input_signature wallet tx ipaths prev_outs idx prev_out key witness;
    Ok (WitnessSignature sigvec :: (if bool_decide (spend_type = P2tr) then [] else witness)).

Definition sign_inputs (wallet : NodeWallet) (tx : Transaction) (ipaths : list DerivationPath) (prev_outs : list TxOut)
    (uniclosekeys : list (option (SigningKey * CloseWitness))) : res Status (list (list WitnessItem)) :=
  map_res (sign_input wallet tx ipaths prev_outs) (imap pair uniclosekeys).
End SignInputs.

(** ** The paths of the outputs of a PSBT *)
Definition extract_output_path {E : Type} (o : PsbtOutput) : res E DerivationPath :=
  match o.(bip32_derivation) with
  | [path] => Ok path
  | _ :: _ => Panic
  | [] =>
      match o.(tap_key_origins) with
      | [] => Ok []
      | [(hashes, path)] => if bool_decide (hashes = []) then Ok path else Panic
      | _ => Panic
      end
  end.

Definition extract_psbt_output_paths {E : Type} (p : Psbt) : res E (list DerivationPath) :=
  map_res extract_output_path p.(outputs).

(** ** [sign_withdrawal] *)
Section Withdrawal.
Context `{Profile} `{BitcoinLib} `{LightningLib} `{SpendScripts} `{ChainPackages} `{CommitmentPointProvider} `{WalletKeys}.
Context `{InputSigner}.
Context {P : Type} `{!Persist P} {V : Type} `{HV : Validator V} `{TransactionValidator V NodeWallet}.
Context {I A : Type} `{!Approve I A}.
Context (validator : V) (compute_txid : Transaction -> Txid).

Abbreviation node := (Node (P:=P)) (only parsing).

(** The key of an output of a unilateral close. *)
Definition unilateral_close_key (ci : CloseInfo) : method node Status (SigningKey * CloseWitness) :=
  let channel_id := new_from_peer_id_and_oid ci.(ci_peer_id) ci.(ci_channel_id) in
  per_commitment_point ←
    call (match ci.(ci_commitment_point) with
          | Some p => point ← unwrap (PublicKey_from_slice p); Ok (Some point)
          | None => Ok None
          end);
  with_channel channel_id (
    '(chan, _) ← get_self;
    let revocation_pubkey :=
      revocation_from_basepoint chan.(setup).(counterparty_points).(revocation_basepoint) <$> per_commitment_point in
    call (get_unilateral_close_key chan per_commitment_point revocation_pubkey)).

Definition spends (utxo : Utxo) (i : TxIn) : bool :=
  (utxo.(utxo_txid) =? i.(previous_output).(txid)) && (utxo.(utxo_outnum) =? i.(previous_output).(vout)).

(** The path and the close key of each input. *)
Fixpoint input_sources (utxos : list Utxo) (l : list TxIn)
  : method node Status (list (DerivationPath * option (SigningKey * CloseWitness))) :=
  match l with
  | [] => mret []
  | i :: l' =>
      source ← (match List.find (fun u => spends u i) utxos with
                | Some utxo =>
                    match utxo.(utxo_close_info) with
                    | Some ci => ck ← unilateral_close_key ci; mret ([utxo.(utxo_keyindex)], Some ck)
                    | None => mret ([utxo.(utxo_keyindex)], None)
                    end
                | None => mret ([], None)
                end);
      rest ← input_sources utxos l';
      mret (source :: rest)
  end.

(** The script of a nested segwit input; the loop stops with the shorter list. *)
Definition populate_script_sig {E : Type} (txins : nat) (ii : nat * PsbtInput) : res E PsbtInput :=
  let '(idx, i) := ii in
  if (txins <=? idx)%nat then Ok i
  else match i.(redeem_script) with
  | Some script =>
      rassert (bool_decide (i.(final_script_sig) = None)) ;;
      Ok (with_script_sig i (Some (script_push script)))
  | None => Ok i
  end.

(** [psbt.inputs[i].final_script_witness] is set for the inputs that are signed. *)
Definition fill_witness {E : Type} (ins : list PsbtInput) (iw : nat * list WitnessItem) : res E (list PsbtInput) :=
  let '(idx, stack) := iw in
  if bool_decide (stack = []) then Ok ins
  else
    i ← unwrap (ins !! idx);
    Ok (<[idx := with_script_witness i (Some stack)]> ins).

Definition sign_withdrawal (now : Z) (streamed : StreamedPSBT) (utxos : list Utxo)
  : method (A * node) Status StreamedPSBT :=
  let p := streamed.(psbt) in
  let tx := p.(unsigned_tx) in
  opaths ← call (extract_psbt_output_paths p);
  prev_outs ← call (map_res (fun i => unwrap i.(witness_utxo)) p.(inputs));
  sources ← on_node (input_sources utxos tx.(input));
  ins ← call (map_res (populate_script_sig (length tx.(input))) (imap pair p.(inputs)));
  let ipaths := sources.*1 in
  let uniclosekeys := sources.*2 in
  let stack_lens := (fun o : option (SigningKey * CloseWitness) => (fun '(key, w) => item_len <$> close_stack key w) <$> o) <$> uniclosekeys in
  approved ← handle_proposed_onchain (I:=I) validator compute_txid now tx streamed.(segwit_flags) prev_outs stack_lens opaths;
  if negb approved then call (Err failed_precondition)
  else
    '(_, n) ← get_self;
    witvec ← on_node (unchecked_sign_onchain_tx compute_txid
                        (sign_inputs (node_wallet n) tx ipaths prev_outs uniclosekeys) tx);
    ins ← call (fold_res fill_witness ins (imap pair witvec));
    mret (mkStreamedPSBT (mkPsbt tx ins p.(outputs)) streamed.(segwit_flags)).
End Withdrawal.
