(* ===== verification/Handler.v ===== *)
(** * Protocol handlers: [vls-protocol-signer/src/handler.rs]

    The version negotiation of [InitHandler], the requests of [RootHandler] and
    [ChannelHandler], and the transactions of [Handler::with_persist].  A handler
    works on an approver and a node, which both change in place; the clocks that a
    request reads are arguments.  What a request decodes from bytes, and what the
    keys manager signs or derives, are of other packages or of components that are
    not modelled: the classes [RequestCodec] and [KeysManager]. *)
From S2P Require Import Prelude Velocity Policy Ordered CommitInfo Types Bitcoin Script Secrets Enforcement SimpleValidator Validator NodeState Channel TxValidator ChannelTx Monitor Tracker BTree Kvv Persister Node NodeChannels Approver Wire Messages Withdrawal.

(** ** Errors *)
Inductive HandlerError :=
| Protocol (e : ProtocolError)
| Signing (s : Status)
| TemporaryError (s : Status).

(** [impl From<Status> for Error]. *)
Definition HandlerError_from (e : Status) : HandlerError :=
  match e.(code) with Temporary => TemporaryError e | _ => Signing e end.

(** ** Decoding requests *)

(** An unsigned BOLT 12 invoice, and what signing it gives. *)
Record UnsignedBolt12 (I : Type) := mkUnsignedBolt12 {
  u_signing_pubkey : PublicKey;
  u_created_at : Z;
  u_relative_expiry : Z;
  u_signed : res Status (I * Signature)
}.
Arguments u_signing_pubkey {_} _.
Arguments u_created_at {_} _.
Arguments u_relative_expiry {_} _.
Arguments u_signed {_} _.

Class RequestCodec (I : Type) := {
  from_utf8 : Octets -> option string;
  Invoice_from_str : string -> option I;
  (** [RawBolt11Invoice::from_raw], signed by the node key. *)
  signed_raw_invoice : string -> Octets -> option (res Status (I * Signature));
  UnsignedBolt12_try_from : Octets -> option (UnsignedBolt12 I);
  Signature_from_compact : list Z -> option Signature;
  deserialize_proof : Octets -> option TxoProof;
  channel_entry_from_json : string -> option ChannelEntry;
  script_as_bytes : ScriptBuf -> list Z
}.

(** The secrets of the node. *)
Class KeysManager := {
  km_sign_bolt12 : Octets -> Octets -> Octets -> option Octets -> option Signature;
  km_sign_bolt12_2 : Octets -> Octets -> Octets -> Octets -> option Octets -> option Signature;
  km_derive_secret : Octets -> SecretKey;
  km_bolt12_pubkey : PublicKey;
  (** [SharedSecret::new] with the node key. *)
  ecdh : PublicKey -> Octets;
  (** The recoverable and the plain signature of the double hash of a message. *)
  sign_recoverable : Octets -> Octets;
  sign_gossip : Octets -> Signature;
  compact_signature : Signature -> Octets;
  (** Of the funding key of a channel. *)
  sign_announcement : Octets -> Signature;
  keyed_anchor_redeemscript : PublicKey -> ScriptBuf;
  sign_keyed_anchor_input : ChannelSetup -> Transaction -> nat -> option Signature;
  secure_random_bytes : Octets
}.

(** The bytes of ["Lightning Signed Message:"]. *)
Definition message_tag : Octets :=
  [76; 105; 103; 104; 116; 110; 105; 110; 103; 32; 83; 105; 103; 110; 101; 100; 32; 77; 101; 115; 115; 97; 103; 101; 58].

(** ** Channel types: [vls-protocol-signer/src/util.rs] *)
Definition OPT_STATIC_REMOTEKEY : nat := 12.
Definition OPT_ANCHOR_OUTPUTS : nat := 20.
Definition OPT_ANCHORS_ZERO_FEE_HTLC_TX : nat := 22.
Definition OPT_MAX : nat := 32.

Definition bits_of_byte (b : Z) : list bool := (fun i => Z.testbit b (Z.of_nat i)) <$> seq 0 8.

(** [BitVec::from_bytes] takes the highest bit first, so the reversed bits of
    each byte come lowest first. *)
Definition channel_features (channel_type : Octets) : list bool := concat (bits_of_byte <$> reverse channel_type).

Definition channel_type_to_commitment_type {E : Type} (channel_type : Octets) : res E CommitmentType :=
  let get i := default false (channel_features channel_type !! i) in
  if get OPT_ANCHORS_ZERO_FEE_HTLC_TX then rassert (get OPT_STATIC_REMOTEKEY) ;; Ok AnchorsZeroFeeHtlc
  else if get OPT_ANCHOR_OUTPUTS then rassert (get OPT_STATIC_REMOTEKEY) ;; Ok Anchors
  else Ok (if get OPT_STATIC_REMOTEKEY then StaticRemoteKey else Legacy).

Fixpoint byte_of_bits (l : list bool) : Z :=
  match l with [] => 0 | b :: l' => (if b then 1 else 0) + 2 * byte_of_bits l' end.

(** [to_bytes] of 32 features. *)
Definition commitment_type_to_channel_type (t : CommitmentType) : Octets :=
  let features := <[OPT_STATIC_REMOTEKEY := true]> (replicate OPT_MAX false) in
  let features :=
    if bool_decide (t = Anchors) || bool_decide (t = AnchorsZeroFeeHtlc)
    then <[OPT_ANCHOR_OUTPUTS := true]> features else features in
  let features :=
    if bool_decide (t = AnchorsZeroFeeHtlc) then <[OPT_ANCHORS_ZERO_FEE_HTLC_TX := true]> features else features in
  reverse ((fun i => byte_of_bits (take 8 (drop (8 * i) features))) <$> seq 0 4).

(** ** HTLCs of a request

    The result is the received and the offered HTLCs; a request about a commitment
    of the counterparty reads them the other way around. *)
Definition to_htlc_info (h : Htlc) : HTLCInfo2 :=
  mkHTLCInfo2 (h.(htlc_amount) / 1000) h.(htlc_payment_hash) h.(ctlv_expiry).

Definition extract_htlcs (htlcs : list Htlc) : list HTLCInfo2 * list HTLCInfo2 :=
  let of_side s := to_htlc_info <$> filter (fun h => h.(side) = s) htlcs in
  (of_side Htlc_REMOTE, of_side Htlc_LOCAL).

Definition to_script `{BitcoinLib} (bytes : Octets) : option ScriptBuf :=
  if bool_decide (bytes = []) then None else Some (ScriptBuf_from bytes).

(** [EcdsaSighashType as u8]. *)
Definition SIGHASH_ALL : Z := 0x01.
Definition SIGHASH_SINGLE_ANYONECANPAY : Z := 0x83.

(** The clocks that one request reads, in its order. *)
Record Clocks := mkClocks { approver_secs : Z; clock1 : Z; clock2 : Z; clock3 : Z }.

Section Handlers.
Context `{Profile} `{BitcoinLib} `{LightningLib} `{SpendScripts} `{ChainPackages} `{CommitmentPointProvider} `{WalletKeys}.
Context `{Signer} `{TransactionSigner} `{InputSigner} `{KeysManager} `{Encodings}.
Context {P : Type} `{!Persist P} {V : Type} `{HV : Validator V} `{TransactionValidator V NodeWallet}.
Context {PO : Type} `{HPO : Policy PO} {I A : Type} `{HI : InvoiceAttributes I} `{!Approve I A} `{HC : !RequestCodec I}.
Context (validator : V) (policy : PO) (compute_txid : Transaction -> Txid) (set_iter : gset Z -> list Z).
Context (persist : Channel -> res Status unit) (allowable_to_string : Allowable -> string).
Context (timeless_workaround developer : bool).

Abbreviation node := (Node (P:=P)) (only parsing).
Abbreviation channel_method A := (method (Channel * NodeState) Status A) (only parsing).
Abbreviation node_method A := (method node Status A) (only parsing).

(** *** Requests on one channel

    [with_channel_base]: a stub and a ready channel answer by the same interface;
    these methods read only. *)
Definition with_channel_base {B : Type} (channel_id : ChannelId) (on_stub : res Status B) (on_ready : Channel -> res Status B)
  : node_method B :=
  self ← get_self;
  r ← call (get_channel_slot self channel_id);
  slot ← call (unwrap (self.(slots) !! r));
  match slot with
  | StubSlot _ => call on_stub
  | ReadySlot chan _ => call (on_ready chan)
  end.

(** A method of a ready channel that reads only. *)
Definition read_channel {B : Type} (channel_id : ChannelId) (f : Channel -> res Status B) : node_method B :=
  with_channel channel_id ('(chan, _) ← get_self; call (f chan)).

(** [PublicKey::from_slice] of a request that refuses a malformed key. *)
Definition request_pubkey (key : PubKey) : res Status PublicKey := ok_or invalid_argument (PublicKey_from_slice key).

Definition all_sig (s : Signature) : TypedSignature := mkTypedSignature s SighashAll.

(** The amount of an input of a PSBT, and the path of its first output. *)
Definition input_amount {E : Type} (p : Psbt) (input : nat) : res E Z :=
  i ← unwrap (p.(inputs) !! input);
  utxo ← unwrap i.(witness_utxo);
  Ok utxo.(value).

Definition sign_delayed_payment_to_us (channel_id : ChannelId) (commitment_number : Z) (sw : SweepRequest) (input : Z)
  : node_method Reply :=
  self ← get_self;
  let input := Z.to_nat input in
  htlc_amount ← call (input_amount sw.(sw_psbt) input);
  wallet_paths ← call (extract_psbt_output_paths sw.(sw_psbt));
  sig ← read_channel channel_id (fun chan =>
          path ← unwrap (wallet_paths !! 0%nat);
          sign_delayed_sweep validator (node_wallet self) chan sw.(sw_tx) input commitment_number
            (ScriptBuf_from sw.(sw_wscript)) htlc_amount path);
  mret (SignTxReply (all_sig sig)).

Definition sign_remote_htlc_to_us (channel_id : ChannelId) (remote_per_commitment_point : PubKey) (sw : SweepRequest)
    (input : Z) : node_method Reply :=
  self ← get_self;
  point ← call (request_pubkey remote_per_commitment_point);
  let input := Z.to_nat input in
  htlc_amount ← call (input_amount sw.(sw_psbt) input);
  wallet_paths ← call (extract_psbt_output_paths sw.(sw_psbt));
  sig ← read_channel channel_id (fun chan =>
          path ← unwrap (wallet_paths !! 0%nat);
          sign_counterparty_htlc_sweep validator (node_wallet self) chan sw.(sw_tx) input point
            (ScriptBuf_from sw.(sw_wscript)) htlc_amount path);
  mret (SignTxReply (all_sig sig)).

(** The input only selects the amount: the channel signs its own HTLC transaction. *)
Definition sign_local_htlc_tx (channel_id : ChannelId) (commitment_number : Z) (sw : SweepRequest) (input : Z)
  : node_method Reply :=
  htlc_amount ← call (input_amount sw.(sw_psbt) (Z.to_nat input));
  out ← call (unwrap (sw.(sw_psbt).(outputs) !! 0%nat));
  call (unwrap out.(witness_script)) ;;
  sig ← read_channel channel_id (fun chan =>
          sign_holder_htlc_tx (W:=NodeWallet) validator chan sw.(sw_tx) commitment_number None
            (ScriptBuf_from sw.(sw_wscript)) htlc_amount);
  mret (SignTxReply sig).

Definition sign_penalty_to_us (channel_id : ChannelId) (revocation_secret : DisclosedSecret) (sw : SweepRequest)
    (input : Z) : node_method Reply :=
  self ← get_self;
  secret ← call (unwrap (secret_from_slice revocation_secret));
  let input := Z.to_nat input in
  htlc_amount ← call (input_amount sw.(sw_psbt) input);
  wallet_paths ← call (extract_psbt_output_paths sw.(sw_psbt));
  sig ← read_channel channel_id (fun chan =>
          path ← unwrap (wallet_paths !! 0%nat);
          sign_justice_sweep validator (node_wallet self) chan sw.(sw_tx) input secret
            (ScriptBuf_from sw.(sw_wscript)) htlc_amount path);
  mret (SignTxReply (all_sig sig)).

(** The slice of the announcement panics when it is too short. *)
Definition slice_from {E : Type} (n : nat) (l : Octets) : res E Octets :=
  if (length l <? n)%nat then Panic else Ok (drop n l).

Definition sign_channel_announcement (channel_id : ChannelId) (announcement : Octets)
  : node_method (Signature * Signature) :=
  message ← call (slice_from (256 + 2) announcement);
  bitcoin_sig ← read_channel channel_id (fun _ => Ok (sign_announcement message));
  mret (sign_gossip message, bitcoin_sig).

Definition extract_psbt_witscripts (p : Psbt) : list Octets :=
  (fun o => default [] (script_as_bytes <$> o.(witness_script))) <$> p.(outputs).

(** *** [ChannelHandler] *)
Record ChannelHandler := mkChannelHandler { ch_protocol_version : Z; ch_dbid : Z; ch_channel_id : ChannelId }.

(** During a splice the values do not say which funding they are of. *)
Definition resolve_legacy_phase2_funding (channel_id : ChannelId) : node_method OutPoint :=
  read_channel channel_id (fun chan =>
    if bool_decide (is_Some chan.(prev_setup)) || bool_decide (is_Some chan.(prev_prev_setup))
    then Err failed_precondition
    else Ok chan.(setup).(Types.funding_outpoint)).

(** The signatures of a commitment that is validated. *)
Definition commit_signature {E : Type} (s : BitcoinSignature) : res E Signature :=
  sig ← unwrap (Signature_from_compact s.(bs_signature));
  rassert (s.(bs_sighash) =? SIGHASH_ALL) ;;
  Ok sig.

Definition htlc_signature {E : Type} (s : BitcoinSignature) : res E Signature :=
  rassert ((s.(bs_sighash) =? SIGHASH_ALL) || (s.(bs_sighash) =? SIGHASH_SINGLE_ANYONECANPAY)) ;;
  unwrap (Signature_from_compact s.(bs_signature)).

(** What follows the validation of a holder commitment: before version 5 the
    previous one is revoked at once. *)
Definition after_validation (protocol_version commit_num : Z) : channel_method (PublicKey * option SecretKey) :=
  if protocol_version <? PROTOCOL_VERSION_REVOKE then
    revoke_previous_holder_commitment validator set_iter persist commit_num
  else
    '(chan, _) ← get_self;
    if 0 <? commit_num then
      next ← call (add_u64 commit_num 1);
      point ← call (get_per_commitment_point chan next);
      mret (point, None)
    else if bool_decide (is_Some chan.(enforcement_state).(next_holder_commit_info)) then
      point ← activate_initial_commitment persist;
      mret (point, None)
    else
      point ← call (get_per_commitment_point chan 1);
      mret (point, None).

Definition validate_commitment_tx_request (h : ChannelHandler) (m : ValidateCommitmentTx) : node_method Reply :=
  let witscripts := extract_psbt_witscripts m.(vc_psbt) in
  let '(received_htlcs, offered_htlcs) := extract_htlcs m.(vc_htlcs) in
  commit_sig ← call (commit_signature m.(vc_signature));
  htlc_sigs ← call (map_res htlc_signature m.(vc_htlc_signatures));
  r ← with_channel h.(ch_channel_id) (
        validate_holder_commitment_tx (W:=NodeWallet) validator set_iter persist m.(vc_tx) witscripts
          m.(vc_commitment_number) m.(vc_feerate) offered_htlcs received_htlcs commit_sig htlc_sigs ;;
        after_validation h.(ch_protocol_version) m.(vc_commitment_number));
  mret (ValidateCommitmentTxReply r.2 r.1).

Definition validate_commitment_tx2_request (h : ChannelHandler) (m : ValidateCommitmentTx2) : node_method Reply :=
  let '(received_htlcs, offered_htlcs) := extract_htlcs m.(vc2_htlcs) in
  commit_sig ← call (commit_signature m.(vc2_signature));
  htlc_sigs ← call (map_res htlc_signature m.(vc2_htlc_signatures));
  funding_outpoint ← resolve_legacy_phase2_funding h.(ch_channel_id);
  r ← with_channel h.(ch_channel_id) (
        validate_holder_commitment_tx_phase2 validator set_iter persist funding_outpoint m.(vc2_commitment_number)
          m.(vc2_feerate) m.(vc2_to_local_value_sat) m.(vc2_to_remote_value_sat) offered_htlcs received_htlcs
          commit_sig htlc_sigs ;;
        after_validation h.(ch_protocol_version) m.(vc2_commitment_number));
  mret (ValidateCommitmentTxReply r.2 r.1).

(** The secret must be there, although the commitment is revoked before. *)
Definition revoke_commitment_tx_request (h : ChannelHandler) (commit_num : Z) : node_method Reply :=
  if h.(ch_protocol_version) <? PROTOCOL_VERSION_REVOKE then call (Err invalid_argument)
  else
    next ← call (add_u64 commit_num 1);
    r ← with_channel h.(ch_channel_id) (revoke_previous_holder_commitment validator set_iter persist next);
    secret ← call (ok_or invalid_argument r.2);
    mret (RevokeCommitmentTxReply secret r.1).

Definition setup_channel_request (h : ChannelHandler) (m : SetupChannel) : node_method Reply :=
  let pubkey key := unwrap (E:=Status) (PublicKey_from_slice key) in
  let points := m.(sc_remote_basepoints) in
  funding ← call (pubkey m.(sc_remote_funding_pubkey));
  revocation ← call (pubkey points.(bp_revocation));
  payment ← call (pubkey points.(bp_payment));
  delayed ← call (pubkey points.(bp_delayed_payment));
  htlc ← call (pubkey points.(bp_htlc));
  commitment_type ← call (channel_type_to_commitment_type m.(sc_channel_type));
  let setup :=
    mkChannelSetup m.(sc_is_outbound) m.(sc_channel_value) m.(sc_push_value)
      (mkOutPoint m.(sc_funding_txid) m.(sc_funding_txout)) m.(sc_to_self_delay) (to_script m.(sc_local_shutdown_script))
      (mkChannelPublicKeys funding revocation payment delayed htlc) m.(sc_remote_to_self_delay)
      (to_script m.(sc_remote_shutdown_script)) commitment_type in
  setup_channel validator h.(ch_channel_id) None setup [] ;;
  mret SetupChannelReply.

(** The secret is returned by the older versions of the protocol. *)
Definition per_commitment_point_request (h : ChannelHandler) (commitment_number : Z) : node_method Reply :=
  let with_secret := (h.(ch_protocol_version) <? PROTOCOL_VERSION_NO_SECRET) && (2 <=? commitment_number) in
  r ← with_channel_base h.(ch_channel_id)
        (point ← stub_get_per_commitment_point commitment_number;
         if with_secret then secret ← stub_get_per_commitment_secret (commitment_number - 2); Ok (point, Some secret)
         else Ok (point, None))
        (fun chan =>
         point ← get_per_commitment_point chan commitment_number;
         if with_secret then
           secret ← get_per_commitment_secret validator chan (commitment_number - 2); Ok (point, Some secret)
         else Ok (point, None));
  mret (GetPerCommitmentPointReply r.1 r.2).

Definition sign_remote_htlc_tx_request (h : ChannelHandler) (sw : SweepRequest) (point : PubKey) : node_method Reply :=
  let p := sw.(sw_psbt) in
  point ← call (request_pubkey point);
  call (rassert (length p.(outputs) =? 1)%nat) ;;
  call (rassert (length p.(inputs) =? 1)%nat) ;;
  call (rassert (length sw.(sw_tx).(output) =? 1)%nat) ;;
  call (rassert (length sw.(sw_tx).(input) =? 1)%nat) ;;
  htlc_amount ← call (input_amount p 0);
  out ← call (unwrap (p.(outputs) !! 0%nat));
  call (unwrap out.(witness_script)) ;;
  sig ← read_channel h.(ch_channel_id) (fun chan =>
          sign_counterparty_htlc_tx (W:=NodeWallet) validator chan sw.(sw_tx) point (ScriptBuf_from sw.(sw_wscript)) htlc_amount);
  mret (SignTxReply sig).

Definition sign_remote_commitment_tx_request (h : ChannelHandler) (m : SignRemoteCommitmentTx) : node_method Reply :=
  point ← call (request_pubkey m.(rc_remote_per_commitment_point));
  let '(offered_htlcs, received_htlcs) := extract_htlcs m.(rc_htlcs) in
  sig ← with_channel h.(ch_channel_id) (
          sign_counterparty_commitment_tx (W:=NodeWallet) validator set_iter persist m.(rc_tx)
            (extract_psbt_witscripts m.(rc_psbt)) point m.(rc_commitment_number) m.(rc_feerate) offered_htlcs received_htlcs);
  mret (SignTxReply (all_sig sig)).

Definition sign_remote_commitment_tx2_request (h : ChannelHandler) (m : SignRemoteCommitmentTx2) : node_method Reply :=
  point ← call (request_pubkey m.(rc2_remote_per_commitment_point));
  let '(offered_htlcs, received_htlcs) := extract_htlcs m.(rc2_htlcs) in
  funding_outpoint ← resolve_legacy_phase2_funding h.(ch_channel_id);
  r ← with_channel h.(ch_channel_id) (
        sign_counterparty_commitment_tx_phase2 validator set_iter persist funding_outpoint point m.(rc2_commitment_number)
          m.(rc2_feerate) m.(rc2_to_local_value_sat) m.(rc2_to_remote_value_sat) offered_htlcs received_htlcs);
  mret (SignCommitmentTxWithHtlcsReply r.1 r.2).

Definition sign_splice_tx_request (h : ChannelHandler) (tx : Transaction) (p : Psbt) (remote_funding_key : PubKey)
    (input_index : Z) : node_method Reply :=
  key ← call (request_pubkey remote_funding_key);
  let input_amount_sat := value <$> ((p.(inputs) !! Z.to_nat input_index) ≫= witness_utxo) in
  sig ← read_channel h.(ch_channel_id) (fun chan => sign_splice_tx chan tx (Z.to_nat input_index) key input_amount_sat);
  mret (SignTxReply (all_sig sig)).

(** The requests in the order of the source, in three groups. *)
Definition channel_commitment_request (h : ChannelHandler) (msg : Message) : node_method Reply :=
  let id := h.(ch_channel_id) in
  match msg with
  | M_ValidateCommitmentTx m => validate_commitment_tx_request h m
  | M_ValidateCommitmentTx2 m => validate_commitment_tx2_request h m
  | RevokeCommitmentTx commitment_number => revoke_commitment_tx_request h commitment_number
  | SignLocalCommitmentTx2 commitment_number =>
      sig ← with_channel id (sign_holder_commitment_tx_phase2 validator persist commitment_number);
      mret (SignCommitmentTxReply (all_sig sig))
  | ValidateRevocation revoke_num commitment_secret =>
      old_secret ← call (unwrap (secret_from_slice commitment_secret));
      with_channel id (chan_validate_counterparty_revocation validator persist revoke_num old_secret) ;;
      mret ValidateRevocationReply
  | SignPenaltyToUs revocation_secret sw => sign_penalty_to_us id revocation_secret sw 0
  | SignChannelAnnouncement announcement =>
      sigs ← sign_channel_announcement id announcement;
      mret (SignChannelAnnouncementReply sigs.1 sigs.2)
  | SignSpliceTx tx p key input_index => sign_splice_tx_request h tx p key input_index
  | _ => call Panic
  end.

Definition channel_sign_request (h : ChannelHandler) (msg : Message) : node_method Reply :=
  let id := h.(ch_channel_id) in
  self ← get_self;
  let wallet := node_wallet self in
  match msg with
  | SignRemoteHtlcTx sw point => sign_remote_htlc_tx_request h sw point
  | M_SignLocalHtlcTx2 m =>
      sig ← read_channel id (fun chan =>
              sign_holder_htlc_tx_phase2 chan m.(lh2_tx) (Z.to_nat m.(lh2_input)) m.(lh2_per_commitment_number)
                m.(lh2_offered) m.(lh2_cltv_expiry) m.(lh2_htlc_amount_msat) m.(lh2_payment_hash));
      mret (SignTxReply sig)
  | M_SignRemoteCommitmentTx m => sign_remote_commitment_tx_request h m
  | M_SignRemoteCommitmentTx2 m => sign_remote_commitment_tx2_request h m
  | SignDelayedPaymentToUs commitment_number sw => sign_delayed_payment_to_us id commitment_number sw 0
  | SignRemoteHtlcToUs point sw => sign_remote_htlc_to_us id point sw 0
  | SignLocalHtlcTx commitment_number sw => sign_local_htlc_tx id commitment_number sw 0
  | SignMutualCloseTx tx p =>
      opaths ← call (extract_psbt_output_paths p);
      sig ← with_channel id (sign_mutual_close_tx validator wallet persist tx opaths);
      mret (SignTxReply (all_sig sig))
  | M_SignMutualCloseTx2 m =>
      sig ← with_channel id (
              sign_mutual_close_tx_phase2 validator wallet persist m.(mc2_to_local_value_sat) m.(mc2_to_remote_value_sat)
                (to_script m.(mc2_local_script)) (to_script m.(mc2_remote_script)) m.(mc2_local_wallet_path_hint));
      mret (SignTxReply (all_sig sig))
  | _ => channel_commitment_request h msg
  end.

Definition channel_do_handle (h : ChannelHandler) (msg : Message) : node_method Reply :=
  let id := h.(ch_channel_id) in
  match msg with
  | Memleak => mret (MemleakReply false)
  | CheckFutureSecret commitment_number secret =>
      key ← call (ok_or invalid_argument (secret_from_slice secret));
      result ← read_channel id (fun _ => check_future_secret commitment_number key);
      mret (CheckFutureSecretReply result)
  | Ecdh point => pubkey ← call (request_pubkey point); mret (EcdhReply (ecdh pubkey))
  | GetPerCommitmentPoint commitment_number => per_commitment_point_request h commitment_number
  | GetPerCommitmentPoint2 commitment_number =>
      point ← with_channel_base id (stub_get_per_commitment_point commitment_number)
                (fun chan => get_per_commitment_point chan commitment_number);
      mret (GetPerCommitmentPoint2Reply point)
  | M_SetupChannel m => setup_channel_request h m
  | CheckOutpoint _ _ => mret (CheckOutpointReply true)
  | LockOutpoint funding_txid funding_txout =>
      confirm_funding_lock persist id (mkOutPoint funding_txid funding_txout) ;;
      mret LockOutpointReply
  | _ => channel_sign_request h msg
  end.

(** *** Blocks

    The tracker changes the monitors that its listeners refer to; they are put back
    where they are shared. *)
Definition store_listeners (n : node) (t : NodeTracker) : gmap OutPoint (nat * ListenSlot) :=
  map_imap (fun o '(r, slot) => Some (r, match t.(listeners) !! o with Some (_, slot') => slot' | None => slot end))
    n.(tracker).(listeners).

Definition store_monitors (n : node) (t : NodeTracker) : gmap nat ChainMonitor :=
  map_fold (fun o '(r, _) ms => match t.(listeners) !! o with Some (m, _) => alter (fun _ => m) r ms | None => ms end)
    n.(monitors) n.(tracker).(listeners).

Definition store_tracker (n : node) (t : NodeTracker) : node :=
  after_blocks n
    (mkChainTracker t.(headers) t.(tip) t.(tracker_height) t.(network) (store_listeners n t)
       t.(tracker_decode_state) t.(trusted_oracle_pubkeys) t.(allow_deep_reorgs))
    (store_monitors n t) n.(persister).

Definition on_tracker {B : Type} (m : method NodeTracker TrackerError B) : method node TrackerError B := fun n =>
  let '(t, o) := m (resolve_tracker n) in (store_tracker n t, o).

#[local] Instance node_listener : ChainListener ChainMonitor OutPoint := ChainMonitor_listener compute_txid.

(** A failure other than an orphan is a panic; an orphan is a reply. *)
Definition add_block_request (header : Octets) (unspent_proof : option TxoProof) : node_method Reply :=
  p ← call (ok_or invalid_argument unspent_proof);
  h ← call (unwrap (deserialize_block_header header));
  n ← get_self;
  let '(n', o) := on_tracker (add_block validator h p) n in
  set_self n' ;;
  match o with
  | Ok _ => persist_node_tracker Panic ;; mret AddBlockReply
  | Err OrphanBlock => mret (SignerError CODE_ORPHAN_BLOCK)
  | _ => call Panic
  end.

Definition remove_block_request (unspent_proof : option Octets) (prev_block_header : BlockHeader) (prev_filter_header : Z)
  : node_method Reply :=
  bytes ← call (ok_or invalid_argument unspent_proof);
  p ← call (unwrap (deserialize_proof bytes));
  n ← get_self;
  let '(n', o) := on_tracker (remove_block validator p (mkHeaders prev_block_header prev_filter_header)) n in
  set_self n' ;;
  match o with
  | Ok _ => persist_node_tracker Panic ;; mret RemoveBlockReply
  | _ => call Panic
  end.

Definition block_chunk_request (hash : BlockHash) (offset : Z) (content : Octets) : node_method Reply :=
  n ← get_self;
  let '(n', o) := on_tracker (block_chunk hash offset content) n in
  set_self n' ;;
  match o with
  | Ok _ => mret BlockChunkReply
  | _ => call Panic
  end.

(** *** Requests on the state of the node *)
Definition on_state {B : Type} (f : NodeState -> res Status (B * NodeState)) : node_method B :=
  self ← get_self;
  r ← call (f self.(node_state));
  set_self (with_node_state self r.2) ;;
  mret r.1.

(** [Fe32::try_from]. *)
Definition is_base32 (b : Z) : bool := (0 <=? b) && (b <? 32).

Definition sign_invoice_request (u5bytes hrp : Octets) : node_method Reply :=
  h ← call (unwrap (from_utf8 hrp));
  call (rassert (forallb is_base32 u5bytes)) ;;
  signed ← call (ok_or invalid_argument (signed_raw_invoice h u5bytes));
  sig ← on_state (fun st => sign_bolt11_invoice policy st signed);
  mret (SignInvoiceReply sig).

Definition sign_bolt12_invoice_request (now : Z) (invoice_bytes : Octets) : node_method Reply :=
  u ← call (ok_or invalid_argument (UnsignedBolt12_try_from invoice_bytes));
  sig ← on_state (fun st =>
          sign_bolt12_invoice validator policy timeless_workaround st u.(u_signing_pubkey) km_bolt12_pubkey
            u.(u_created_at) u.(u_relative_expiry) now u.(u_signed));
  mret (SignBolt12InvoiceReply sig).

(** [Node::add_allowlist] and [update_allowlist]. *)
Definition node_add_allowlist (adds : list string) : node_method unit :=
  self ← get_self;
  let net := self.(node_config).(config_network) in
  let '(st, o) := add_allowlist (fun s => allowable_from_str s net) (fun _ => Ok tt) self.(node_state) adds in
  set_self (with_node_state self st) ;;
  call o ;;
  persist_or (Err internal_error)
    (p_update_node_allowlist self.(node_id) (allowable_to_string <$> elements st.(allowlist))).

Definition tweak (t : Octets) : option Octets := if bool_decide (t = []) then None else Some t.

(** A mutual close is sent as a commitment with the lock time 0. *)
Definition sign_commitment_tx_request (channel : ChannelId) (tx : Transaction) (p : Psbt) (commitment_number : Z)
  : node_method Reply :=
  self ← get_self;
  sig ← (if tx.(lock_time) =? 0 then
           opaths ← call (extract_psbt_output_paths p);
           with_channel channel (sign_mutual_close_tx validator (node_wallet self) persist tx opaths)
         else with_channel channel (sign_holder_commitment_tx_phase2 validator persist commitment_number));
  mret (SignCommitmentTxReply (all_sig sig)).

(** The persisted entry is compared with the one that the node sends. *)
Definition check_channel_state_sync (equal : ChannelEntry -> ChannelEntry -> bool) (json : Octets) : node_method Reply :=
  text ← call (ok_or invalid_argument (from_utf8 json));
  entry ← call (ok_or invalid_argument (channel_entry_from_json text));
  channel_id ← call (ok_or invalid_argument entry.(entry_id));
  self ← get_self;
  signer_entry ← call (match p_get_channel self.(persister) self.(node_id) channel_id with
                       | Ok e => Ok e
                       | Err NotFound => Err invalid_argument
                       | Err _ => Err internal_error
                       | Panic => Panic
                       end);
  mret (if equal signer_entry entry then CheckChannelStateSyncReply true None
        else CheckChannelStateSyncReply false (Some signer_entry)).

(** *** [RootHandler] *)
Record RootHandler := mkRootHandler { rh_protocol_version : Z }.

Definition channel_of (c : ChannelRef) : ChannelId := new_from_peer_id_and_oid c.(cr_peer_id) c.(cr_dbid).

Definition for_new_client (self : RootHandler) (peer_id : PubKey) (dbid : Z) : ChannelHandler :=
  mkChannelHandler self.(rh_protocol_version) dbid (new_from_peer_id_and_oid peer_id dbid).

Abbreviation root_method B := (method (A * node) Status B) (only parsing).

(** The anchor input is found by the script of the channel's anchor. *)
Definition sign_anchorspend (now : Z) (channel : ChannelId) (utxos : list Utxo) (streamed : StreamedPSBT)
  : root_method Reply :=
  streamed ← sign_withdrawal (I:=I) validator compute_txid now streamed utxos;
  redeemscript ← on_node (read_channel channel (fun _ => Ok (keyed_anchor_redeemscript holder_pubkeys.(funding_pubkey))));
  let p := streamed.(psbt) in
  let is_anchor i :=
    match i.(witness_utxo) with Some o => o.(script_pubkey) =? to_p2wsh redeemscript | None => false end in
  found ← call (ok_or invalid_argument (list_find (fun i => is_anchor i = true) p.(inputs)));
  let '(anchor_index, anchor_input) := found in
  sig ← on_node (read_channel channel (fun chan =>
          ok_or internal_error (sign_keyed_anchor_input chan.(setup) p.(unsigned_tx) anchor_index)));
  let witness := [WitnessSignature sig; WitnessScript redeemscript] in
  mret (SignAnchorspendReply
    (mkPsbt p.(unsigned_tx) (<[anchor_index := with_script_witness anchor_input (Some witness)]> p.(inputs)) p.(outputs))).

(** The requests in the order of the source, in three groups. *)
Definition root_sweep_request (equal : ChannelEntry -> ChannelEntry -> bool) (clocks : Clocks) (msg : Message)
  : root_method Reply :=
  '(_, self) ← get_self;
  match msg with
  | SignAnyDelayedPaymentToUs channel commitment_number sw input =>
      on_node (sign_delayed_payment_to_us (channel_of channel) commitment_number sw input)
  | SignAnyRemoteHtlcToUs channel point sw input => on_node (sign_remote_htlc_to_us (channel_of channel) point sw input)
  | SignAnyPenaltyToUs channel secret sw input => on_node (sign_penalty_to_us (channel_of channel) secret sw input)
  | SignAnyLocalHtlcTx channel commitment_number sw input =>
      on_node (sign_local_htlc_tx (channel_of channel) commitment_number sw input)
  | SignAnyChannelAnnouncement channel announcement =>
      sigs ← on_node (sign_channel_announcement (channel_of channel) announcement);
      mret (SignAnyChannelAnnouncementReply sigs.1 sigs.2)
  | SignAnchorspend channel utxos streamed => sign_anchorspend clocks.(clock1) (channel_of channel) utxos streamed
  | GetSecureRandomBytes => mret (GetSecureRandomBytesReply secure_random_bytes)
  | CheckChannelStateSync json => on_node (check_channel_state_sync equal json)
  | HsmdDevPreinit2 _ => if developer then mret (HsmdDevPreinitReply self.(node_id)) else call Panic
  | _ => call Panic
  end.

Definition root_chain_request (equal : ChannelEntry -> ChannelEntry -> bool) (clocks : Clocks) (msg : Message)
  : root_method Reply :=
  '(_, self) ← get_self;
  match msg with
  | SignCommitmentTx channel tx p commitment_number =>
      on_node (sign_commitment_tx_request (channel_of channel) tx p commitment_number)
  | TipInfo => mret (TipInfoReply self.(tracker).(tracker_height) (header_hash self.(tracker).(tip).(block_header)))
  | ForwardWatches =>
      let '(txids, outpoints) := get_all_forward_watches (resolve_tracker self) in
      mret (ForwardWatchesReply (elements txids) (elements outpoints))
  | ReverseWatches =>
      let '(txids, outpoints) := get_all_reverse_watches (resolve_tracker self) in
      mret (ReverseWatchesReply (elements txids) (elements outpoints))
  | AddBlock header unspent_proof => on_node (add_block_request header unspent_proof)
  | RemoveBlock unspent_proof header filter_header => on_node (remove_block_request unspent_proof header filter_header)
  | BlockChunk hash offset content => on_node (block_chunk_request hash offset content)
  | GetHeartbeat => tip ← on_node (heartbeat timeless_workaround clocks.(clock1)); mret (GetHeartbeatReply tip)
  | NodeInfo => mret (NodeInfoReply (network_to_string self.(node_config).(config_network)) self.(node_id))
  | SignNodeAnnouncement announcement =>
      message ← call (slice_from (64 + 2) announcement);
      mret (SignNodeAnnouncementReply (sign_gossip message))
  | SignChannelUpdate update =>
      message ← call (slice_from (2 + 64) update);
      mret (SignChannelUpdateReply (take 2 update ++ compact_signature (sign_gossip message) ++ message))
  | SignGossipMessage message => mret (SignGossipMessageReply (sign_gossip message))
  | CheckPubKey index pubkey =>
      key ← call (ok_or invalid_argument (PublicKey_from_slice pubkey));
      ok ← call (check_wallet_pubkey (node_wallet self) [index] key);
      mret (CheckPubKeyReply ok)
  | _ => root_sweep_request equal clocks msg
  end.

Definition root_do_handle (equal : ChannelEntry -> ChannelEntry -> bool) (clocks : Clocks) (msg : Message)
  : root_method Reply :=
  match msg with
  | Ping id _ => mret (Pong id)
  | Memleak => mret (MemleakReply false)
  | SignBolt12 message_name field_name merkle_root public_tweak =>
      sig ← call (ok_or internal_error (km_sign_bolt12 message_name field_name merkle_root (tweak public_tweak)));
      mret (SignBolt12Reply sig)
  | SignBolt12V2 message_name field_name merkle_root info public_tweak =>
      sig ← call (ok_or internal_error (km_sign_bolt12_2 message_name field_name merkle_root info (tweak public_tweak)));
      mret (SignBolt12V2Reply sig)
  | PreapproveInvoice invstring =>
      text ← call (ok_or invalid_argument (from_utf8 invstring));
      invoice ← call (ok_or invalid_argument (Invoice_from_str text));
      result ← handle_proposed_invoice validator policy timeless_workaround clocks.(approver_secs) clocks.(clock1) invoice;
      mret (PreapproveInvoiceReply result)
  | PreapproveKeysend destination payment_hash amount_msat =>
      payee ← call (request_pubkey destination);
      result ← handle_proposed_keysend (I:=I) policy clocks.(approver_secs) clocks.(clock1) clocks.(clock2)
                 clocks.(clock3) payee payment_hash amount_msat;
      mret (PreapproveKeysendReply result)
  | DeriveSecret info => mret (DeriveSecretReply (km_derive_secret info))
  | SignMessage message => mret (SignMessageReply (sign_recoverable (message_tag ++ message)))
  | Ecdh point => pubkey ← call (request_pubkey point); mret (EcdhReply (ecdh pubkey))
  | NewChannel peer_id dbid => on_node (node_new_channel validator dbid peer_id) ;; mret NewChannelReply
  | ForgetChannel node_id dbid =>
      on_node (node_forget_channel (new_from_peer_id_and_oid node_id dbid)) ;; mret ForgetChannelReply
  | GetChannelBasepoints node_id dbid =>
      keys ← on_node (with_channel_base (new_from_peer_id_and_oid node_id dbid) (Ok holder_pubkeys) (fun _ => Ok holder_pubkeys));
      mret (GetChannelBasepointsReply keys)
  | SignWithdrawal utxos streamed =>
      signed ← sign_withdrawal (I:=I) validator compute_txid clocks.(clock1) streamed utxos;
      mret (SignWithdrawalReply signed.(psbt))
  | SignHtlcTxMingle utxos streamed =>
      signed ← sign_withdrawal (I:=I) validator compute_txid clocks.(clock1) streamed utxos;
      mret (SignHtlcTxMingleReply signed.(psbt))
  | SignInvoice u5bytes hrp => on_node (sign_invoice_request u5bytes hrp)
  | SignBolt12Invoice invoice_bytes => on_node (sign_bolt12_invoice_request clocks.(clock1) invoice_bytes)
  | _ => root_chain_request equal clocks msg
  end.

(** *** [InitHandler] *)
Record InitHandler := mkInitHandler { max_protocol_version : Z; init_protocol_version : option Z }.

Definition with_version (h : InitHandler) (v : option Z) : InitHandler := mkInitHandler h.(max_protocol_version) v.

(** The message types of the capabilities. *)
Definition hsm_capabilities (mutual_version : Z) : list Z :=
  [28; 142; 147; 149; 29; 32; 34] ++ (if PROTOCOL_VERSION_REVOKE <=? mutual_version then [40] else []).

Abbreviation init_method B := (method (InitHandler * node) HandlerError B) (only parsing).

Definition on_init_node {B : Type} (m : node_method B) : init_method B := fun '(h, n) =>
  let '(n', r) := m n in ((h, n'), map_err HandlerError_from r).

Definition set_version (v : option Z) : init_method unit := fun '(h, n) => ((with_version h v, n), Ok tt).

Definition utf8_list {E : Type} (l : list Octets) : res E (list string) := map_res (fun s => unwrap (from_utf8 s)) l.

Definition hsmd_init (m : HsmdInit) : init_method (bool * option Reply) :=
  '(h, n) ← get_self;
  call (when (negb developer && m.(has_developer_fields)) (Err (Protocol DeveloperField))) ;;
  call (rassert (m.(hsm_wire_min_version) <=? h.(max_protocol_version))) ;;
  call (rassert (MIN_PROTOCOL_VERSION <=? m.(hsm_wire_max_version))) ;;
  let mutual_version := Z.min h.(max_protocol_version) m.(hsm_wire_max_version) in
  set_version (Some mutual_version) ;;
  mret (true, Some (if mutual_version <? 4 then HsmdInitReplyV2 n.(node_id)
                    else HsmdInitReplyV4 mutual_version (hsm_capabilities mutual_version) n.(node_id))).

Definition init_do_handle (msg : Message) : init_method (bool * option Reply) :=
  '(h, n) ← get_self;
  match msg with
  | Ping id _ => mret (false, Some (Pong id))
  | HsmdDevPreinit allowlist =>
      if developer then
        l ← call (utf8_list allowlist);
        on_init_node (node_add_allowlist l) ;;
        set_version None ;;
        mret (false, Some (HsmdDevPreinitReply n.(node_id)))
      else call Panic
  | HsmdDevPreinit2 allowlist =>
      if developer then
        call (rassert (match n.(node_config).(config_network) with Bitcoin => false | _ => true end)) ;;
        l ← call (utf8_list (default [] allowlist));
        on_init_node (node_add_allowlist l) ;;
        set_version None ;;
        mret (false, None)
      else call Panic
  | M_HsmdInit m => hsmd_init m
  | HsmdInit2 has_dev_seed dev_allowlist =>
      (if developer then l ← call (utf8_list dev_allowlist); on_init_node (node_add_allowlist l)
       else call (when (negb (bool_decide (dev_allowlist = [])) || has_dev_seed) (Err (Protocol DeveloperField)))) ;;
      set_version (Some 4) ;;
      mret (true, Some (HsmdInit2Reply n.(node_id)))
  | _ => call Panic
  end.

Definition init_handle (msg : Message) : init_method (bool * option Reply) :=
  '(h, _) ← get_self;
  call (rassert (bool_decide (h.(init_protocol_version) = None))) ;;
  init_do_handle msg.

(** [impl Into<RootHandler>]. *)
Definition into_root {E : Type} (h : InitHandler) : res E RootHandler :=
  v ← unwrap h.(init_protocol_version);
  Ok (mkRootHandler v).

(** *** Transactions around an operation: [Handler::with_persist] and [commit] *)
Definition lift_error {E' : Type} (e : E') (m : method P Error unit) : method node E' unit := fun n =>
  let '(p, r) := m n.(persister) in (with_persister n p, map_err (fun _ => e) r).

Definition with_persist (f : method node HandlerError unit) : method node HandlerError Mutations := fun n =>
  let '(n, entered) := lift_error (HandlerError_from internal_error) p_enter n in
  match entered with
  | Ok _ =>
      let '(n, result) := f n in
      match result with
      | Panic => (n, Panic)
      | _ =>
          let '(p, prepared) := p_prepare n.(persister) in
          let n := with_persister n p in
          match prepared, result with
          | Ok muts, Ok _ => (n, Ok muts)
          | Ok muts, Err e => (n, if bool_decide (muts = []) then Err e else Panic)
          | _, _ => (n, Panic)
          end
      end
  | Err e => (n, Err e)
  | Panic => (n, Panic)
  end.

Definition handler_commit : method node HandlerError unit := fun n =>
  let '(p, r) := p_commit n.(persister) in
  (with_persister n p, match r with Ok _ => Ok tt | _ => Panic end).

(** *** Starting the signer: [Node::new] and [HandlerBuilder::build]

    The genesis blocks and the checkpoints are constants of other packages and of
    the source; [derived_id] is the id of the node that the seed gives. *)
Context (genesis_header : Network -> BlockHeader) (get_latest_checkpoint : Network -> option (Z * Headers)).

Definition from_checkpoint (network : Network) (tip : Headers) (height : Z) (oracles : list PublicKey) : res Status RefTracker :=
  match ChainTracker_new network height tip oracles with Ok t => Ok t | _ => Panic end.

Definition from_genesis (network : Network) (oracles : list PublicKey) : res Status RefTracker :=
  from_checkpoint network (mkHeaders (genesis_header network) 0) 0 oracles.

Definition for_network (network : Network) (oracles : list PublicKey) : res Status RefTracker :=
  match get_latest_checkpoint network with
  | Some (height, tip) => from_checkpoint network tip height oracles
  | None => from_genesis network oracles
  end.

Definition Node_new (config : NodeConfig) (derived_id : PublicKey) (allowlist : list Allowable)
    (oracles : list PublicKey) (p : P) : res Status node :=
  global ← Velocity.new (Policy_global_velocity_control validator);
  fee ← Velocity.new (Policy_fee_velocity_control validator);
  t ← (if config.(config_use_checkpoints) then for_network config.(config_network) oracles
       else from_genesis config.(config_network) oracles);
  new_full validator config derived_id (NodeState_new global fee allowlist)
    (set_allow_deep_reorgs t config.(config_allow_deep_reorgs)) p.

(** The node is built in memory before it is persisted. *)
Definition persist_new_node (allowlist : list string) : node_method unit := fun n =>
  match node_add_allowlist allowlist n with
  | (n, Ok _) =>
      (persist_or Panic (p_new_node n.(node_id) n.(node_config) n.(node_state)) ;;
       persist_or Panic (p_new_tracker n.(node_id) (resolve_tracker n))) n
  | (n, _) => (n, Panic)
  end.

Definition handler_build (network : Network) (derived_id : PublicKey) (oracles : list PublicKey)
    (allowlist : list string) (max_version : Z) (p : P) : res HandlerError (InitHandler * node) :=
  let config := NodeConfig_new network in
  nodes ← map_err HandlerError_from (expect_persisted (p_get_nodes p));
  n ← map_err HandlerError_from
        (match nodes with
         | [] =>
             n ← Node_new config derived_id [] oracles p;
             let '(n, r) := persist_new_node allowlist n in r ;; Ok n
         | [(id, entry)] =>
             restore_node validator set_iter allowable_to_string get_latest_checkpoint derived_id oracles id entry p
         | _ => Panic
         end);
  Ok (mkInitHandler max_version None, n).

(** *** One request, to the root handler or to the handler of a channel *)
Definition root_handle (equal : ChannelEntry -> ChannelEntry -> bool) (clocks : Clocks) (msg : Message)
  : method (A * node) HandlerError Reply := fun s =>
  let '(s, r) := root_do_handle equal clocks msg s in (s, map_err HandlerError_from r).

Definition channel_handle (h : ChannelHandler) (msg : Message) : method node HandlerError Reply := fun n =>
  let '(n, r) := channel_do_handle h msg n in (n, map_err HandlerError_from r).
End Handlers.
