(* ===== verification/HandlerSafety.v ===== *)
(** * Properties of the protocol handlers

    Every request, whatever its outcome, is a sequence of the calls of [NodeChannels],
    so that what holds along these calls holds along the requests of a connection;
    the request of one channel leaves the others as they are; the versions of the
    protocol decide who discloses a secret; a withdrawal is signed only after the
    policy or the approver allowed it. *)
From S2P Require Import Prelude Velocity Policy Ordered CommitInfo Types Bitcoin Script Secrets Enforcement SimpleValidator Validator NodeState NodeSafety Channel ChannelSafety TxValidator TxSafety ChannelTx ChannelTxSafety Monitor Tracker ChainSafety TrackerSafety BTree Kvv Persister PersisterSafety Node NodeChannels NodeRestore Approver Wire Messages Withdrawal Handler.

(** ** Requests are sequences of calls *)
Section Runs.
Context {N : Type} (R : N -> N -> Prop) {S E : Type} (view : S -> N).

(** From [s], [m] does calls of [R] on what [view] sees. *)
Definition runs {B : Type} (m : method S E B) (s : S) : Prop := rtc R (view s) (view (m s).1).

Lemma runs_bind {B C : Type} (m : method S E B) (f : B -> method S E C) s :
  runs m s -> (forall b s', m s = (s', Ok b) -> runs (f b) s') -> runs (m ≫= f) s.
Proof.
  unfold runs, mbind, method_bind. intros Hm Hf. destruct (m s) as [s' [b|e|]] eqn:Hs; [|done..].
  etrans; [exact Hm|]. by apply Hf.
Qed.

Lemma runs_get {C : Type} (f : S -> method S E C) s : runs (f s) s -> runs (get_self ≫= f) s.
Proof. done. Qed.

Lemma runs_call {B C : Type} (r : res E B) (f : B -> method S E C) s :
  (forall b, r = Ok b -> runs (f b) s) -> runs (call r ≫= f) s.
Proof. intros Hf. apply runs_bind; [apply rtc_refl|]. intros b s' [= <- ->]. by apply Hf. Qed.

Lemma runs_last_call {B : Type} (r : res E B) s : runs (call r) s.
Proof. apply rtc_refl. Qed.

Lemma runs_ret {B : Type} (b : B) s : runs (mret b) s.
Proof. apply rtc_refl. Qed.
End Runs.

(** One step of a request; [calls] is tried on a call of the node. *)
Ltac runs_step calls :=
  cbv beta iota zeta;
  lazymatch goal with
  | |- runs _ _ (get_self ≫= _) _ => apply runs_get
  | |- runs _ _ (call _ ≫= _) _ => apply runs_call; intros ? ?
  | |- runs _ _ (mret _) _ => apply runs_ret
  | |- runs _ _ (call _) _ => apply runs_last_call
  | |- runs _ _ (match ?x with _ => _ end ≫= _) _ => destruct x eqn:?
  | |- runs _ _ (match ?x with _ => _ end) _ => destruct x eqn:?
  | |- runs _ _ (_ ≫= _) _ => apply runs_bind; [try solve [calls]|intros ? ? ?]
  | |- runs _ _ _ _ => solve [calls]
  end.

(** *** Requests of a channel

    [R] is any relation that the calls on the channel are in. *)
Ltac channel_call_of :=
  lazymatch goal with
  | |- channel_call _ _ _ _ _ _ (fst (sign_counterparty_commitment_tx_phase2 _ _ _ _ _ _ _ _ _ _ _ _)) =>
      eapply call_sign_counterparty, surjective_pairing
  | |- channel_call _ _ _ _ _ _ (fst (sign_counterparty_commitment_tx _ _ _ _ _ _ _ _ _ _ _)) =>
      eapply call_sign_counterparty_tx, surjective_pairing
  | |- channel_call _ _ _ _ _ _ (fst (validate_holder_commitment_tx_phase2 _ _ _ _ _ _ _ _ _ _ _ _ _)) =>
      eapply call_validate_holder, surjective_pairing
  | |- channel_call _ _ _ _ _ _ (fst (validate_holder_commitment_tx _ _ _ _ _ _ _ _ _ _ _ _)) =>
      eapply call_validate_holder_tx, surjective_pairing
  | |- channel_call _ _ _ _ _ _ (fst (chan_validate_counterparty_revocation _ _ _ _ _)) =>
      eapply call_revocation, surjective_pairing
  | |- channel_call _ _ _ _ _ _ (fst (revoke_previous_holder_commitment _ _ _ _ _)) =>
      eapply call_revoke, surjective_pairing
  | |- channel_call _ _ _ _ _ _ (fst (activate_initial_commitment _ _)) =>
      eapply call_activate, surjective_pairing
  | |- channel_call _ _ _ _ _ _ (fst (sign_holder_commitment_tx_phase2 _ _ _ _)) =>
      eapply call_sign_holder, surjective_pairing
  | |- channel_call _ _ _ _ _ _ (fst (sign_mutual_close_tx _ _ _ _ _ _)) =>
      eapply call_mutual_close, surjective_pairing
  | |- channel_call _ _ _ _ _ _ (fst (sign_mutual_close_tx_phase2 _ _ _ _ _ _ _ _ _)) =>
      eapply call_mutual_close_values, surjective_pairing
  end.

Section ChannelRequests.
Context `{Profile} `{BitcoinLib} `{LightningLib} `{SpendScripts} `{ChainPackages} `{CommitmentPointProvider} `{WalletKeys}.
Context `{Signer} `{TransactionSigner} `{InputSigner} `{KeysManager} `{Encodings}.
Context {P : Type} `{!Persist P} {V : Type} `{HV : Validator V} `{TransactionValidator V NodeWallet}.
Context {PO : Type} `{HPO : Policy PO} {I A : Type} `{HI : InvoiceAttributes I} `{!Approve I A} `{HC : !RequestCodec I}.
Context (validator : V) (policy : PO) (compute_txid : Transaction -> Txid) (set_iter : gset Z -> list Z).
Context (hash_preimage : Z -> Z).
Context (persist : Channel -> res Status unit) (allowable_to_string : Allowable -> string).
Context (timeless_workaround developer : bool).

Abbreviation node := (Node (P:=P)) (only parsing).
Abbreviation chan_steps w := (channel_call validator w set_iter hash_preimage persist) (only parsing).
Abbreviation chan_runs w := (runs (channel_call validator w set_iter hash_preimage persist) (fun s : Channel * NodeState => s)) (only parsing).

Lemma runs_after_validation (w : NodeWallet) version commit_num s :
  chan_runs w (after_validation validator set_iter persist version commit_num) s.
Proof. unfold after_validation. repeat runs_step ltac:(idtac; apply rtc_once; channel_call_of). Qed.

Context (R : node -> node -> Prop) (id : ChannelId).
Abbreviation node_runs := (runs R (fun n : node => n)) (only parsing).

Context (Hchannel : forall (B : Type) (f : method (Channel * NodeState) Status B) n,
  (forall s, rtc (chan_steps (node_wallet n)) s (f s).1) -> node_runs (with_channel id f) n).
Context (Hsetup : forall new_setup n, node_runs (setup_channel validator id None new_setup []) n).
Context (Hlock : forall outpoint n, node_runs (confirm_funding_lock persist id outpoint) n).

Lemma runs_one_channel_call {B : Type} (f : method (Channel * NodeState) Status B) (n : node) :
  (forall s, chan_steps (node_wallet n) s (f s).1) -> node_runs (with_channel id f) n.
Proof. intros Hf. apply Hchannel. intros s. by apply rtc_once. Qed.

Lemma runs_validated {B : Type} (f : method (Channel * NodeState) Status B) version commit_num (n : node) :
  (forall s, chan_steps (node_wallet n) s (f s).1) ->
  node_runs (with_channel id (f ≫= fun _ => after_validation validator set_iter persist version commit_num)) n.
Proof.
  intros Hf. apply Hchannel. intros s. apply (runs_bind _ (fun s : Channel * NodeState => s)); [by apply rtc_once|].
  intros b s' _. apply runs_after_validation.
Qed.

Lemma runs_read {B : Type} (f : Channel -> res Status B) (n : node) : node_runs (read_channel id f) n.
Proof. apply Hchannel. intros [c st]. apply rtc_refl. Qed.

Lemma runs_base {B : Type} (r : res Status B) (f : Channel -> res Status B) (n : node) :
  node_runs (with_channel_base id r f) n.
Proof. unfold with_channel_base. repeat runs_step fail. Qed.

Ltac channel_requests :=
  repeat runs_step ltac:(idtac; lazymatch goal with
  | |- runs _ _ (read_channel _ _) _ => apply runs_read
  | |- runs _ _ (with_channel_base _ _ _) _ => apply runs_base
  | |- runs _ _ (resolve_legacy_phase2_funding _) _ => apply runs_read
  | |- runs _ _ (setup_channel _ _ _ _ _) _ => apply Hsetup
  | |- runs _ _ (confirm_funding_lock _ _ _) _ => apply Hlock
  | |- runs _ _ (with_channel _ (_ ≫= _)) _ => apply runs_validated; intros ?; channel_call_of
  | |- runs _ _ (with_channel _ _) _ => apply runs_one_channel_call; intros ?; channel_call_of
  end).

(** The requests that the root handler takes as well. *)
Lemma delayed_sweep_runs num sw inp (n : node) : node_runs (sign_delayed_payment_to_us validator id num sw inp) n.
Proof. unfold sign_delayed_payment_to_us. channel_requests. Qed.

Lemma remote_htlc_sweep_runs point sw inp (n : node) : node_runs (sign_remote_htlc_to_us validator id point sw inp) n.
Proof. unfold sign_remote_htlc_to_us. channel_requests. Qed.

Lemma local_htlc_runs num sw inp (n : node) : node_runs (sign_local_htlc_tx validator id num sw inp) n.
Proof. unfold sign_local_htlc_tx. channel_requests. Qed.

Lemma penalty_sweep_runs secret sw inp (n : node) : node_runs (sign_penalty_to_us validator id secret sw inp) n.
Proof. unfold sign_penalty_to_us. channel_requests. Qed.

Lemma announcement_runs announcement (n : node) : node_runs (sign_channel_announcement id announcement) n.
Proof. unfold sign_channel_announcement. channel_requests. Qed.

Lemma channel_request_runs version dbid msg (n : node) :
  node_runs (channel_do_handle validator set_iter persist (mkChannelHandler version dbid id) msg) n.
Proof.
  unfold channel_do_handle, channel_sign_request, channel_commitment_request. cbv beta zeta.
  destruct msg; cbv iota; cbn [ch_channel_id]; try (apply runs_get; cbv beta).
  all: try solve [channel_requests].
  - unfold sign_splice_tx_request. channel_requests.
  - unfold per_commitment_point_request. channel_requests.
  - unfold setup_channel_request. channel_requests.
  - unfold sign_remote_htlc_tx_request. channel_requests.
  - unfold sign_remote_commitment_tx_request. channel_requests.
  - unfold sign_remote_commitment_tx2_request. channel_requests.
  - apply delayed_sweep_runs.
  - apply remote_htlc_sweep_runs.
  - apply local_htlc_runs.
  - apply penalty_sweep_runs.
  - unfold validate_commitment_tx_request. channel_requests.
  - unfold validate_commitment_tx2_request. channel_requests.
  - unfold revoke_commitment_tx_request. channel_requests.
  - apply runs_bind; [apply announcement_runs|]. intros ? ? ?. channel_requests.
Qed.
End ChannelRequests.

(** *** Requests of the node *)
Section NodeRequests.
Context `{Profile} `{BitcoinLib} `{LightningLib} `{SpendScripts} `{ChainPackages} `{CommitmentPointProvider} `{WalletKeys}.
Context `{Signer} `{TransactionSigner} `{InputSigner} `{KeysManager} `{Encodings}.
Context {P : Type} `{!Persist P} {V : Type} `{HV : Validator V} `{TransactionValidator V NodeWallet}.
Context {PO : Type} `{HPO : Policy PO} {I A : Type} `{HI : InvoiceAttributes I} `{!Approve I A} `{HC : !RequestCodec I}.
Context (validator : V) (policy : PO) (compute_txid : Transaction -> Txid) (set_iter : gset Z -> list Z).
Context (hash_preimage : Z -> Z).
Context (persist : Channel -> res Status unit) (allowable_to_string : Allowable -> string).
Context (timeless_workaround developer : bool).

Abbreviation node := (Node (P:=P)) (only parsing).
Abbreviation steps := (node_call (P:=P) (I:=I) policy validator compute_txid set_iter hash_preimage) (only parsing).
Abbreviation node_runs := (runs (node_call (P:=P) (I:=I) policy validator compute_txid set_iter hash_preimage) (fun n : node => n)) (only parsing).
Abbreviation root_runs := (runs (node_call (P:=P) (I:=I) policy validator compute_txid set_iter hash_preimage) (@snd A node)) (only parsing).

Lemma with_persister_same (n : node) : with_persister n n.(persister) = n.
Proof. by destruct n. Qed.

Lemma persister_step (n : node) p : steps n (with_persister n p).
Proof. by apply (node_call_blocks _ _ _ _ _ n _ n.(tracker) n.(monitors) p). Qed.

Lemma runs_channel {B : Type} id (f : method (Channel * NodeState) Status B) (n : node) :
  (forall s, rtc (channel_call validator (node_wallet n) set_iter hash_preimage persist) s (f s).1) ->
  node_runs (with_channel id f) n.
Proof.
  intros Hf. unfold runs. destruct (with_channel id f n) as [n' o] eqn:Hrun. apply rtc_once.
  eapply node_call_channel; [exact Hf|exact Hrun|by rewrite with_persister_same].
Qed.

Lemma runs_setup id0 id new_setup path n : node_runs (setup_channel validator id0 id new_setup path) n.
Proof. apply rtc_once. eapply node_call_setup, surjective_pairing. Qed.

Lemma runs_lock id outpoint n : node_runs (confirm_funding_lock persist id outpoint) n.
Proof. apply rtc_once. eapply node_call_lock; [apply surjective_pairing|by rewrite with_persister_same]. Qed.

Lemma runs_new dbid peer n : node_runs (node_new_channel validator dbid peer) n.
Proof. apply rtc_once. eapply node_call_new, surjective_pairing. Qed.

Lemma runs_forget id n : node_runs (node_forget_channel id) n.
Proof. apply rtc_once. eapply node_call_forget, surjective_pairing. Qed.

Lemma runs_heartbeat tw now n : node_runs (heartbeat tw now) n.
Proof. apply rtc_once. eapply node_call_heartbeat, surjective_pairing. Qed.

Lemma runs_sign_onchain {B : Type} (signed : res Status B) tx n :
  node_runs (unchecked_sign_onchain_tx compute_txid signed tx) n.
Proof. apply rtc_once. eapply node_call_sign_onchain, surjective_pairing. Qed.

(** The methods of the persister change nothing else. *)
Lemma runs_persist {B : Type} on_err (m : method P Error B) n : node_runs (persist_or on_err m) n.
Proof. unfold runs, persist_or. destruct (m n.(persister)) as [p r]. apply rtc_once, persister_step. Qed.

Lemma runs_persist_tracker on_err n : node_runs (persist_node_tracker on_err) n.
Proof. unfold persist_node_tracker. apply runs_get, runs_persist. Qed.

(** A change of the state, when it is one of the calls. *)
Lemma runs_set_state {B : Type} st (f : unit -> method node Status B) n :
  state_call validator (I:=I) policy n.(node_state) st ->
  node_runs (f tt) (with_node_state n st) -> node_runs (set_self (with_node_state n st) ≫= f) n.
Proof.
  intros Hst Hf. unfold runs in *. etrans; [apply rtc_once|exact Hf].
  eapply node_call_state; [exact Hst|]. by destruct n.
Qed.

Lemma runs_on_state {B : Type} (f : NodeState -> res Status (B * NodeState)) n :
  (forall st b st', f st = Ok (b, st') -> state_call validator (I:=I) policy st st') -> node_runs (on_state f) n.
Proof.
  intros Hf. unfold on_state. do 2 runs_step fail. apply runs_set_state; [|apply runs_ret].
  destruct b as [b st']. by eapply Hf.
Qed.

Lemma add_payment_runs hash (f : NodeState -> res Status (bool * NodeState)) n :
  (forall st b st', f st = Ok (b, st') -> state_call validator (I:=I) policy st st') ->
  node_runs (node_add_payment hash f) n.
Proof.
  intros Hf. unfold node_add_payment. do 2 runs_step fail. apply runs_set_state.
  - destruct b as [b st']. by eapply Hf.
  - repeat runs_step ltac:(idtac; apply runs_persist).
Qed.

Lemma add_allowlist_runs adds n : node_runs (node_add_allowlist allowable_to_string adds) n.
Proof.
  unfold node_add_allowlist. runs_step fail. cbv zeta. destruct (add_allowlist _ _ _ _) as [st o] eqn:Hadd.
  apply runs_set_state; [by eapply call_add_allowlist|]. repeat runs_step ltac:(idtac; apply runs_persist).
Qed.

(** Blocks change only what the listeners refer to. *)
Lemma store_listeners_refs (n : node) t : fst <$> store_listeners n t = fst <$> n.(tracker).(listeners).
Proof.
  apply map_eq. intros o. unfold store_listeners. rewrite !lookup_fmap, map_lookup_imap.
  by destruct (listeners (tracker n) !! o) as [[r slot]|].
Qed.

Lemma store_monitors_dom (n : node) t : dom (store_monitors n t) = dom n.(monitors).
Proof.
  unfold store_monitors. apply (map_fold_weak_ind (fun ms _ => dom ms = dom n.(monitors))); [done|].
  intros o [r slot] m ms _ IH. destruct (_ !! o) as [[mon ?]|]; [|done]. by rewrite dom_alter_L.
Qed.

Lemma tracker_step (n : node) t : steps n (store_tracker n t).
Proof.
  unfold store_tracker. eapply node_call_blocks; [| |reflexivity]; [apply store_listeners_refs|apply store_monitors_dom].
Qed.

Lemma runs_tracker {B : Type} (t : NodeTracker) (f : unit -> method node Status B) n :
  (forall n', node_runs (f tt) n') -> node_runs (set_self (store_tracker n t) ≫= f) n.
Proof. intros Hf. unfold runs in *. etrans; [apply rtc_once, tracker_step|apply Hf]. Qed.

Lemma on_tracker_store {B : Type} (m : method NodeTracker TrackerError B) (n n' : node) o :
  on_tracker m n = (n', o) -> exists t, n' = store_tracker n t.
Proof. unfold on_tracker. destruct (m _) as [t r]. intros [= <- <-]. by exists t. Qed.

Ltac tracker_request :=
  match goal with |- context [on_tracker ?m ?n] =>
    let n' := fresh in let o := fresh in let Ht := fresh in
    destruct (on_tracker m n) as [n' o] eqn:Ht; apply on_tracker_store in Ht as [? ->]
  end; apply runs_tracker; intros ?; repeat runs_step ltac:(idtac; apply runs_persist_tracker).

Lemma add_block_runs header p n : node_runs (add_block_request validator compute_txid header p) n.
Proof. unfold add_block_request. do 3 runs_step fail. tracker_request. Qed.

Lemma remove_block_runs p header filter n : node_runs (remove_block_request validator compute_txid p header filter) n.
Proof. unfold remove_block_request. do 3 runs_step fail. tracker_request. Qed.

Lemma block_chunk_runs hash offset content n : node_runs (block_chunk_request compute_txid hash offset content) n.
Proof. unfold block_chunk_request. runs_step fail. tracker_request. Qed.

(** *** Requests of the root handler *)
Lemma root_node {B : Type} (m : method node Status B) (a : A) n : node_runs m n -> root_runs (on_node m) (a, n).
Proof. unfold runs, on_node. by destruct (m n) as [n' r]. Qed.

Lemma root_approver {B : Type} (m : method A Status B) s : root_runs (on_approver (P:=P) m) s.
Proof. destruct s as [a n]. unfold runs, on_approver. destruct (m a). apply rtc_refl. Qed.

Lemma unilateral_close_runs ci n : node_runs (unilateral_close_key ci) n.
Proof. unfold unilateral_close_key. runs_step fail. apply runs_channel. intros [c st]. apply rtc_refl. Qed.

Lemma input_sources_runs utxos l n : node_runs (input_sources utxos l) n.
Proof.
  revert n. induction l as [|i l IH]; intros n; cbn [input_sources]; [apply runs_ret|].
  repeat runs_step ltac:(idtac; first [apply IH | apply unilateral_close_runs]).
Qed.

Lemma proposed_onchain_runs now tx flags prev ucks opaths s :
  root_runs (handle_proposed_onchain (I:=I) validator compute_txid now tx flags prev ucks opaths) s.
Proof.
  destruct s as [a n]. unfold runs, handle_proposed_onchain.
  destruct (check_onchain_tx _ _ _ _ _ _ _ _ n) as [n' r] eqn:Hc.
  assert (Hn : steps n n') by (eapply node_call_check_onchain, Hc). cbn [snd]. etrans; [by apply rtc_once|].
  destruct r as [u|ve|]; [apply rtc_refl| |apply rtc_refl].
  destruct (kind ve); try apply rtc_refl. apply (root_approver _ (a, n')).
Qed.

Lemma withdrawal_runs now streamed utxos s :
  root_runs (sign_withdrawal (I:=I) validator compute_txid now streamed utxos) s.
Proof.
  unfold sign_withdrawal.
  repeat runs_step ltac:(idtac; lazymatch goal with
  | |- runs _ _ (handle_proposed_onchain _ _ _ _ _ _ _ _) _ => apply proposed_onchain_runs
  | |- runs _ _ (on_node (input_sources _ _)) ?s => destruct s; apply root_node, input_sources_runs
  | |- runs _ _ (on_node _) ?s => destruct s; apply root_node, runs_sign_onchain
  end).
Qed.

Lemma proposed_invoice_runs secs now (invoice : I) s :
  root_runs (handle_proposed_invoice validator policy timeless_workaround secs now invoice) s.
Proof.
  unfold handle_proposed_invoice. destruct (payment_state_from_invoice invoice) as [[hash ps] ih].
  assert (Hadd : forall a n, root_runs (on_node (node_add_invoice validator policy timeless_workaround invoice now)) (a, n)).
  { intros a n. apply root_node, add_payment_runs. intros st b st'. apply call_add_invoice. }
  repeat runs_step ltac:(idtac; lazymatch goal with
  | |- runs _ _ (on_approver _) _ => apply root_approver
  | |- runs _ _ (on_node _) ?s => destruct s; apply Hadd
  end).
Qed.

Lemma proposed_keysend_runs secs now now' now'' payee hash amount s :
  root_runs (handle_proposed_keysend (I:=I) policy secs now now' now'' payee hash amount) s.
Proof.
  unfold handle_proposed_keysend. destruct (payment_state_from_keysend _ _ _ _) as [ps ih].
  repeat runs_step ltac:(idtac; lazymatch goal with
  | |- runs _ _ (on_approver _) _ => apply root_approver
  | |- runs _ _ (on_node _) ?s =>
      destruct s; apply root_node, add_payment_runs; intros ? ? ?; apply call_add_keysend
  end).
Qed.

Lemma anchorspend_runs now id utxos streamed s :
  root_runs (sign_anchorspend (I:=I) validator compute_txid now id utxos streamed) s.
Proof.
  unfold sign_anchorspend.
  repeat runs_step ltac:(idtac; lazymatch goal with
  | |- runs _ _ (sign_withdrawal _ _ _ _ _) _ => apply withdrawal_runs
  | |- runs _ _ (on_node _) ?s => destruct s; apply root_node, runs_channel; intros [? ?]; apply rtc_refl
  end).
Qed.

Lemma commitment_tx_runs id tx p num n : node_runs (sign_commitment_tx_request validator persist id tx p num) n.
Proof.
  unfold sign_commitment_tx_request.
  repeat runs_step ltac:(idtac; apply runs_channel; intros ?; apply rtc_once; channel_call_of).
Qed.

Lemma sign_invoice_runs u5bytes hrp n : node_runs (sign_invoice_request policy u5bytes hrp) n.
Proof.
  unfold sign_invoice_request.
  repeat runs_step ltac:(idtac; apply runs_on_state; intros ? ? ?; apply call_sign_bolt11).
Qed.

Lemma sign_bolt12_runs now bytes n :
  node_runs (sign_bolt12_invoice_request validator policy timeless_workaround now bytes) n.
Proof.
  unfold sign_bolt12_invoice_request.
  repeat runs_step ltac:(idtac; apply runs_on_state; intros ? ? ?; apply call_sign_bolt12).
Qed.

Ltac root_call :=
  idtac; lazymatch goal with
  | |- runs _ _ (sign_withdrawal _ _ _ _ _) _ => apply withdrawal_runs
  | |- runs _ _ (sign_anchorspend _ _ _ _ _ _) _ => apply anchorspend_runs
  | |- runs _ _ (handle_proposed_invoice _ _ _ _ _ _) _ => apply proposed_invoice_runs
  | |- runs _ _ (handle_proposed_keysend _ _ _ _ _ _ _ _) _ => apply proposed_keysend_runs
  | |- runs _ _ (on_node ?m) _ =>
      apply root_node;
      lazymatch m with
      | node_new_channel _ _ _ => apply runs_new
      | node_forget_channel _ => apply runs_forget
      | heartbeat _ _ => apply runs_heartbeat
      | with_channel_base _ _ _ => apply runs_base
      | sign_invoice_request _ _ _ => apply sign_invoice_runs
      | sign_bolt12_invoice_request _ _ _ _ _ => apply sign_bolt12_runs
      | sign_commitment_tx_request _ _ _ _ _ _ => apply commitment_tx_runs
      | add_block_request _ _ _ _ => apply add_block_runs
      | remove_block_request _ _ _ _ _ => apply remove_block_runs
      | block_chunk_request _ _ _ _ => apply block_chunk_runs
      | sign_delayed_payment_to_us _ _ _ _ _ => eapply delayed_sweep_runs; intros ? ? ?; apply runs_channel
      | sign_remote_htlc_to_us _ _ _ _ _ => eapply remote_htlc_sweep_runs; intros ? ? ?; apply runs_channel
      | sign_penalty_to_us _ _ _ _ _ => eapply penalty_sweep_runs; intros ? ? ?; apply runs_channel
      | sign_local_htlc_tx _ _ _ _ _ => eapply local_htlc_runs; intros ? ? ?; apply runs_channel
      | sign_channel_announcement _ _ => eapply announcement_runs; intros ? ? ?; apply runs_channel
      | check_channel_state_sync _ _ => unfold check_channel_state_sync; repeat runs_step fail
      end
  end.

Lemma root_request_runs equal clocks msg (a : A) n :
  root_runs (root_do_handle validator policy compute_txid persist timeless_workaround developer equal clocks msg) (a, n).
Proof. unfold root_do_handle, root_chain_request, root_sweep_request. destruct msg; repeat runs_step ltac:(root_call). Qed.

(** *** Requests of the negotiation *)
Lemma init_node_runs {B : Type} (m : method node Status B) h n :
  node_runs m n -> runs steps (@snd InitHandler node) (on_init_node m) (h, n).
Proof. unfold runs, on_init_node. by destruct (m n) as [n' r]. Qed.

Lemma init_request_runs msg (h : InitHandler) n :
  runs steps (@snd InitHandler node) (init_handle allowable_to_string developer msg) (h, n).
Proof.
  assert (Hset : forall v s, runs steps (@snd InitHandler node) (set_version v) s) by (intros v [? ?]; apply rtc_refl).
  unfold init_handle. do 2 runs_step fail. unfold init_do_handle. runs_step fail.
  destruct msg; try unfold hsmd_init;
    repeat runs_step ltac:(idtac; lazymatch goal with
      | |- runs _ _ (on_init_node _) ?s => destruct s; apply init_node_runs, add_allowlist_runs
      | |- runs _ _ (set_version _) _ => apply Hset
      end).
Qed.

(** ** What a connection does

    The requests of the negotiation, of the root handler and of the handlers of the
    channels, in any order and with any outcome, and the transactions around them. *)
Inductive served : A * node -> A * node -> Prop :=
| served_init (a : A) h msg n h' n' o :
    init_handle allowable_to_string developer msg (h, n) = ((h', n'), o) -> served (a, n) (a, n')
| served_root equal clocks msg s s' o :
    root_handle validator policy compute_txid persist timeless_workaround developer equal clocks msg s = (s', o) -> served s s'
| served_channel (a : A) h msg n n' o :
    channel_handle validator set_iter persist h msg n = (n', o) -> served (a, n) (a, n')
| served_enter (a : A) n p o : p_enter n.(persister) = (p, o) -> served (a, n) (a, with_persister n p)
| served_prepare (a : A) n p o : p_prepare n.(persister) = (p, o) -> served (a, n) (a, with_persister n p)
| served_commit (a : A) n n' o : handler_commit n = (n', o) -> served (a, n) (a, n').

Lemma served_calls s s' : served s s' -> rtc steps s.2 s'.2.
Proof.
  intros [a h msg n h' n' o Hrun|equal clocks msg [a n] s1 o Hrun|a [v d id] msg n n' o Hrun|a n p o _|a n p o _|a n n' o Hrun]; cbn [snd].
  - generalize (init_request_runs msg h n). unfold runs. by rewrite Hrun.
  - generalize (root_request_runs equal clocks msg a n). unfold runs, root_handle in *.
    destruct (root_do_handle _ _ _ _ _ _ _ _ _ _) as [s2 r]. by injection Hrun as <- _.
  - assert (Hc := fun B => @runs_channel B id).
    generalize (channel_request_runs validator set_iter hash_preimage persist steps id Hc
                  (fun st => runs_setup id None st []) (runs_lock id) v d msg n).
    unfold runs, channel_handle in *. destruct (channel_do_handle _ _ _ _ _ _) as [n2 r]. by injection Hrun as <- _.
  - apply rtc_once, persister_step.
  - apply rtc_once, persister_step.
  - unfold handler_commit in Hrun. destruct (p_commit n.(persister)) as [p r]. injection Hrun as <- _.
    apply rtc_once, persister_step.
Qed.

Lemma all_served_calls s s' : rtc served s s' -> rtc steps s.2 s'.2.
Proof. induction 1; [apply rtc_refl|]. etrans; [by eapply served_calls|done]. Qed.

(** C9: Channel ids are not reused over a connection. Once the signer answered a
    request to forget channel [dbid] of a peer, whatever the negotiation, the node
    and its channels are asked afterwards, and whatever the transactions around it,
    a request for a new channel with a number up to [dbid], of any peer, is refused
    with the policy error and changes nothing. *)
Theorem forgotten_id_refused (s s1 s2 : A * node) equal equal' (clocks clocks' : Clocks) (peer peer' : list Z)
    (dbid dbid' : Z) :
  u64 dbid -> is_Some (s.2.(channels) !! new_from_peer_id_and_oid peer dbid) ->
  root_handle validator policy compute_txid persist timeless_workaround developer equal clocks (ForgetChannel peer dbid) s
    = (s1, Ok ForgetChannelReply) ->
  rtc served s1 s2 -> dbid' <= dbid ->
  root_handle validator policy compute_txid persist timeless_workaround developer equal' clocks' (NewChannel peer' dbid') s2
    = (s2, Err (Signing (Status_from (policy_error "policy-channel-original-channel-id-reuse")))).
Proof.
  intros Hu Hin Hf Hserved Hle. apply all_served_calls in Hserved. destruct s as [a n], s2 as [a2 n2].
  assert (Hforget : exists u, node_forget_channel (new_from_peer_id_and_oid peer dbid) n = (s1.2, Ok u)).
  { unfold root_handle, root_do_handle, on_node, mbind, method_bind in Hf. cbn [get_self] in Hf.
    destruct (node_forget_channel _ n) as [n1 [u|e|]]; simplify_eq/=. by exists u. }
  destruct Hforget as [u Hforget].
  assert (Hm : mark_from dbid n2).
  { eapply node_calls_mark, Hserved. eapply forget_raises_mark; [exact Hin| |exact Hforget]. by apply oid_suffix. }
  unfold root_handle, root_do_handle, on_node, node_new_channel, mark_from, mbind, method_bind in *. cbn [get_self].
  by rewrite (proj2 (Z.leb_le _ _)) by lia.
Qed.

Lemma from_checkpoint_fresh network tip height oracles t :
  from_checkpoint network tip height oracles = Ok t -> t.(listeners) = ∅.
Proof.
  unfold from_checkpoint, ChainTracker_new. destruct (when _ _) as [[]| |]; cbn; intros; by simplify_eq.
Qed.

(** A node that [handler_build] makes is without channels. *)
Lemma build_fresh genesis checkpoint network id oracles allow max (p : P) h n :
  p_get_nodes p = Ok [] ->
  handler_build validator set_iter allowable_to_string genesis checkpoint network id oracles allow max p = Ok (h, n) ->
  exists n0, fresh_node n0 /\ rtc steps n0 n.
Proof.
  intros Hp Hb. unfold handler_build in Hb. rewrite Hp in Hb. cbn [expect_persisted map_err mbind res_bind] in Hb.
  apply bind_Ok in Hb as (n1 & Hn & [= <- <-]).
  destruct (Node_new _ _ _ _ _ _ _ _) as [n0| |] eqn:Hnew; cbn [mbind res_bind] in Hn; [|done..].
  exists n0. split.
  - unfold Node_new in Hnew. apply bind_Ok in Hnew as (g & _ & Hnew). apply bind_Ok in Hnew as (f & _ & Hnew).
    apply bind_Ok in Hnew as (t & Ht & Hnew). unfold new_full in Hnew.
    apply bind_Ok in Hnew as (g' & _ & Hnew). apply bind_Ok in Hnew as (f' & _ & [= <-]).
    assert (Hl : t.(listeners) = ∅).
    { unfold for_network in Ht. repeat case_match; by eapply from_checkpoint_fresh. }
    by unfold fresh_node.
  - destruct (persist_new_node _ _ _) as [n2 r] eqn:Hpn. destruct r as [u| |]; cbn in Hn; simplify_eq.
    unfold persist_new_node in Hpn. generalize (add_allowlist_runs allow n0). unfold runs.
    destruct (node_add_allowlist _ _ n0) as [n3 [u'| |]]; simplify_eq. intros Hr. etrans; [exact Hr|]. cbn [fst].
    match type of Hpn with ?m n3 = _ => assert (Hm : node_runs m n3) by (repeat runs_step ltac:(idtac; apply runs_persist)) end.
    unfold runs in Hm. by rewrite Hpn in Hm.
Qed.

(** In every node of a signer that started from an empty store and served
    requests, whatever these were and whatever their outcome, each channel id
    refers to a slot, each ready slot to a monitor that no other slot has, and each
    listener of the tracker to a monitor. *)
Theorem connection_references_resolve genesis checkpoint network id oracles allow max (p : P) h n (a : A) s :
  p_get_nodes p = Ok [] ->
  handler_build validator set_iter allowable_to_string genesis checkpoint network id oracles allow max p = Ok (h, n) ->
  rtc served (a, n) s -> refs_ok s.2.
Proof.
  intros Hp Hb Hs. destruct (build_fresh _ _ _ _ _ _ _ _ _ _ Hp Hb) as (n0 & Hfresh & Hn0).
  apply all_served_calls in Hs. apply fresh_node_refs in Hfresh.
  assert (Hall : rtc steps n0 s.2) by (etrans; done). clear -Hfresh Hall.
  induction Hall; eauto using node_call_refs.
Qed.
End NodeRequests.

(** ** The requests of one channel leave the others alone *)
Section Isolation.
Context `{Profile} `{BitcoinLib} `{LightningLib} `{SpendScripts} `{ChainPackages} `{CommitmentPointProvider} `{WalletKeys}.
Context `{Signer} `{TransactionSigner} `{InputSigner} `{KeysManager} `{Encodings}.
Context {P : Type} `{!Persist P} {V : Type} `{HV : Validator V} `{TransactionValidator V NodeWallet}.
Context {PO : Type} `{HPO : Policy PO} {I A : Type} `{HI : InvoiceAttributes I} `{!Approve I A} `{HC : !RequestCodec I}.
Context (validator : V) (policy : PO) (compute_txid : Transaction -> Txid) (set_iter : gset Z -> list Z).
Context (hash_preimage : Z -> Z).
Context (persist : Channel -> res Status unit) (allowable_to_string : Allowable -> string).
Context (timeless_workaround developer : bool).

Abbreviation node := (Node (P:=P)) (only parsing).

(** The channel that [id] names has the slot [r], or the monitor [m]. *)
Definition own_slot (n : node) (id : ChannelId) (r : nat) : Prop := n.(channels) !! id = Some r.
Definition own_monitor (n : node) (id : ChannelId) (m : nat) : Prop :=
  exists r chan, own_slot n id r /\ n.(slots) !! r = Some (ReadySlot chan m).

(** [n1] differs from [n0] only in the channel [id], in what is allocated after
    [n0], and in the listeners, the state and the persister. *)
Record touches (id : ChannelId) (n0 n1 : node) : Prop := {
  touch_node : n1.(node_id) = n0.(node_id) /\ n1.(node_config) = n0.(node_config);
  touch_chain : n1.(tracker).(headers) = n0.(tracker).(headers) /\ n1.(tracker).(tip) = n0.(tracker).(tip) /\
    n1.(tracker).(tracker_height) = n0.(tracker).(tracker_height);
  touch_next : (n0.(next_ref) <= n1.(next_ref))%nat;
  touch_ids : forall id', id' <> id -> n1.(channels) !! id' = n0.(channels) !! id';
  touch_slots : forall r, n1.(slots) !! r = n0.(slots) !! r \/ own_slot n0 id r \/ (n0.(next_ref) <= r)%nat;
  touch_monitors : forall m, n1.(monitors) !! m = n0.(monitors) !! m \/ own_monitor n0 id m \/ (n0.(next_ref) <= m)%nat;
  touch_slot : forall r, own_slot n1 id r -> own_slot n0 id r \/ (n0.(next_ref) <= r)%nat;
  touch_monitor : forall r chan m, own_slot n0 id r \/ (n0.(next_ref) <= r)%nat ->
    n1.(slots) !! r = Some (ReadySlot chan m) -> own_monitor n0 id m \/ (n0.(next_ref) <= m)%nat
}.

Lemma touches_refl id (n : node) : refs_ok n -> touches id n n.
Proof.
  intros Hn. split; auto.
  intros r chan m [Hr|Hr] Hs; [left; by exists r, chan|]. apply (refs_fresh _ Hn) in Hr as [Hr _]. congruence.
Qed.

Lemma touches_trans id (n0 n1 n2 : node) : touches id n0 n1 -> touches id n1 n2 -> touches id n0 n2.
Proof.
  intros [Ha1 Hb1 Hn1 Hi1 Hs1 Hm1 Ho1 Hom1] [Ha2 Hb2 Hn2 Hi2 Hs2 Hm2 Ho2 Hom2].
  assert (Hr : forall r, own_slot n1 id r \/ (n1.(next_ref) <= r)%nat -> own_slot n0 id r \/ (n0.(next_ref) <= r)%nat).
  { intros r [Hr|Hr]; [by apply Ho1|right; lia]. }
  assert (Hm : forall m, own_monitor n1 id m \/ (n1.(next_ref) <= m)%nat -> own_monitor n0 id m \/ (n0.(next_ref) <= m)%nat).
  { intros m [(r & chan & Hr' & Hs')|Hm]; [|right; lia]. eapply Hom1; [|exact Hs']. by apply Ho1. }
  split.
  - intuition congruence.
  - intuition congruence.
  - lia.
  - intros id' Hid. by rewrite Hi2, Hi1.
  - intros r. destruct (Hs2 r) as [->|Hr2]; auto.
  - intros m. destruct (Hm2 m) as [->|Hm2']; auto.
  - intros r Hr2. apply Hr. by apply Ho2.
  - intros r chan m Hr0 Hsl. destruct (Hs2 r) as [Heq|Hr2].
    + rewrite Heq in Hsl. by eapply Hom1.
    + apply Hm. by eapply Hom2.
Qed.

(** What the operations of a channel change. *)
Lemma touches_state id n0 n1 st : touches id n0 n1 -> touches id n0 (with_node_state n1 st).
Proof. by intros []. Qed.

Lemma touches_persister id n0 n1 p : touches id n0 n1 -> touches id n0 (with_persister n1 p).
Proof. by intros []. Qed.

Lemma touches_next_ref id n0 n1 k : (n1.(next_ref) <= k)%nat -> touches id n0 n1 -> touches id n0 (with_next_ref n1 k).
Proof. intros Hk []. split; try done. cbn. lia. Qed.

Lemma touches_listeners id n0 n1 t m :
  t = n1.(tracker) -> touches id n0 n1 -> touches id n0 (with_tracker n1 (with_listeners t m)).
Proof. by intros -> []. Qed.

Lemma touches_slot id n0 n1 r chan m :
  own_slot n0 id r \/ (n0.(next_ref) <= r)%nat -> own_monitor n0 id m \/ (n0.(next_ref) <= m)%nat ->
  touches id n0 n1 -> touches id n0 (with_slot n1 r (ReadySlot chan m)).
Proof.
  intros Hr Hm []. split; try done.
  - intros r'. cbn. destruct (decide (r' = r)) as [->|]; [by right|]. by rewrite lookup_insert_ne.
  - intros r' chan' m' Hr'. cbn. intros [[_ ?]|[_ ?]]%lookup_insert_Some; [by simplify_eq|eauto].
Qed.

Lemma touches_with_monitor id n0 n1 m mon :
  own_monitor n0 id m \/ (n0.(next_ref) <= m)%nat -> touches id n0 n1 -> touches id n0 (with_monitor n1 m mon).
Proof.
  intros Hm []. split; try done.
  intros m'. cbn. destruct (decide (m' = m)) as [->|]; [by right|]. by rewrite lookup_insert_ne.
Qed.

Lemma touches_channels id n0 n1 r :
  own_slot n0 id r \/ (n0.(next_ref) <= r)%nat -> touches id n0 n1 ->
  touches id n0 (with_channels n1 (<[id := r]> (<[id := r]> n1.(channels)))).
Proof.
  intros Hr []. split; try done.
  - intros id' Hid. cbn. by rewrite !lookup_insert_ne by done; auto.
  - intros r'. unfold own_slot at 1. cbn. rewrite lookup_insert_eq. by intros [= <-].
Qed.
Lemma run_channel_touches {B : Type} id r chan m (f : method (Channel * NodeState) Status B) n0 n1 :
  own_slot n0 id r \/ (n0.(next_ref) <= r)%nat -> own_monitor n0 id m \/ (n0.(next_ref) <= m)%nat ->
  touches id n0 n1 -> wp (run_channel r chan m f) (fun _ => touches id n0) n1.
Proof.
  intros Hr Hm Hn. unfold run_channel. do 2 node_step fail ltac:(done). cbv beta iota zeta.
  destruct (f _) as [[c st] o]. repeat node_step fail ltac:(by apply touches_state, touches_slot).
Qed.

Lemma slot_of (n : node) id r slot :
  get_channel_slot n id = Ok r -> unwrap (E:=Status) (n.(slots) !! r) = Ok slot ->
  own_slot n id r /\ n.(slots) !! r = Some slot.
Proof.
  unfold get_channel_slot, own_slot. intros Hr Hs%unwrap_Some. by destruct (n.(channels) !! id); simplify_eq/=.
Qed.

Lemma with_channel_touches {B : Type} id (f : method (Channel * NodeState) Status B) n :
  refs_ok n -> wp (with_channel id f) (fun _ => touches id n) n.
Proof.
  intros Hn. pose proof (touches_refl id n Hn) as Ht. unfold with_channel. do 3 node_step fail ltac:(done).
  destruct (slot_of _ _ _ _ H12 H13) as [Hr Hs]. destruct a0 as [stub|chan m]; [by apply wp_end|].
  apply run_channel_touches; [by left| |done]. left. by exists a, chan.
Qed.

Lemma confirm_lock_touches id outpoint n :
  refs_ok n -> wp (confirm_funding_lock persist id outpoint) (fun _ => touches id n) n.
Proof.
  intros Hn. pose proof (touches_refl id n Hn) as Ht. unfold confirm_funding_lock. do 3 node_step fail ltac:(done).
  destruct (slot_of _ _ _ _ H12 H13) as [Hr Hs]. destruct a0 as [stub|chan m]; [by apply wp_ret|].
  apply run_channel_touches; [by left| |done]. left. by exists a, chan.
Qed.

Ltac touches_end :=
  unfold remove_listener; cbn [default];
  repeat first [ done | apply touches_persister | apply touches_state | apply touches_listeners; [reflexivity|] | apply touches_with_monitor
               | apply touches_slot | apply touches_channels | apply touches_next_ref; [cbn; lia|] | by left | right; cbn; lia ].

Lemma setup_touches id new_setup path n :
  refs_ok n -> wp (setup_channel validator id None new_setup path) (fun _ => touches id n) n.
Proof.
  intros Hn. pose proof (touches_refl id n Hn) as Ht. unfold setup_channel. do 3 node_step fail ltac:(done).
  destruct (slot_of _ _ _ _ H12 H13) as [Hr Hs]. destruct a0 as [stub|chan m].
  - unfold setup_stub. repeat node_step fail touches_end.
  - unfold setup_ready. assert (Hm : own_monitor n id m) by (by exists a, chan).
    destruct (bool_decide _); [by apply wp_ret|]. repeat node_step fail touches_end.
Qed.
(** The requests of a channel, as a relation that composes. *)
Definition confined (id : ChannelId) (n n' : node) : Prop := refs_ok n -> refs_ok n' /\ touches id n n'.

Lemma confined_trans id (n n' : node) : rtc (confined id) n n' -> confined id n n'.
Proof.
  induction 1 as [n|n n1 n' Hn _ IH]; intros Hr; [by split; [|apply touches_refl]|].
  destruct (Hn Hr) as [Hr1 Ht1]. destruct (IH Hr1) as [Hr2 Ht2]. split; [done|by eapply touches_trans].
Qed.

Lemma confined_runs {B : Type} id (m : method node Status B) n :
  (refs_ok n -> wp m (fun _ => refs_ok) n) -> (refs_ok n -> wp m (fun _ => touches id n) n) ->
  runs (confined id) (fun n : node => n) m n.
Proof. intros Hr Ht. apply rtc_once. intros Hn. by split; [apply Hr|apply Ht]. Qed.

Lemma channel_request_confined (h : ChannelHandler) msg n n' o :
  channel_handle validator set_iter persist h msg n = (n', o) -> confined h.(ch_channel_id) n n'.
Proof.
  intros Hrun. apply confined_trans. destruct h as [v d id].
  generalize (channel_request_runs validator set_iter (fun z => z) persist (confined id) id
    (fun B f n _ => confined_runs id _ n (with_channel_refs id f n) (with_channel_touches id f n))
    (fun st n => confined_runs id _ n (setup_refs validator id None st [] n) (setup_touches id st [] n))
    (fun o n => confined_runs id _ n (confirm_lock_refs persist id o n) (confirm_lock_touches id o n)) v d msg n).
  unfold runs, channel_handle in *. destruct (channel_do_handle _ _ _ _ _ _) as [n2 r]. by injection Hrun as <- _.
Qed.

(** C12: A request to the handler of one channel, whatever it asks and whatever the
    outcome, leaves every other channel as it is: the ids of the others, their
    state and their monitors, and the configuration and the chain of the node. *)
Theorem channel_request_isolated (h : ChannelHandler) msg n n' o :
  refs_ok n -> channel_handle validator set_iter persist h msg n = (n', o) ->
  n'.(node_config) = n.(node_config) /\ n'.(tracker).(tip) = n.(tracker).(tip) /\
  n'.(tracker).(tracker_height) = n.(tracker).(tracker_height) /\
  forall id, id <> h.(ch_channel_id) ->
    n'.(channels) !! id = n.(channels) !! id /\
    forall r slot, n.(channels) !! id = Some r -> n.(slots) !! r = Some slot ->
      n.(channels) !! h.(ch_channel_id) <> Some r ->
      n'.(slots) !! r = Some slot /\
      forall chan mon, slot = ReadySlot chan mon -> n'.(monitors) !! mon = n.(monitors) !! mon.
Proof.
  intros Hn Hrun. destruct (channel_request_confined _ _ _ _ _ Hrun Hn) as [_ Ht].
  destruct Ht as [[_ Hc] (_ & Htip & Hh) _ Hids Hslots Hmons _ _]. split_and!; try done.
  intros id Hid. split; [by apply Hids|]. intros r slot Hr Hs Hother. split.
  - destruct (Hslots r) as [->|[Ho|Hle]]; [done|by destruct (Hother Ho)|].
    apply (refs_fresh _ Hn) in Hle as [Hle _]. congruence.
  - intros chan mon ->. destruct (Hmons mon) as [?|[(r' & chan' & Ho & Hs')|Hle]]; [done| |].
    + by rewrite (refs_own _ Hn _ _ _ _ _ Hs Hs') in Hother.
    + apply (refs_fresh _ Hn) in Hle as [_ Hle]. destruct (refs_monitors _ Hn _ _ _ Hs) as [m Hm]. congruence.
Qed.
End Isolation.

(** ** What a reply discloses *)
Section Replies.
Context {S E : Type}.

(** Every answer of [m] is in [Q]. *)
Definition replies {B : Type} (Q : B -> Prop) (m : method S E B) : Prop := forall s s' b, m s = (s', Ok b) -> Q b.

Lemma replies_bind {B C : Type} Q (m : method S E B) (f : B -> method S E C) : (forall b, replies Q (f b)) -> replies Q (m ≫= f).
Proof.
  intros Hf s s' c. unfold mbind, method_bind. destruct (m s) as [s1 [b|e|]]; [apply Hf|done..].
Qed.

Lemma replies_ret {B : Type} (Q : B -> Prop) (b : B) : Q b -> replies Q (mret b).
Proof. by intros HQ s s' b' [= _ <-]. Qed.

Lemma replies_panic {B : Type} (Q : B -> Prop) : replies Q (call Panic).
Proof. by intros s s' b' [=]. Qed.
End Replies.

(** The secrets of the holder's commitments that a reply carries. *)
Definition disclosed (reply : Reply) : option SecretKey :=
  match reply with
  | GetPerCommitmentPointReply _ secret => secret
  | ValidateCommitmentTxReply secret _ => secret
  | RevokeCommitmentTxReply secret _ => Some secret
  | _ => None
  end.

Section Disclosure.
Context `{Profile} `{BitcoinLib} `{LightningLib} `{SpendScripts} `{ChainPackages} `{CommitmentPointProvider} `{WalletKeys}.
Context `{Signer} `{TransactionSigner} `{InputSigner} `{KeysManager} `{Encodings}.
Context {P : Type} `{!Persist P} {V : Type} `{HV : Validator V} `{TransactionValidator V NodeWallet}.
Context {PO : Type} `{HPO : Policy PO} {I A : Type} `{HI : InvoiceAttributes I} `{!Approve I A} `{HC : !RequestCodec I}.
Context (validator : V) (policy : PO) (compute_txid : Transaction -> Txid) (set_iter : gset Z -> list Z).
Context (hash_preimage : Z -> Z).
Context (persist : Channel -> res Status unit) (allowable_to_string : Allowable -> string).
Context (timeless_workaround developer : bool).

Abbreviation node := (Node (P:=P)) (only parsing).

Lemma with_channel_Ok {B : Type} id (f : method (Channel * NodeState) Status B) (n n' : node) b :
  with_channel id f n = (n', Ok b) ->
  exists r chan mon s s', n'.(channels) !! id = Some r /\ n'.(slots) !! r = Some (ReadySlot chan mon) /\
    f s = (s', Ok b) /\ s'.1 = chan.
Proof.
  intros Hrun. unfold with_channel in Hrun. rewrite get_bind in Hrun.
  apply call_Ok in Hrun as (r & Hr & Hrun). apply call_Ok in Hrun as (slot & Hs & Hrun).
  destruct (slot_of _ _ _ _ Hr Hs) as [Hid Hslot]. destruct slot as [stub|chan mon]; [done|].
  unfold run_channel in Hrun. rewrite get_bind in Hrun. apply call_Ok in Hrun as (m & _ & Hrun). cbv zeta in Hrun.
  match type of Hrun with context [f ?x] => destruct (f x) as [[c st] o] eqn:Hf; set (s0 := x) in * end.
  rewrite set_bind in Hrun. injection Hrun as <- ->.
  exists r, c, mon, s0, (c, st). split_and!; try done. cbn. by rewrite lookup_insert_eq.
Qed.
Context {L : ValidatorLaws V from_secret_key} (Hstrict : v_strict validator).

(** The secret of a commitment that the channel has revoked. *)
Definition of_revoked (chan : Channel) (secret : SecretKey) : Prop :=
  exists k, 0 <= k /\ secret = secret_for (INITIAL_COMMITMENT_NUMBER - k) /\
    k + 2 <= chan.(enforcement_state).(next_holder_commit_num).

Lemma secret_of_revoked chan k secret :
  0 <= k < 2 ^ 48 -> get_per_commitment_secret validator chan k = Ok secret -> of_revoked chan secret.
Proof.
  intros Hk Hs. exists k. split; [lia|]. split.
  - unfold get_per_commitment_secret in Hs. apply bind_Ok in Hs as (n2 & _ & Hs). apply bind_Ok in Hs as (u & _ & Hs).
    unfold backwards in Hs. rewrite sub_u64_Ok in Hs by (unfold uint, INITIAL_COMMITMENT_NUMBER; lia). by simplify_eq/=.
  - eapply secret_spec; [exact Hstrict|unfold small; lia|exact Hs].
Qed.

Lemma release_of_revoked chan k pt secret :
  0 <= k <= 2 ^ 48 -> release_commitment_secret validator chan k = Ok (pt, Some secret) -> of_revoked chan secret.
Proof.
  intros Hk Hr. unfold release_commitment_secret in Hr. apply bind_Ok in Hr as (n1 & _ & Hr).
  apply bind_Ok in Hr as (p & _ & Hr). apply bind_Ok in Hr as (os & Hos & [= <- ->]).
  destruct (Z.leb_spec 1 k); [|done]. apply bind_Ok in Hos as (s & Hs & [= ->]).
  eapply secret_of_revoked; [|exact Hs]. lia.
Qed.

Lemma wp_persisted {B : Type} (f : unit -> method (Channel * NodeState) Status B) Q c st :
  (forall o, is_ok o = false -> Q o (c, st)) -> wp (f tt) Q (c, st) -> wp (do_persist persist ≫= f) Q (c, st).
Proof. intros Ho Hf. apply wp_bind. unfold wp at 1, do_persist. cbn [fst snd]. destruct (persist c) as [[]|e|]; auto. Qed.

Lemma revoke_of_revoked s s' k pt secret :
  0 <= k <= 2 ^ 48 ->
  revoke_previous_holder_commitment validator set_iter persist k s = (s', Ok (pt, Some secret)) -> of_revoked s'.1 secret.
Proof.
  intros Hk Hrun.
  refine (wp_run _ (fun o s' => forall pt, o = Ok (pt, Some secret) -> of_revoked s'.1 secret) _ _ _ _ Hrun pt eq_refl).
  destruct s as [c st]. unfold revoke_previous_holder_commitment, advance_holder_commitment_state.
  repeat first [ progress cbv beta iota zeta
    | match goal with
      | |- wp (call _ ≫= _) _ _ => apply wp_call; [intros ? ?|by intros [?| |] ? ? ?]
      | |- wp (do_persist _ ≫= _) _ _ => apply wp_persisted; [by intros [?| |] ? ? ?|]
      | |- wp (call _) _ _ => apply wp_end; intros ? ?; by eapply release_of_revoked
      | |- wp (mret _) _ _ => apply wp_ret; intros ? ?; simplify_eq; by eapply release_of_revoked
      end
    | chan_step ].
Qed.
(** The channel that [id] names in [n] is ready and revoked what [secret] opens. *)
Definition discloses_revoked (n : node) (id : ChannelId) (secret : SecretKey) : Prop :=
  exists r chan mon, n.(channels) !! id = Some r /\ n.(slots) !! r = Some (ReadySlot chan mon) /\ of_revoked chan secret.

Lemma after_validation_Ok version k s s' pt secret :
  0 <= k < 2 ^ 48 ->
  after_validation validator set_iter persist version k s = (s', Ok (pt, Some secret)) ->
  version < PROTOCOL_VERSION_REVOKE /\ of_revoked s'.1 secret.
Proof.
  intros Hk Hrun. unfold after_validation in Hrun. destruct (Z.ltb_spec version PROTOCOL_VERSION_REVOKE).
  - split; [done|]. eapply revoke_of_revoked, Hrun. lia.
  - exfalso. revert Hrun. enough (Hr : replies (fun r : PublicKey * option SecretKey => r.2 = None)
      (after_validation validator set_iter persist version k)).
    { unfold after_validation in Hr. rewrite (proj2 (Z.ltb_ge _ _)) in Hr by done. intros Hrun. by apply Hr in Hrun. }
    unfold after_validation. rewrite (proj2 (Z.ltb_ge _ _)) by done. apply replies_bind. intros [chan st].
    repeat case_match; repeat (apply replies_bind; intros ?); by apply replies_ret.
Qed.

Lemma validated_discloses {B : Type} id version k (f : method (Channel * NodeState) Status B) n n' r secret :
  0 <= k < 2 ^ 48 ->
  with_channel id (f ≫= fun _ => after_validation validator set_iter persist version k) n = (n', Ok r) ->
  r.2 = Some secret -> version < PROTOCOL_VERSION_REVOKE /\ discloses_revoked n' id secret.
Proof.
  intros Hk Hrun Hr. apply with_channel_Ok in Hrun as (x & chan & mon & s & s' & Hid & Hs & Hf & <-).
  destruct r as [pt o]. cbn in Hr. subst o. apply method_Ok in Hf as (s1 & b & _ & Hf).
  apply after_validation_Ok in Hf as [Hv Hrev]; [|done]. split; [done|]. by exists x, s'.1, mon.
Qed.

(** The numbers of commitments in a request have 48 bits. *)
Definition numbers_fit (msg : Message) : Prop :=
  let fits k := 0 <= k < 2 ^ 48 in
  match msg with
  | GetPerCommitmentPoint k | RevokeCommitmentTx k => fits k
  | M_ValidateCommitmentTx m => fits m.(vc_commitment_number)
  | M_ValidateCommitmentTx2 m => fits m.(vc2_commitment_number)
  | _ => True
  end.

(** The requests that may disclose a secret in a version of the protocol. *)
Definition may_disclose (version : Z) (msg : Message) : Prop :=
  match msg with
  | GetPerCommitmentPoint _ => version < PROTOCOL_VERSION_NO_SECRET
  | M_ValidateCommitmentTx _ | M_ValidateCommitmentTx2 _ => version < PROTOCOL_VERSION_REVOKE
  | RevokeCommitmentTx _ => PROTOCOL_VERSION_REVOKE <= version
  | _ => False
  end.

Lemma point_discloses (h : ChannelHandler) k n n' reply secret :
  0 <= k < 2 ^ 48 -> per_commitment_point_request validator h k n = (n', Ok reply) -> disclosed reply = Some secret ->
  h.(ch_protocol_version) < PROTOCOL_VERSION_NO_SECRET /\ discloses_revoked n' h.(ch_channel_id) secret.
Proof.
  intros Hk Hrun Hd. unfold per_commitment_point_request in Hrun. apply method_Ok in Hrun as (n1 & r & Hb & [= <- <-]).
  cbn in Hd. unfold with_channel_base in Hb. rewrite get_bind in Hb.
  apply call_Ok in Hb as (x & Hx & Hb). apply call_Ok in Hb as (slot & Hs & Hb). destruct (slot_of _ _ _ _ Hx Hs) as [Hid Hsl].
  destruct slot as [stub|chan mon]; injection Hb as <- Hb; apply bind_Ok in Hb as (pt & _ & Hb).
  - destruct (_ && _); by simplify_eq/=.
  - destruct (Z.ltb_spec h.(ch_protocol_version) PROTOCOL_VERSION_NO_SECRET); [|by simplify_eq/=].
    destruct (Z.leb_spec 2 k); [|by simplify_eq/=]. cbn [andb] in Hb. apply bind_Ok in Hb as (s & Hsec & [= <-]).
    injection Hd as ->. split; [done|]. exists x, chan, mon. split_and!; try done.
    eapply secret_of_revoked, Hsec. lia.
Qed.

Lemma revoke_discloses (h : ChannelHandler) k n n' reply secret :
  0 <= k < 2 ^ 48 -> revoke_commitment_tx_request validator set_iter persist h k n = (n', Ok reply) ->
  disclosed reply = Some secret ->
  PROTOCOL_VERSION_REVOKE <= h.(ch_protocol_version) /\ discloses_revoked n' h.(ch_channel_id) secret.
Proof.
  intros Hk Hrun Hd. unfold revoke_commitment_tx_request in Hrun.
  destruct (Z.ltb_spec h.(ch_protocol_version) PROTOCOL_VERSION_REVOKE); [done|]. split; [done|].
  rewrite add_u64_Ok in Hrun by (unfold uint; lia). apply call_Ok in Hrun as (k' & [= <-] & Hrun).
  apply method_Ok in Hrun as (n1 & [pt os] & Hc & Hrun). apply call_Ok in Hrun as (s & Hs & [= <- <-]).
  destruct os as [s'|]; simplify_eq/=. apply with_channel_Ok in Hc as (x & chan & mon & s0 & s1 & Hid & Hsl & Hf & <-).
  exists x, s1.1, mon. split_and!; try done. eapply revoke_of_revoked, Hf. lia.
Qed.

End Disclosure.

(** ** Negotiation *)
Section Negotiation.
Context `{ChainPackages} `{Encodings} {P : Type} `{!Persist P} {I : Type} `{HC : !RequestCodec I}.
Context (allowable_to_string : Allowable -> string) (developer : bool).

Abbreviation node := (Node (P:=P)) (only parsing).

(** The type of [RevokeCommitmentTx] among the capabilities. *)
Definition RevokeCommitmentTx_TYPE : Z := 40.

(** What a negotiation agrees on. [HsmdInit] is refused with an error when it has
    developer fields and the signer is no developer build, and panics when it comes
    a second time or when the two ranges of versions do not meet. Otherwise the node
    is unchanged, the version is the smaller of the two maxima, every handler of the
    connection works with it, and the reply names it, from version 4 on with the
    capability to revoke exactly when the handlers accept the request to revoke.
    [HsmdInit2] sets version 4, even above the maximum of the signer. *)
Theorem negotiation_outcome (h : InitHandler) (n : node) (m : HsmdInit) (peer : PubKey) (dbid : Z) :
  let outcome := init_handle allowable_to_string developer (M_HsmdInit m) (h, n) in
  let version := Z.min h.(max_protocol_version) m.(hsm_wire_max_version) in
  (is_Some h.(init_protocol_version) -> outcome = ((h, n), Panic)) /\
  (h.(init_protocol_version) = None ->
   (developer = false -> m.(has_developer_fields) = true -> outcome = ((h, n), Err (Protocol DeveloperField))) /\
   (developer = true \/ m.(has_developer_fields) = false ->
    (h.(max_protocol_version) < m.(hsm_wire_min_version) \/ m.(hsm_wire_max_version) < 2 -> outcome = ((h, n), Panic)) /\
    (m.(hsm_wire_min_version) <= h.(max_protocol_version) -> 2 <= m.(hsm_wire_max_version) ->
     exists h' root reply, outcome = ((h', n), Ok (true, Some reply)) /\ into_root (E:=HandlerError) h' = Ok root /\
       (for_new_client root peer dbid).(ch_protocol_version) = version /\
       match reply with
       | HsmdInitReplyV2 id => version < 4 /\ id = n.(node_id)
       | HsmdInitReplyV4 v caps id =>
           4 <= version /\ v = version /\ id = n.(node_id) /\
           (RevokeCommitmentTx_TYPE ∈ caps <-> PROTOCOL_VERSION_REVOKE <= (for_new_client root peer dbid).(ch_protocol_version))
       | _ => False
       end))) /\
  (h.(init_protocol_version) = None -> developer = false ->
   exists h', init_handle allowable_to_string developer (HsmdInit2 false []) (h, n)
       = ((h', n), Ok (true, Some (HsmdInit2Reply n.(node_id)))) /\ into_root (E:=HandlerError) h' = Ok (mkRootHandler 4)).
Proof.
  destruct h as [max v]. cbv zeta. cbn [max_protocol_version init_protocol_version]. split_and!.
  - intros [v' ->]. done.
  - intros ->. split.
    + intros -> Hd. unfold init_handle, init_do_handle, hsmd_init. rewrite get_bind. cbn. by rewrite Hd.
    + intros Hdev. assert (Hnd : negb developer && m.(has_developer_fields) = false)
        by (destruct Hdev as [->| ->]; [done|by rewrite andb_false_r]).
      unfold init_handle, init_do_handle, hsmd_init, MIN_PROTOCOL_VERSION. rewrite !get_bind. cbn [init_protocol_version]. rewrite bool_decide_eq_true_2 by done.
      cbv [rassert]. rewrite call_Ok_bind, !get_bind, Hnd. cbn [when max_protocol_version]. rewrite call_Ok_bind. split.
      * intros [Hlt|Hlt].
        -- destruct (Z.leb_spec (hsm_wire_min_version m) max); [lia|done].
        -- destruct (hsm_wire_min_version m <=? max); [|done]. rewrite call_Ok_bind.
           destruct (Z.leb_spec 2 (hsm_wire_max_version m)); [lia|done].
      * intros Hmin Hmax. rewrite !(proj2 (Z.leb_le _ _)) by lia. rewrite !call_Ok_bind.
        exists (mkInitHandler max (Some (Z.min max m.(hsm_wire_max_version)))), (mkRootHandler (Z.min max m.(hsm_wire_max_version))).
        eexists. split; [reflexivity|]. split; [done|]. split; [done|]. cbn [for_new_client ch_protocol_version rh_protocol_version].
        destruct (Z.ltb_spec (Z.min max (hsm_wire_max_version m)) 4); [done|]. split_and!; try done.
        unfold hsm_capabilities. destruct (Z.leb_spec PROTOCOL_VERSION_REVOKE (Z.min max (hsm_wire_max_version m))) as [Hv|Hv].
        -- split; [done|]. intros _. apply elem_of_app. right. by left.
        -- split; [|lia]. intros Hin. exfalso. apply (bool_decide_unpack (RevokeCommitmentTx_TYPE ∉ [28; 142; 147; 149; 29; 32; 34])); [done|].
           by rewrite app_nil_r in Hin.
  - intros -> ->. eexists. split; [reflexivity|]. done.
Qed.
End Negotiation.

(** ** A signer to evaluate the model *)
Definition sample_input_signer : InputSigner := {|
  close_pubkey _ := 0; close_script_len _ := 30; script_len _ := 40; item_script _ := 9; script_push s := s;
  revocation_from_basepoint b p := b + p; legacy_signature_hash _ _ _ := Some 1; p2wpkh_signature_hash _ _ _ _ := Some 1;
  taproot_signature_hash _ _ _ := Some 1; sign_input_ecdsa h _ := h; sign_input_schnorr h _ := h
|}.
Definition sample_keys_manager : KeysManager := {|
  km_sign_bolt12 _ _ _ _ := Some 1; km_sign_bolt12_2 _ _ _ _ _ := Some 1; km_derive_secret _ := 1; km_bolt12_pubkey := 1;
  ecdh k := [k]; sign_recoverable m := m; sign_gossip _ := 1; compact_signature _ := replicate 64 1;
  sign_announcement _ := 1; keyed_anchor_redeemscript k := k; sign_keyed_anchor_input _ _ _ := Some 1;
  secure_random_bytes := replicate 32 0
|}.
Definition sample_codec : RequestCodec unit := {|
  from_utf8 _ := Some "text"; Invoice_from_str _ := Some tt; signed_raw_invoice _ _ := None;
  UnsignedBolt12_try_from _ := None; Signature_from_compact := head; deserialize_proof _ := None;
  channel_entry_from_json _ := None; script_as_bytes s := [s]
|}.

Section Samples.
#[local] Instance handler_profile : Profile := release_profile.
#[local] Existing Instance sample_chain_packages.
#[local] Existing Instance sample_provider.
#[local] Existing Instance sample_signer.
#[local] Existing Instance sample_checks.
#[local] Existing Instance sample_node_transactions.
#[local] Existing Instance unit_invoice.
#[local] Existing Instance SimpleValidator_policy.
#[local] Existing Instance sample_input_signer.
#[local] Existing Instance sample_keys_manager.
#[local] Existing Instance sample_codec.

Abbreviation sample_signer_node := (PositiveApprover * Node (P:=DummyPersister))%type (only parsing).
Definition sample_txid (tx : Transaction) : Txid := tx.(version).
Definition no_clocks : Clocks := mkClocks 0 0 0 0.
Definition sample_root (msg : Message) : method sample_signer_node HandlerError Reply :=
  root_handle sample_policy sample_policy sample_txid always_persists false false (fun _ _ => true) no_clocks msg.
Definition sample_channel_request (version : Z) (msg : Message) : method (Node (P:=DummyPersister)) HandlerError Reply :=
  channel_handle sample_policy elements always_persists (mkChannelHandler version 5 opened_id) msg.
Definition forgotten := sample_root (ForgetChannel peer 5) (mkPositiveApprover, opened_node).
Definition beaten := sample_root GetHeartbeat forgotten.1.

Lemma forgotten_id_refused_witness :
  exists reply, sample_root (NewChannel (replicate 33 3) 4) beaten.1 = (beaten.1, Err reply).
Proof.
  eexists. refine (forgotten_id_refused (I:=unit) (A:=PositiveApprover) sample_policy sample_policy sample_txid elements id
    always_persists (fun _ => "entry") false false (mkPositiveApprover, opened_node) forgotten.1 beaten.1
    (fun _ _ => true) (fun _ _ => true) no_clocks no_clocks peer (replicate 33 3) 5 4 _ _ _ _ _).
  - unfold u64, uint. lia.
  - vm_compute. by eexists.
  - vm_compute. reflexivity.
  - apply rtc_once. eapply served_root. unfold beaten. apply surjective_pairing.
  - lia.
Defined.

(** A signer that starts, opens a channel and sets it up. *)
Definition built :=
  handler_build (P:=DummyPersister) sample_policy elements (fun _ => "entry") (fun _ => block_header (sample_headers 0))
    (fun _ => None) Bitcoin 7 [] [] 6 mkDummyPersister.
Definition started : Node (P:=DummyPersister) := match built with Ok (_, n) => n | _ => empty_node end.
Definition setup_message : SetupChannel :=
  mkSetupChannel true 3000000 0 77 0 144 [] (mkBasepoints [1] [2] [3] [4]) [5] 144 [] [0; 16; 0].
Definition opened := sample_root (NewChannel peer 5) (mkPositiveApprover, started).
Definition readied := sample_channel_request 6 (M_SetupChannel setup_message) opened.1.2.

Lemma connection_references_resolve_witness : readied.2 = Ok SetupChannelReply /\ refs_ok readied.1.
Proof.
  split; [vm_compute; reflexivity|].
  refine (connection_references_resolve (I:=unit) (A:=PositiveApprover) sample_policy sample_policy sample_txid elements id
    always_persists (fun _ => "entry") false false (fun _ => block_header (sample_headers 0)) (fun _ => None) Bitcoin 7 [] []
    6 mkDummyPersister (mkInitHandler 6 None) started mkPositiveApprover (mkPositiveApprover, readied.1) _ _ _).
  - reflexivity.
  - vm_compute. reflexivity.
  - apply (rtc_l _ _ opened.1); [|apply rtc_once].
    + eapply served_root. apply (surjective_pairing opened).
    + assert (Ho : opened.1 = (mkPositiveApprover, opened.1.2)) by (by destruct opened.1 as [[] ?]). rewrite Ho.
      eapply served_channel. apply (surjective_pairing readied).
Defined.

(** A second channel is opened and set up; the first stays as it was. *)
Definition second_id : ChannelId := new_from_peer_id_and_oid peer 6.
Definition two_channels := (sample_root (NewChannel peer 6) (mkPositiveApprover, readied.1)).1.2.
Definition second_request : method (Node (P:=DummyPersister)) HandlerError Reply :=
  channel_handle sample_policy elements always_persists (mkChannelHandler 6 6 second_id) (M_SetupChannel setup_message).
Definition second_setup := second_request two_channels.

Lemma two_channels_refs : refs_ok two_channels.
Proof.
  apply (wp_run (node_new_channel sample_policy 6 peer) (fun _ => refs_ok) readied.1 _ (node_new_channel sample_policy 6 peer readied.1).2);
    [|unfold two_channels; vm_compute; reflexivity].
  apply new_channel_refs. unfold readied.
  refine (proj1 (channel_request_confined sample_policy elements always_persists (mkChannelHandler 6 5 opened_id)
    (M_SetupChannel setup_message) opened.1.2 readied.1 readied.2 _ _)); [apply surjective_pairing|].
  apply (wp_run (node_new_channel sample_policy 5 peer) (fun _ => refs_ok) started _ (node_new_channel sample_policy 5 peer started).2);
    [|unfold opened; vm_compute; reflexivity].
  apply new_channel_refs, fresh_node_refs. by unfold fresh_node; split_and!.
Qed.

Lemma channel_request_isolated_witness :
  second_setup.2 = Ok SetupChannelReply /\ second_setup.1.(channels) !! opened_id = Some 2%nat.
Proof.
  split; [vm_compute; reflexivity|].
  destruct (channel_request_isolated sample_policy elements always_persists (mkChannelHandler 6 6 second_id)
    (M_SetupChannel setup_message) two_channels second_setup.1 second_setup.2) as (_ & _ & _ & Hother).
  - apply two_channels_refs.
  - apply surjective_pairing.
  - destruct (Hother opened_id) as [Hid _]; [vm_compute; discriminate|]. rewrite Hid. vm_compute. reflexivity.
Defined.

(** A channel with a validated second commitment revokes the first. *)
Definition pending_node : Node (P:=DummyPersister) :=
  with_node_state (with_slot ready_node 2 (ReadySlot sample_4.1 1)) sample_4.2.
Definition revoked := sample_channel_request 6 (RevokeCommitmentTx 0) pending_node.


Lemma negotiation_outcome_witness :
  exists h' root reply,
    init_handle (fun _ => "entry") false (M_HsmdInit (mkHsmdInit false 3 5)) (mkInitHandler 6 None, started)
      = ((h', started), Ok (true, Some reply)) /\ into_root (E:=HandlerError) h' = Ok root /\
    (for_new_client root peer 5).(ch_protocol_version) = 5.
Proof.
  destruct (negotiation_outcome (fun _ => "entry") false (mkInitHandler 6 None) started (mkHsmdInit false 3 5) peer 5)
    as (_ & Hinit & _).
  destruct (Hinit eq_refl) as [_ [_ Hok]]; [by right|].
  destruct Hok as (h' & root & reply & Ho & Hr & Hv & _); [cbn; lia|cbn; lia|]. exists h', root, reply. done.
Defined.

(** A funding outpoint can be set up twice. A signer that opens two channels and
    sets both up with the same funding accepts; then the tracker has no listener
    for the monitor of the first channel, which sees no further block, and a store
    that holds both channels cannot be restored. *)
Theorem shared_funding_accepted :
  exists n : Node (P:=DummyPersister),
    rtc (served (I:=unit) sample_policy sample_policy sample_txid elements always_persists (fun _ => "entry") false false)
      (mkPositiveApprover, started) (mkPositiveApprover, n) /\
    exists r1 r2 chan1 chan2 mon1 mon2,
      n.(channels) !! opened_id = Some r1 /\ n.(slots) !! r1 = Some (ReadySlot chan1 mon1) /\
      n.(channels) !! second_id = Some r2 /\ n.(slots) !! r2 = Some (ReadySlot chan2 mon2) /\
      chan1.(setup).(Types.funding_outpoint) = chan2.(setup).(Types.funding_outpoint) /\
      (forall o s, n.(tracker).(listeners) !! o <> Some (mon1, s)) /\
      forall config id derived oracles st (p : Saved) n',
        saved_channels p = [(opened_id, channel_entry chan1); (second_id, channel_entry chan2)] ->
        node_from_persistence sample_policy elements config id derived oracles st p <> Ok n'.
Proof.
  exists second_setup.1. split.
  - assert (Ho : forall s : sample_signer_node, s = (mkPositiveApprover, s.2)) by (by intros [[] ?]).
    apply (rtc_l _ _ opened.1); [eapply served_root, (surjective_pairing opened)|].
    apply (rtc_l _ _ (mkPositiveApprover, readied.1)); [rewrite (Ho opened.1); eapply served_channel, (surjective_pairing readied)|].
    apply (rtc_l _ _ (mkPositiveApprover, two_channels)).
    { eapply (served_root _ _ _ _ _ _ _ _ (fun _ _ => true) no_clocks (NewChannel peer 6)).
      unfold two_channels. rewrite <- (Ho (sample_root (NewChannel peer 6) (mkPositiveApprover, readied.1)).1).
      apply surjective_pairing. }
    apply rtc_once. eapply served_channel, (surjective_pairing second_setup).
  - eexists _, _, _, _, _, _. split; [vm_compute; reflexivity|]. split; [vm_compute; reflexivity|].
    split; [vm_compute; reflexivity|]. split; [vm_compute; reflexivity|]. split; [reflexivity|]. split.
    + intros o s. assert (Hl : exists s', listeners (tracker second_setup.1) = {[mkOutPoint 77 0 := (4%nat, s')]})
        by (eexists; vm_compute; reflexivity).
      destruct Hl as [s' ->]. by intros [_ ?]%lookup_singleton_Some.
    + intros config id derived oracles st p n' Hp Hn.
      apply (restart_needs_distinct sample_policy elements config id derived oracles st p (saved_channels p)) in Hn; [|done].
      rewrite Hp in Hn. apply NoDup_cons in Hn as [Hn _]. apply Hn. by left.
Qed.
End Samples.
