(* ===== verification/WithdrawalSafety.v ===== *)
(** * Properties of withdrawals

    A withdrawal is signed only after the policy or the approver allowed it, and only
    the inputs that the request lists as ours get a witness, each with the key whose
    script the spent output pays. *)
From S2P Require Import Prelude Velocity Policy Ordered CommitInfo Types Bitcoin Script Secrets Enforcement SimpleValidator Validator NodeState NodeSafety Channel ChannelSafety TxValidator TxSafety ChannelTx ChannelTxSafety Monitor Tracker ChainSafety TrackerSafety BTree Kvv Persister PersisterSafety Node NodeChannels Approver Wire Messages Withdrawal Handler HandlerSafety.

(** ** Maps and folds that may fail *)
Lemma map_res_lookup {E A B : Type} (f : A -> res E B) l l' i y :
  map_res f l = Ok l' -> l' !! i = Some y -> exists x, l !! i = Some x /\ f x = Ok y.
Proof.
  revert l' i. induction l as [|x l IH]; intros l' i; cbn [map_res].
  - by intros [= <-].
  - intros Hm. apply bind_Ok in Hm as (y0 & Hy & Hm). apply bind_Ok in Hm as (ys & Hys & [= <-]).
    destruct i as [|i]; cbn; [intros [= <-]; by exists x|]. by apply IH.
Qed.

Lemma map_res_length {E A B : Type} (f : A -> res E B) l l' : map_res f l = Ok l' -> length l' = length l.
Proof.
  revert l'. induction l as [|x l IH]; intros l'; cbn [map_res]; [by intros [= <-]|].
  intros Hm. apply bind_Ok in Hm as (y0 & Hy & Hm). apply bind_Ok in Hm as (ys & Hys & [= <-]). cbn. f_equal. by apply IH.
Qed.

Lemma imap_pair_lookup {A : Type} (l : list A) i p : imap pair l !! i = Some p -> exists x, l !! i = Some x /\ p = (i, x).
Proof. rewrite list_lookup_imap. destruct (l !! i) as [x|]; intros; simplify_eq/=. by exists x. Qed.

(** Only the witness of an input is set, and only where there is a stack. *)
Lemma fill_witness_Ok {E : Type} ins idx stack ins' :
  fill_witness (E:=E) ins (idx, stack) = Ok ins' ->
  length ins' = length ins /\
  forall i x, ins' !! i = Some x ->
    exists x0, ins !! i = Some x0 /\ x.(witness_utxo) = x0.(witness_utxo) /\
      (x = x0 \/ i = idx /\ stack <> [] /\ x = with_script_witness x0 (Some stack)).
Proof.
  unfold fill_witness. case_bool_decide as Hs; [intros [= <-]; split; [done|]; intros i x Hx; exists x; auto|].
  intros Hf. apply bind_Ok in Hf as (x1 & Hx1 & [= <-]). apply unwrap_Some in Hx1. split; [apply length_insert|].
  intros i x. destruct (decide (i = idx)) as [->|Hne].
  - rewrite list_lookup_insert_eq by (by eapply lookup_lt_Some). intros [= <-]. exists x1. auto 10.
  - rewrite list_lookup_insert_ne by done. intros Hx. exists x. auto.
Qed.

Lemma fill_witnesses_Ok {E : Type} (w : list (nat * list WitnessItem)) ins ins' :
  fold_res (fill_witness (E:=E)) ins w = Ok ins' ->
  length ins' = length ins /\
  forall i x, ins' !! i = Some x ->
    exists x0, ins !! i = Some x0 /\ x.(witness_utxo) = x0.(witness_utxo) /\
      (x.(final_script_witness) = x0.(final_script_witness) \/
       exists stack, (i, stack) ∈ w /\ stack <> [] /\ x.(final_script_witness) = Some stack).
Proof.
  revert ins. induction w as [|[idx stack] w IH]; intros ins; cbn [fold_res].
  - intros [= <-]. split; [done|]. intros i x Hx. exists x. auto.
  - intros Hf. apply bind_Ok in Hf as (ins1 & H1 & Hf). apply fill_witness_Ok in H1 as [Hl1 H1].
    apply IH in Hf as [Hl2 H2]. split; [congruence|]. intros i x Hx.
    destruct (H2 _ _ Hx) as (x1 & Hx1 & Hu1 & Hw1). destruct (H1 _ _ Hx1) as (x0 & Hx0 & Hu0 & Hw0).
    exists x0. split; [done|]. split; [congruence|].
    destruct Hw1 as [Hw1|(st & Hin & Hst & Hw1)]; [|right; exists st; split; [by right|done]].
    destruct Hw0 as [->|(-> & Hst & ->)]; [by left|]. right. exists stack. split; [by left|]. done.
Qed.

(** ** Which inputs are signed *)
Section Signed.
Context `{BitcoinLib} `{LightningLib} `{SpendScripts} `{WalletKeys} `{InputSigner}.

(** The script pays the key of the wallet at the path. A script hash is not looked into. *)
Definition pays_wallet (wallet : NodeWallet) (script : ScriptBuf) (path : DerivationPath) : Prop :=
  match from_script_pubkey script with
  | P2pkh => script = p2pkh_script (account_pubkey path)
  | P2wpkh => script = p2wpkh_script (account_pubkey path)
  | P2shP2wpkh => script = p2shwpkh_script (account_pubkey path)
  | P2wsh => True
  | P2tr => exists addr, get_taproot_address wallet path = Ok addr /\ Address_from_script script = Some addr
  | Invalid => False
  end.

Lemma input_signature_pays wallet tx ipaths prev_outs idx prev path witness sig :
  ipaths !! idx = Some path ->
  input_signature wallet tx ipaths prev_outs idx prev (WalletKey path) witness = Ok sig ->
  pays_wallet wallet prev.(script_pubkey) path.
Proof.
  intros Hp Hs. unfold input_signature in Hs. cbn [input_pubkey] in Hs. unfold pays_wallet.
  destruct (from_script_pubkey _); try done.
  4: { rewrite Hp in Hs. cbn [unwrap mbind res_bind] in Hs. apply bind_Ok in Hs as (addr & Ha & Hs).
       apply bind_Ok in Hs as (out & Ho & Hs). exists addr. split; [done|].
       destruct (Z.eqb_spec addr out); [|done]. subst. by destruct (Address_from_script _); simplify_eq/=. }
  all: apply bind_Ok in Hs as ([] & Hr & _); unfold rassert in Hr; case_match eqn:Heq; [by apply Z.eqb_eq in Heq|done].
Qed.

Lemma sign_input_Ok wallet tx ipaths prev_outs idx uck stack :
  sign_input wallet tx ipaths prev_outs (idx, uck) = Ok stack -> stack <> [] ->
  exists prev sig rest, prev_outs !! idx = Some prev /\ stack = WitnessSignature sig :: rest /\
    (is_Some uck \/ uck = None /\ exists path, ipaths !! idx = Some path /\ path <> [] /\
                      pays_wallet wallet prev.(script_pubkey) path).
Proof.
  intros Hs Hne. unfold sign_input in Hs. apply bind_Ok in Hs as (prev & Hprev & Hs). apply unwrap_Some in Hprev.
  apply bind_Ok in Hs as (skip & Hskip & Hs). destruct skip; [by simplify_eq|].
  apply bind_Ok in Hs as ([key witness] & Hk & Hs). apply bind_Ok in Hs as (sig & Hsig & [= <-]).
  eexists prev, sig, _. split; [done|]. split; [reflexivity|].
  destruct uck as [u|]; [by left; eexists|]. right. split; [done|].
  destruct (bool_decide (_ = Invalid)); [done|]. apply bind_Ok in Hskip as (path & Hp & [= Hb]). apply bool_decide_eq_false in Hb.
  cbn [input_key] in Hk. rewrite Hp in Hk. cbn [mbind res_bind] in Hk. apply bind_Ok in Hk as (pk & _ & [= <- <-]).
  apply unwrap_Some in Hp. exists path. split_and!; [done..|]. by eapply input_signature_pays.
Qed.
End Signed.

Section WithdrawalProps.
Context `{Profile} `{BitcoinLib} `{LightningLib} `{SpendScripts} `{ChainPackages} `{CommitmentPointProvider} `{WalletKeys}.
Context `{InputSigner}.
Context {P : Type} `{!Persist P} {V : Type} `{HV : Validator V} `{TransactionValidator V NodeWallet}.
Context {I A : Type} `{!Approve I A}.
Context (validator : V) (compute_txid : Transaction -> Txid).

Abbreviation node := (Node (P:=P)) (only parsing).

(** A path or a close key comes from an entry of the request that spends the input. *)
Lemma input_sources_Ok utxos l (n n' : node) sources :
  input_sources utxos l n = (n', Ok sources) ->
  forall i path uck, sources !! i = Some (path, uck) -> path <> [] \/ is_Some uck ->
    exists txin utxo, l !! i = Some txin /\ utxo ∈ utxos /\ spends utxo txin = true /\ path = [utxo.(utxo_keyindex)] /\
      (is_Some uck <-> is_Some utxo.(utxo_close_info)).
Proof.
  revert n sources. induction l as [|txin l IH]; intros n sources; cbn [input_sources]; [by intros [= <- <-]|].
  intros Hrun. apply method_Ok in Hrun as (n1 & source & Hsrc & Hrun).
  apply method_Ok in Hrun as (n2 & rest & Hrest & [= <- <-]).
  intros [|i] path uck; cbn; [|by apply (IH _ _ Hrest)]. intros [= ->] Hne.
  destruct (List.find _ utxos) as [utxo|] eqn:Hfind; [|injection Hsrc as _ <- <-; by destruct Hne as [|[? ?]]].
  apply List.find_some in Hfind as [Hin Hsp]. apply list_elem_of_In in Hin.
  exists txin, utxo. split_and!; [done..| |].
  - destruct (utxo_close_info utxo); [apply method_Ok in Hsrc as (? & ? & _ & Hsrc)|]; by injection Hsrc.
  - destruct (utxo_close_info utxo); [apply method_Ok in Hsrc as (? & ? & _ & Hsrc)|]; injection Hsrc as _ _ <-.
    + split; by eexists.
    + by split; intros [? ?].
Qed.

(** The scripts that are filled in for nested inputs change nothing else. *)
Lemma populate_Ok {E : Type} k ins ins' i x :
  map_res (populate_script_sig (E:=E) k) (imap pair ins) = Ok ins' -> ins' !! i = Some x ->
  exists x0, ins !! i = Some x0 /\ x.(witness_utxo) = x0.(witness_utxo) /\
    x.(final_script_witness) = x0.(final_script_witness).
Proof.
  intros Hm Hx. destruct (map_res_lookup _ _ _ _ _ Hm Hx) as (p & Hp & Hf).
  apply imap_pair_lookup in Hp as (x0 & Hx0 & ->). exists x0. split; [done|].
  unfold populate_script_sig in Hf. repeat case_match; simplify_eq/=; try done.
  apply bind_Ok in Hf as (? & _ & [= <-]). done.
Qed.

Lemma on_node_Ok {B : Type} (m : method node Status B) (a a' : A) n n' b :
  on_node m (a, n) = ((a', n'), Ok b) -> a' = a /\ m n = (n', Ok b).
Proof. unfold on_node. destruct (m n) as [n1 r]. by intros [= <- <- ->]. Qed.

Lemma proposed_onchain_Ok now tx flags prev_outs ucks opaths (a a' : A) (n n' : node) :
  handle_proposed_onchain (I:=I) validator compute_txid now tx flags prev_outs ucks opaths (a, n) = ((a', n'), Ok true) ->
  exists checked, check_onchain_tx validator compute_txid now tx flags prev_outs ucks opaths n = (n', checked) /\
    (is_ok checked = true \/
     exists ve indices, checked = Err ve /\ ve.(kind) = UnknownDestinations indices /\
       approve_onchain (I:=I) tx prev_outs indices a = (a', Ok true)).
Proof.
  unfold handle_proposed_onchain. destruct (check_onchain_tx _ _ _ _ _ _ _ _ n) as [n1 [u|ve|]].
  - intros [= <- <-]. eexists. split; [reflexivity|]. by left.
  - destruct (kind ve) as [| | | | |indices] eqn:Hk; try done. unfold on_approver.
    destruct (approve_onchain tx prev_outs indices a) as [a1 r] eqn:Hap. intros [= <- <- ->].
    eexists. split; [reflexivity|]. right. by exists ve, indices.
  - done.
Qed.

(** The spent outputs are those of the PSBT. *)
Lemma populated_prev_outs {E : Type} (ins : list PsbtInput) prev_outs :
  map_res (fun i => unwrap (E:=E) i.(witness_utxo)) ins = Ok prev_outs -> (witness_utxo <$> ins) = (Some <$> prev_outs).
Proof.
  revert prev_outs. induction ins as [|x ins IH]; intros prev_outs; cbn [map_res]; [by intros [= <-]|].
  intros Hm. apply bind_Ok in Hm as (o & Ho & Hm). apply bind_Ok in Hm as (os & Hos & [= <-]). apply unwrap_Some in Ho.
  cbn. by rewrite Ho, (IH _ Hos).
Qed.

Lemma sign_onchain_Ok {B : Type} (signed : res Status B) tx (n n' : node) b :
  unchecked_sign_onchain_tx compute_txid signed tx n = (n', Ok b) -> signed = Ok b.
Proof.
  unfold unchecked_sign_onchain_tx. rewrite get_bind. intros Hrun. apply call_Ok in Hrun as (b' & -> & Hrun).
  apply method_Ok in Hrun as (? & ? & _ & Hrun). apply method_Ok in Hrun as (? & ? & _ & [= _ <-]). done.
Qed.

Lemma elem_of_imap_pair {B : Type} (l : list B) i x : (i, x) ∈ imap pair l -> l !! i = Some x.
Proof.
  intros [j Hj]%list_elem_of_lookup. apply imap_pair_lookup in Hj as (y & Hy & [= -> ->]). done.
Qed.

(** A witness that is filled in was made for the source of its input. *)
Lemma sign_inputs_Ok wallet tx (sources : list (DerivationPath * option (SigningKey * CloseWitness))) prev_outs witvec i stack :
  sign_inputs wallet tx sources.*1 prev_outs sources.*2 = Ok witvec -> witvec !! i = Some stack -> stack <> [] ->
  exists prev sig rest path uck, sources !! i = Some (path, uck) /\ (path <> [] \/ is_Some uck) /\
    prev_outs !! i = Some prev /\ stack = WitnessSignature sig :: rest /\
    (uck = None -> pays_wallet wallet prev.(script_pubkey) path).
Proof.
  intros Hs Hi Hne. destruct (map_res_lookup _ _ _ _ _ Hs Hi) as (p & Hp & Hsign).
  apply imap_pair_lookup in Hp as (uck & Huck & ->). rewrite list_lookup_fmap in Huck.
  destruct (sources !! i) as [[path uck']|] eqn:Hsrc; simplify_eq/=.
  destruct (sign_input_Ok _ _ _ _ _ _ _ Hsign Hne) as (prev & sig & rest & Hprev & -> & Hcase).
  exists prev, sig, rest, path, uck. split_and!; try done.
  - destruct Hcase as [?|(-> & path' & Hp & ? & _)]; [by right|]. rewrite list_lookup_fmap, Hsrc in Hp. simplify_eq/=. by left.
  - intros ->. destruct Hcase as [[? ?]|(_ & path' & Hp & _ & ?)]; [done|]. rewrite list_lookup_fmap, Hsrc in Hp. by simplify_eq/=.
Qed.

End WithdrawalProps.

(** ** The outputs that a PSBT spends *)
Section StreamedProps.
Context (compute_txid : Transaction -> Txid) (is_witness_program : ScriptBuf -> bool).

(** The output that an input of [tx] spends, by the previous transaction. *)
Definition spent_output (tx : Transaction) (ind : nat) (prev : Transaction) (out : TxOut) : Prop :=
  exists txin, tx.(input) !! ind = Some txin /\ compute_txid prev = txin.(previous_output).(txid) /\
    prev.(output) !! Z.to_nat txin.(previous_output).(vout) = Some out.

Lemma summarize_input_Ok tx ind i i' segwit :
  summarize_input compute_txid is_witness_program tx ind i = Ok (i', segwit) ->
  match i.(non_witness_utxo) with
  | None => i' = i /\ segwit = false
  | Some prev => exists out, spent_output tx ind prev out /\ i'.(witness_utxo) = Some out /\
      i'.(non_witness_utxo) = None /\ segwit = is_witness_program out.(script_pubkey) /\
      (forall o, i.(witness_utxo) = Some o -> o = out)
  end.
Proof.
  unfold summarize_input. destruct i.(non_witness_utxo) as [prev|]; [|by intros [= <- <-]].
  intros Hs. apply bind_Ok in Hs as (txin & Htx%unwrap_Some & Hs).
  apply bind_Ok in Hs as ([] & Hid & Hs). destruct (Z.eqb_spec (compute_txid prev) txin.(previous_output).(txid)); [|done].
  apply bind_Ok in Hs as ([] & _ & Hs). apply bind_Ok in Hs as (out & Hout%unwrap_Some & Hs).
  exists out. split; [by exists txin|]. destruct i.(witness_utxo) as [o|].
  - case_bool_decide as Ho; [done|]. subst o. injection Hs as <- <-. split_and!; try done.
    by intros ? [= <-].
  - injection Hs as <- <-. by split_and!.
Qed.

(** Segwit flags are sound. In a PSBT that was read, the transaction and the
    outputs are those that were sent, and there is a flag for each input. An input
    that came with its previous transaction has that transaction dropped, and the
    output that it spends: the one of the transaction with the id that the input
    names, which is the output that the request declared, if it declared one; its
    flag says whether this output is a witness program. Any other input is as it
    was sent and is flagged as not segwit. *)
Theorem segwit_flags_sound (global : Psbt) (streamed : StreamedPSBT) :
  StreamedPSBT_from compute_txid is_witness_program global = Ok streamed ->
  streamed.(psbt).(unsigned_tx) = global.(unsigned_tx) /\ streamed.(psbt).(outputs) = global.(outputs) /\
  length streamed.(segwit_flags) = length global.(inputs) /\ length streamed.(psbt).(inputs) = length global.(inputs) /\
  forall ind i' flag,
    streamed.(psbt).(inputs) !! ind = Some i' -> streamed.(segwit_flags) !! ind = Some flag ->
    exists i, global.(inputs) !! ind = Some i /\
      match i.(non_witness_utxo) with
      | None => i' = i /\ flag = false
      | Some prev => exists out, spent_output global.(unsigned_tx) ind prev out /\ i'.(witness_utxo) = Some out /\
          i'.(non_witness_utxo) = None /\ flag = is_witness_program out.(script_pubkey) /\
          (forall o, i.(witness_utxo) = Some o -> o = out)
      end.
Proof.
  intros Hs. unfold StreamedPSBT_from in Hs. apply bind_Ok in Hs as (l & Hl & [= <-]). cbn.
  assert (Hlen := map_res_length _ _ _ Hl). rewrite length_imap in Hlen. rewrite !length_fmap. split_and!; try done.
  intros ind i' flag Hi Hf. rewrite list_lookup_fmap in Hi. rewrite list_lookup_fmap in Hf.
  destruct (l !! ind) as [[x y]|] eqn:Hx; simplify_eq/=. destruct (map_res_lookup _ _ _ _ _ Hl Hx) as (p & Hp & Hsum).
  apply imap_pair_lookup in Hp as (i & Hi & ->). exists i. split; [done|]. by apply summarize_input_Ok.
Qed.

End StreamedProps.

(** An input with its previous transaction, and one without. *)
Definition spent_tx : Transaction := mkTransaction 5 0 [] [mkTxOut 600000 500].
Definition received_psbt : Psbt :=
  mkPsbt (mkTransaction 2 0 [mkTxIn (mkOutPoint 5 0) 0; mkTxIn (mkOutPoint 6 0) 0] [])
    [mkPsbtInput (Some spent_tx) None None None None; mkPsbtInput None (Some (mkTxOut 7 500)) None None None] [].
Definition read_psbt : StreamedPSBT :=
  mkStreamedPSBT (mkPsbt received_psbt.(unsigned_tx)
    [mkPsbtInput None (Some (mkTxOut 600000 500)) None None None; mkPsbtInput None (Some (mkTxOut 7 500)) None None None] [])
    [true; false].

Lemma segwit_flags_sound_witness :
  exists out, spent_output (fun tx => tx.(version)) received_psbt.(unsigned_tx) 0 spent_tx out /\ out.(value) = 600000.
Proof.
  destruct (segwit_flags_sound (fun tx => tx.(version)) (fun s => s =? 500) received_psbt read_psbt) as (_ & _ & _ & _ & Hins).
  - vm_compute. reflexivity.
  - destruct (Hins 0%nat _ _ eq_refl eq_refl) as (i & [= <-] & out & Hout & [= <-] & _). by exists (mkTxOut 600000 500).
Defined.

(** ** A withdrawal *)
Section WithdrawalSample.
#[local] Instance withdrawal_profile : Profile := release_profile.
#[local] Existing Instance sample_chain_packages.
#[local] Existing Instance sample_provider.
#[local] Existing Instance sample_signer.
#[local] Existing Instance sample_checks.
#[local] Existing Instance sample_node_transactions.
#[local] Existing Instance sample_input_signer.

(** An input of ours at index 500 and one that the request does not list. *)
Definition withdrawal_tx : Transaction :=
  mkTransaction 2 0 [mkTxIn (mkOutPoint 5 0) 0; mkTxIn (mkOutPoint 6 0) 0] [mkTxOut 1000000 999].
Definition spent_input (value : Z) : PsbtInput := mkPsbtInput None (Some (mkTxOut value 500)) None None None.
Definition withdrawal_request : StreamedPSBT :=
  mkStreamedPSBT (mkPsbt withdrawal_tx [spent_input 600000; spent_input 400500] [mkPsbtOutput [] [] None]) [true; true].
Definition withdrawn :=
  sign_withdrawal (I:=unit) sample_policy sample_txid 0 withdrawal_request [mkUtxo 5 0 500 None]
    (mkPositiveApprover, empty_node).
Definition withdrawn_psbt : StreamedPSBT := match withdrawn.2 with Ok s => s | _ => withdrawal_request end.

End WithdrawalSample.
