(* ===== verification/ChaCha.v ===== *)
(** * The stream cipher of the storage client

    [lib/src/chacha20.rs] of the lightning storage server.  The source keeps the
    sixteen words of the cipher as four rows and shuffles the rows between the
    column and the diagonal rounds; it produces the key stream block by block
    into a buffer and consumes the buffer in pieces.  The theorem compares this
    with the definition of RFC 8439: quarter rounds on single words, and byte
    [i] of the message combined with byte [i] of the key stream. *)
From S2P Require Import Prelude Ordered Types.

(** ** Rows of four words

    Shift amounts are constants below the width, so [<<] and [>>] do not
    overflow. *)
Record u32x4 := U32x4 { w0 : Z; w1 : Z; w2 : Z; w3 : Z }.

Definition wrapping_add (a b : Z) : Z := (a + b) mod 2 ^ 32.
Definition wrapping_sub (a b : Z) : Z := (a - b) mod 2 ^ 32.
Definition shr (a b : Z) : Z := Z.shiftr a b.
Definition shl (a b : Z) : Z := Z.shiftl a b mod 2 ^ 32.

Definition lanes (f : Z -> Z -> Z) (x y : u32x4) : u32x4 :=
  U32x4 (f x.(w0) y.(w0)) (f x.(w1) y.(w1)) (f x.(w2) y.(w2)) (f x.(w3) y.(w3)).

Definition u32x4_add : u32x4 -> u32x4 -> u32x4 := lanes wrapping_add.
Definition u32x4_sub : u32x4 -> u32x4 -> u32x4 := lanes wrapping_sub.
Definition u32x4_bitxor : u32x4 -> u32x4 -> u32x4 := lanes Z.lxor.
Definition u32x4_shr : u32x4 -> u32x4 -> u32x4 := lanes shr.
Definition u32x4_shl : u32x4 -> u32x4 -> u32x4 := lanes shl.

(** The only outcome of the cipher's methods besides a value is a panic; the
    error type marks a loop that ran out of fuel. *)
Inductive Fuel := OutOfFuel.

(** [bytes[a..b]] of a slice that is long enough. *)
Definition slice (l : list Z) (a b : nat) : list Z := take (b - a) (drop a l).

Definition from_bytes (bytes : list Z) : res Fuel u32x4 :=
  rassert (Nat.eqb (length bytes) 16) ;;
  Ok (U32x4 (from_le_bytes (slice bytes 0 4)) (from_le_bytes (slice bytes 4 8))
            (from_le_bytes (slice bytes 8 12)) (from_le_bytes (slice bytes 12 16))).

(** ** The state *)
Definition BLOCK_SIZE : nat := 64.

Record ChaChaState := mkChaChaState { row_a : u32x4; row_b : u32x4; row_c : u32x4; row_d : u32x4 }.
Record ChaCha20 := mkChaCha20 { state : ChaChaState; output : list Z; offset : nat }.

Definition splat (n : Z) : u32x4 := U32x4 n n n n.
Definition S32 : u32x4 := splat 32.
Definition S16 : u32x4 := splat 16.
Definition S12 : u32x4 := splat 12.
Definition S8 : u32x4 := splat 8.
Definition S7 : u32x4 := splat 7.

(** [rotate!(a, b, c)] assigns this to [a]. *)
Definition rotate (a b c : u32x4) : u32x4 :=
  let v := u32x4_bitxor a b in
  let r := u32x4_sub S32 c in
  let right := u32x4_shr v r in
  u32x4_bitxor (u32x4_shl v c) right.

Definition round (s : ChaChaState) : ChaChaState :=
  let '(mkChaChaState a b c d) := s in
  let a := u32x4_add a b in
  let d := rotate d a S16 in
  let c := u32x4_add c d in
  let b := rotate b c S12 in
  let a := u32x4_add a b in
  let d := rotate d a S8 in
  let c := u32x4_add c d in
  let b := rotate b c S7 in
  mkChaChaState a b c d.

(** [swizzle!] rotates its first argument by one word, its second by two and
    its third by three; the second use has the rows the other way round. *)
Definition swizzle (b c d : u32x4) : u32x4 * u32x4 * u32x4 :=
  (U32x4 b.(w1) b.(w2) b.(w3) b.(w0), U32x4 c.(w2) c.(w3) c.(w0) c.(w1), U32x4 d.(w3) d.(w0) d.(w1) d.(w2)).

Definition double_round (s : ChaChaState) : ChaChaState :=
  let s := round s in
  let '(b, c, d) := swizzle s.(row_b) s.(row_c) s.(row_d) in
  let s := round (mkChaChaState s.(row_a) b c d) in
  let '(d, c, b) := swizzle s.(row_d) s.(row_c) s.(row_b) in
  mkChaChaState s.(row_a) b c d.

Definition row_words (r : u32x4) : list Z := [r.(w0); r.(w1); r.(w2); r.(w3)].
Definition lens (s : ChaChaState) : list Z :=
  row_words s.(row_a) ++ row_words s.(row_b) ++ row_words s.(row_c) ++ row_words s.(row_d).

(** [state_to_buffer!]. *)
Definition state_to_buffer (s : ChaChaState) : list Z := mjoin (to_le_bytes 4 <$> lens s).

(** ** The cipher *)
Definition constant_16 : list Z := [101;120;112;97;110;100;32;49;54;45;98;121;116;101;32;107].
Definition constant_32 : list Z := [101;120;112;97;110;100;32;51;50;45;98;121;116;101;32;107].

Definition expand (key nonce : list Z) : res Fuel ChaChaState :=
  constant ← (if Nat.eqb (length key) 16 then Ok constant_16
              else if Nat.eqb (length key) 32 then Ok constant_32
              else Panic);
  a ← from_bytes (slice constant 0 16);
  b ← from_bytes (slice key 0 16);
  c ← (if Nat.eqb (length key) 16 then from_bytes (slice key 0 16) else from_bytes (slice key 16 32));
  d ← (if Nat.eqb (length nonce) 16 then from_bytes (slice nonce 0 16)
       else if Nat.eqb (length nonce) 12 then from_bytes (replicate 4 0 ++ nonce)
       else
         (* [copy_from_slice] panics when the lengths differ. *)
         rassert (Nat.eqb (length nonce) 8) ;;
         from_bytes (replicate 8 0 ++ nonce));
  Ok (mkChaChaState a b c d).

Definition ChaCha20_new (key nonce : list Z) : res Fuel ChaCha20 :=
  rassert (Nat.eqb (length key) 16 || Nat.eqb (length key) 32) ;;
  rassert (Nat.eqb (length nonce) 8 || Nat.eqb (length nonce) 12) ;;
  state ← expand key nonce;
  Ok (mkChaCha20 state (replicate BLOCK_SIZE 0) 64).

(** The rounds of [update], and the sum with the initial state. *)
Definition add_rows (m s : ChaChaState) : ChaChaState :=
  mkChaChaState (u32x4_add m.(row_a) s.(row_a)) (u32x4_add m.(row_b) s.(row_b))
                (u32x4_add m.(row_c) s.(row_c)) (u32x4_add m.(row_d) s.(row_d)).

Definition mixed (s : ChaChaState) : ChaChaState := add_rows (Nat.iter 10 double_round s) s.

Definition update : method ChaCha20 Fuel unit :=
  self ← get_self;
  let s := self.(state) in
  let out := state_to_buffer (mixed s) in
  let d := u32x4_add s.(row_d) (U32x4 1 0 0 0) in
  let s := mkChaChaState s.(row_a) s.(row_b) s.(row_c) d in
  set_self (mkChaCha20 s out self.(offset)) ;;
  call (rassert (negb (d.(w0) =? 0))) ;;
  set_self (mkChaCha20 s out 0).

Definition xor_into (src ks : list Z) : list Z := zip_with Z.lxor src ks.

(** The key stream for the next of the [left] bytes, in a buffer that is
    refilled when it is used up. *)
Definition refill : method ChaCha20 Fuel unit :=
  self ← get_self;
  if Nat.eqb self.(offset) BLOCK_SIZE then update else mret tt.

Definition serve (left : nat) : method ChaCha20 Fuel (list Z) :=
  self ← get_self;
  let count := Nat.min (BLOCK_SIZE - self.(offset)) left in
  call (rassert (Nat.leb (self.(offset) + count) (length self.(output)))) ;;
  mret (slice self.(output) self.(offset) (self.(offset) + count)).

Definition next_chunk (left : nat) : method ChaCha20 Fuel (list Z) := refill ;; serve left.

(** [self.offset += count]. *)
Definition advance (count : nat) : method ChaCha20 Fuel unit :=
  self ← get_self; set_self (mkChaCha20 self.(state) self.(output) (self.(offset) + count)).

(** [while i < len] of [process_in_place]; every iteration advances, so the
    length is enough fuel. *)
Fixpoint process_in_place_loop (fuel : nat) (i : nat) (input_output : list Z) : method ChaCha20 Fuel (list Z) :=
  if Nat.ltb i (length input_output) then
    match fuel with
    | O => call (Err OutOfFuel)
    | S fuel =>
        ks ← next_chunk (length input_output - i);
        let count := length ks in
        call (rassert (Nat.leb (i + count) (length input_output))) ;;
        advance count ;;
        process_in_place_loop fuel (i + count)
          (take i input_output ++ xor_into (slice input_output i (i + count)) ks ++ drop (i + count) input_output)
    end
  else mret input_output.

Definition process_in_place (input_output : list Z) : method ChaCha20 Fuel (list Z) :=
  process_in_place_loop (length input_output) 0 input_output.

Fixpoint process_loop (fuel : nat) (i : nat) (input output : list Z) : method ChaCha20 Fuel (list Z) :=
  if Nat.ltb i (length input) then
    match fuel with
    | O => call (Err OutOfFuel)
    | S fuel =>
        ks ← next_chunk (length input - i);
        let count := length ks in
        call (rassert (Nat.leb (i + count) (length output))) ;;
        call (rassert (Nat.leb (i + count) (length input))) ;;
        advance count ;;
        process_loop fuel (i + count) input
          (take i output ++ xor_into (slice input i (i + count)) ks ++ drop (i + count) output)
    end
  else mret output.

Definition process (input output : list Z) : method ChaCha20 Fuel (list Z) :=
  call (rassert (Nat.eqb (length input) (length output))) ;;
  process_loop (length input) 0 input output.

Definition get_single_block (key nonce : list Z) : res Fuel (list Z) :=
  state ← expand key nonce;
  (process_in_place (replicate 32 0) (mkChaCha20 state (replicate BLOCK_SIZE 0) 64)).2.

(** ** RFC 8439 *)
Module Rfc.
Definition add (a b : Z) : Z := (a + b) mod 2 ^ 32.
Definition rotl (n x : Z) : Z := (x * 2 ^ n) mod 2 ^ 32 + x / 2 ^ (32 - n).

(** 2.1: the quarter round. *)
Definition quarter_round (a b c d : Z) : Z * Z * Z * Z :=
  let a := add a b in let d := rotl 16 (Z.lxor d a) in
  let c := add c d in let b := rotl 12 (Z.lxor b c) in
  let a := add a b in let d := rotl 8 (Z.lxor d a) in
  let c := add c d in let b := rotl 7 (Z.lxor b c) in
  (a, b, c, d).

(** 2.2: on the vector of sixteen words. *)
Definition QUARTERROUND (i j k l : nat) (v : list Z) : list Z :=
  match v !! i, v !! j, v !! k, v !! l with
  | Some a, Some b, Some c, Some d =>
      let '(a, b, c, d) := quarter_round a b c d in
      <[i := a]> (<[j := b]> (<[k := c]> (<[l := d]> v)))
  | _, _, _, _ => v
  end.

(** 2.3: columns, then diagonals. *)
Definition inner_block (v : list Z) : list Z :=
  let v := QUARTERROUND 0 4 8 12 v in
  let v := QUARTERROUND 1 5 9 13 v in
  let v := QUARTERROUND 2 6 10 14 v in
  let v := QUARTERROUND 3 7 11 15 v in
  let v := QUARTERROUND 0 5 10 15 v in
  let v := QUARTERROUND 1 6 11 12 v in
  let v := QUARTERROUND 2 7 8 13 v in
  QUARTERROUND 3 4 9 14 v.

(** Little-endian words. *)
Fixpoint words (n : nat) (bytes : list Z) : list Z :=
  match n with
  | O => []
  | S n => from_le_bytes (take 4 bytes) :: words n (drop 4 bytes)
  end.

Definition constants : list Z := [0x61707865; 0x3320646e; 0x79622d32; 0x6b206574].

Definition chacha20_block (key : list Z) (counter : Z) (nonce : list Z) : list Z :=
  let initial_state := constants ++ words 8 key ++ [counter] ++ words 3 nonce in
  mjoin (to_le_bytes 4 <$> zip_with add (Nat.iter 10 inner_block initial_state) initial_state).

(** 2.4: byte [i] of the key stream that starts at block [counter]. *)
Definition key_stream (key : list Z) (counter : Z) (nonce : list Z) (i : nat) : Z :=
  nth (i mod 64) (chacha20_block key (counter + Z.of_nat (i / 64)) nonce) 0.

Definition chacha20_encrypt (key : list Z) (counter : Z) (nonce plaintext : list Z) : list Z :=
  imap (fun i b => Z.lxor b (key_stream key counter nonce i)) plaintext.
End Rfc.

(** The first key stream of the repository's test vectors. *)
Example tls_vector :
  let self := ChaCha20_new (replicate 32 0) (replicate 8 0) in
  (fun self => (process_in_place (replicate 16 0) self).2) <$> self
  = Ok (Ok [0x76;0xb8;0xe0;0xad;0xa0;0xf1;0x3d;0x90;0x40;0x5d;0x6a;0xe5;0x53;0x86;0xbd;0x28]).
Proof. vm_compute. reflexivity. Qed.

(** ** The rounds are those of the RFC *)
Definition row_u32 (r : u32x4) : Prop := u32 r.(w0) /\ u32 r.(w1) /\ u32 r.(w2) /\ u32 r.(w3).
Definition state_u32 (s : ChaChaState) : Prop :=
  row_u32 s.(row_a) /\ row_u32 s.(row_b) /\ row_u32 s.(row_c) /\ row_u32 s.(row_d).

Lemma wrapping_add_u32 (a b : Z) : u32 (wrapping_add a b).
Proof. apply Z.mod_pos_bound. lia. Qed.

Lemma u32_bits (x : Z) : u32 x <-> 0 <= x /\ forall i, 32 <= i -> Z.testbit x i = false.
Proof.
  unfold uint. split.
  - intros [Hx Hlt]. split; [done|]. intros i Hi. apply Z.bits_above_log2; [done|].
    destruct (decide (x = 0)) as [->|]; [cbn; lia|]. apply Z.log2_lt_pow2 in Hlt; lia.
  - intros [Hx Hb]. split; [done|]. destruct (decide (x = 0)) as [->|]; [lia|].
    apply Z.log2_lt_pow2; [lia|]. apply Z.nle_gt. intros Hle.
    pose proof (Z.bit_log2 x ltac:(lia)) as Ht. by rewrite Hb in Ht.
Qed.

Lemma lxor_u32 (x y : Z) : u32 x -> u32 y -> u32 (Z.lxor x y).
Proof.
  rewrite !u32_bits. intros [Hx Hxb] [Hy Hyb]. split; [by apply Z.lxor_nonneg|].
  intros i Hi. by rewrite Z.lxor_spec, Hxb, Hyb.
Qed.


(** The two halves of a rotation do not overlap. *)
Lemma rotate_rotl (v n : Z) : u32 v -> 0 < n < 32 -> Z.lxor (shl v n) (shr v (32 - n)) = Rfc.rotl n v.
Proof.
  intros Hv%u32_bits Hn. unfold shl, shr, Rfc.rotl. rewrite Z.shiftl_mul_pow2, Z.shiftr_div_pow2 by lia.
  symmetry. apply Z.add_nocarry_lxor, Z.bits_inj'. intros i Hi. rewrite Z.land_spec, Z.bits_0.
  destruct (decide (i < n)).
  - rewrite Z.mod_pow2_bits_low, Z.mul_pow2_bits_low by lia. done.
  - rewrite Z.div_pow2_bits, (proj2 Hv) by lia. apply andb_false_r.
Qed.

Lemma rotl_u32 (n v : Z) : u32 v -> 0 < n < 32 -> u32 (Rfc.rotl n v).
Proof.
  intros Hv Hn. rewrite <- rotate_rotl by done. apply lxor_u32.
  - apply Z.mod_pos_bound. lia.
  - unfold shr. rewrite Z.shiftr_div_pow2 by lia. unfold uint in *. split; [apply Z.div_pos; lia|].
    apply Z.div_lt_upper_bound; [lia|]. pose proof (Z.pow_pos_nonneg 2 (32 - n)). nia.
Qed.

#[local] Hint Resolve wrapping_add_u32 lxor_u32 rotl_u32 : signer.

Lemma rotate_lanes (a b : u32x4) (n : Z) :
  row_u32 a -> row_u32 b -> 0 < n < 32 -> rotate a b (splat n) = lanes (fun x y => Rfc.rotl n (Z.lxor x y)) a b.
Proof.
  intros (Ha0 & Ha1 & Ha2 & Ha3) (Hb0 & Hb1 & Hb2 & Hb3) Hn.
  assert (Hs : wrapping_sub 32 n = 32 - n) by (apply Z.mod_small; lia).
  unfold rotate, u32x4_bitxor, u32x4_shl, u32x4_shr, u32x4_sub, S32, lanes. cbn [splat w0 w1 w2 w3]. rewrite Hs.
  by rewrite !rotate_rotl by auto with signer.
Qed.

Lemma add_row_u32 (a b : u32x4) : row_u32 (u32x4_add a b).
Proof. repeat split; apply wrapping_add_u32. Qed.

Lemma rotl_row_u32 (a b : u32x4) (n : Z) :
  row_u32 a -> row_u32 b -> 0 < n < 32 -> row_u32 (lanes (fun x y => Rfc.rotl n (Z.lxor x y)) a b).
Proof. intros (?&?&?&?) (?&?&?&?) Hn. split_and!; apply rotl_u32; auto with signer. Qed.

Lemma rotate_row_u32 (a b : u32x4) (n : Z) :
  row_u32 a -> row_u32 b -> 0 < n < 32 -> row_u32 (rotate a b (splat n)).
Proof. intros Ha Hb Hn. rewrite rotate_lanes by done. by apply rotl_row_u32. Qed.

#[local] Hint Resolve add_row_u32 rotl_row_u32 rotate_row_u32 : signer.
#[local] Hint Extern 1 (_ < _ < _) => lia : signer.

Lemma round_u32 (s : ChaChaState) : state_u32 s -> state_u32 (round s).
Proof.
  destruct s as [a b c d]. intros (Ha & Hb & Hc & Hd). unfold round, S16, S12, S8, S7. cbn [row_a row_b row_c row_d] in *.
  split_and!; eauto 12 with signer.
Qed.

(** A round is a quarter round on each column. *)
Lemma round_columns (a0 a1 a2 a3 b0 b1 b2 b3 c0 c1 c2 c3 d0 d1 d2 d3 : Z) :
  let s := mkChaChaState (U32x4 a0 a1 a2 a3) (U32x4 b0 b1 b2 b3) (U32x4 c0 c1 c2 c3) (U32x4 d0 d1 d2 d3) in
  state_u32 s ->
  round s =
  let '(a0, b0, c0, d0) := Rfc.quarter_round a0 b0 c0 d0 in
  let '(a1, b1, c1, d1) := Rfc.quarter_round a1 b1 c1 d1 in
  let '(a2, b2, c2, d2) := Rfc.quarter_round a2 b2 c2 d2 in
  let '(a3, b3, c3, d3) := Rfc.quarter_round a3 b3 c3 d3 in
  mkChaChaState (U32x4 a0 a1 a2 a3) (U32x4 b0 b1 b2 b3) (U32x4 c0 c1 c2 c3) (U32x4 d0 d1 d2 d3).
Proof.
  intros s (Ha & Hb & Hc & Hd). cbn [row_a row_b row_c row_d] in *. unfold round, s, S16, S12, S8, S7.
  rewrite !rotate_lanes by eauto 12 with signer. reflexivity.
Qed.

(** The rows after [swizzle!], in both directions. *)
Lemma swizzle_u32 (s : ChaChaState) :
  state_u32 s ->
  (let '(b, c, d) := swizzle s.(row_b) s.(row_c) s.(row_d) in state_u32 (mkChaChaState s.(row_a) b c d)) /\
  (let '(d, c, b) := swizzle s.(row_d) s.(row_c) s.(row_b) in state_u32 (mkChaChaState s.(row_a) b c d)).
Proof.
  destruct s as [a b c d]. unfold state_u32, row_u32, swizzle. cbn [row_a row_b row_c row_d w0 w1 w2 w3]. tauto.
Qed.

Lemma double_round_u32 (s : ChaChaState) : state_u32 s -> state_u32 (double_round s).
Proof.
  intros Hs%round_u32. unfold double_round. generalize dependent (round s). intros t [Ht _]%swizzle_u32.
  destruct (swizzle _ _ _) as [[b c] d]. apply round_u32 in Ht. generalize dependent (round (mkChaChaState t.(row_a) b c d)).
  intros u [_ Hu]%swizzle_u32. by destruct (swizzle _ _ _) as [[d' c'] b'].
Qed.

#[local] Opaque Rfc.quarter_round.

Lemma QUARTERROUND_eq (i j k l : nat) (v : list Z) (a b c d a' b' c' d' : Z) :
  v !! i = Some a -> v !! j = Some b -> v !! k = Some c -> v !! l = Some d ->
  Rfc.quarter_round a b c d = (a', b', c', d') ->
  Rfc.QUARTERROUND i j k l v = <[i := a']> (<[j := b']> (<[k := c']> (<[l := d']> v))).
Proof. intros Ha Hb Hc Hd E. unfold Rfc.QUARTERROUND. by rewrite Ha, Hb, Hc, Hd, E. Qed.

Ltac quarter i j k l E :=
  erewrite (QUARTERROUND_eq i j k l); [|reflexivity..|exact E]; cbn [insert list_insert].

Lemma round_eq (a0 a1 a2 a3 b0 b1 b2 b3 c0 c1 c2 c3 d0 d1 d2 d3 : Z)
    (a0' a1' a2' a3' b0' b1' b2' b3' c0' c1' c2' c3' d0' d1' d2' d3' : Z) :
  state_u32 (mkChaChaState (U32x4 a0 a1 a2 a3) (U32x4 b0 b1 b2 b3) (U32x4 c0 c1 c2 c3) (U32x4 d0 d1 d2 d3)) ->
  Rfc.quarter_round a0 b0 c0 d0 = (a0', b0', c0', d0') ->
  Rfc.quarter_round a1 b1 c1 d1 = (a1', b1', c1', d1') ->
  Rfc.quarter_round a2 b2 c2 d2 = (a2', b2', c2', d2') ->
  Rfc.quarter_round a3 b3 c3 d3 = (a3', b3', c3', d3') ->
  round (mkChaChaState (U32x4 a0 a1 a2 a3) (U32x4 b0 b1 b2 b3) (U32x4 c0 c1 c2 c3) (U32x4 d0 d1 d2 d3)) =
  mkChaChaState (U32x4 a0' a1' a2' a3') (U32x4 b0' b1' b2' b3') (U32x4 c0' c1' c2' c3') (U32x4 d0' d1' d2' d3').
Proof. intros Hs E0 E1 E2 E3. rewrite round_columns by exact Hs. by rewrite E0, E1, E2, E3. Qed.

Lemma double_round_inner (s : ChaChaState) : state_u32 s -> lens (double_round s) = Rfc.inner_block (lens s).
Proof.
  intros Hs. pose proof (round_u32 s Hs) as Hr.
  destruct s as [[a0 a1 a2 a3] [b0 b1 b2 b3] [c0 c1 c2 c3] [d0 d1 d2 d3]].
  destruct (Rfc.quarter_round a0 b0 c0 d0) as [[[a0' b0'] c0'] d0'] eqn:E0.
  destruct (Rfc.quarter_round a1 b1 c1 d1) as [[[a1' b1'] c1'] d1'] eqn:E1.
  destruct (Rfc.quarter_round a2 b2 c2 d2) as [[[a2' b2'] c2'] d2'] eqn:E2.
  destruct (Rfc.quarter_round a3 b3 c3 d3) as [[[a3' b3'] c3'] d3'] eqn:E3.
  destruct (Rfc.quarter_round a0' b1' c2' d3') as [[[? ?] ?] ?] eqn:E4.
  destruct (Rfc.quarter_round a1' b2' c3' d0') as [[[? ?] ?] ?] eqn:E5.
  destruct (Rfc.quarter_round a2' b3' c0' d1') as [[[? ?] ?] ?] eqn:E6.
  destruct (Rfc.quarter_round a3' b0' c1' d2') as [[[? ?] ?] ?] eqn:E7.
  unfold double_round. rewrite (round_eq _ _ _ _ _ _ _ _ _ _ _ _ _ _ _ _ _ _ _ _ _ _ _ _ _ _ _ _ _ _ _ _ Hs E0 E1 E2 E3) in Hr |- *.
  apply swizzle_u32 in Hr as [Hr _]. unfold swizzle in *. cbn [row_a row_b row_c row_d w0 w1 w2 w3] in *.
  rewrite (round_eq _ _ _ _ _ _ _ _ _ _ _ _ _ _ _ _ _ _ _ _ _ _ _ _ _ _ _ _ _ _ _ _ Hr E4 E5 E6 E7).
  unfold Rfc.inner_block, lens, row_words. cbn [row_a row_b row_c row_d w0 w1 w2 w3 app].
  quarter 0%nat 4%nat 8%nat 12%nat E0.
  quarter 1%nat 5%nat 9%nat 13%nat E1.
  quarter 2%nat 6%nat 10%nat 14%nat E2.
  quarter 3%nat 7%nat 11%nat 15%nat E3.
  quarter 0%nat 5%nat 10%nat 15%nat E4.
  quarter 1%nat 6%nat 11%nat 12%nat E5.
  quarter 2%nat 7%nat 8%nat 13%nat E6.
  by quarter 3%nat 4%nat 9%nat 14%nat E7.
Qed.

Lemma iter_double_round (n : nat) (s : ChaChaState) :
  state_u32 s -> state_u32 (Nat.iter n double_round s) /\
  lens (Nat.iter n double_round s) = Nat.iter n Rfc.inner_block (lens s).
Proof.
  intros Hs. induction n as [|n [Hn IH]]; [done|]. rewrite !Nat.iter_succ.
  split; [by apply double_round_u32|]. by rewrite double_round_inner, IH.
Qed.

Lemma lens_add_rows (m s : ChaChaState) : lens (add_rows m s) = zip_with Rfc.add (lens m) (lens s).
Proof. done. Qed.

Lemma lens_mixed (s : ChaChaState) :
  state_u32 s -> lens (mixed s) = zip_with Rfc.add (Nat.iter 10 Rfc.inner_block (lens s)) (lens s).
Proof. intros Hs. unfold mixed. by rewrite lens_add_rows, (proj2 (iter_double_round 10 s Hs)). Qed.

Lemma length_state_to_buffer (s : ChaChaState) : length (state_to_buffer s) = 64%nat.
Proof. done. Qed.

(** The initial state, and the state at a block of the stream. *)
Lemma from_le_bytes_bound (l : list Z) :
  Forall (fun b => 0 <= b < 256) l -> 0 <= from_le_bytes l < 256 ^ Z.of_nat (length l).
Proof.
  induction 1 as [|b l Hb _ IH]; [done|]. cbn [from_le_bytes length]. rewrite Nat2Z.inj_succ, Z.pow_succ_r; lia.
Qed.

Definition with_counter (s : ChaChaState) (n : Z) : ChaChaState :=
  mkChaChaState s.(row_a) s.(row_b) s.(row_c) (U32x4 n s.(row_d).(w1) s.(row_d).(w2) s.(row_d).(w3)).

Lemma expand_words (key nonce : list Z) :
  length key = 32%nat -> length nonce = 12%nat ->
  exists s, expand key nonce = Ok s /\ s.(row_d).(w0) = 0 /\
    forall n, lens (with_counter s n) = Rfc.constants ++ Rfc.words 8 key ++ [n] ++ Rfc.words 3 nonce.
Proof.
  intros Hk Hn. do 32 (destruct key as [|? key]; [done|]). destruct key; [|done].
  do 12 (destruct nonce as [|? nonce]; [done|]). destruct nonce; [|done].
  eexists. split; [reflexivity|]. split; [reflexivity|]. intros n. reflexivity.
Qed.

Lemma words_u32 (n : nat) (bytes : list Z) :
  (4 * n <= length bytes)%nat -> Forall (fun b => 0 <= b < 256) bytes -> Forall u32 (Rfc.words n bytes).
Proof.
  revert bytes. induction n as [|n IH]; intros bytes Hl Hb; [done|]. cbn [Rfc.words]. constructor.
  - pose proof (from_le_bytes_bound (take 4 bytes) ltac:(by apply Forall_take)) as H.
    rewrite length_take_le in H by lia. exact H.
  - apply IH; [rewrite length_drop; lia|by apply Forall_drop].
Qed.

Lemma lens_u32 (s : ChaChaState) : Forall u32 (lens s) -> state_u32 s.
Proof. unfold lens, row_words, state_u32, row_u32. cbn [app]. rewrite !Forall_cons. tauto. Qed.

Lemma initial_u32 (key nonce : list Z) (n : Z) :
  length key = 32%nat -> length nonce = 12%nat -> Forall (fun b => 0 <= b < 256) (key ++ nonce) -> u32 n ->
  Forall u32 (Rfc.constants ++ Rfc.words 8 key ++ [n] ++ Rfc.words 3 nonce).
Proof.
  intros Hk Hn [Hbk Hbn]%Forall_app Hc. rewrite !Forall_app. split_and!.
  - repeat (constructor; [unfold uint; lia|]). constructor.
  - apply words_u32; [lia|done].
  - by constructor.
  - apply words_u32; [lia|done].
Qed.

Lemma block_is_rfc (key nonce : list Z) (s : ChaChaState) (n : Z) :
  length key = 32%nat -> length nonce = 12%nat -> Forall (fun b => 0 <= b < 256) (key ++ nonce) -> u32 n ->
  expand key nonce = Ok s -> state_to_buffer (mixed (with_counter s n)) = Rfc.chacha20_block key n nonce.
Proof.
  intros Hk Hn Hb Hc E. destruct (expand_words key nonce Hk Hn) as (s' & E' & _ & Hw).
  assert (s' = s) as -> by congruence. unfold state_to_buffer, Rfc.chacha20_block. cbv zeta.
  rewrite lens_mixed, Hw; [done|]. apply lens_u32. rewrite Hw. by apply initial_u32.
Qed.

(** A message combined with a key stream, from position [pos] on. *)
Section Combined.
Context (f : nat -> Z).

Definition combined (pos : nat) (l : list Z) : list Z := imap (fun j b => Z.lxor b (f (pos + j)%nat)) l.

Lemma combined_app (pos : nat) (l1 l2 : list Z) :
  combined pos (l1 ++ l2) = combined pos l1 ++ combined (pos + length l1) l2.
Proof.
  unfold combined. rewrite imap_app. f_equal. apply imap_ext. intros j b _. cbn. do 2 f_equal. lia.
Qed.

Lemma xor_combined (pos : nat) (src : list Z) : xor_into src (f <$> seq pos (length src)) = combined pos src.
Proof.
  unfold xor_into, combined. revert pos. induction src as [|b src IH]; intros pos; [done|].
  cbn. rewrite Nat.add_0_r, IH. f_equal. apply imap_ext. intros j c _. cbn. do 2 f_equal. lia.
Qed.
End Combined.

(** ** The buffered stream

    [s] is the state that [expand] returned, whose counter need not be zero; the
    cipher has consumed [pos] bytes and produced [k] blocks. *)
Section Stream.
Context (s : ChaChaState) (Hrow : row_u32 s.(row_d)).
#[local] Opaque mixed state_to_buffer.

Definition block (n : nat) : list Z := state_to_buffer (mixed (with_counter s (s.(row_d).(w0) + Z.of_nat n))).

Definition stream (pos : nat) : Z := nth (pos mod 64) (block (pos / 64)) 0.

(** The bytes before the counter is exhausted. *)
Definition stream_length : Z := 64 * (2 ^ 32 - 1 - s.(row_d).(w0)).

Record consumed (self : ChaCha20) (pos k : nat) : Prop := {
  c_state : self.(state) = with_counter s (s.(row_d).(w0) + Z.of_nat k);
  c_length : length self.(output) = 64%nat;
  c_offset : (self.(offset) <= 64)%nat;
  c_pos : (64 * k = pos + (64 - self.(offset)))%nat;
  c_output : (self.(offset) < 64)%nat -> exists n, k = S n /\ self.(output) = block n;
  c_room : s.(row_d).(w0) + Z.of_nat k < 2 ^ 32;
}.

Lemma consumed_new : consumed (mkChaCha20 s (replicate BLOCK_SIZE 0) 64) 0 0.
Proof.
  split; cbn [state output offset]; try done; try lia.
  - destruct s as [a b c []]. unfold with_counter. cbn. by rewrite Z.add_0_r.
  - destruct Hrow as [[? ?] _]. lia.
Qed.

Lemma stream_at (n j : nat) : (j < 64)%nat -> block n !! j = Some (stream (64 * n + j)).
Proof.
  intros Hj. unfold stream. replace ((64 * n + j) mod 64)%nat with j; [replace ((64 * n + j) / 64)%nat with n|].
  - destruct (nth_lookup_or_length (block n) j 0) as [|Hl]; [done|]. unfold block in Hl.
    rewrite length_state_to_buffer in Hl. lia.
  - apply Nat.div_unique with j; lia.
  - apply Nat.mod_unique with n; lia.
Qed.

Lemma block_stream (n j count : nat) :
  (j + count <= 64)%nat -> slice (block n) j (j + count) = stream <$> seq (64 * n + j) count.
Proof.
  intros Hc. unfold slice. replace (j + count - j)%nat with count by lia. apply list_eq. intros i.
  rewrite list_lookup_fmap. destruct (decide (i < count)%nat).
  - rewrite lookup_take_lt, lookup_drop, lookup_seq_lt, stream_at by lia. cbn. do 2 f_equal. lia.
  - rewrite lookup_take_ge, lookup_seq_ge by lia. done.
Qed.

Lemma update_consumed (self : ChaCha20) (pos k : nat) :
  consumed self pos k -> self.(offset) = 64%nat ->
  if s.(row_d).(w0) + Z.of_nat k + 1 <? 2 ^ 32
  then exists self', update self = (self', Ok tt) /\ consumed self' pos (S k) /\ self'.(offset) = 0%nat
  else (update self).2 = Panic.
Proof.
  intros [Hs Hl _ Hp _ Hr] Ho. destruct Hrow as ([Hc0 Hc] & H1 & H2 & H3). unfold update.
  rewrite get_bind. cbv zeta. rewrite Hs, set_bind.
  set (d := u32x4_add _ _).
  assert (Hd : d = U32x4 ((s.(row_d).(w0) + Z.of_nat k + 1) mod 2 ^ 32) s.(row_d).(w1) s.(row_d).(w2) s.(row_d).(w3)).
  { unfold d, u32x4_add, lanes, wrapping_add. cbn [with_counter row_d w0 w1 w2 w3]. rewrite !Z.add_0_r.
    by rewrite !(Z.mod_small (w1 _)), !(Z.mod_small (w2 _)), !(Z.mod_small (w3 _)). }
  rewrite Hd. cbn [w0]. clear d Hd. destruct (Z.ltb_spec (s.(row_d).(w0) + Z.of_nat k + 1) (2 ^ 32)) as [Hlt|Hge].
  - rewrite Z.mod_small by lia. rewrite (proj2 (Z.eqb_neq _ 0)) by lia. cbn [negb]. eexists. split; [reflexivity|].
    split; [|done]. split; cbn [state output offset]; try done; try lia.
    + unfold with_counter. cbn [row_a row_b row_c row_d w1 w2 w3]. do 2 f_equal. lia.
    + intros _. by exists k.
  - replace (s.(row_d).(w0) + Z.of_nat k + 1) with (2 ^ 32) by lia. by rewrite Z_mod_same_full.
Qed.

Lemma consumed_le (self : ChaCha20) (pos k : nat) : consumed self pos k -> Z.of_nat pos <= stream_length.
Proof. intros [_ _ Ho Hp _ Hr]. unfold stream_length. lia. Qed.

(** One chunk: as many bytes as the buffer serves, of the key stream. *)
Definition chunk (pos left : nat) (self' : ChaCha20) (ks : list Z) : Prop :=
  (0 < length ks <= left)%nat /\ ks = (stream <$> seq pos (length ks)) /\
  exists self'' k', advance (length ks) self' = (self'', Ok tt) /\ consumed self'' (pos + length ks) k'.

Lemma serve_consumed (self : ChaCha20) (pos k left : nat) :
  consumed self pos k -> (self.(offset) < 64)%nat -> (0 < left)%nat ->
  Z.of_nat pos < stream_length /\ exists ks, serve left self = (self, Ok ks) /\ chunk pos left self ks.
Proof.
  intros [Hs Hl _ Hp Ho Hr] Hlt Hleft. destruct (Ho Hlt) as (n & -> & Hout).
  split; [unfold stream_length; lia|]. unfold serve. rewrite get_bind. cbv zeta. unfold BLOCK_SIZE.
  set (count := Nat.min _ _). rewrite (proj2 (Nat.leb_le _ _)) by lia. rewrite Hout, block_stream by lia.
  replace (64 * n + self.(offset))%nat with pos by lia. eexists. split; [reflexivity|].
  unfold chunk. rewrite length_fmap, length_seq. split; [lia|]. split; [done|].
  eexists _, (S n). split; [reflexivity|]. split; cbn [state output offset]; try done; try lia. eauto.
Qed.

Lemma next_chunk_consumed (self : ChaCha20) (pos k left : nat) :
  consumed self pos k -> (0 < left)%nat ->
  if Z.of_nat pos <? stream_length
  then exists self' ks, next_chunk left self = (self', Ok ks) /\ chunk pos left self' ks
  else (next_chunk left self).2 = Panic.
Proof.
  intros Hc Hleft.
  assert (Hrf : refill self = if Nat.eqb self.(offset) BLOCK_SIZE then update self else (self, Ok tt)).
  { unfold refill. rewrite get_bind. by destruct (Nat.eqb _ _). }
  unfold next_chunk, mbind, method_bind. rewrite Hrf. clear Hrf.
  destruct (Nat.eqb_spec self.(offset) BLOCK_SIZE) as [Ho|Ho]; unfold BLOCK_SIZE in Ho.
  - pose proof (update_consumed self pos k Hc Ho) as Hu. pose proof (c_pos _ _ _ Hc) as Hp.
    replace (Z.of_nat pos <? stream_length) with (s.(row_d).(w0) + Z.of_nat k + 1 <? 2 ^ 32).
    2:{ apply eq_bool_prop_intro. rewrite !Is_true_true, !Z.ltb_lt. unfold stream_length. lia. }
    destruct (_ <? _).
    + destruct Hu as (self' & -> & Hc' & Ho').
      destruct (serve_consumed self' pos (S k) left Hc' ltac:(lia) Hleft) as [_ (ks & Hks & Hrest)]. eauto.
    + by destruct (update self) as [self' [[]| |]].
  - destruct (serve_consumed self pos k left Hc) as [Hlt%Z.ltb_lt (ks & Hks & Hrest)]; [|done|].
    + pose proof (c_offset _ _ _ Hc). lia.
    + rewrite Hlt. eauto.
Qed.

#[local] Opaque stream.

(** One iteration of a loop: what it writes, and where it leaves. *)
Lemma iteration (i count pos : nat) (input output : list Z) :
  length input = length output -> (i + count <= length input)%nat ->
  let output' := take i output ++ xor_into (slice input i (i + count)) (stream <$> seq pos count) ++ drop (i + count) output in
  length output' = length output /\
  take (i + count) output' ++ combined stream (pos + count) (drop (i + count) input)
  = take i output ++ combined stream pos (drop i input).
Proof.
  intros Hl Hc. cbv zeta. unfold slice. replace (i + count - i)%nat with count by lia.
  assert (Hs : length (take count (drop i input)) = count) by (rewrite length_take, length_drop; lia).
  assert (Hx := xor_combined stream pos (take count (drop i input))). rewrite Hs in Hx. rewrite Hx. clear Hx.
  assert (Hcl : length (combined stream pos (take count (drop i input))) = count).
  { unfold combined. by rewrite length_imap. }
  split.
  - rewrite !length_app, Hcl, length_take, length_drop. lia.
  - rewrite app_assoc, take_app_length' by (rewrite length_app, Hcl, length_take; lia).
    rewrite <- app_assoc. f_equal. rewrite <- (take_drop count (drop i input)) at 2.
    rewrite combined_app, Hs, drop_drop. do 2 f_equal.
Qed.

Lemma process_loop_consumed (fuel i : nat) (input output : list Z) (self : ChaCha20) (pos k : nat) :
  consumed self pos k -> length input = length output -> (i <= length input <= i + fuel)%nat ->
  if Z.of_nat (pos + (length input - i)) <=? stream_length
  then exists self' k',
    process_loop fuel i input output self = (self', Ok (take i output ++ combined stream pos (drop i input))) /\
    consumed self' (pos + (length input - i)) k'
  else (process_loop fuel i input output self).2 = Panic.
Proof.
  revert i output self pos k. induction fuel as [|fuel IH]; intros i output self pos k Hc Hl Hi.
  all: cbn [process_loop]; destruct (Nat.ltb_spec i (length input)) as [Hlt|Hge]; [try lia|].
  1,3: assert (Hn : i = length input) by lia; pose proof (consumed_le _ _ _ Hc) as Hle%Z.leb_le;
    rewrite Hn, Nat.sub_diag, Nat.add_0_r, Hle; exists self, k; split; [|done];
    rewrite drop_all, Hl, firstn_all; cbn; by rewrite app_nil_r.
  pose proof (next_chunk_consumed self pos k (length input - i) Hc ltac:(lia)) as Hn. pose proof (consumed_le _ _ _ Hc) as Hle.
  destruct (Z.ltb_spec (Z.of_nat pos) stream_length) as [Hp|Hp].
  2:{ replace (_ <=? _) with false by (symmetry; apply Z.leb_gt; lia). by apply run_panic. }
  destruct Hn as (self1 & ks & Hks1 & Hks & Hseq & self2 & k2 & Hadv & Hc2). rewrite (run_bind _ _ _ _ _ Hks1).
  rewrite !(proj2 (Nat.leb_le _ _)) by lia. cbn [rassert]. rewrite !call_Ok_bind, (run_bind _ _ _ _ _ Hadv).
  destruct (iteration i (length ks) pos input output Hl ltac:(lia)) as [Hlen Hout].
  rewrite <- Hseq in Hlen, Hout. rewrite <- Hout.
  specialize (IH (i + length ks)%nat _ self2 (pos + length ks)%nat k2 Hc2 (eq_trans Hl (eq_sym Hlen)) ltac:(lia)).
  replace (pos + (length input - i))%nat with (pos + length ks + (length input - (i + length ks)))%nat by lia.
  exact IH.
Qed.
End Stream.

(** ** The two entry points agree *)
Lemma process_in_place_loop_process (fuel i : nat) (data0 data : list Z) (self : ChaCha20) :
  length data0 = length data -> drop i data0 = drop i data ->
  process_in_place_loop fuel i data self = process_loop fuel i data0 data self.
Proof.
  revert i data self. induction fuel as [|fuel IH]; intros i data self Hl Hd; cbn [process_in_place_loop process_loop]; rewrite Hl.
  { done. }
  destruct (Nat.ltb i (length data)); [|done]. unfold mbind, method_bind at 1 4.
  destruct (next_chunk (length data - i) self) as [self1 [ks| |]]; [|done..].
  destruct (Nat.leb_spec (i + length ks) (length data)) as [Hle|]; [|done]. cbn.
  replace (slice data0 i (i + length ks)) with (slice data i (i + length ks)) by (unfold slice; by rewrite Hd).
  assert (Hx : length (xor_into (slice data i (i + length ks)) ks) = length ks).
  { unfold xor_into, slice. rewrite length_zip_with, length_take, length_drop. lia. }
  apply IH.
  - rewrite !length_app, Hx, length_take, length_drop. lia.
  - rewrite app_assoc, drop_app_length' by (rewrite length_app, Hx, length_take; lia).
    rewrite <- !drop_drop. by rewrite Hd.
Qed.

Lemma process_in_place_eq (data : list Z) (self : ChaCha20) : process_in_place data self = process data data self.
Proof.
  unfold process_in_place, process. rewrite Nat.eqb_refl. cbn [rassert]. rewrite call_Ok_bind.
  by apply process_in_place_loop_process.
Qed.

(** A message given in pieces. *)
Fixpoint process_pieces (pieces : list (list Z)) : method ChaCha20 Fuel (list (list Z)) :=
  match pieces with
  | [] => mret []
  | piece :: pieces =>
      out ← process_in_place piece;
      outs ← process_pieces pieces;
      mret (out :: outs)
  end.

Section Pieces.
Context (s : ChaChaState) (Hrow : row_u32 s.(row_d)).

Lemma process_consumed (self : ChaCha20) (pos k : nat) (data output : list Z) :
  consumed s self pos k -> length data = length output ->
  if Z.of_nat (pos + length data) <=? stream_length s
  then exists self' k', process data output self = (self', Ok (combined (stream s) pos data)) /\
    consumed s self' (pos + length data) k'
  else (process data output self).2 = Panic.
Proof.
  intros Hc Hl. unfold process. rewrite Hl, Nat.eqb_refl. cbn [rassert]. rewrite call_Ok_bind, <- Hl.
  pose proof (process_loop_consumed s Hrow (length data) 0 data output self pos k Hc Hl ltac:(lia)) as H.
  rewrite Nat.sub_0_r in H. exact H.
Qed.

Lemma process_pieces_consumed (pieces : list (list Z)) (self : ChaCha20) (pos k : nat) :
  consumed s self pos k ->
  if Z.of_nat (pos + length (concat pieces)) <=? stream_length s
  then exists self' outs, process_pieces pieces self = (self', Ok outs) /\
    concat outs = combined (stream s) pos (concat pieces)
  else (process_pieces pieces self).2 = Panic.
Proof.
  revert self pos k. induction pieces as [|piece pieces IH]; intros self pos k Hc; cbn [process_pieces concat].
  - pose proof (consumed_le s _ _ _ Hc) as Hle. cbn [length]. rewrite Nat.add_0_r, (proj2 (Z.leb_le _ _)) by done.
    by exists self, [].
  - pose proof (process_consumed self pos k piece piece Hc eq_refl) as Hp. rewrite <- process_in_place_eq in Hp.
    rewrite length_app. destruct (Z.leb_spec (Z.of_nat (pos + length piece)) (stream_length s)).
    + destruct Hp as (self1 & k1 & Hp & Hc1). rewrite (run_bind _ _ _ _ _ Hp). specialize (IH self1 _ k1 Hc1).
      rewrite Nat.add_assoc. destruct (_ <=? _).
      * destruct IH as (self2 & outs & Ho & Hj). rewrite (run_bind _ _ _ _ _ Ho). eexists _, _. split; [reflexivity|].
        cbn [concat]. by rewrite combined_app, <- Hj.
      * by apply run_panic.
    + replace (_ <=? _) with false by (symmetry; apply Z.leb_gt; lia). by apply run_panic.
Qed.
End Pieces.

(** C28: For a key of 32 bytes and a nonce of 12 bytes, a fresh cipher that
    processes a message piece by piece returns the ChaCha20 encryption of RFC 8439
    of the whole message with initial counter zero, wherever the pieces are cut.
    Messages are limited to 2^32 - 1 blocks; a longer one panics.  [process]
    into a second buffer gives what [process_in_place] gives. *)
Theorem chacha_is_rfc8439 (key nonce : list Z) (pieces : list (list Z)) :
  length key = 32%nat -> length nonce = 12%nat -> Forall (fun b => 0 <= b < 256) (key ++ nonce) ->
  exists self, ChaCha20_new key nonce = Ok self /\
    (@concat Z) <$> (process_pieces pieces self).2 =
      (if Z.of_nat (length (concat pieces)) <=? 64 * (2 ^ 32 - 1)
       then Ok (Rfc.chacha20_encrypt key 0 nonce (concat pieces)) else Panic) /\
    forall data output, length output = length data -> (process data output self).2 = (process_in_place data self).2.
Proof.
  intros Hk Hn Hb. destruct (expand_words key nonce Hk Hn) as (s & Es & Hc0 & Hw).
  assert (Hrow : row_u32 s.(row_d)).
  { assert (Hs : state_u32 (with_counter s 0)) by (apply lens_u32; rewrite Hw; by apply initial_u32). 
    destruct Hs as (_ & _ & _ & _ & H1 & H2 & H3). split_and!; [rewrite Hc0; unfold uint; lia|done..]. }
  exists (mkChaCha20 s (replicate BLOCK_SIZE 0) 64). split.
  { unfold ChaCha20_new. by rewrite Hk, Hn, Es. }
  assert (Hl : stream_length s = 64 * (2 ^ 32 - 1)) by (unfold stream_length; rewrite Hc0; lia).
  pose proof (consumed_new s Hrow) as Hcn. split.
  - pose proof (process_pieces_consumed s Hrow pieces _ 0 0 Hcn) as H. rewrite Hl in H. cbn [Nat.add] in H.
    destruct (Z.leb_spec (Z.of_nat (length (concat pieces))) (64 * (2 ^ 32 - 1))) as [Hle|].
    + destruct H as (self' & outs & -> & Hj). cbn [snd fmap res_fmap]. rewrite Hj. f_equal.
      unfold combined, Rfc.chacha20_encrypt. apply imap_ext. intros i b Hi. cbn [Nat.add]. f_equal.
      unfold stream, Rfc.key_stream, block. rewrite Hc0. f_equal. apply block_is_rfc; try done.
      apply lookup_lt_Some in Hi. unfold uint. pose proof (Nat.div_mod i 64). lia.
    + by rewrite H.
  - intros data output Ho. rewrite process_in_place_eq.
    pose proof (process_consumed s Hrow _ 0 0 data output Hcn (eq_sym Ho)) as H1.
    pose proof (process_consumed s Hrow _ 0 0 data data Hcn eq_refl) as H2.
    destruct (_ <=? _); [|congruence]. destruct H1 as (? & ? & -> & _), H2 as (? & ? & -> & _). done.
Qed.

Lemma chacha_is_rfc8439_witness :
  let key := replicate 32 1 in
  let nonce := replicate 12 2 in
  exists self, ChaCha20_new key nonce = Ok self /\
    (@concat Z) <$> (process_pieces [[1; 2; 3]; [4; 5]] self).2 = Ok (Rfc.chacha20_encrypt key 0 nonce [1; 2; 3; 4; 5]).
Proof.
  cbv zeta. destruct (chacha_is_rfc8439 (replicate 32 1) (replicate 12 2) [[1; 2; 3]; [4; 5]]) as (self & Hn & Hp & _).
  - reflexivity.
  - reflexivity.
  - apply Forall_forall. vm_compute. intros x Hx. repeat (apply elem_of_cons in Hx as [->|Hx]; [split; [discriminate|reflexivity]|]).
    by apply elem_of_nil in Hx.
  - exists self. split; [exact Hn|exact Hp].
Defined.
