(* ===== verification/Lss.v ===== *)
(** * The lightning storage server

    [lightning-storage-server/lib] and [lssd]: the values that a client seals
    with an HMAC and encrypts, the client's calls, the server's handlers, the
    trait [Database] as a class with the redb implementation, and the signer's
    client of [vls-frontend/src/external_persist].  Hashes, ECDH, keys, hex and
    CBOR are parameters.  Failures of the disk are left out. *)
From S2P Require Import Prelude Ordered Types BTree Kvv Persister ChaCha.

(** [model::Value]; the version is an [i64]. *)
Record Value := mkValue { v_version : Z; v_value : list Z }.

#[export] Instance Value_eq_dec : EqDecision Value.
Proof. solve_decision. Defined.

Abbreviation kv := (string * Value)%type (only parsing).

(** Signed arithmetic and casts. *)
Definition i64 (z : Z) : Prop := - 2 ^ 63 <= z < 2 ^ 63.

Definition as_i64 (z : Z) : Z := (z + 2 ^ 63) mod 2 ^ 64 - 2 ^ 63.
Definition as_u64 (z : Z) : Z := z mod 2 ^ 64.

Definition add_i64 `{Profile} {E : Type} (a b : Z) : res E Z :=
  if (- 2 ^ 63 <=? a + b) && (a + b <? 2 ^ 63) then Ok (a + b)
  else if overflow_checks then Panic else Ok (as_i64 (a + b)).

(** Other packages. *)
Class LssPackages := {
  sha256 : list Z -> list Z;
  hmac_sha256 : list Z -> list Z -> list Z;
  SecpPublicKey : Type;
  SecpSecretKey : Type;
  from_slice : list Z -> option SecpPublicKey;
  serialize : SecpPublicKey -> list Z;
  from_secret_key : SecpSecretKey -> SecpPublicKey;
  shared_point : SecpPublicKey -> SecpSecretKey -> list Z;
  hex : list Z -> string;
  cbor_into_writer : Value -> list Z;
  cbor_from_reader : list Z -> option Value
}.

Definition i64_to_be_bytes (version : Z) : list Z := Redb.to_be_bytes 8 version.

Section Lss.
Context `{Profile} `{LssPackages}.

(** ** [util.rs] *)

(** A cipher call: running out of fuel does not happen. *)
Definition cipher {E A : Type} (r : res Fuel A) : res E A :=
  match r with Ok a => Ok a | _ => Panic end.

Definition lss_add_to_hmac (key : string) (version : Z) (value engine : list Z) : list Z :=
  engine ++ as_bytes key ++ i64_to_be_bytes version ++ value.

Definition compute_hmac (secret : list Z) (key : string) (version : Z) (value : list Z) : list Z :=
  hmac_sha256 secret (lss_add_to_hmac key version value []).

Definition lss_compute_shared_hmac (secret nonce : list Z) (kvs : list kv) : list Z :=
  hmac_sha256 secret
    (foldl (fun engine '(key, value) => lss_add_to_hmac key value.(v_version) value.(v_value) engine)
       ((([] ++ secret) ++ nonce)) kvs).

Definition append_hmac_to_value (secret : list Z) (key : string) (version : Z) (value : list Z) : list Z :=
  value ++ compute_hmac secret key version value.

Definition crypt_value {E : Type} (secret : list Z) (key : string) (version : Z) (value : list Z) : res E (list Z) :=
  let hash := sha256 (as_bytes key ++ i64_to_be_bytes version) in
  let nonce := take 12 hash in
  chacha ← cipher (ChaCha20_new secret nonce);
  cipher (process_in_place value chacha).2.

Definition prepare_value_for_put {E : Type} (secret : list Z) (key : string) (value : Value) : res E Value :=
  let sealed := append_hmac_to_value secret key value.(v_version) value.(v_value) in
  crypted ← crypt_value secret key value.(v_version) sealed;
  Ok (mkValue value.(v_version) crypted).

Definition remove_and_check_hmac (secret : list Z) (key : string) (version : Z) (value : list Z) : res unit (list Z) :=
  if Nat.ltb (length value) 32 then Err ()
  else
    let expected_hmac := drop (length value - 32) value in
    let value := take (length value - 32) value in
    if bool_decide (compute_hmac secret key version value = expected_hmac) then Ok value else Err ().

Definition process_value_from_get (secret : list Z) (key : string) (value : Value) : res unit Value :=
  decrypted ← crypt_value secret key value.(v_version) value.(v_value);
  plain ← remove_and_check_hmac secret key value.(v_version) decrypted;
  Ok (mkValue value.(v_version) plain).

(** ** [client/auth.rs] *)
Record Auth := mkAuth { a_client_id : SecpPublicKey; a_token : list Z }.
Record PrivAuth := mkPrivAuth { pa_client_id : SecpPublicKey; pa_shared_secret : list Z }.

Definition new_for_client (client_key : SecpSecretKey) (server_id : SecpPublicKey) : PrivAuth :=
  mkPrivAuth (from_secret_key client_key) (shared_point server_id client_key).

Definition new_for_server (server_key : SecpSecretKey) (client_id : SecpPublicKey) : PrivAuth :=
  mkPrivAuth client_id (shared_point client_id server_key).

Definition auth_token (self : PrivAuth) : list Z := sha256 self.(pa_shared_secret).

Definition auth (self : PrivAuth) : Auth := mkAuth self.(pa_client_id) (auth_token self).

(** ** [lss.proto] and the conversions of [model.rs] *)
Record AuthProto := mkAuthProto { p_client_id : list Z; p_token : list Z }.
Record KeyValue := mkKeyValue { p_key : string; p_version : Z; p_value : list Z }.
Record GetRequest := mkGetRequest { get_auth : option AuthProto; get_key_prefix : string; get_nonce : list Z }.
Record GetReply := mkGetReply { get_kvs : list KeyValue; get_hmac : list Z }.
Record PutRequest := mkPutRequest { put_auth : option AuthProto; put_kvs : list KeyValue; put_hmac : list Z }.
Record PutReply := mkPutReply { put_success : bool; reply_hmac : list Z; put_conflicts : list KeyValue }.
Record InfoReply := mkInfoReply { info_version : string; info_server_id : list Z }.

Definition from_proto (p : KeyValue) : kv := (p.(p_key), mkValue p.(p_version) p.(p_value)).

Definition conflict_into_proto (c : string * option Value) : KeyValue :=
  let '(key, v) := c in
  mkKeyValue key (default (-1) (v_version <$> v)) (default [] (v_value <$> v)).

Definition into_proto (x : kv) : KeyValue := mkKeyValue x.1 x.2.(v_version) x.2.(v_value).

(** The gRPC service: the trait that the server implements, and what a client
    holds at the other end of a connection. *)
Inductive TonicStatus := TonicUnauthenticated (message : string) | TonicInvalidArgument (message : string) | TonicInternal (message : string).

Class LightningStorage (N : Type) := {
  rpc_ping : string -> method N TonicStatus string;
  rpc_info : method N TonicStatus InfoReply;
  rpc_get : GetRequest -> method N TonicStatus GetReply;
  rpc_put : PutRequest -> method N TonicStatus PutReply
}.

(** ** The database *)
Inductive DbError :=
| RedbError
| Conflict (conflicts : list (string * option Value))
| InvalidVersions (kvs : list kv).

Class Database (D : Type) := {
  db_put : list Z -> list kv -> method D DbError unit;
  db_get_with_prefix : D -> list Z -> string -> res DbError (list kv)
}.

(** ** [database/redb.rs]

    The database is its one table. *)
Record RedbDatabase := mkRedbDatabase { redb_kv : gmap string (list Z) }.

Definition full_key (client_id : list Z) (key_suffix : string) : string := (hex client_id ++ "/" ++ key_suffix)%string.

(** [String::split_off]. *)
Definition split_off {E : Type} (s : string) (at_ : nat) : res E string :=
  if Nat.leb at_ (String.length s) then Ok (String.substring at_ (String.length s - at_) s) else Panic.

Definition next_of {E : Type} (table : gmap string (list Z)) (key : string) : res E (Z * option Value) :=
  match table !! key with
  | Some row =>
      existing ← unwrap (cbor_from_reader row);
      next ← add_i64 existing.(v_version) 1;
      Ok (next, Some existing)
  | None => Ok (0, None)
  end.

(** The first loop of [do_put]. *)
Definition conflict_step (table : gmap string (list Z)) (client_id : list Z)
    (conflicts : list (string * option Value)) (x : kv) : res DbError (list (string * option Value)) :=
  let '(key_suffix, value) := x in
  '(next_version, existing) ← next_of table (full_key client_id key_suffix);
  if bool_decide (value.(v_version) <> next_version) then Ok (conflicts ++ [(key_suffix, existing)])
  else Ok conflicts.

Definition insert_row (client_id : list Z) (table : gmap string (list Z)) (x : kv) : gmap string (list Z) :=
  <[full_key client_id x.1 := cbor_into_writer x.2]> table.

(** The write transaction is aborted when there are conflicts. *)
Definition do_put (client_id : list Z) (kvs : list kv) : method RedbDatabase DbError (list (string * option Value)) :=
  self ← get_self;
  conflicts ← call (fold_res (conflict_step self.(redb_kv) client_id) [] kvs);
  if bool_decide (conflicts <> []) then mret conflicts
  else
    set_self (mkRedbDatabase (foldl (insert_row client_id) self.(redb_kv) kvs)) ;;
    mret conflicts.

Definition do_get (self : RedbDatabase) (client_id : list Z) (prefix : string) : res DbError (list kv) :=
  map_res (fun '(key, row) =>
    value ← unwrap (cbor_from_reader row);
    key_s ← split_off key (length client_id * 2 + 1);
    Ok (key_s, value)) (prefix_entries self.(redb_kv) prefix).

Definition redb_put (client_id : list Z) (kvs : list kv) : method RedbDatabase DbError unit :=
  conflicts ← do_put client_id kvs;
  if bool_decide (conflicts <> []) then call (Err (Conflict conflicts)) else mret tt.

Definition redb_get_with_prefix (self : RedbDatabase) (client_id : list Z) (key_prefix : string) : res DbError (list kv) :=
  do_get self client_id (full_key client_id key_prefix).

#[export] Instance RedbDatabase_database : Database RedbDatabase := {|
  db_put := redb_put;
  db_get_with_prefix := redb_get_with_prefix
|}.

(** [maybe_create_table]. *)
Definition maybe_create_table (clear : bool) (self : RedbDatabase) : RedbDatabase :=
  if clear then mkRedbDatabase ∅ else self.

(** ** [lssd/src/lib.rs] *)
Record StorageServer (D : Type) := mkStorageServer {
  database : D; public_key : SecpPublicKey; secret_key : SecpSecretKey }.

Arguments mkStorageServer {D}.
Arguments database {D}.
Arguments public_key {D}.
Arguments secret_key {D}.

Section Server.
Context {D : Type} `{!Database D}.
Implicit Types (self : StorageServer D).

Definition into_status {A : Type} (r : res DbError A) : res TonicStatus A :=
  match r with
  | Ok a => Ok a
  | Err (Conflict _) => Panic
  | Err _ => Err (TonicInternal "unexpected error")
  | Panic => Panic
  end.

Definition check_auth self (auth_proto : AuthProto) : res TonicStatus PrivAuth :=
  client_id ← ok_or (TonicUnauthenticated "invalid client id") (from_slice auth_proto.(p_client_id));
  let auth := new_for_server self.(secret_key) client_id in
  if bool_decide (auth_proto.(p_token) <> auth_token auth) then Err (TonicInvalidArgument "invalid auth token")
  else Ok auth.

Definition server_ping (message : string) : method (StorageServer D) TonicStatus string := mret message.

Definition server_info : method (StorageServer D) TonicStatus InfoReply :=
  self ← get_self; mret (mkInfoReply "0.1" (serialize self.(public_key))).

Definition server_get (request : GetRequest) : method (StorageServer D) TonicStatus GetReply :=
  self ← get_self;
  auth_proto ← call (ok_or (TonicInvalidArgument "missing auth") request.(get_auth));
  auth ← call (check_auth self auth_proto);
  let client_id := auth_proto.(p_client_id) in
  kvs ← call (into_status (db_get_with_prefix self.(database) client_id request.(get_key_prefix)));
  let hmac := lss_compute_shared_hmac auth.(pa_shared_secret) request.(get_nonce) kvs in
  mret (mkGetReply (into_proto <$> kvs) hmac).

(** [for ((k1, _), (k2, _)) in kvs.iter().tuple_windows()]. *)
Fixpoint keys_sorted (kvs : list kv) : bool :=
  match kvs with
  | (k1, _) :: (((k2, _) :: _) as rest) =>
      match ord_cmp k1 k2 with Gt => false | _ => keys_sorted rest end
  | _ => true
  end.

(** A call of a method of the database. *)
Definition on_database {A : Type} (m : method D DbError A) : method (StorageServer D) TonicStatus (res DbError A) := fun self =>
  let '(d, r) := m self.(database) in (mkStorageServer d self.(public_key) self.(secret_key), Ok r).

Definition server_put (request : PutRequest) : method (StorageServer D) TonicStatus PutReply :=
  self ← get_self;
  let kvs := from_proto <$> request.(put_kvs) in
  auth_proto ← call (ok_or (TonicInvalidArgument "missing auth") request.(put_auth));
  let client_id := auth_proto.(p_client_id) in
  if negb (keys_sorted kvs) then call (Err (TonicInvalidArgument "keys are not sorted"))
  else
    auth ← call (check_auth self auth_proto);
    let client_hmac := lss_compute_shared_hmac auth.(pa_shared_secret) [1] kvs in
    if bool_decide (client_hmac <> request.(put_hmac)) then call (Err (TonicInvalidArgument "invalid client HMAC"))
    else
      r ← on_database (db_put client_id kvs);
      match r with
      | Ok _ => mret (mkPutReply true (lss_compute_shared_hmac auth.(pa_shared_secret) [2] kvs) [])
      | Err (Conflict conflicts) => mret (mkPutReply false [] (conflict_into_proto <$> conflicts))
      | Err _ => call (Err (TonicInternal "unexpected error"))
      | Panic => call Panic
      end.

#[export] Instance StorageServer_storage : LightningStorage (StorageServer D) := {|
  rpc_ping := server_ping;
  rpc_info := server_info;
  rpc_get := server_get;
  rpc_put := server_put
|}.
End Server.

(** ** [client/driver.rs]

    [N] is the other end of the connection, which need not be an honest
    server. *)
Inductive ClientError :=
| Connect
| Tonic (status : TonicStatus)
| InvalidResponse
| InvalidHmac (key : string) (version : Z)
| InvalidServerHmac
| PutConflict (conflicts : list kv).

Section Client.
Context {N : Type} `{!LightningStorage N}.

(** [?] on the result of a remote call. *)
Definition remote {A : Type} (m : method N TonicStatus A) : method N ClientError A := fun n =>
  let '(n, r) := m n in (n, map_err Tonic r).

Definition kvs_from_proto (kvs : list KeyValue) : list kv := (fun p => (p.(p_key), mkValue p.(p_version) p.(p_value))) <$> kvs.

Definition make_auth_proto (self : Auth) : option AuthProto :=
  Some (mkAuthProto (serialize self.(a_client_id)) self.(a_token)).

Definition Client_get_info : method N ClientError (SecpPublicKey * string) :=
  response ← remote rpc_info;
  pubkey ← call (ok_or InvalidResponse (from_slice response.(info_server_id)));
  mret (pubkey, response.(info_version)).

Definition Client_ping (message : string) : method N ClientError string := remote (rpc_ping message).

Definition Client_get (self : Auth) (key_prefix : string) (nonce : list Z) : method N ClientError (list kv * list Z) :=
  response ← remote (rpc_get (mkGetRequest (make_auth_proto self) key_prefix nonce));
  mret (kvs_from_proto response.(get_kvs), response.(get_hmac)).

Definition Client_put (self : Auth) (kvs : list kv) (client_hmac : list Z) : method N ClientError (list Z) :=
  let kvs_proto := (fun '(k, v) => mkKeyValue k v.(v_version) v.(v_value)) <$> kvs in
  response ← remote (rpc_put (mkPutRequest (make_auth_proto self) kvs_proto client_hmac));
  if response.(put_success) then mret response.(reply_hmac)
  else call (Err (PutConflict (kvs_from_proto response.(put_conflicts)))).

(** The result of a call as a value. *)
Definition outcome {F E A : Type} (m : method N E A) : method N F (res E A) := fun n =>
  let '(n, r) := m n in (n, Ok r).

(** [remove_and_check_hmacs]; the values of a failed call are dropped. *)
Definition remove_and_check_hmacs (hmac_secret : list Z) (kvs : list kv) : res ClientError (list kv) :=
  map_res (fun '(key, value) =>
    value' ← map_err (fun _ => InvalidHmac key value.(v_version)) (process_value_from_get hmac_secret key value);
    Ok (key, value')) kvs.

(** [nonce] is what the random generator returns. *)
Definition PrivClient_get (self : PrivAuth) (nonce hmac_secret : list Z) (key_prefix : string)
  : method N ClientError (list kv) :=
  '(kvs, received_hmac) ← Client_get (auth self) key_prefix nonce;
  let hmac := lss_compute_shared_hmac self.(pa_shared_secret) nonce kvs in
  if bool_decide (received_hmac <> hmac) then call (Err InvalidServerHmac)
  else call (remove_and_check_hmacs hmac_secret kvs).

(** [sort_by_key], which is stable. *)
Fixpoint insert_by_key (x : kv) (l : list kv) : list kv :=
  match l with
  | [] => [x]
  | y :: l' => if decide (ord_le x.1 y.1) then x :: l else y :: insert_by_key x l'
  end.

Definition sort_by_key (kvs : list kv) : list kv := foldr insert_by_key [] kvs.

Definition PrivClient_put (self : PrivAuth) (hmac_secret : list Z) (kvs : list kv) : method N ClientError unit :=
  let kvs := sort_by_key kvs in
  kvs ← call (map_res (fun '(key, value) => value' ← prepare_value_for_put hmac_secret key value; Ok (key, value')) kvs);
  let client_hmac := lss_compute_shared_hmac self.(pa_shared_secret) [1] kvs in
  let server_hmac := lss_compute_shared_hmac self.(pa_shared_secret) [2] kvs in
  r ← outcome (Client_put (auth self) kvs client_hmac);
  match r with
  | Ok received_server_hmac =>
      if bool_decide (received_server_hmac = server_hmac) then mret tt else call (Err InvalidServerHmac)
  | Err (PutConflict conflicts) =>
      conflicts ← call (remove_and_check_hmacs hmac_secret conflicts);
      call (Err (PutConflict conflicts))
  | Err e => call (Err e)
  | Panic => call Panic
  end.
End Client.

(** ** [external_persist] of the front end *)
Inductive ExtError := Conflicts (conflicts : list (string * Z)) | NoConsensus | NotAvailable | NotAuthorized.

Definition ExtError_from (e : ClientError) : ExtError :=
  match e with
  | Connect | Tonic _ | InvalidResponse => NotAvailable
  | InvalidHmac _ _ | InvalidServerHmac => NotAuthorized
  | PutConflict c => Conflicts ((fun '(k, v) => (k, as_u64 v.(v_version))) <$> c)
  end.

Class ExternalPersist (N : Type) := {
  ext_put : Mutations -> list Z -> method N ExtError (list Z);
  ext_get : string -> list Z -> method N ExtError (Mutations * list Z);
  ext_info : method N ExtError (string * SecpPublicKey)
}.

(** The client of a server, and the connection behind it. *)
Record LssClient (N : Type) := mkLssClient {
  lss_auth : Auth; lss_server_public_key : SecpPublicKey; lss_end : N }.

Arguments mkLssClient {N}.
Arguments lss_auth {N}.
Arguments lss_server_public_key {N}.
Arguments lss_end {N}.

Section LssClient.
Context {N : Type} `{!LightningStorage N} `{!EqDecision SecpPublicKey}.

(** A call of the client with the [From] conversion of its error. *)
Definition at_end {A : Type} (m : method N ClientError A) : method (LssClient N) ExtError A := fun self =>
  let '(n, r) := m self.(lss_end) in
  (mkLssClient self.(lss_auth) self.(lss_server_public_key) n, map_err ExtError_from r).

Definition LssClient_new (server_public_key : SecpPublicKey) (auth : Auth) : method N ExtError (Auth * SecpPublicKey) := fun n =>
  let '(n, r) := Client_get_info n in
  (n, '(pubkey, _) ← map_err ExtError_from r;
      rassert (bool_decide (pubkey = server_public_key)) ;;
      Ok (auth, server_public_key)).

Definition LssClient_put (mutations : Mutations) (client_hmac : list Z) : method (LssClient N) ExtError (list Z) :=
  self ← get_self;
  let kvs := (fun '(k, (version, value)) => (k, mkValue (as_i64 version) value)) <$> mutations in
  at_end (Client_put self.(lss_auth) kvs client_hmac).

Definition LssClient_get (key_prefix : string) (nonce : list Z) : method (LssClient N) ExtError (Mutations * list Z) :=
  self ← get_self;
  '(kvs, received_hmac) ← at_end (Client_get self.(lss_auth) key_prefix nonce);
  mret ((fun '(k, v) => (k, (as_u64 v.(v_version), v.(v_value)))) <$> kvs, received_hmac).

Definition LssClient_info : method (LssClient N) ExtError (string * SecpPublicKey) :=
  self ← get_self;
  '(server_public_key, version) ← at_end Client_get_info;
  call (rassert (bool_decide (self.(lss_server_public_key) = server_public_key))) ;;
  mret (version, server_public_key).

#[export] Instance LssClient_external : ExternalPersist (LssClient N) := {|
  ext_put := LssClient_put;
  ext_get := LssClient_get;
  ext_info := LssClient_info
|}.
End LssClient.
End Lss.

Arguments mkStorageServer {_ D}.
Arguments database {_ D}.
Arguments public_key {_ D}.
Arguments secret_key {_ D}.
Arguments mkLssClient {_ N}.
Arguments lss_auth {_ N}.
Arguments lss_server_public_key {_ N}.
Arguments lss_end {_ N}.
