(* ===== verification/LssSpec.v ===== *)
(** * What the parts of the storage server promise

    The laws of the packages, sealing and opening of values, the contract of a
    [Database] on one versioned map per client, and the proof that the redb
    database keeps it. *)
From S2P Require Import Prelude Ordered Types BTree Kvv Persister PersisterSafety ChaCha Lss.
From Stdlib Require Import Ascii.

(** ** Laws of the packages *)
Class LssLaws `{LssPackages} := {
  sha256_length : forall x, length (sha256 x) = 32%nat;
  sha256_bytes : forall x, bytes (sha256 x);
  hmac_length : forall key x, length (hmac_sha256 key x) = 32%nat;
  shared_point_sym : forall a b, shared_point (from_secret_key a) b = shared_point (from_secret_key b) a;
  serialize_bytes : forall k, bytes (serialize k);
  serialize_roundtrip : forall k, from_slice (serialize k) = Some k;
  lss_hex_no_separator : forall b, bytes b -> no_separator (hex b) = true;
  lss_hex_inj : forall a b, bytes a -> bytes b -> hex a = hex b -> a = b;
  lss_hex_length : forall b, String.length (hex b) = (2 * length b)%nat;
  cbor_roundtrip : forall v, cbor_from_reader (cbor_into_writer v) = Some v
}.

(** ** Sealing *)

(** A secret that the cipher takes, and a value that it can process. *)
Definition secret_ok (secret : list Z) : Prop := length secret = 16%nat \/ length secret = 32%nat.
Definition value_ok (v : Value) : Prop := Z.of_nat (length v.(v_value)) + 32 <= 64 * (2 ^ 32 - 1).

Section Seal.
Context `{Profile} `{LssLaws}.

Lemma from_bytes_Ok (l : list Z) : length l = 16%nat -> exists r, from_bytes l = Ok r.
Proof. intros Hl. unfold from_bytes. rewrite Hl. eauto. Qed.

Lemma new_row (key nonce : list Z) :
  secret_ok key -> length nonce = 12%nat -> bytes nonce ->
  exists s, ChaCha20_new key nonce = Ok (mkChaCha20 s (replicate BLOCK_SIZE 0) 64) /\
    row_u32 s.(row_d) /\ s.(row_d).(w0) = 0.
Proof.
  intros Hk Hn Hb.
  assert (Hd : exists d, from_bytes (replicate 4 0 ++ nonce) = Ok d /\ row_u32 d /\ d.(w0) = 0).
  { eexists. split; [unfold from_bytes; rewrite length_app, Hn; reflexivity|]. split; [|done].
    assert (Hw : forall i j, (j = i + 4)%nat -> (j <= 16)%nat -> u32 (from_le_bytes (slice (replicate 4 0 ++ nonce) i j))).
    { intros i j -> Hj. unfold slice. replace (i + 4 - i)%nat with 4%nat by lia.
      assert (Hl : length (take 4 (drop i (replicate 4 0 ++ nonce))) = 4%nat)
        by (rewrite length_take, length_drop, length_app, length_replicate, Hn; lia).
      pose proof (from_le_bytes_bound (take 4 (drop i (replicate 4 0 ++ nonce)))) as Hf. rewrite Hl in Hf.
      apply Hf, Forall_take, Forall_drop, Forall_app. split; [apply Forall_replicate; lia|exact Hb]. }
    split_and!; apply Hw; lia. }
  destruct Hd as (d & Hd & Hr & Hc). 
  assert (He : exists s, expand key nonce = Ok s /\ s.(row_d) = d).
  { unfold expand. rewrite Hn, Hd. destruct Hk as [Hk|Hk]; rewrite Hk; cbn [Nat.eqb mbind res_bind].
    all: destruct (from_bytes_Ok (slice key 0 16)) as [b ->]; [unfold slice; rewrite length_take, length_drop; lia|].
    2: destruct (from_bytes_Ok (slice key 16 32)) as [c ->]; [unfold slice; rewrite length_take, length_drop; lia|].
    all: eexists; split; [reflexivity|done]. }
  destruct He as (s & He & Hs). exists s. rewrite Hs. split; [|done]. unfold ChaCha20_new.
  rewrite Hn, He. by destruct Hk as [-> | ->].
Qed.

(** The cipher applied twice. *)
Lemma combined_involutive (f : nat -> Z) (pos : nat) (l : list Z) : combined f pos (combined f pos l) = l.
Proof.
  apply list_eq. intros i. unfold combined. rewrite !list_lookup_imap. destruct (l !! i) as [b|]; [|done].
  cbn. by rewrite Z.lxor_assoc, Z.lxor_nilpotent, Z.lxor_0_r.
Qed.

Lemma crypt_value_twice (secret : list Z) (key : string) (version : Z) (value : list Z) :
  secret_ok secret -> Z.of_nat (length value) <= 64 * (2 ^ 32 - 1) ->
  exists crypted, (forall F : Type, crypt_value (E:=F) secret key version value = Ok crypted) /\
    length crypted = length value /\ forall F : Type, crypt_value (E:=F) secret key version crypted = Ok value.
Proof.
  intros Hs Hl. unfold crypt_value. set (nonce := take 12 _).
  assert (Hn : length nonce = 12%nat) by (unfold nonce; rewrite length_take, sha256_length; done).
  assert (Hb : bytes nonce) by (unfold nonce; apply Forall_take, sha256_bytes).
  destruct (new_row secret nonce Hs Hn Hb) as (s & Hnew & Hrow & Hc). rewrite Hnew. cbn [cipher mbind res_bind].
  assert (Hp : forall v, length v = length value ->
    (process_in_place v (mkChaCha20 s (replicate BLOCK_SIZE 0) 64)).2 = Ok (combined (stream s) 0 v)).
  { intros v Hv. rewrite process_in_place_eq.
    pose proof (process_consumed s Hrow _ 0 0 v v (consumed_new s Hrow) eq_refl) as H'.
    rewrite (proj2 (Z.leb_le _ _)) in H' by (unfold stream_length; rewrite Hc, Hv; lia).
    by destruct H' as (? & ? & -> & _). }
  exists (combined (stream s) 0 value). rewrite !Hp by (try unfold combined; rewrite ?length_imap; done).
  rewrite combined_involutive. unfold combined. by rewrite length_imap.
Qed.

(** What is stored for a value, and that opening it gives the value back. *)
Definition seal (secret : list Z) (key : string) (v : Value) : Value :=
  match prepare_value_for_put (E:=unit) secret key v with Ok c => c | _ => v end.

Lemma seal_spec (secret : list Z) (key : string) (v : Value) :
  secret_ok secret -> value_ok v ->
  (forall F : Type, prepare_value_for_put (E:=F) secret key v = Ok (seal secret key v)) /\
  (seal secret key v).(v_version) = v.(v_version) /\
  process_value_from_get secret key (seal secret key v) = Ok v.
Proof.
  intros Hs Hv. unfold seal, prepare_value_for_put, process_value_from_get, append_hmac_to_value.
  set (tag := compute_hmac _ _ _ _). assert (Ht : length tag = 32%nat) by apply hmac_length.
  destruct (crypt_value_twice secret key v.(v_version) (v.(v_value) ++ tag) Hs) as (c & Hc & Hl & Hd).
  { rewrite length_app, Ht. unfold value_ok in Hv. lia. }
  rewrite Hc. cbn [mbind res_bind v_version v_value]. split; [intros F; by rewrite Hc|]. split; [done|].
  rewrite Hd. cbn [mbind res_bind]. unfold remove_and_check_hmac. rewrite length_app, Ht.
  replace (length v.(v_value) + 32 - 32)%nat with (length v.(v_value)) by lia.
  rewrite (proj2 (Nat.ltb_ge _ _)) by lia. rewrite take_app_length, drop_app_length.
  rewrite bool_decide_eq_true_2 by done. by destruct v.
Qed.
End Seal.

(** ** The contract of a database *)
Abbreviation vals := (gmap string Value) (only parsing).

Definition next_expected (m : vals) (key : string) : Z :=
  match m !! key with Some v => v.(v_version) + 1 | None => 0 end.

(** The entries whose version is not the next one, with what is stored. *)
Definition conflicts_of (m : vals) (kvs : list kv) : list (string * option Value) :=
  omap (fun x => if decide (x.2.(v_version) = next_expected m x.1) then None else Some (x.1, m !! x.1)) kvs.

Definition insert_all (m : vals) (kvs : list kv) : vals := foldl (fun m x => <[x.1 := x.2]> m) m kvs.

Class DatabaseLaws (D : Type) `{Profile} `{LssPackages} `{!Database D} := {
  (** all versions are at most the number *)
  db_inv : Z -> D -> Prop;
  db_view : D -> list Z -> vals;
  db_inv_mono : forall n n' d, db_inv n d -> n <= n' -> db_inv n' d;
  db_view_versions : forall n d id key v, db_inv n d -> bytes id -> db_view d id !! key = Some v -> 0 <= v.(v_version) <= n;
  db_put_spec : forall n d id kvs, db_inv n d -> -1 <= n < 2 ^ 63 - 1 -> bytes id ->
    match conflicts_of (db_view d id) kvs with
    | [] => exists d', db_put id kvs d = (d', Ok tt) /\ db_inv (n + 1) d' /\
        db_view d' id = insert_all (db_view d id) kvs /\
        forall id', bytes id' -> id' <> id -> db_view d' id' = db_view d id'
    | conflicts => db_put id kvs d = (d, Err (Conflict conflicts))
    end;
  db_get_spec : forall n d id prefix, db_inv n d -> bytes id ->
    db_get_with_prefix d id prefix = Ok (prefix_entries (db_view d id) prefix)
}.

(** ** The redb database *)
Section RedbLaws.
Context `{Profile} `{LssLaws}.
Implicit Types (d : RedbDatabase) (id : list Z) (t : gmap string (list Z)).

(** The rows of a client. *)
Definition client_prefix id : string := (hex id ++ "/")%string.

Definition client_entry id (row : string * list Z) : option kv :=
  k ← strip_prefix (client_prefix id) row.1; v ← cbor_from_reader row.2; Some (k, v).

Definition redb_view_of t id : vals := list_to_map (omap (client_entry id) (btree_iter t)).

Lemma full_key_prefix id key : full_key id key = (client_prefix id ++ key)%string.
Proof. unfold full_key, client_prefix. by rewrite string_app_assoc. Qed.

Lemma strip_prefix_Some (p key k : string) : strip_prefix p key = Some k <-> key = (p ++ k)%string.
Proof.
  split; [|intros ->; apply strip_prefix_app]. revert key. induction p as [|a p IH]; intros key; cbn.
  - destruct key; by intros [= <-].
  - destruct key as [|b key]; [done|]. destruct (Ascii.eqb_spec a b) as [->|]; [|done].
    intros ->%IH. done.
Qed.

Lemma client_entry_Some id row k v :
  client_entry id row = Some (k, v) <-> row.1 = full_key id k /\ cbor_from_reader row.2 = Some v.
Proof.
  unfold client_entry. destruct (strip_prefix _ row.1) as [k'|] eqn:Hs; cbn.
  - apply strip_prefix_Some in Hs. rewrite Hs, <- full_key_prefix. destruct (cbor_from_reader row.2); cbn.
    + split; [by intros [= -> ->]|]. intros [Hk [= ->]]. rewrite !full_key_prefix in Hk.
      by apply string_app_inj in Hk as ->.
    + split; [done|by intros [_ ?]].
  - split; [done|]. intros [Hk _]. rewrite full_key_prefix in Hk. apply strip_prefix_Some in Hk. congruence.
Qed.

Lemma client_entry_elem id (l : list (string * list Z)) k v :
  (k, v) ∈ omap (client_entry id) l <-> exists row, (full_key id k, row) ∈ l /\ cbor_from_reader row = Some v.
Proof.
  rewrite list_elem_of_omap. split.
  - intros ([key row] & Hin & [Hk Hv]%client_entry_Some). cbn in *. subst key. by eauto.
  - intros (row & Hin & Hv). exists (full_key id k, row). split; [done|]. by apply client_entry_Some.
Qed.

Lemma string_compare_app (p a b : string) : ord_cmp (p ++ a)%string (p ++ b)%string = ord_cmp a b.
Proof.
  unfold ord_cmp, string_ord. induction p as [|x p IH]; [done|].
  rewrite !string_app_cons, string_compare_cons, (proj2 (ascii_compare_eq x x)) by done. exact IH.
Qed.

(** The rows of a client in the order of their keys. *)
Lemma client_rows_sorted id (l : list (string * list Z)) :
  StronglySorted ord_le l.*1 -> NoDup l.*1 ->
  StronglySorted ord_le (omap (client_entry id) l).*1 /\ NoDup (omap (client_entry id) l).*1.
Proof.
  induction l as [|row l IH]; intros Hs Hn; [split; constructor|]. cbn [fmap list_fmap] in *.
  apply StronglySorted_inv in Hs as [Hs Hall]. apply NoDup_cons in Hn as [Hnot Hn]. destruct (IH Hs Hn) as [IHs IHn].
  cbn [omap list_omap]. destruct (client_entry id row) as [[k v]|] eqn:He; [|done]. cbn [fmap list_fmap fst].
  apply client_entry_Some in He as [Hk _].
  assert (Hin : forall k', k' ∈ (omap (client_entry id) l).*1 -> full_key id k' ∈ l.*1).
  { intros k' ([k1 v1] & -> & (row1 & Hrow & _)%client_entry_elem)%list_elem_of_fmap.
    apply list_elem_of_fmap. by exists (full_key id k1, row1). }
  split; constructor; try done.
  - apply Forall_forall. intros k' Hk'%Hin. rewrite Forall_forall in Hall. specialize (Hall _ Hk').
    rewrite Hk, !full_key_prefix in Hall. unfold ord_le in *. by rewrite string_compare_app in Hall.
  - intros Hk'%Hin. by rewrite <- Hk in Hk'.
Qed.

Lemma view_iter t id : btree_iter (redb_view_of t id) = omap (client_entry id) (btree_iter t).
Proof.
  destruct (client_rows_sorted id (btree_iter t) (btree_iter_sorted t) (btree_iter_NoDup t)) as [Hs Hn].
  by apply btree_iter_list_to_map.
Qed.

Lemma view_lookup t id k : redb_view_of t id !! k = t !! full_key id k ≫= cbor_from_reader.
Proof.
  destruct (client_rows_sorted id (btree_iter t) (btree_iter_sorted t) (btree_iter_NoDup t)) as [_ Hn].
  apply option_eq. intros v. unfold redb_view_of. rewrite <- elem_of_list_to_map by done.
  rewrite client_entry_elem. setoid_rewrite btree_iter_elem. rewrite bind_Some. done.
Qed.

Lemma full_key_inj id id' k k' : bytes id -> bytes id' -> full_key id k = full_key id' k' -> id = id' /\ k = k'.
Proof.
  intros Hb Hb' Heq. apply separator_inj in Heq as [Hh ->]; [|by apply lss_hex_no_separator..].
  split; [|done]. by apply lss_hex_inj.
Qed.

Lemma view_insert t id id' (x : kv) :
  bytes id -> bytes id' ->
  redb_view_of (insert_row id' t x) id
  = if decide (id' = id) then <[x.1 := x.2]> (redb_view_of t id) else redb_view_of t id.
Proof.
  intros Hb Hb'. unfold insert_row. apply map_eq. intros k. rewrite view_lookup.
  destruct (decide (full_key id' x.1 = full_key id k)) as [Heq|Hne].
  - rewrite Heq, lookup_insert_eq. apply full_key_inj in Heq as [-> ->]; [|done..].
    rewrite decide_True, lookup_insert_eq by done. cbn. apply cbor_roundtrip.
  - rewrite lookup_insert_ne, <- view_lookup by done. destruct (decide (id' = id)) as [->|]; [|done].
    rewrite lookup_insert_ne; [done|]. intros Heq. apply Hne. by rewrite Heq.
Qed.

Lemma view_insert_rows t id id' (kvs : list kv) :
  bytes id -> bytes id' ->
  redb_view_of (foldl (insert_row id') t kvs) id
  = if decide (id' = id) then insert_all (redb_view_of t id) kvs else redb_view_of t id.
Proof.
  intros Hb Hb'. revert t. induction kvs as [|x kvs IH]; intros t; cbn [foldl insert_all].
  - by destruct (decide _).
  - rewrite IH, view_insert by done. by destruct (decide _).
Qed.

(** Every row is a value with a version in range. *)
Definition redb_inv (n : Z) d : Prop :=
  map_Forall (fun _ row => exists v, cbor_from_reader row = Some v /\ 0 <= v.(v_version) <= n) d.(redb_kv).

Lemma next_of_view {E : Type} n d id k :
  redb_inv n d -> n < 2 ^ 63 - 1 ->
  next_of (E:=E) d.(redb_kv) (full_key id k)
  = Ok (next_expected (redb_view_of d.(redb_kv) id) k, redb_view_of d.(redb_kv) id !! k).
Proof.
  intros Hi Hn. unfold next_of, next_expected. rewrite view_lookup.
  destruct (d.(redb_kv) !! full_key id k) as [row|] eqn:Hr; [|done]. destruct (Hi _ _ Hr) as (v & Hv & Hb).
  cbn. rewrite Hv. cbn [unwrap mbind res_bind]. unfold add_i64.
  rewrite (proj2 (andb_true_iff _ _)); [done|]. rewrite Z.leb_le, Z.ltb_lt. lia.
Qed.

Lemma conflict_steps n d id (kvs : list kv) (acc : list (string * option Value)) :
  redb_inv n d -> n < 2 ^ 63 - 1 ->
  fold_res (conflict_step d.(redb_kv) id) acc kvs = Ok (acc ++ conflicts_of (redb_view_of d.(redb_kv) id) kvs).
Proof.
  intros Hi Hn. revert acc. induction kvs as [|[k v] kvs IH]; intros acc; cbn [fold_res conflicts_of omap list_omap].
  { by rewrite app_nil_r. }
  set (m := redb_view_of d.(redb_kv) id) in *.
  assert (conflict_step d.(redb_kv) id acc (k, v) =
    Ok (if decide (v.(v_version) = next_expected m k) then acc else acc ++ [(k, m !! k)])) as ->.
  { unfold conflict_step. rewrite (next_of_view n) by done. cbn [mbind res_bind]. fold m.
    destruct (decide _) as [Heq|Hne]; [by rewrite bool_decide_eq_false_2 by (intros []; done)|].
    by rewrite bool_decide_eq_true_2. }
  cbn [mbind res_bind fst snd]. rewrite IH. destruct (decide _); [done|]. by rewrite <- app_assoc.
Qed.

Lemma conflicts_nil (m : vals) (kvs : list kv) :
  conflicts_of m kvs = [] -> Forall (fun x => x.2.(v_version) = next_expected m x.1) kvs.
Proof.
  induction kvs as [|x kvs IH]; [constructor|]. cbn [conflicts_of omap list_omap].
  destruct (decide _); [|done]. intros Hn. constructor; [done|by apply IH].
Qed.

Lemma redb_inv_insert n d id (kvs : list kv) :
  redb_inv n d -> -1 <= n -> conflicts_of (redb_view_of d.(redb_kv) id) kvs = [] ->
  redb_inv (n + 1) (mkRedbDatabase (foldl (insert_row id) d.(redb_kv) kvs)).
Proof.
  intros Hi Hn Hc%conflicts_nil. set (m := redb_view_of d.(redb_kv) id) in *.
  assert (Hm : forall k, 0 <= next_expected m k <= n + 1).
  { intros k. unfold next_expected, m. rewrite view_lookup. destruct (d.(redb_kv) !! _) as [row|] eqn:Hr; cbn; [|lia].
    destruct (Hi _ _ Hr) as (v & -> & Hv). lia. }
  assert (Hi' : redb_inv (n + 1) d).
  { intros k row Hr. destruct (Hi _ _ Hr) as (v & Hv & Hb). exists v. split; [done|lia]. }
  unfold redb_inv in *. cbn [redb_kv]. clearbody m. clear Hi. generalize dependent (d.(redb_kv)). intros t Ht.
  revert t Ht. induction Hc as [|x kvs Hx _ IH]; intros t Ht; [done|]. cbn [foldl]. apply IH.
  unfold insert_row. apply map_Forall_insert_2; [|done]. exists x.2. rewrite cbor_roundtrip. split; [done|].
  rewrite Hx. apply Hm.
Qed.

(** The loop of [do_get]. *)
Lemma substring_app (p k : string) : String.substring (String.length p) (String.length k) (p ++ k) = k.
Proof.
  induction p as [|a p IH]; [|exact IH]. rewrite string_app_nil. cbn [String.length].
  induction k as [|b k IH]; [done|]. cbn [String.length String.substring]. by rewrite IH.
Qed.

Lemma string_length_app (p k : string) : String.length (p ++ k) = (String.length p + String.length k)%nat.
Proof. induction p as [|a p IH]; [done|]. rewrite string_app_cons. cbn. by rewrite IH. Qed.

Lemma split_off_full {E : Type} id k : split_off (E:=E) (full_key id k) (length id * 2 + 1) = Ok k.
Proof.
  rewrite full_key_prefix. assert (Hl : String.length (client_prefix id) = (length id * 2 + 1)%nat).
  { unfold client_prefix. rewrite string_length_app, lss_hex_length. cbn. lia. }
  unfold split_off. rewrite string_length_app, <- Hl.
  rewrite (proj2 (Nat.leb_le _ _)) by lia.
  replace (String.length (client_prefix id) + String.length k - String.length (client_prefix id))%nat
    with (String.length k) by lia. by rewrite substring_app.
Qed.

Lemma starts_with_full id p key :
  starts_with (full_key id p) key = true -> exists k, key = full_key id k /\ starts_with p k = true.
Proof.
  intros Hs. assert (exists r, key = (full_key id p ++ r)%string) as [r ->].
  { revert Hs. generalize (full_key id p) as q. intros q. revert key. unfold starts_with.
    induction q as [|a q IH]; intros key Hs; [by exists key|]. destruct key as [|b key]; [done|].
    cbn [String.prefix] in Hs. destruct (ascii_dec a b) as [->|]; [|done]. destruct (IH key Hs) as [r ->].
    by exists r. }
  exists (p ++ r)%string. rewrite !full_key_prefix, string_app_assoc. split; [done|]. apply prefix_refl.
Qed.

Lemma get_rows n d id p (l : list (string * list Z)) :
  redb_inv n d -> (forall key row, (key, row) ∈ l -> d.(redb_kv) !! key = Some row) ->
  map_res (fun '(key, row) =>
    value ← unwrap (cbor_from_reader row);
    key_s ← split_off key (length id * 2 + 1);
    Ok (E:=DbError) (key_s, value)) (filter (fun r => starts_with (full_key id p) r.1 = true) l)
  = Ok (filter (fun x => starts_with p x.1 = true) (omap (client_entry id) l)).
Proof.
  intros Hi. induction l as [|[key row] l IH]; intros Hl; [done|].
  assert (IH' := IH (fun key row Hin => Hl key row (list_elem_of_further _ _ _ Hin))). clear IH.
  destruct (Hi key row) as (v & Hv & _); [apply Hl; left|]. cbn [omap list_omap].
  destruct (starts_with (full_key id p) key) eqn:Hs.
  - rewrite filter_cons_True by done. destruct (starts_with_full id p key Hs) as (k & -> & Hk).
    assert (client_entry id (full_key id k, row) = Some (k, v)) as -> by (by apply client_entry_Some).
    rewrite filter_cons_True by done. cbn [map_res]. rewrite Hv. cbn [unwrap mbind res_bind].
    rewrite split_off_full. cbn [mbind res_bind]. by rewrite IH'.
  - rewrite filter_cons_False by (cbn [fst]; by rewrite Hs). rewrite IH'. f_equal.
    destruct (client_entry id (key, row)) as [[k v']|] eqn:He; [|done].
    apply client_entry_Some in He as [Hk _]. cbn [fst] in Hk. subst key.
    rewrite filter_cons_False; [done|]. cbn [fst]. unfold starts_with in *. rewrite !full_key_prefix, prefix_app in Hs. by rewrite Hs.
Qed.

#[export] Instance RedbDatabase_laws : DatabaseLaws RedbDatabase.
Proof.
  refine {| db_inv := redb_inv; db_view d id := redb_view_of d.(redb_kv) id |}.
  - intros n n' d Hi Hn k row Hr. destruct (Hi _ _ Hr) as (v & Hv & Hb). exists v. split; [done|lia].
  - intros n d id key v Hi _. rewrite view_lookup. intros (row & Hr & Hv)%bind_Some.
    destruct (Hi _ _ Hr) as (v' & Hv' & Hb). congruence.
  - intros n d id kvs Hi Hn Hb. cbn [db_put RedbDatabase_database]. unfold redb_put, do_put.
    assert (Hf := conflict_steps n d id kvs [] Hi ltac:(lia)). rewrite app_nil_l in Hf.
    destruct (conflicts_of _ _) as [|c cs] eqn:Hc.
    + exists (mkRedbDatabase (foldl (insert_row id) d.(redb_kv) kvs)). split; [|split; [apply (redb_inv_insert n); [done|lia|done]|]].
      * rewrite (run_bind _ _ d (mkRedbDatabase (foldl (insert_row id) d.(redb_kv) kvs)) []); [done|].
        by rewrite get_bind, Hf, call_Ok_bind.
      * cbn [redb_kv]. rewrite view_insert_rows, decide_True by done. split; [done|].
        intros id' Hb' Hne. by rewrite view_insert_rows, decide_False.
    + rewrite (run_bind _ _ d d (c :: cs)); [done|]. by rewrite get_bind, Hf, call_Ok_bind.
  - intros n d id p Hi Hb. cbn [db_get_with_prefix RedbDatabase_database]. unfold redb_get_with_prefix, do_get.
    rewrite !prefix_entries_filter, view_iter. apply (get_rows n d); [done|].
    intros key row. by rewrite btree_iter_elem.
Defined.
End RedbLaws.
