(* ===== verification/LssSafety.v ===== *)
(** * What the storage server guarantees

    A client that uses an honest server sees a versioned map of its own values,
    whatever other clients do; and the signer's cloud store stays in step with
    the server. *)
From S2P Require Import Prelude Ordered Types BTree Kvv KvvSpec KvvSafety KvvTx KvvTxSafety Persister PersisterSafety ChaCha Lss LssSpec.

(** ** The client of an honest server *)
Section Honest.
Context `{Profile} `{LssLaws} {D : Type} `{!Database D} `{!DatabaseLaws D}.
Implicit Types (s : StorageServer D).

(** The server's key pair. *)
Definition honest s : Prop := s.(public_key) = from_secret_key s.(secret_key).

Definition with_database s (d : D) : StorageServer D := mkStorageServer d s.(public_key) s.(secret_key).

(** Both sides compute the same secret, so the token of a client passes. *)
Lemma check_auth_client s (client_key : SecpSecretKey) :
  honest s ->
  let me := new_for_client client_key s.(public_key) in
  check_auth s (mkAuthProto (serialize me.(pa_client_id)) (auth_token me)) = Ok me.
Proof.
  intros Hh. cbv zeta. unfold check_auth. cbn [p_client_id p_token new_for_client pa_client_id].
  rewrite serialize_roundtrip. cbn [ok_or mbind res_bind].
  assert (new_for_server s.(secret_key) (from_secret_key client_key) = new_for_client client_key s.(public_key)) as ->.
  { unfold new_for_server, new_for_client. rewrite Hh. f_equal. apply shared_point_sym. }
  by rewrite bool_decide_eq_false_2 by (intros []; done).
Qed.

Lemma from_into_proto (kvs : list kv) : from_proto <$> (into_proto <$> kvs) = kvs.
Proof. rewrite <- list_fmap_compose. rewrite <- (list_fmap_id kvs) at 2. apply list_fmap_ext. by intros ? [k []] ?. Qed.

(** The raw calls of a client, on the versioned map of its namespace. *)
Definition stored (c : string * option Value) : kv := (c.1, default (mkValue (-1) []) c.2).

Lemma conflicts_from_proto (cs : list (string * option Value)) :
  kvs_from_proto (conflict_into_proto <$> cs) = stored <$> cs.
Proof. unfold kvs_from_proto. rewrite <- list_fmap_compose. apply list_fmap_ext. by intros ? [k [[]|]] ?. Qed.

(** An accepted put: what changed. *)
Definition accepted (n : Z) s (id : list Z) (kvs : list kv) (s' : StorageServer D) : Prop :=
  exists d', s' = with_database s d' /\ db_inv (n + 1) d' /\
    db_view d' id = insert_all (db_view s.(database) id) kvs /\
    forall id', bytes id' -> id' <> id -> db_view d' id' = db_view s.(database) id'.

Lemma on_database_put n s id (kvs : list kv) :
  db_inv n s.(database) -> -1 <= n < 2 ^ 63 - 1 -> bytes id ->
  match conflicts_of (db_view s.(database) id) kvs with
  | [] => exists s', on_database (db_put id kvs) s = (s', Ok (Ok tt)) /\ accepted n s id kvs s'
  | cs => on_database (db_put id kvs) s = (s, Ok (Err (Conflict cs)))
  end.
Proof.
  intros Hi Hn Hb. pose proof (db_put_spec n s.(database) id kvs Hi Hn Hb) as Hp. unfold on_database.
  destruct (conflicts_of _ _).
  - destruct Hp as (d' & -> & Hrest). exists (with_database s d'). split; [done|]. by exists d'.
  - rewrite Hp. by destruct s.
Qed.

Section Raw.
Context (n : Z) s (client_key : SecpSecretKey).
Context (Hh : honest s) (Hi : db_inv n s.(database)) (Hn : -1 <= n < 2 ^ 63 - 1).
Let me : PrivAuth := new_for_client client_key s.(public_key).
Let id : list Z := serialize me.(pa_client_id).

Lemma check_auth_me : check_auth s (mkAuthProto id (auth_token me)) = Ok me.
Proof. exact (check_auth_client s client_key Hh). Qed.

Lemma client_put_honest (kvs : list kv) :
  keys_sorted kvs = true ->
  let out := Client_put (auth me) kvs (lss_compute_shared_hmac me.(pa_shared_secret) [1] kvs) s in
  match conflicts_of (db_view s.(database) id) kvs with
  | [] => exists s', out = (s', Ok (lss_compute_shared_hmac me.(pa_shared_secret) [2] kvs)) /\ accepted n s id kvs s'
  | cs => out = (s, Err (PutConflict (stored <$> cs)))
  end.
Proof.
  intros Hs. cbv zeta. pose proof (on_database_put n s id kvs Hi Hn (serialize_bytes _)) as Hd.
  assert (Hkvs : from_proto <$> ((fun '(k, v) => mkKeyValue k v.(v_version) v.(v_value)) <$> kvs) = kvs).
  { rewrite <- (from_into_proto kvs) at 2. f_equal. apply list_fmap_ext. by intros ? [k v] ?. }
  set (out := server_put (mkPutRequest (Some (mkAuthProto id (auth_token me)))
    ((fun '(k, v) => mkKeyValue k v.(v_version) v.(v_value)) <$> kvs)
    (lss_compute_shared_hmac me.(pa_shared_secret) [1] kvs)) s).
  assert (Hout : out = match conflicts_of (db_view s.(database) id) kvs with
    | [] => ((on_database (db_put id kvs) s).1, Ok (mkPutReply true (lss_compute_shared_hmac me.(pa_shared_secret) [2] kvs) []))
    | cs => (s, Ok (mkPutReply false [] (conflict_into_proto <$> cs))) end).
  { unfold out, server_put. rewrite get_bind. cbn [put_kvs put_auth put_hmac]. rewrite Hkvs. cbn [ok_or].
    rewrite call_Ok_bind. cbn [p_client_id]. rewrite Hs. cbn [negb].
    rewrite check_auth_me, call_Ok_bind.
    rewrite bool_decide_eq_false_2 by (intros []; done).
    destruct (conflicts_of _ _).
    - destruct Hd as (s' & Hd & _). by rewrite (run_bind _ _ _ _ _ Hd), Hd.
    - by rewrite (run_bind _ _ _ _ _ Hd). }
  unfold Client_put, remote, make_auth_proto, auth. cbn [a_client_id a_token rpc_put StorageServer_storage].
  unfold mbind, method_bind. fold id. fold out. rewrite Hout. destruct (conflicts_of _ _) as [|c cs] eqn:Hc.
  - destruct Hd as (s' & Hd & Ha). rewrite Hd. by exists s'.
  - cbn [map_err put_success put_conflicts call]. by rewrite conflicts_from_proto.
Qed.

Lemma client_get_honest (prefix : string) (nonce : list Z) :
  let kvs := prefix_entries (db_view s.(database) id) prefix in
  Client_get (auth me) prefix nonce s = (s, Ok (kvs, lss_compute_shared_hmac me.(pa_shared_secret) nonce kvs)).
Proof.
  cbv zeta. unfold Client_get, remote, make_auth_proto, auth. cbn [a_client_id a_token rpc_get StorageServer_storage].
  set (kvs := prefix_entries _ _).
  assert (Hg : server_get (mkGetRequest (Some (mkAuthProto id (auth_token me))) prefix nonce) s
    = (s, Ok (mkGetReply (into_proto <$> kvs) (lss_compute_shared_hmac me.(pa_shared_secret) nonce kvs)))).
  { unfold server_get. rewrite get_bind. cbn [get_auth ok_or]. rewrite call_Ok_bind, check_auth_me, call_Ok_bind.
    cbn [p_client_id get_key_prefix get_nonce].
    by rewrite (db_get_spec n) by (apply Hi || apply serialize_bytes). }
  unfold mbind, method_bind. fold id. rewrite Hg. cbn [map_err get_kvs get_hmac].
  assert (kvs_from_proto (into_proto <$> kvs) = kvs) as -> by exact (from_into_proto kvs). done.
Qed.
End Raw.

(** ** The values of a client

    The server holds the seal of each value. *)
Definition sealed (secret : list Z) (raw plain : vals) : Prop :=
  (forall k, raw !! k = seal secret k <$> plain !! k) /\ map_Forall (fun _ v => value_ok v) plain.

Definition seal_all (secret : list Z) (kvs : list kv) : list kv := (fun x => (x.1, seal secret x.1 x.2)) <$> kvs.

Definition seal_conflict (secret : list Z) (c : string * option Value) : string * option Value :=
  (c.1, seal secret c.1 <$> c.2).

Lemma sealed_insert (secret : list Z) (raw plain : vals) (kvs : list kv) :
  sealed secret raw plain -> Forall (fun x => value_ok x.2) kvs ->
  sealed secret (insert_all raw (seal_all secret kvs)) (insert_all plain kvs).
Proof.
  intros Hs Hk. revert raw plain Hs. induction Hk as [|[k v] kvs Hv _ IH]; intros raw plain Hs; [done|].
  cbn [insert_all seal_all foldl fmap list_fmap fst snd]. apply IH. destruct Hs as [Hl Hm]. split.
  - intros k'. destruct (decide (k = k')) as [->|Hne].
    + by rewrite !lookup_insert_eq.
    + by rewrite !lookup_insert_ne.
  - by apply map_Forall_insert_2.
Qed.

Lemma sealed_entries (secret : list Z) (raw plain : vals) (prefix : string) :
  sealed secret raw plain -> prefix_entries raw prefix = seal_all secret (prefix_entries plain prefix).
Proof.
  intros [Hl _]. rewrite !prefix_entries_filter.
  assert (btree_iter raw = seal_all secret (btree_iter plain)) as ->.
  { unfold btree_iter. assert (dom raw = dom plain) as ->.
    { apply set_eq. intros k. rewrite !elem_of_dom, Hl. by rewrite fmap_is_Some. }
    induction (vec_sort (elements (dom plain))) as [|k l IH]; [done|]. cbn [omap list_omap]. rewrite Hl, IH.
    by destruct (plain !! k). }
  induction (btree_iter plain) as [|[k v] l IH]; [done|]. cbn [seal_all fmap list_fmap fst snd].
  destruct (starts_with prefix k) eqn:Hk.
  - rewrite !filter_cons_True by done. cbn. f_equal. exact IH.
  - rewrite !filter_cons_False by (cbn [fst]; by rewrite Hk). exact IH.
Qed.

Lemma sealed_entries_ok (secret : list Z) (raw plain : vals) (prefix : string) :
  sealed secret raw plain -> Forall (fun x => value_ok x.2) (prefix_entries plain prefix).
Proof.
  intros [_ Hm]. rewrite prefix_entries_filter. apply Forall_forall. intros [k v] [_ Hin]%list_elem_of_filter.
  apply btree_iter_elem in Hin. by eapply Hm.
Qed.

Section Values.
Context (secret : list Z) (Hsecret : secret_ok secret).

Lemma prepare_all (E : Type) (kvs : list kv) :
  Forall (fun x => value_ok x.2) kvs ->
  map_res (fun '(key, value) => value' ← prepare_value_for_put (E:=E) secret key value; Ok (key, value')) kvs
  = Ok (seal_all secret kvs).
Proof.
  induction 1 as [|[k v] kvs Hv _ IH]; [done|]. cbn [map_res].
  rewrite (proj1 (seal_spec secret k v Hsecret Hv)). cbn [mbind res_bind]. by rewrite IH.
Qed.

Lemma open_all (kvs : list kv) :
  Forall (fun x => value_ok x.2) kvs -> remove_and_check_hmacs secret (seal_all secret kvs) = Ok kvs.
Proof.
  unfold remove_and_check_hmacs. induction 1 as [|[k v] kvs Hv _ IH]; [done|]. cbn [seal_all fmap list_fmap map_res fst snd].
  destruct (seal_spec secret k v Hsecret Hv) as (_ & _ & ->). cbn [map_err mbind res_bind]. unfold seal_all in IH. by rewrite IH.
Qed.

Lemma seal_version (k : string) (v : Value) : value_ok v -> (seal secret k v).(v_version) = v.(v_version).
Proof. intros Hv. by destruct (seal_spec secret k v Hsecret Hv) as (_ & -> & _). Qed.

(** The conflicts that the server finds are those on the plain values. *)
Lemma sealed_conflicts (raw plain : vals) (kvs : list kv) :
  sealed secret raw plain -> Forall (fun x => value_ok x.2) kvs ->
  conflicts_of raw (seal_all secret kvs) = seal_conflict secret <$> conflicts_of plain kvs.
Proof.
  intros [Hl Hm] Hk. induction Hk as [|[k v] kvs Hv _ IH]; [done|].
  cbn [conflicts_of seal_all omap list_omap fmap list_fmap fst snd].
  assert (next_expected raw k = next_expected plain k) as ->.
  { unfold next_expected. rewrite Hl. destruct (plain !! k) as [v'|] eqn:Hp; [|done]. cbn. by rewrite seal_version by eauto. }
  rewrite seal_version by done. cbn [snd] in *. destruct (decide _); [exact IH|]. cbn. rewrite Hl. f_equal. exact IH.
Qed.

Lemma conflicts_values (plain : vals) (kvs : list kv) :
  map_Forall (fun _ v => value_ok v) plain ->
  Forall (fun c => forall v, c.2 = Some v -> value_ok v) (conflicts_of plain kvs).
Proof.
  intros Hm. apply Forall_forall. intros [k o] (x & _ & Hx)%list_elem_of_omap. destruct (decide _); [done|].
  injection Hx as <- <-. intros v Hv. by eapply Hm.
Qed.

(** What the client reports of conflicts: the stored values, unless the server
    lacks one of the keys; then the empty value in its place fails the check. *)
Fixpoint missing (cs : list (string * option Value)) : option string :=
  match cs with
  | [] => None
  | (k, None) :: _ => Some k
  | (_, Some _) :: cs => missing cs
  end.

Definition report (cs : list (string * option Value)) : ClientError :=
  match missing cs with
  | Some k => InvalidHmac k (-1)
  | None => PutConflict (omap (fun c => (fun v => (c.1, v)) <$> c.2) cs)
  end.

Lemma open_missing (k : string) : process_value_from_get secret k (mkValue (-1) []) = Err ().
Proof.
  unfold process_value_from_get. cbn [v_version v_value].
  destruct (crypt_value_twice secret k (-1) [] Hsecret) as (c & Hc & Hl & _); [done|]. rewrite Hc.
  cbn [mbind res_bind]. unfold remove_and_check_hmac. by rewrite Hl.
Qed.

Lemma open_conflicts (cs : list (string * option Value)) :
  Forall (fun c => forall v, c.2 = Some v -> value_ok v) cs ->
  (conflicts ← remove_and_check_hmacs secret (stored <$> (seal_conflict secret <$> cs));
   Err (PutConflict conflicts)) = Err (E:=ClientError) (A:=unit) (report cs).
Proof.
  intros Hcs. unfold report.
  assert (Hr : remove_and_check_hmacs secret (stored <$> (seal_conflict secret <$> cs))
    = match missing cs with Some k => Err (InvalidHmac k (-1)) | None => Ok (omap (fun c => (fun v => (c.1, v)) <$> c.2) cs) end).
  { unfold remove_and_check_hmacs. induction Hcs as [|[k [v|]] cs Hv _ IH]; [done| |].
    - change (stored <$> (seal_conflict secret <$> ((k, Some v) :: cs)))
        with ((k, seal secret k v) :: (stored <$> (seal_conflict secret <$> cs))).
      cbn [map_res missing]. destruct (seal_spec secret k v Hsecret (Hv v eq_refl)) as (_ & _ & ->).
      cbn [map_err mbind res_bind]. rewrite IH. by destruct (missing cs).
    - change (stored <$> (seal_conflict secret <$> ((k, None) :: cs)))
        with ((k, mkValue (-1) []) :: (stored <$> (seal_conflict secret <$> cs))).
      cbn [map_res missing]. by rewrite open_missing. }
  rewrite Hr. by destruct (missing cs).
Qed.
End Values.

(** ** Sorting *)
Lemma insert_by_key_perm (x : kv) (l : list kv) : insert_by_key x l ≡ₚ x :: l.
Proof.
  induction l as [|y l IH]; [done|]. cbn [insert_by_key]. destruct (decide _); [done|].
  rewrite IH. apply Permutation_swap.
Qed.

Lemma sort_by_key_perm (l : list kv) : sort_by_key l ≡ₚ l.
Proof. induction l as [|x l IH]; [done|]. cbn [sort_by_key foldr]. rewrite insert_by_key_perm. by f_equiv. Qed.

Lemma keys_sorted_cons (x : kv) (l : list kv) :
  keys_sorted l = true -> (forall y, head l = Some y -> ord_le x.1 y.1) -> keys_sorted (x :: l) = true.
Proof.
  intros Hs Hy. destruct x as [k v], l as [|[k' v'] l]; [done|]. cbn [keys_sorted].
  specialize (Hy _ eq_refl). unfold ord_le in Hy. cbn [fst] in Hy. by destruct (ord_cmp k k').
Qed.

Lemma insert_by_key_sorted (x : kv) (l : list kv) : keys_sorted l = true -> keys_sorted (insert_by_key x l) = true.
Proof.
  induction l as [|y l IH]; intros Hs; [by destruct x|]. cbn [insert_by_key].
  destruct (decide (ord_le x.1 y.1)) as [Hle|Hgt].
  - apply keys_sorted_cons; [done|]. by intros ? [= <-].
  - assert (Hl : keys_sorted l = true).
    { destruct y, l as [|[]]; [done|]. cbn [keys_sorted] in Hs. by destruct (ord_cmp _ _). }
    apply keys_sorted_cons; [by apply IH|]. intros z Hz. destruct l as [|w l]; cbn [insert_by_key head] in Hz.
    + injection Hz as <-. by destruct (total ord_le x.1 y.1).
    + destruct (decide (ord_le x.1 w.1)); injection Hz as <-; [by destruct (total ord_le x.1 y.1)|].
      destruct y, w. cbn [keys_sorted fst] in *. unfold ord_le. by destruct (ord_cmp _ _).
Qed.

Lemma sort_by_key_sorted (l : list kv) : keys_sorted (sort_by_key l) = true.
Proof. induction l as [|x l IH]; [done|]. by apply insert_by_key_sorted. Qed.

Lemma keys_sorted_two (k k' : string) (v v' : Value) (l : list kv) :
  keys_sorted ((k, v) :: (k', v') :: l) = match ord_cmp k k' with Gt => false | _ => keys_sorted ((k', v') :: l) end.
Proof. done. Qed.

Lemma keys_sorted_fst (l l' : list kv) : l.*1 = l'.*1 -> keys_sorted l = keys_sorted l'.
Proof.
  revert l'. induction l as [|[k v] l IH]; intros [|[k' v'] l'] Heq; try done. injection Heq as -> Heq.
  destruct l as [|[k1 v1] l], l' as [|[k1' v1'] l']; try done. rewrite !keys_sorted_two.
  pose proof Heq as Heq'. injection Heq' as -> _. destruct (ord_cmp _ _); [by apply IH..|done].
Qed.

(** ** Runs

    Puts and gets of one client, and puts that other clients send. *)
Inductive lss_event :=
| PutEvent (kvs : list kv)
| GetEvent (prefix : string) (nonce : list Z)
| OtherPut (request : PutRequest).

Inductive lss_out := PutOut (r : res ClientError unit) | GetOut (r : res ClientError (list kv)) | OtherOut.

Section Run.
Context (client_key : SecpSecretKey) (server_id : SecpPublicKey) (secret : list Z).
Let me : PrivAuth := new_for_client client_key server_id.
Let id : list Z := serialize me.(pa_client_id).

Definition run_event (ev : lss_event) (s : StorageServer D) : StorageServer D * lss_out :=
  match ev with
  | PutEvent kvs => let '(s, r) := PrivClient_put me secret kvs s in (s, PutOut r)
  | GetEvent prefix nonce => let '(s, r) := PrivClient_get me nonce secret prefix s in (s, GetOut r)
  | OtherPut request => ((server_put request s).1, OtherOut)
  end.

(** On a map of plain values. *)
Definition spec_event (ev : lss_event) (m : vals) : vals * lss_out :=
  match ev with
  | PutEvent kvs =>
      let kvs := sort_by_key kvs in
      match conflicts_of m kvs with
      | [] => (insert_all m kvs, PutOut (Ok tt))
      | cs => (m, PutOut (Err (report cs)))
      end
  | GetEvent prefix _ => (m, GetOut (Ok (prefix_entries m prefix)))
  | OtherPut _ => (m, OtherOut)
  end.

Definition event_ok (ev : lss_event) : Prop :=
  match ev with
  | PutEvent kvs => Forall (fun x => value_ok x.2) kvs
  | GetEvent _ _ => True
  | OtherPut request => forall a, request.(put_auth) = Some a -> bytes a.(p_client_id) /\ a.(p_client_id) <> id
  end.

Fixpoint run_events (evs : list lss_event) (s : StorageServer D) : StorageServer D * list lss_out :=
  match evs with
  | [] => (s, [])
  | ev :: evs => let '(s, o) := run_event ev s in let '(s, os) := run_events evs s in (s, o :: os)
  end.

Fixpoint spec_events (evs : list lss_event) (m : vals) : vals * list lss_out :=
  match evs with
  | [] => (m, [])
  | ev :: evs => let '(m, o) := spec_event ev m in let '(m, os) := spec_events evs m in (m, o :: os)
  end.

(** The simulation. *)
Record serves (n : Z) (s : StorageServer D) (m : vals) : Prop := {
  sv_honest : honest s;
  sv_key : s.(public_key) = server_id;
  sv_inv : db_inv n s.(database);
  sv_sealed : sealed secret (db_view s.(database) id) m;
}.

Context (Hsecret : secret_ok secret).

Lemma outcome_run {F E A : Type} (m : method (StorageServer D) E A) s s' (r : res E A) :
  m s = (s', r) -> outcome (F:=F) m s = (s', Ok r).
Proof. intros Hm. unfold outcome. by rewrite Hm. Qed.

Lemma serves_mono n n' s m : serves n s m -> n <= n' -> serves n' s m.
Proof. intros [Hh Hk Hi Hs] Hn. split; [done..|by eapply db_inv_mono|done]. Qed.

Lemma put_simulated n s m (kvs : list kv) :
  serves n s m -> -1 <= n < 2 ^ 63 - 1 -> event_ok (PutEvent kvs) ->
  serves (n + 1) (run_event (PutEvent kvs) s).1 (spec_event (PutEvent kvs) m).1 /\
  (run_event (PutEvent kvs) s).2 = (spec_event (PutEvent kvs) m).2.
Proof.
  intros Hsv Hn Hok. destruct Hsv as [Hh Hk Hi Hs] eqn:HE. clear HE. cbn [event_ok] in Hok.
  assert (Hok' : Forall (fun x => value_ok x.2) (sort_by_key kvs)) by (by rewrite sort_by_key_perm).
  cbn [run_event spec_event]. unfold PrivClient_put. rewrite (prepare_all secret Hsecret) by done. rewrite call_Ok_bind.
  set (l := sort_by_key kvs) in *. assert (Hsort : keys_sorted (seal_all secret l) = true).
  { rewrite (keys_sorted_fst _ l); [apply sort_by_key_sorted|]. unfold seal_all. by rewrite <- list_fmap_compose. }
  pose proof (client_put_honest n s client_key Hh Hi Hn (seal_all secret l) Hsort) as Hput. cbv zeta in Hput.
  rewrite Hk in Hput. fold me in Hput. fold id in Hput. rewrite (sealed_conflicts secret Hsecret _ m) in Hput by done.
  pose proof (conflicts_values m l (proj2 Hs)) as Hcv.
  destruct (conflicts_of m l) as [|c cs] eqn:Hc; cbn [fmap list_fmap] in Hput.
  - destruct Hput as (s' & Hput & d' & -> & Hi' & Hv & _). rewrite (run_bind _ _ _ _ _ (outcome_run _ _ _ _ Hput)).
    rewrite bool_decide_eq_true_2 by done. split; [|done]. split; [done..|].
    cbn [fst mret method_ret with_database database]. rewrite Hv. by apply sealed_insert.
  - rewrite (run_bind _ _ _ _ _ (outcome_run _ _ _ _ Hput)).
    pose proof (open_conflicts secret Hsecret (c :: cs) Hcv) as Ho. cbn [fmap list_fmap] in Ho. revert Ho.
    unfold call, mbind, method_bind, res_bind. destruct (remove_and_check_hmacs _ _); intros Ho; try discriminate Ho.
    all: injection Ho as ->; split; [apply (serves_mono n); [done|lia]|done].
Qed.

Lemma get_simulated n s m (prefix : string) (nonce : list Z) :
  serves n s m -> run_event (GetEvent prefix nonce) s = (s, GetOut (Ok (prefix_entries m prefix))).
Proof.
  intros [Hh Hk Hi Hs]. cbn [run_event]. unfold PrivClient_get.
  pose proof (client_get_honest n s client_key Hh Hi prefix nonce) as Hg. cbv zeta in Hg.
  rewrite Hk in Hg. fold me in Hg. fold id in Hg. rewrite (run_bind _ _ _ _ _ Hg).
  rewrite bool_decide_eq_false_2 by (intros []; done).
  rewrite (sealed_entries secret _ m) by done. by rewrite open_all by (done || by eapply sealed_entries_ok).
Qed.

Lemma other_simulated n s m (request : PutRequest) :
  serves n s m -> -1 <= n < 2 ^ 63 - 1 -> event_ok (OtherPut request) -> serves (n + 1) (server_put request s).1 m.
Proof.
  intros Hsv Hn Hok. assert (Hstay : serves (n + 1) s m) by (apply (serves_mono n); [done|lia]).
  unfold server_put. rewrite get_bind. cbv zeta. cbn [event_ok] in Hok.
  destruct (put_auth request) as [a|]; [|exact Hstay]. destruct (Hok a eq_refl) as [Hb Hne].
  cbn [ok_or]. rewrite call_Ok_bind. destruct (keys_sorted _); [|exact Hstay]. cbn [negb].
  destruct (check_auth s a) as [au| |]; [|exact Hstay..]. rewrite call_Ok_bind.
  destruct (bool_decide _); [exact Hstay|]. destruct Hsv as [Hh Hk Hi Hs].
  pose proof (on_database_put n s _ (from_proto <$> put_kvs request) Hi Hn Hb) as Hp.
  destruct (conflicts_of _ _) as [|c cs].
  - destruct Hp as (s' & Hp & d' & -> & Hi' & _ & Hother). rewrite (run_bind _ _ _ _ _ Hp).
    split; [done..|]. cbn [fst mret method_ret with_database database].
    rewrite Hother by (apply serialize_bytes || congruence). exact Hs.
  - rewrite (run_bind _ _ _ _ _ Hp). exact Hstay.
Qed.

Lemma events_simulated (evs : list lss_event) n s m :
  serves n s m -> -1 <= n -> n + Z.of_nat (length evs) < 2 ^ 63 -> Forall event_ok evs ->
  serves (n + Z.of_nat (length evs)) (run_events evs s).1 (spec_events evs m).1 /\
  (run_events evs s).2 = (spec_events evs m).2.
Proof.
  revert n s m. induction evs as [|ev evs IH]; intros n s m Hs Hn Hb Hok.
  { cbn. by rewrite Z.add_0_r. }
  apply Forall_cons in Hok as [Hev Hok]. cbn [length] in Hb |- *.
  assert (Hstep : serves (n + 1) (run_event ev s).1 (spec_event ev m).1 /\ (run_event ev s).2 = (spec_event ev m).2).
  { destruct ev as [kvs|prefix nonce|request].
    - apply put_simulated; [done|lia|done].
    - rewrite (get_simulated n s m) by done. cbn. split; [|done]. apply (serves_mono n); [done|lia].
    - split; [|done]. apply other_simulated; [done|lia|done]. }
  destruct Hstep as [Hs1 Ho]. cbn [run_events spec_events].
  destruct (run_event ev s) as [s1 o], (spec_event ev m) as [m1 o']. cbn [fst snd] in *. subst o'.
  specialize (IH (n + 1) s1 m1 Hs1 ltac:(lia) ltac:(lia) Hok).
  destruct (run_events evs s1), (spec_events evs m1). cbn [fst snd] in *. destruct IH as [IHs ->].
  split; [|done]. by replace (n + Z.of_nat (S (length evs))) with (n + 1 + Z.of_nat (length evs)) by lia.
Qed.

(** C15: A client of an honest server sees a versioned map.  Take a server whose
    database is empty and any sequence of puts and gets of one client, interleaved
    with put requests of any form that name other clients.  Every get returns
    exactly the client's values whose keys have the prefix, decrypted and with
    their checks passed.  A put takes effect when every entry has the next
    version of its key and otherwise changes nothing.  On a conflict the client
    learns the stored values, but when the server lacks one of the keys it sees a
    failed integrity check instead. *)
Theorem storage_client_refines (evs : list lss_event) s :
  honest s -> s.(public_key) = server_id -> db_inv (-1) s.(database) ->
  Z.of_nat (length evs) < 2 ^ 63 -> Forall event_ok evs ->
  (run_events evs s).2 = (spec_events evs ∅).2 /\
  sealed secret (db_view (run_events evs s).1.(database) id) (spec_events evs ∅).1.
Proof.
  intros Hh Hk Hi Hl Hok.
  assert (Hs : serves (-1) s ∅).
  { split; [done..|]. split; [|apply map_Forall_empty]. intros k. rewrite lookup_empty.
    destruct (db_view s.(database) id !! k) eqn:Hv; [|done].
    apply (db_view_versions (-1)) in Hv; [lia|done|apply serialize_bytes]. }
  destruct (events_simulated evs (-1) s ∅ Hs ltac:(lia) ltac:(lia) Hok) as [[_ _ _ Hend] Hout]. done.
Qed.
End Run.
End Honest.

(** ** A server to evaluate the model *)
#[export] Instance sample_lss_packages : LssPackages := {|
  sha256 _ := replicate 32 0;
  hmac_sha256 _ x := replicate 32 (Z.of_nat (length x) mod 256);
  SecpPublicKey := bool;
  SecpSecretKey := bool;
  from_slice l := match l with [2] => Some true | [3] => Some false | _ => None end;
  serialize k := [if k then 2 else 3];
  from_secret_key k := k;
  shared_point p k := replicate 32 (if xorb p k then 1 else 0);
  hex := sample_hex;
  cbor_into_writer v := v.(v_version) :: v.(v_value);
  cbor_from_reader l := match l with version :: value => Some (mkValue version value) | [] => None end
|}.

#[export] Instance sample_lss_laws : LssLaws.
Proof.
  split; try done.
  - intros x. apply Forall_replicate. lia.
  - intros a b. cbn. by rewrite xorb_comm.
  - intros k. apply Forall_singleton. by destruct k.
  - by intros [].
  - exact hex_no_separator.
  - intros a b Ha Hb Hab. apply hex_roundtrip in Ha, Hb. cbn in Ha, Hb, Hab. rewrite Hab in Ha. congruence.
  - intros b. induction b as [|x b IH]; [done|]. cbn in IH |- *. rewrite IH. lia.
  - by intros [].
Qed.

Definition sample_server : StorageServer RedbDatabase := mkStorageServer (mkRedbDatabase ∅) true true.

Definition sample_events : list lss_event :=
  [PutEvent [("b", mkValue 0 [5]); ("a", mkValue 0 [6; 7])]; OtherPut (mkPutRequest (Some (mkAuthProto [2] [])) [] []);
   GetEvent "a" [1; 2]].

Section LssSamples.
#[local] Existing Instance release_profile.

Lemma storage_client_refines_witness :
  (run_events false true (replicate 32 9) sample_events sample_server).2
    = [PutOut (Ok tt); OtherOut; GetOut (Ok [("a", mkValue 0 [6; 7])])] /\
  exists m, sealed (replicate 32 9) (db_view (run_events false true (replicate 32 9) sample_events sample_server).1.(database) [3]) m.
Proof.
  destruct (storage_client_refines (D:=RedbDatabase) (false : @SecpSecretKey sample_lss_packages) true (replicate 32 9) ltac:(by right) sample_events sample_server) as [Ho Hs].
  - done.
  - done.
  - intros k row Hk. cbn in Hk. by rewrite lookup_empty in Hk.
  - done.
  - unfold sample_events. constructor; [|constructor; [|constructor; [|constructor]]].
    + constructor; [|constructor; [|constructor]]; unfold value_ok; cbn [snd v_value length]; lia.
    + intros a [= <-]. split; [by apply Forall_singleton|discriminate].
    + exact I.
  - split; [|by eexists]. rewrite Ho. vm_compute. reflexivity.
Defined.
End LssSamples.
