(* ===== verification/SignerLoop.v ===== *)
(** * The request loop of the signer daemon

    [vlsd/src/grpc/signer.rs] and [vls-util/src/persist.rs]: a request is decoded,
    handled inside a transaction of the persister, its mutations go to the
    external storage, and only then is the transaction committed.  The handlers
    are those of [Handler]; the loop uses them through the trait's methods, which
    are the class [SignerHandler] here.  The gRPC streams are lists of requests
    and of responses.  [W] is what the handlers share: the node, which holds the
    persister, and the approver. *)
From S2P Require Import Prelude Velocity Policy Ordered CommitInfo Types Bitcoin Script Secrets Enforcement SimpleValidator Validator NodeState Channel TxValidator ChannelTx Monitor Tracker BTree Kvv KvvTx Persister Node NodeChannels Approver Wire Messages Withdrawal Handler ChaCha Lss.

(** [grpc::signer::Error]. *)
Inductive SignerError :=
| SignerProtocol (e : ProtocolError)
| SignerHandlerError (e : HandlerError)
| SignerLssClient (e : ExtError)
| SignerPersist (e : Error).

(** Requests and responses of the stream; the text of an error is left out. *)
Record RequestContext := mkRequestContext { rc_dbid : Z; rc_peer_id : Octets }.
Record SignerRequest := mkSignerRequest { sr_request_id : Z; sr_message : Octets; sr_context : option RequestContext }.
Record SignerResponse := mkSignerResponse {
  rs_request_id : Z; rs_message : Octets; rs_error : bool; rs_is_temporary_failure : bool }.

(** What the daemon uses of the handlers: the store of the node's persister, the
    methods of [RootHandler], of a channel handler made by [for_new_client] and of
    [InitHandler], and the builder.  [allowlist] is the content of the allowlist
    file. *)
Class SignerHandler (W St : Type) := {
  sh_store : W -> St;
  sh_set_store : W -> St -> W;
  sh_handle : Message -> method W HandlerError Reply;
  sh_channel_handle : PubKey -> Z -> Message -> method W HandlerError Reply;
  sh_init_handle : Message -> method W HandlerError (bool * option Reply);
  sh_into_root : W -> res HandlerError W;
  sh_build : St -> res HandlerError W;
  sh_set_allowlist : list string -> method W HandlerError unit
}.

(** Decoding of messages and encoding of replies, as in [Wire]. *)
Class MessageCodec := {
  message_from_vec : Octets -> res ProtocolError Message;
  reply_as_vec : Reply -> Octets
}.

(** The two handlers of [Handler] on the approver and the node. *)
Section RealHandler.
Context `{Profile} `{BitcoinLib} `{LightningLib} `{SpendScripts} `{ChainPackages} `{CommitmentPointProvider} `{WalletKeys}.
Context `{Signer} `{TransactionSigner} `{InputSigner} `{KeysManager} `{Encodings}.
Context {P : Type} `{!Persist P} {V : Type} `{HV : Validator V} `{TransactionValidator V NodeWallet}.
Context {PO : Type} `{HPO : Policy PO} {I A : Type} `{HI : InvoiceAttributes I} `{!Approve I A} `{HC : !RequestCodec I}.
Context (validator : V) (policy : PO) (compute_txid : Transaction -> Txid) (set_iter : gset Z -> list Z).
Context (persist : Channel -> res Status unit) (timeless_workaround developer : bool).
Context (equal : ChannelEntry -> ChannelEntry -> bool) (clocks : Clocks).

Context (allowable_to_string : Allowable -> string) (genesis_header : Network -> BlockHeader).
Context (get_latest_checkpoint : Network -> option (Z * Headers)).
Context (network : Network) (derived_id : PublicKey) (oracles : list PublicKey) (build_allowlist : list string) (max_version : Z).
Context (approver : A).

(** What the daemon holds: the handler of the negotiation, the root handler once
    that is done, the approver and the node. *)
Record DaemonHandlers := mkDaemonHandlers {
  dh_init : InitHandler; dh_root : option RootHandler; dh_approver : A; dh_node : Node (P:=P) }.

Definition daemon_handle (msg : Message) : method DaemonHandlers HandlerError Reply := fun w =>
  let '((a, n), r) := root_handle validator policy compute_txid persist timeless_workaround developer equal clocks msg
                        (w.(dh_approver), w.(dh_node)) in
  (mkDaemonHandlers w.(dh_init) w.(dh_root) a n, r).

Definition daemon_channel_handle (peer_id : PubKey) (dbid : Z) (msg : Message) : method DaemonHandlers HandlerError Reply := fun w =>
  match w.(dh_root) with
  | Some root =>
      let '(n, r) := channel_handle validator set_iter persist (for_new_client root peer_id dbid) msg w.(dh_node) in
      (mkDaemonHandlers w.(dh_init) w.(dh_root) w.(dh_approver) n, r)
  | None => (w, Panic)
  end.

Definition daemon_init_handle (msg : Message) : method DaemonHandlers HandlerError (bool * option Reply) := fun w =>
  let '((h, n), r) := init_handle (I:=I) allowable_to_string developer msg (w.(dh_init), w.(dh_node)) in
  (mkDaemonHandlers h w.(dh_root) w.(dh_approver) n, r).

Definition daemon_into_root (w : DaemonHandlers) : res HandlerError DaemonHandlers :=
  root ← into_root w.(dh_init);
  Ok (mkDaemonHandlers w.(dh_init) (Some root) w.(dh_approver) w.(dh_node)).

Definition daemon_build (p : P) : res HandlerError DaemonHandlers :=
  '(h, n) ← handler_build validator set_iter allowable_to_string genesis_header get_latest_checkpoint network derived_id
              oracles build_allowlist max_version p;
  Ok (mkDaemonHandlers h None approver n).

(** [Node::set_allowlist], which [reset_allowlist] calls. *)
Definition node_set_allowlist (l : list string) : method (Node (P:=P)) Status unit :=
  self ← get_self;
  let net := self.(node_config).(config_network) in
  let '(st, o) := set_allowlist (fun s => allowable_from_str s net) (fun _ => Ok tt) self.(node_state) l in
  set_self (with_node_state self st) ;;
  call o ;;
  persist_or (Err internal_error)
    (p_update_node_allowlist self.(node_id) (allowable_to_string <$> elements st.(allowlist))).

Definition reset_allowlist (l : list string) : method DaemonHandlers HandlerError unit := fun w =>
  let '(n, r) := node_set_allowlist l w.(dh_node) in
  (mkDaemonHandlers w.(dh_init) w.(dh_root) w.(dh_approver) n, map_err HandlerError_from r).

Definition daemon_handlers : SignerHandler DaemonHandlers P := {|
  sh_store w := w.(dh_node).(persister);
  sh_set_store w p := mkDaemonHandlers w.(dh_init) w.(dh_root) w.(dh_approver) (with_persister w.(dh_node) p);
  sh_handle := daemon_handle;
  sh_channel_handle := daemon_channel_handle;
  sh_init_handle := daemon_init_handle;
  sh_into_root := daemon_into_root;
  sh_build := daemon_build;
  sh_set_allowlist := reset_allowlist
|}.
End RealHandler.

(** ** External storage of the daemon: [vls-util/src/persist.rs] *)
Record ExternalPersistWithHelper (N : Type) := mkExternalPersistWithHelper {
  persist_client : N; cloud_state : gmap string (Z * list Z); ext_helper : ExternalPersistHelper }.

Arguments mkExternalPersistWithHelper {N}.
Arguments persist_client {N}.
Arguments cloud_state {N}.
Arguments ext_helper {N}.

Section Loop.
Context {W St N : Type} `{!KVVStore St} `{!SignerHandler W St} `{!MessageCodec} `{LssPackages} `{!ExternalPersist N}.
Abbreviation external := (ExternalPersistWithHelper N) (only parsing).

Definition on_client {A : Type} (m : method N ExtError A) : method external ExtError A := fun e =>
  let '(n, r) := m e.(persist_client) in (mkExternalPersistWithHelper n e.(cloud_state) e.(ext_helper), r).

(** [init_state] works on a copy of the helper. *)
Definition init_state (entropy : list Z) : method external SignerError unit :=
  self ← get_self;
  let '(helper, nonce) := new_nonce self.(ext_helper) entropy in
  r ← outcome (on_client (ext_get "" nonce));
  match r with
  | Ok (muts, server_hmac) =>
      call (rassert (check_hmac hmac_sha256 helper muts server_hmac)) ;;
      self ← get_self;
      set_self (mkExternalPersistWithHelper self.(persist_client)
        (foldl (fun m kvv => <[kvv.1 := kvv.2]> m) self.(cloud_state) muts) self.(ext_helper))
  | _ => call Panic
  end.

Definition store_with_client (muts : Mutations) : method external SignerError unit :=
  self ← get_self;
  if bool_decide (muts <> []) then
    let hmac := client_hmac hmac_sha256 self.(ext_helper) muts in
    r ← outcome (on_client (ext_put muts hmac));
    match r with
    | Ok _ => mret tt
    | Err e => call (Err (SignerLssClient e))
    | Panic => call Panic
    end
  else mret tt.

(** ** One request *)

(** The result of a call as a value; a panic goes on. *)
Definition attempt {F E A : Type} (m : method W E A) : method W F (res E A) :=
  r ← outcome m;
  match r with Panic => call Panic | _ => mret r end.

Definition on_store {F A : Type} (m : method St Error A) : method W F (res Error A) :=
  attempt (fun w => let '(p, r) := m (sh_store w) in (sh_set_store w p, r)).

(** [expect] on a call of the persister. *)
Definition expect_store {F A : Type} (m : method St Error A) : method W F A :=
  r ← on_store m;
  match r with Ok a => mret a | _ => call Panic end.

Definition finish_handle (result : res HandlerError Reply) : method W SignerError (res SignerError Reply * Mutations) :=
  muts ← expect_store kv_prepare;
  match result with
  | Err (TemporaryError _) => call (rassert (bool_decide (muts = [])))
  | _ => mret tt
  end ;;
  mret (map_err SignerHandlerError result, muts).

Definition do_handle (context : option RequestContext) (msg : Message)
  : method W SignerError (res SignerError Reply * Mutations) :=
  entered ← on_store kv_enter;
  match entered with
  | Ok _ =>
      match context with
      | Some c =>
          if 0 <? c.(rc_dbid) then
            if Nat.eqb (length c.(rc_peer_id)) 33 then
              result ← attempt (sh_channel_handle c.(rc_peer_id) c.(rc_dbid) msg);
              finish_handle result
            else
              expect_store kv_commit ;;
              mret (Err (SignerHandlerError (Signing invalid_argument)), [])
          else result ← attempt (sh_handle msg); finish_handle result
      | None => result ← attempt (sh_handle msg); finish_handle result
      end
  | _ => mret (Err (SignerHandlerError (HandlerError_from internal_error)), [])
  end.

(** The daemon: the handlers, and the external storage when there is one. *)
Record Daemon := mkDaemon { d_world : W; d_external : option external }.

Definition on_world {F A : Type} (m : method W F A) : method Daemon F A := fun d =>
  let '(w, r) := m d.(d_world) in (mkDaemon w d.(d_external), r).

(** [store_with_client(…).expect(…)]. *)
Definition expect_stored (muts : Mutations) : method Daemon SignerError unit := fun d =>
  match d.(d_external) with
  | Some e =>
      let '(e, r) := store_with_client muts e in
      (mkDaemon d.(d_world) (Some e), match r with Ok _ => Ok tt | _ => Panic end)
  | None => (d, Ok tt)
  end.

(** [Handler::commit]. *)
Definition daemon_commit : method Daemon SignerError unit := on_world (expect_store kv_commit).

Definition handle_request (request : SignerRequest) : method Daemon SignerError SignerResponse :=
  msg ← call (map_err SignerProtocol (message_from_vec request.(sr_message)));
  '(res, muts) ← on_world (do_handle request.(sr_context) msg);
  expect_stored muts ;;
  daemon_commit ;;
  reply ← call res;
  mret (mkSignerResponse request.(sr_request_id) (reply_as_vec reply) false false).

(** A request before the version is negotiated.  Without external storage
    nothing is prepared. *)
Definition expect_prepared : method Daemon SignerError unit :=
  d ← get_self;
  match d.(d_external) with
  | Some _ => muts ← on_world (expect_store kv_prepare); expect_stored muts
  | None => mret tt
  end.

Definition try_store {A : Type} (m : method St Error A) : method Daemon SignerError A :=
  r ← on_world (on_store m);
  call (map_err SignerPersist r).

Definition init_handle_request (request : SignerRequest) : method Daemon SignerError (bool * option SignerResponse) :=
  msg ← call (map_err SignerProtocol (message_from_vec request.(sr_message)));
  try_store kv_enter ;;
  result ← on_world (attempt (sh_init_handle msg));
  expect_prepared ;;
  try_store kv_commit ;;
  '(is_done, reply) ← call (map_err SignerHandlerError result);
  mret (is_done, (fun reply => mkSignerResponse request.(sr_request_id) (reply_as_vec reply) false false) <$> reply).

(** ** The loops

    [send_response] gives what is sent and whether the stream is closed. *)
Definition send_response (request_id : Z) (response : res SignerError SignerResponse) : SignerResponse * bool :=
  match response with
  | Ok response => (response, false)
  | Err (SignerHandlerError (TemporaryError _)) => (mkSignerResponse request_id [] true true, false)
  | _ => (mkSignerResponse request_id [] true false, true)
  end.

Definition attempt_request {A : Type} (m : method Daemon SignerError A) : method Daemon SignerError (res SignerError A) :=
  r ← outcome m;
  match r with Panic => call Panic | _ => mret r end.

Fixpoint handle_requests (requests : list SignerRequest) : method Daemon SignerError (list SignerResponse) :=
  match requests with
  | [] => mret []
  | request :: requests =>
      response ← attempt_request (handle_request request);
      let '(sent, closed) := send_response request.(sr_request_id) response in
      if (closed : bool) then mret [sent]
      else sents ← handle_requests requests; mret (sent :: sents)
  end.

(** The requests that are left when the negotiation is done. *)
Fixpoint init_handle_requests (requests : list SignerRequest)
  : method Daemon SignerError (list SignerResponse * option (list SignerRequest)) :=
  match requests with
  | [] => mret ([], None)
  | request :: requests =>
      rspframe ← attempt_request (init_handle_request request);
      let is_done := match rspframe with Ok (is_done, _) => is_done | _ => false end in
      let '(sent, closed) :=
        match rspframe with
        | Ok (_, None) => ([], false)
        | Ok (_, Some response) => let '(r, c) := send_response request.(sr_request_id) (Ok response) in ([r], c)
        | Err e => let '(r, c) := send_response request.(sr_request_id) (Err e) in ([r], c)
        | Panic => ([], true)
        end in
      if (closed : bool) then mret (sent, None)
      else if (is_done : bool) then
        d ← get_self;
        w ← call (map_err SignerHandlerError (sh_into_root d.(d_world)));
        set_self (mkDaemon w d.(d_external)) ;;
        mret (sent, Some requests)
      else '(sents, rest) ← init_handle_requests requests; mret (sent ++ sents, rest)
  end.

(** One connection. *)
Definition handle_connection (requests : list SignerRequest) : method Daemon SignerError (list SignerResponse) :=
  '(sent, rest) ← init_handle_requests requests;
  match rest with
  | Some requests => sents ← handle_requests requests; mret (sent ++ sents)
  | None => mret sent
  end.

(** ** Starting: [connect] with external storage *)
Definition expect {E A B : Type} (r : res E A) : res B A := match r with Ok a => Ok a | _ => Panic end.

Definition start_up (entropy : list Z) (allowlist : list string) (store : St) (ext : external) : res SignerError Daemon :=
  let '(ext, r) := init_state entropy ext in
  expect r ;;
  let '(store, r) := kv_put_batch_unlogged (btree_iter ext.(cloud_state)) store in
  expect r ;;
  let '(store, r) := kv_enter store in
  expect r ;;
  w ← expect (sh_build store);
  let '(w, r) := sh_set_allowlist allowlist w in
  expect r ;;
  let '(d, r) := (muts ← on_world (expect_store kv_prepare); expect_stored muts ;; daemon_commit) (mkDaemon w (Some ext)) in
  r ;;
  Ok d.

(** [--init-lss]: the local state is copied to an empty server. *)
Definition init_lss (entropy : list Z) (store : St) (ext : external) : St * external * res SignerError bool :=
  let '(ext, r) := init_state entropy ext in
  match r with
  | Ok _ =>
      if bool_decide (ext.(cloud_state) <> ∅) then (store, ext, Ok false)
      else
        let '(store, muts) := begin_replication store in
        match muts with
        | Ok muts =>
            let '(ext, r) := store_with_client muts ext in
            (store, ext, match r with Ok _ => Ok true | _ => Panic end)
        | _ => (store, ext, Panic)
        end
  | _ => (store, ext, Panic)
  end.
End Loop.
