(* ===== verification/SignerLoopSafety.v ===== *)
(** * What the request loop guarantees

    With external storage, the daemon answers a request only after the storage
    server has taken its writes; local store and server hold the same entries
    between requests, and a restart brings a store that fell behind up to
    date. *)
From S2P Require Import Prelude Ordered Types Policy BTree Kvv KvvSpec KvvTx KvvSafety KvvTxSafety Persister PersisterSafety Wire Messages Handler ChaCha Lss LssSpec LssSafety SignerLoop.

Lemma btree_iter_singleton {A : Type} (k : string) (v : A) : btree_iter {[k := v]} = [(k, v)].
Proof. by rewrite <- (btree_iter_list_to_map [(k, v)]) by (first [apply NoDup_singleton | by repeat constructor]). Qed.

(** ** The codes of signer and server agree *)
Lemma to_le_bytes_mod (n : nat) (a b : Z) :
  a mod 256 ^ Z.of_nat n = b mod 256 ^ Z.of_nat n -> to_le_bytes n a = to_le_bytes n b.
Proof.
  revert a b. induction n as [|n IH]; intros a b Hab; [done|]. cbn [to_le_bytes].
  rewrite Nat2Z.inj_succ, Z.pow_succ_r in Hab by lia.
  assert (Hp : 0 < 256 ^ Z.of_nat n) by (apply Z.pow_pos_nonneg; lia).
  rewrite !(Z.rem_mul_r _ 256) in Hab by lia.
  pose proof (Z.mod_pos_bound a 256 ltac:(lia)). pose proof (Z.mod_pos_bound b 256 ltac:(lia)).
  assert (Hm : a mod 256 = b mod 256 /\ a / 256 mod 256 ^ Z.of_nat n = b / 256 mod 256 ^ Z.of_nat n) by lia.
  destruct Hm as [-> Hd]. f_equal. by apply IH.
Qed.

Lemma as_i64_bytes (v : Z) : i64_to_be_bytes (as_i64 v) = Redb.to_be_bytes 8 v.
Proof.
  unfold i64_to_be_bytes, Redb.to_be_bytes. f_equal. apply to_le_bytes_mod. unfold as_i64.
  change (256 ^ Z.of_nat 8) with (2 ^ 64). rewrite Zminus_mod_idemp_l. f_equal. lia.
Qed.

(** A mutation as the front end sends it. *)
Definition to_lss (kvv : KVV) : string * Value := (kvv.1, mkValue (as_i64 kvv.2.1) kvv.2.2).

Lemma shared_hmac_agrees `{LssPackages} (secret nonce : list Z) (muts : Mutations) :
  lss_compute_shared_hmac secret nonce (to_lss <$> muts) = compute_shared_hmac hmac_sha256 secret nonce muts.
Proof.
  unfold lss_compute_shared_hmac, compute_shared_hmac. f_equal. rewrite app_nil_l. generalize (secret ++ nonce) as engine.
  induction muts as [|[k [v x]] muts IH]; intros engine; [done|]. cbn [fmap list_fmap foldl to_lss fst snd v_version v_value].
  unfold lss_add_to_hmac, add_to_hmac at 2. rewrite as_i64_bytes. apply IH.
Qed.

(** ** A session writes the next version of each key *)
Definition session_op (op : kv_op) : bool :=
  match op with
  | OpPut key _ | OpDelete key => bool_decide (key <> LAST_WRITER_KEY)
  | OpGet _ | OpGetVersion _ | OpGetPrefix _ => true
  | _ => false
  end.

Definition session_step {L : Type} `{Profile} `{KVVStore L} (st st' : CloudKVVStore L) : Prop :=
  exists op, session_op op = true /\ st' = (run_op op st).1.

Abbreviation moves := (rtc session_step) (only parsing).

Definition next_entry (m : vmap) (key : string) : Z := match m !! key with Some vv => vv.1 + 1 | None => 0 end.

Definition next_over (m log : vmap) : Prop := map_Forall (fun key vv => vv.1 = next_entry m key) log.

Section Session.
Context {L : Type} `{KVVLaws L}.
Implicit Types (store : L) (log : vmap).

Lemma session_op_cloud (op : kv_op) : session_op op = true -> cloud_op op = true /\ op_ok op.
Proof. by destruct op. Qed.

Lemma cloud_put_next store log key value :
  kv_inv store -> room (kv_view store) ->
  Cloud.put key value (mkCloud store (Some log))
  = (mkCloud store (Some (<[key := (next_entry (kv_view store) key, value)]> log)), Ok tt).
Proof.
  intros Hi Hr. unfold Cloud.put, next_entry. rewrite get_bind. cbn [local]. rewrite kv_get_version_spec, call_Ok_bind by done.
  assert (Hn : next_version (fst <$> kv_view store !! key) = Ok (match kv_view store !! key with Some vv => vv.1 + 1 | None => 0 end)).
  { destruct (kv_view store !! key) as [vv|] eqn:Hm; cbn; [|done]. by rewrite add_u64_Ok by exact (Hr _ _ Hm). }
  rewrite Hn, call_Ok_bind. unfold Cloud.put_with_version. rewrite get_bind. cbn [cloud_commit_log unwrap local].
  rewrite call_Ok_bind, kv_get_version_spec, call_Ok_bind by done.
  destruct (kv_view store !! key) as [[ver val]|]; cbn [fmap option_fmap option_map fst]; [|done].
  rewrite (proj2 (Z.ltb_ge _ _)), (proj2 (Z.eqb_neq _ _)) by lia. done.
Qed.

Lemma session_op_next (op : kv_op) store log :
  kv_inv store -> room (kv_view store) -> session_op op = true -> next_over (kv_view store) log ->
  exists log', (run_op op (mkCloud store (Some log))).1 = mkCloud store (Some log') /\
    next_over (kv_view store) log' /\ log' !! LAST_WRITER_KEY = log !! LAST_WRITER_KEY.
Proof.
  intros Hi Hr Hop Hn.
  assert (Hput : forall key value, key <> LAST_WRITER_KEY ->
    exists log', (done_unit (Cloud.put key value) (mkCloud store (Some log))).1 = mkCloud store (Some log') /\
      next_over (kv_view store) log' /\ log' !! LAST_WRITER_KEY = log !! LAST_WRITER_KEY).
  { intros key value Hk. unfold done_unit. rewrite (run_bind _ _ _ _ _ (cloud_put_next store log key value Hi Hr)).
    eexists. split; [reflexivity|]. split; [by apply map_Forall_insert_2|]. by rewrite lookup_insert_ne. }
  assert (Hread : forall (A : Type) (r : res Error A) (f : A -> kv_out),
    ((a ← call r; mret (f a)) (mkCloud store (Some log))).1 = mkCloud store (Some log)).
  { intros A r f. by destruct r. }
  destruct op as [k v|k ver v|k|l|k|k|p|]; cbn [session_op] in Hop; try done.
  1,2: apply bool_decide_eq_true in Hop; destruct (Hput k v Hop) as (log' & ? & ? & ?) || destruct (Hput k [] Hop) as (log' & ? & ? & ?);
    exists log'; by eauto 6.
  all: exists log; cbn [run_op]; rewrite get_bind; split; [apply Hread|by eauto 6].
Qed.

Lemma moves_next store log st :
  kv_inv store -> room (kv_view store) -> moves (mkCloud store (Some log)) st -> next_over (kv_view store) log ->
  exists log', st = mkCloud store (Some log') /\ next_over (kv_view store) log' /\
    log' !! LAST_WRITER_KEY = log !! LAST_WRITER_KEY.
Proof.
  intros Hi Hr Hm. remember (mkCloud store (Some log)) as st0 eqn:Hst0. revert log Hst0.
  induction Hm as [st|st st1 st2 (op & Hop & ->) _ IH]; intros log -> Hn; [by exists log|].
  destruct (session_op_next op store log Hi Hr Hop Hn) as (log1 & Hs1 & Hn1 & Hw1).
  destruct (IH log1 Hs1 Hn1) as (log2 & -> & Hn2 & Hw2). exists log2. split_and!; [done..|congruence].
Qed.

(** The log of a transaction, from [enter] on. *)
Definition writer_log store : vmap := {[ LAST_WRITER_KEY := (writer_version (kv_view store), kv_signer_id store) ]}.

Lemma writer_log_next store : next_over (kv_view store) (writer_log store).
Proof. by apply map_Forall_singleton. Qed.

Lemma next_over_strict (m log : vmap) : versions_u64 m -> room m -> next_over m log -> strict_over m log.
Proof.
  intros Hu Hr Hn. split.
  - intros k vv Hk. rewrite (Hn _ _ Hk). unfold next_entry. destruct (m !! k) as [vv0|] eqn:Hm; [exact (Hr _ _ Hm)|done].
  - intros k vv vv0 Hk Hm. rewrite (Hn _ _ Hk). unfold next_entry. rewrite Hm. lia.
Qed.
End Session.

(** ** The server as the replica of the local store *)
Definition value_of (vv : Z * list Z) : Value := mkValue vv.1 vv.2.

Lemma as_i64_small (v : Z) : 0 <= v < 2 ^ 63 -> as_i64 v = v.
Proof. intros Hv. unfold as_i64. rewrite Z.mod_small by lia. lia. Qed.

Lemma as_u64_small (v : Z) : 0 <= v < 2 ^ 63 -> as_u64 v = v.
Proof. intros Hv. unfold as_u64. apply Z.mod_small. lia. Qed.

Lemma sorted_keys (l : list (string * Value)) : StronglySorted ord_le l.*1 -> keys_sorted l = true.
Proof.
  induction l as [|[k v] l IH]; [done|]. cbn [fmap list_fmap fst]. intros [Hs Hall]%StronglySorted_inv.
  apply keys_sorted_cons; [by apply IH|]. intros [k' v'] Hy. destruct l; [done|]. injection Hy as ->.
  by apply Forall_cons in Hall as [? _].
Qed.

Section Mirror.
Context `{Profile} `{LssLaws} {D : Type} `{!Database D} `{!DatabaseLaws D}.
Context (client_key : SecpSecretKey) (server_id : SecpPublicKey) (helper : ExternalPersistHelper).
Let me : PrivAuth := new_for_client client_key server_id.
Let id : list Z := serialize me.(pa_client_id).
Context (Hhelper : helper.(shared_secret) = me.(pa_shared_secret)).
Implicit Types (s : StorageServer D) (m log : vmap).

(** The server is honest and holds the entries of [m] for the signer. *)
Record mirrors (n : Z) s m : Prop := {
  mi_honest : honest s;
  mi_key : s.(public_key) = server_id;
  mi_inv : db_inv n s.(database);
  mi_view : db_view s.(database) id = value_of <$> m;
}.

Lemma mirrors_mono n n' s m : mirrors n s m -> n <= n' -> mirrors n' s m.
Proof. intros [? ? Hi ?] Hn. split; [done..|by eapply db_inv_mono|done]. Qed.

Lemma mirrors_versions n s m k vv : mirrors n s m -> m !! k = Some vv -> 0 <= vv.1 <= n.
Proof.
  intros [_ _ Hi Hv] Hk. apply (db_view_versions n s.(database) id k (value_of vv)); [done|apply serialize_bytes|].
  by rewrite Hv, lookup_fmap, Hk.
Qed.

Lemma mirrors_room n s m : mirrors n s m -> n < 2 ^ 63 - 1 -> room m /\ versions_u64 m.
Proof.
  intros Hs Hn. split; intros k vv Hk; pose proof (mirrors_versions n s m k vv Hs Hk); unfold uint; lia.
Qed.

Lemma next_entry_bounds n s m k : mirrors n s m -> -1 <= n -> 0 <= next_entry m k <= n + 1.
Proof.
  intros Hs Hn. unfold next_entry. destruct (m !! k) as [vv|] eqn:Hk; [|lia].
  pose proof (mirrors_versions n s m k vv Hs Hk). lia.
Qed.

Lemma log_to_lss n s m log :
  mirrors n s m -> -1 <= n < 2 ^ 63 - 1 -> next_over m log ->
  to_lss <$> btree_iter log = (fun kvv => (kvv.1, value_of kvv.2)) <$> btree_iter log.
Proof.
  intros Hs Hn Hl. apply list_fmap_ext. intros i [k vv] Hi%list_elem_of_lookup_2%btree_iter_elem.
  unfold to_lss, value_of. cbn [fst snd]. do 2 f_equal. apply as_i64_small.
  rewrite (Hl _ _ Hi). pose proof (next_entry_bounds n s m k Hs ltac:(lia)). lia.
Qed.

Lemma log_accepted n s m log :
  mirrors n s m -> -1 <= n < 2 ^ 63 - 1 -> next_over m log ->
  conflicts_of (value_of <$> m) (to_lss <$> btree_iter log) = [] /\
  insert_all (value_of <$> m) (to_lss <$> btree_iter log) = value_of <$> (log ∪ m) /\
  keys_sorted (to_lss <$> btree_iter log) = true.
Proof.
  intros Hs Hn Hl. rewrite (log_to_lss n s m log) by done. rewrite <- btree_iter_fmap. split_and!.
  - assert (Hall : Forall (fun x => x.2.(v_version) = next_expected (value_of <$> m) x.1) (btree_iter (value_of <$> log))).
    { apply Forall_forall. intros [k v] Hk%btree_iter_elem. rewrite lookup_fmap in Hk.
      destruct (log !! k) as [vv|] eqn:Hk'; [|done]. injection Hk as <-. cbn [fst snd value_of v_version].
      rewrite (Hl _ _ Hk'). unfold next_entry, next_expected. rewrite lookup_fmap. by destruct (m !! k). }
    induction Hall as [|x l Hx _ IH]; [done|]. cbn [conflicts_of omap list_omap]. by rewrite decide_True.
  - unfold insert_all. rewrite foldl_insert_union by apply btree_iter_NoDup. by rewrite list_to_map_btree_iter, map_fmap_union.
  - apply sorted_keys, btree_iter_sorted.
Qed.

Definition my_client s : LssClient (StorageServer D) := mkLssClient (auth me) server_id s.

Lemma server_takes_log n s m log :
  mirrors n s m -> -1 <= n < 2 ^ 63 - 1 -> next_over m log ->
  exists s', LssClient_put (btree_iter log) (client_hmac hmac_sha256 helper (btree_iter log)) (my_client s)
      = (my_client s', Ok (server_hmac hmac_sha256 helper (btree_iter log))) /\
    mirrors (n + 1) s' (log ∪ m).
Proof.
  intros Hs Hn Hl. destruct (log_accepted n s m log Hs Hn Hl) as (Hc & Hins & Hsort).
  pose proof (shared_hmac_agrees me.(pa_shared_secret)) as Hagree.
  destruct Hs as [Hh Hk Hi Hv] eqn:HE. clear HE.
  pose proof (client_put_honest n s client_key Hh Hi Hn _ Hsort) as Hput. cbv zeta in Hput.
  rewrite Hk in Hput. fold me in Hput. fold id in Hput. rewrite Hv, Hc in Hput.
  destruct Hput as (s' & Hput & d' & -> & Hi' & Hview & _). exists (with_database s d'). split.
  - unfold LssClient_put. rewrite get_bind. unfold at_end. cbn [lss_auth lss_end my_client].
    assert (((fun '(k, (version, value)) => (k, mkValue (as_i64 version) value)) <$> btree_iter log) = to_lss <$> btree_iter log) as ->.
    { apply list_fmap_ext. by intros ? [k [v x]] ?. }
    unfold client_hmac, server_hmac. rewrite Hhelper, <- !Hagree, Hput. done.
  - split; [done..|]. cbn [with_database database]. by rewrite Hview, Hv, Hins.
Qed.

(** A read of everything. *)
Lemma prefix_entries_all {A : Type} (l : gmap string A) : prefix_entries l "" = btree_iter l.
Proof.
  rewrite prefix_entries_filter. induction (btree_iter l) as [|x xs IH]; [done|].
  rewrite filter_cons_True by (by destruct x as [[] ?]). by rewrite IH.
Qed.

Lemma server_returns n s m (nonce : list Z) :
  mirrors n s m -> n < 2 ^ 63 - 1 ->
  LssClient_get "" nonce (my_client s)
  = (my_client s, Ok (btree_iter m, compute_shared_hmac hmac_sha256 me.(pa_shared_secret) nonce (btree_iter m))).
Proof.
  intros Hs Hn. pose proof Hs as [Hh Hk Hi Hv].
  pose proof (client_get_honest n s client_key Hh Hi "" nonce) as Hg. cbv zeta in Hg.
  rewrite Hk in Hg. fold me in Hg. fold id in Hg. rewrite prefix_entries_all, Hv, btree_iter_fmap in Hg.
  assert (Hb : forall kvv, kvv ∈ btree_iter m -> 0 <= kvv.2.1 < 2 ^ 63).
  { intros [k vv] Hx%btree_iter_elem. pose proof (mirrors_versions n s m k vv Hs Hx). cbn [snd]. lia. }
  assert (Hall : (fun kv => (kv.1, value_of kv.2)) <$> btree_iter m = to_lss <$> btree_iter m).
  { apply list_fmap_ext. intros i x Hx%list_elem_of_lookup_2. unfold to_lss, value_of.
    by rewrite as_i64_small by (by apply Hb). }
  rewrite Hall, shared_hmac_agrees in Hg.
  assert (He : at_end (Client_get (auth me) "" nonce) (my_client s)
    = (my_client s, Ok (to_lss <$> btree_iter m, compute_shared_hmac hmac_sha256 me.(pa_shared_secret) nonce (btree_iter m)))).
  { unfold at_end. cbn [lss_end my_client]. by rewrite Hg. }
  unfold LssClient_get. rewrite get_bind. cbn [lss_auth my_client]. fold (my_client s). rewrite (run_bind _ _ _ _ _ He).
  unfold mret, method_ret. do 3 f_equal.
  rewrite <- list_fmap_compose. rewrite <- (list_fmap_id (btree_iter m)) at 2.
  apply list_fmap_ext. intros i [k [v x]] Hx%list_elem_of_lookup_2. cbn [compose to_lss fst snd v_version v_value].
  pose proof (Hb _ Hx) as Hv'. cbn [fst snd] in Hv'. by rewrite as_i64_small, as_u64_small.
Qed.
End Mirror.

(** ** What the daemon relies on

    The handlers write through [put] and [delete] of the persister's store, never
    the writer's record. *)

Class SessionHandler (W L : Type) `{Profile} `{KVVStore L} `{!SignerHandler W (CloudKVVStore L)} := {
  sn_store : forall (w : W) (st : CloudKVVStore L), sh_store (sh_set_store w st) = st;
  sn_handle : forall msg w, moves (sh_store w) (sh_store (sh_handle msg w).1);
  sn_channel_handle : forall peer dbid msg w, moves (sh_store w) (sh_store (sh_channel_handle peer dbid msg w).1);
  sn_init_handle : forall msg w, moves (sh_store w) (sh_store (sh_init_handle msg w).1);
  sn_into_root : forall w w', sh_into_root w = Ok w' -> sh_store w' = sh_store w;
  sn_build : forall st w, sh_build st = Ok w -> moves st (sh_store w);
  sn_set_allowlist : forall allowlist w, moves (sh_store w) (sh_store (sh_set_allowlist allowlist w).1)
}.

Section Daemon.
Context `{Profile} `{LssLaws} {D : Type} `{!Database D} `{!DatabaseLaws D}.
Context {L : Type} `{!KVVStore L} `{!KVVLaws L} {W : Type} `{!SignerHandler W (CloudKVVStore L)} `{!SessionHandler W L}.
Context `{!MessageCodec} `{!EqDecision SecpPublicKey}.
Context (client_key : SecpSecretKey) (server_id : SecpPublicKey) (helper : ExternalPersistHelper).
Context (Hhelper : helper.(shared_secret) = (new_for_client client_key server_id).(pa_shared_secret)).

Abbreviation daemon := (Daemon (W:=W) (N:=LssClient (StorageServer D))) (only parsing).
Abbreviation mirrored := (mirrors client_key server_id) (only parsing).
Implicit Types (d : daemon) (w : W) (s : StorageServer D) (log : vmap).

(** The server holds what the local store holds; [log] is the open transaction. *)
Definition held (n : Z) d (log : option vmap) : Prop :=
  exists store s state,
    sh_store d.(d_world) = mkCloud store log /\ kv_inv store /\ mirrored n s (kv_view store) /\
    d.(d_external) = Some (mkExternalPersistWithHelper (my_client client_key server_id s) state helper).

(** Between requests there is no transaction. *)
Definition in_sync (n : Z) d : Prop := held n d None.

(** A handler call that does not panic, and that writes nothing when it asks to
    retry. *)
Definition well_behaved {A : Type} (m : method W HandlerError A) w : Prop :=
  (m w).2 <> Panic /\ forall v, (m w).2 = Err (TemporaryError v) -> sh_store (m w).1 = sh_store w.

(** *** One transaction *)
Section Transaction.
Context (n : Z) (store : L) (Hi : kv_inv store) (Hr : room (kv_view store)).

(** The open transaction of [w]. *)
Definition open_tx w log : Prop :=
  sh_store w = mkCloud store (Some log) /\ next_over (kv_view store) log /\ is_Some (log !! LAST_WRITER_KEY).

Lemma on_store_run {F A : Type} (m : method (CloudKVVStore L) Error A) w st (r : res Error A) :
  m (sh_store w) = (st, r) -> r <> Panic -> on_store (F:=F) m w = (sh_set_store w st, Ok r).
Proof. intros Hm Hn. unfold on_store, attempt, outcome, mbind, method_bind. rewrite Hm. by destruct r. Qed.

Lemma expect_store_run {F A : Type} (m : method (CloudKVVStore L) Error A) w st a :
  m (sh_store w) = (st, Ok a) -> expect_store (F:=F) m w = (sh_set_store w st, Ok a).
Proof. intros Hm. unfold expect_store. by rewrite (run_bind _ _ _ _ _ (on_store_run m w st (Ok a) Hm ltac:(done))). Qed.

Lemma enter_opens {F : Type} w :
  sh_store w = mkCloud store None ->
  exists w', on_store (F:=F) kv_enter w = (w', Ok (Ok tt)) /\ open_tx w' (writer_log store).
Proof.
  intros Hw. destruct (cloud_enter store Hi Hr) as [He _].
  eexists. split; [apply on_store_run; [by rewrite Hw|done]|]. unfold open_tx. rewrite sn_store. split_and!; [done|apply writer_log_next|].
  unfold writer_log. rewrite lookup_singleton_eq. done.
Qed.

Lemma handler_moves {A : Type} (m : method W HandlerError A) w log :
  open_tx w log -> (forall w, moves (sh_store w) (sh_store (m w).1)) -> exists log', open_tx (m w).1 log'.
Proof.
  intros (Hw & Hn & Hl) Hm. specialize (Hm w). rewrite Hw in Hm.
  destruct (moves_next store log _ Hi Hr Hm Hn) as (log' & Hst & Hn' & Hl'). exists log'. by rewrite <- Hl' in Hl.
Qed.

(** Preparing: what is sent is what will be committed. *)
Lemma prepare_run {F : Type} w log :
  open_tx w log ->
  exists w' log', expect_store (F:=F) kv_prepare w = (w', Ok (btree_iter log')) /\
    sh_store w' = mkCloud store (Some log') /\ next_over (kv_view store) log' /\
    (log = writer_log store -> log' = ∅).
Proof.
  intros (Hw & Hn & Hl).
  assert (Hs : strict_over (kv_view store) log) by (apply next_over_strict; [by apply kv_view_u64|done..]).
  destruct (cloud_prepare store log Hl Hs) as (log' & Hp & _ & Hor). exists (sh_set_store w (mkCloud store (Some log'))), log'.
  split; [apply expect_store_run; by rewrite Hw|]. rewrite sn_store. split_and!; [done| |].
  - destruct Hor as [->| ->]; [done|apply map_Forall_empty].
  - intros ->. destruct Hor as [->|]; [|done]. revert Hp. unfold Cloud.prepare. rewrite get_bind. cbn [cloud_commit_log unwrap].
    rewrite call_Ok_bind. unfold writer_log.
    assert (btree_iter ({[LAST_WRITER_KEY := (writer_version (kv_view store), kv_signer_id store)]} : vmap)
      = [(LAST_WRITER_KEY, (writer_version (kv_view store), kv_signer_id store))]) as -> by apply btree_iter_singleton.
    rewrite bool_decide_eq_true_2 by done. cbn [rassert]. rewrite call_Ok_bind. discriminate.
Qed.

Lemma commit_run {F : Type} w log :
  sh_store w = mkCloud store (Some log) -> next_over (kv_view store) log ->
  exists w' store', on_store (F:=F) kv_commit w = (w', Ok (Ok tt)) /\ sh_store w' = mkCloud store' None /\
    kv_inv store' /\ kv_view store' = log ∪ kv_view store.
Proof.
  intros Hw Hn.
  assert (Hs : strict_over (kv_view store) log) by (apply next_over_strict; [by apply kv_view_u64|done..]).
  destruct (cloud_commit store log Hi Hs) as (store' & Hc & Hi' & Hv). exists (sh_set_store w (mkCloud store' None)), store'.
  split; [apply on_store_run; [by rewrite Hw|done]|]. by rewrite sn_store.
Qed.

(** The handler and the preparation. *)
Lemma handled (m : method W HandlerError Reply) w :
  open_tx w (writer_log store) -> (forall w, moves (sh_store w) (sh_store (m w).1)) ->
  exists w' r, (result ← attempt m; finish_handle result) w = (w', r) /\
    (exists log', sh_store w' = mkCloud store (Some log') /\ next_over (kv_view store) log' /\
      (r = Panic \/ exists o, r = Ok (o, btree_iter log') /\ o <> Panic)) /\
    (well_behaved m w -> r <> Panic).
Proof.
  intros Hw Hm. destruct (handler_moves m w _ Hw Hm) as [log Hl]. specialize (Hm w).
  unfold attempt, outcome, mbind, method_bind, well_behaved.
  destruct (m w) as [w1 result]. cbn [fst snd] in *.
  assert (Htemp : sh_store w1 = sh_store w -> log = writer_log store).
  { intros He. destruct Hw as (Hw & _), Hl as (Hl & _). rewrite He, Hw in Hl. by injection Hl. }
  destruct result as [reply|e|].
  3: { exists w1, Panic. split; [done|]. split; [exists log; destruct Hl as (? & ? & _); by auto|]. by intros [Hb _]. }
  all: destruct (prepare_run (F:=SignerError) w1 log Hl) as (w2 & log' & Hp & Hst & Hn & Hempty); unfold finish_handle.
  all: cbn [call mret method_ret]; rewrite (run_bind _ _ _ _ _ Hp).
  - exists w2. eexists. split; [reflexivity|]. split; [|done]. exists log'. split_and!; [done..|]. right. eexists. split; [reflexivity|done].
  - set (fin := match e with TemporaryError _ => _ | _ => _ end).
    assert (Hfin : fin w2 = (w2, Ok tt) \/ fin w2 = (w2, Panic) /\ exists v, e = TemporaryError v /\ log' <> ∅).
    { unfold fin. destruct e as [| |v]; [by left..|]. destruct (bool_decide _) eqn:Hb; [by left|right].
      split; [done|]. exists v. split; [done|]. apply bool_decide_eq_false in Hb. intros ->. by apply Hb. }
    destruct Hfin as [Hfin|[Hfin (v & -> & Hne)]]; unfold mbind, method_bind; rewrite Hfin; exists w2; eexists; (split; [reflexivity|]).
    + split; [|done]. exists log'. split_and!; [done..|]. right. eexists. split; [reflexivity|done].
    + split; [exists log'; by auto|]. intros [_ Ht]. specialize (Ht v eq_refl).
      destruct Hne. by apply Hempty, Htemp.
Qed.
End Transaction.

(** *** The server takes a prepared transaction, and then it is committed *)
Lemma on_world_run {F A : Type} (m : method W F A) d w (r : res F A) :
  m d.(d_world) = (w, r) -> on_world m d = (mkDaemon w d.(d_external), r).
Proof. intros Hm. unfold on_world. by rewrite Hm. Qed.

(** The daemon with a transaction that is prepared. *)
Definition prepared (n : Z) d log : Prop :=
  exists store s state,
    sh_store d.(d_world) = mkCloud store (Some log) /\ kv_inv store /\ mirrored n s (kv_view store) /\
    next_over (kv_view store) log /\
    d.(d_external) = Some (mkExternalPersistWithHelper (my_client client_key server_id s) state helper).

Lemma prepared_held n d log : prepared n d log -> held n d (Some log).
Proof. intros (store & s & state & ? & ? & ? & ? & ?). by exists store, s, state. Qed.

Lemma held_mono n n' d (log : option vmap) : held n d log -> n <= n' -> held n' d log.
Proof. intros (store & s & state & ? & ? & Hm & ?) Hn. exists store, s, state. split_and!; [done..| |done]. by eapply mirrors_mono. Qed.

Lemma store_log n s state log (m : vmap) :
  mirrored n s m -> -1 <= n < 2 ^ 63 - 1 -> next_over m log ->
  exists s', store_with_client (btree_iter log) (mkExternalPersistWithHelper (my_client client_key server_id s) state helper)
      = (mkExternalPersistWithHelper (my_client client_key server_id s') state helper, Ok tt) /\
    mirrored (n + 1) s' (log ∪ m).
Proof.
  intros Hm Hn Hl. unfold store_with_client. rewrite get_bind. case_bool_decide as Hne.
  - destruct (server_takes_log client_key server_id helper Hhelper n s m log Hm Hn Hl) as (s' & Hp & Hm').
    exists s'. split; [|done]. unfold outcome, on_client, mbind at 1, method_bind. cbn [persist_client cloud_state ext_helper].
    cbn [ext_put LssClient_external]. rewrite Hp.
    done.
  - exists s. split; [done|]. assert (log = ∅) as ->.
    { rewrite <- (list_to_map_btree_iter log), Hne. done. }
    rewrite (left_id_L ∅ (∪)). by apply (mirrors_mono _ _ n); [|lia].
Qed.

Lemma settle n d log :
  prepared n d log -> -1 <= n < 2 ^ 63 - 1 ->
  exists d1 w store s state, expect_stored (btree_iter log) d = (d1, Ok tt) /\
    on_store (F:=SignerError) kv_commit d1.(d_world) = (w, Ok (Ok tt)) /\
    sh_store w = mkCloud store None /\ kv_inv store /\ mirrored (n + 1) s (kv_view store) /\
    d1.(d_external) = Some (mkExternalPersistWithHelper (my_client client_key server_id s) state helper).
Proof.
  intros (store & s & state & Hw & Hi & Hm & Hl & He) Hn.
  destruct (store_log n s state log _ Hm Hn Hl) as (s' & Hs & Hm').
  destruct (mirrors_room _ _ _ _ _ Hm ltac:(lia)) as [Hr _].
  destruct (commit_run store Hi Hr (F:=SignerError) d.(d_world) log Hw Hl) as (w & store' & Hc & Hw' & Hi' & Hv).
  rewrite <- Hv in Hm'.
  eexists (mkDaemon d.(d_world) _), w, store', s', state. unfold expect_stored. rewrite He, Hs. split_and!; done.
Qed.

(** ** Requests *)
Definition context_ok (request : SignerRequest) : Prop :=
  forall c, request.(sr_context) = Some c -> 0 < c.(rc_dbid) -> length c.(rc_peer_id) = 33%nat.

(** The call that a request makes, and the world it starts from. *)
Definition handler_call (context : option RequestContext) (msg : Message) : method W HandlerError Reply :=
  match context with
  | Some c => if 0 <? c.(rc_dbid) then sh_channel_handle c.(rc_peer_id) c.(rc_dbid) msg else sh_handle msg
  | None => sh_handle msg
  end.

Definition entered d : W := (on_store (F:=SignerError) kv_enter d.(d_world)).1.

(** The calls of a connection do not panic or write when they ask to retry. *)
Definition request_ok request d : Prop :=
  message_from_vec request.(sr_message) <> Panic /\
  forall msg, message_from_vec request.(sr_message) = Ok msg -> well_behaved (handler_call request.(sr_context) msg) (entered d).

Fixpoint requests_ok (requests : list SignerRequest) d : Prop :=
  match requests with
  | [] => True
  | request :: requests => request_ok request d /\ requests_ok requests (handle_request request d).1
  end.

Definition init_request_ok request d : Prop :=
  message_from_vec request.(sr_message) <> Panic /\
  forall msg, message_from_vec request.(sr_message) = Ok msg -> (sh_init_handle msg (entered d)).2 <> Panic.

Fixpoint connection_ok (requests : list SignerRequest) d : Prop :=
  match requests with
  | [] => True
  | request :: requests =>
      init_request_ok request d /\
      let '(d', r) := init_handle_request request d in
      match r with
      | Ok (true, _) =>
          match sh_into_root d'.(d_world) with
          | Ok w => requests_ok requests (mkDaemon w d'.(d_external))
          | Err _ => True
          | Panic => False
          end
      | _ => connection_ok requests d'
      end
  end.

Lemma do_handle_run n d context msg :
  in_sync n d -> n < 2 ^ 63 - 1 -> (forall c, context = Some c -> 0 < c.(rc_dbid) -> length c.(rc_peer_id) = 33%nat) ->
  exists d' log r, on_world (do_handle context msg) d = (d', r) /\ prepared n d' log /\
    (r = Panic \/ exists o, r = Ok (o, btree_iter log) /\ o <> Panic) /\ (well_behaved (handler_call context msg) (entered d) -> r <> Panic).
Proof.
  intros (store & s & state & Hw & Hi & Hm & He) Hn Hc.
  destruct (mirrors_room _ _ _ _ _ Hm Hn) as [Hr _].
  destruct (enter_opens store Hi Hr (F:=SignerError) _ Hw) as (w1 & Henter & Hopen).
  assert (Hent : entered d = w1) by (unfold entered; by rewrite Henter).
  assert (Hmoves : forall w, moves (sh_store w) (sh_store (handler_call context msg w).1)).
  { intros w. unfold handler_call. destruct context as [c|]; [destruct (0 <? _)|]; first [apply sn_channel_handle|apply sn_handle]. }
  assert (Hdo : do_handle context msg d.(d_world) = (result ← attempt (handler_call context msg); finish_handle result) w1).
  { unfold do_handle. rewrite (run_bind _ _ _ _ _ Henter). unfold handler_call. destruct context as [c|]; [|done].
    destruct (Z.ltb_spec 0 c.(rc_dbid)) as [Hdb|]; [|done]. by rewrite (Hc c eq_refl Hdb), Nat.eqb_refl. }
  destruct (handled store Hi Hr _ w1 Hopen Hmoves) as (w2 & r & Hrun & (log & Hst & Hl & Hor) & Hnp).
  rewrite Hrun in Hdo. rewrite (on_world_run _ _ _ _ Hdo). eexists _, log, r. split; [reflexivity|].
  rewrite Hent. split_and!; [|done|done]. by exists store, s, state.
Qed.

(** A call leaves the daemon in sync when it returns, and what is committed is on
    the server even when it does not. *)
Definition settles {A : Type} (ok : Prop) (n : Z) (out : daemon * res SignerError A) : Prop :=
  (exists open, held n out.1 open) /\ (out.2 <> Panic -> in_sync n out.1) /\ (ok -> out.2 <> Panic).

Lemma settles_stay {A : Type} (ok : Prop) n n' d (r : res SignerError A) :
  in_sync n d -> n <= n' -> (ok -> r <> Panic) -> settles ok n' (d, r).
Proof. intros Hd Hn Hr. pose proof (held_mono n n' d None Hd Hn). split_and!; [by exists None|done..]. Qed.

Lemma map_err_Panic {E F A : Type} (g : E -> F) (r : res E A) : r <> Panic -> map_err g r <> Panic.
Proof. by destruct r. Qed.

Lemma handle_request_settles n d request :
  in_sync n d -> -1 <= n < 2 ^ 63 - 1 -> context_ok request -> settles (request_ok request d) (n + 1) (handle_request request d).
Proof.
  intros Hd Hn Hc. unfold handle_request.
  destruct (message_from_vec request.(sr_message)) as [msg|e|] eqn:Hmsg; cbn [map_err].
  2: { apply (settles_stay _ n); [done|lia|done]. }
  2: { apply (settles_stay _ n); [done|lia|]. intros [Hx _]. by rewrite Hmsg in Hx. }
  rewrite call_Ok_bind.
  destruct (do_handle_run n d request.(sr_context) msg Hd ltac:(lia) Hc) as (d' & log & r & Hrun & Hp & Hor & Hnp).
  destruct Hor as [->|(o & -> & Ho)].
  - unfold mbind, method_bind at 1. rewrite Hrun. split_and!; [|done|intros [_ Hok]; by destruct (Hnp (Hok _ Hmsg))].
    exists (Some log). apply prepared_held in Hp. apply (held_mono n); [done|lia].
  - rewrite (run_bind _ _ _ _ _ Hrun).
    destruct (settle n d' log Hp Hn) as (d1 & w & store & s & state & Hs & Hcm & Hw & Hi & Hm & He).
    rewrite (run_bind _ _ _ _ _ Hs).
    assert (Hcommit : daemon_commit d1 = (mkDaemon w d1.(d_external), Ok tt)).
    { unfold daemon_commit. apply on_world_run. unfold expect_store. by rewrite (run_bind _ _ _ _ _ Hcm). }
    rewrite (run_bind _ _ _ _ _ Hcommit).
    assert (Hsync : in_sync (n + 1) (mkDaemon w d1.(d_external))) by (by exists store, s, state).
    destruct o as [reply|e|]; [| |done]; (apply (settles_stay _ (n + 1)); [done|lia|done]).
Qed.

Lemma init_handle_request_settles n d request :
  in_sync n d -> -1 <= n < 2 ^ 63 - 1 -> settles (init_request_ok request d) (n + 1) (init_handle_request request d).
Proof.
  intros Hd Hn. unfold init_handle_request.
  destruct (message_from_vec request.(sr_message)) as [msg|e|] eqn:Hmsg; cbn [map_err].
  2: { apply (settles_stay _ n); [done|lia|done]. }
  2: { apply (settles_stay _ n); [done|lia|]. intros [Hx _]. by rewrite Hmsg in Hx. }
  rewrite call_Ok_bind. destruct Hd as (store & s & state & Hw & Hi & Hm & He).
  destruct (mirrors_room _ _ _ _ _ Hm ltac:(lia)) as [Hr _].
  destruct (enter_opens store Hi Hr (F:=SignerError) _ Hw) as (w1 & Henter & Hopen).
  assert (Ht : try_store kv_enter d = (mkDaemon w1 d.(d_external), Ok tt)).
  { unfold try_store. by rewrite (run_bind _ _ _ _ _ (on_world_run _ _ _ _ Henter)). }
  rewrite (run_bind _ _ _ _ _ Ht).
  destruct (handler_moves store Hi Hr (sh_init_handle msg) w1 _ Hopen (sn_init_handle msg)) as [log Hl].
  assert (Hent : entered d = w1) by (unfold entered; by rewrite Henter).
  assert (Hq : init_request_ok request d -> (sh_init_handle msg w1).2 <> Panic)
    by (intros [_ Hx]; rewrite <- Hent; by apply Hx).
  assert (Hat : on_world (F:=SignerError) (attempt (sh_init_handle msg)) (mkDaemon w1 d.(d_external)) =
    (mkDaemon (sh_init_handle msg w1).1 d.(d_external),
      match (sh_init_handle msg w1).2 with Panic => Panic | r => Ok r end)).
  { apply (on_world_run _ (mkDaemon w1 _)). unfold attempt, outcome, mbind, method_bind. cbn [d_world]. by destruct (sh_init_handle msg w1) as [w2 []]. }
  destruct (sh_init_handle msg w1) as [w2 result]. cbn [fst snd] in *.
  assert (Hpanic : result = Panic \/ result <> Panic) by (destruct result; auto). destruct Hpanic as [->|Hres].
  { unfold mbind, method_bind at 1. rewrite Hat. split_and!; [|done|intros Hok; by destruct (Hq Hok)].
    destruct Hl as (Hl & _ & _). exists (Some log), store, s, state. cbn [fst d_world d_external].
    split_and!; [done..| |done]. by apply (mirrors_mono _ _ n); [|lia]. }
  assert (Hat' : on_world (F:=SignerError) (attempt (sh_init_handle msg)) (mkDaemon w1 d.(d_external)) =
    (mkDaemon w2 d.(d_external), Ok result)) by (rewrite Hat; by destruct result).
  rewrite (run_bind _ _ _ _ _ Hat').
  destruct (prepare_run store Hi Hr (F:=SignerError) w2 log Hl) as (w3 & log' & Hp & Hst & Hnext & _).
  assert (Hprep : prepared n (mkDaemon w3 d.(d_external)) log') by (by exists store, s, state).
  destruct (settle n _ log' Hprep Hn) as (d1 & w & store' & s' & state' & Hs & Hcm & Hw' & Hi' & Hm' & He').
  assert (Hprepared : expect_prepared (mkDaemon w2 d.(d_external)) = (d1, Ok tt)).
  { unfold expect_prepared. rewrite get_bind. cbn [d_external]. rewrite He in Hs |- *.
    by rewrite (run_bind _ _ _ _ _ (on_world_run _ (mkDaemon w2 _) _ _ Hp)). }
  rewrite (run_bind _ _ _ _ _ Hprepared).
  assert (Hcommit : try_store kv_commit d1 = (mkDaemon w d1.(d_external), Ok tt)).
  { unfold try_store. by rewrite (run_bind _ _ _ _ _ (on_world_run _ _ _ _ Hcm)). }
  rewrite (run_bind _ _ _ _ _ Hcommit).
  assert (Hsync : in_sync (n + 1) (mkDaemon w d1.(d_external))) by (by exists store', s', state').
  destruct result as [[is_done reply]|e|]; [| |done]; (apply (settles_stay _ (n + 1)); [done|lia|done]).
Qed.

(** ** Connections *)
Lemma settles_bind {A B : Type} (ok : Prop) n n' (m : method daemon SignerError A) (f : A -> method daemon SignerError B) d :
  settles ok n (m d) -> n <= n' -> (forall d' a, m d = (d', Ok a) -> in_sync n d' -> settles ok n' (f a d')) ->
  settles ok n' ((m ≫= f) d).
Proof.
  unfold mbind, method_bind. intros (Hh & Hs & Hp) Hn Hf. destruct (m d) as [d' [a|e|]]; cbn [fst snd] in *.
  - by apply Hf; [|apply Hs].
  - apply (settles_stay _ n); [by apply Hs|done|done].
  - destruct Hh as [open Hh]. split_and!; [exists open; by apply (held_mono n)|done|]. intros Hok. by destruct (Hp Hok).
Qed.

Lemma settles_weaken {A : Type} (ok ok' : Prop) n (out : daemon * res SignerError A) : (ok' -> ok) -> settles ok n out -> settles ok' n out.
Proof. intros Hok (Hh & Hs & Hp). split_and!; auto. Qed.

Lemma attempt_settles {A : Type} (ok : Prop) n (m : method daemon SignerError A) d :
  settles ok n (m d) ->
  settles ok n (attempt_request m d) /\ forall d' r, attempt_request m d = (d', Ok r) -> m d = (d', r).
Proof.
  unfold attempt_request, outcome, mbind, method_bind. intros (Hh & Hs & Hp).
  destruct (m d) as [d' [a|e|]]; cbn [fst snd] in *.
  1,2: split; [by apply (settles_stay _ n); [by apply Hs|lia|done]|by intros ? ? [= <- <-]].
  split; [|done]. split_and!; [done..|]. intros Hok. by destruct (Hp Hok).
Qed.

Lemma handle_requests_settle (requests : list SignerRequest) n d :
  in_sync n d -> -1 <= n -> n + Z.of_nat (length requests) < 2 ^ 63 -> Forall context_ok requests ->
  settles (requests_ok requests d) (n + Z.of_nat (length requests)) (handle_requests requests d).
Proof.
  revert n d. induction requests as [|request requests IH]; intros n d Hd Hn Hb Hok.
  { apply (settles_stay _ n); [done|cbn; lia|done]. }
  apply Forall_cons in Hok as [Hc Hok]. cbn [length] in Hb |- *. cbn [handle_requests requests_ok].
  destruct (attempt_settles _ (n + 1) _ d (handle_request_settles n d request Hd ltac:(lia) Hc)) as [Ha Hrun].
  eapply settles_bind; [eapply settles_weaken, Ha; by intros [? _]|lia|]. intros d1 r Hr%Hrun Hd1.
  destruct (send_response _ r) as [sent closed]. destruct closed.
  - apply (settles_stay _ (n + 1)); [done|lia|done].
  - replace (n + Z.of_nat (S (length requests))) with (n + 1 + Z.of_nat (length requests)) in * by lia.
    rewrite Hr. cbn [fst]. apply (settles_bind _ (n + 1 + Z.of_nat (length requests))); [|lia|].
    + eapply settles_weaken, (IH (n + 1) d1); [by intros [_ ?]|done|lia..|done].
    + intros d2 sents _ Hd2. by apply (settles_stay _ (n + 1 + Z.of_nat (length requests))).
Qed.

Lemma bind_assoc {S E A B C : Type} (m : method S E A) (g : A -> method S E B) (f : B -> method S E C) x :
  ((m ≫= g) ≫= f) x = (m ≫= fun a => g a ≫= f) x.
Proof. unfold mbind, method_bind. by destruct (m x) as [? [| |]]. Qed.

(** What follows the negotiation runs on the requests that it left. *)
Lemma negotiation_settles {B : Type} (requests : list SignerRequest) n N d
    (f : list SignerResponse * option (list SignerRequest) -> method daemon SignerError B) :
  in_sync n d -> -1 <= n -> n + Z.of_nat (length requests) <= N -> N < 2 ^ 63 -> Forall context_ok requests ->
  (forall n' d' sent rest, in_sync n' d' -> -1 <= n' -> n' + Z.of_nat (length rest) <= N -> Forall context_ok rest ->
    settles (requests_ok rest d') N (f (sent, Some rest) d')) ->
  (forall n' d' sent, in_sync n' d' -> n' <= N -> settles True N (f (sent, None) d')) ->
  settles (connection_ok requests d) N ((init_handle_requests requests ≫= f) d).
Proof.
  intros Hd Hn Hb HN Hok Hrest Hnone.
  revert n d f Hd Hn Hb Hrest Hnone. induction requests as [|request requests IH]; intros n d f Hd Hn Hb Hrest Hnone.
  { eapply settles_weaken, (Hnone n); [done..|cbn in Hb; lia]. }
  apply Forall_cons in Hok as [_ Hok]. cbn [length] in Hb. cbn [init_handle_requests connection_ok]. rewrite bind_assoc.
  destruct (attempt_settles _ (n + 1) _ d (init_handle_request_settles n d request Hd ltac:(lia))) as [Ha Hrun].
  eapply settles_bind; [eapply settles_weaken, Ha; by intros [? _]|lia|]. intros d1 rspframe Hr%Hrun Hd1. cbv zeta. rewrite Hr.
  destruct (match rspframe with Ok (_, None) => _ | _ => _ end) as [sent closed].
  destruct closed; [eapply settles_weaken, (Hnone (n + 1)); [done..|lia]|].
  assert (Hgo : settles (connection_ok requests d1) N ((('(sents, rest) ← init_handle_requests requests; mret (sent ++ sents, rest)) ≫= f) d1)).
  { rewrite bind_assoc. apply (IH Hok (n + 1)); [done|lia..| |].
    - intros n' d' sent' rest Hd' ? ? ?. by apply (Hrest n').
    - intros n' d' sent' Hd' ?. by apply (Hnone n'). }
  destruct rspframe as [[[] reply]|e|].
  - unfold mbind at 1, method_bind at 1. rewrite get_bind. destruct (sh_into_root d1.(d_world)) as [w|e|] eqn:Hroot; cbn [map_err].
    + rewrite call_Ok_bind, set_bind. cbn [mret method_ret]. eapply settles_weaken, (Hrest (n + 1)); [by intros [_ ?]| |lia..|done].
      destruct Hd1 as (store & s & state & Hw & Hi & Hm & He). exists store, s, state. cbn [d_world d_external].
      split_and!; [|done..]. by rewrite (sn_into_root _ _ Hroot).
    + apply (settles_stay _ (n + 1)); [done|lia|done].
    + apply (settles_stay _ (n + 1)); [done|lia|]. by intros [_ []].
  - eapply settles_weaken, Hgo. by intros [_ ?].
  - eapply settles_weaken, Hgo. by intros [_ ?].
  - eapply settles_weaken, Hgo. by intros [_ ?].
Qed.

(** The server never falls behind what is committed, and holds it when no
    transaction is open. *)
Lemma connection_settles (requests : list SignerRequest) n d :
  in_sync n d -> -1 <= n -> n + Z.of_nat (length requests) < 2 ^ 63 -> Forall context_ok requests ->
  settles (connection_ok requests d) (n + Z.of_nat (length requests)) (handle_connection requests d).
Proof.
  intros Hd Hn Hb Hok. set (N := n + Z.of_nat (length requests)) in *.
  unfold handle_connection. apply (negotiation_settles requests n N); [done|done|lia|done|done| |].
  - intros n' d' sent rest Hd' Hn' HN Hrest. cbv beta iota.
    eapply settles_bind; [apply (handle_requests_settle rest n'); [done|done|lia|done]|done|]. intros d2 sents _ Hd2.
    by apply (settles_stay _ (n' + Z.of_nat (length rest))).
  - intros n' d' sent Hd' Hn'. by apply (settles_stay _ n').
Qed.

(** ** Restarts *)
Lemma init_state_run n s m (entropy : list Z) :
  mirrored n s m -> n < 2 ^ 63 - 1 ->
  init_state entropy (mkExternalPersistWithHelper (my_client client_key server_id s) ∅ helper)
  = (mkExternalPersistWithHelper (my_client client_key server_id s) m helper, Ok tt).
Proof.
  intros Hm Hn. pose proof (server_returns client_key server_id n s m entropy Hm Hn) as Hg.
  unfold init_state. rewrite get_bind. cbn [new_nonce ext_helper].
  set (e := mkExternalPersistWithHelper _ ∅ _).
  assert (Ho : outcome (F:=SignerError) (on_client (ext_get "" entropy)) e
    = (e, Ok (Ok (btree_iter m, compute_shared_hmac hmac_sha256 helper.(shared_secret) entropy (btree_iter m))))).
  { unfold outcome, on_client, e. cbn [persist_client cloud_state ext_helper ext_get LssClient_external]. by rewrite Hg, Hhelper. }
  rewrite (run_bind _ _ _ _ _ Ho). unfold check_hmac. cbn [shared_secret last_nonce].
  rewrite bool_decide_eq_true_2 by done. cbn [rassert]. rewrite call_Ok_bind, get_bind. unfold e. cbn [persist_client cloud_state ext_helper].
  rewrite foldl_insert_union by apply btree_iter_NoDup. by rewrite list_to_map_btree_iter, (right_id_L ∅ (∪)).
Qed.

Lemma grows_batch_ok (m m' : vmap) : grows m m' -> spec_put_batch m (btree_iter m') = Ok m'.
Proof.
  intros Hg. unfold spec_put_batch. assert (batch_ok m (btree_iter m') = true) as ->.
  - apply forallb_forall. intros [k [ver val]] Hin%list_elem_of_In%btree_iter_elem. unfold entry_ok. cbn [fst snd].
    destruct (m !! k) as [[ver0 val0]|] eqn:Hk; [|done]. destruct (Hg _ _ Hk) as (vv' & Hk' & Hle & Heq).
    rewrite Hin in Hk'. injection Hk' as <-. cbn [fst] in *. apply orb_true_iff.
    destruct (decide (ver = ver0)) as [Hv|]; [right|left; lia]. specialize (Heq Hv) as [= -> ->].
    by rewrite Z.eqb_refl, bool_decide_eq_true_2.
  - rewrite list_to_map_btree_iter. f_equal. apply map_eq. intros k. rewrite lookup_union.
    destruct (m !! k) as [vv|] eqn:Hk; [|by destruct (m' !! k)]. destruct (Hg _ _ Hk) as (vv' & -> & _). done.
Qed.

(** The server's entries go to the local store. *)
Lemma catch_up (store : L) (m : vmap) :
  kv_inv store -> versions_u64 m -> grows (kv_view store) m ->
  exists store', kv_put_batch_unlogged (btree_iter m) (Cloud.new store) = (Cloud.new store', Ok tt) /\
    kv_inv store' /\ kv_view store' = m.
Proof.
  intros Hi Hu Hg. destruct (log_batch_ok m Hu) as [Hnd Hf].
  pose proof (kv_put_batch_spec store (btree_iter m) Hi Hnd Hf) as [Hinv Hr]. rewrite grows_batch_ok in Hr by done.
  destruct (kv_put_batch (btree_iter m) store) as [store' r] eqn:Hp. cbn [fst snd] in *. destruct Hr as [-> Hv].
  exists store'. split; [|done]. cbn [kv_put_batch_unlogged CloudKVVStore_kvv]. unfold Cloud.put_batch_unlogged, Cloud.new.
  rewrite get_bind, bool_decide_eq_true_2 by done. cbn [rassert]. rewrite call_Ok_bind. unfold Cloud.on_local. cbn [local].
  by rewrite Hp.
Qed.

Lemma catch_up_refused (store : L) (m : vmap) :
  kv_inv store -> versions_u64 m -> batch_ok (kv_view store) (btree_iter m) = false ->
  (kv_put_batch_unlogged (btree_iter m) (Cloud.new store)).2 = Err VersionMismatch.
Proof.
  intros Hi Hu Hg. destruct (log_batch_ok m Hu) as [Hnd Hf].
  pose proof (kv_put_batch_spec store (btree_iter m) Hi Hnd Hf) as [_ Hr]. unfold spec_put_batch in Hr. rewrite Hg in Hr.
  cbn [kv_put_batch_unlogged CloudKVVStore_kvv]. unfold Cloud.put_batch_unlogged, Cloud.new.
  rewrite get_bind, bool_decide_eq_true_2 by done. cbn [rassert]. rewrite call_Ok_bind. unfold Cloud.on_local. cbn [local].
  destruct (kv_put_batch (btree_iter m) store) as [store' r]. by destruct Hr as [Hr _].
Qed.

(** What the daemon finds when it starts. *)
Definition fresh_external s := mkExternalPersistWithHelper (my_client client_key server_id s) ∅ helper.

(** The end of a start: what the build wrote goes to the server and is committed. *)
Lemma finish_start n s state w (store : L) (log0 : vmap) :
  kv_inv store -> mirrored n s (kv_view store) -> -1 <= n < 2 ^ 63 - 1 -> open_tx store w log0 ->
  exists d log, (muts ← on_world (expect_store kv_prepare); expect_stored muts ;; daemon_commit)
      (mkDaemon w (Some (mkExternalPersistWithHelper (my_client client_key server_id s) state helper))) = (d, Ok tt) /\
    in_sync (n + 1) d /\ next_over (kv_view store) log /\ kv_view (local (sh_store d.(d_world))) = log ∪ kv_view store.
Proof.
  intros Hi Hm Hn Hopen. destruct (mirrors_room _ _ _ _ _ Hm ltac:(lia)) as [Hr _].
  destruct (prepare_run store Hi Hr (F:=SignerError) w log0 Hopen) as (w1 & log & Hp & Hst & Hl & _).
  rewrite (run_bind _ _ _ _ _ (on_world_run _ (mkDaemon w _) _ _ Hp)). cbn [d_external].
  destruct (store_log n s state log _ Hm Hn Hl) as (s' & Hs & Hm').
  destruct (commit_run store Hi Hr (F:=SignerError) w1 log Hst Hl) as (w2 & store2 & Hc & Hw2 & Hi2 & Hv2).
  set (e' := mkExternalPersistWithHelper (my_client client_key server_id s') state helper) in Hs.
  assert (Hes : forall e, store_with_client (btree_iter log) e = (e', Ok tt) ->
    expect_stored (btree_iter log) (mkDaemon w1 (Some e)) = (mkDaemon w1 (Some e'), Ok tt)).
  { intros e He. unfold expect_stored. cbn [d_external d_world]. by rewrite He. }
  rewrite (run_bind _ _ _ _ _ (Hes _ Hs)).
  assert (Hcommit : daemon_commit (mkDaemon w1 (Some e')) = (mkDaemon w2 (Some e'), Ok tt)).
  { unfold daemon_commit. apply (on_world_run _ (mkDaemon w1 _)). cbn [d_world]. unfold expect_store. by rewrite (run_bind _ _ _ _ _ Hc). }
  rewrite Hcommit. eexists _, log. split; [reflexivity|]. cbn [d_world]. rewrite Hw2. cbn [local].
  split_and!; [|done..]. exists store2, s', state. rewrite <- Hv2 in Hm'. split_and!; done.
Qed.

(** C16: A restart brings a store that fell behind up to date.  When the local store
    is behind an honest server, for instance because the daemon died after the
    server took the writes of a request and before they were committed, and the
    node can be built from the server's entries, the start succeeds: the local store
    has every entry of the server, advanced at most by the writes of the start
    itself, each by one version, and local store and server are in sync. *)
Theorem restart_catches_up (entropy : list Z) (allowlist : list string) (store : L) n s m :
  kv_inv store -> mirrored n s m -> -1 <= n < 2 ^ 63 - 1 -> grows (kv_view store) m ->
  (forall store', kv_inv store' -> kv_view store' = m ->
    exists w, sh_build (mkCloud store' (Some (writer_log store'))) = Ok w /\ (sh_set_allowlist allowlist w).2 = Ok tt) ->
  exists d log, start_up entropy allowlist (Cloud.new store) (fresh_external s) = Ok d /\ in_sync (n + 1) d /\
    next_over m log /\ kv_view (local (sh_store d.(d_world))) = log ∪ m.
Proof.
  intros Hi Hm Hn Hg Hbuild. unfold start_up, fresh_external.
  rewrite (init_state_run n s m) by (done || lia). cbn [expect mbind res_bind cloud_state].
  destruct (mirrors_room _ _ _ _ _ Hm ltac:(lia)) as [Hr Hu].
  destruct (catch_up store m Hi Hu Hg) as (store1 & -> & Hi1 & Hv1). cbn [expect mbind res_bind]. subst m.
  destruct (cloud_enter store1 Hi1 Hr) as [He _]. cbn [kv_enter CloudKVVStore_kvv]. rewrite He.
  cbn [expect mbind res_bind]. fold (writer_log store1).
  destruct (Hbuild store1 Hi1 eq_refl) as (w & Hb & Hset). rewrite Hb. cbn [expect mbind res_bind].
  assert (Hopen : exists log, open_tx store1 w log).
  { destruct (moves_next store1 _ _ Hi1 Hr (sn_build _ _ Hb) (writer_log_next store1)) as (log & Hst & Hl & Hw).
    exists log. split_and!; [done..|]. rewrite Hw. unfold writer_log. by rewrite lookup_singleton_eq. }
  destruct Hopen as [log0 Hopen].
  destruct (handler_moves store1 Hi1 Hr (sh_set_allowlist allowlist) w log0 Hopen (sn_set_allowlist allowlist)) as [log1 Hopen1].
  destruct (sh_set_allowlist allowlist w) as [w1 r]. cbn [fst snd] in *. subst r. cbn [expect mbind res_bind].
  destruct (finish_start n s (kv_view store1) w1 store1 log1 Hi1 Hm Hn Hopen1) as (d & log & Hrun & Hsync & Hl & Hv).
  exists d, log. split; [|done].
  exact (f_equal (fun '(d, r) => (r : res SignerError unit) ≫= fun _ => Ok d) Hrun).
Qed.

(** ** A peer id of the wrong length *)

End Daemon.

(** ** A daemon to evaluate the model *)
Section LoopSamples.
#[local] Existing Instance release_profile.

(** Handlers that write one key. *)
Definition sample_write {A : Type} (a : A) : method (CloudKVVStore MemoryKVVStore) HandlerError A := fun st =>
  let '(st, r) := Cloud.put "node" [1] st in (st, match r with Ok _ => Ok a | _ => Panic end).

#[local] Instance sample_handlers : SignerHandler (CloudKVVStore MemoryKVVStore) (CloudKVVStore MemoryKVVStore) := {|
  sh_store w := w;
  sh_set_store _ st := st;
  sh_handle _ := sample_write AddBlockReply;
  sh_channel_handle _ _ _ := sample_write AddBlockReply;
  sh_init_handle _ := sample_write (true, None);
  sh_into_root w := Ok w;
  sh_build st := Ok st;
  sh_set_allowlist _ := sample_write tt
|}.

Lemma sample_write_moves {A : Type} (a : A) st : moves st (sample_write a st).1.
Proof.
  apply rtc_once. exists (OpPut "node" [1]). split; [done|]. unfold sample_write. cbn [run_op].
  unfold done_unit, mbind, method_bind. cbn [kv_put CloudKVVStore_kvv]. by destruct (Cloud.put "node" [1] st) as [st' [| |]].
Qed.

#[local] Instance sample_session : SessionHandler (CloudKVVStore MemoryKVVStore) MemoryKVVStore.
Proof.
  split; try done; intros; try apply sample_write_moves.
  - by injection H as <-.
  - injection H as <-. apply rtc_refl.
Qed.

#[local] Instance sample_messages : MessageCodec := {| message_from_vec _ := Ok (Ping 1 []); reply_as_vec _ := [] |}.

Definition recorded : vmap := {[ LAST_WRITER_KEY := (0, [8]) ]}.
Definition recorded_server : StorageServer RedbDatabase :=
  mkStorageServer (mkRedbDatabase {[ full_key [3] LAST_WRITER_KEY := [0; 8] ]}) true true.
Definition sample_helper : ExternalPersistHelper := mkExternalPersistHelper (new_for_client false true).(pa_shared_secret) [].

Lemma recorded_mirrors : mirrors (D:=RedbDatabase) (false : @SecpSecretKey sample_lss_packages) true 0 recorded_server recorded.
Proof.
  split; [done|done| |by vm_compute].
  apply map_Forall_singleton. exists (mkValue 0 [8]). split; [done|]. cbn. lia.
Qed.

Lemma restart_catches_up_witness :
  exists d log, start_up (N:=LssClient (StorageServer RedbDatabase)) [5] [] (Cloud.new (mkMemory ∅ [7]))
      (fresh_external (false : @SecpSecretKey sample_lss_packages) true sample_helper recorded_server) = Ok d /\
    in_sync (D:=RedbDatabase) (L:=MemoryKVVStore) (W:=CloudKVVStore MemoryKVVStore) (false : @SecpSecretKey sample_lss_packages) true sample_helper (0 + 1) d /\
    next_over recorded log /\ kv_view (local (sh_store d.(d_world))) = log ∪ recorded.
Proof.
  apply (restart_catches_up (D:=RedbDatabase) (L:=MemoryKVVStore) (W:=CloudKVVStore MemoryKVVStore)
    (false : @SecpSecretKey sample_lss_packages) true sample_helper eq_refl [5] [] (mkMemory ∅ [7]) 0 recorded_server recorded).
  - apply map_Forall_empty.
  - exact recorded_mirrors.
  - lia.
  - intros k vv Hk. cbn in Hk. by rewrite lookup_empty in Hk.
  - intros [data id] Hi Hv. cbn in Hv. subst data. eexists. split; [reflexivity|]. vm_compute. reflexivity.
Defined.

Definition recorded_daemon : Daemon (W:=CloudKVVStore MemoryKVVStore) (N:=LssClient (StorageServer RedbDatabase)) :=
  mkDaemon (Cloud.new (mkMemory recorded [7]))
    (Some (mkExternalPersistWithHelper (my_client (false : @SecpSecretKey sample_lss_packages) true recorded_server) ∅ sample_helper)).

End LoopSamples.
