(* ===== verification/DaemonStore.v ===== *)
(** * The handlers write through the persister

    Every request of the handlers in [Handler], whatever its outcome, moves the
    store of the persister only by puts and deletes of single keys, and never by
    the key of the writer's record: the handlers are a [SessionHandler]. *)
From S2P Require Import Prelude Velocity Policy Ordered CommitInfo Types Bitcoin Script Secrets Enforcement SimpleValidator Validator NodeState NodeSafety Channel ChannelSafety TxValidator TxSafety ChannelTx ChannelTxSafety Monitor Tracker ChainSafety TrackerSafety BTree Kvv KvvSpec KvvTx KvvSafety KvvTxSafety Persister PersisterSafety Node NodeChannels Approver Wire Messages Withdrawal Handler HandlerSafety ChaCha Lss LssSpec LssSafety SignerLoop SignerLoopSafety.

Section Writes.
Context `{Profile} `{BitcoinLib} `{LightningLib} `{SpendScripts} `{ChainPackages} `{CommitmentPointProvider} `{WalletKeys}.
Context `{Signer} `{TransactionSigner} `{InputSigner} `{KeysManager} `{Encodings}.
Context {L : Type} `{!KVVStore L}.
Context `{ValueFormat StoredNodeEntry} `{ValueFormat NodeStateEntry} `{ValueFormat ChannelEntry}
  `{ValueFormat (list string)} `{ValueFormat ChainTrackerEntry}.
Context {V : Type} `{HV : Validator V} `{TransactionValidator V NodeWallet}.
Context {PO : Type} `{HPO : Policy PO} {I A : Type} `{HI : InvoiceAttributes I} `{!Approve I A} `{HC : !RequestCodec I}.
Context (state_hash_preimage : Z -> Z).
Context (validator : V) (policy : PO) (compute_txid : Transaction -> Txid) (set_iter : gset Z -> list Z).
Context (persist : Channel -> res Status unit) (timeless_workaround developer : bool).
Context (equal : ChannelEntry -> ChannelEntry -> bool) (clocks : Clocks).
Context (allowable_to_string : Allowable -> string).

Abbreviation cloud := (CloudKVVStore L) (only parsing).
#[local] Instance cloud_persist : Persist cloud := KVVPersister_persist state_hash_preimage.
Abbreviation node := (Node (P:=CloudKVVStore L)) (only parsing).
Abbreviation writes := (runs session_step (fun st : CloudKVVStore L => st)) (only parsing).
Abbreviation node_writes := (runs session_step (fun n : Node (P:=CloudKVVStore L) => n.(persister))) (only parsing).

(** ** The persister *)
Lemma put_writes key value (st : cloud) : key <> LAST_WRITER_KEY -> writes (kv_put key value) st.
Proof.
  intros Hk. apply rtc_once. exists (OpPut key value). split; [by apply bool_decide_eq_true_2|].
  cbn [run_op]. unfold done_unit, mbind, method_bind. cbn [kv_put CloudKVVStore_kvv]. by destruct (Cloud.put key value st) as [st' [| |]].
Qed.

Lemma delete_writes key (st : cloud) : key <> LAST_WRITER_KEY -> writes (kv_delete key) st.
Proof. apply (put_writes key []). Qed.

Lemma unwrap_call_writes {E B : Type} (m : method cloud E B) st : writes m st -> writes (unwrap_call m) st.
Proof. unfold runs, unwrap_call. by destruct (m st) as [st' r]. Qed.

Ltac store_call :=
  idtac; lazymatch goal with
  | |- runs _ _ (unwrap_call _) _ => apply unwrap_call_writes
  | |- runs _ _ (kv_put _ _) _ => by apply put_writes
  | |- runs _ _ (kv_delete _) _ => by apply delete_writes
  end.

Lemma update_node_writes id st (s : cloud) : writes (p_update_node id st) s.
Proof. cbn [p_update_node cloud_persist KVVPersister_persist]. unfold update_node. repeat runs_step store_call. Qed.

Lemma new_node_writes id config st (s : cloud) : writes (p_new_node id config st) s.
Proof.
  cbn [p_new_node cloud_persist KVVPersister_persist]. unfold new_node. apply runs_bind.
  - apply unwrap_call_writes, update_node_writes.
  - intros ? ? _. repeat runs_step store_call.
Qed.

Lemma new_channel_writes id stub (s : cloud) : writes (p_new_channel id stub) s.
Proof. cbn [p_new_channel cloud_persist KVVPersister_persist]. unfold new_channel. repeat runs_step store_call. Qed.

Lemma delete_channel_writes id channel (s : cloud) : writes (p_delete_channel id channel) s.
Proof. cbn [p_delete_channel cloud_persist KVVPersister_persist]. unfold delete_channel. repeat runs_step store_call. Qed.

Lemma update_channel_writes id chan (s : cloud) : writes (p_update_channel id chan) s.
Proof. cbn [p_update_channel cloud_persist KVVPersister_persist]. unfold update_channel. repeat runs_step store_call. Qed.

Lemma update_tracker_writes id t (s : cloud) : writes (p_update_tracker id t) s.
Proof. cbn [p_update_tracker cloud_persist KVVPersister_persist]. unfold update_tracker. repeat runs_step store_call. Qed.

Lemma new_tracker_writes id t (s : cloud) : writes (p_new_tracker id t) s.
Proof. apply update_tracker_writes. Qed.

Lemma update_allowlist_writes id l (s : cloud) : writes (p_update_node_allowlist id l) s.
Proof.
  cbn [p_update_node_allowlist cloud_persist KVVPersister_persist]. unfold update_node_allowlist. repeat runs_step store_call.
Qed.

(** ** The node *)
Lemma persist_writes {B : Type} on_err (m : method cloud Error B) (n : node) :
  writes m n.(persister) -> node_writes (persist_or on_err m) n.
Proof. unfold runs, persist_or. by destruct (m n.(persister)) as [p r]. Qed.

Lemma set_writes {E B : Type} (n' : node) (f : unit -> method node E B) n :
  n'.(persister) = n.(persister) -> node_writes (f tt) n' -> node_writes (set_self n' ≫= f) n.
Proof. unfold runs. rewrite set_bind. by intros ->. Qed.

Lemma last_set_writes {E : Type} (n' n : node) : n'.(persister) = n.(persister) -> node_writes (set_self (E:=E) n') n.
Proof. unfold runs. cbn. intros ->. apply rtc_refl. Qed.

(** One step of a method of the node. *)
Ltac writes_step calls :=
  cbv beta iota zeta;
  lazymatch goal with
  | |- runs _ _ (set_self _ ≫= _) _ => apply set_writes; [reflexivity|]
  | |- runs _ _ (set_self _) _ => apply last_set_writes; reflexivity
  | |- runs _ _ (persist_or _ _) _ => apply persist_writes;
      lazymatch goal with
      | |- runs _ _ (p_update_node _ _) _ => apply update_node_writes
      | |- runs _ _ (p_new_node _ _ _) _ => apply new_node_writes
      | |- runs _ _ (p_new_channel _ _) _ => apply new_channel_writes
      | |- runs _ _ (p_delete_channel _ _) _ => apply delete_channel_writes
      | |- runs _ _ (p_update_channel _ _) _ => apply update_channel_writes
      | |- runs _ _ (p_update_tracker _ _) _ => apply update_tracker_writes
      | |- runs _ _ (p_new_tracker _ _) _ => apply new_tracker_writes
      | |- runs _ _ (p_update_node_allowlist _ _) _ => apply update_allowlist_writes
      end
  | |- runs _ _ (persist_node_tracker _) _ => unfold persist_node_tracker
  | |- runs _ _ (persist_or _ _ ≫= _) _ => apply runs_bind; [|intros ? ? _]
  | |- runs _ _ (persist_node_tracker _ ≫= _) _ => apply runs_bind; [|intros ? ? _]
  | _ => runs_step calls
  end.

Lemma alloc_slot_writes slot (n : node) : node_writes (alloc_slot slot) n.
Proof. unfold alloc_slot. repeat writes_step fail. Qed.

Lemma alloc_monitor_writes m (n : node) : node_writes (alloc_monitor m) n.
Proof. unfold alloc_monitor. repeat writes_step fail. Qed.

Lemma with_channel_writes {B : Type} id (f : method (Channel * NodeState) Status B) (n : node) :
  node_writes (with_channel id f) n.
Proof.
  unfold with_channel. repeat writes_step ltac:(fail). unfold run_channel. repeat writes_step ltac:(fail).
Qed.

Lemma lock_writes id outpoint (n : node) : node_writes (confirm_funding_lock persist id outpoint) n.
Proof. unfold confirm_funding_lock, run_channel. repeat writes_step ltac:(fail). Qed.

Lemma new_writes dbid peer (n : node) : node_writes (node_new_channel validator dbid peer) n.
Proof.
  unfold node_new_channel, find_or_create_channel. repeat writes_step ltac:(idtac; lazymatch goal with |- runs _ _ (alloc_slot _) _ => apply alloc_slot_writes end).
Qed.

Lemma mark_writes id (n : node) : node_writes (raise_high_water_mark id) n.
Proof. unfold raise_high_water_mark. repeat writes_step ltac:(fail). Qed.

Lemma forget_writes id (n : node) : node_writes (node_forget_channel id) n.
Proof.
  unfold node_forget_channel, chan_forget. repeat writes_step ltac:(idtac; lazymatch goal with
    | |- runs _ _ (raise_high_water_mark _) _ => apply mark_writes
    | |- runs _ _ (_ ≫= _) _ => repeat writes_step ltac:(fail)
    end).
Qed.

Lemma prune_each_writes modified l (n : node) : node_writes (prune_each modified l) n.
Proof.
  revert modified n. induction l as [|[key r] l IH]; intros modified n; cbn [prune_each]; [apply runs_ret|].
  apply runs_bind; [|intros ? ? _; apply IH]. unfold prune_channel.
  repeat writes_step ltac:(idtac; lazymatch goal with |- runs _ _ (_ ≫= _) _ => repeat writes_step ltac:(fail) end).
Qed.

Lemma heartbeat_writes tw now (n : node) : node_writes (heartbeat tw now) n.
Proof.
  unfold heartbeat, prune_channels. repeat writes_step ltac:(idtac; lazymatch goal with
    | |- runs _ _ (prune_each _ _) _ => apply prune_each_writes
    | |- runs _ _ (_ ≫= _) _ => repeat writes_step ltac:(idtac; apply prune_each_writes)
    end).
Qed.

Lemma add_listener_writes monitor m setup (n : node) : node_writes (add_ref_listener monitor m setup) n.
Proof. unfold add_ref_listener. repeat writes_step ltac:(fail). Qed.

Lemma setup_writes id0 id new_setup path (n : node) : node_writes (setup_channel validator id0 id new_setup path) n.
Proof.
  unfold setup_channel. repeat writes_step ltac:(fail).
  all: unfold setup_stub, setup_ready; repeat writes_step ltac:(idtac; lazymatch goal with
    | |- runs _ _ (alloc_slot _) _ => apply alloc_slot_writes
    | |- runs _ _ (alloc_monitor _) _ => apply alloc_monitor_writes
    | |- runs _ _ (add_ref_listener _ _ _) _ => apply add_listener_writes
    end).
Qed.

Lemma watch_writes tx l (n : node) : node_writes (watch_each tx l) n.
Proof.
  revert n. induction l as [|[r|] l IH]; intros n; cbn [watch_each]; [apply runs_ret| |apply IH].
  apply runs_bind; [|intros ? ? _; apply IH]. unfold watch_funding. repeat writes_step ltac:(fail).
Qed.

Lemma sign_onchain_writes {B : Type} (signed : res Status B) tx (n : node) :
  node_writes (unchecked_sign_onchain_tx compute_txid signed tx) n.
Proof.
  unfold unchecked_sign_onchain_tx. repeat writes_step ltac:(idtac; lazymatch goal with
    | |- runs _ _ (watch_each _ _) _ => apply watch_writes
    end).
Qed.

Lemma check_onchain_writes now tx flags prev ucks opaths (n : node) :
  node_writes (check_onchain_tx validator compute_txid now tx flags prev ucks opaths) n.
Proof. unfold check_onchain_tx. repeat writes_step ltac:(fail). Qed.

Lemma on_state_writes {B : Type} (f : NodeState -> res Status (B * NodeState)) (n : node) : node_writes (on_state f) n.
Proof. unfold on_state. repeat writes_step ltac:(fail). Qed.

Lemma add_payment_writes hash (f : NodeState -> res Status (bool * NodeState)) (n : node) :
  node_writes (node_add_payment hash f) n.
Proof. unfold node_add_payment. repeat writes_step ltac:(fail). Qed.

Lemma add_allowlist_writes adds (n : node) : node_writes (node_add_allowlist allowable_to_string adds) n.
Proof. unfold node_add_allowlist. repeat writes_step ltac:(fail). Qed.

Lemma set_allowlist_writes l (n : node) : node_writes (node_set_allowlist allowable_to_string l) n.
Proof. unfold node_set_allowlist. repeat writes_step ltac:(fail). Qed.

Ltac tracker_writes :=
  match goal with |- context [on_tracker ?m ?n] =>
    let n' := fresh in let o := fresh in let Ht := fresh in
    destruct (on_tracker m n) as [n' o] eqn:Ht; apply on_tracker_store in Ht as [? ->]
  end; apply set_writes; [reflexivity|]; repeat writes_step ltac:(fail).

Lemma add_block_writes header p (n : node) : node_writes (add_block_request validator compute_txid header p) n.
Proof. unfold add_block_request. do 3 runs_step fail. tracker_writes. Qed.

Lemma remove_block_writes p header filter (n : node) : node_writes (remove_block_request validator compute_txid p header filter) n.
Proof. unfold remove_block_request. do 3 runs_step fail. tracker_writes. Qed.

Lemma block_chunk_writes hash offset content (n : node) : node_writes (block_chunk_request compute_txid hash offset content) n.
Proof. unfold block_chunk_request. runs_step fail. tracker_writes. Qed.

(** ** Requests of a channel *)
Definition writes_only (n n' : node) : Prop := moves n.(persister) n'.(persister).

Lemma writes_only_trans (n n' : node) : rtc writes_only n n' -> moves n.(persister) n'.(persister).
Proof. induction 1 as [|n1 n2 n3 Hstep _ IH]; [apply rtc_refl|]. by etrans. Qed.

Lemma writes_only_runs {E B : Type} (m : method node E B) (n : node) :
  node_writes m n -> runs writes_only (fun n : node => n) m n.
Proof. intros Hm. by apply rtc_once. Qed.

Lemma channel_request_writes version dbid id msg (n : node) :
  node_writes (channel_do_handle validator set_iter persist (mkChannelHandler version dbid id) msg) n.
Proof.
  apply writes_only_trans.
  exact (channel_request_runs validator set_iter (fun z => z) persist writes_only id
    (fun B f n _ => writes_only_runs _ n (with_channel_writes id f n))
    (fun st n => writes_only_runs _ n (setup_writes id None st [] n))
    (fun o n => writes_only_runs _ n (lock_writes id o n)) version dbid msg n).
Qed.

(** ** Requests of the node *)
Abbreviation root_writes := (runs session_step (fun s : A * Node (P:=CloudKVVStore L) => s.2.(persister))) (only parsing).

Lemma on_node_writes {B : Type} (m : method node Status B) s : node_writes m s.2 -> root_writes (on_node m) s.
Proof. destruct s as [a n]. unfold runs, on_node. cbn [snd]. by destruct (m n) as [n' r]. Qed.

Lemma on_approver_writes {B : Type} (m : method A Status B) s : root_writes (on_approver (P:=CloudKVVStore L) m) s.
Proof. destruct s as [a n]. unfold runs, on_approver. destruct (m a). apply rtc_refl. Qed.

Lemma base_writes {B : Type} id (r : res Status B) (f : Channel -> res Status B) (n : node) :
  node_writes (with_channel_base id r f) n.
Proof. unfold with_channel_base. repeat runs_step fail. Qed.

Lemma input_sources_writes utxos l (n : node) : node_writes (input_sources utxos l) n.
Proof.
  revert n. induction l as [|i l IH]; intros n; cbn [input_sources]; [apply runs_ret|].
  repeat writes_step ltac:(idtac; first [apply IH | unfold unilateral_close_key; runs_step fail; apply with_channel_writes]).
Qed.

Lemma proposed_onchain_writes now tx flags prev ucks opaths s :
  root_writes (handle_proposed_onchain (I:=I) validator compute_txid now tx flags prev ucks opaths) s.
Proof.
  destruct s as [a n]. unfold handle_proposed_onchain.
  pose proof (check_onchain_writes now tx flags prev ucks opaths n) as Hc. unfold runs in Hc |- *.
  destruct (check_onchain_tx _ _ _ _ _ _ _ _ n) as [n' r]. cbn [snd fst] in *.
  destruct r as [u|ve|]; [exact Hc| |exact Hc]. destruct (kind ve); try exact Hc.
  etrans; [exact Hc|]. apply (on_approver_writes _ (a, n')).
Qed.

Lemma withdrawal_writes now streamed utxos s :
  root_writes (sign_withdrawal (I:=I) validator compute_txid now streamed utxos) s.
Proof.
  unfold sign_withdrawal.
  repeat runs_step ltac:(idtac; lazymatch goal with
  | |- runs _ _ (handle_proposed_onchain _ _ _ _ _ _ _ _) _ => apply proposed_onchain_writes
  | |- runs _ _ (on_node (input_sources _ _)) _ => apply on_node_writes, input_sources_writes
  | |- runs _ _ (on_node _) _ => apply on_node_writes, sign_onchain_writes
  end).
Qed.

Lemma proposed_invoice_writes secs now (invoice : I) s :
  root_writes (handle_proposed_invoice validator policy timeless_workaround secs now invoice) s.
Proof.
  unfold handle_proposed_invoice. destruct (payment_state_from_invoice invoice) as [[hash ps] ih].
  repeat runs_step ltac:(idtac; lazymatch goal with
  | |- runs _ _ (on_approver _) _ => apply on_approver_writes
  | |- runs _ _ (on_node _) _ => apply on_node_writes, add_payment_writes
  end).
Qed.

Lemma proposed_keysend_writes secs now now' now'' payee hash amount s :
  root_writes (handle_proposed_keysend (I:=I) policy secs now now' now'' payee hash amount) s.
Proof.
  unfold handle_proposed_keysend. destruct (payment_state_from_keysend _ _ _ _) as [ps ih].
  repeat runs_step ltac:(idtac; lazymatch goal with
  | |- runs _ _ (on_approver _) _ => apply on_approver_writes
  | |- runs _ _ (on_node _) _ => apply on_node_writes, add_payment_writes
  end).
Qed.

Lemma anchorspend_writes now id utxos streamed s :
  root_writes (sign_anchorspend (I:=I) validator compute_txid now id utxos streamed) s.
Proof.
  unfold sign_anchorspend.
  repeat runs_step ltac:(idtac; lazymatch goal with
  | |- runs _ _ (sign_withdrawal _ _ _ _ _) _ => apply withdrawal_writes
  | |- runs _ _ (on_node _) _ => apply on_node_writes, with_channel_writes
  end).
Qed.

Ltac read_only := unfold read_channel; repeat runs_step ltac:(idtac; first [apply with_channel_writes | apply base_writes | apply on_state_writes]).

Ltac root_write :=
  idtac; lazymatch goal with
  | |- runs _ _ (sign_withdrawal _ _ _ _ _) _ => apply withdrawal_writes
  | |- runs _ _ (sign_anchorspend _ _ _ _ _ _) _ => apply anchorspend_writes
  | |- runs _ _ (handle_proposed_invoice _ _ _ _ _ _) _ => apply proposed_invoice_writes
  | |- runs _ _ (handle_proposed_keysend _ _ _ _ _ _ _ _) _ => apply proposed_keysend_writes
  | |- runs _ _ (on_node ?m) _ =>
      apply on_node_writes;
      lazymatch m with
      | node_new_channel _ _ _ => apply new_writes
      | node_forget_channel _ => apply forget_writes
      | heartbeat _ _ => apply heartbeat_writes
      | with_channel_base _ _ _ => apply base_writes
      | sign_invoice_request _ _ _ => unfold sign_invoice_request; read_only
      | sign_bolt12_invoice_request _ _ _ _ _ => unfold sign_bolt12_invoice_request; read_only
      | sign_commitment_tx_request _ _ _ _ _ _ => unfold sign_commitment_tx_request; read_only
      | add_block_request _ _ _ _ => apply add_block_writes
      | remove_block_request _ _ _ _ _ => apply remove_block_writes
      | block_chunk_request _ _ _ _ => apply block_chunk_writes
      | sign_delayed_payment_to_us _ _ _ _ _ => unfold sign_delayed_payment_to_us; read_only
      | sign_remote_htlc_to_us _ _ _ _ _ => unfold sign_remote_htlc_to_us; read_only
      | sign_penalty_to_us _ _ _ _ _ => unfold sign_penalty_to_us; read_only
      | sign_local_htlc_tx _ _ _ _ _ => unfold sign_local_htlc_tx; read_only
      | sign_channel_announcement _ _ => unfold sign_channel_announcement; read_only
      | check_channel_state_sync _ _ => unfold check_channel_state_sync; repeat runs_step fail
      end
  end.

Lemma root_request_writes msg s :
  root_writes (root_do_handle validator policy compute_txid persist timeless_workaround developer equal clocks msg) s.
Proof. unfold root_do_handle, root_chain_request, root_sweep_request. destruct msg; repeat runs_step ltac:(root_write). Qed.

Lemma init_request_writes msg (s : InitHandler * node) :
  runs session_step (fun s : InitHandler * node => s.2.(persister)) (init_handle allowable_to_string developer msg) s.
Proof.
  assert (Hset : forall v s, runs session_step (fun s : InitHandler * node => s.2.(persister)) (set_version v) s)
    by (intros v [? ?]; apply rtc_refl).
  assert (Hnode : forall l s, runs session_step (fun s : InitHandler * node => s.2.(persister))
                    (on_init_node (node_add_allowlist allowable_to_string l)) s).
  { intros l [h n]. pose proof (add_allowlist_writes l n) as Hl. unfold runs, on_init_node in *. cbn [snd].
    by destruct (node_add_allowlist _ l n). }
  unfold init_handle. do 2 runs_step fail. unfold init_do_handle. runs_step fail.
  destruct msg; try unfold hsmd_init; repeat runs_step ltac:(idtac; first [apply Hset | apply Hnode]).
Qed.

(** ** Building the node *)
Lemma restore_channels_writes height listeners l (n : node) : node_writes (restore_channels set_iter height listeners l) n.
Proof.
  revert listeners n. induction l as [|[id entry] l IH]; intros listeners n; cbn [restore_channels]; [apply runs_ret|].
  apply runs_bind; [|intros ? ? _; apply IH]. unfold restore_channel, restore_ready, restore_ids.
  repeat writes_step ltac:(idtac; lazymatch goal with
    | |- runs _ _ (alloc_slot _) _ => apply alloc_slot_writes
    | |- runs _ _ (alloc_monitor _) _ => apply alloc_monitor_writes
    | |- runs _ _ (_ ≫= _) _ => repeat writes_step ltac:(fail)
    end).
Qed.

Lemma Node_new_persister genesis checkpoint config id allow or (p : cloud) n :
  Node_new validator genesis checkpoint config id allow or p = Ok n -> n.(persister) = p.
Proof.
  unfold Node_new. intros (g & _ & (f & _ & (t & _ & Hn)%bind_Ok)%bind_Ok)%bind_Ok. unfold new_full in Hn.
  apply bind_Ok in Hn as (g' & _ & Hn). by apply bind_Ok in Hn as (f' & _ & [= <-]).
Qed.

Lemma restore_node_writes checkpoint derived or id entry (p : cloud) n :
  restore_node validator set_iter allowable_to_string checkpoint derived or id entry p = Ok n -> moves p n.(persister).
Proof.
  unfold restore_node. intros (net & _ & (style & _ & (strings & _ & (allow & _ & (n1 & Hn1 & Hn)%bind_Ok)%bind_Ok)%bind_Ok)%bind_Ok)%bind_Ok.
  assert (Hp1 : moves p n1.(persister)).
  { unfold node_from_persistence in Hn1. apply bind_Ok in Hn1 as (_ & _ & Hn1). apply bind_Ok in Hn1 as ([t l] & _ & Hn1).
    apply bind_Ok in Hn1 as (n0 & Hn0 & Hn1). apply bind_Ok in Hn1 as (entries & _ & Hn1).
    assert (n0.(persister) = p) as <-.
    { unfold new_full in Hn0. apply bind_Ok in Hn0 as (? & _ & Hn0). by apply bind_Ok in Hn0 as (? & _ & [= <-]). }
    pose proof (restore_channels_writes t.(tracker_height) (list_to_map (reverse l)) entries n0) as Hw. unfold runs in Hw.
    destruct (restore_channels _ _ _ _ n0) as [n2 r]. apply bind_Ok in Hn1 as (? & _ & Hn1).
    by apply bind_Ok in Hn1 as (? & _ & [= <-]). }
  cbv zeta in Hn. match type of Hn with context [maybe_sync_persister _ ?x] => set (n2 := x) in Hn end.
  assert (Hp2 : n2.(persister) = n1.(persister)) by (unfold n2; by repeat case_match).
  unfold maybe_sync_persister in Hn. rewrite get_bind in Hn.
  cbn [p_on_initial_restore cloud_persist KVVPersister_persist default_on_initial_restore] in Hn. rewrite set_bind in Hn.
  cbn in Hn. injection Hn as <-. cbn. by rewrite Hp2.
Qed.

Context (genesis_header : Network -> BlockHeader) (get_latest_checkpoint : Network -> option (Z * Headers)).
Context (network : Network) (derived_id : PublicKey) (oracles : list PublicKey) (build_allowlist : list string) (max_version : Z).
Context (approver : A).

Lemma build_writes (p : cloud) w :
  daemon_build validator set_iter allowable_to_string genesis_header get_latest_checkpoint network derived_id oracles
    build_allowlist max_version approver p = Ok w -> moves p w.(dh_node).(persister).
Proof.
  unfold daemon_build, handler_build. intros ([h n] & Hb & [= <-])%bind_Ok. cbn [dh_node].
  apply bind_Ok in Hb as (nodes & _ & Hb). apply bind_Ok in Hb as (n' & Hn & [= <- <-]). rewrite map_err_Ok in Hn.
  destruct nodes as [|[id entry] [|]]; [|by eapply restore_node_writes|done].
  apply bind_Ok in Hn as (n0 & Hn0 & Hn). apply Node_new_persister in Hn0 as <-.
  unfold persist_new_node in Hn. pose proof (add_allowlist_writes build_allowlist n0) as Hl. unfold runs in Hl.
  destruct (node_add_allowlist _ _ n0) as [n1 [u| |]]; cbn [fst] in Hl; try done. etrans; [exact Hl|].
  match type of Hn with context [?m n1] => assert (Hm : node_writes m n1) by (repeat writes_step ltac:(fail)); unfold runs in Hm; destruct (m n1) as [n2 r] end.
  by apply bind_Ok in Hn as (? & _ & [= <-]).
Qed.

(** ** The handlers of the daemon *)
#[local] Instance real_handlers : SignerHandler DaemonHandlers cloud :=
  daemon_handlers validator policy compute_txid set_iter persist timeless_workaround developer equal clocks
    allowable_to_string genesis_header get_latest_checkpoint network derived_id oracles build_allowlist max_version approver.

Lemma daemon_session_handler : SessionHandler DaemonHandlers L.
Proof.
  split.
  - done.
  - intros msg [h root a n]. pose proof (root_request_writes msg (a, n)) as Hw. cbn. unfold runs in Hw.
    unfold daemon_handle, root_handle. cbn [dh_approver dh_node dh_init dh_root].
    by destruct (root_do_handle _ _ _ _ _ _ _ _ _ _) as [[a' n'] r].
  - intros peer dbid msg [h root a n]. cbn. unfold daemon_channel_handle. cbn [dh_root dh_node dh_init dh_approver].
    destruct root as [root|]; [|apply rtc_refl]. unfold channel_handle. destruct (for_new_client root peer dbid) as [v d id].
    pose proof (channel_request_writes v d id msg n) as Hw. unfold runs in Hw. by destruct (channel_do_handle _ _ _ _ _ _) as [n' r].
  - intros msg [h root a n]. pose proof (init_request_writes msg (h, n)) as Hw. cbn. unfold runs in Hw.
    unfold daemon_init_handle. cbn [dh_root dh_node dh_init dh_approver]. by destruct (init_handle _ _ _ _) as [[h' n'] r].
  - intros w w' (root & _ & [= <-])%bind_Ok. done.
  - intros p w. apply build_writes.
  - intros l [h root a n]. pose proof (set_allowlist_writes l n) as Hw. unfold runs in Hw. cbn. unfold reset_allowlist.
    cbn [dh_root dh_node dh_init dh_approver]. by destruct (node_set_allowlist _ _ _) as [n' r].
Qed.

(** ** The whole signer *)
Section WholeSigner.
Context `{LssLaws} {D : Type} `{!Database D} `{!DatabaseLaws D} `{!KVVLaws L} `{!MessageCodec} `{!EqDecision SecpPublicKey}.
Context (client_key : SecpSecretKey) (server_id : SecpPublicKey) (helper : ExternalPersistHelper).
Context (Hhelper : helper.(shared_secret) = (new_for_client client_key server_id).(pa_shared_secret)).

End WholeSigner.
End Writes.

(** ** A signer to evaluate the model *)
Section WholeSamples.
#[local] Instance whole_profile : Profile := release_profile.
#[local] Existing Instance sample_chain_packages.
#[local] Existing Instance sample_provider.
#[local] Existing Instance sample_signer.
#[local] Existing Instance sample_checks.
#[local] Existing Instance sample_node_transactions.
#[local] Existing Instance unit_invoice.
#[local] Existing Instance SimpleValidator_policy.
#[local] Existing Instance sample_input_signer.
#[local] Existing Instance sample_keys_manager.
#[local] Existing Instance sample_codec.
#[local] Existing Instance format_stored.
#[local] Existing Instance format_state.
#[local] Existing Instance format_channel.
#[local] Existing Instance format_allowlist.
#[local] Existing Instance format_tracker.
#[local] Instance whole_persist : Persist (CloudKVVStore MemoryKVVStore) := KVVPersister_persist id.

#[local] Instance whole_handlers : SignerHandler DaemonHandlers (CloudKVVStore MemoryKVVStore) :=
  daemon_handlers (I:=unit) (A:=PositiveApprover) sample_policy sample_policy sample_txid elements always_persists false false
    (fun _ _ => true) no_clocks (fun _ => "entry") (fun _ => block_header (sample_headers 0)) (fun _ => None) Bitcoin 7 [] []
    6 mkPositiveApprover.

#[local] Instance whole_messages : MessageCodec := {|
  message_from_vec l := match l with [0] => Ok (HsmdInit2 false []) | [1] => Ok (NewChannel (replicate 33 3) 5) | _ => Err BadFraming end;
  reply_as_vec _ := []
|}.

Definition whole_node : Node (P:=CloudKVVStore MemoryKVVStore) :=
  let n := started in
  mkNode n.(node_id) n.(node_config) n.(channels) n.(slots) n.(monitors) n.(next_ref) n.(tracker) n.(node_state)
    (Cloud.new (mkMemory recorded [7])).

Definition whole_daemon : Daemon (W:=DaemonHandlers) (N:=LssClient (StorageServer RedbDatabase)) :=
  mkDaemon (mkDaemonHandlers (mkInitHandler 6 None) None mkPositiveApprover whole_node)
    (Some (mkExternalPersistWithHelper (my_client (false : @SecpSecretKey sample_lss_packages) true recorded_server) ∅ sample_helper)).

Definition whole_requests : list SignerRequest := [mkSignerRequest 1 [0] None; mkSignerRequest 2 [1] None].

End WholeSamples.
