(* ===== verification/CryptoUtils.v ===== *)
(** * Cryptographic helpers: [vls-core/src/util/crypto_utils.rs]

    The key derivation function, the text form of a signed message, signatures
    with their hash type, and signing with fresh randomness until the signature
    is short.  HMAC, ECDSA and hashing come from other packages.  The theorems compare the
    key derivation with RFC 5869 and the text form with the bit string that it
    spells, and show when the grinding loop stops. *)
From S2P Require Import Prelude Types Bitcoin TxValidator.

(** HMAC-SHA256 of the bytes given to an engine, ECDSA with additional nonce data,
    the compact form of a signature and its DER bytes. *)
Class SecpSign := {
  sign_ecdsa_low_r : Z -> SecretKey -> Signature;
  sign_ecdsa_with_noncedata : Z -> SecretKey -> list Z -> Signature;
  serialize_compact_0 : Signature -> Z;
  serialize_der : Signature -> list Z;
  from_der : list Z -> option Signature
}.

Class HmacSha256 := hmac_sha256 : list Z -> list Z -> list Z.

(** ** Key derivation

    [output] is a buffer of [len] bytes; [chunks_mut] gives pieces of 32 bytes and
    [copy_from_slice] panics on a shorter one. *)
Fixpoint chunk_lens (fuel len : nat) : list nat :=
  match fuel with
  | O => []
  | S fuel' => if (len =? 0)%nat then [] else Nat.min 32 len :: chunk_lens fuel' (len - 32)
  end.

Section Hkdf.
Context `{HmacSha256}.

Fixpoint hkdf_chunks {E : Type} (prk info t : list Z) (n : Z) (chunks : list nat) : res E (list Z) :=
  match chunks with
  | [] => Ok []
  | chunk :: chunks' =>
      n ← unwrap (checked_add 8 n 1);
      let t := hmac_sha256 prk ((if n =? 1 then [] else t) ++ info ++ [n]) in
      rassert (length t =? chunk)%nat ;;
      rest ← hkdf_chunks prk info t n chunks';
      Ok (t ++ rest)
  end.

Definition hkdf_extract_expand {E : Type} (salt secret info : list Z) (len : nat) : res E (list Z) :=
  let prk := hmac_sha256 salt secret in
  hkdf_chunks prk info (replicate 32 0) 0 (chunk_lens len len).

Definition hkdf_sha256 {E : Type} (secret info salt : list Z) : res E (list Z) :=
  hkdf_extract_expand salt secret info 32.

Definition hkdf_sha256_keys {E : Type} (secret info salt : list Z) : res E (list Z) :=
  hkdf_extract_expand salt secret info (32 * 6).
End Hkdf.

(** ** Signatures with their hash type *)
Definition sighash_u8 (t : EcdsaSighashType) : Z :=
  match t with SighashAll => 0x01 | SighashSinglePlusAnyoneCanPay => 0x83 end.

Inductive SecpError := InvalidSignature.

Section Signatures.
Context `{SecpSign}.

Definition signature_to_bitcoin_vec (sig : Signature) : list Z := serialize_der sig ++ [sighash_u8 SighashAll].

(** [pop] takes the hash type off the end. *)
Definition bitcoin_vec_to_signature (sigvec : list Z) (sighash_type : EcdsaSighashType) : res SecpError Signature :=
  match last sigvec with
  | None => Err InvalidSignature
  | Some mode =>
      if negb (mode =? sighash_u8 sighash_type) then Err InvalidSignature
      else ok_or InvalidSignature (from_der (take (length sigvec - 1) sigvec))
  end.

Definition sign (msg : Z) (sk : SecretKey) : Signature := sign_ecdsa_low_r msg sk.

(** The loop draws until a signature is short; [entropy] is what the source
    returns, draw by draw. *)
Fixpoint sign_with_aux_rand (fuel : nat) (msg : Z) (sk : SecretKey) (entropy : nat -> list Z) : option Signature :=
  match fuel with
  | O => None
  | S fuel' =>
      let sig := sign_ecdsa_with_noncedata msg sk (entropy 0%nat) in
      if serialize_compact_0 sig <? 0x80 then Some sig
      else sign_with_aux_rand fuel' msg sk (fun k => entropy (S k))
  end.
End Signatures.

(** ** The text form of a signed message *)
Definition ZBASE_ALPHABET : list Z :=
  [121; 98; 110; 100; 114; 102; 103; 56; 101; 106; 107; 109; 99; 112; 113; 120;
   111; 116; 49; 117; 119; 105; 115; 122; 97; 51; 52; 53; 104; 55; 54; 57].

(** The indices that the eight pushes of a chunk look up. *)
Definition zbase32_indices (b0 b1 b2 b3 b4 : Z) : list Z :=
  [Z.shiftr (Z.land b0 0xF8) 3;
   Z.lor (Z.shiftl (Z.land b0 0x07) 2) (Z.shiftr (Z.land b1 0xC0) 6);
   Z.shiftr (Z.land b1 0x3E) 1;
   Z.lor (Z.shiftl (Z.land b1 0x01) 4) (Z.shiftr (Z.land b2 0xF0) 4);
   Z.lor (Z.shiftl (Z.land b2 0x0F) 1) (Z.shiftr b3 7);
   Z.shiftr (Z.land b3 0x7C) 2;
   Z.lor (Z.shiftl (Z.land b3 0x03) 3) (Z.shiftr (Z.land b4 0xE0) 5);
   Z.land b4 0x1F].

Definition alphabet_at {E : Type} (i : Z) : res E Z := unwrap (ZBASE_ALPHABET !! Z.to_nat i).

(** The last chunk is padded with zero bytes. *)
Definition zbase32_chunk {E : Type} (chunk : list Z) : res E (list Z) :=
  let at_ i := default 0 (chunk !! i) in
  map_res alphabet_at (zbase32_indices (at_ 0%nat) (at_ 1%nat) (at_ 2%nat) (at_ 3%nat) (at_ 4%nat)).

(** [data.chunks(5)]. *)
Fixpoint chunks5 (fuel : nat) (data : list Z) : list (list Z) :=
  match fuel, data with
  | S fuel', _ :: _ => take 5 data :: chunks5 fuel' (drop 5 data)
  | _, _ => []
  end.

Definition zbase32_encode {E : Type} (data : list Z) : res E (list Z) :=
  let output_length := ((length data * 8 + 4) / 5)%nat in
  ret ← map_res zbase32_chunk (chunks5 (length data) data);
  Ok (take output_length (mjoin ret)).

Definition encode_signed_message `{Profile} {E : Type} (sig_and_recid : list Z) : res E (list Z) :=
  recid ← unwrap (sig_and_recid !! 64%nat);
  first ← arith 8 (recid + 31);
  zbase32_encode (first :: take 64 sig_and_recid).

(** ** RFC 5869 *)
Module Rfc5869.
Section Rfc.
Context `{HmacSha256}.

(** [T(0)] is empty and [T(i) = HMAC-Hash(PRK, T(i-1) | info | i)]. *)
Fixpoint T (prk info : list Z) (i : nat) : list Z :=
  match i with
  | O => []
  | S j => hmac_sha256 prk (T prk info j ++ info ++ [Z.of_nat i])
  end.

(** The first [32 * n] octets of [T(1) | T(2) | ...]. *)
Definition okm (salt secret info : list Z) (n : nat) : list Z :=
  mjoin (T (hmac_sha256 salt secret) info <$> seq 1 n).
End Rfc.
End Rfc5869.

(** SHA-256 has 32 bytes. *)
Definition hmac_len `{HmacSha256} : Prop := forall key data, length (hmac_sha256 key data) = 32%nat.

Section HkdfLemmas.
Context `{HmacSha256} (Hlen : hmac_len).

Lemma chunk_lens_whole (fuel n r : nat) :
  (r < 32)%nat -> (32 * n + r <= fuel)%nat ->
  chunk_lens fuel (32 * n + r) = replicate n 32%nat ++ (if (r =? 0)%nat then [] else [r]).
Proof.
  intros Hr. revert n. induction fuel as [|fuel IH]; intros n Hf.
  - assert (n = 0 /\ r = 0)%nat as [-> ->] by lia. done.
  - cbn [chunk_lens]. destruct (Nat.eqb_spec (32 * n + r) 0) as [He|He].
    + assert (n = 0 /\ r = 0)%nat as [-> ->] by lia. done.
    + destruct n as [|n].
      * replace (32 * 0 + r - 32)%nat with 0%nat by lia. replace (Nat.min 32 (32 * 0 + r)) with r by lia.
        destruct (Nat.eqb_spec r 0); [lia|]. destruct fuel; reflexivity.
      * replace (32 * S n + r - 32)%nat with (32 * n + r)%nat by lia.
        replace (Nat.min 32 (32 * S n + r)) with 32%nat by lia. rewrite IH; [done|lia].
Qed.

Lemma hkdf_chunks_rfc {E : Type} (prk info t : list Z) (i n : nat) (rest : list nat) :
  (i = 0%nat \/ t = Rfc5869.T prk info i) -> (i <= 255)%nat ->
  hkdf_chunks (E:=E) prk info t (Z.of_nat i) (replicate n 32%nat ++ rest) =
  if (i + n <=? 255)%nat
  then out ← hkdf_chunks prk info (if (n =? 0)%nat then t else Rfc5869.T prk info (i + n)) (Z.of_nat (i + n)) rest;
       Ok (mjoin (Rfc5869.T prk info <$> seq (S i) n) ++ out)
  else Panic.
Proof.
  revert i t. induction n as [|n IH]; intros i t Ht Hi.
  - rewrite Nat.add_0_r. destruct (Nat.leb_spec i 255); [|lia]. cbn [replicate app Nat.eqb].
    destruct (hkdf_chunks prk info t (Z.of_nat i) rest); reflexivity.
  - cbn [replicate app hkdf_chunks]. destruct (decide (i = 255%nat)) as [->|Hne].
    { destruct (Nat.leb_spec (255 + S n) 255); [lia|reflexivity]. }
    assert (Hadd : checked_add 8 (Z.of_nat i) 1 = Some (Z.of_nat (S i))).
    { unfold checked_add, checked, in_range.
      destruct (Z.leb_spec 0 (Z.of_nat i + 1)), (Z.ltb_spec (Z.of_nat i + 1) (2 ^ 8)); try lia.
      cbn [andb]. f_equal. lia. }
    rewrite Hadd. cbn [unwrap mbind res_bind].
    assert (HT : hmac_sha256 prk ((if Z.of_nat (S i) =? 1 then [] else t) ++ info ++ [Z.of_nat (S i)])
                 = Rfc5869.T prk info (S i)).
    { cbn [Rfc5869.T]. f_equal. f_equal. destruct (Z.eqb_spec (Z.of_nat (S i)) 1).
      - by assert (i = 0%nat) as -> by lia.
      - destruct Ht as [->|Ht]; [lia|done]. }
    rewrite HT. assert (Hl : length (Rfc5869.T prk info (S i)) = 32%nat) by apply Hlen.
    rewrite Hl, Nat.eqb_refl. unfold rassert. cbn [mbind res_bind].
    rewrite IH by (first [by right|lia]). replace (S i + n)%nat with (i + S n)%nat by lia.
    destruct (Nat.leb_spec (i + S n) 255); [|reflexivity]. cbn [Nat.eqb seq fmap list_fmap].
    replace (if (n =? 0)%nat then Rfc5869.T prk info (S i) else Rfc5869.T prk info (i + S n))
      with (Rfc5869.T prk info (i + S n)) by (destruct n; [by replace (i + 1)%nat with (S i) by lia|done]).
    destruct (hkdf_chunks prk info (Rfc5869.T prk info (i + S n)) (Z.of_nat (i + S n)) rest); [|reflexivity..].
    cbn [mbind res_bind]. f_equal. cbn [mjoin list_join]. by rewrite <- app_assoc.
Qed.
End HkdfLemmas.

(** ** Text as a bit string *)

(** Bits with the most significant one first, and the digit of up to five bits. *)
Definition byte_bits (b : Z) : list bool := Z.testbit b <$> [7; 6; 5; 4; 3; 2; 1; 0].
Definition bits (data : list Z) : list bool := mjoin (byte_bits <$> data).
Definition bits_value (bs : list bool) : Z := fold_left (fun v (b : bool) => 2 * v + Z.b2z b) bs 0.

Definition quintet (bs : list bool) : Z := bits_value (take 5 (bs ++ replicate 4 false)).

Fixpoint quintets (fuel : nat) (bs : list bool) : list Z :=
  match fuel, bs with
  | S fuel', _ :: _ => quintet bs :: quintets fuel' (drop 5 bs)
  | _, _ => []
  end.

Definition digit (v : Z) : Z := default 0 (ZBASE_ALPHABET !! Z.to_nat v).

(** The characters that spell a bit string, and how they are read back. *)
Definition spell (bs : list bool) : list Z := digit <$> quintets (length bs) bs.

Definition undigit (c : Z) : Z :=
  match list_find (fun c' => c' = c) ZBASE_ALPHABET with Some (i, _) => Z.of_nat i | None => 0 end.

Definition read_bits (text : list Z) : list bool :=
  mjoin ((fun c => Z.testbit (undigit c) <$> [4; 3; 2; 1; 0]) <$> text).

Fixpoint octets (n : nat) (bs : list bool) : list Z :=
  match n with O => [] | S n' => bits_value (take 8 bs) :: octets n' (drop 8 bs) end.

Definition zbase32_decode (n : nat) (text : list Z) : list Z := octets n (read_bits text).

Definition is_byte (b : Z) : Prop := 0 <= b < 256.
Definition all_bytes : list Z := Z.of_nat <$> seq 0 256.

Lemma all_bytes_spec (b : Z) : is_byte b -> b ∈ all_bytes.
Proof. intros Hb. apply list_elem_of_fmap. exists (Z.to_nat b). unfold is_byte in Hb. rewrite elem_of_seq. lia. Qed.

(** A property of bytes that is checked on all of them. *)
Lemma each_byte (P : Z -> bool) : forallb P all_bytes = true -> forall b, is_byte b -> P b = true.
Proof. intros HP b Hb. rewrite forallb_forall in HP. apply HP, list_elem_of_In. by apply all_bytes_spec. Qed.

Lemma each_pair (P : Z -> Z -> bool) :
  forallb (fun a => forallb (P a) all_bytes) all_bytes = true -> forall a b, is_byte a -> is_byte b -> P a b = true.
Proof. intros HP a b Ha Hb. eapply (each_byte (P a)); [|done]. by apply (each_byte (fun a => forallb (P a) all_bytes)). Qed.

Lemma indices_bits (b0 b1 b2 b3 b4 : Z) :
  is_byte b0 -> is_byte b1 -> is_byte b2 -> is_byte b3 -> is_byte b4 ->
  zbase32_indices b0 b1 b2 b3 b4 =
  [bits_value (Z.testbit b0 <$> [7; 6; 5; 4; 3]);
   bits_value ((Z.testbit b0 <$> [2; 1; 0]) ++ (Z.testbit b1 <$> [7; 6]));
   bits_value (Z.testbit b1 <$> [5; 4; 3; 2; 1]);
   bits_value ((Z.testbit b1 <$> [0]) ++ (Z.testbit b2 <$> [7; 6; 5; 4]));
   bits_value ((Z.testbit b2 <$> [3; 2; 1; 0]) ++ (Z.testbit b3 <$> [7]));
   bits_value (Z.testbit b3 <$> [6; 5; 4; 3; 2]);
   bits_value ((Z.testbit b3 <$> [1; 0]) ++ (Z.testbit b4 <$> [7; 6; 5]));
   bits_value (Z.testbit b4 <$> [4; 3; 2; 1; 0])].
Proof.
  intros H0 H1 H2 H3 H4. unfold zbase32_indices.
  repeat f_equal; apply Z.eqb_eq.
  - revert b0 H0. apply each_byte. vm_compute. reflexivity.
  - revert b0 b1 H0 H1. apply each_pair. vm_compute. reflexivity.
  - revert b1 H1. apply each_byte. vm_compute. reflexivity.
  - revert b1 b2 H1 H2. apply each_pair. vm_compute. reflexivity.
  - revert b2 b3 H2 H3. apply each_pair. vm_compute. reflexivity.
  - revert b3 H3. apply each_byte. vm_compute. reflexivity.
  - revert b3 b4 H3 H4. apply each_pair. vm_compute. reflexivity.
  - revert b4 H4. apply each_byte. vm_compute. reflexivity.
Qed.

Lemma alphabet_at_bits {E : Type} (a b c d e : bool) :
  alphabet_at (E:=E) (bits_value [a; b; c; d; e]) = Ok (digit (bits_value [a; b; c; d; e])).
Proof. by destruct a, b, c, d, e. Qed.

Lemma undigit_bits (a b c d e : bool) :
  Z.testbit (undigit (digit (bits_value [a; b; c; d; e]))) <$> [4; 3; 2; 1; 0] = [a; b; c; d; e].
Proof. destruct a, b, c, d, e; vm_compute; reflexivity. Qed.

Lemma byte_value (b : Z) : is_byte b -> bits_value (byte_bits b) = b.
Proof. intros Hb. apply Z.eqb_eq. revert b Hb. apply each_byte. vm_compute. reflexivity. Qed.

(** A chunk of one to five bytes spells its bits. *)
Lemma chunk_spells {E : Type} (chunk : list Z) :
  (1 <= length chunk <= 5)%nat -> Forall is_byte chunk ->
  exists text, zbase32_chunk (E:=E) chunk = Ok text /\ length text = 8%nat /\
    take ((length chunk * 8 + 4) / 5) text = spell (bits chunk).
Proof.
  intros Hlen Hb. assert (H0 : is_byte 0) by (unfold is_byte; lia).
  destruct chunk as [|b0 [|b1 [|b2 [|b3 [|b4 [|]]]]]]; cbn [length] in Hlen; try lia; clear Hlen;
    rewrite ?Forall_cons in Hb; destruct_and?; unfold zbase32_chunk; cbn [lookup list_lookup default];
    rewrite indices_bits by assumption; cbn [fmap list_fmap app map_res];
    rewrite !alphabet_at_bits; cbn [mbind res_bind]; eexists; (split; [reflexivity|]);
    (split; [reflexivity|]); reflexivity.
Qed.

Lemma quintets_fuel (f1 f2 : nat) (bs : list bool) :
  (length bs <= f1)%nat -> (length bs <= f2)%nat -> quintets f1 bs = quintets f2 bs.
Proof.
  revert f2 bs. induction f1 as [|f1 IH]; intros f2 [|b bs] H1 H2; try (by destruct f2); cbn [length] in *; [lia|].
  destruct f2 as [|f2]; [lia|]. cbn [quintets]. f_equal. apply IH; rewrite length_drop; cbn [length]; lia.
Qed.

Lemma spell_step (bs : list bool) :
  bs <> [] -> spell bs = digit (quintet bs) :: spell (drop 5 bs).
Proof.
  intros Hne. unfold spell. destruct bs as [|b bs]; [done|]. cbn [length quintets fmap list_fmap]. f_equal.
  apply f_equal, quintets_fuel; rewrite length_drop; cbn [length]; lia.
Qed.

Lemma spell_app (n : nat) (bs1 bs2 : list bool) :
  length bs1 = (5 * n)%nat -> spell (bs1 ++ bs2) = spell bs1 ++ spell bs2.
Proof.
  revert bs1. induction n as [|n IH]; intros bs1 Hl; [destruct bs1; [done|cbn [length] in Hl; lia]|].
  rewrite (spell_step (bs1 ++ bs2)), (spell_step bs1) by (destruct bs1; cbn [length] in Hl; [lia|done]).
  cbn [app]. f_equal.
  - unfold quintet. by rewrite <- app_assoc, !take_app_le by lia.
  - rewrite drop_app_le by lia. apply IH. rewrite length_drop. lia.
Qed.

Lemma length_bits (data : list Z) : length (bits data) = (8 * length data)%nat.
Proof.
  induction data as [|b data IH]; [done|]. change (bits (b :: data)) with (byte_bits b ++ bits data).
  rewrite length_app, IH. cbn [length]. change (length (byte_bits b)) with 8%nat. lia.
Qed.

Lemma bits_app (l1 l2 : list Z) : bits (l1 ++ l2) = bits l1 ++ bits l2.
Proof. unfold bits. by rewrite fmap_app, join_app. Qed.

Lemma chunks_spell {E : Type} (fuel : nat) (data : list Z) :
  (length data <= fuel)%nat -> Forall is_byte data ->
  exists ret, map_res (E:=E) zbase32_chunk (chunks5 fuel data) = Ok ret /\
    take ((length data * 8 + 4) / 5) (mjoin ret) = spell (bits data).
Proof.
  revert data. induction fuel as [|fuel IH]; intros data Hf Hb; [by destruct data; [exists []|cbn [length] in Hf; lia]|].
  destruct data as [|b data]; [by exists []|]. remember (b :: data) as l eqn:El.
  assert (Hne : (1 <= length l)%nat) by (rewrite El; cbn; lia).
  destruct (chunk_spells (E:=E) (take 5 l)) as (text & Htext & Hl8 & Hspell).
  { rewrite length_take. lia. } { by apply Forall_take. }
  destruct (IH (drop 5 l)) as (ret & Hret & Hrest).
  { rewrite length_drop. lia. } { by apply Forall_drop. }
  exists (text :: ret). split.
  - replace (chunks5 (S fuel) l) with (take 5 l :: chunks5 fuel (drop 5 l)) by (by rewrite El). cbn [map_res].
    by rewrite Htext, Hret.
  - cbn [mjoin list_join]. destruct (decide (length l <= 5)%nat) as [Hle|Hgt].
    + rewrite (take_ge l) in Hspell by done. rewrite <- Hspell. apply take_app_le. rewrite Hl8.
      transitivity ((5 * 8 + 4) / 5)%nat; [apply Nat.Div0.div_le_mono; lia|reflexivity].
    + rewrite <- (take_drop 5 l) at 2. rewrite bits_app, (spell_app 8) by (rewrite length_bits, length_take; lia).
      rewrite <- Hspell, <- Hrest, length_take, length_drop. replace (Nat.min 5 (length l)) with 5%nat by lia.
      replace ((length l * 8 + 4) / 5)%nat with (8 + ((length l - 5) * 8 + 4) / 5)%nat.
      * rewrite (take_ge text) by (rewrite Hl8; reflexivity). rewrite <- Hl8 at 1. by rewrite take_app_add.
      * replace (length l * 8 + 4)%nat with (8 * 5 + ((length l - 5) * 8 + 4))%nat by lia.
        rewrite Nat.div_add_l by lia. reflexivity.
Qed.

Lemma quintet_read (bs : list bool) :
  bs <> [] -> exists pad, Z.testbit (undigit (digit (quintet bs))) <$> [4; 3; 2; 1; 0] = take 5 bs ++ replicate pad false
    /\ (5 <= length bs -> pad = 0)%nat.
Proof.
  intros Hne. unfold quintet.
  destruct bs as [|b0 [|b1 [|b2 [|b3 [|b4 bs]]]]]; [done|..]; cbn [app take replicate]; rewrite undigit_bits.
  - exists 4%nat. split; [done|cbn; lia].
  - exists 3%nat. split; [done|cbn; lia].
  - exists 2%nat. split; [done|cbn; lia].
  - exists 1%nat. split; [done|cbn; lia].
  - exists 0%nat. split; [done|done].
Qed.


Lemma read_bits_cons (c : Z) (text : list Z) :
  read_bits (c :: text) = (Z.testbit (undigit c) <$> [4; 3; 2; 1; 0]) ++ read_bits text.
Proof. reflexivity. Qed.

Lemma read_spell (n : nat) (bs : list bool) :
  (length bs <= n)%nat -> exists pad, read_bits (spell bs) = bs ++ replicate pad false.
Proof.
  revert bs. induction n as [|n IH]; intros bs Hn; [exists 0%nat; by destruct bs; [|cbn [length] in Hn; lia]|].
  destruct bs as [|b bs]; [by exists 0%nat|]. set (l := b :: bs) in *.
  rewrite spell_step, read_bits_cons by done.
  destruct (quintet_read l) as (pad & Hq & Hpad); [done|]. rewrite Hq.
  destruct (IH (drop 5 l)) as (pad' & Hr); [rewrite length_drop; assert (1 <= length l)%nat by (unfold l; cbn; lia); lia|].
  rewrite Hr.
  destruct (decide (5 <= length l)%nat) as [Hge|Hlt].
  - rewrite Hpad by done. exists pad'. cbn [replicate]. rewrite app_nil_r, app_assoc. by rewrite take_drop.
  - rewrite (drop_ge l), (take_ge l) by lia. exists (pad + pad')%nat. cbn [app].
    by rewrite replicate_add, app_assoc.
Qed.

Lemma octets_bits (data : list Z) (rest : list bool) :
  Forall is_byte data -> octets (length data) (bits data ++ rest) = data.
Proof.
  intros Hb. induction Hb as [|b data Hb Hall IH]; [done|].
  change (bits (b :: data)) with (byte_bits b ++ bits data). rewrite <- app_assoc. cbn [length octets]. f_equal.
  - rewrite take_app_length' by done. by apply byte_value.
  - rewrite drop_app_length' by done. exact IH.
Qed.

(** ** Grinding *)
Section Grinding.
Context `{SecpSign} (msg : Z) (sk : SecretKey).

Definition drawn (entropy : nat -> list Z) (k : nat) : Signature := sign_ecdsa_with_noncedata msg sk (entropy k).
Definition low_r (entropy : nat -> list Z) (k : nat) : bool := serialize_compact_0 (drawn entropy k) <? 0x80.

Lemma grind_long (entropy : nat -> list Z) (fuel : nat) :
  (forall j, (j < fuel)%nat -> low_r entropy j = false) -> sign_with_aux_rand fuel msg sk entropy = None.
Proof.
  revert entropy. induction fuel as [|fuel IH]; intros entropy Hlow; [done|]. cbn [sign_with_aux_rand].
  assert (H0 := Hlow 0%nat ltac:(lia)). unfold low_r, drawn in H0. rewrite H0. apply IH.
  intros j Hj. apply (Hlow (S j)). lia.
Qed.

Lemma grind_short (entropy : nat -> list Z) (k fuel : nat) :
  (forall j, (j < k)%nat -> low_r entropy j = false) -> low_r entropy k = true -> (k < fuel)%nat ->
  sign_with_aux_rand fuel msg sk entropy = Some (drawn entropy k).
Proof.
  revert entropy k. induction fuel as [|fuel IH]; intros entropy k Hlow Hk Hf; [lia|]. cbn [sign_with_aux_rand].
  destruct k as [|k].
  - unfold low_r, drawn in *. by rewrite Hk.
  - assert (H0 := Hlow 0%nat ltac:(lia)). unfold low_r, drawn in H0. rewrite H0.
    apply (IH (fun k => entropy (S k)) k); [|exact Hk|lia]. intros j Hj. apply (Hlow (S j)). lia.
Qed.

Lemma first_low (entropy : nat -> list Z) (n : nat) :
  low_r entropy n = true ->
  exists k, (k <= n)%nat /\ low_r entropy k = true /\ forall j, (j < k)%nat -> low_r entropy j = false.
Proof.
  intros Hn. induction (lt_wf n) as [n _ IH].
  destruct (decide (Exists (fun j => low_r entropy j = true) (seq 0 n))) as [Hex|Hno].
  - apply Exists_exists in Hex as (j & Hj & Hlow). apply elem_of_seq in Hj.
    destruct (IH j ltac:(lia) Hlow) as (k & Hk & Hrest). exists k. split; [lia|done].
  - exists n. split; [lia|]. split; [done|]. intros j Hj. destruct (low_r entropy j) eqn:Hl; [|done].
    destruct Hno. apply Exists_exists. exists j. rewrite elem_of_seq. split; [lia|done].
Qed.
End Grinding.

(** ** Samples *)
#[local] Instance sample_hmac : HmacSha256 := fun key data => replicate 32 (zsum (key ++ data) mod 256).
#[local] Instance sample_secp : SecpSign := {|
  sign_ecdsa_low_r msg sk := msg + sk;
  sign_ecdsa_with_noncedata msg sk aux := msg + sk + zsum aux;
  serialize_compact_0 sig := sig mod 256;
  serialize_der sig := [sig];
  from_der l := match l with [sig] => Some sig | _ => None end
|}.

(** ** Properties *)

(** C29: The key derivation is HKDF of RFC 5869 with SHA-256: for [n] blocks of 32 bytes
    the output is [T(1) | ... | T(n)].  A length that is not a multiple of 32, or one
    of more than 255 blocks, panics instead. *)
Theorem hkdf_is_rfc5869 `{HmacSha256} (E : Type) (salt secret info : list Z) (n r : nat) :
  hmac_len -> (r < 32)%nat ->
  hkdf_extract_expand (E:=E) salt secret info (32 * n + r) =
  if ((r =? 0) && (n <=? 255))%nat then Ok (Rfc5869.okm salt secret info n) else Panic.
Proof.
  intros Hlen Hr. unfold hkdf_extract_expand. rewrite chunk_lens_whole by (done || lia).
  rewrite (hkdf_chunks_rfc Hlen _ _ _ 0) by (by left || lia). cbn [Nat.add].
  destruct (Nat.leb_spec n 255) as [Hn|Hn]; [|by rewrite andb_false_r]. rewrite andb_true_r.
  destruct (Nat.eqb_spec r 0) as [->|Hr0]; cbn [hkdf_chunks mbind res_bind].
  - by rewrite app_nil_r.
  - destruct (checked_add _ _ _) as [m|]; [|done]. cbn [unwrap mbind res_bind]. rewrite Hlen.
    destruct (Nat.eqb_spec 32 r); [lia|done].
Qed.

Lemma hkdf_is_rfc5869_witness :
  hkdf_extract_expand (E:=unit) [3] [1] [2] (32 * 6 + 0) = Ok (Rfc5869.okm [3] [1] [2] 6).
Proof. apply (hkdf_is_rfc5869 unit [3] [1] [2] 6 0); [intros k d; apply length_replicate|lia]. Defined.

(** C34: The text of a signed message spells the bits of its bytes, five to a
    character and the last character padded with zeros; reading the characters
    back gives the bytes again. *)
Theorem zbase32_roundtrip (E : Type) (data : list Z) :
  Forall is_byte data ->
  zbase32_encode (E:=E) data = Ok (spell (bits data)) /\
  zbase32_decode (length data) (spell (bits data)) = data.
Proof.
  intros Hb. split.
  - unfold zbase32_encode. destruct (chunks_spell (E:=E) (length data) data) as (ret & -> & Htake); [lia|done|].
    cbn [mbind res_bind]. by rewrite Htake.
  - unfold zbase32_decode. destruct (read_spell (length (bits data)) (bits data)) as (pad & ->); [lia|].
    by apply octets_bits.
Qed.

(** The known vector of the repository's test: "hello" is "pb1sa5dx". *)
Lemma zbase32_roundtrip_witness :
  zbase32_encode (E:=unit) [104; 101; 108; 108; 111] = Ok [112; 98; 49; 115; 97; 53; 100; 120] /\
  zbase32_decode 5 [112; 98; 49; 115; 97; 53; 100; 120] = [104; 101; 108; 108; 111].
Proof.
  apply (zbase32_roundtrip unit [104; 101; 108; 108; 111]). repeat constructor; unfold is_byte; lia.
Defined.

(** C35: Signing with fresh randomness terminates once the entropy source yields a nonce with
    a low R: the loop returns the signature of the first such draw, which is low-R,
    however many more iterations it is allowed, and it does not return before. *)
Theorem grinding_terminates `{SecpSign} (msg : Z) (sk : SecretKey) (entropy : nat -> list Z) (n : nat) :
  low_r msg sk entropy n = true ->
  exists k, (k <= n)%nat /\ low_r msg sk entropy k = true /\
    (forall j, (j < k)%nat -> low_r msg sk entropy j = false) /\
    forall fuel, sign_with_aux_rand fuel msg sk entropy =
      if (k <? fuel)%nat then Some (drawn msg sk entropy k) else None.
Proof.
  intros Hn. destruct (first_low msg sk entropy n Hn) as (k & Hkn & Hk & Hfirst).
  exists k. split_and!; [done..|]. intros fuel. destruct (Nat.ltb_spec k fuel) as [Hf|Hf].
  - by apply grind_short.
  - apply grind_long. intros j Hj. apply Hfirst. lia.
Qed.

Lemma grinding_terminates_witness :
  exists k, (k <= 2)%nat /\ low_r 200 0 (fun i => [Z.of_nat i * 40]) k = true /\
    (forall j, (j < k)%nat -> low_r 200 0 (fun i => [Z.of_nat i * 40]) j = false) /\
    forall fuel, sign_with_aux_rand fuel 200 0 (fun i => [Z.of_nat i * 40]) =
      if (k <? fuel)%nat then Some (drawn 200 0 (fun i => [Z.of_nat i * 40]) k) else None.
Proof. apply (grinding_terminates 200 0 (fun i => [Z.of_nat i * 40]) 2). reflexivity. Defined.
