(* ===== verification/ChannelSigner.v ===== *)
(** * The channel keys: [vls-core/src/signer/vls_channel_signer.rs]

    The secret keys of a channel and the signatures that are made with them.  A
    commitment transaction is built by the lightning package from the channel's
    parameters; its scripts, second-level transactions and signature hashes, and
    the arithmetic of keys and signatures, are the classes [ChanUtils], [SecpSign] and
    [LightningLib].  The classes [Signer] and [TransactionSigner] that the channel
    is written against are implemented with these keys. *)
From S2P Require Import Prelude Velocity Policy Ordered CommitInfo Types Bitcoin Script Secrets Enforcement SimpleValidator Validator NodeState Channel TxValidator ChannelTx CryptoUtils ChannelSafety.

(** What the code reads of [CommitmentTransaction] and [trust()]. *)
Record CommitmentTransaction := mkCommitmentTransaction {
  built_transaction : Transaction;
  trusted_keys : TxCreationKeys;
  nondust_htlcs : list IndexedHTLC;
  negotiated_feerate_per_kw : Z
}.

Record ChannelTransactionParameters := mkChannelTransactionParameters {
  ctp_holder_pubkeys : ChannelPublicKeys;
  ctp_holder_selected_contest_delay : Z;
  ctp_is_outbound_from_holder : bool;
  ctp_counterparty : option (ChannelPublicKeys * Z);
  ctp_funding_outpoint : option OutPoint;
  ctp_splice_parent_funding_txid : option Txid;
  ctp_channel_type_features : ChannelTypeFeatures;
  ctp_channel_value_satoshis : Z
}.

(** Without the parameters of the channel, which are those of the signer. *)
Record HTLCDescriptor := mkHTLCDescriptor {
  hd_parameters : ChannelTransactionParameters;
  hd_commitment_txid : Txid;
  hd_per_commitment_number : Z;
  hd_per_commitment_point : PublicKey;
  hd_feerate_per_kw : Z;
  hd_htlc : IndexedHTLC;
  hd_preimage : option Z;
  hd_counterparty_sig : Signature
}.

Record DelayedPaymentOutputDescriptor := mkDelayedPaymentOutputDescriptor {
  dp_outpoint : OutPoint;
  dp_per_commitment_point : PublicKey;
  dp_to_self_delay : Z;
  dp_output : TxOut;
  dp_revocation_pubkey : PublicKey
}.

Record StaticPaymentOutputDescriptor := mkStaticPaymentOutputDescriptor {
  sp_outpoint : OutPoint;
  sp_output : TxOut;
  sp_features : option ChannelTypeFeatures
}.

(** [secp256k1], [chan_utils] and the constructors of scripts. *)
Class ChanUtils := {
  pubkey_of : SecretKey -> PublicKey;
  key_from_slice : list Z -> option SecretKey;
  key_bytes : SecretKey -> list Z;
  serialize_pubkey : PublicKey -> list Z;
  combine : PublicKey -> PublicKey -> option PublicKey;
  sha256_hash : list Z -> list Z;
  secp_verify : Z -> Signature -> PublicKey -> bool;
  secp_sign : Z -> SecretKey -> Signature;
  build_commitment_secret : list Z -> Z -> list Z;
  derive_private_key : PublicKey -> SecretKey -> SecretKey;
  derive_private_revocation_key : SecretKey -> SecretKey -> SecretKey;
  (** [CommitmentTransaction::new] with the parameters directed at the holder
      ([false]) or the counterparty, and [with_non_zero_fee_anchors]. *)
  new_commitment_transaction :
    bool -> ChannelTransactionParameters -> Z -> PublicKey -> Z -> Z -> Z -> list HTLCOutputInCommitment -> bool ->
    CommitmentTransaction;
  tx_keys_derive_new : PublicKey -> PublicKey -> PublicKey -> PublicKey -> PublicKey -> TxCreationKeys;
  htlc_redeemscript : HTLCOutputInCommitment -> ChannelTypeFeatures -> TxCreationKeys -> ScriptBuf;
  to_bitcoin_amount : HTLCOutputInCommitment -> Z;
  descriptor_witness_script : HTLCDescriptor -> ScriptBuf;
  (** [BuiltCommitmentTransaction::sign_counterparty_commitment] and
      [sign_holder_commitment]; [ClosingTransaction::trust().sign]. *)
  built_sign_counterparty : Transaction -> SecretKey -> ScriptBuf -> Z -> Signature;
  built_sign_holder : Transaction -> SecretKey -> ScriptBuf -> Z -> (nat -> list Z) -> Signature;
  closing_sign : ClosingTransaction -> SecretKey -> ScriptBuf -> Z -> Signature;
  keyed_anchor_redeemscript : PublicKey -> ScriptBuf;
  revokeable_redeemscript : PublicKey -> Z -> PublicKey -> ScriptBuf;
  countersigner_payment_script : ChannelTypeFeatures -> PublicKey -> ScriptBuf;
  to_countersigner_keyed_anchor_redeemscript : PublicKey -> ScriptBuf;
  new_p2pkh : PublicKey -> ScriptBuf;
  new_p2wpkh : PublicKey -> ScriptBuf;
  tx_compute_txid : Transaction -> Txid
}.

Definition ANCHOR_OUTPUT_VALUE_SATOSHI : Z := 330.

(** An element of a witness as the signer pushes it. *)
Inductive WitnessElement :=
| SigElement (sig : Signature) (typ : EcdsaSighashType)
| EmptyElement
| ScriptElement (script : ScriptBuf)
| PubkeyElement (key : PublicKey).

Section ChannelSigner.
Context `{Profile} `{BitcoinLib} `{LightningLib} `{SecpSign} `{ChanUtils}.

(** [sha256(point | base_point)] as a key, added to the base point. *)
Definition derive_public_key_utils (per_commitment_point base_point : PublicKey) : option PublicKey :=
  hashkey ← key_from_slice (sha256_hash (serialize_pubkey per_commitment_point ++ serialize_pubkey base_point));
  combine base_point (pubkey_of hashkey).

(** ** The signer *)
Record VlsChannelSigner := mkVlsChannelSigner {
  funding_key : SecretKey;
  revocation_base_key : SecretKey;
  payment_key : SecretKey;
  delayed_payment_base_key : SecretKey;
  htlc_base_key : SecretKey;
  commitment_seed : list Z;
  channel_keys_id : list Z;
  signer_pubkeys : ChannelPublicKeys
}.

Definition VlsChannelSigner_new (funding revocation payment delayed htlc : SecretKey) (seed keys_id : list Z)
  : VlsChannelSigner :=
  mkVlsChannelSigner funding revocation payment delayed htlc seed keys_id
    (mkChannelPublicKeys (pubkey_of funding) (pubkey_of revocation) (pubkey_of payment) (pubkey_of delayed)
       (pubkey_of htlc)).

Definition keys_get_per_commitment_point (self : VlsChannelSigner) (idx : Z) : res unit PublicKey :=
  commitment_secret ← ok_or tt (key_from_slice (build_commitment_secret self.(commitment_seed) idx));
  Ok (pubkey_of commitment_secret).

Definition keys_release_commitment_secret (self : VlsChannelSigner) (idx : Z) : res unit (list Z) :=
  Ok (build_commitment_secret self.(commitment_seed) idx).

(** [debug_assert!] is compiled with the overflow checks. *)
Definition get_funding_key (self : VlsChannelSigner) (splice_parent : option Txid) : res unit SecretKey :=
  rassert (negb overflow_checks || bool_decide (splice_parent = None)) ;;
  Ok self.(funding_key).

(** The script of the funding output, with the key that signs for it. *)
Definition funding_script (self : VlsChannelSigner) (p : ChannelTransactionParameters)
  : res unit (SecretKey * ScriptBuf) :=
  key ← get_funding_key self p.(ctp_splice_parent_funding_txid);
  counterparty ← ok_or tt p.(ctp_counterparty);
  Ok (key, make_funding_redeemscript (pubkey_of key) counterparty.1.(funding_pubkey)).

(** No feature record of [setup.features()] has zero-fee commitments. *)
Definition htlc_sighash_type (chan_type : ChannelTypeFeatures) : EcdsaSighashType :=
  if chan_type.(anchors_zero_fee_htlc_tx) then SighashSinglePlusAnyoneCanPay else SighashAll.

Definition sign_counterparty_htlc (self : VlsChannelSigner) (p : ChannelTransactionParameters)
    (ctx : CommitmentTransaction) (commitment_txid : Txid) (htlc : IndexedHTLC) : res unit Signature :=
  let keys := ctx.(trusted_keys) in
  let chan_type := p.(ctp_channel_type_features) in
  let htlc_tx := build_htlc_transaction commitment_txid ctx.(negotiated_feerate_per_kw)
                   p.(ctp_holder_selected_contest_delay) htlc chan_type
                   keys.(tck_broadcaster_delayed_payment_key) keys.(tck_revocation_key) in
  let script := htlc_redeemscript htlc.(ih_htlc) chan_type keys in
  htlc_sighash ← ok_or tt (p2wsh_signature_hash htlc_tx 0 script (to_bitcoin_amount htlc.(ih_htlc))
                             (htlc_sighash_type chan_type));
  let holder_htlc_key := derive_private_key keys.(tck_per_commitment_point) self.(htlc_base_key) in
  Ok (sign htlc_sighash holder_htlc_key).

Definition sign_counterparty_commitment (self : VlsChannelSigner) (p : ChannelTransactionParameters)
    (ctx : CommitmentTransaction) : res unit (Signature * list Signature) :=
  '(key, script) ← funding_script self p;
  let built_tx := ctx.(built_transaction) in
  let commitment_sig := built_sign_counterparty built_tx key script p.(ctp_channel_value_satoshis) in
  htlc_sigs ← map_res (sign_counterparty_htlc self p ctx (tx_compute_txid built_tx)) ctx.(nondust_htlcs);
  Ok (commitment_sig, htlc_sigs).

Definition sign_holder_commitment (self : VlsChannelSigner) (p : ChannelTransactionParameters)
    (ctx : CommitmentTransaction) (entropy : nat -> list Z) : res unit Signature :=
  '(key, script) ← funding_script self p;
  Ok (built_sign_holder ctx.(built_transaction) key script p.(ctp_channel_value_satoshis) entropy).

Definition unsafe_sign_holder_commitment := sign_holder_commitment.

Definition keys_sign_closing_transaction (self : VlsChannelSigner) (p : ChannelTransactionParameters)
    (closing_tx : ClosingTransaction) : res unit Signature :=
  '(key, script) ← funding_script self p;
  Ok (closing_sign closing_tx key script p.(ctp_channel_value_satoshis)).

(** Signatures with fresh randomness: a loop that has not stopped after [fuel]
    draws has no outcome, which is kept as a panic. *)
Section Randomized.
Context (fuel : nat).

Definition grind (msg : Z) (sk : SecretKey) (entropy : nat -> list Z) : res unit Signature :=
  unwrap (sign_with_aux_rand fuel msg sk entropy).

Definition sign_holder_keyed_anchor_input (self : VlsChannelSigner) (p : ChannelTransactionParameters)
    (anchor_tx : Transaction) (input : nat) (entropy : nat -> list Z) : res unit Signature :=
  let witness_script := keyed_anchor_redeemscript p.(ctp_holder_pubkeys).(funding_pubkey) in
  sighash ← ok_or tt (p2wsh_signature_hash anchor_tx input witness_script ANCHOR_OUTPUT_VALUE_SATOSHI SighashAll);
  key ← get_funding_key self p.(ctp_splice_parent_funding_txid);
  grind sighash key entropy.

Definition sign_holder_htlc_transaction (self : VlsChannelSigner) (htlc_tx : Transaction) (input : nat)
    (descriptor : HTLCDescriptor) (entropy : nat -> list Z) : res unit Signature :=
  let witness_script := descriptor_witness_script descriptor in
  sighash ← ok_or tt (p2wsh_signature_hash htlc_tx input witness_script
                        (to_bitcoin_amount descriptor.(hd_htlc).(ih_htlc)) SighashAll);
  let our_htlc_private_key := derive_private_key descriptor.(hd_per_commitment_point) self.(htlc_base_key) in
  grind sighash our_htlc_private_key entropy.

(** The script of an input is not part of [TxIn]: inputs carry none here. *)
Definition spends_outpoint (spend_tx : Transaction) (input_idx : nat) (outpoint : OutPoint) : res unit TxIn :=
  i ← ok_or tt (spend_tx.(input) !! input_idx);
  if bool_decide (i.(previous_output) <> outpoint) then Err tt else Ok i.

Definition sign_counterparty_payment_input (self : VlsChannelSigner) (spend_tx : Transaction) (input_idx : nat)
    (descriptor : StaticPaymentOutputDescriptor) (entropy : nat -> list Z) : res unit (list WitnessElement) :=
  spends_outpoint spend_tx input_idx descriptor.(sp_outpoint) ;;
  let chan_type := default (mkChannelTypeFeatures true false false) descriptor.(sp_features) in
  let payment_point := pubkey_of self.(payment_key) in
  if negb (countersigner_payment_script chan_type payment_point =? descriptor.(sp_output).(script_pubkey)) then Err tt
  else
    let anchors := chan_type.(anchors_zero_fee_htlc_tx) in
    let witness_script := if anchors then to_countersigner_keyed_anchor_redeemscript payment_point
                          else new_p2pkh payment_point in
    sighash ← ok_or tt (p2wsh_signature_hash spend_tx input_idx witness_script descriptor.(sp_output).(value) SighashAll);
    remotesig ← grind sighash self.(payment_key) entropy;
    let payment_script := if anchors then to_p2wsh witness_script else new_p2wpkh payment_point in
    if negb (payment_script =? descriptor.(sp_output).(script_pubkey)) then Err tt
    else Ok [SigElement remotesig SighashAll; if anchors then ScriptElement witness_script else PubkeyElement payment_point].

Definition sign_dynamic_p2wsh_input (self : VlsChannelSigner) (spend_tx : Transaction) (input_idx : nat)
    (descriptor : DelayedPaymentOutputDescriptor) (entropy : nat -> list Z) : res unit (list WitnessElement) :=
  i ← spends_outpoint spend_tx input_idx descriptor.(dp_outpoint);
  if negb (i.(sequence) =? descriptor.(dp_to_self_delay)) then Err tt
  else
    let delayed_payment_key := derive_private_key descriptor.(dp_per_commitment_point) self.(delayed_payment_base_key) in
    let witness_script := revokeable_redeemscript descriptor.(dp_revocation_pubkey) descriptor.(dp_to_self_delay)
                            (pubkey_of delayed_payment_key) in
    sighash ← ok_or tt (p2wsh_signature_hash spend_tx input_idx witness_script descriptor.(dp_output).(value) SighashAll);
    local_delayedsig ← grind sighash delayed_payment_key entropy;
    if negb (descriptor.(dp_output).(script_pubkey) =? to_p2wsh witness_script) then Err tt
    else Ok [SigElement local_delayedsig SighashAll; EmptyElement; ScriptElement witness_script].
End Randomized.

(** ** The channel's use of the keys: [channel.rs] *)
Definition make_channel_parameters_with_setup (self : VlsChannelSigner) (setup : ChannelSetup)
  : ChannelTransactionParameters :=
  mkChannelTransactionParameters self.(signer_pubkeys) setup.(holder_selected_contest_delay) setup.(is_outbound)
    (Some (setup.(counterparty_points), setup.(counterparty_selected_contest_delay)))
    (Some (mkOutPoint setup.(funding_outpoint).(txid) (setup.(funding_outpoint).(vout) mod 2 ^ 16)))
    None (features setup) setup.(channel_value_sat).

(** The transaction that the parameters of a commitment stand for; only a
    holder commitment is marked with [with_non_zero_fee_anchors]. *)
Definition rebuild_commitment (is_counterparty : bool) (self : VlsChannelSigner) (p : CommitmentParams)
  : CommitmentTransaction :=
  let '(to_broadcaster, to_countersignatory) :=
    if is_counterparty then (p.(cp_to_counterparty), p.(cp_to_holder)) else (p.(cp_to_holder), p.(cp_to_counterparty)) in
  new_commitment_transaction is_counterparty (make_channel_parameters_with_setup self p.(cp_view))
    p.(cp_backwards_number) p.(cp_point) to_broadcaster to_countersignatory p.(cp_feerate) p.(cp_htlcs)
    (negb is_counterparty && is_anchors p.(cp_view)).

Section Checks.
(** [setup] is that of the channel, [txkeys] its keys for the commitment. *)
Context (self : VlsChannelSigner) (setup : ChannelSetup).

Definition holder_commitment_sighash (view : ChannelSetup) (ctx : CommitmentTransaction) : option Z :=
  p2wsh_signature_hash ctx.(built_transaction) 0
    (make_funding_redeemscript self.(signer_pubkeys).(funding_pubkey) view.(counterparty_points).(funding_pubkey))
    view.(channel_value_sat) SighashAll.

Definition holder_htlc_sighash (txkeys : TxCreationKeys) (feerate_per_kw : Z) (commitment_txid : Txid)
    (htlc : IndexedHTLC) : option Z :=
  let sig_hash_type := if is_anchors setup then SighashSinglePlusAnyoneCanPay else SighashAll in
  let build_feerate := if is_zero_fee_htlc setup then 0 else feerate_per_kw in
  let recomposed_htlc_tx :=
    build_htlc_transaction commitment_txid build_feerate setup.(counterparty_selected_contest_delay) htlc
      (features setup) txkeys.(tck_broadcaster_delayed_payment_key) txkeys.(tck_revocation_key) in
  p2wsh_signature_hash recomposed_htlc_tx 0 (htlc_redeemscript htlc.(ih_htlc) (features setup) txkeys)
    (htlc.(ih_htlc).(oic_amount_msat) / 1000) sig_hash_type.

(** [check_holder_tx_signatures] down to the hashes. *)
Definition verify_holder_signatures (view : ChannelSetup) (point : PublicKey) (txkeys : TxCreationKeys)
    (feerate_per_kw : Z) (commit_sig : Signature) (htlc_sigs : list Signature) (ctx : CommitmentTransaction)
  : res Status unit :=
  sighash ← unwrap (holder_commitment_sighash view ctx);
  when (negb (secp_verify sighash commit_sig setup.(counterparty_points).(funding_pubkey)))
    (Err (Status_from (policy_error "policy-revoke-new-commitment-signed"))) ;;
  htlc_pubkey ← ok_or internal_error (derive_public_key_utils point setup.(counterparty_points).(htlc_basepoint));
  for_each (fun '(ndx, htlc) =>
    sighash ← unwrap (holder_htlc_sighash txkeys feerate_per_kw (tx_compute_txid ctx.(built_transaction)) htlc);
    sig ← unwrap (htlc_sigs !! ndx);
    when (negb (secp_verify sighash sig htlc_pubkey))
      (Err (Status_from (policy_error "policy-revoke-new-commitment-signed"))))
    (imap pair ctx.(nondust_htlcs)).
End Checks.
End ChannelSigner.

(** ** The keys behind the interface of the channel

    [setup] is the set-up of the channel, and [entropy] the randomness of its
    holder signatures.  Where a commitment secret is not a valid key, or a signature hash
    cannot be computed, the code panics; the interface has 0 there. *)
Section Interface.
Context `{Profile} `{BitcoinLib} `{LightningLib} `{SecpSign} `{ChanUtils}.
Context (self : VlsChannelSigner) (setup : ChannelSetup) (entropy : nat -> list Z).

Definition holder_tx_keys (p : CommitmentParams) : TxCreationKeys :=
  tx_keys_derive_new p.(cp_point) self.(signer_pubkeys).(delayed_payment_basepoint)
    self.(signer_pubkeys).(htlc_basepoint) setup.(counterparty_points).(revocation_basepoint)
    setup.(counterparty_points).(htlc_basepoint).

Definition channel_signer : Signer := {|
  secret_for idx := default 0 (key_from_slice (build_commitment_secret self.(commitment_seed) idx));
  point_for idx := pubkey_of (default 0 (key_from_slice (build_commitment_secret self.(commitment_seed) idx)));
  from_secret_key := pubkey_of;
  secret_bytes := key_bytes;
  secret_from_slice := key_from_slice;
  sha256 := sha256_hash;
  sign_counterparty p :=
    map_err (fun _ => internal_error)
      (sign_counterparty_commitment self (make_channel_parameters_with_setup self p.(cp_view))
         (rebuild_commitment true self p));
  sign_holder p :=
    map_err (fun _ => internal_error)
      (sign_holder_commitment self (make_channel_parameters_with_setup self setup) (rebuild_commitment false self p)
         entropy);
  commitment_sighash p := default 0 (holder_commitment_sighash self p.(cp_view) (rebuild_commitment false self p));
  htlc_sighashes p :=
    let ctx := rebuild_commitment false self p in
    (fun htlc => default 0 (holder_htlc_sighash setup (holder_tx_keys p) p.(cp_feerate)
                              (tx_compute_txid ctx.(built_transaction)) htlc)) <$> ctx.(nondust_htlcs);
  derive_public_key point base := ok_or internal_error (derive_public_key_utils point base);
  verify_ecdsa := secp_verify
|}.

(** The private key that a transaction is signed with. *)
Definition signing_secret (key : SigningKey) : SecretKey :=
  match key with
  | FundingKey => self.(funding_key)
  | DelayedPaymentKey point => derive_private_key point self.(delayed_payment_base_key)
  | HtlcKey point => derive_private_key point self.(htlc_base_key)
  | RevocationKey secret => derive_private_revocation_key secret self.(revocation_base_key)
  | PaymentKey => self.(payment_key)
  end.

Definition channel_tx_signer : TransactionSigner := {|
  holder_pubkeys := self.(signer_pubkeys);
  derive_new_tx_keys := tx_keys_derive_new;
  get_htlc_redeemscript := htlc_redeemscript;
  built_commitment_tx is_counterparty p := (rebuild_commitment is_counterparty self p).(built_transaction);
  sign_built_commitment p :=
    match funding_script self (make_channel_parameters_with_setup self p.(cp_view)) with
    | Ok (key, script) =>
        Ok (built_sign_counterparty (rebuild_commitment true self p).(built_transaction) key script
              p.(cp_view).(channel_value_sat))
    | Err _ => Err internal_error
    | Panic => Panic
    end;
  sign_closing_transaction view closing_tx :=
    match keys_sign_closing_transaction self (make_channel_parameters_with_setup self view) closing_tx with
    | Ok sig => Some sig
    | _ => None
    end;
  sign_ecdsa sighash key := secp_sign sighash (signing_secret key);
  compute_txid := tx_compute_txid
|}.
End Interface.

(** ** Documented behaviour of the packages *)
Section Laws.
Context `{LightningLib} `{SecpSign} `{ChanUtils}.

(** The parameters of the two ends of a channel. *)
Record mirrored_parameters (a b : ChannelTransactionParameters) : Prop := {
  mp_pubkeys : (fst <$> b.(ctp_counterparty)) = Some a.(ctp_holder_pubkeys);
  mp_pubkeys' : (fst <$> a.(ctp_counterparty)) = Some b.(ctp_holder_pubkeys);
  mp_delay : (snd <$> b.(ctp_counterparty)) = Some a.(ctp_holder_selected_contest_delay);
  mp_delay' : (snd <$> a.(ctp_counterparty)) = Some b.(ctp_holder_selected_contest_delay);
  mp_outbound : b.(ctp_is_outbound_from_holder) = negb a.(ctp_is_outbound_from_holder);
  mp_outpoint : b.(ctp_funding_outpoint) = a.(ctp_funding_outpoint);
  mp_parent : b.(ctp_splice_parent_funding_txid) = a.(ctp_splice_parent_funding_txid);
  mp_features : b.(ctp_channel_type_features) = a.(ctp_channel_type_features);
  mp_value : b.(ctp_channel_value_satoshis) = a.(ctp_channel_value_satoshis)
}.

Class ChanUtilsLaws : Prop := {
  (** A signature verifies with the public key of the key that made it. *)
  verify_sign : forall m sk, secp_verify m (sign_ecdsa_low_r m sk) (pubkey_of sk) = true;
  verify_built_counterparty : forall tx sk script amount h,
    p2wsh_signature_hash tx 0 script amount SighashAll = Some h ->
    secp_verify h (built_sign_counterparty tx sk script amount) (pubkey_of sk) = true;
  (** BOLT 3: [derive_private_key] adds the hash of the points to the base secret. *)
  hash_is_key : forall data, is_Some (key_from_slice (sha256_hash data));
  combine_derived : forall point base hashkey,
    key_from_slice (sha256_hash (serialize_pubkey point ++ serialize_pubkey (pubkey_of base))) = Some hashkey ->
    combine (pubkey_of base) (pubkey_of hashkey) = Some (pubkey_of (derive_private_key point base));
  (** BOLT 3: the keys of the funding script are sorted. *)
  funding_script_sorted : forall a b, make_funding_redeemscript a b = make_funding_redeemscript b a;
  sat_amount : forall htlc, to_bitcoin_amount htlc = htlc.(oic_amount_msat) / 1000;
  (** Zero-fee second-level transactions do not depend on the feerate. *)
  zero_fee_htlc : forall txid r r' delay htlc f delayed revocation, f.(anchors_zero_fee_htlc_tx) = true ->
    build_htlc_transaction txid r delay htlc f delayed revocation =
    build_htlc_transaction txid r' delay htlc f delayed revocation;
  (** [p2wsh_signature_hash] fails only for an input that does not exist. *)
  sighash_defined : forall tx script amount t, tx.(input) <> [] ->
    is_Some (p2wsh_signature_hash tx 0 script amount t);
  htlc_tx_input : forall txid r delay htlc f delayed revocation,
    (build_htlc_transaction txid r delay htlc f delayed revocation).(input) <> [];
  commitment_input : forall c p n pt tb tc r htlcs a,
    (new_commitment_transaction c p n pt tb tc r htlcs a).(built_transaction).(input) <> [];
  commitment_feerate : forall c p n pt tb tc r htlcs a,
    (new_commitment_transaction c p n pt tb tc r htlcs a).(negotiated_feerate_per_kw) = r;
  commitment_keys : forall p n pt tb tc r htlcs a cp delay, p.(ctp_counterparty) = Some (cp, delay) ->
    (new_commitment_transaction false p n pt tb tc r htlcs a).(trusted_keys) =
    tx_keys_derive_new pt p.(ctp_holder_pubkeys).(delayed_payment_basepoint) p.(ctp_holder_pubkeys).(htlc_basepoint)
      cp.(revocation_basepoint) cp.(htlc_basepoint);
  derived_point : forall pt a b c d, (tx_keys_derive_new pt a b c d).(tck_per_commitment_point) = pt;
  (** A commitment directed at the counterparty is the one that the counterparty
      directs at itself. *)
  commitment_directed : forall pa pb n pt tb tc r htlcs a, mirrored_parameters pa pb ->
    new_commitment_transaction true pa n pt tb tc r htlcs false = new_commitment_transaction false pb n pt tb tc r htlcs a
}.
End Laws.

Section Peers.
Context `{Profile} `{BitcoinLib} `{LightningLib} `{SecpSign} `{ChanUtils} `{!ChanUtilsLaws}.

(** The two ends of a channel: keys and set-ups. *)
Record peers (ka kb : VlsChannelSigner) (sa sb : ChannelSetup) : Prop := {
  pe_points : sb.(counterparty_points) = ka.(signer_pubkeys);
  pe_points' : sa.(counterparty_points) = kb.(signer_pubkeys);
  pe_delay : sb.(counterparty_selected_contest_delay) = sa.(holder_selected_contest_delay);
  pe_delay' : sa.(counterparty_selected_contest_delay) = sb.(holder_selected_contest_delay);
  pe_outbound : sb.(is_outbound) = negb sa.(is_outbound);
  pe_outpoint : sb.(funding_outpoint) = sa.(funding_outpoint);
  pe_value : sb.(channel_value_sat) = sa.(channel_value_sat);
  pe_type : sb.(commitment_type) = sa.(commitment_type)
}.

(** The same commitment of the second end, as each of them describes it. *)
Record same_commitment (sa sb : ChannelSetup) (pa pb : CommitmentParams) : Prop := {
  sc_view : pa.(cp_view) = sa;
  sc_view' : pb.(cp_view) = sb;
  sc_point : pb.(cp_point) = pa.(cp_point);
  sc_number : pb.(cp_backwards_number) = pa.(cp_backwards_number);
  sc_feerate : pb.(cp_feerate) = pa.(cp_feerate);
  sc_to_holder : pb.(cp_to_holder) = pa.(cp_to_counterparty);
  sc_to_counterparty : pb.(cp_to_counterparty) = pa.(cp_to_holder);
  sc_htlcs : pb.(cp_htlcs) = pa.(cp_htlcs)
}.

(** Keys with the public keys that [new] stores. *)
Definition fresh_keys (k : VlsChannelSigner) : Prop :=
  k = VlsChannelSigner_new k.(funding_key) k.(revocation_base_key) k.(payment_key) k.(delayed_payment_base_key)
        k.(htlc_base_key) k.(commitment_seed) k.(channel_keys_id).

Lemma peers_features (ka kb : VlsChannelSigner) (sa sb : ChannelSetup) : peers ka kb sa sb -> features sb = features sa.
Proof. intros Hp. unfold features, is_anchors, is_zero_fee_htlc. by rewrite (pe_type _ _ _ _ Hp). Qed.

Lemma peers_parameters (ka kb : VlsChannelSigner) (sa sb : ChannelSetup) :
  peers ka kb sa sb ->
  mirrored_parameters (make_channel_parameters_with_setup ka sa) (make_channel_parameters_with_setup kb sb).
Proof.
  intros Hp. pose proof (peers_features _ _ _ _ Hp) as Hf. destruct Hp.
  split; cbn [make_channel_parameters_with_setup ctp_holder_pubkeys ctp_holder_selected_contest_delay
    ctp_is_outbound_from_holder ctp_counterparty ctp_funding_outpoint ctp_splice_parent_funding_txid
    ctp_channel_type_features ctp_channel_value_satoshis fmap option_fmap option_map fst snd]; congruence.
Qed.

Lemma rebuild_same (ka kb : VlsChannelSigner) (sa sb : ChannelSetup) (pa pb : CommitmentParams) :
  peers ka kb sa sb -> same_commitment sa sb pa pb ->
  rebuild_commitment true ka pa = rebuild_commitment false kb pb.
Proof.
  intros Hp [<- <- Hpt Hn Hr Hh Hc Hl]. unfold rebuild_commitment. rewrite Hpt, Hn, Hr, Hh, Hc, Hl.
  apply commitment_directed. by apply peers_parameters.
Qed.

Lemma rebuilt_keys (kb : VlsChannelSigner) (pb : CommitmentParams) :
  (rebuild_commitment false kb pb).(trusted_keys) =
  tx_keys_derive_new pb.(cp_point) kb.(signer_pubkeys).(delayed_payment_basepoint) kb.(signer_pubkeys).(htlc_basepoint)
    pb.(cp_view).(counterparty_points).(revocation_basepoint) pb.(cp_view).(counterparty_points).(htlc_basepoint).
Proof. unfold rebuild_commitment. by erewrite commitment_keys. Qed.

Lemma derived_htlc_key (point : PublicKey) (base : SecretKey) :
  derive_public_key_utils point (pubkey_of base) = Some (pubkey_of (derive_private_key point base)).
Proof.
  unfold derive_public_key_utils.
  destruct (hash_is_key (serialize_pubkey point ++ serialize_pubkey (pubkey_of base))) as [hk Hhk].
  rewrite Hhk. cbn [mbind option_bind]. by apply combine_derived.
Qed.

(** What one end hashes for an HTLC is what the other checks. *)
Lemma htlc_hash_same (ka kb : VlsChannelSigner) (sa sb : ChannelSetup) (ctx : CommitmentTransaction) (htlc : IndexedHTLC) :
  peers ka kb sa sb -> sa.(commitment_type) <> Anchors ->
  exists h, holder_htlc_sighash sb ctx.(trusted_keys) ctx.(negotiated_feerate_per_kw)
              (tx_compute_txid ctx.(built_transaction)) htlc = Some h /\
    sign_counterparty_htlc ka (make_channel_parameters_with_setup ka sa) ctx
      (tx_compute_txid ctx.(built_transaction)) htlc
    = Ok (sign h (derive_private_key ctx.(trusted_keys).(tck_per_commitment_point) ka.(htlc_base_key))).
Proof.
  intros Hp Ht. unfold holder_htlc_sighash, sign_counterparty_htlc. rewrite sat_amount.
  cbn [make_channel_parameters_with_setup ctp_channel_type_features ctp_holder_selected_contest_delay].
  rewrite (peers_features _ _ _ _ Hp), (pe_delay _ _ _ _ Hp).
  assert (Hz : is_zero_fee_htlc sb = is_zero_fee_htlc sa) by (unfold is_zero_fee_htlc; by rewrite (pe_type _ _ _ _ Hp)).
  assert (Ha : is_anchors sb = is_zero_fee_htlc sa).
  { unfold is_anchors, is_zero_fee_htlc. rewrite (pe_type _ _ _ _ Hp). by rewrite (bool_decide_eq_false_2 _ Ht). }
  assert (Hty : htlc_sighash_type (features sa) = if is_zero_fee_htlc sa then SighashSinglePlusAnyoneCanPay else SighashAll).
  { unfold htlc_sighash_type, features. assert (Ha' : is_anchors sa = is_zero_fee_htlc sa).
    { unfold is_anchors, is_zero_fee_htlc. by rewrite (bool_decide_eq_false_2 _ Ht). }
    rewrite Ha'. by destruct (is_zero_fee_htlc sa). }
  rewrite Hz, Ha, Hty.
  assert (Htx : forall r, (if is_zero_fee_htlc sa then 0 else r) = r \/ (features sa).(anchors_zero_fee_htlc_tx) = true).
  { intros r. destruct (is_zero_fee_htlc sa) eqn:E; [|by left]. right. unfold features. rewrite E.
    unfold is_zero_fee_htlc in E. unfold is_anchors. by rewrite E, orb_true_r. }
  destruct (Htx ctx.(negotiated_feerate_per_kw)) as [->|Hzf].
  2: rewrite (zero_fee_htlc _ _ ctx.(negotiated_feerate_per_kw) _ _ _ _ _ Hzf).
  all: edestruct (sighash_defined (build_htlc_transaction (tx_compute_txid ctx.(built_transaction))
      ctx.(negotiated_feerate_per_kw) sa.(holder_selected_contest_delay) htlc (features sa)
      ctx.(trusted_keys).(tck_broadcaster_delayed_payment_key) ctx.(trusted_keys).(tck_revocation_key))) as [h Hh];
    [apply htlc_tx_input|]; rewrite Hh; exists h; split; reflexivity.
Qed.
Lemma for_each_hashes {A B : Type} (g : A -> B) (f1 : nat * B -> res Status unit) (f2 : nat * A -> res Status unit) (l : list A) :
  (forall n x, f1 (n, g x) = f2 (n, x)) -> for_each f1 (imap pair (g <$> l)) = for_each f2 (imap pair l).
Proof.
  intros Hf. rewrite imap_fmap.
  assert (Hgen : forall m, for_each f1 (imap (fun n x => ((m + n)%nat, g x)) l) = for_each f2 (imap (fun n x => ((m + n)%nat, x)) l)).
  { induction l as [|x l IH]; intros m; [done|]. cbn [imap for_each]. rewrite Nat.add_0_r, Hf.
    destruct (f2 (m, x)) as [[]| |]; [|done..]. cbn [mbind res_bind]. specialize (IH (S m)).
    erewrite (imap_ext _ (fun n x => ((S m + n)%nat, g x))) by (intros; cbn; f_equal; lia).
    rewrite IH. f_equal. apply imap_ext. intros; cbn; f_equal; lia. }
  apply (Hgen 0%nat).
Qed.

Lemma check_is_verify (self : VlsChannelSigner) (entropy : nat -> list Z) (chan : Channel) (p : CommitmentParams)
    (commit_sig : Signature) (htlc_sigs : list Signature) :
  check_holder_tx_signatures (H1:=channel_signer self chan.(setup) entropy) chan p.(cp_point) commit_sig htlc_sigs p =
  verify_holder_signatures self chan.(setup) p.(cp_view) p.(cp_point) (holder_tx_keys self chan.(setup) p) p.(cp_feerate)
    commit_sig htlc_sigs (rebuild_commitment false self p).
Proof.
  unfold check_holder_tx_signatures, verify_holder_signatures.
  cbn [channel_signer verify_ecdsa commitment_sighash htlc_sighashes derive_public_key].
  destruct (sighash_defined (rebuild_commitment false self p).(built_transaction)
    (make_funding_redeemscript self.(signer_pubkeys).(funding_pubkey) p.(cp_view).(counterparty_points).(funding_pubkey))
    p.(cp_view).(channel_value_sat) SighashAll) as [h Hh]; [apply commitment_input|].
  unfold holder_commitment_sighash. rewrite Hh. cbn [default unwrap mbind res_bind].
  destruct (negb _); [done|]. cbn [when mbind res_bind].
  destruct (derive_public_key_utils _ _) as [key|]; [|done]. cbn [ok_or mbind res_bind].
  apply for_each_hashes. intros n htlc. unfold holder_htlc_sighash.
  destruct (sighash_defined
    (build_htlc_transaction (tx_compute_txid (rebuild_commitment false self p).(built_transaction))
       (if is_zero_fee_htlc chan.(setup) then 0 else p.(cp_feerate)) chan.(setup).(counterparty_selected_contest_delay)
       htlc (features chan.(setup)) (holder_tx_keys self chan.(setup) p).(tck_broadcaster_delayed_payment_key)
       (holder_tx_keys self chan.(setup) p).(tck_revocation_key))
    (htlc_redeemscript htlc.(ih_htlc) (features chan.(setup)) (holder_tx_keys self chan.(setup) p))
    (htlc.(ih_htlc).(oic_amount_msat) / 1000)
    (if is_anchors chan.(setup) then SighashSinglePlusAnyoneCanPay else SighashAll)) as [h' Hh'];
    [apply htlc_tx_input|].
  rewrite Hh'. reflexivity.
Qed.

Lemma fresh_pubkeys (k : VlsChannelSigner) :
  fresh_keys k -> k.(signer_pubkeys).(funding_pubkey) = pubkey_of k.(funding_key) /\
    k.(signer_pubkeys).(htlc_basepoint) = pubkey_of k.(htlc_base_key).
Proof. intros ->. done. Qed.

Lemma map_res_of {E A B : Type} (f : A -> res E B) (g : A -> B) (l : list A) :
  (forall x, f x = Ok (g x)) -> map_res f l = Ok (g <$> l).
Proof. intros Hf. induction l as [|x l IH]; [done|]. cbn [map_res]. by rewrite Hf, IH. Qed.

Lemma map_res_exists {E A B : Type} (f : A -> res E B) (l : list A) :
  (forall x, exists y, f x = Ok y) -> exists ys, map_res f l = Ok ys.
Proof.
  intros Hf. induction l as [|x l [ys Hys]]; [by eexists|]. destruct (Hf x) as [y Hy]. cbn [map_res].
  rewrite Hy, Hys. by eexists.
Qed.

Lemma sign_commitment_run (ka : VlsChannelSigner) (sa : ChannelSetup) (ctx : CommitmentTransaction) (hsigs : list Signature) :
  map_res (sign_counterparty_htlc ka (make_channel_parameters_with_setup ka sa) ctx
      (tx_compute_txid ctx.(built_transaction))) ctx.(nondust_htlcs) = Ok hsigs ->
  sign_counterparty_commitment ka (make_channel_parameters_with_setup ka sa) ctx =
  Ok (built_sign_counterparty ctx.(built_transaction) ka.(funding_key)
        (make_funding_redeemscript (pubkey_of ka.(funding_key)) sa.(counterparty_points).(funding_pubkey))
        sa.(channel_value_sat), hsigs).
Proof.
  intros Hsigs. unfold sign_counterparty_commitment, funding_script.
  cbn [make_channel_parameters_with_setup ctp_splice_parent_funding_txid ctp_counterparty ctp_channel_value_satoshis].
  unfold get_funding_key. rewrite bool_decide_eq_true_2, orb_true_r by done. cbn [rassert mbind res_bind ok_or fst].
  by rewrite Hsigs.
Qed.

(** The commitment signature of the other end verifies. *)
Lemma commitment_verifies (ka kb : VlsChannelSigner) (sa : ChannelSetup) (chan : Channel) (pb : CommitmentParams) :
  let ctx := rebuild_commitment false kb pb in
  fresh_keys ka -> fresh_keys kb -> peers ka kb sa chan.(setup) -> pb.(cp_view) = chan.(setup) ->
  exists hc, holder_commitment_sighash kb pb.(cp_view) ctx = Some hc /\
    secp_verify hc (built_sign_counterparty ctx.(built_transaction) ka.(funding_key)
       (make_funding_redeemscript (pubkey_of ka.(funding_key)) sa.(counterparty_points).(funding_pubkey))
       sa.(channel_value_sat)) chan.(setup).(counterparty_points).(funding_pubkey) = true.
Proof.
  intros ctx Hka Hkb Hp Hview.
  destruct (fresh_pubkeys ka Hka) as [Hfa _]. destruct (fresh_pubkeys kb Hkb) as [Hfb _].
  unfold holder_commitment_sighash. rewrite Hview.
  rewrite (pe_points _ _ _ _ Hp), (pe_points' _ _ _ _ Hp), (pe_value _ _ _ _ Hp), Hfa, Hfb.
  rewrite (funding_script_sorted (pubkey_of ka.(funding_key))).
  destruct (sighash_defined ctx.(built_transaction)
    (make_funding_redeemscript (pubkey_of kb.(funding_key)) (pubkey_of ka.(funding_key))) sa.(channel_value_sat) SighashAll)
    as [hc Hhc]; [apply commitment_input|].
  exists hc. split; [done|]. by apply verify_built_counterparty.
Qed.

Lemma rebuilt_for_check (kb : VlsChannelSigner) (chan : Channel) (pb : CommitmentParams) :
  pb.(cp_view) = chan.(setup) ->
  holder_tx_keys kb chan.(setup) pb = (rebuild_commitment false kb pb).(trusted_keys) /\
  pb.(cp_feerate) = (rebuild_commitment false kb pb).(negotiated_feerate_per_kw).
Proof.
  intros Hview. rewrite rebuilt_keys, Hview. split; [done|]. unfold rebuild_commitment. by rewrite commitment_feerate.
Qed.

(** The check of signatures that were made over the same hashes. *)
Lemma signed_verifies (ka kb : VlsChannelSigner) (sa : ChannelSetup) (chan : Channel) (pb : CommitmentParams) :
  let ctx := rebuild_commitment false kb pb in
  fresh_keys ka -> fresh_keys kb -> peers ka kb sa chan.(setup) -> pb.(cp_view) = chan.(setup) ->
  sa.(commitment_type) <> Anchors ->
  verify_holder_signatures kb chan.(setup) pb.(cp_view) pb.(cp_point) (holder_tx_keys kb chan.(setup) pb) pb.(cp_feerate)
    (built_sign_counterparty ctx.(built_transaction) ka.(funding_key)
       (make_funding_redeemscript (pubkey_of ka.(funding_key)) sa.(counterparty_points).(funding_pubkey))
       sa.(channel_value_sat))
    ((fun htlc => sign (default 0 (holder_htlc_sighash chan.(setup) ctx.(trusted_keys) ctx.(negotiated_feerate_per_kw)
                                   (tx_compute_txid ctx.(built_transaction)) htlc))
                    (derive_private_key pb.(cp_point) ka.(htlc_base_key))) <$> ctx.(nondust_htlcs))
    ctx = Ok tt.
Proof.
  intros ctx Hka Hkb Hp Hview Ht.
  destruct (commitment_verifies ka kb sa chan pb Hka Hkb Hp Hview) as (hc & Hhc & Hver). fold ctx in Hhc, Hver.
  destruct (rebuilt_for_check kb chan pb Hview) as [Hkeys Hrate]. fold ctx in Hkeys, Hrate.
  unfold verify_holder_signatures. rewrite Hhc. cbn [unwrap mbind res_bind]. rewrite Hver.
  rewrite (pe_points _ _ _ _ Hp), (proj2 (fresh_pubkeys ka Hka)), derived_htlc_key.
  cbn [negb when ok_or mbind res_bind]. rewrite Hkeys, Hrate. apply for_each_Ok, Forall_lookup. intros i [n htlc] Hl.
  rewrite list_lookup_imap in Hl. destruct (ctx.(nondust_htlcs) !! i) as [htlc'|] eqn:Hi; [|done].
  cbn [fmap option_fmap option_map] in Hl. injection Hl as <- <-.
  destruct (htlc_hash_same ka kb sa chan.(setup) ctx htlc' Hp Ht) as (x & Hx & _).
  rewrite list_lookup_fmap, Hi, Hx. cbn [fmap option_fmap option_map unwrap mbind res_bind]. rewrite Hx.
  cbn [default]. unfold sign. by rewrite verify_sign.
Qed.

(** With non-zero-fee anchors the two sides hash the same transaction with
    different hash types. *)
Lemma legacy_anchor_hashes (ka kb : VlsChannelSigner) (sa sb : ChannelSetup) (ctx : CommitmentTransaction) (htlc : IndexedHTLC) :
  peers ka kb sa sb -> sa.(commitment_type) = Anchors ->
  exists tx script amount hs ha,
    p2wsh_signature_hash tx 0 script amount SighashSinglePlusAnyoneCanPay = Some hs /\
    p2wsh_signature_hash tx 0 script amount SighashAll = Some ha /\
    holder_htlc_sighash sb ctx.(trusted_keys) ctx.(negotiated_feerate_per_kw)
      (tx_compute_txid ctx.(built_transaction)) htlc = Some hs /\
    sign_counterparty_htlc ka (make_channel_parameters_with_setup ka sa) ctx
      (tx_compute_txid ctx.(built_transaction)) htlc
    = Ok (sign ha (derive_private_key ctx.(trusted_keys).(tck_per_commitment_point) ka.(htlc_base_key))).
Proof.
  intros Hp Ht. unfold holder_htlc_sighash, sign_counterparty_htlc, htlc_sighash_type. rewrite sat_amount.
  cbn [make_channel_parameters_with_setup ctp_channel_type_features ctp_holder_selected_contest_delay].
  rewrite (peers_features _ _ _ _ Hp), (pe_delay _ _ _ _ Hp).
  unfold is_zero_fee_htlc, is_anchors. rewrite (pe_type _ _ _ _ Hp), Ht.
  rewrite (bool_decide_eq_true_2 (Anchors = Anchors)), (bool_decide_eq_false_2 (Anchors = AnchorsZeroFeeHtlc)) by done. cbn [orb].
  assert (Hf : anchors_zero_fee_htlc_tx (features sa) = false).
  { unfold features, is_anchors, is_zero_fee_htlc. by rewrite Ht. }
  rewrite Hf.
  set (tx := build_htlc_transaction _ _ _ _ _ _ _). set (script := htlc_redeemscript _ _ _).
  set (amount := oic_amount_msat _ / 1000). exists tx, script, amount.
  destruct (sighash_defined tx script amount SighashSinglePlusAnyoneCanPay) as [hs Hs]; [apply htlc_tx_input|].
  destruct (sighash_defined tx script amount SighashAll) as [ha Ha]; [apply htlc_tx_input|].
  exists hs, ha. rewrite Hs, Ha. done.
Qed.

Lemma stale_first_refused (ka kb : VlsChannelSigner) (sa : ChannelSetup) (chan : Channel) (pb : CommitmentParams)
    (hsigs : list Signature) :
  let ctx := rebuild_commitment false kb pb in
  (forall tx script amount hs ha,
    p2wsh_signature_hash tx 0 script amount SighashSinglePlusAnyoneCanPay = Some hs ->
    p2wsh_signature_hash tx 0 script amount SighashAll = Some ha -> hs <> ha) ->
  (forall m m' sk, m <> m' -> secp_verify m (sign_ecdsa_low_r m' sk) (pubkey_of sk) = false) ->
  fresh_keys ka -> fresh_keys kb -> peers ka kb sa chan.(setup) -> pb.(cp_view) = chan.(setup) ->
  sa.(commitment_type) = Anchors -> ctx.(nondust_htlcs) <> [] ->
  ctx.(trusted_keys).(tck_per_commitment_point) = pb.(cp_point) ->
  map_res (sign_counterparty_htlc ka (make_channel_parameters_with_setup ka sa) ctx
      (tx_compute_txid ctx.(built_transaction))) ctx.(nondust_htlcs) = Ok hsigs ->
  verify_holder_signatures kb chan.(setup) pb.(cp_view) pb.(cp_point) (holder_tx_keys kb chan.(setup) pb) pb.(cp_feerate)
    (built_sign_counterparty ctx.(built_transaction) ka.(funding_key)
       (make_funding_redeemscript (pubkey_of ka.(funding_key)) sa.(counterparty_points).(funding_pubkey))
       sa.(channel_value_sat)) hsigs ctx
  = Err (Status_from (policy_error "policy-revoke-new-commitment-signed")).
Proof.
  intros ctx Htypes Hbound Hka Hkb Hp Hview Ht Hne Hpoint Hsigs.
  destruct (commitment_verifies ka kb sa chan pb Hka Hkb Hp Hview) as (hc & Hhc & Hver). fold ctx in Hhc, Hver.
  destruct (rebuilt_for_check kb chan pb Hview) as [Hkeys Hrate]. fold ctx in Hkeys, Hrate.
  unfold verify_holder_signatures. rewrite Hhc. cbn [unwrap mbind res_bind]. rewrite Hver.
  rewrite (pe_points _ _ _ _ Hp), (proj2 (fresh_pubkeys ka Hka)), derived_htlc_key.
  cbn [negb when ok_or mbind res_bind]. rewrite Hkeys, Hrate.
  destruct ctx.(nondust_htlcs) as [|htlc rest]; [done|].
  destruct (legacy_anchor_hashes ka kb sa chan.(setup) ctx htlc Hp Ht) as (tx & script & amount & hs & ha & Hs & Ha & Hcheck & Hsign).
  cbn [map_res] in Hsigs. rewrite Hsign in Hsigs. cbn [mbind res_bind] in Hsigs.
  destruct (map_res _ rest) as [sigs| |]; [|done..]. injection Hsigs as <-.
  cbn [imap for_each]. rewrite Hcheck. cbn [unwrap lookup list_lookup mbind res_bind].
  unfold sign. rewrite Hpoint, (Hbound _ _ _ (Htypes _ _ _ _ _ Hs Ha)). reflexivity.
Qed.
End Peers.

(** ** Samples *)
Section Samples.
Definition sample_utils_lightning : LightningLib := {|
  make_funding_redeemscript a b := a + b;
  built_closing_tx ct := mkTransaction 2 0 [mkTxIn ct.(ct_funding_outpoint) 0xffffffff] [];
  build_htlc_transaction txid _ delay htlc _ delayed revocation :=
    mkTransaction 2 htlc.(ih_htlc).(oic_cltv_expiry) [mkTxIn (mkOutPoint txid (default 0 htlc.(ih_output_index))) 0]
      [mkTxOut (htlc.(ih_htlc).(oic_amount_msat) / 1000) (delay + 1000 * (delayed + 1000 * revocation))];
  p2wsh_signature_hash tx i script amount t :=
    if bool_decide (i < length tx.(input))%nat then
      Some (2 * (zsum (value <$> tx.(output)) + script * 2 ^ 64 + amount * 2 ^ 128)
            + match t with SighashAll => 0 | SighashSinglePlusAnyoneCanPay => 1 end)
    else None
|}.

Definition sample_signing : SecpSign := {|
  sign_ecdsa_low_r msg sk := msg + sk;
  sign_ecdsa_with_noncedata msg sk _ := msg + sk;
  serialize_compact_0 _ := 0;
  serialize_der sig := [sig];
  from_der l := match l with [sig] => Some sig | _ => None end
|}.

Definition sample_commitment (c : bool) (p : ChannelTransactionParameters) (pt tb tc r : Z)
    (htlcs : list HTLCOutputInCommitment) : CommitmentTransaction :=
  let cp := default p.(ctp_holder_pubkeys) (fst <$> p.(ctp_counterparty)) in
  let '(b, s) := if c then (cp, p.(ctp_holder_pubkeys)) else (p.(ctp_holder_pubkeys), cp) in
  mkCommitmentTransaction
    (mkTransaction 2 0 [mkTxIn (default (mkOutPoint 0 0) p.(ctp_funding_outpoint)) 0]
       ([mkTxOut tb 1; mkTxOut tc 2] ++ ((fun h => mkTxOut (h.(oic_amount_msat) / 1000) 3) <$> htlcs)))
    (mkTxCreationKeys pt s.(revocation_basepoint) b.(htlc_basepoint) s.(htlc_basepoint) b.(delayed_payment_basepoint))
    (imap (fun i h => mkIndexedHTLC h (Some (Z.of_nat i + 2))) htlcs) r.

#[local] Existing Instance sample_utils_lightning.

Definition sample_utils : ChanUtils := {|
  pubkey_of sk := sk;
  key_from_slice l := Some (zsum l);
  key_bytes sk := [sk];
  serialize_pubkey k := [k];
  combine a b := Some (a + b);
  sha256_hash l := l;
  secp_verify m sig pk := sig =? m + pk;
  secp_sign m sk := m + sk;
  build_commitment_secret seed idx := seed ++ [idx];
  derive_private_key point base := base + (point + base);
  derive_private_revocation_key secret base := secret + base;
  new_commitment_transaction c p _ pt tb tc r htlcs _ := sample_commitment c p pt tb tc r htlcs;
  tx_keys_derive_new pt delayed htlc revocation htlc' := mkTxCreationKeys pt revocation htlc htlc' delayed;
  htlc_redeemscript htlc _ _ := if htlc.(oic_offered) then 3 else 2;
  to_bitcoin_amount htlc := htlc.(oic_amount_msat) / 1000;
  descriptor_witness_script d := if d.(hd_htlc).(ih_htlc).(oic_offered) then 3 else 2;
  built_sign_counterparty tx sk script amount := default 0 (p2wsh_signature_hash tx 0 script amount SighashAll) + sk;
  built_sign_holder tx sk script amount _ := default 0 (p2wsh_signature_hash tx 0 script amount SighashAll) + sk;
  closing_sign ct sk script amount := ct.(ct_to_holder_value_sat) + sk;
  keyed_anchor_redeemscript key := key;
  revokeable_redeemscript revocation delay delayed := revocation + delay + delayed;
  countersigner_payment_script _ key := key;
  to_countersigner_keyed_anchor_redeemscript key := key;
  new_p2pkh key := key;
  new_p2wpkh key := key;
  tx_compute_txid tx := zsum (value <$> tx.(output))
|}.

Lemma sample_utils_laws : @ChanUtilsLaws sample_utils_lightning sample_signing sample_utils.
Proof.
  split; unfold p2wsh_signature_hash, sample_utils_lightning, sample_utils, sample_signing; cbn -[Z.mul Z.add Z.pow].
  - intros m sk. apply Z.eqb_refl.
  - intros tx sk script amount h Hh. rewrite Hh. apply Z.eqb_refl.
  - by eexists.
  - intros point base hashkey Hk. apply (inj Some) in Hk. subst hashkey. unfold zsum. cbn [foldr app]. f_equal. lia.
  - intros a b. lia.
  - done.
  - done.
  - intros tx script amount t Hin. destruct (tx.(input)); [done|]. rewrite bool_decide_eq_true_2 by (cbn; lia). by eexists.
  - done.
  - intros c p n pt tb tc r htlcs a. unfold sample_commitment. by destruct c.
  - intros c p n pt tb tc r htlcs a. unfold sample_commitment. by destruct c.
  - intros p n pt tb tc r htlcs a cp delay Hcp. unfold sample_commitment. by rewrite Hcp.
  - done.
  - intros pa pb n pt tb tc r htlcs a [Hb Ha _ _ _ Ho _ _ _]. unfold sample_commitment. by rewrite Ha, Hb, Ho.
Qed.
End Samples.

(** ** Properties *)

(** C13: What one end of a channel signs for a commitment of the other end is what the
    other end accepts.  With the keys of the two ends, mirrored set-ups and the same
    commitment, signing succeeds and both the commitment signature and every
    second-level signature pass the check that the other end makes before it stores
    the commitment.  The commitment type with non-zero-fee anchors is excluded: there
    the two sides use different signature hash types. *)
Theorem peer_signatures_accepted `{Profile} `{BitcoinLib} `{LightningLib} `{SecpSign} `{ChanUtils} `{!ChanUtilsLaws}
    (ka kb : VlsChannelSigner) (ea eb : nat -> list Z) (sa : ChannelSetup) (chan : Channel) (pa pb : CommitmentParams) :
  fresh_keys ka -> fresh_keys kb -> peers ka kb sa chan.(setup) -> same_commitment sa chan.(setup) pa pb ->
  sa.(commitment_type) <> Anchors ->
  exists sigs,
    sign_counterparty (Signer:=channel_signer ka sa ea) pa = Ok sigs /\
    check_holder_tx_signatures (H1:=channel_signer kb chan.(setup) eb) chan pb.(cp_point) sigs.1 sigs.2 pb = Ok tt.
Proof.
  intros Hka Hkb Hp Hsame Ht.
  assert (Hrebuild := rebuild_same _ _ _ _ _ _ Hp Hsame). destruct Hsame as [Hva Hvb Hpt _ _ _ _ _].
  set (ctx := rebuild_commitment false kb pb) in *.
  set (h htlc := default 0 (holder_htlc_sighash chan.(setup) ctx.(trusted_keys) ctx.(negotiated_feerate_per_kw)
                   (tx_compute_txid ctx.(built_transaction)) htlc)).
  set (key := derive_private_key pb.(cp_point) ka.(htlc_base_key)).
  assert (Hpoint : ctx.(trusted_keys).(tck_per_commitment_point) = pb.(cp_point)).
  { unfold ctx. rewrite rebuilt_keys. apply derived_point. }
  assert (Hsigs : map_res (sign_counterparty_htlc ka (make_channel_parameters_with_setup ka sa) ctx
      (tx_compute_txid ctx.(built_transaction))) ctx.(nondust_htlcs) = Ok ((fun htlc => sign (h htlc) key) <$> ctx.(nondust_htlcs))).
  { apply map_res_of. intros htlc. destruct (htlc_hash_same ka kb sa chan.(setup) ctx htlc Hp Ht) as (x & Hx & ->).
    unfold h, key. by rewrite Hx, Hpoint. }
  eexists. split.
  - cbn [channel_signer sign_counterparty]. rewrite Hva, Hrebuild. by rewrite (sign_commitment_run _ _ _ _ Hsigs).
  - rewrite check_is_verify. fold ctx. cbn [fst snd].
    apply (signed_verifies ka kb sa); done.
Qed.

(** With non-zero-fee anchors the second-level signatures that this signer makes are
    refused by the check that this signer makes: signing uses [SIGHASH_ALL] for them
    and the check uses [SIGHASH_SINGLE|ANYONECANPAY].  A commitment with an HTLC is
    signed without an error, and the other end, with the same code, answers that
    the signature does not verify. *)
Theorem legacy_anchor_signatures_refused `{Profile} `{BitcoinLib} `{LightningLib} `{SecpSign} `{ChanUtils} `{!ChanUtilsLaws}
    (ka kb : VlsChannelSigner) (ea eb : nat -> list Z) (sa : ChannelSetup) (chan : Channel) (pa pb : CommitmentParams) :
  (forall tx script amount hs ha,
    p2wsh_signature_hash tx 0 script amount SighashSinglePlusAnyoneCanPay = Some hs ->
    p2wsh_signature_hash tx 0 script amount SighashAll = Some ha -> hs <> ha) ->
  (forall m m' sk, m <> m' -> secp_verify m (sign_ecdsa_low_r m' sk) (pubkey_of sk) = false) ->
  fresh_keys ka -> fresh_keys kb -> peers ka kb sa chan.(setup) -> same_commitment sa chan.(setup) pa pb ->
  sa.(commitment_type) = Anchors -> (rebuild_commitment false kb pb).(nondust_htlcs) <> [] ->
  exists sigs,
    sign_counterparty (Signer:=channel_signer ka sa ea) pa = Ok sigs /\
    check_holder_tx_signatures (H1:=channel_signer kb chan.(setup) eb) chan pb.(cp_point) sigs.1 sigs.2 pb
    = Err (Status_from (policy_error "policy-revoke-new-commitment-signed")).
Proof.
  intros Htypes Hbound Hka Hkb Hp Hsame Ht Hne.
  assert (Hrebuild := rebuild_same _ _ _ _ _ _ Hp Hsame). destruct Hsame as [Hva Hvb Hpt _ _ _ _ _].
  set (ctx := rebuild_commitment false kb pb) in *.
  assert (Hpoint : ctx.(trusted_keys).(tck_per_commitment_point) = pb.(cp_point)).
  { unfold ctx. rewrite rebuilt_keys. apply derived_point. }
  destruct (map_res_exists (sign_counterparty_htlc ka (make_channel_parameters_with_setup ka sa) ctx
      (tx_compute_txid ctx.(built_transaction))) ctx.(nondust_htlcs)) as [hsigs Hsigs].
  { intros htlc. destruct (legacy_anchor_hashes ka kb sa chan.(setup) ctx htlc Hp Ht) as (?&?&?&?&?&?&?&?&->). by eexists. }
  eexists. split.
  - cbn [channel_signer sign_counterparty]. rewrite Hva, Hrebuild. by rewrite (sign_commitment_run _ _ _ hsigs Hsigs).
  - rewrite check_is_verify. fold ctx. cbn [fst snd].
    apply (stale_first_refused ka kb sa chan pb hsigs); done.
Qed.

Definition sample_setup_of (t : CommitmentType) (mine theirs : VlsChannelSigner) (outbound : bool) : ChannelSetup :=
  mkChannelSetup outbound 1000000 0 (mkOutPoint 77 0) (if outbound then 6 else 7) None theirs.(signer_pubkeys)
    (if outbound then 7 else 6) None t.

Section Witnesses.
#[local] Existing Instance sample_utils_lightning.
#[local] Existing Instance sample_signing.
#[local] Existing Instance sample_utils.
#[local] Existing Instance sample_utils_laws.
#[local] Existing Instance release_profile.

Definition sample_signer_keys (base : Z) : VlsChannelSigner :=
  VlsChannelSigner_new (base + 1) (base + 2) (base + 3) (base + 4) (base + 5) [base] [base].
Definition sample_end (t : CommitmentType) (mine theirs : Z) (outbound : bool) : ChannelSetup :=
  sample_setup_of t (sample_signer_keys mine) (sample_signer_keys theirs) outbound.
Definition sample_peer_channel (t : CommitmentType) : Channel :=
  mkChannel sample_channel.(enforcement_state) (sample_end t 20 10 false) sample_channel.(id0) None
    sample_channel.(monitor_state) None None None.
Definition sample_htlcs : list HTLCOutputInCommitment := [mkHTLCOutput true 5000000 500 9; mkHTLCOutput false 6000000 501 8].
Definition sample_signer_params (t : CommitmentType) (mine theirs : Z) (outbound : bool) (to_holder to_cp : Z) : CommitmentParams :=
  mkCommitmentParams (sample_end t mine theirs outbound) 99 5 253 to_holder to_cp sample_htlcs.

Lemma peer_signatures_accepted_witness :
  exists sigs,
    sign_counterparty (Signer:=channel_signer (sample_signer_keys 10) (sample_end AnchorsZeroFeeHtlc 10 20 true) (fun _ => []))
      (sample_signer_params AnchorsZeroFeeHtlc 10 20 true 600000 389000) = Ok sigs /\
    check_holder_tx_signatures
      (H1:=channel_signer (sample_signer_keys 20) (sample_peer_channel AnchorsZeroFeeHtlc).(setup) (fun _ => []))
      (sample_peer_channel AnchorsZeroFeeHtlc) 99 sigs.1 sigs.2
      (sample_signer_params AnchorsZeroFeeHtlc 20 10 false 389000 600000) = Ok tt.
Proof.
  apply (peer_signatures_accepted (sample_signer_keys 10) (sample_signer_keys 20) (fun _ => []) (fun _ => [])
    (sample_end AnchorsZeroFeeHtlc 10 20 true) (sample_peer_channel AnchorsZeroFeeHtlc)
    (sample_signer_params AnchorsZeroFeeHtlc 10 20 true 600000 389000)
    (sample_signer_params AnchorsZeroFeeHtlc 20 10 false 389000 600000)); [reflexivity|reflexivity|by split|by split|done].
Defined.

Lemma legacy_anchor_signatures_refused_witness :
  exists sigs,
    sign_counterparty (Signer:=channel_signer (sample_signer_keys 10) (sample_end Anchors 10 20 true) (fun _ => []))
      (sample_signer_params Anchors 10 20 true 600000 389000) = Ok sigs /\
    check_holder_tx_signatures
      (H1:=channel_signer (sample_signer_keys 20) (sample_peer_channel Anchors).(setup) (fun _ => []))
      (sample_peer_channel Anchors) 99 sigs.1 sigs.2
      (sample_signer_params Anchors 20 10 false 389000 600000)
    = Err (Status_from (policy_error "policy-revoke-new-commitment-signed")).
Proof.
  apply (legacy_anchor_signatures_refused (sample_signer_keys 10) (sample_signer_keys 20) (fun _ => []) (fun _ => [])
    (sample_end Anchors 10 20 true) (sample_peer_channel Anchors)
    (sample_signer_params Anchors 10 20 true 600000 389000)
    (sample_signer_params Anchors 20 10 false 389000 600000)); [| |reflexivity|reflexivity|by split|by split|done|done].
  - intros tx script amount hs ha. unfold p2wsh_signature_hash, sample_utils_lightning.
    destruct (bool_decide _); [|done]. intros [= <-] [= <-]. lia.
  - intros m m' sk Hm. cbn. apply Z.eqb_neq. lia.
Defined.
End Witnesses.
