(* ===== verification/ChannelRecovery.v ===== *)
(** * Signing for recovery: [vls-core/src/channel.rs]

    The calls that a recovery tool makes on a channel: rebuilding the current
    holder commitment, signing the latest one together with the second-level
    transactions of its HTLCs, and the dry run of the same.  Transactions carry
    their witnesses here, because inputs are added to signed transactions later. *)
From S2P Require Import Prelude Velocity Policy Ordered CommitInfo Types Bitcoin Script Secrets Enforcement SimpleValidator Validator NodeState Channel TxValidator ChannelTx Monitor Tracker BTree Kvv Persister Node Approver Wire Messages Withdrawal CryptoUtils ChannelSigner.

(** ** Signed transactions *)

(** The witness of an input: of a channel output, or of a wallet output. *)
Inductive InputWitness :=
| ChannelStack (stack : list WitnessElement)
| WalletStack (stack : list WitnessItem).

(** [Witness::default()]. *)
Definition empty_witness : InputWitness := WalletStack [].

Record SignedTx := mkSignedTx { st_tx : Transaction; st_witnesses : list InputWitness }.

Definition with_witness (self : SignedTx) (i : nat) (w : InputWitness) : SignedTx :=
  mkSignedTx self.(st_tx) (<[i := w]> self.(st_witnesses)).

Definition unsigned (tx : Transaction) : SignedTx := mkSignedTx tx (replicate (length tx.(input)) empty_witness).

(** [build_htlc_input_witness] of the lightning package. *)
Class HtlcWitness := build_htlc_input_witness :
  Signature -> Signature -> option Z -> ScriptBuf -> ChannelTypeFeatures -> list WitnessElement.

(** [a[..] < b[..]] of serialized keys. *)
Fixpoint bytes_lt (a b : list Z) : bool :=
  match a, b with
  | _, [] => false
  | [], _ :: _ => true
  | x :: a', y :: b' => if x =? y then bytes_lt a' b' else x <? y
  end.

(** [entry(k).or_default().push(x)] in a map ordered by key. *)
Fixpoint push_group {A : Type} (k : Z) (x : A) (m : list (Z * list A)) : list (Z * list A) :=
  match m with
  | [] => [(k, [x])]
  | (k', l) :: m' =>
      if k =? k' then (k', l ++ [x]) :: m'
      else if k <? k' then (k, [x]) :: m
      else (k', l) :: push_group k x m'
  end.

Section ChannelRecovery.
Context `{Profile} `{BitcoinLib} `{LightningLib} `{SecpSign} `{ChanUtils} `{HtlcWitness} `{InputSigner}.
Context {V : Type} `{Validator V} (validator : V) (persist : Channel -> res Status unit).
(** The keys of the channel, how long signing may draw, and what is drawn: for
    the commitment, and for each input of each second-level transaction. *)
Context (keys : VlsChannelSigner) (fuel : nat) (rand : nat -> nat -> nat -> list Z).

Abbreviation channel_method A := (method (Channel * NodeState) Status A) (only parsing).

Definition interface (self : Channel) : Signer := channel_signer keys self.(setup) (rand 0 0).

(** [recompose_holder_commitment_tx] with the transaction and its keys. *)
Definition recompose (self : Channel) (commitment_number : Z) (info2 : CommitmentInfo2)
  : res Status (CommitmentTransaction * PublicKey * TxCreationKeys) :=
  p ← recompose_holder_commitment_tx (H1:=interface self) self commitment_number info2;
  Ok (rebuild_commitment false keys p, p.(cp_point), holder_tx_keys keys self.(setup) p).

Definition get_current_holder_commitment_transaction (self : Channel) : res Status CommitmentTransaction :=
  let estate := self.(enforcement_state) in
  info2 ← ok_or internal_error estate.(current_holder_commit_info);
  commitment_number ← sub_u64 estate.(next_holder_commit_num) 1;
  '(tx, _, _) ← recompose self commitment_number info2;
  Ok tx.

Definition add_holder_sig {E : Type} (tx : SignedTx) (holder_sig counterparty_sig : Signature)
    (holder_funding_key counterparty_funding_key : PublicKey) : res E SignedTx :=
  rassert (negb (bool_decide (tx.(st_tx).(input) = []))) ;;
  let script := make_funding_redeemscript holder_funding_key counterparty_funding_key in
  let first := bytes_lt (serialize_pubkey holder_funding_key) (serialize_pubkey counterparty_funding_key) in
  let sigs := if first then [SigElement holder_sig SighashAll; SigElement counterparty_sig SighashAll]
              else [SigElement counterparty_sig SighashAll; SigElement holder_sig SighashAll] in
  Ok (with_witness tx 0 (ChannelStack (EmptyElement :: sigs ++ [ScriptElement script]))).

(** ** Second-level transactions *)
Record HTLCSigningData := mkHTLCSigningData {
  sd_htlc : IndexedHTLC;
  sd_preimage : option Z;
  sd_cp_sig : Signature;
  sd_redeemscript : ScriptBuf;
  sd_input : TxIn;
  sd_output : TxOut
}.

(** An HTLC of the commitment with its position, and its preimage. *)
Abbreviation claim := (nat * IndexedHTLC * option Z)%type (only parsing).

Definition htlc_signing_data (self : Channel) (commitment_txid : Txid) (txkeys : TxCreationKeys)
    (cp_htlc_sigs : list Signature) (feerate_per_kw : Z) (c : claim) : res Status HTLCSigningData :=
  let '(htlc_idx, htlc, preimage) := c in
  let htlc_tx := build_htlc_transaction commitment_txid feerate_per_kw
                   self.(setup).(counterparty_selected_contest_delay) htlc (features self.(setup))
                   txkeys.(tck_broadcaster_delayed_payment_key) txkeys.(tck_revocation_key) in
  cp_sig ← ok_or internal_error (cp_htlc_sigs !! htlc_idx);
  i ← unwrap (htlc_tx.(input) !! 0%nat);
  o ← unwrap (htlc_tx.(output) !! 0%nat);
  Ok (mkHTLCSigningData htlc preimage cp_sig (htlc_redeemscript htlc.(ih_htlc) (features self.(setup)) txkeys) i o).

Definition sign_htlc_input (self : Channel) (commitment_txid : Txid) (commitment_number : Z) (point : PublicKey)
    (feerate_per_kw : Z) (entropy : nat -> nat -> list Z) (tx : SignedTx) (isd : nat * HTLCSigningData)
  : res Status SignedTx :=
  let '(i, sd) := isd in
  let descriptor := mkHTLCDescriptor (make_channel_parameters_with_setup keys self.(setup)) commitment_txid
                      commitment_number point feerate_per_kw sd.(sd_htlc) sd.(sd_preimage) sd.(sd_cp_sig) in
  holder_sig ← map_err (fun _ => internal_error)
                 (sign_holder_htlc_transaction fuel keys tx.(st_tx) i descriptor (entropy i));
  Ok (with_witness tx i (ChannelStack (build_htlc_input_witness holder_sig sd.(sd_cp_sig) sd.(sd_preimage)
                                         sd.(sd_redeemscript) (features self.(setup))))).

Definition build_and_sign_batched_htlc_tx (self : Channel) (commitment_txid : Txid) (txkeys : TxCreationKeys)
    (commitment_number : Z) (point : PublicKey) (cp_htlc_sigs : list Signature) (htlcs : list claim)
    (lock_time feerate_per_kw : Z) (entropy : nat -> nat -> list Z) : res Status SignedTx :=
  signing_data ← map_res (htlc_signing_data self commitment_txid txkeys cp_htlc_sigs feerate_per_kw) htlcs;
  height ← ok_or internal_error (Height_from_consensus lock_time);
  let batched_tx := mkTransaction 2 height (sd_input <$> signing_data) (sd_output <$> signing_data) in
  fold_res (sign_htlc_input self commitment_txid commitment_number point feerate_per_kw entropy)
    (unsigned batched_tx) (imap pair signing_data).

(** The loop that sorts the HTLCs that can be claimed. *)
Definition sort_htlc (state : NodeState) (current_height : Z) (spent_htlc_indices : list bool)
    (acc : list claim * list (Z * list (nat * IndexedHTLC))) (ih : nat * IndexedHTLC)
  : list claim * list (Z * list (nat * IndexedHTLC)) :=
  let '(received, offered) := acc in
  let '(htlc_idx, htlc) := ih in
  if bool_decide (htlc.(ih_output_index) = None) then acc
  else if default false (spent_htlc_indices !! htlc_idx) then acc
  else if htlc.(ih_htlc).(oic_offered) then
    if current_height <? htlc.(ih_htlc).(oic_cltv_expiry) then acc
    else (received, push_group htlc.(ih_htlc).(oic_cltv_expiry) (htlc_idx, htlc) offered)
  else
    match state.(payments) !! htlc.(ih_htlc).(oic_payment_hash) ≫= NodeState.preimage with
    | None => acc
    | Some p => (received ++ [(htlc_idx, htlc, Some p)], offered)
    end.

(** A group of offered HTLCs to sign, and its expiry. *)
Definition htlcs_to_sign (g : Z * list (nat * IndexedHTLC)) : list claim * Z :=
  let '(cltv, htlcs) := g in ((fun '(idx, htlc) => (idx, htlc, None)) <$> htlcs, cltv).

(** What each transaction claims, with its lock time. *)
Definition claim_batches (zero_fee : bool) (received : list claim) (offered : list (Z * list (nat * IndexedHTLC)))
  : list (list claim * Z) :=
  let offered := htlcs_to_sign <$> offered in
  if zero_fee then (if bool_decide (received = []) then [] else [(received, 0)]) ++ offered
  else ((fun c => ([c], 0)) <$> received)
       ++ mjoin ((fun '(htlcs, cltv) => (fun c => ([c], cltv)) <$> htlcs) <$> offered).

Definition sign_holder_htlc_txs_for_recovery (self : Channel) (state : NodeState) (holder_tx : CommitmentTransaction)
    (commitment_txid : Txid) (txkeys : TxCreationKeys) (cp_htlc_sigs : list Signature)
    (spent_htlc_indices : list bool) (chain_height_override : option Z) : res Status (list SignedTx) :=
  commitment_number ← sub_u64 self.(enforcement_state).(next_holder_commit_num) 1;
  point ← get_per_commitment_point (H1:=interface self) self commitment_number;
  let current_height := default (get_chain_state self).(current_height) chain_height_override in
  let zero_fee := is_zero_fee_htlc self.(setup) in
  let htlc_feerate_per_kw := if zero_fee then 0 else holder_tx.(negotiated_feerate_per_kw) in
  if negb (length spent_htlc_indices =? length holder_tx.(nondust_htlcs))%nat then Err invalid_argument
  else
    let '(received, offered) :=
      fold_left (sort_htlc state current_height spent_htlc_indices) (imap pair holder_tx.(nondust_htlcs)) ([], []) in
    map_res (fun '(t, (htlcs, lock_time)) =>
               build_and_sign_batched_htlc_tx self commitment_txid txkeys commitment_number point cp_htlc_sigs htlcs
                 lock_time htlc_feerate_per_kw (rand (S t)))
      (imap pair (claim_batches zero_fee received offered)).

(** ** The holder commitment *)

(** The closing transaction, the second-level transactions, the script of our
    delayed outputs, the key that spends them and the revocation key. *)
Record RecoveryTxs := mkRecoveryTxs {
  rt_tx : SignedTx;
  rt_htlc_txs : list SignedTx;
  rt_revocable_script : ScriptBuf;
  rt_close_key : SigningKey * CloseWitness;
  rt_revocation_pubkey : PublicKey
}.

Definition sign_holder_commitment_tx_for_recovery_inner (spent_htlc_indices : list bool) (persist_close : bool)
    (chain_height_override : option Z) : channel_method RecoveryTxs :=
  '(self, state) ← get_self;
  closable ← call (get_latest_holder_commitment_for_close validator self);
  let sigs := closable.(cl_counterparty_signatures) in
  '(holder_tx, point, txkeys) ← call (recompose self closable.(cl_commitment_number) closable.(cl_info));
  let params := make_channel_parameters_with_setup keys self.(setup) in
  sig ← call (map_err (fun _ => internal_error) (sign_holder_commitment keys params holder_tx (rand 0 0)));
  let holder_funding_key := keys.(signer_pubkeys).(funding_pubkey) in
  let counterparty := self.(setup).(counterparty_points) in
  let tx_keys := holder_tx.(trusted_keys) in
  let revocable_redeemscript :=
    revokeable_redeemscript tx_keys.(tck_revocation_key) self.(setup).(counterparty_selected_contest_delay)
      tx_keys.(tck_broadcaster_delayed_payment_key) in
  tx ← call (add_holder_sig (unsigned holder_tx.(built_transaction)) sig sigs.(commit_sig) holder_funding_key
               counterparty.(funding_pubkey));
  htlc_txs ← call (sign_holder_htlc_txs_for_recovery self state holder_tx (tx_compute_txid tx.(st_tx)) txkeys
                     sigs.(htlc_sigs) spent_htlc_indices chain_height_override);
  (if persist_close then set_estate (with_closed self.(enforcement_state) true) else mret tt) ;;
  let revocation_pubkey := revocation_from_basepoint counterparty.(revocation_basepoint) point in
  ck ← call (get_unilateral_close_key self (Some point) (Some revocation_pubkey));
  (if persist_close then do_persist persist else mret tt) ;;
  mret (mkRecoveryTxs tx htlc_txs (to_p2wsh revocable_redeemscript) ck revocation_pubkey).

Definition sign_holder_commitment_tx_for_recovery (spent_htlc_indices : list bool) (chain_height_override : option Z)
  : channel_method RecoveryTxs :=
  sign_holder_commitment_tx_for_recovery_inner spent_htlc_indices true chain_height_override.

Definition sign_holder_commitment_tx_for_recovery_dry_run (spent_htlc_indices : list bool)
    (chain_height_override : option Z) : channel_method RecoveryTxs :=
  sign_holder_commitment_tx_for_recovery_inner spent_htlc_indices false chain_height_override.
End ChannelRecovery.
