(* ===== verification/Recovery.v ===== *)
(** * Recovery of funds: [vlsd/src/recovery]

    Force-closing every channel of a node without the rest of the node: the
    transactions are signed, fee inputs are added to second-level transactions,
    everything is sent to a block explorer, and outputs whose delay has passed are
    swept; on-chain funds are swept in groups of ten.  The explorer is another
    package: it answers as it likes, and every transaction that is handed to it is
    recorded.  The signer is used through the two traits of the source, which are
    the class [RecoveryKeys]; the keys of an in-process node are its instance. *)
From S2P Require Import Prelude Velocity Policy Ordered CommitInfo Types Bitcoin Script Secrets Enforcement SimpleValidator Validator NodeState Channel TxValidator ChannelTx Monitor Tracker BTree Kvv Persister Node Approver Wire Messages Withdrawal CryptoUtils ChannelSigner ChannelRecovery.

(** ** Signed 64-bit integers *)
Definition wrap_i64 (r : Z) : Z := (r + 2 ^ 63) mod 2 ^ 64 - 2 ^ 63.
Definition in_i64 (r : Z) : bool := (- 2 ^ 63 <=? r) && (r <? 2 ^ 63).
Definition arith_i64 `{Profile} {E : Type} (r : Z) : res E Z :=
  if in_i64 r then Ok r else if overflow_checks then Panic else Ok (wrap_i64 r).
Definition add_i64 `{Profile} {E : Type} (a b : Z) : res E Z := arith_i64 (a + b).
Definition sub_i64 `{Profile} {E : Type} (a b : Z) : res E Z := arith_i64 (a - b).
Definition mul_i64 `{Profile} {E : Type} (a b : Z) : res E Z := arith_i64 (a * b).

(** Weights and encodings of the bitcoin package. *)
Class TxEncoding := {
  signed_weight : SignedTx -> Z;
  txout_len : TxOut -> Z;
  varint_size : Z -> Z;
  minimal_non_dust : ScriptBuf -> Z
}.

(** ** A change output: [vls-core/src/util/transaction_utils.rs] *)
Definition MAX_VALUE_MSAT : Z := 2100000000000000000.

Section Change.
Context `{Profile} `{TxEncoding}.

(** The sum of the outputs; the loop leaves when it reaches the input value. *)
Definition add_output_value (input_value : Z) (sum : Z) (o : TxOut) : res unit Z :=
  sum ← unwrap (checked_add 64 sum o.(value));
  if input_value <=? sum then Err tt else Ok sum.

(** [a + 2 + b] of weights, and a fee of [w * feerate / 1000]. *)
Definition base_weight (tx : SignedTx) (witness_max_weight : Z) : res unit Z :=
  w ← add_i64 (wrap_i64 (signed_weight tx)) 2;
  add_i64 w (wrap_i64 witness_max_weight).

Definition fee_i64 (weight feerate : Z) : res unit Z :=
  fee ← mul_i64 weight feerate;
  Ok (Z.quot fee 1000).

Definition maybe_add_change_output (tx : SignedTx) (input_value witness_max_weight feerate_sat_per_1000_weight : Z)
    (change_destination_script : ScriptBuf) : res unit SignedTx :=
  if MAX_VALUE_MSAT / 1000 <? input_value then Err tt
  else
    output_value ← fold_res (add_output_value input_value) 0 tx.(st_tx).(output);
    let dust_value := minimal_non_dust change_destination_script in
    let change_len := txout_len (mkTxOut 0 change_destination_script) in
    let outs := Z.of_nat (length tx.(st_tx).(output)) in
    w ← base_weight tx witness_max_weight;
    c4 ← mul_i64 (wrap_i64 change_len) 4;
    w ← add_i64 w c4;
    v4 ← mul_i64 (varint_size (outs + 1) - varint_size outs) 4;
    weight_with_change ← add_i64 w v4;
    difference ← ok_or tt (checked_sub 64 input_value output_value);
    fee ← fee_i64 weight_with_change feerate_sat_per_1000_weight;
    change_value ← sub_i64 (wrap_i64 difference) fee;
    if wrap_i64 dust_value <=? change_value then
      let t := tx.(st_tx) in
      Ok (mkSignedTx (mkTransaction t.(version) t.(lock_time) t.(input)
                        (t.(output) ++ [mkTxOut (change_value mod 2 ^ 64) change_destination_script]))
            tx.(st_witnesses))
    else
      w ← base_weight tx witness_max_weight;
      fee ← fee_i64 w feerate_sat_per_1000_weight;
      rest ← sub_i64 (wrap_i64 difference) fee;
      if rest <? 0 then Err tt else Ok tx.
End Change.

(** ** The signer and the explorer *)
Record InputUtxo := mkInputUtxo { iu_outpoint : OutPoint; iu_value : Z; iu_derivation_path : DerivationPath }.

(** [RecoveryKeys] and [RecoverySign]; [K] is what lies behind the locks, [S] a
    reference to a channel.  An address is kept by its script. *)
Class RecoveryKeys (K S : Type) := {
  rk_iter : K -> list S;
  rk_sign_onchain_tx :
    Transaction -> list bool -> list DerivationPath -> list TxOut -> list (option (SigningKey * CloseWitness)) ->
    list DerivationPath -> method K Status (list (list WitnessItem));
  rk_wallet_address_native : Z -> K -> res Status ScriptBuf;
  rk_wallet_address_taproot : Z -> K -> res Status ScriptBuf;
  rk_wallet_script_pubkey_native : DerivationPath -> K -> res Status ScriptBuf;
  rk_sign_wallet_input_unchecked : Transaction -> nat -> InputUtxo -> method K Status (list WitnessItem);
  rs_sign_holder_commitment_tx_for_recovery : S -> list bool -> bool -> option Z -> method K Status RecoveryTxs;
  rs_funding_outpoint : S -> K -> res Status OutPoint;
  rs_counterparty_selected_contest_delay : S -> K -> res Status Z;
  rs_get_per_commitment_point : S -> K -> res Status PublicKey;
  rs_get_current_holder_commitment_transaction : S -> K -> res Status CommitmentTransaction;
  rs_commitment_type : S -> K -> res Status CommitmentType
}.

Inductive ExplorerError := ExplorerFailed.

Class Explorer (X : Type) := {
  ex_get_utxo_confirmations : OutPoint -> method X ExplorerError (option Z);
  ex_get_utxo_spending_tx : OutPoint -> method X ExplorerError (option Transaction);
  ex_broadcast_transaction : SignedTx -> method X ExplorerError unit
}.

Section Recovery.
Context `{Profile} `{TxEncoding} {K S : Type} `{!RecoveryKeys K S} {X : Type} `{!Explorer X}.
Context (compute_txid : Transaction -> Txid).

(** The signer, the explorer and the transactions handed to it so far. *)
Record World := mkWorld { w_keys : K; w_explorer : X; w_sent : list SignedTx }.

Abbreviation world_method A := (method World Status A) (only parsing).

Definition on_keys {A : Type} (m : method K Status A) : world_method A := fun w =>
  let '(k, r) := m w.(w_keys) in (mkWorld k w.(w_explorer) w.(w_sent), r).

Definition read_keys {A : Type} (f : K -> res Status A) : world_method A := fun w => (w, f w.(w_keys)).

(** A request to the explorer; its error is a value. *)
Definition explore {A : Type} (m : method X ExplorerError A) : world_method (res ExplorerError A) := fun w =>
  let '(x, r) := m w.(w_explorer) in
  (mkWorld w.(w_keys) x w.(w_sent), match r with Panic => Panic | _ => Ok r end).

Definition broadcast (tx : SignedTx) : world_method (res ExplorerError unit) := fun w =>
  explore (ex_broadcast_transaction tx) (mkWorld w.(w_keys) w.(w_explorer) (w.(w_sent) ++ [tx])).

(** [expect]. *)
Definition expect {E A : Type} (m : world_method (res E A)) : world_method A :=
  r ← m; match r with Ok a => mret a | _ => call Panic end.

Definition expecting {A : Type} (m : world_method A) : world_method A := fun w =>
  match m w with (w', Err _) => (w', Panic) | o => o end.

(** ** Fees for second-level transactions *)
Definition P2WPKH_INPUT_WITNESS_SIZE : Z := 1 + 1 + 73 + 1 + 33.

Definition add_fee_to_htlc_tx (tx : SignedTx) (fee_utxo : InputUtxo) (fee_rate : Z)
  : method K Status (SignedTx * option InputUtxo) :=
  let t := tx.(st_tx) in
  let fee_input_index := length t.(input) in
  let tx := mkSignedTx (mkTransaction t.(version) t.(lock_time) (t.(input) ++ [mkTxIn fee_utxo.(iu_outpoint) 0]) t.(output))
              (tx.(st_witnesses) ++ [empty_witness]) in
  htlc_output_value ← call (fold_res (fun sum (o : TxOut) => ok_or internal_error (checked_add 64 sum o.(value))) 0 t.(output));
  input_value ← call (ok_or internal_error (checked_add 64 htlc_output_value fee_utxo.(iu_value)));
  change_script ← (fun k => (k, rk_wallet_script_pubkey_native (S:=S) fee_utxo.(iu_derivation_path) k));
  tx ← call (map_err (fun _ => invalid_argument)
               (maybe_add_change_output tx input_value P2WPKH_INPUT_WITNESS_SIZE fee_rate change_script));
  let outputs := tx.(st_tx).(output) in
  let change_utxo :=
    if (length t.(output) <? length outputs)%nat then
      let change_vout := (length outputs - 1)%nat in
      (fun o : TxOut => mkInputUtxo (mkOutPoint (compute_txid tx.(st_tx)) (Z.of_nat change_vout mod 2 ^ 32)) o.(value)
                          fee_utxo.(iu_derivation_path)) <$> outputs !! change_vout
    else None in
  fee_witness ← rk_sign_wallet_input_unchecked (S:=S) tx.(st_tx) fee_input_index fee_utxo;
  if bool_decide (fee_witness = []) then call (Err internal_error)
  else mret (with_witness tx fee_input_index (WalletStack fee_witness), change_utxo).

(** The inner loop: the next fee input is tried when one fails. *)
Fixpoint fund_htlc_tx (htlc_tx : SignedTx) (fee_rate : Z) (fee_utxo : InputUtxo) (provided_utxos : list InputUtxo)
  : method K Status (SignedTx * option InputUtxo * list InputUtxo) := fun k =>
  match add_fee_to_htlc_tx htlc_tx fee_utxo fee_rate k with
  | (k', Ok (funded_tx, change_utxo)) => (k', Ok (funded_tx, change_utxo, provided_utxos))
  | (k', Err _) =>
      match provided_utxos with
      | [] => (k', Err invalid_argument)
      | next :: rest => fund_htlc_tx htlc_tx fee_rate next rest k'
      end
  | (k', Panic) => (k', Panic)
  end.

Definition take_utxo (current : option InputUtxo) (provided : list InputUtxo) : option (InputUtxo * list InputUtxo) :=
  match current, provided with
  | Some u, _ => Some (u, provided)
  | None, u :: rest => Some (u, rest)
  | None, [] => None
  end.

Fixpoint fund_htlc_txs (htlc_txs : list SignedTx) (fee_rate : Z) (current : option InputUtxo)
    (provided_utxos : list InputUtxo) : method K Status (list SignedTx) :=
  match htlc_txs with
  | [] => mret []
  | htlc_tx :: htlc_txs' =>
      match take_utxo current provided_utxos with
      | None => call (Err invalid_argument)
      | Some (u, rest) =>
          '(funded_tx, change_utxo, rest) ← fund_htlc_tx htlc_tx fee_rate u rest;
          result ← fund_htlc_txs htlc_txs' fee_rate change_utxo rest;
          mret (funded_tx :: result)
      end
  end.

Definition add_fee_to_htlc_txs (htlc_txs : list SignedTx) (fee_rate : Z) (input_utxos : list InputUtxo)
  : method K Status (list SignedTx) :=
  match htlc_txs with
  | [] => mret []
  | _ => fund_htlc_txs htlc_txs fee_rate (head input_utxos) (tail input_utxos)
  end.

(** An error leaves the channel without second-level transactions. *)
Definition fund_or_drop (htlc_txs : list SignedTx) (anchor_fee_rate : option Z) (input_utxos : list InputUtxo)
  : world_method (list SignedTx) := fun w =>
  match anchor_fee_rate with
  | None => (w, Ok htlc_txs)
  | Some fee_rate =>
      match on_keys (add_fee_to_htlc_txs htlc_txs fee_rate input_utxos) w with
      | (w', Err _) => (w', Ok [])
      | o => o
      end
  end.

(** ** What is on the chain *)
Record HtlcSpendStatus := mkHtlcSpendStatus { spent_indices : list bool; spender_txs : list Transaction }.

Fixpoint htlc_spends (lookup_spending_txs : bool) (commitment_txid : Txid) (seen : list Txid) (htlcs : list IndexedHTLC)
  : world_method HtlcSpendStatus :=
  match htlcs with
  | [] => mret (mkHtlcSpendStatus [] [])
  | htlc :: htlcs' =>
      '(spent, spender) ←
        match htlc.(ih_output_index) with
        | None => mret (false, None)
        | Some vout =>
            let outpoint := mkOutPoint commitment_txid vout in
            confirmations ← explore (ex_get_utxo_confirmations outpoint);
            match confirmations with
            | Ok None =>
                if lookup_spending_txs then
                  r ← explore (ex_get_utxo_spending_tx outpoint);
                  mret (true, match r with Ok (Some t) => if bool_decide (compute_txid t ∈ seen) then None else Some t
                              | _ => None end)
                else mret (true, None)
            | _ => mret (false, None)
            end
        end;
      rest ← htlc_spends lookup_spending_txs commitment_txid
               (match spender with Some t => compute_txid t :: seen | None => seen end) htlcs';
      mret (mkHtlcSpendStatus (spent :: rest.(spent_indices)) (option_list spender ++ rest.(spender_txs)))
  end.

(** The explorer is there when this is called with [online]. *)
Definition get_htlc_spend_status (online : bool) (commitment_tx : CommitmentTransaction) (lookup_spending_txs : bool)
  : world_method HtlcSpendStatus :=
  let htlcs := commitment_tx.(nondust_htlcs) in
  if negb online then mret (mkHtlcSpendStatus (replicate (length htlcs) false) [])
  else htlc_spends lookup_spending_txs (compute_txid commitment_tx.(built_transaction)) [] htlcs.

Fixpoint broadcast_htlc_txs (htlc_txs : list SignedTx) (dry_run : bool) : world_method unit :=
  match htlc_txs with
  | [] => mret tt
  | htlc_tx :: htlc_txs' =>
      (if dry_run then mret tt else broadcast htlc_tx ;; mret tt) ;;
      broadcast_htlc_txs htlc_txs' dry_run
  end.

(** One output; an index above 16 bits is skipped. *)
Definition delayed_output (txid : Txid) (delayed_script_pubkey : ScriptBuf) (required_confirms : Z)
    (point revocation_pubkey : PublicKey) (io : nat * TxOut) : world_method (list DelayedPaymentOutputDescriptor) :=
  let '(idx, o) := io in
  if negb (o.(script_pubkey) =? delayed_script_pubkey) then mret []
  else if negb (in_range 16 (Z.of_nat idx)) then mret []
  else
    let outpoint := mkOutPoint txid (Z.of_nat idx) in
    confirms ← explore (ex_get_utxo_confirmations outpoint);
    match confirms with
    | Ok (Some confirms) =>
        mret (if required_confirms <=? confirms
              then [mkDelayedPaymentOutputDescriptor outpoint point required_confirms o revocation_pubkey] else [])
    | _ => mret []
    end.

Fixpoint concat_each {A B : Type} (f : A -> world_method (list B)) (l : list A) : world_method (list B) :=
  match l with
  | [] => mret []
  | x :: l' => r ← f x; rest ← concat_each f l'; mret (r ++ rest)
  end.

Definition collect_delayed_sweep_outputs (delayed_script_pubkey : ScriptBuf) (required_confirms : Z)
    (point revocation_pubkey : PublicKey) (tx : Transaction) : world_method (list DelayedPaymentOutputDescriptor) :=
  concat_each (delayed_output (compute_txid tx) delayed_script_pubkey required_confirms point revocation_pubkey)
    (imap pair tx.(output)).

(** ** Closing the channels *)

(** Counts of things in memory. *)
Record CloseRecoveryProgress := mkProgress {
  total_channels : nat;
  prepared_channels : nat;
  skipped_channels : nat;
  holder_close_txs : nat;
  htlc_tx_count : nat;
  delayed_outputs_ready : nat;
  delayed_sweep_txs : nat
}.

Definition progress_new (total : nat) : CloseRecoveryProgress := mkProgress total 0 0 0 0 0 0.

Definition record_channel (self : CloseRecoveryProgress) (close_txs htlc_txs ready : nat) : CloseRecoveryProgress :=
  mkProgress self.(total_channels) (self.(prepared_channels) + 1) self.(skipped_channels)
    (self.(holder_close_txs) + close_txs) (self.(htlc_tx_count) + htlc_txs) (self.(delayed_outputs_ready) + ready)
    self.(delayed_sweep_txs).

Definition record_skip (self : CloseRecoveryProgress) : CloseRecoveryProgress :=
  mkProgress self.(total_channels) self.(prepared_channels) (self.(skipped_channels) + 1) self.(holder_close_txs)
    self.(htlc_tx_count) self.(delayed_outputs_ready) self.(delayed_sweep_txs).

Definition record_delayed_sweep_tx (self : CloseRecoveryProgress) : CloseRecoveryProgress :=
  mkProgress self.(total_channels) self.(prepared_channels) self.(skipped_channels) self.(holder_close_txs)
    self.(htlc_tx_count) self.(delayed_outputs_ready) (self.(delayed_sweep_txs) + 1).

(** What the body of the loop over the channels comes to: [continue] after
    [record_skip], or [record_channel] with these counts and the outputs to sweep. *)
Abbreviation sweep := (DelayedPaymentOutputDescriptor * (SigningKey * CloseWitness))%type (only parsing).
Inductive ChannelOutcome :=
| Skipped
| Prepared (close_txs htlc_txs : nat) (sweeps : list sweep).

(** [None] is a skipped channel. *)
Definition anchor_fee_rate_for (commitment_type : CommitmentType) (fee_rate : option Z) (input_utxos : list InputUtxo)
  : option (option Z) :=
  match commitment_type with
  | AnchorsZeroFeeHtlc =>
      match fee_rate with
      | None => None
      | Some fee_rate =>
          if fee_rate =? 0 then None
          else if bool_decide (input_utxos = []) then None
          else Some (Some fee_rate)
      end
  | StaticRemoteKey => Some None
  | _ => None
  end.

(** [true] when the funding output was spent by our transaction. *)
Definition holder_closed (funding_outpoint : OutPoint) (txid : Txid) : world_method bool :=
  r ← explore (ex_get_utxo_spending_tx funding_outpoint);
  match r with
  | Ok (Some stx) => mret (compute_txid stx =? txid)
  | _ => mret false
  end.

(** The outputs of a closed channel whose delay has passed. *)
Definition collect_sweeps (signer : S) (txs : RecoveryTxs) (htlc_txs : list SignedTx) (spenders : list Transaction)
    (reconstruct_holder_htlcs : bool) : world_method (list sweep) :=
  required_confirms ← read_keys (rs_counterparty_selected_contest_delay signer);
  point ← expecting (read_keys (rs_get_per_commitment_point signer));
  let collect := collect_delayed_sweep_outputs txs.(rt_revocable_script) required_confirms point txs.(rt_revocation_pubkey) in
  first ← collect txs.(rt_tx).(st_tx);
  second ← (if reconstruct_holder_htlcs then concat_each (fun t => collect t.(st_tx)) htlc_txs else mret []);
  third ← concat_each collect spenders;
  mret ((fun d => (d, txs.(rt_close_key))) <$> first ++ second ++ third).

Section Settings.
Context (fee_rate : option Z) (input_utxos : list InputUtxo) (online can_lookup_spending_tx dry_run : bool).
Context (chain_height_override : option Z).

(** A channel whose funding output is spent. *)
Definition recover_closed_channel (signer : S) (funding_outpoint : OutPoint) (anchor_fee_rate : option Z)
    (reconstruct_holder_htlcs : bool) (spenders : list Transaction) (txs : RecoveryTxs) (htlc_txs : list SignedTx)
  : world_method ChannelOutcome :=
  ours ← (if bool_decide (is_Some anchor_fee_rate) && can_lookup_spending_tx
          then holder_closed funding_outpoint (compute_txid txs.(rt_tx).(st_tx)) else mret true);
  if negb ours then mret Skipped
  else
    broadcast_htlc_txs htlc_txs dry_run ;;
    sweeps ← collect_sweeps signer txs htlc_txs spenders reconstruct_holder_htlcs;
    mret (Prepared 0 (length htlc_txs) sweeps).

Definition recover_channel (signer : S) : world_method ChannelOutcome :=
  funding_outpoint ← read_keys (rs_funding_outpoint signer);
  commitment_type ← read_keys (rs_commitment_type signer);
  match anchor_fee_rate_for commitment_type fee_rate input_utxos with
  | None => mret Skipped
  | Some anchor_fee_rate =>
      current_commitment_tx ← expecting (read_keys (rs_get_current_holder_commitment_transaction signer));
      funding_confirms ← (if online then expect (explore (ex_get_utxo_confirmations funding_outpoint)) else mret None);
      let is_open := bool_decide (is_Some funding_confirms) in
      let reconstruct_holder_htlcs := negb is_open && negb can_lookup_spending_tx in
      status ← (if negb online || is_open || reconstruct_holder_htlcs
                then mret (mkHtlcSpendStatus (replicate (length current_commitment_tx.(nondust_htlcs)) false) [])
                else get_htlc_spend_status online current_commitment_tx can_lookup_spending_tx);
      txs ← expecting (on_keys (rs_sign_holder_commitment_tx_for_recovery signer status.(spent_indices) dry_run
                                  chain_height_override));
      htlc_txs ← fund_or_drop txs.(rt_htlc_txs) anchor_fee_rate input_utxos;
      if negb online then mret (Prepared 1 (length htlc_txs) [])
      else if is_open then
        (if dry_run then mret tt else expect (broadcast txs.(rt_tx))) ;;
        broadcast_htlc_txs htlc_txs dry_run ;;
        mret (Prepared 1 (length htlc_txs) [])
      else recover_closed_channel signer funding_outpoint anchor_fee_rate reconstruct_holder_htlcs
             status.(spender_txs) txs htlc_txs
  end.

Fixpoint recover_channels (progress : CloseRecoveryProgress) (signers : list S)
  : world_method (CloseRecoveryProgress * list sweep) :=
  match signers with
  | [] => mret (progress, [])
  | signer :: signers' =>
      outcome ← recover_channel signer;
      let '(progress, sweeps) :=
        match outcome with
        | Skipped => (record_skip progress, [])
        | Prepared close_txs htlc_txs sweeps => (record_channel progress close_txs htlc_txs (length sweeps), sweeps)
        end in
      '(progress, rest) ← recover_channels progress signers';
      mret (progress, sweeps ++ rest)
  end.

(** ** Sweeping: [vlsd/src/tx_util.rs] *)
(** [DelayedPaymentOutputDescriptor::MAX_WITNESS_LENGTH]. *)
Context (max_witness_length : Z).

(** Input values, the weight of the witnesses and the outpoints seen so far. *)
Definition add_descriptor (acc : Z * Z * list OutPoint) (d : DelayedPaymentOutputDescriptor)
  : res unit (Z * Z * list OutPoint) :=
  let '(input_value, witness_weight, seen) := acc in
  witness_weight ← add_u64 witness_weight max_witness_length;
  input_value ← add_u64 input_value d.(dp_output).(value);
  if bool_decide (d.(dp_outpoint) ∈ seen) then Err tt
  else if MAX_VALUE_MSAT / 1000 <? input_value then Err tt
  else Ok (input_value, witness_weight, d.(dp_outpoint) :: seen).

Definition create_spending_transaction (descriptors : list DelayedPaymentOutputDescriptor) (output_script : ScriptBuf)
    (feerate_sat_per_1000_weight : Z) : res unit SignedTx :=
  '(input_value, witness_weight, _) ← fold_res add_descriptor (0, 0, []) descriptors;
  let spend_tx := mkTransaction 2 0 ((fun d => mkTxIn d.(dp_outpoint) d.(dp_to_self_delay)) <$> descriptors) [] in
  maybe_add_change_output (unsigned spend_tx) input_value witness_weight feerate_sat_per_1000_weight output_script.

(** [tx.input[i].witness = ...] for every witness. *)
Definition fill_witnesses (tx : SignedTx) (witnesses : list (list WitnessItem)) : res Status SignedTx :=
  fold_res (fun tx '(i, w) =>
              rassert (bool_decide (i < length tx.(st_tx).(input))%nat) ;;
              Ok (with_witness tx i (WalletStack w))) tx (imap pair witnesses).

Definition spend_delayed_outputs (descriptors : list DelayedPaymentOutputDescriptor)
    (unilateral_close_key : SigningKey * CloseWitness) (output_script : ScriptBuf) (opath : DerivationPath)
    (feerate_sat_per_1000_weight : Z) : world_method SignedTx :=
  tx ← call (unwrap (match create_spending_transaction descriptors output_script feerate_sat_per_1000_weight with
                     | Ok tx => Some tx
                     | _ => None
                     end));
  witnesses ← expecting (on_keys (rk_sign_onchain_tx (S:=S) tx.(st_tx) [] ((fun _ => []) <$> descriptors)
                                    (dp_output <$> descriptors) ((fun _ => Some unilateral_close_key) <$> descriptors)
                                    [opath]));
  call (rassert (length witnesses =? length tx.(st_tx).(input))%nat) ;;
  call (fill_witnesses tx witnesses).

Fixpoint sweep_each (output_script : ScriptBuf) (progress : CloseRecoveryProgress) (sweeps : list sweep)
  : world_method CloseRecoveryProgress :=
  match sweeps with
  | [] => mret progress
  | (descriptor, uck) :: sweeps' =>
      sweep_tx ← spend_delayed_outputs [descriptor] uck output_script [] 1000;
      (if dry_run then mret tt else if online then expect (broadcast sweep_tx) else mret tt) ;;
      sweep_each output_script (record_delayed_sweep_tx progress) sweeps'
  end.

(** [Allowable::to_script]. *)
Definition allowable_to_script (a : Allowable) : option ScriptBuf :=
  match a with Script script => Some script | _ => None end.

(** [destination] is [Allowable::from_str] of the argument, looked at when there
    is something to sweep. *)
Definition recover_close_inner (destination : option Allowable) : world_method CloseRecoveryProgress :=
  w ← get_self;
  let signers := rk_iter w.(w_keys) in
  '(progress, sweeps) ← recover_channels (progress_new (length signers)) signers;
  if bool_decide (sweeps = []) then mret progress
  else
    output_script ← call (unwrap (destination ≫= allowable_to_script));
    sweep_each output_script progress sweeps.
End Settings.
End Recovery.

(** ** On-chain funds *)
Record UtxoResponse := mkUtxoResponse { ur_txid : Txid; ur_vout : Z; ur_value : Z }.

(** The requests of [get_utxos] and [get_feerate]; the estimate for 24 blocks is
    a floating-point number, which the client turns into satoshis per 1000 units. *)
Class Esplora (X : Type) := {
  es_get_utxos : ScriptBuf -> method X ExplorerError (list UtxoResponse);
  es_get_feerate : method X ExplorerError Z
}.

Section L1.
Context `{Profile} `{TxEncoding} {K S : Type} `{!RecoveryKeys K S} {X : Type} `{!Explorer X} `{!Esplora X}.

Abbreviation world := (World (K:=K) (X:=X)) (only parsing).
Abbreviation l1_utxo := (Z * UtxoResponse * ScriptBuf)%type (only parsing).

(** [Amount -= Amount] panics below zero in both profiles. *)
Definition sub_amount {E : Type} (a b : Z) : res E Z := unwrap (checked_sub 64 a b).

Definition make_l1_sweep (destination_script : ScriptBuf) (chunk : list l1_utxo) (feerate_per_kw : Z)
  : method world Status (option SignedTx) :=
  value ← call (sum_u64 ((fun '(_, u, _) => u.(ur_value)) <$> chunk));
  let inputs := (fun '(_, u, _) => mkTxIn (mkOutPoint u.(ur_txid) u.(ur_vout)) 0) <$> chunk in
  let tx v := unsigned (mkTransaction 2 0 inputs [mkTxOut v destination_script]) in
  fee ← call (mul_u64 feerate_per_kw (signed_weight (tx value)));
  let total_fee := fee / 1000 in
  limit ← call (sub_u64 value 1000);
  if limit <? total_fee then mret None
  else
    v ← call (sub_amount value total_fee);
    let ipaths := (fun '(i, _, _) => [i]) <$> chunk in
    let prev_outs := (fun '(_, u, script_pubkey) => mkTxOut u.(ur_value) script_pubkey) <$> chunk in
    witnesses ← expecting (on_keys (rk_sign_onchain_tx (S:=S) (tx v).(st_tx) [] ipaths prev_outs ((fun _ => None) <$> chunk) [[]]));
    tx ← call (fill_witnesses (tx v) witnesses);
    mret (Some tx).

(** The outputs of the two addresses of a wallet index. *)
Definition scan_index (index : Z) : method world Status (list l1_utxo) :=
  address ← expecting (read_keys (rk_wallet_address_native (S:=S) index));
  native ← expect (explore (es_get_utxos address));
  taproot_address ← expecting (read_keys (rk_wallet_address_taproot (S:=S) index));
  taproot ← expect (explore (es_get_utxos taproot_address));
  mret (((fun u => (index, u, address)) <$> native) ++ ((fun u => (index, u, taproot_address)) <$> taproot)).

(** [utxos.chunks(10)]. *)
Fixpoint chunks10 {A : Type} (fuel : nat) (l : list A) : list (list A) :=
  match fuel, l with
  | Datatypes.S fuel', _ :: _ => take 10 l :: chunks10 fuel' (drop 10 l)
  | _, _ => []
  end.

Fixpoint sweep_chunks (destination_script : ScriptBuf) (feerate_per_kw : Z) (dry_run : bool) (chunks : list (list l1_utxo))
  : method world Status nat :=
  match chunks with
  | [] => mret 0%nat
  | chunk :: chunks' =>
      swept ← make_l1_sweep destination_script chunk feerate_per_kw;
      match swept with
      | None => mret tt
      | Some tx => if dry_run then mret tt else expect (broadcast tx)
      end ;;
      prepared ← sweep_chunks destination_script feerate_per_kw dry_run chunks';
      mret ((if bool_decide (is_Some swept) then 1 else 0) + prepared)%nat
  end.

(** [destination] is the parsed address when it is valid for the network. *)
Definition recover_l1 (destination : option ScriptBuf) (max_index : nat) (dry_run : bool) : method world Status nat :=
  utxos ← concat_each (fun i => scan_index (Z.of_nat i)) (seq 0 max_index);
  destination_script ← call (unwrap destination);
  feerate_per_kw ← expect (explore es_get_feerate);
  sweep_chunks destination_script feerate_per_kw dry_run (chunks10 (length utxos) utxos).
End L1.

(** ** The keys of an in-process node: [vlsd/src/recovery/direct.rs] *)
Section Direct.
Context `{Profile} `{BitcoinLib} `{LightningLib} `{SpendScripts} `{ChainPackages} `{CommitmentPointProvider} `{WalletKeys}.
Context `{InputSigner} `{SecpSign} `{ChanUtils} `{HtlcWitness}.
Context {P : Type} `{!Persist P} {V : Type} `{HV : Validator V} `{TransactionValidator V NodeWallet}.
Context (validator : V) (persist : Channel -> res Status unit).
(** The keys of a channel by its id, and the randomness of its signatures. *)
Context (channel_keys : ChannelId -> VlsChannelSigner) (fuel : nat) (rand : nat -> nat -> nat -> list Z).

(** The node, and the clock with the number of its readings so far. *)
Record DirectRecoveryKeys := mkDirectRecoveryKeys { dk_node : Node (P:=P); dk_clock : nat -> Z; dk_readings : nat }.

Definition on_direct_node {A : Type} (m : method (Node (P:=P)) Status A) : method DirectRecoveryKeys Status A := fun self =>
  let '(n, r) := m self.(dk_node) in (mkDirectRecoveryKeys n self.(dk_clock) self.(dk_readings), r).

Definition clock_now : method DirectRecoveryKeys Status Z := fun self =>
  (mkDirectRecoveryKeys self.(dk_node) self.(dk_clock) (S self.(dk_readings)), Ok (self.(dk_clock) self.(dk_readings))).

(** [Iter] takes the channels from the end. *)
Definition direct_iter (self : DirectRecoveryKeys) : list nat :=
  let n := self.(dk_node) in
  reverse (omap (fun '(_, r) => match n.(slots) !! r with Some (ReadySlot _ _) => Some r | _ => None end)
             (btree_iter n.(channels))).

Definition direct_channel (r : nat) (self : DirectRecoveryKeys) : res Status (Channel * nat) :=
  match self.(dk_node).(slots) !! r with
  | Some (ReadySlot chan monitor) => Ok (chan, monitor)
  | _ => Panic
  end.

Definition direct_sign_onchain_tx (tx : Transaction) (segwit_flags : list bool) (ipaths : list DerivationPath)
    (prev_outs : list TxOut) (uniclosekeys : list (option (SigningKey * CloseWitness))) (opaths : list DerivationPath)
  : method DirectRecoveryKeys Status (list (list WitnessItem)) :=
  now ← clock_now;
  let stack_lens := (fun o : option (SigningKey * CloseWitness) => (fun '(key, w) => item_len <$> close_stack key w) <$> o)
                      <$> uniclosekeys in
  on_direct_node (fun n =>
    let '(n, r) := check_onchain_tx validator tx_compute_txid now tx segwit_flags prev_outs stack_lens opaths n in
    (n, map_err Status_from r)) ;;
  on_direct_node (fun n =>
    unchecked_sign_onchain_tx tx_compute_txid (sign_inputs (node_wallet n) tx ipaths prev_outs uniclosekeys) tx n).

Definition direct_sign_wallet_input_unchecked (tx : Transaction) (input_index : nat) (input_utxo : InputUtxo)
  : method DirectRecoveryKeys Status (list WitnessItem) :=
  let inputs := length tx.(input) in
  if (inputs <=? input_index)%nat then call (Err invalid_argument)
  else if bool_decide (input_utxo.(iu_derivation_path) = []) then call (Err invalid_argument)
  else
    self ← get_self;
    script ← call (get_native_address (node_wallet self.(dk_node)) input_utxo.(iu_derivation_path));
    let ipaths := <[input_index := input_utxo.(iu_derivation_path)]> (replicate inputs []) in
    let prev_outs := <[input_index := mkTxOut input_utxo.(iu_value) script]> (replicate inputs (mkTxOut 0 ScriptBuf_new)) in
    witnesses ← on_direct_node (fun n =>
      unchecked_sign_onchain_tx tx_compute_txid (sign_inputs (node_wallet n) tx ipaths prev_outs (replicate inputs None)) tx n);
    call (ok_or internal_error (witnesses !! input_index)).

Definition direct_sign_for_recovery (r : nat) (spent_htlc_indices : list bool) (dry_run : bool)
    (chain_height_override : option Z) : method DirectRecoveryKeys Status RecoveryTxs :=
  self ← get_self;
  '(chan, monitor) ← call (direct_channel r self);
  let keys := channel_keys chan.(id0) in
  on_direct_node (run_channel r chan monitor
    (if dry_run
     then sign_holder_commitment_tx_for_recovery_dry_run validator persist keys fuel rand spent_htlc_indices chain_height_override
     else sign_holder_commitment_tx_for_recovery validator persist keys fuel rand spent_htlc_indices chain_height_override)).

(** [op.vout as u16]. *)
Definition direct_funding_outpoint (r : nat) (self : DirectRecoveryKeys) : res Status OutPoint :=
  '(chan, _) ← direct_channel r self;
  let op := chan.(setup).(Types.funding_outpoint) in
  Ok (mkOutPoint op.(txid) (op.(vout) mod 2 ^ 16)).

Definition direct_get_per_commitment_point (r : nat) (self : DirectRecoveryKeys) : res Status PublicKey :=
  '(chan, _) ← direct_channel r self;
  n ← sub_u64 chan.(enforcement_state).(next_holder_commit_num) 1;
  get_per_commitment_point (H1:=interface (channel_keys chan.(id0)) rand chan) chan n.

#[export] Instance DirectRecoveryKeys_keys : RecoveryKeys DirectRecoveryKeys nat := {|
  rk_iter := direct_iter;
  rk_sign_onchain_tx := direct_sign_onchain_tx;
  rk_wallet_address_native index self := get_native_address (node_wallet self.(dk_node)) [index];
  rk_wallet_address_taproot index self := get_taproot_address (node_wallet self.(dk_node)) [index];
  rk_wallet_script_pubkey_native path self := get_native_address (node_wallet self.(dk_node)) path;
  rk_sign_wallet_input_unchecked := direct_sign_wallet_input_unchecked;
  rs_sign_holder_commitment_tx_for_recovery := direct_sign_for_recovery;
  rs_funding_outpoint := direct_funding_outpoint;
  rs_counterparty_selected_contest_delay r self :=
    '(chan, _) ← direct_channel r self; Ok chan.(setup).(counterparty_selected_contest_delay);
  rs_get_per_commitment_point := direct_get_per_commitment_point;
  rs_get_current_holder_commitment_transaction r self :=
    '(chan, _) ← direct_channel r self;
    get_current_holder_commitment_transaction (channel_keys chan.(id0)) rand chan;
  rs_commitment_type r self := '(chan, _) ← direct_channel r self; Ok chan.(setup).(commitment_type)
|}.
End Direct.
