(* ===== verification/RecoverySafety.v ===== *)
(** * Properties of the recovery of funds

    Fee inputs and change, the second-level transactions of a channel, dry runs,
    and what is handed to the explorer. *)
From S2P Require Import Prelude Velocity Policy Ordered CommitInfo Types Bitcoin Script Secrets Enforcement SimpleValidator Validator NodeState Channel TxValidator ChannelTx Monitor Tracker BTree Kvv Persister Node NodeChannels Approver Wire Messages Withdrawal CryptoUtils ChannelSafety ChannelSigner ChannelRecovery Recovery.

(** ** A change output *)
Section Change.
Context `{Profile} `{TxEncoding}.

(** Weights and sizes far below what a block can hold, for which the 64-bit
    arithmetic is exact. *)
Record encodable (tx : SignedTx) (witness feerate : Z) (script : ScriptBuf) : Prop := {
  en_weight : 0 <= signed_weight tx < 2 ^ 28;
  en_witness : 0 <= witness < 2 ^ 28;
  en_feerate : 0 <= feerate < 2 ^ 32;
  en_script : 0 <= txout_len (mkTxOut 0 script) < 2 ^ 24;
  en_varint : let outs := Z.of_nat (length tx.(st_tx).(output)) in
              0 <= varint_size (outs + 1) - varint_size outs < 9;
  en_dust : 0 <= minimal_non_dust script < 2 ^ 32;
  en_values : Forall (fun o : TxOut => 0 <= o.(value)) tx.(st_tx).(output)
}.

Lemma arith_i64_exact {E : Type} (r : Z) : - 2 ^ 63 <= r < 2 ^ 63 -> arith_i64 (E:=E) r = Ok r.
Proof.
  intros Hr. unfold arith_i64, in_i64. destruct (Z.leb_spec (- 2 ^ 63) r), (Z.ltb_spec r (2 ^ 63)); try lia. done.
Qed.

Lemma wrap_i64_exact (r : Z) : - 2 ^ 63 <= r < 2 ^ 63 -> wrap_i64 r = r.
Proof. intros Hr. unfold wrap_i64. rewrite Z.mod_small by lia. lia. Qed.

Lemma output_sum (input_value : Z) (outs : list TxOut) (v0 v : Z) :
  fold_res (add_output_value input_value) v0 outs = Ok v -> v = v0 + zsum (value <$> outs) /\ (outs <> [] -> v < input_value).
Proof.
  revert v0. induction outs as [|o outs IH]; intros v0 Hf; cbn [fold_res] in Hf.
  - injection Hf as <-. rewrite Z.add_0_r. done.
  - destruct (add_output_value input_value v0 o) as [s| |] eqn:Hs; [|done..]. cbn [mbind res_bind] in Hf.
    apply IH in Hf as [-> Hv]. unfold add_output_value, checked_add, checked in Hs.
    destruct (in_range 64 (v0 + o.(value))); [|done]. cbn [unwrap mbind res_bind] in Hs.
    destruct (Z.leb_spec input_value (v0 + o.(value))) as [Hle|Hlt]; [done|]. injection Hs as <-.
    change (value <$> o :: outs) with (o.(value) :: (value <$> outs)). unfold zsum in *. cbn [foldr].
    split; [lia|]. intros _. destruct outs; [cbn; lia|by apply Hv].
Qed.

(** The transaction with an output appended. *)
Definition with_change (tx : SignedTx) (change : list TxOut) : SignedTx :=
  let t := tx.(st_tx) in
  mkSignedTx (mkTransaction t.(version) t.(lock_time) t.(input) (t.(output) ++ change)) tx.(st_witnesses).

Lemma with_no_change (tx : SignedTx) : with_change tx [] = tx.
Proof. unfold with_change. rewrite app_nil_r. by destruct tx as [[] ?]. Qed.

(** What is not paid out covers the fee of the transaction without change, and
    a change output is above the dust limit. *)
Lemma change_spec (tx tx' : SignedTx) (v wmax rate : Z) (script : ScriptBuf) :
  encodable tx wmax rate script -> 0 <= v ->
  maybe_add_change_output tx v wmax rate script = Ok tx' ->
  exists change,
    tx' = with_change tx change /\
    (change = [] \/ exists c, change = [mkTxOut c script] /\ minimal_non_dust script <= c) /\
    zsum (value <$> tx.(st_tx).(output)) <= v /\
    (signed_weight tx + 2 + wmax) * rate / 1000 <= v - zsum (value <$> tx.(st_tx).(output)) - zsum (value <$> change).
Proof.
  intros [Hw Hm Hr Hl Hv Hd Hvals] Hv0. unfold maybe_add_change_output. unfold MAX_VALUE_MSAT.
  destruct (Z.ltb_spec (2100000000000000000 / 1000) v) as [|Hmax]; [done|].
  assert (Hmax' : v <= 2100000000000000) by exact Hmax. clear Hmax.
  destruct (fold_res _ 0 _) as [sum| |] eqn:Hsum; [|done..]. apply output_sum in Hsum as [-> Hlt].
  cbn [mbind res_bind]. cbv zeta in Hv.
  assert (Hpos : 0 <= zsum (value <$> tx.(st_tx).(output))).
  { clear -Hvals. induction Hvals as [|o l Ho _ IH]; [done|].
    change (value <$> o :: l) with (o.(value) :: (value <$> l)). unfold zsum in *. cbn [foldr]. lia. }
  set (outs := zsum (value <$> tx.(st_tx).(output))) in *. rewrite Z.add_0_l in Hlt |- *.
  unfold base_weight, fee_i64, add_i64, mul_i64, sub_i64.
  rewrite (wrap_i64_exact (signed_weight tx)), (wrap_i64_exact wmax), (wrap_i64_exact (txout_len _)),
    (wrap_i64_exact (minimal_non_dust script)) by lia.
  set (W := signed_weight tx) in *. set (L := txout_len _) in *.
  set (D := varint_size _ - varint_size _) in *.
  rewrite (arith_i64_exact (W + 2)) by lia. cbn [mbind res_bind].
  rewrite (arith_i64_exact (W + 2 + wmax)) by lia. cbn [mbind res_bind].
  rewrite (arith_i64_exact (L * 4)) by lia. cbn [mbind res_bind].
  rewrite (arith_i64_exact (W + 2 + wmax + L * 4)) by lia. cbn [mbind res_bind].
  rewrite (arith_i64_exact (D * 4)) by lia. cbn [mbind res_bind].
  rewrite (arith_i64_exact (W + 2 + wmax + L * 4 + D * 4)) by lia. cbn [mbind res_bind].
  unfold checked_sub, checked. destruct (in_range 64 (v - outs)) eqn:Hrange; [|done].
  unfold in_range in Hrange. apply andb_true_iff in Hrange as [Hge%Z.leb_le _]. cbn [ok_or mbind res_bind].
  rewrite (wrap_i64_exact (v - outs)) by lia.
  set (B := W + 2 + wmax) in *. set (C := B + L * 4 + D * 4) in *.
  assert (HB : 0 <= B * rate < 2 ^ 62) by (unfold B in *; nia).
  assert (HC : B * rate <= C * rate < 2 ^ 62) by (unfold C, B in *; nia).
  rewrite (arith_i64_exact (C * rate)) by lia. cbn [mbind res_bind].
  rewrite (Z.quot_div_nonneg (C * rate)) by lia.
  assert (HCd : B * rate / 1000 <= C * rate / 1000) by (apply Z.div_le_mono; lia).
  assert (HCu : 0 <= C * rate / 1000 < 2 ^ 62) by (split; [apply Z.div_pos; lia|apply Z.div_lt_upper_bound; lia]).
  assert (HBu : 0 <= B * rate / 1000) by (apply Z.div_pos; lia).
  rewrite (arith_i64_exact (v - outs - C * rate / 1000)) by lia. cbn [mbind res_bind].
  destruct (Z.leb_spec (minimal_non_dust script) (v - outs - C * rate / 1000)) as [Hdust|Hsmall].
  - intros [= <-]. rewrite Z.mod_small by lia. eexists. split; [reflexivity|]. split; [right; by eexists|].
    split; [lia|]. unfold zsum. cbn [fmap list_fmap foldr value]. lia.
  - rewrite (arith_i64_exact (B * rate)) by lia. cbn [mbind res_bind]. rewrite (Z.quot_div_nonneg (B * rate)) by lia.
    rewrite (arith_i64_exact (v - outs - B * rate / 1000)) by lia. cbn [mbind res_bind].
    destruct (Z.ltb_spec (v - outs - B * rate / 1000) 0); [done|]. intros [= <-].
    exists []. rewrite with_no_change. split; [done|]. split; [by left|]. unfold zsum. cbn [fmap list_fmap foldr]. lia.
Qed.
End Change.

(** ** Fee inputs of second-level transactions *)
Section Fees.
Context `{Profile} `{TxEncoding} {K S : Type} `{!RecoveryKeys K S} (compute_txid : Transaction -> Txid).
Context (rate : Z).

Definition with_fee_input (tx : SignedTx) (u : InputUtxo) : SignedTx :=
  let t := tx.(st_tx) in
  mkSignedTx (mkTransaction t.(version) t.(lock_time) (t.(input) ++ [mkTxIn u.(iu_outpoint) 0]) t.(output))
    (tx.(st_witnesses) ++ [empty_witness]).

Definition fees_encodable (tx : SignedTx) : Prop :=
  forall u script, encodable (with_fee_input tx u) P2WPKH_INPUT_WITNESS_SIZE rate script.

(** The result of paying for a transaction with one more input: everything else
    stays, at most one output to the wallet is added, it is above the dust limit,
    and what the input is worth beyond it covers the fee. *)
Definition funded (tx : SignedTx) (u : InputUtxo) (f : SignedTx) (change_utxo : option InputUtxo) : Prop :=
  exists change stack,
    f = mkSignedTx (with_change (with_fee_input tx u) change).(st_tx) (tx.(st_witnesses) ++ [WalletStack stack]) /\
    stack <> [] /\
    (change = [] /\ change_utxo = None \/
     exists c script, change = [mkTxOut c script] /\ minimal_non_dust script <= c /\
       change_utxo = Some (mkInputUtxo (mkOutPoint (compute_txid f.(st_tx)) (Z.of_nat (length tx.(st_tx).(output)) mod 2 ^ 32))
                             c u.(iu_derivation_path))) /\
    (signed_weight (with_fee_input tx u) + 2 + P2WPKH_INPUT_WITNESS_SIZE) * rate / 1000
      <= u.(iu_value) - zsum (value <$> change).

Lemma checked_sum (outs : list TxOut) (v0 v : Z) :
  fold_res (fun sum (o : TxOut) => ok_or internal_error (checked_add 64 sum o.(value))) v0 outs = Ok v ->
  v = v0 + zsum (value <$> outs).
Proof.
  revert v0. induction outs as [|o outs IH]; intros v0 Hf; cbn [fold_res] in Hf.
  - injection Hf as <-. by rewrite Z.add_0_r.
  - destruct (checked_add 64 v0 o.(value)) as [s|] eqn:Hs; [|done]. cbn [ok_or mbind res_bind] in Hf.
    apply IH in Hf as ->. unfold checked_add, checked in Hs. destruct (in_range 64 _); [|done]. injection Hs as <-.
    change (value <$> o :: outs) with (o.(value) :: (value <$> outs)). unfold zsum. cbn [foldr]. lia.
Qed.

Lemma add_fee_spec (tx f : SignedTx) (u : InputUtxo) (ch : option InputUtxo) (k k' : K) :
  fees_encodable tx -> length tx.(st_witnesses) = length tx.(st_tx).(input) ->
  add_fee_to_htlc_tx (S:=S) compute_txid tx u rate k = (k', Ok (f, ch)) -> funded tx u f ch.
Proof.
  intros Hen Hlen Hrun. unfold add_fee_to_htlc_tx in Hrun.
  apply call_Ok in Hrun as (sum & Hsum & Hrun). apply checked_sum in Hsum as ->.
  apply call_Ok in Hrun as (v & Hv & Hrun).
  unfold mbind at 1, method_bind at 1 in Hrun. destruct (rk_wallet_script_pubkey_native _ k) as [script| |]; [|done..].
  apply call_Ok in Hrun as (tx' & Hchange & Hrun).
  fold (with_fee_input tx u) in Hchange.
  destruct (maybe_add_change_output _ _ _ _ _) as [tx''| |] eqn:Hm in Hchange; [|done..].
  injection Hchange as <-.
  unfold checked_add, checked in Hv. destruct (in_range 64 _) eqn:Hrange in Hv; [|done]. injection Hv as <-.
  unfold in_range in Hrange. apply andb_true_iff in Hrange as [Hge%Z.leb_le _].
  apply change_spec in Hm as (change & -> & Hch & _ & Hfee); [|apply Hen|done].
  cbn [with_change with_fee_input st_tx output] in Hrun, Hfee.
  unfold mbind at 1, method_bind at 1 in Hrun.
  destruct (rk_sign_wallet_input_unchecked _ _ _ k) as [k1 [stack| |]]; [|done..].
  case_bool_decide as Hstack; [done|]. unfold mret, method_ret in Hrun. injection Hrun as <- <- <-.
  exists change, stack. split_and!; [|done| |lia].
  - unfold with_witness, with_change, with_fee_input. cbn [st_tx st_witnesses]. f_equal.
    rewrite insert_app_r_alt by lia. by rewrite Hlen, Nat.sub_diag.
  - destruct Hch as [->|(c & -> & Hdust)].
    + left. rewrite app_nil_r, Nat.ltb_irrefl. done.
    + right. exists c, script. split_and!; [done|done|]. rewrite length_app. cbn [length].
      destruct (Nat.ltb_spec (length tx.(st_tx).(output)) (length tx.(st_tx).(output) + 1)); [|lia].
      rewrite Nat.add_sub, list_lookup_middle by done. done.
Qed.

(** The fee inputs that a run uses, marked when they are the change of the
    transaction before, and the transactions that it returns. *)
Inductive chain : option InputUtxo -> list InputUtxo -> list SignedTx -> list (bool * InputUtxo) -> list SignedTx -> Prop :=
| chain_nil cur prov : chain cur prov [] [] []
| chain_change u prov tx f ch txs us fs :
    funded tx u f ch -> chain ch prov txs us fs -> chain (Some u) prov (tx :: txs) ((true, u) :: us) (f :: fs)
| chain_provided cur prov u prov' tx f ch txs us fs :
    u :: prov' `sublist_of` prov -> funded tx u f ch -> chain ch prov' txs us fs ->
    chain cur prov (tx :: txs) ((false, u) :: us) (f :: fs).

Lemma fund_one_spec (tx f : SignedTx) (u : InputUtxo) (prov rest : list InputUtxo) (ch : option InputUtxo) (k k' : K) :
  fees_encodable tx -> length tx.(st_witnesses) = length tx.(st_tx).(input) ->
  fund_htlc_tx (S:=S) compute_txid tx rate u prov k = (k', Ok (f, ch, rest)) ->
  exists u', funded tx u' f ch /\ (u' = u /\ rest = prov \/ u' :: rest `sublist_of` prov).
Proof.
  intros Hen Hlen. revert u k. induction prov as [|p prov IH]; intros u k Hrun; cbn [fund_htlc_tx] in Hrun;
    destruct (add_fee_to_htlc_tx compute_txid tx u rate k) as [k1 [[f1 ch1]|e|]] eqn:Hadd; try done.
  - injection Hrun as <- <- <- <-. exists u. split; [by eapply add_fee_spec|by left].
  - injection Hrun as <- <- <- <-. exists u. split; [by eapply add_fee_spec|by left].
  - apply IH in Hrun as (u' & Hf & [[-> ->]|Hsub]); eexists; (split; [exact Hf|]); right.
    + reflexivity.
    + by apply sublist_cons.
Qed.

Lemma fund_all_spec (txs fs : list SignedTx) (cur : option InputUtxo) (prov : list InputUtxo) (k k' : K) :
  (forall tx, tx ∈ txs -> fees_encodable tx /\ length tx.(st_witnesses) = length tx.(st_tx).(input)) ->
  fund_htlc_txs (S:=S) compute_txid txs rate cur prov k = (k', Ok fs) -> exists us, chain cur prov txs us fs.
Proof.
  revert cur prov k fs. induction txs as [|tx txs IH]; intros cur prov k fs Hen Hrun; cbn [fund_htlc_txs] in Hrun.
  { injection Hrun as <- <-. exists []. constructor. }
  destruct (Hen tx) as [Htx Hlen]; [set_solver|].
  destruct (take_utxo cur prov) as [[u rest]|] eqn:Htake; [|done].
  unfold mbind at 1, method_bind at 1 in Hrun.
  destruct (fund_htlc_tx compute_txid tx rate u rest k) as [k1 [[[f ch] rest']| |]] eqn:Hone; [|done..].
  unfold mbind at 1, method_bind at 1 in Hrun.
  destruct (fund_htlc_txs compute_txid txs rate ch rest' k1) as [k2 [fs'| |]] eqn:Hrest; [|done..].
  unfold mret, method_ret in Hrun. injection Hrun as <- <-.
  apply IH in Hrest as [us Hchain]; [|set_solver].
  apply fund_one_spec in Hone as (u' & Hf & Hsrc); [|done..].
  destruct cur as [c|]; cbn [take_utxo] in Htake.
  - injection Htake as <- <-. destruct Hsrc as [[-> ->]|Hsub].
    + eexists. by eapply chain_change.
    + eexists. by eapply chain_provided.
  - destruct prov as [|p prov]; [done|]. injection Htake as <- <-. eexists.
    eapply chain_provided; [|done|done]. destruct Hsrc as [[-> ->]|Hsub]; [reflexivity|by apply sublist_cons].
Qed.

Definition used_outpoint (p : bool * InputUtxo) : OutPoint := p.2.(iu_outpoint).

Lemma funded_last (tx f : SignedTx) (u : InputUtxo) (ch : option InputUtxo) :
  funded tx u f ch -> last f.(st_tx).(input) = Some (mkTxIn u.(iu_outpoint) 0).
Proof. intros (change & stack & -> & _). cbn [st_tx with_change with_fee_input input]. apply last_snoc. Qed.

Lemma funded_change (tx f : SignedTx) (u c : InputUtxo) :
  funded tx u f (Some c) -> c.(iu_outpoint).(txid) = compute_txid f.(st_tx).
Proof. intros (change & stack & Hf & _ & [[_ ?]|(x & script & _ & _ & [= ->])] & _); done. Qed.

Lemma chain_provided_sublist cur prov txs us fs :
  chain cur prov txs us fs -> (filter (fun p => p.1 = false) us).*2 `sublist_of` prov.
Proof.
  induction 1 as [|u prov tx f ch txs us fs Hf Hc IH|cur prov u prov' tx f ch txs us fs Hsub Hf Hc IH].
  - apply sublist_nil_l.
  - by rewrite filter_cons_False by done.
  - rewrite filter_cons_True by done. cbn [fmap list_fmap snd]. etransitivity; [|exact Hsub]. by apply sublist_skip.
Qed.

Lemma chain_change_txid cur prov txs us fs (j : nat) (u : InputUtxo) :
  chain cur prov txs us fs -> us !! j = Some (true, u) ->
  j = 0%nat /\ cur = Some u \/ exists i f, j = Datatypes.S i /\ fs !! i = Some f /\ u.(iu_outpoint).(txid) = compute_txid f.(st_tx).
Proof.
  intros Hc. revert j. induction Hc as [|c prov tx f ch txs us fs Hf Hc IH|cur prov c prov' tx f ch txs us fs Hsub Hf Hc IH];
    intros j Hj; [done| |]; destruct j as [|j]; cbn [lookup list_lookup] in Hj.
  - injection Hj as <-. by left.
  - destruct (IH j Hj) as [[-> ->]|(i & g & -> & Hg & Ht)]; right.
    + exists 0%nat, f. by rewrite (funded_change _ _ _ _ Hf).
    + by exists (Datatypes.S i), g.
  - done.
  - destruct (IH j Hj) as [[-> ->]|(i & g & -> & Hg & Ht)]; right.
    + exists 0%nat, f. by rewrite (funded_change _ _ _ _ Hf).
    + by exists (Datatypes.S i), g.
Qed.

Lemma chain_pays cur prov txs us fs :
  chain cur prov txs us fs ->
  length fs = length txs /\ length us = length txs /\
  forall i tx f, txs !! i = Some tx -> fs !! i = Some f -> exists b u ch, us !! i = Some (b, u) /\ funded tx u f ch.
Proof.
  induction 1 as [|u prov tx f ch txs us fs Hf Hc (Hl & Hl' & IH)|cur prov u prov' tx f ch txs us fs Hsub Hf Hc (Hl & Hl' & IH)];
    [done| |]; (split_and!; [cbn; lia|cbn; lia|]); intros [|i] tx' f' Htx Hf'; cbn in *; try (by apply (IH i));
    injection Htx as <-; injection Hf' as <-; eauto.
Qed.

Lemma filter_fmap_distinct (us : list (bool * InputUtxo)) (i j : nat) (u v : InputUtxo) :
  NoDup (used_outpoint <$> filter (fun p => p.1 = false) us) -> (i < j)%nat ->
  us !! i = Some (false, u) -> us !! j = Some (false, v) -> u.(iu_outpoint) <> v.(iu_outpoint).
Proof.
  revert i j. induction us as [|[b w] us IH]; intros i j Hnd Hij Hi Hj; [done|].
  destruct j as [|j]; [lia|]. cbn [lookup list_lookup] in Hj.
  destruct i as [|i]; cbn [lookup list_lookup] in Hi.
  - injection Hi as -> ->. rewrite filter_cons_True in Hnd by done. cbn [fmap list_fmap] in Hnd.
    apply NoDup_cons in Hnd as [Hnin _]. intros Heq. apply Hnin. apply list_elem_of_fmap. exists (false, v).
    split; [done|]. apply list_elem_of_filter. split; [done|]. by eapply list_elem_of_lookup_2.
  - eapply (IH i j); [|lia|done..]. rewrite filter_cons in Hnd. destruct (decide _) in Hnd; [|done].
    by apply NoDup_cons in Hnd as [_ Hnd].
Qed.

Lemma chain_listed cur prov txs us fs :
  chain cur prov txs us fs -> forall i u, us !! i = Some (false, u) -> u ∈ prov.
Proof.
  intros Hc i u Hi. eapply elem_of_submseteq; [|by apply sublist_submseteq, (chain_provided_sublist _ _ _ _ _ Hc)].
  apply list_elem_of_fmap. exists (false, u). split; [done|]. apply list_elem_of_filter. split; [done|].
  by eapply list_elem_of_lookup_2.
Qed.

Lemma chain_last cur prov txs us fs :
  chain cur prov txs us fs -> forall i b u f, us !! i = Some (b, u) -> fs !! i = Some f ->
  last f.(st_tx).(input) = Some (mkTxIn u.(iu_outpoint) 0).
Proof.
  intros Hc i b u f Hu Hf. destruct (chain_pays _ _ _ _ _ Hc) as (Hlf & _ & Hpay).
  destruct (txs !! i) as [tx|] eqn:Htx; [|apply lookup_ge_None in Htx; apply lookup_lt_Some in Hf; lia].
  destruct (Hpay i tx f Htx Hf) as (b' & u' & ch & Hu' & Hfund). rewrite Hu in Hu'. injection Hu' as <- <-.
  by eapply funded_last.
Qed.

(** No output is spent twice: an input of the list is used once, and a change
    output is spent by the next transaction only. *)
Lemma chain_distinct prov txs us fs :
  Inj (=) (=) compute_txid -> NoDup (iu_outpoint <$> prov) ->
  (forall u f, u ∈ prov -> f ∈ fs -> u.(iu_outpoint).(txid) <> compute_txid f.(st_tx)) ->
  chain None prov txs us fs -> NoDup (used_outpoint <$> us).
Proof.
  intros Hinj Hnd Hfresh Hc. destruct (chain_pays _ _ _ _ _ Hc) as (Hlf & Hlu & Hpay).
  assert (Hprov := chain_provided_sublist _ _ _ _ _ Hc).
  assert (Hndp : NoDup (used_outpoint <$> filter (fun p => p.1 = false) us)).
  { assert (Heq : used_outpoint <$> filter (fun p => p.1 = false) us = iu_outpoint <$> (filter (fun p => p.1 = false) us).*2)
      by (by rewrite <- list_fmap_compose).
    rewrite Heq. eapply sublist_NoDup; [exact Hnd|by apply fmap_sublist]. }
  assert (Hin := chain_listed _ _ _ _ _ Hc). assert (Hlast := chain_last _ _ _ _ _ Hc).
  assert (Hdistinct : forall j i p q, (i < j)%nat -> us !! i = Some p -> us !! j = Some q -> used_outpoint p <> used_outpoint q).
  { intros j. induction (lt_wf j) as [j _ IH]. intros i [b u] [b' v] Hij Hi Hj Heq. unfold used_outpoint in Heq. cbn [snd] in Heq.
    destruct b'; [|destruct b].
    - destruct (chain_change_txid _ _ _ _ _ _ _ Hc Hj) as [[_ ?]|(j' & g & -> & Hg & Htg)]; [done|].
      destruct b.
      + destruct (chain_change_txid _ _ _ _ _ _ _ Hc Hi) as [[_ ?]|(i' & h & -> & Hh & Hth)]; [done|].
        assert (Hgh : h.(st_tx) = g.(st_tx)) by (apply Hinj; congruence).
        destruct (us !! i') as [[bi ui]|] eqn:Hui; [|apply lookup_ge_None in Hui; apply lookup_lt_Some in Hi; lia].
        destruct (us !! j') as [[bj uj]|] eqn:Huj; [|apply lookup_ge_None in Huj; apply lookup_lt_Some in Hj; lia].
        apply (IH j' ltac:(lia) i' (bi, ui) (bj, uj)); [lia|done..|]. unfold used_outpoint. cbn [snd].
        assert (H1' := Hlast _ _ _ _ Hui Hh). assert (H2' := Hlast _ _ _ _ Huj Hg). rewrite Hgh in H1'. congruence.
      + apply (Hfresh u g); [by eapply Hin|by eapply list_elem_of_lookup_2|congruence].
    - destruct (chain_change_txid _ _ _ _ _ _ _ Hc Hi) as [[_ ?]|(i' & h & -> & Hh & Hth)]; [done|].
      apply (Hfresh v h); [by eapply Hin|by eapply list_elem_of_lookup_2|congruence].
    - by eapply (filter_fmap_distinct us i j u v). }
  apply NoDup_alt. intros i j o Hi Hj. rewrite list_lookup_fmap in Hi, Hj.
  destruct (us !! i) as [p|] eqn:Hui; [|done]. destruct (us !! j) as [q|] eqn:Huj; [|done].
  cbn in Hi, Hj. destruct (Nat.lt_trichotomy i j) as [Hlt|[->|Hgt]]; [|done|].
  - destruct (Hdistinct j i p q Hlt Hui Huj). congruence.
  - destruct (Hdistinct i j q p Hgt Huj Hui). congruence.
Qed.
End Fees.

(** ** The second-level transactions of a channel *)
Lemma map_res_Forall2 {E A B : Type} (f : A -> res E B) (l : list A) (l' : list B) :
  map_res f l = Ok l' -> Forall2 (fun x y => f x = Ok y) l l'.
Proof.
  revert l'. induction l as [|x l IH]; intros l' Hm; cbn [map_res] in Hm; [injection Hm as <-; constructor|].
  destruct (f x) as [y| |] eqn:Hx; [|done..]. cbn [mbind res_bind] in Hm.
  destruct (map_res f l) as [ys| |]; [|done..]. injection Hm as <-. constructor; [done|by apply IH].
Qed.

(** Groups of a map ordered by key. *)
Section Groups.
Context {A : Type} (key : A -> Z).

Definition groups_ok (m : list (Z * list A)) : Prop :=
  StronglySorted Z.lt m.*1 /\ Forall (fun '(k, l) => l <> [] /\ Forall (fun x => key x = k) l) m.

Lemma push_group_perm (k : Z) (x : A) (m : list (Z * list A)) :
  mjoin (push_group k x m).*2 ≡ₚ mjoin m.*2 ++ [x].
Proof.
  induction m as [|[k' l] m IH]; [done|]. cbn [push_group].
  destruct (k =? k'); [|destruct (k <? k')]; cbn [fmap list_fmap snd mjoin list_join].
  - rewrite <- !app_assoc. apply Permutation_app_head. apply Permutation_app_comm.
  - change (l ++ mjoin m.*2) with (mjoin ((k', l) :: m).*2). apply (Permutation_app_comm [x]).
  - rewrite IH. by rewrite app_assoc.
Qed.

Lemma push_group_keys (k : Z) (x : A) (m : list (Z * list A)) (k' : Z) :
  k' ∈ (push_group k x m).*1 -> k' = k \/ k' ∈ m.*1.
Proof.
  induction m as [|[j l] m IH]; cbn [push_group fmap list_fmap fst]; [set_solver|].
  destruct (k =? j); [|destruct (k <? j)]; cbn [fmap list_fmap fst]; [set_solver..|].
  intros [->|Hin]%elem_of_cons; [set_solver|]. apply IH in Hin as [->|]; set_solver.
Qed.

Lemma push_group_ok (x : A) (m : list (Z * list A)) : groups_ok m -> groups_ok (push_group (key x) x m).
Proof.
  intros [Hs Hf]. induction m as [|[j l] m IH].
  - split; cbn; repeat constructor; done.
  - cbn [push_group]. cbn [fmap list_fmap fst] in Hs. apply StronglySorted_inv in Hs as [Hs Hlt].
    apply Forall_cons in Hf as [[Hne Hl] Hf]. destruct (Z.eqb_spec (key x) j) as [<-|Hj]; [|destruct (Z.ltb_spec (key x) j)].
    + split; [by constructor|]. constructor; [|done]. split; [by destruct l|]. apply Forall_app. by repeat constructor.
    + split; cbn [fmap list_fmap fst].
      * constructor; [by constructor|]. constructor; [done|]. eapply Forall_impl; [exact Hlt|]. cbn. lia.
      * repeat constructor; try done. 
    + destruct (IH Hs Hf) as [IHs IHf]. split; cbn [fmap list_fmap fst]; [|by constructor].
      constructor; [done|]. apply Forall_forall. intros k Hk. apply push_group_keys in Hk as [->|Hk]; [lia|].
      rewrite Forall_forall in Hlt. by apply Hlt.
Qed.
End Groups.

Abbreviation htlc_claim := (nat * IndexedHTLC * option Z)%type (only parsing).

Lemma mjoin_cons {A : Type} (l : list A) (ls : list (list A)) : mjoin (l :: ls) = l ++ mjoin ls.
Proof. reflexivity. Qed.

Section Claims.
Context `{Profile} `{BitcoinLib} `{LightningLib} `{SecpSign} `{ChanUtils} `{HtlcWitness}.
Context (keys : VlsChannelSigner) (fuel : nat) (rand : nat -> nat -> nat -> list Z).
Context (self : Channel) (state : NodeState) (height : Z) (spent : list bool).

(** An HTLC that can be claimed: it has an output, which is not spent, and it is
    expired if we offered it, or its preimage is known. *)
Definition claimable (ih : nat * IndexedHTLC) : option htlc_claim :=
  let '(i, h) := ih in
  if bool_decide (h.(ih_output_index) = None) || default false (spent !! i) then None
  else if h.(ih_htlc).(oic_offered) then
    if h.(ih_htlc).(oic_cltv_expiry) <=? height then Some (i, h, None) else None
  else (fun p => (i, h, Some p)) <$> (state.(payments) !! h.(ih_htlc).(oic_payment_hash) ≫= NodeState.preimage).

Definition is_received (c : htlc_claim) : Prop := c.1.2.(ih_htlc).(oic_offered) = false /\ is_Some c.2.
Definition is_expired (c : htlc_claim) : Prop :=
  c.1.2.(ih_htlc).(oic_offered) = true /\ c.2 = None /\ c.1.2.(ih_htlc).(oic_cltv_expiry) <= height.

Definition offered_key (ih : nat * IndexedHTLC) : Z := ih.2.(ih_htlc).(oic_cltv_expiry).
Definition to_claim (ih : nat * IndexedHTLC) : htlc_claim := (ih.1, ih.2, None).

Record sorted_claims (received : list htlc_claim) (offered : list (Z * list (nat * IndexedHTLC))) : Prop := {
  so_received : Forall is_received received;
  so_groups : groups_ok offered_key offered;
  so_offered : Forall (fun ih => is_expired (to_claim ih)) (mjoin offered.*2)
}.

Lemma sort_htlc_step (received : list htlc_claim) (offered : list (Z * list (nat * IndexedHTLC))) (ih : nat * IndexedHTLC) :
  sorted_claims received offered ->
  let '(received', offered') := sort_htlc state height spent (received, offered) ih in
  sorted_claims received' offered' /\
  received' ++ (to_claim <$> mjoin offered'.*2) ≡ₚ received ++ (to_claim <$> mjoin offered.*2) ++ option_list (claimable ih).
Proof.
  intros [Hr Hg Ho]. destruct ih as [i h]. unfold sort_htlc, claimable. cbn [oic_offered].
  destruct (bool_decide _); cbn [orb]; [by split; [split|rewrite app_nil_r]|].
  destruct (default false _); [by split; [split|rewrite app_nil_r]|].
  destruct (oic_offered _) eqn:Hoff.
  - rewrite Z.ltb_antisym. destruct (Z.leb_spec (oic_cltv_expiry (ih_htlc h)) height) as [Hle|Hgt]; cbn [negb].
    + assert (Hperm := push_group_perm (oic_cltv_expiry (ih_htlc h)) (i, h) offered).
      split; [split|].
      * done.
      * by apply (push_group_ok offered_key (i, h)).
      * rewrite Hperm. apply Forall_app. split; [done|]. constructor; [|done]. by split_and!.
      * rewrite Hperm, fmap_app. done.
    + by split; [split|rewrite app_nil_r].
  - destruct (state.(payments) !! _ ≫= _) as [p|]; cbn [fmap option_fmap option_map option_list].
    + split; [split|].
      * apply Forall_app. split; [done|]. constructor; [|done]. split; [done|by eexists].
      * done.
      * done.
      * rewrite <- app_assoc. apply Permutation_app_head. apply Permutation_app_comm.
    + by split; [split|rewrite app_nil_r].
Qed.

Lemma sort_htlcs (l : list (nat * IndexedHTLC)) (received : list htlc_claim) (offered : list (Z * list (nat * IndexedHTLC))) :
  sorted_claims received offered ->
  let '(received', offered') := fold_left (sort_htlc state height spent) l (received, offered) in
  sorted_claims received' offered' /\
  received' ++ (to_claim <$> mjoin offered'.*2) ≡ₚ received ++ (to_claim <$> mjoin offered.*2) ++ omap claimable l.
Proof.
  revert received offered. induction l as [|ih l IH]; intros received offered Hs; cbn [fold_left].
  - split; [done|]. by rewrite app_nil_r.
  - assert (Hstep := sort_htlc_step received offered ih Hs). destruct (sort_htlc _ _ _ _ ih) as [r1 o1].
    destruct Hstep as [Hs1 Hp1]. assert (Hrest := IH r1 o1 Hs1). destruct (fold_left _ l (r1, o1)) as [r2 o2].
    destruct Hrest as [Hs2 Hp2]. split; [done|]. rewrite Hp2, app_assoc, Hp1.
    cbn [omap list_omap]. rewrite <- !app_assoc. do 2 apply Permutation_app_head.
    by destruct (claimable ih).
Qed.

(** What the transactions claim: every transaction claims received HTLCs with
    lock time 0, or expired HTLCs with their common expiry as its lock time. *)
Record batches_ok (zero_fee : bool) (batches : list (list htlc_claim * Z)) : Prop := {
  bo_kind : Forall (fun '(cl, lt) => cl <> [] /\
      (lt = 0 /\ Forall is_received cl \/
       lt <= height /\ Forall (fun c => is_expired c /\ c.1.2.(ih_htlc).(oic_cltv_expiry) = lt) cl)) batches;
  bo_shape : if zero_fee
      then exists r o, batches = r ++ o /\ (length r <= 1)%nat /\ Forall (fun '(cl, _) => Forall is_received cl) r /\
             StronglySorted Z.lt o.*2
      else Forall (fun '(cl, _) => length cl = 1%nat) batches
}.

Lemma claim_batches_perm (zero_fee : bool) (received : list htlc_claim) (offered : list (Z * list (nat * IndexedHTLC))) :
  mjoin (claim_batches zero_fee received offered).*1 = received ++ (to_claim <$> mjoin offered.*2).
Proof.
  assert (Hoff : mjoin (htlcs_to_sign <$> offered).*1
                 = to_claim <$> mjoin offered.*2).
  { induction offered as [|[k l] offered IH]; [done|]. rewrite ?fmap_cons. cbn [htlcs_to_sign fst snd]. rewrite ?mjoin_cons.
    rewrite fmap_app, <- IH. f_equal. apply list_fmap_ext. by intros _ [] _. }
  unfold claim_batches. destruct zero_fee.
  - rewrite fmap_app, join_app, Hoff. f_equal. case_bool_decide as Hr; [by rewrite Hr|]. cbn. by rewrite app_nil_r.
  - rewrite fmap_app, join_app, <- Hoff. f_equal.
    + induction received as [|c received IH]; [done|]. rewrite ?fmap_cons. cbn [fst]. rewrite ?mjoin_cons. by rewrite IH.
    + clear Hoff. induction offered as [|[k l] offered IH]; [done|]. rewrite ?fmap_cons. cbn [htlcs_to_sign fst snd]. rewrite ?mjoin_cons.
      rewrite fmap_app, join_app, IH. f_equal. generalize ((fun '(idx, htlc) => (idx, htlc, None : option Z)) <$> l). clear.
      intros cs. induction cs as [|c cs IH]; [done|]. rewrite ?fmap_cons. cbn [fst]. rewrite ?mjoin_cons. by rewrite IH.
Qed.

Definition offered_batches (offered : list (Z * list (nat * IndexedHTLC))) : list (list htlc_claim * Z) :=
  htlcs_to_sign <$> offered.

Lemma offered_batches_ok (received : list htlc_claim) (offered : list (Z * list (nat * IndexedHTLC))) :
  sorted_claims received offered ->
  Forall (fun '(cl, lt) => cl <> [] /\ lt <= height /\
            Forall (fun c => is_expired c /\ c.1.2.(ih_htlc).(oic_cltv_expiry) = lt) cl) (offered_batches offered)
  /\ StronglySorted Z.lt (offered_batches offered).*2.
Proof.
  intros [_ [Hs Hf] Ho]. split.
  - clear Hs. unfold offered_batches. apply Forall_fmap. induction offered as [|[k l] offered IH]; [constructor|].
    rewrite fmap_cons in Ho. cbn [snd] in Ho. rewrite mjoin_cons in Ho. apply Forall_app in Ho as [Hl Ho].
    apply Forall_cons in Hf as [[Hne Hk] Hf]. constructor; [|by apply IH]. cbn.
    assert (Hcl : Forall (fun c => is_expired c /\ oic_cltv_expiry (ih_htlc c.1.2) = k)
                    ((fun '(idx, htlc) => (idx, htlc, None : option Z)) <$> l)).
    { apply Forall_fmap. eapply Forall_impl; [apply Forall_and; split; [exact Hl|exact Hk]|]. intros [i h] [He Hkey]. by split. }
    split; [by destruct l|]. split; [|exact Hcl].
    destruct l as [|[i h] l]; [done|]. apply Forall_cons in Hcl as [[(_ & _ & Hle) <-] _]. exact Hle.
  - unfold offered_batches. rewrite <- list_fmap_compose. 
    assert (Heq : (snd ∘ htlcs_to_sign) <$> offered
                  = offered.*1) by (apply list_fmap_ext; by intros _ [] _).
    by rewrite Heq.
Qed.

Lemma singles_ok (zero_fee : bool) (batches : list (list htlc_claim * Z)) :
  Forall (fun '(cl, lt) => cl <> [] /\ lt <= height /\
            Forall (fun c => is_expired c /\ c.1.2.(ih_htlc).(oic_cltv_expiry) = lt) cl) batches ->
  Forall (fun '(cl, lt) => length cl = 1%nat /\ lt <= height /\
            Forall (fun c => is_expired c /\ c.1.2.(ih_htlc).(oic_cltv_expiry) = lt) cl)
    (mjoin ((fun '(htlcs, cltv) => (fun c => ([c], cltv)) <$> htlcs) <$> batches)).
Proof.
  induction 1 as [|[cl lt] batches (Hne & Hlt & Hcl) _ IH]; [constructor|]. rewrite fmap_cons, mjoin_cons.
  apply Forall_app. split; [|exact IH]. apply Forall_fmap. eapply Forall_impl; [exact Hcl|]. intros c Hc. cbn.
  split_and!; [done|done|by constructor].
Qed.

Lemma claim_batches_ok (zero_fee : bool) (received : list htlc_claim) (offered : list (Z * list (nat * IndexedHTLC))) :
  sorted_claims received offered -> batches_ok zero_fee (claim_batches zero_fee received offered).
Proof.
  intros Hs. destruct (offered_batches_ok received offered Hs) as [Hoff Hsorted]. destruct Hs as [Hr _ _].
  unfold claim_batches. fold (offered_batches offered). destruct zero_fee; split.
  - apply Forall_app. split.
    + case_bool_decide as Hnil; [constructor|]. constructor; [|constructor]. split; [done|by left].
    + eapply Forall_impl; [exact Hoff|]. intros [cl lt] (? & ? & ?). split; [done|by right].
  - eexists _, _. split; [reflexivity|]. split_and!; [| |exact Hsorted].
    + case_bool_decide; cbn; lia.
    + case_bool_decide; [constructor|constructor; [exact Hr|constructor]].
  - apply Forall_app. split.
    + apply Forall_fmap. eapply Forall_impl; [exact Hr|]. intros c Hc. cbn. split; [done|]. left. split; [done|by constructor].
    + eapply Forall_impl; [by apply (singles_ok true), Hoff|]. intros [cl lt] (Hlen & ? & ?).
      split; [by destruct cl|by right].
  - apply Forall_app. split; [by apply Forall_fmap, Forall_true|].
    eapply Forall_impl; [by apply (singles_ok true), Hoff|]. by intros [cl lt] (? & _).
Qed.

(** The output that a claim spends. *)
Definition claim_outpoint (commitment_txid : Txid) (c : htlc_claim) : OutPoint :=
  mkOutPoint commitment_txid (default 0 c.1.2.(ih_output_index)).

(** A second-level transaction spends the output of its HTLC, and a block height
    is a lock time as it is. *)
Definition htlc_spends_output : Prop :=
  forall txid r delay htlc f delayed revocation,
    (fun i => i.(previous_output)) <$> (build_htlc_transaction txid r delay htlc f delayed revocation).(input) !! 0%nat
    = Some (mkOutPoint txid (default 0 htlc.(ih_output_index))).
Definition heights_kept : Prop := forall n h, Height_from_consensus n = Some h -> h = n.

Lemma sign_inputs_keep (ctxid : Txid) (n : Z) (point : PublicKey) (rate : Z) (entropy : nat -> nat -> list Z) (tx tx' : SignedTx)
    (data : list (nat * HTLCSigningData)) :
  fold_res (sign_htlc_input keys fuel self ctxid n point rate entropy) tx data = Ok tx' ->
  tx'.(st_tx) = tx.(st_tx) /\ length tx'.(st_witnesses) = length tx.(st_witnesses).
Proof.
  revert tx. induction data as [|[i sd] data IH]; intros tx Hf; cbn [fold_res] in Hf; [by injection Hf as <-|].
  destruct (sign_htlc_input keys fuel self ctxid n point rate entropy tx (i, sd)) as [t1| |] eqn:Hsign; [|done..].
  cbn [mbind res_bind] in Hf. apply IH in Hf as [-> ->]. unfold sign_htlc_input in Hsign.
  destruct (sign_holder_htlc_transaction _ _ _ _ _ _); [|done..]. cbn [map_err mbind res_bind] in Hsign.
  injection Hsign as <-. unfold with_witness. cbn [st_tx st_witnesses]. by rewrite length_insert.
Qed.

Lemma batched_tx_spends (ctxid : Txid) (txkeys : TxCreationKeys) (n : Z) (point : PublicKey) (sigs : list Signature)
    (cl : list htlc_claim) (lt rate : Z) (entropy : nat -> nat -> list Z) (tx : SignedTx) :
  htlc_spends_output -> heights_kept ->
  build_and_sign_batched_htlc_tx keys fuel self ctxid txkeys n point sigs cl lt rate entropy = Ok tx ->
  (fun i => i.(previous_output)) <$> tx.(st_tx).(input) = claim_outpoint ctxid <$> cl /\
  tx.(st_tx).(lock_time) = lt /\ length tx.(st_witnesses) = length cl /\ length tx.(st_tx).(output) = length cl.
Proof.
  intros Hspend Hheight Hb. unfold build_and_sign_batched_htlc_tx in Hb.
  destruct (map_res _ cl) as [data| |] eqn:Hdata; [|done..]. cbn [mbind res_bind] in Hb.
  destruct (Height_from_consensus lt) as [h|] eqn:Hh; [|done]. cbn [ok_or mbind res_bind] in Hb.
  apply sign_inputs_keep in Hb as [-> ->]. apply map_res_Forall2 in Hdata. assert (Hlen := Forall2_length _ _ _ Hdata).
  cbn [unsigned st_tx st_witnesses input output lock_time]. rewrite length_replicate, !length_fmap.
  split_and!; [|by apply Hheight|done|done].
  rewrite <- list_fmap_compose. clear Hlen Hh. induction Hdata as [|[[i htlc] p] d cl data Hd _ IH]; [done|].
  rewrite !fmap_cons. f_equal; [|exact IH]. unfold htlc_signing_data in Hd.
  destruct (sigs !! i); [|done]. cbn [ok_or mbind res_bind] in Hd.
  specialize (Hspend ctxid rate self.(setup).(counterparty_selected_contest_delay) htlc (features self.(setup))
    txkeys.(tck_broadcaster_delayed_payment_key) txkeys.(tck_revocation_key)).
  destruct (_ !! 0%nat) as [inp|] in Hd, Hspend; [|done]. cbn [unwrap mbind res_bind] in Hd.
  destruct (_ !! 0%nat) in Hd; [|done]. cbn [unwrap mbind res_bind] in Hd. injection Hd as <-.
  cbn in Hspend. injection Hspend as Hspend. exact Hspend.
Qed.

Lemma batches_signed (ctxid : Txid) (txkeys : TxCreationKeys) (n : Z) (point : PublicKey) (sigs : list Signature) (rate : Z)
    (batches : list (list htlc_claim * Z)) (txs : list SignedTx) :
  htlc_spends_output -> heights_kept ->
  Forall2 (fun '(t, (htlcs, lock_time)) tx =>
      build_and_sign_batched_htlc_tx keys fuel self ctxid txkeys n point sigs htlcs lock_time rate (rand (S t)) = Ok tx)
    (imap pair batches) txs ->
  Forall2 (fun tx b => previous_output <$> tx.(st_tx).(input) = claim_outpoint ctxid <$> b.1 /\
                       tx.(st_tx).(lock_time) = b.2 /\ length tx.(st_witnesses) = length b.1) txs batches.
Proof.
  intros Hspend Hheight Hrun. apply Forall2_same_length_lookup. assert (Hlen := Forall2_length _ _ _ Hrun).
  rewrite length_imap in Hlen. split; [done|]. intros i tx [cl lt] Htx Hb.
  eapply Forall2_lookup_lr in Hrun; [|by rewrite list_lookup_imap, Hb|exact Htx]. cbn beta iota in Hrun.
  destruct (batched_tx_spends ctxid txkeys n point sigs cl lt rate (rand (S i)) tx Hspend Hheight Hrun) as (H1' & H2' & H3' & _).
  by split_and!.
Qed.

(** The description of a claim that is signed. *)
Definition claim_descriptor (ctxid : Txid) (n : Z) (point : PublicKey) (rate : Z) (htlc : IndexedHTLC) (preimage : option Z)
    (cp_sig : Signature) : HTLCDescriptor :=
  mkHTLCDescriptor (make_channel_parameters_with_setup keys self.(setup)) ctxid n point rate htlc preimage cp_sig.

(** The holder's signature in a witness: made over the whole transaction. *)
Definition signed_input (tx : Transaction) (d : HTLCDescriptor) (script : ScriptBuf) (i : nat) (w : InputWitness) : Prop :=
  exists h entropy hsig,
    p2wsh_signature_hash tx i (descriptor_witness_script d) (to_bitcoin_amount d.(hd_htlc).(ih_htlc)) SighashAll = Some h /\
    sign_with_aux_rand fuel h (derive_private_key d.(hd_per_commitment_point) keys.(htlc_base_key)) entropy = Some hsig /\
    w = ChannelStack (build_htlc_input_witness hsig d.(hd_counterparty_sig) d.(hd_preimage) script (features self.(setup))).

Definition signed_claim (ctxid : Txid) (n : Z) (point : PublicKey) (rate : Z) (tx : Transaction) (sd : HTLCSigningData) :=
  signed_input tx (claim_descriptor ctxid n point rate sd.(sd_htlc) sd.(sd_preimage) sd.(sd_cp_sig)) sd.(sd_redeemscript).

Lemma sign_htlc_input_spec (ctxid : Txid) (n : Z) (point : PublicKey) (rate : Z) (entropy : nat -> nat -> list Z) (tx tx' : SignedTx)
    (i : nat) (sd : HTLCSigningData) :
  sign_htlc_input keys fuel self ctxid n point rate entropy tx (i, sd) = Ok tx' ->
  exists w, tx' = with_witness tx i w /\ signed_claim ctxid n point rate tx.(st_tx) sd i w.
Proof.
  intros Hsign. unfold sign_htlc_input, sign_holder_htlc_transaction in Hsign.
  destruct (p2wsh_signature_hash _ _ _ _ _) as [h|] eqn:Hh in Hsign; [|done]. cbn [ok_or mbind res_bind] in Hsign.
  unfold grind in Hsign.
  destruct (sign_with_aux_rand _ _ _ _) as [hsig|] eqn:Hs in Hsign; [|done]. cbn [unwrap map_err mbind res_bind] in Hsign.
  injection Hsign as <-. eexists. split; [reflexivity|].
  eexists h, _, hsig. split_and!; [exact Hh|exact Hs|reflexivity].
Qed.

Lemma sign_inputs_spec (ctxid : Txid) (n : Z) (point : PublicKey) (rate : Z) (entropy : nat -> nat -> list Z)
    (data : list HTLCSigningData) (m : nat) (tx tx' : SignedTx) :
  (m + length data <= length tx.(st_witnesses))%nat ->
  fold_res (sign_htlc_input keys fuel self ctxid n point rate entropy) tx (imap (fun i sd => ((m + i)%nat, sd)) data) = Ok tx' ->
  (forall j, (j < m)%nat -> tx'.(st_witnesses) !! j = tx.(st_witnesses) !! j) /\
  (forall j sd, data !! j = Some sd ->
     exists w, tx'.(st_witnesses) !! (m + j)%nat = Some w /\ signed_claim ctxid n point rate tx.(st_tx) sd (m + j) w).
Proof.
  revert m tx. induction data as [|sd data IH]; intros m tx Hlen Hf; cbn [imap fold_res] in Hf.
  - injection Hf as <-. by split.
  - rewrite Nat.add_0_r in Hf.
    destruct (sign_htlc_input keys fuel self ctxid n point rate entropy tx (m, sd)) as [t1| |] eqn:Hsign; [|done..].
    cbn [mbind res_bind] in Hf. apply sign_htlc_input_spec in Hsign as (w & -> & Hw).
    rewrite (imap_ext _ (fun i sd => ((Datatypes.S m + i)%nat, sd))) in Hf by (intros; cbn; f_equal; lia).
    cbn [length] in Hlen |- *. apply IH in Hf as [Hbefore Hafter]; [|cbn [with_witness st_witnesses]; rewrite length_insert; lia].
    cbn [with_witness st_witnesses st_tx] in Hbefore, Hafter. split.
    + intros j Hj. rewrite Hbefore by lia. apply list_lookup_insert_ne. lia.
    + intros [|j] sd' Hj.
      * injection Hj as <-. rewrite Nat.add_0_r. exists w. split; [|done]. rewrite Hbefore by lia.
        apply list_lookup_insert_eq. lia.
      * rewrite Nat.add_succ_r. by apply Hafter.
Qed.

Lemma batched_tx_signed (ctxid : Txid) (txkeys : TxCreationKeys) (n : Z) (point : PublicKey) (sigs : list Signature)
    (cl : list htlc_claim) (lt rate : Z) (entropy : nat -> nat -> list Z) (tx : SignedTx) :
  build_and_sign_batched_htlc_tx keys fuel self ctxid txkeys n point sigs cl lt rate entropy = Ok tx ->
  length tx.(st_witnesses) = length tx.(st_tx).(input) /\ length tx.(st_tx).(input) = length cl /\
  forall i idx htlc preimage, cl !! i = Some (idx, htlc, preimage) -> exists cp_sig w,
    sigs !! idx = Some cp_sig /\ tx.(st_witnesses) !! i = Some w /\
    signed_input tx.(st_tx) (claim_descriptor ctxid n point rate htlc preimage cp_sig)
      (htlc_redeemscript htlc.(ih_htlc) (features self.(setup)) txkeys) i w.
Proof.
  intros Hb. unfold build_and_sign_batched_htlc_tx in Hb.
  destruct (map_res _ cl) as [data| |] eqn:Hdata; [|done..]. cbn [mbind res_bind] in Hb.
  destruct (Height_from_consensus lt) as [h|]; [|done]. cbn [ok_or mbind res_bind] in Hb.
  apply map_res_Forall2 in Hdata. assert (Hcl := Forall2_length _ _ _ Hdata).
  destruct (sign_inputs_keep _ _ _ _ _ _ _ _ Hb) as [Htx Hlen].
  apply (sign_inputs_spec _ _ _ _ _ data 0) in Hb as [_ Hsig].
  - rewrite Htx, Hlen. cbn [unsigned st_tx st_witnesses input] in *. rewrite length_replicate, length_fmap.
    split_and!; [done|done|]. intros i idx htlc preimage Hi.
    destruct (Forall2_lookup_l _ _ _ _ _ Hdata Hi) as (sd & Hsd & Hone). unfold htlc_signing_data in Hone.
    destruct (sigs !! idx) as [cp_sig|] eqn:Hsigs; [|done]. cbn [ok_or mbind res_bind] in Hone.
    destruct (input _ !! 0%nat) in Hone; [|done]. destruct (output _ !! 0%nat) in Hone; [|done].
    cbn [unwrap mbind res_bind] in Hone. injection Hone as <-.
    destruct (Hsig _ _ Hsd) as (w & Hw & Hs). by exists cp_sig, w.
  - cbn [unsigned st_witnesses input]. by rewrite length_replicate, length_fmap.
Qed.
End Claims.

(** ** Dry runs *)
Section DryRunChannel.
Context `{Profile} `{BitcoinLib} `{LightningLib} `{SecpSign} `{ChanUtils} `{HtlcWitness} `{InputSigner}.
Context {V : Type} `{Validator V} (validator : V) (persist : Channel -> res Status unit).
Context (keys : VlsChannelSigner) (fuel : nat) (rand : nat -> nat -> nat -> list Z).

Abbreviation recovery_inner := (sign_holder_commitment_tx_for_recovery_inner validator persist keys fuel rand) (only parsing).

(** The dry run leaves the channel alone, and the real run does the same work
    before it marks the channel as closed. *)
Lemma recovery_inner_cases (spent : list bool) (override : option Z) (chan : Channel) (state : NodeState) :
  let closed := with_estate chan (with_closed chan.(enforcement_state) true) in
  exists r, recovery_inner spent false override (chan, state) = ((chan, state), r) /\
    recovery_inner spent true override (chan, state) =
      match r with
      | Ok txs => ((closed, state), match persist closed with Ok _ => Ok txs | Err e => Err e | Panic => Panic end)
      | _ => ((chan, state), r)
      end.
Proof.
  unfold sign_holder_commitment_tx_for_recovery_inner. rewrite !get_bind.
  destruct (get_latest_holder_commitment_for_close validator chan) as [closable| |]; [|by eexists..].
  rewrite !call_Ok_bind.
  destruct (recompose keys rand chan _ _) as [[[holder_tx point] txkeys]| |]; [|by eexists..]. rewrite !call_Ok_bind.
  destruct (map_err _ _) as [sig| |]; [|by eexists..]. rewrite !call_Ok_bind. cbv zeta.
  destruct (add_holder_sig _ _ _ _ _) as [tx| |]; [|by eexists..]. rewrite !call_Ok_bind.
  destruct (sign_holder_htlc_txs_for_recovery _ _ _ _ _ _ _ _ _ _ _) as [htlc_txs| |]; [|by eexists..].
  rewrite !call_Ok_bind. eexists. split; [reflexivity|].
  unfold set_estate, do_persist, mbind, method_bind. cbn [get_unilateral_close_key call].
  by destruct (persist _).
Qed.
End DryRunChannel.

Section DryRun.
Context `{Profile} `{TxEncoding} {K S : Type} `{!RecoveryKeys K S} {X : Type} `{!Explorer X}.
Context (compute_txid : Transaction -> Txid) (R : K -> K -> Prop) `{!PreOrder R}.

(** What a dry run asks of the keys: signing, other than a closing transaction in
    earnest, changes nothing that [R] sees. *)
Record quiet_keys : Prop := {
  qk_onchain : forall tx flags ipaths prev ucks opaths k, R k (rk_sign_onchain_tx (S:=S) tx flags ipaths prev ucks opaths k).1;
  qk_wallet : forall tx i u k, R k (rk_sign_wallet_input_unchecked (S:=S) tx i u k).1;
  qk_close : forall s spent override k, R k (rs_sign_holder_commitment_tx_for_recovery s spent true override k).1
}.
Context (Hquiet : quiet_keys).

Abbreviation world := (World (K:=K) (X:=X)) (only parsing).

(** Nothing is handed to the explorer, and the keys stay related. *)
Definition inert {A : Type} (m : method world Status A) : Prop :=
  forall w, R w.(w_keys) (m w).1.(w_keys) /\ (m w).1.(w_sent) = w.(w_sent).

Lemma inert_bind {A B : Type} (m : method world Status A) (f : A -> method world Status B) :
  inert m -> (forall a, inert (f a)) -> inert (m ≫= f).
Proof.
  intros Hm Hf w. unfold mbind, method_bind. destruct (Hm w) as [Hr Hs].
  destruct (m w) as [w1 [a|e|]]; cbn [fst] in *; [|done..]. destruct (Hf a w1) as [Hr1 Hs1].
  split; [by etransitivity|congruence].
Qed.

Lemma inert_ret {A : Type} (a : A) : inert (mret a). Proof. by intros w. Qed.
Lemma inert_call {A : Type} (r : res Status A) : inert (call r). Proof. by intros w. Qed.
Lemma inert_get : inert get_self. Proof. by intros w. Qed.
Lemma inert_read {A : Type} (f : K -> res Status A) : inert (read_keys f). Proof. by intros w. Qed.
Lemma inert_explore {A : Type} (m : method X ExplorerError A) : inert (explore m).
Proof. intros w. unfold explore. by destruct (m _). Qed.
Lemma inert_expecting {A : Type} (m : method world Status A) : inert m -> inert (expecting m).
Proof. intros Hm w. unfold expecting. specialize (Hm w). by destruct (m w) as [w' [| |]]. Qed.
Lemma inert_expect {E A : Type} (m : method world Status (res E A)) : inert m -> inert (expect m).
Proof. intros Hm. apply inert_bind; [done|]. intros [a|e|]; [apply inert_ret|apply inert_call..]. Qed.
Lemma inert_keys {A : Type} (m : method K Status A) : (forall k, R k (m k).1) -> inert (on_keys m).
Proof. intros Hm w. unfold on_keys. specialize (Hm w.(w_keys)). by destruct (m _). Qed.

(** One step of a body. *)
Ltac inert_step :=
  cbv beta zeta;
  lazymatch goal with
  | |- inert (mbind _ _) => apply inert_bind; [|intros ?]
  | |- inert (mret _) => apply inert_ret
  | |- inert (call _) => apply inert_call
  | |- inert get_self => apply inert_get
  | |- inert (read_keys _) => apply inert_read
  | |- inert (explore _) => apply inert_explore
  | |- inert (expecting _) => apply inert_expecting
  | |- inert (expect _) => apply inert_expect
  | |- inert (let '(_, _) := ?p in _) => destruct p
  | |- inert (match ?x with _ => _ end) => destruct x
  end.

Lemma fund_one_quiet (tx : SignedTx) (rate : Z) (u : InputUtxo) (prov : list InputUtxo) (k : K) :
  R k (fund_htlc_tx (S:=S) compute_txid tx rate u prov k).1.
Proof.
  assert (Hadd : forall u k, R k (add_fee_to_htlc_tx (S:=S) compute_txid tx u rate k).1).
  { clear u k. intros u k. unfold add_fee_to_htlc_tx. cbv zeta.
    destruct (fold_res _ _ _) as [v| |]; [|done..]. rewrite call_Ok_bind.
    destruct (ok_or internal_error _) as [v'| |]; [|done..]. rewrite call_Ok_bind.
    unfold mbind at 1, method_bind at 1. destruct (rk_wallet_script_pubkey_native _ _) as [script| |]; [|done..].
    destruct (map_err _ _) as [t| |]; [|done..]. rewrite call_Ok_bind.
    unfold mbind, method_bind.
    assert (Hq := qk_wallet Hquiet t.(st_tx) (length (input (st_tx tx))) u k).
    destruct (rk_sign_wallet_input_unchecked _ _ _ _) as [k1 [stack| |]]; cbn [fst] in *; [|done..].
    by case_bool_decide. }
  revert u k. induction prov as [|p prov IH]; intros u k; cbn [fund_htlc_tx]; specialize (Hadd u k) as Hu;
    destruct (add_fee_to_htlc_tx _ _ _ _ _) as [k1 [[f ch]|e|]]; cbn [fst] in *; try done.
  etransitivity; [exact Hu|apply IH].
Qed.

Lemma fund_all_quiet (txs : list SignedTx) (rate : Z) (cur : option InputUtxo) (prov : list InputUtxo) (k : K) :
  R k (fund_htlc_txs (S:=S) compute_txid txs rate cur prov k).1.
Proof.
  revert cur prov k. induction txs as [|tx txs IH]; intros cur prov k; cbn [fund_htlc_txs]; [done|].
  destruct (take_utxo cur prov) as [[u rest]|]; [|done]. unfold mbind at 1, method_bind at 1.
  assert (H1 := fund_one_quiet tx rate u rest k).
  destruct (fund_htlc_tx _ _ _ _ _ _) as [k1 [[[f ch] rest']| |]]; cbn [fst] in *; [|done..].
  unfold mbind, method_bind. assert (H2 := IH ch rest' k1).
  destruct (fund_htlc_txs _ _ _ _ _ _) as [k2 [| |]]; cbn [fst] in *; by etransitivity.
Qed.

Lemma fund_or_drop_inert (txs : list SignedTx) (rate : option Z) (utxos : list InputUtxo) :
  inert (fund_or_drop (S:=S) compute_txid txs rate utxos).
Proof.
  intros w. unfold fund_or_drop. destruct rate as [rate|]; [|done].
  assert (Hk : inert (on_keys (X:=X) (add_fee_to_htlc_txs (S:=S) compute_txid txs rate utxos))).
  { apply inert_keys. intros k. unfold add_fee_to_htlc_txs. destruct txs; [done|apply fund_all_quiet]. }
  specialize (Hk w). by destruct (on_keys _ w) as [w' [| |]].
Qed.

Lemma htlc_spends_inert (lookup : bool) (ctxid : Txid) (seen : list Txid) (htlcs : list IndexedHTLC) :
  inert (htlc_spends compute_txid lookup ctxid seen htlcs).
Proof. revert seen. induction htlcs as [|h htlcs IH]; intros seen; cbn [htlc_spends]; repeat (apply IH || inert_step). Qed.

Lemma concat_each_inert {A B : Type} (f : A -> method world Status (list B)) (l : list A) :
  (forall x, inert (f x)) -> inert (concat_each f l).
Proof. intros Hf. induction l as [|x l IH]; cbn [concat_each]; repeat (apply IH || apply Hf || inert_step). Qed.

Lemma collect_inert (script : ScriptBuf) (confirms : Z) (point revocation : PublicKey) (tx : Transaction) :
  inert (collect_delayed_sweep_outputs compute_txid script confirms point revocation tx).
Proof.
  apply concat_each_inert. intros [idx o]. unfold delayed_output. repeat inert_step.
Qed.

Lemma collect_sweeps_inert (s : S) (txs : RecoveryTxs) (htlc_txs : list SignedTx) (spenders : list Transaction) (b : bool) :
  inert (collect_sweeps compute_txid s txs htlc_txs spenders b).
Proof.
  unfold collect_sweeps. repeat (apply collect_inert || (apply concat_each_inert; intros ?) || inert_step).
Qed.

Lemma broadcast_htlc_txs_inert (txs : list SignedTx) : inert (broadcast_htlc_txs txs true).
Proof. induction txs as [|tx txs IH]; cbn [broadcast_htlc_txs]; repeat (apply IH || inert_step). Qed.

Context (fee_rate : option Z) (utxos : list InputUtxo) (online lookup : bool) (override : option Z).

Lemma recover_channel_inert (s : S) :
  inert (recover_channel compute_txid fee_rate utxos online lookup true override s).
Proof.
  unfold recover_channel, recover_closed_channel, get_htlc_spend_status, holder_closed.
  repeat (apply htlc_spends_inert || apply fund_or_drop_inert || apply broadcast_htlc_txs_inert || apply collect_sweeps_inert
          || (apply inert_keys; intros ?; apply (qk_close Hquiet)) || inert_step).
Qed.

Lemma recover_channels_inert (progress : CloseRecoveryProgress) (signers : list S) :
  inert (recover_channels compute_txid fee_rate utxos online lookup true override progress signers).
Proof.
  revert progress. induction signers as [|s signers IH]; intros progress; cbn [recover_channels];
    repeat (apply IH || apply recover_channel_inert || inert_step).
Qed.

Lemma sweep_each_inert (max_witness_length : Z) (script : ScriptBuf) (progress : CloseRecoveryProgress)
    (sweeps : list (DelayedPaymentOutputDescriptor * (SigningKey * CloseWitness))) :
  inert (sweep_each (S:=S) online true max_witness_length script progress sweeps).
Proof.
  revert progress. induction sweeps as [|[d uck] sweeps IH]; intros progress; cbn [sweep_each];
    unfold spend_delayed_outputs;
    repeat (apply IH || (apply inert_keys; intros ?; apply (qk_onchain Hquiet)) || inert_step).
Qed.

Lemma recover_close_inert (max_witness_length : Z) (destination : option Allowable) :
  inert (recover_close_inner compute_txid fee_rate utxos online lookup true override max_witness_length destination).
Proof.
  unfold recover_close_inner. repeat (apply recover_channels_inert || apply sweep_each_inert || inert_step).
Qed.
End DryRun.

(** ** The keys of a node *)
Section DirectQuiet.
Context `{Profile} `{BitcoinLib} `{LightningLib} `{SpendScripts} `{ChainPackages} `{CommitmentPointProvider} `{WalletKeys}.
Context `{InputSigner} `{SecpSign} `{ChanUtils} `{HtlcWitness}.
Context {P : Type} `{!Persist P} {V : Type} `{HV : Validator V} `{TransactionValidator V NodeWallet}.
Context (validator : V) (persist : Channel -> res Status unit).
Context (channel_keys : ChannelId -> VlsChannelSigner) (fuel : nat) (rand : nat -> nat -> nat -> list Z).

Abbreviation node := (Node (P:=P)) (only parsing).

(** The same slot, up to what the channel last saw of the chain. *)
Inductive same_slot : NodeSlot -> NodeSlot -> Prop :=
| same_stub stub : same_slot (StubSlot stub) (StubSlot stub)
| same_ready chan monitor cs : same_slot (ReadySlot chan monitor) (ReadySlot (at_chain_state chan cs) monitor).

Definition keeps_channels (n n' : node) : Prop :=
  n'.(channels) = n.(channels) /\ forall r, option_Forall2 same_slot (n.(slots) !! r) (n'.(slots) !! r).

Lemma same_slot_refl (s : NodeSlot) : same_slot s s.
Proof. destruct s as [|chan m]; [constructor|]. assert (Hc := same_ready chan m chan.(monitor_state)). by destruct chan. Qed.

Lemma same_slot_trans (s1 s2 s3 : NodeSlot) : same_slot s1 s2 -> same_slot s2 s3 -> same_slot s1 s3.
Proof.
  intros H12 H23. destruct H12 as [|chan m cs]; [done|]. inversion H23 as [|? ? cs']; subst.
  exact (same_ready chan m cs').
Qed.

Lemma same_slot_option (o : option NodeSlot) : option_Forall2 same_slot o o.
Proof. destruct o; constructor. apply same_slot_refl. Qed.

Lemma keeping_set (n n' : node) :
  n'.(channels) = n.(channels) -> n'.(slots) = n.(slots) -> keeps_channels n n'.
Proof. intros Hc Hs. split; [done|]. intros r. rewrite Hs. apply same_slot_option. Qed.

#[export] Instance keeps_channels_preorder : PreOrder keeps_channels.
Proof.
  split.
  - intros n. by apply keeping_set.
  - intros n1 n2 n3 [Hc1 Hs1] [Hc2 Hs2]. split; [congruence|]. intros r. specialize (Hs1 r). specialize (Hs2 r).
    destruct Hs1 as [s1 s2 H12|]; inversion Hs2; subst; constructor. by eapply same_slot_trans.
Qed.

(** A method that keeps the channels. *)
Definition keeping {E A : Type} (m : method node E A) : Prop := forall n, keeps_channels n (m n).1.

Lemma keeping_bind {E A B : Type} (m : method node E A) (f : A -> method node E B) :
  keeping m -> (forall a, keeping (f a)) -> keeping (m ≫= f).
Proof.
  intros Hm Hf n. unfold mbind, method_bind. specialize (Hm n). destruct (m n) as [n1 [a|e|]]; cbn [fst] in *; [|done..].
  etransitivity; [exact Hm|apply Hf].
Qed.

Lemma keeping_call {E A : Type} (r : res E A) : keeping (call r).
Proof. intros n. reflexivity. Qed.

Lemma keeping_persist {A : Type} (on_err : res Status A) (m : method P Error A) : keeping (persist_or on_err m).
Proof. intros n. unfold persist_or. destruct (m _). by apply keeping_set. Qed.

Lemma check_onchain_keeps (compute : Transaction -> Txid) now tx flags prev ucks opaths :
  keeping (check_onchain_tx validator compute now tx flags prev ucks opaths).
Proof.
  intros n. unfold check_onchain_tx. rewrite get_bind.
  destruct (fold_res _ _ _) as [w| |]; [|reflexivity..]. rewrite call_Ok_bind. cbv zeta.
  destruct (tv_validate_onchain_tx _ _ _ _ _ _ _ _) as [s| |]; [|reflexivity..]. rewrite call_Ok_bind.
  destruct (mul_u64 _ _) as [f| |]; [|reflexivity..]. rewrite call_Ok_bind.
  destruct (Velocity.insert _ _ _) as [i| |]; [|reflexivity..]. rewrite call_Ok_bind.
  unfold set_self, mbind, method_bind, call. by apply keeping_set.
Qed.

Lemma watch_each_keeps (tx : Transaction) (l : list (option nat)) : keeping (watch_each (P:=P) tx l).
Proof.
  induction l as [|[r|] l IH]; cbn [watch_each]; [by intros n|apply keeping_bind; [|by intros []]|done].
  intros n. unfold watch_funding. rewrite get_bind.
  destruct (n.(slots) !! r) as [[stub|chan monitor]|]; [reflexivity| |reflexivity]. cbn [unwrap]. rewrite call_Ok_bind.
  destruct (n.(monitors) !! monitor) as [m|]; [|reflexivity]. cbn [unwrap]. rewrite call_Ok_bind.
  destruct (add_listener_watches _ _ _) as [t| |]; [|reflexivity..]. rewrite call_Ok_bind.
  unfold mbind at 1, method_bind at 1, set_self. etransitivity; [|apply keeping_persist]. by apply keeping_set.
Qed.

Lemma unchecked_sign_keeps {A : Type} (compute : Transaction -> Txid) (signed : node -> res Status A) (tx : Transaction) :
  keeping (fun n => unchecked_sign_onchain_tx (P:=P) compute (signed n) tx n).
Proof.
  intros n. unfold unchecked_sign_onchain_tx. rewrite get_bind.
  destruct (signed n) as [w| |]; [|reflexivity..]. rewrite call_Ok_bind.
  apply (keeping_bind (watch_each tx (funded_channels compute n tx))); [apply watch_each_keeps|]. intros [].
  apply keeping_bind; [|intros [] n'; reflexivity]. intros n'. unfold persist_node_tracker. rewrite get_bind. apply keeping_persist.
Qed.

Lemma dry_run_keeps (r : nat) (chan : Channel) (monitor : nat) (spent : list bool) (override : option Z) (n : node) :
  n.(slots) !! r = Some (ReadySlot chan monitor) ->
  keeps_channels n (run_channel r chan monitor
    (sign_holder_commitment_tx_for_recovery_dry_run validator persist (channel_keys chan.(id0)) fuel rand spent override) n).1.
Proof.
  intros Hr. unfold run_channel. rewrite get_bind.
  destruct (n.(monitors) !! monitor) as [m|]; [|reflexivity]. cbn [unwrap]. rewrite call_Ok_bind. cbv zeta.
  unfold sign_holder_commitment_tx_for_recovery_dry_run.
  destruct (recovery_inner_cases validator persist (channel_keys chan.(id0)) fuel rand spent override
    (at_chain_state chan (match as_chain_state (E:=Status) m with Ok cs => cs | _ => chan.(monitor_state) end)) n.(node_state))
    as (o & -> & _).
  unfold set_self, mbind, method_bind, call. cbn [fst]. split; [done|]. intros r'.
  cbn [with_node_state with_slot slots]. destruct (decide (r' = r)) as [->|Hne].
  - rewrite lookup_insert_eq, Hr. constructor. constructor.
  - rewrite lookup_insert_ne by done. apply same_slot_option.
Qed.

Definition keeps_node (k k' : DirectRecoveryKeys (P:=P)) : Prop := keeps_channels k.(dk_node) k'.(dk_node).

#[export] Instance keeps_node_preorder : PreOrder keeps_node.
Proof.
  split; [intros k; unfold keeps_node; reflexivity|].
  intros k1 k2 k3 H12 H23. unfold keeps_node in *. by etransitivity.
Qed.

Lemma on_direct_keeps {A : Type} (m : method node Status A) (k : DirectRecoveryKeys) :
  keeps_channels k.(dk_node) (m k.(dk_node)).1 -> keeps_node k (on_direct_node m k).1.
Proof. intros Hm. unfold on_direct_node, keeps_node. by destruct (m _). Qed.

Lemma direct_bind {A B : Type} (m : method DirectRecoveryKeys Status A) (f : A -> method DirectRecoveryKeys Status B) k :
  keeps_node k (m k).1 -> (forall a k', keeps_node k' (f a k').1) -> keeps_node k ((m ≫= f) k).1.
Proof.
  intros Hm Hf. unfold mbind, method_bind. destruct (m k) as [k1 [a|e|]]; cbn [fst] in *; [|done..].
  etransitivity; [exact Hm|apply Hf].
Qed.

Lemma direct_quiet :
  quiet_keys (K:=DirectRecoveryKeys) (S:=nat)
    (RecoveryKeys0:=DirectRecoveryKeys_keys validator persist channel_keys fuel rand) keeps_node.
Proof.
  split; cbn [rk_sign_onchain_tx rk_sign_wallet_input_unchecked rs_sign_holder_commitment_tx_for_recovery DirectRecoveryKeys_keys].
  - intros tx flags ipaths prev ucks opaths k. apply direct_bind; [unfold keeps_node; reflexivity|]. intros now k1. cbv zeta.
    apply direct_bind; [|intros _ k2].
    + apply on_direct_keeps. assert (Hc := check_onchain_keeps tx_compute_txid now tx flags prev
        ((fun o : option (SigningKey * CloseWitness) => (fun '(key, w) => item_len <$> close_stack key w) <$> o) <$> ucks) opaths k1.(dk_node)).
      by destruct (check_onchain_tx _ _ _ _ _ _ _ _ _).
    + apply on_direct_keeps. apply (unchecked_sign_keeps tx_compute_txid (fun n => sign_inputs (node_wallet n) tx ipaths prev ucks)).
  - intros tx i u k. unfold direct_sign_wallet_input_unchecked. cbv zeta.
    destruct (_ <=? i)%nat; [reflexivity|]. case_bool_decide; [reflexivity|]. rewrite get_bind.
    destruct (get_native_address _ _) as [script| |]; [|reflexivity..]. rewrite call_Ok_bind. cbv zeta.
    apply direct_bind; [|intros a k'; reflexivity]. apply on_direct_keeps.
    apply (unchecked_sign_keeps tx_compute_txid (fun n => sign_inputs (node_wallet n) tx _ _ _)).
  - intros r spent override k. unfold direct_sign_for_recovery, direct_channel. rewrite get_bind.
    destruct (k.(dk_node).(slots) !! r) as [[stub|chan monitor]|] eqn:Hr; [reflexivity| |reflexivity]. rewrite call_Ok_bind.
    apply on_direct_keeps. by apply dry_run_keeps.
Qed.
End DirectQuiet.

(** ** What a recovery sends *)
Section Sweeps.
Context `{Profile} `{TxEncoding} {K S : Type} `{!RecoveryKeys K S} {X : Type} `{!Explorer X}.
Context (compute_txid : Transaction -> Txid).

Abbreviation world := (World (K:=K) (X:=X)) (only parsing).

(** If the call returns, [Q] holds of what it sent and of its result. *)
Definition sends {A : Type} (m : method world Status A) (Q : list SignedTx -> A -> Prop) : Prop :=
  forall w w' a, m w = (w', Ok a) -> exists sent, w'.(w_sent) = w.(w_sent) ++ sent /\ Q sent a.

Lemma sends_mono {A : Type} (m : method world Status A) (Q Q' : list SignedTx -> A -> Prop) :
  sends m Q -> (forall s a, Q s a -> Q' s a) -> sends m Q'.
Proof. intros Hm HQ w w' a Hrun. destruct (Hm w w' a Hrun) as (s & Hs & Hq). exists s. auto. Qed.

Lemma sends_bind {A B : Type} (m : method world Status A) (f : A -> method world Status B) (Q : list SignedTx -> B -> Prop) :
  sends m (fun s1 a => sends (f a) (fun s2 b => Q (s1 ++ s2) b)) -> sends (m ≫= f) Q.
Proof.
  intros Hm w w' b Hrun. unfold mbind, method_bind in Hrun.
  destruct (m w) as [w1 [a|e|]] eqn:Hw; [|done..]. destruct (Hm _ _ _ Hw) as (s1 & Hs1 & Hf).
  destruct (Hf _ _ _ Hrun) as (s2 & Hs2 & HQ). exists (s1 ++ s2). split; [|done]. by rewrite Hs2, Hs1, app_assoc.
Qed.

Lemma sends_nothing {A : Type} (m : method world Status A) (Q : list SignedTx -> A -> Prop) :
  (forall w, (m w).1.(w_sent) = w.(w_sent)) -> (forall w a, (m w).2 = Ok a -> Q [] a) -> sends m Q.
Proof.
  intros Hs HQ w w' a Hrun. specialize (Hs w). specialize (HQ w a). rewrite Hrun in Hs, HQ. exists [].
  rewrite app_nil_r. auto.
Qed.

Lemma sends_ret {A : Type} (a : A) (Q : list SignedTx -> A -> Prop) : Q [] a -> sends (mret a) Q.
Proof. intros HQ. apply sends_nothing; [done|]. by intros w a' [= <-]. Qed.

Lemma sends_call {A : Type} (r : res Status A) (Q : list SignedTx -> A -> Prop) :
  (forall a, r = Ok a -> Q [] a) -> sends (call r) Q.
Proof. intros HQ. apply sends_nothing; [done|]. intros w a Ha. by apply HQ. Qed.

Lemma sends_read {A : Type} (f : K -> res Status A) (Q : list SignedTx -> A -> Prop) :
  (forall a, Q [] a) -> sends (read_keys f) Q.
Proof. intros HQ. by apply sends_nothing. Qed.

Lemma sends_keys {A : Type} (m : method K Status A) (Q : list SignedTx -> A -> Prop) :
  (forall a, Q [] a) -> sends (on_keys m) Q.
Proof. intros HQ. apply sends_nothing; [|done]. intros w. unfold on_keys. by destruct (m _). Qed.

Lemma sends_explore {A : Type} (m : method X ExplorerError A) (Q : list SignedTx -> res ExplorerError A -> Prop) :
  (forall x, Q [] (m x).2) -> sends (explore m) Q.
Proof.
  intros HQ. apply sends_nothing; intros w; unfold explore; specialize (HQ w.(w_explorer)); destruct (m _) as [x r]; [done|].
  intros a Ha. destruct r; by simplify_eq/=.
Qed.

Lemma sends_broadcast (tx : SignedTx) (Q : list SignedTx -> res ExplorerError unit -> Prop) :
  (forall r, Q [tx] r) -> sends (broadcast tx) Q.
Proof.
  intros HQ w w' a Hrun. unfold broadcast, explore in Hrun. cbn [w_explorer w_keys w_sent] in Hrun.
  destruct (ex_broadcast_transaction tx _) as [x r]. exists [tx]. destruct r; by simplify_eq/=.
Qed.

Lemma sends_expecting {A : Type} (m : method world Status A) (Q : list SignedTx -> A -> Prop) : sends m Q -> sends (expecting m) Q.
Proof. intros Hm w w' a Hrun. unfold expecting in Hrun. destruct (m w) as [w1 [b|e|]] eqn:Hw; simplify_eq. by apply Hm. Qed.

Lemma sends_expect {E A : Type} (m : method world Status (res E A)) (Q : list SignedTx -> A -> Prop) :
  sends m (fun s r => forall a, r = Ok a -> Q s a) -> sends (expect m) Q.
Proof.
  intros Hm. apply sends_bind. eapply sends_mono; [exact Hm|]. cbv beta. intros s [a|e|] HQ.
  - apply sends_ret. rewrite app_nil_r. by apply HQ.
  - by apply sends_call.
  - by apply sends_call.
Qed.

(** An output that the explorer reported with enough confirmations. *)
Definition mature (d : DelayedPaymentOutputDescriptor) : Prop :=
  exists x confirms, (ex_get_utxo_confirmations d.(dp_outpoint) x).2 = Ok (Some confirms) /\ d.(dp_to_self_delay) <= confirms.

Lemma concat_each_sends {A B : Type} (P : B -> Prop) (f : A -> method world Status (list B)) (l : list A) :
  (forall x, sends (f x) (fun _ r => Forall P r)) -> sends (concat_each f l) (fun _ r => Forall P r).
Proof.
  intros Hf. induction l as [|x l IH]; cbn [concat_each]; [apply sends_ret; constructor|].
  apply sends_bind. eapply sends_mono; [apply Hf|]. cbv beta. intros _ r Hr. apply sends_bind.
  eapply sends_mono; [exact IH|]. cbv beta. intros _ rest Hrest. apply sends_ret. by apply Forall_app.
Qed.

Lemma collect_mature (script : ScriptBuf) (confirms : Z) (point revocation : PublicKey) (tx : Transaction) :
  sends (collect_delayed_sweep_outputs compute_txid script confirms point revocation tx) (fun _ ds => Forall mature ds).
Proof.
  apply concat_each_sends. intros [idx o]. unfold delayed_output.
  destruct (negb _); [by apply sends_ret|]. destruct (negb _); [by apply sends_ret|]. cbv zeta.
  apply sends_bind, sends_explore. intros x. destruct (ex_get_utxo_confirmations _ x).2 as [[c|]| |] eqn:Hx;
    try (apply sends_ret; constructor).
  apply sends_ret. destruct (Z.leb_spec confirms c); constructor; [|constructor]. by exists x, c.
Qed.

Lemma collect_sweeps_mature (s : S) (txs : RecoveryTxs) (htlc_txs : list SignedTx) (spenders : list Transaction) (b : bool) :
  sends (collect_sweeps compute_txid s txs htlc_txs spenders b) (fun _ l => Forall (fun p => mature p.1) l).
Proof.
  unfold collect_sweeps. apply sends_bind, sends_read. intros confirms.
  apply sends_bind, sends_expecting, sends_read. intros point. cbv zeta.
  apply sends_bind. eapply sends_mono; [apply collect_mature|]. cbv beta. intros _ first Hfirst.
  apply sends_bind. eapply (sends_mono _ (fun _ l => Forall mature l)).
  { destruct b; [|by apply sends_ret]. apply concat_each_sends. intros t. apply collect_mature. }
  cbv beta. intros _ second Hsecond.
  apply sends_bind. eapply sends_mono; [apply concat_each_sends; intros t; apply collect_mature|]. cbv beta.
  intros _ third Hthird. apply sends_ret. apply Forall_fmap. by rewrite !Forall_app.
Qed.

Lemma broadcast_htlc_txs_sends (txs : list SignedTx) (dry_run : bool) : sends (broadcast_htlc_txs txs dry_run) (fun _ _ => True).
Proof.
  induction txs as [|tx txs IH]; cbn [broadcast_htlc_txs]; [by apply sends_ret|]. apply sends_bind.
  eapply (sends_mono _ (fun _ _ => True)); [|by intros].
  destruct dry_run; [by apply sends_ret|]. apply sends_bind, sends_broadcast. intros r. by apply sends_ret.
Qed.

Lemma htlc_spends_sends (lookup : bool) (ctxid : Txid) (seen : list Txid) (htlcs : list IndexedHTLC) :
  sends (htlc_spends compute_txid lookup ctxid seen htlcs) (fun _ _ => True).
Proof.
  revert seen. induction htlcs as [|h htlcs IH]; intros seen; cbn [htlc_spends]; [by apply sends_ret|].
  apply sends_bind. eapply (sends_mono _ (fun _ _ => True)).
  - destruct (ih_output_index h) as [v|]; [|by apply sends_ret]. cbv zeta. apply sends_bind, sends_explore. intros x.
    destruct (_ x).2 as [[c|]| |]; try by apply sends_ret.
    destruct lookup; [|by apply sends_ret]. apply sends_bind, sends_explore. intros x'. by apply sends_ret.
  - intros _ [spent spender] _. apply sends_bind. eapply sends_mono; [apply IH|]. intros _ rest _. by apply sends_ret.
Qed.

Lemma fund_or_drop_sends (txs : list SignedTx) (rate : option Z) (utxos : list InputUtxo) :
  sends (fund_or_drop (S:=S) compute_txid txs rate utxos) (fun _ _ => True).
Proof.
  apply sends_nothing; [|done]. intros w. unfold fund_or_drop. destruct rate as [rate|]; [|done].
  unfold on_keys. by destruct (add_fee_to_htlc_txs _ _ _ _ _) as [k [| |]].
Qed.

Context (fee_rate : option Z) (utxos : list InputUtxo) (online lookup dry_run : bool) (override : option Z).

Definition outcome_mature (o : ChannelOutcome) : Prop :=
  match o with Skipped => True | Prepared _ _ sweeps => Forall (fun p => mature p.1) sweeps end.

Lemma recover_channel_sends (s : S) :
  sends (recover_channel compute_txid fee_rate utxos online lookup dry_run override s) (fun _ o => outcome_mature o).
Proof.
  unfold recover_channel. apply sends_bind, sends_read. intros outpoint. apply sends_bind, sends_read. intros t.
  destruct (anchor_fee_rate_for _ _ _) as [rate|]; [|by apply sends_ret].
  apply sends_bind, sends_expecting, sends_read. intros ctx.
  apply sends_bind. eapply (sends_mono _ (fun _ _ => True)).
  { destruct online; [|by apply sends_ret]. apply sends_expect, sends_explore. done. }
  intros _ confirms _. cbv zeta. apply sends_bind. eapply (sends_mono _ (fun _ _ => True)).
  { destruct (_ || _); [by apply sends_ret|]. unfold get_htlc_spend_status. cbv zeta.
    destruct (negb online); [by apply sends_ret|apply htlc_spends_sends]. }
  intros _ status _. apply sends_bind, sends_expecting, sends_keys. intros txs.
  apply sends_bind. eapply sends_mono; [apply fund_or_drop_sends|]. intros _ htlc_txs _.
  destruct (negb online); [apply sends_ret; constructor|]. destruct (bool_decide _).
  - apply sends_bind. eapply (sends_mono _ (fun _ _ => True)).
    { destruct dry_run; [by apply sends_ret|]. by apply sends_expect, sends_broadcast. }
    intros _ [] _. apply sends_bind. eapply sends_mono; [apply broadcast_htlc_txs_sends|]. intros _ [] _.
    apply sends_ret. constructor.
  - unfold recover_closed_channel. apply sends_bind. eapply (sends_mono _ (fun _ _ => True)).
    { destruct (_ && _); [|by apply sends_ret]. unfold holder_closed. apply sends_bind, sends_explore. intros x.
      destruct (_ x).2 as [[stx|]| |]; by apply sends_ret. }
    intros _ ours _. destruct (negb ours); [by apply sends_ret|].
    apply sends_bind. eapply sends_mono; [apply broadcast_htlc_txs_sends|]. intros _ [] _.
    apply sends_bind. eapply sends_mono; [apply collect_sweeps_mature|]. cbv beta. intros _ sweeps Hs. by apply sends_ret.
Qed.

(** Every channel is counted once, as prepared or as skipped. *)
Definition counted (p p' : CloseRecoveryProgress) (channels sweeps : nat) : Prop :=
  p'.(total_channels) = p.(total_channels) /\
  (p'.(prepared_channels) + p'.(skipped_channels) = p.(prepared_channels) + p.(skipped_channels) + channels)%nat /\
  (p'.(delayed_outputs_ready) = p.(delayed_outputs_ready) + sweeps)%nat /\
  p'.(delayed_sweep_txs) = p.(delayed_sweep_txs).

Lemma recover_channels_sends (p : CloseRecoveryProgress) (signers : list S) :
  sends (recover_channels compute_txid fee_rate utxos online lookup dry_run override p signers)
    (fun _ r => Forall (fun q => mature q.1) r.2 /\ counted p r.1 (length signers) (length r.2)).
Proof.
  revert p. induction signers as [|s signers IH]; intros p; cbn [recover_channels].
  { apply sends_ret. split; [constructor|]. unfold counted. cbn. lia. }
  apply sends_bind. eapply sends_mono; [apply recover_channel_sends|]. cbv beta. intros _ o Ho.
  destruct o as [|close_txs htlc_txs sweeps]; apply sends_bind; (eapply sends_mono; [apply IH|]); cbv beta;
    intros _ [p' rest] [Hm Hc]; apply sends_ret; cbn [fst snd] in *; unfold counted in *; cbn in Hc.
  - split; [done|]. cbn [length app]. lia.
  - split; [by apply Forall_app|]. rewrite length_app. cbn [length]. lia.
Qed.

(** A sweep spends one output once its delay has passed, to the given script. *)
Definition sweep_tx (script : ScriptBuf) (d : DelayedPaymentOutputDescriptor) (tx : SignedTx) : Prop :=
  tx.(st_tx).(input) = [mkTxIn d.(dp_outpoint) d.(dp_to_self_delay)] /\
  (length tx.(st_tx).(output) <= 1)%nat /\ Forall (fun o => o.(script_pubkey) = script) tx.(st_tx).(output).

Lemma change_shape (tx tx' : SignedTx) (v wmax rate : Z) (script : ScriptBuf) :
  maybe_add_change_output tx v wmax rate script = Ok tx' ->
  tx' = tx \/ exists c, tx' = with_change tx [mkTxOut c script].
Proof.
  unfold maybe_add_change_output. destruct (_ <? v); [done|]. cbv zeta.
  intros Hrun. res_inv. destruct (_ <=? _) in Hrun; [right|left]; res_inv; [by eexists|].
  destruct (_ <? 0) in *; by res_inv.
Qed.

Lemma fill_keeps (tx tx' : SignedTx) (l : list (nat * list WitnessItem)) :
  fold_res (fun tx '(i, w) => rassert (bool_decide (i < length tx.(st_tx).(input))%nat) ;; Ok (with_witness tx i (WalletStack w)))
    tx l = Ok (E:=Status) tx' -> tx'.(st_tx) = tx.(st_tx).
Proof.
  revert tx. induction l as [|[i w] l IH]; intros tx Hf; cbn [fold_res] in Hf; [by injection Hf as <-|].
  unfold rassert in Hf at 1. destruct (bool_decide _); [|done]. cbn [mbind res_bind] in Hf. by apply IH in Hf as ->.
Qed.

Lemma spend_delayed_spec (max_witness_length : Z) (d : DelayedPaymentOutputDescriptor) (uck : SigningKey * CloseWitness)
    (script : ScriptBuf) (path : DerivationPath) (rate : Z) :
  sends (spend_delayed_outputs (S:=S) max_witness_length [d] uck script path rate) (fun s tx => s = [] /\ sweep_tx script d tx).
Proof.
  unfold spend_delayed_outputs. apply sends_bind, sends_call. intros tx Htx.
  destruct (create_spending_transaction _ _ _ _) as [tx0| |] eqn:Hc in Htx; [|done..]. injection Htx as ->.
  apply sends_bind, sends_expecting, sends_keys. intros witnesses. apply sends_bind, sends_call. intros _ _.
  apply sends_call. intros tx' Hfill. split; [done|]. unfold fill_witnesses in Hfill. apply fill_keeps in Hfill.
  unfold create_spending_transaction in Hc. destruct (fold_res _ _ _) as [[[v w] seen]| |]; [|done..].
  cbn [mbind res_bind] in Hc. apply change_shape in Hc as [->|[c ->]]; unfold sweep_tx; rewrite Hfill; cbn.
  - split_and!; [done|lia|constructor].
  - split_and!; [done|lia|by repeat constructor].
Qed.

Lemma sweep_each_sends (max_witness_length : Z) (script : ScriptBuf) (p : CloseRecoveryProgress)
    (sweeps : list (DelayedPaymentOutputDescriptor * (SigningKey * CloseWitness))) :
  sends (sweep_each (S:=S) true false max_witness_length script p sweeps)
    (fun sent p' => Forall2 (sweep_tx script) sweeps.*1 sent /\
       p'.(delayed_sweep_txs) = (p.(delayed_sweep_txs) + length sweeps)%nat /\
       p'.(total_channels) = p.(total_channels) /\ p'.(prepared_channels) = p.(prepared_channels) /\
       p'.(skipped_channels) = p.(skipped_channels) /\ p'.(delayed_outputs_ready) = p.(delayed_outputs_ready)).
Proof.
  revert p. induction sweeps as [|[d uck] sweeps IH]; intros p; cbn [sweep_each].
  { apply sends_ret. split; [constructor|]. cbn. lia. }
  apply sends_bind. eapply sends_mono; [apply spend_delayed_spec|]. cbv beta. intros s tx [-> Htx].
  apply sends_bind. apply sends_expect, sends_broadcast. intros _ [] _.
  eapply sends_mono; [apply IH|]. cbv beta. intros sent p' (Hall & Hd & Ht & Hp & Hs & Hr). cbn in Hd, Ht, Hp, Hs, Hr.
  split; [by constructor|]. cbn [length]. lia.
Qed.
End Sweeps.

(** ** Signatures after an input was added *)
Lemma drawn_signature `{SecpSign} (fuel : nat) (msg : Z) (sk : SecretKey) (entropy : nat -> list Z) (sig : Signature) :
  sign_with_aux_rand fuel msg sk entropy = Some sig -> exists k, sig = sign_ecdsa_with_noncedata msg sk (entropy k).
Proof.
  revert entropy. induction fuel as [|fuel IH]; intros entropy Hs; [done|]. cbn [sign_with_aux_rand] in Hs.
  destruct (_ <? 0x80); [injection Hs as <-; by exists 0%nat|]. apply IH in Hs as [k ->]. by exists (S k).
Qed.

Lemma add_fee_shape `{Profile} `{TxEncoding} {K S : Type} `{!RecoveryKeys K S} (compute_txid : Transaction -> Txid)
    (tx f : SignedTx) (u : InputUtxo) (rate : Z) (ch : option InputUtxo) (k k' : K) :
  length tx.(st_witnesses) = length tx.(st_tx).(input) ->
  add_fee_to_htlc_tx (S:=S) compute_txid tx u rate k = (k', Ok (f, ch)) ->
  f.(st_tx).(input) = tx.(st_tx).(input) ++ [mkTxIn u.(iu_outpoint) 0] /\
  forall i, (i < length tx.(st_witnesses))%nat -> f.(st_witnesses) !! i = tx.(st_witnesses) !! i.
Proof.
  intros Hlen Hrun. unfold add_fee_to_htlc_tx in Hrun.
  apply call_Ok in Hrun as (sum & _ & Hrun). apply call_Ok in Hrun as (v & _ & Hrun).
  unfold mbind at 1, method_bind at 1 in Hrun. destruct (rk_wallet_script_pubkey_native _ k) as [script| |]; [|done..].
  apply call_Ok in Hrun as (tx' & Hchange & Hrun).
  destruct (maybe_add_change_output _ _ _ _ _) as [tx''| |] eqn:Hm in Hchange; [|done..]. injection Hchange as <-.
  unfold mbind at 1, method_bind at 1 in Hrun.
  destruct (rk_sign_wallet_input_unchecked _ _ _ k) as [k1 [stack| |]]; [|done..].
  case_bool_decide; [done|]. unfold mret, method_ret in Hrun. injection Hrun as <- <- <-.
  apply change_shape in Hm as [->|[c ->]]; cbn [with_witness with_change st_tx st_witnesses input]; (split; [done|]);
    intros i Hi; rewrite list_lookup_insert_ne by lia; by apply lookup_app_l.
Qed.

(** ** Properties *)

(** A dry run of the recovery of a node is inert.  Whatever the explorer answers and
    however the run ends, nothing is handed to the explorer, no channel is added or
    removed, and every channel keeps its enforcement state and set-up: none is marked
    as closed. *)
Theorem recovery_dry_run_inert `{Profile} `{BitcoinLib} `{LightningLib} `{SpendScripts} `{ChainPackages}
    `{CommitmentPointProvider} `{WalletKeys} `{InputSigner} `{SecpSign} `{ChanUtils} `{HtlcWitness} `{TxEncoding}
    {P : Type} `{!Persist P} {V : Type} `{HV : Validator V} `{!TransactionValidator V NodeWallet} {X : Type} `{!Explorer X}
    (validator : V) (persist : Channel -> res Status unit) (channel_keys : ChannelId -> VlsChannelSigner) (fuel : nat)
    (rand : nat -> nat -> nat -> list Z) (fee_rate : option Z) (utxos : list InputUtxo) (online lookup : bool)
    (override : option Z) (max_witness_length : Z) (destination : option Allowable) (w : World) :
  let keys := DirectRecoveryKeys_keys validator persist channel_keys fuel rand in
  let w' := (recover_close_inner (RecoveryKeys0:=keys) (X:=X) tx_compute_txid fee_rate utxos online lookup true override
               max_witness_length destination w).1 in
  w'.(w_sent) = w.(w_sent) /\ keeps_channels w.(w_keys).(dk_node) w'.(w_keys).(dk_node).
Proof.
  intros keys w'.
  destruct (recover_close_inert (RecoveryKeys0:=keys) (X:=X) tx_compute_txid (keeps_node (P:=P))
    (direct_quiet validator persist channel_keys fuel rand) fee_rate utxos online lookup override max_witness_length
    destination w) as [Hk Hs]. by split.
Qed.

(** Signing for recovery and its dry run agree.  The dry run changes neither the
    channel nor the node state; when it returns transactions, the real call returns
    the same ones if the channel can be persisted, and then the channel is marked as
    closed; when it fails, the real call fails in the same way and changes nothing. *)
Theorem dry_run_signs_the_same `{Profile} `{BitcoinLib} `{LightningLib} `{SecpSign} `{ChanUtils} `{HtlcWitness}
    `{InputSigner} {V : Type} `{Validator V} (validator : V) (persist : Channel -> res Status unit)
    (keys : VlsChannelSigner) (fuel : nat) (rand : nat -> nat -> nat -> list Z) (spent : list bool) (override : option Z)
    (chan : Channel) (state : NodeState) :
  let closed := with_estate chan (with_closed chan.(enforcement_state) true) in
  let dry := sign_holder_commitment_tx_for_recovery_dry_run validator persist keys fuel rand spent override (chan, state) in
  let real := sign_holder_commitment_tx_for_recovery validator persist keys fuel rand spent override (chan, state) in
  dry.1 = (chan, state) /\
  match dry.2 with
  | Ok txs => real.1 = (closed, state) /\ (persist closed = Ok tt -> real.2 = Ok txs)
  | _ => real = dry
  end.
Proof.
  intros closed dry real.
  destruct (recovery_inner_cases validator persist keys fuel rand spent override chan state) as (r & Hdry & Hreal).
  unfold dry, real, sign_holder_commitment_tx_for_recovery_dry_run, sign_holder_commitment_tx_for_recovery.
  rewrite Hdry, Hreal. cbn [fst snd]. split; [done|]. destruct r as [txs|e|]; [|done..]. fold closed. cbn [fst snd].
  split; [done|]. by intros ->.
Qed.

(** C18: The second-level transactions of a recovered channel claim exactly what can be
    claimed.  Their inputs are, each once, the outputs of the HTLCs that are unspent
    and either expired, if we offered them, or have a known preimage; a transaction
    claims only HTLCs with a preimage and has lock time 0, or only expired HTLCs with its
    lock time as their expiry.  With zero-fee HTLCs there is one transaction for the
    former and one for each expiry, otherwise one for each HTLC. *)
Theorem recovered_htlcs `{Profile} `{BitcoinLib} `{LightningLib} `{SecpSign} `{ChanUtils} `{HtlcWitness}
    (keys : VlsChannelSigner) (fuel : nat) (rand : nat -> nat -> nat -> list Z) (chan : Channel) (state : NodeState)
    (holder_tx : CommitmentTransaction) (ctxid : Txid) (txkeys : TxCreationKeys) (sigs : list Signature)
    (spent : list bool) (override : option Z) (txs : list SignedTx) :
  htlc_spends_output -> heights_kept ->
  sign_holder_htlc_txs_for_recovery keys fuel rand chan state holder_tx ctxid txkeys sigs spent override = Ok txs ->
  let height := default (get_chain_state chan).(current_height) override in
  let claims := omap (claimable state height spent) (imap pair holder_tx.(nondust_htlcs)) in
  mjoin ((fun tx => previous_output <$> tx.(st_tx).(input)) <$> txs) ≡ₚ (claim_outpoint ctxid <$> claims) /\
  exists batches, batches_ok height (is_zero_fee_htlc chan.(setup)) batches /\ mjoin batches.*1 ≡ₚ claims /\
    Forall2 (fun tx b => previous_output <$> tx.(st_tx).(input) = claim_outpoint ctxid <$> b.1 /\
                         tx.(st_tx).(lock_time) = b.2 /\ length tx.(st_witnesses) = length b.1) txs batches.
Proof.
  intros Hspend Hheight Hrun height claims. unfold sign_holder_htlc_txs_for_recovery in Hrun.
  destruct (sub_u64 _ _) as [n| |]; [|done..]. cbn [mbind res_bind] in Hrun.
  destruct (get_per_commitment_point _ _) as [point| |]; [|done..]. cbn [mbind res_bind] in Hrun. cbv zeta in Hrun. fold height in Hrun.
  destruct (negb _); [done|].
  assert (Hsort := sort_htlcs state height spent (imap pair holder_tx.(nondust_htlcs)) [] []).
  destruct (fold_left _ _ _) as [received offered]. destruct Hsort as [Hs Hp]; [by split; repeat constructor|].
  cbn [app fmap list_fmap mjoin list_join] in Hp. fold claims in Hp.
  apply map_res_Forall2 in Hrun. set (batches := claim_batches (is_zero_fee_htlc chan.(setup)) received offered) in *.
  assert (Hbatches : mjoin batches.*1 ≡ₚ claims) by (unfold batches; by rewrite claim_batches_perm).
  assert (Hall : Forall2 (fun tx b => previous_output <$> tx.(st_tx).(input) = claim_outpoint ctxid <$> b.1 /\
                   tx.(st_tx).(lock_time) = b.2 /\ length tx.(st_witnesses) = length b.1) txs batches).
  { apply (batches_signed keys fuel rand chan ctxid txkeys n point sigs
      (if is_zero_fee_htlc chan.(setup) then 0 else holder_tx.(negotiated_feerate_per_kw))); [done..|].
    eapply Forall2_impl; [exact Hrun|]. by intros [t [cl lt]] tx. }
  split; [|exists batches; split_and!; [by apply claim_batches_ok|done|done]].
  rewrite <- Hbatches. clear -Hall. induction Hall as [|tx [cl lt] txs batches (Hin & _ & _) _ IH]; [done|].
  rewrite !fmap_cons, !mjoin_cons, fmap_app, Hin. cbn [fst]. by rewrite IH.
Qed.


(** C40: Adding a fee input invalidates the signatures of a second-level transaction.  The
    holder's signature of every HTLC input is made over the whole transaction
    ([SIGHASH_ALL]) before the fee input is added; the transaction with the fee input
    still carries it, and it does not verify there.  The comment on the code says that
    these signatures use [SIGHASH_SINGLE|ANYONECANPAY] so that inputs can be added. *)
Theorem funded_htlc_signature_stale `{Profile} `{BitcoinLib} `{LightningLib} `{SecpSign} `{ChanUtils} `{HtlcWitness}
    `{TxEncoding} {K S : Type} `{!RecoveryKeys K S} (compute_txid : Transaction -> Txid)
    (keys : VlsChannelSigner) (fuel : nat) (chan : Channel) (ctxid : Txid) (txkeys : TxCreationKeys) (n : Z)
    (point : PublicKey) (sigs : list Signature) (claims : list htlc_claim) (lt rate : Z) (entropy : nat -> nat -> list Z)
    (tx f : SignedTx) (u : InputUtxo) (fee_rate : Z) (ch : option InputUtxo) (k k' : K) :
  build_and_sign_batched_htlc_tx keys fuel chan ctxid txkeys n point sigs claims lt rate entropy = Ok tx ->
  add_fee_to_htlc_tx (S:=S) compute_txid tx u fee_rate k = (k', Ok (f, ch)) ->
  (forall i script amount h h', p2wsh_signature_hash tx.(st_tx) i script amount SighashAll = Some h ->
     p2wsh_signature_hash f.(st_tx) i script amount SighashAll = Some h' -> h <> h') ->
  (forall m m' sk aux, m <> m' -> secp_verify m (sign_ecdsa_with_noncedata m' sk aux) (pubkey_of sk) = false) ->
  forall i idx htlc preimage, claims !! i = Some (idx, htlc, preimage) -> exists cp_sig hsig,
    let d := claim_descriptor keys chan ctxid n point rate htlc preimage cp_sig in
    sigs !! idx = Some cp_sig /\
    f.(st_witnesses) !! i = Some (ChannelStack (build_htlc_input_witness hsig cp_sig preimage
                                    (htlc_redeemscript htlc.(ih_htlc) (features chan.(setup)) txkeys) (features chan.(setup)))) /\
    forall h', p2wsh_signature_hash f.(st_tx) i (descriptor_witness_script d) (to_bitcoin_amount htlc.(ih_htlc)) SighashAll = Some h' ->
      secp_verify h' hsig (pubkey_of (derive_private_key point keys.(htlc_base_key))) = false.
Proof.
  intros Hbuild Hfee Hbind Hverify i idx htlc preimage Hi.
  destruct (batched_tx_signed _ _ _ _ _ _ _ _ _ _ _ _ _ Hbuild) as (Hlen & Hin & Hsigned).
  destruct (add_fee_shape _ _ _ _ _ _ _ _ Hlen Hfee) as [_ Hkeep].
  destruct (Hsigned i idx htlc preimage Hi) as (cp_sig & w & Hcp & Hw & h & e & hsig & Hh & Hs & ->).
  exists cp_sig, hsig. split_and!; [done|rewrite Hkeep; [done|]|].
  - apply lookup_lt_Some in Hi. lia.
  - intros h' Hh'. apply drawn_signature in Hs as [j ->]. apply Hverify. apply not_eq_sym. by eapply Hbind.
Qed.


(** ** Samples *)
#[local] Instance TxIn_countable : Countable TxIn.
Proof.
  refine (inj_countable' (fun i => (i.(previous_output), i.(sequence))) (fun p => mkTxIn p.1 p.2) _). by intros [].
Defined.
#[local] Instance TxOut_countable : Countable TxOut.
Proof. refine (inj_countable' (fun o => (o.(value), o.(script_pubkey))) (fun p => mkTxOut p.1 p.2) _). by intros []. Defined.
#[local] Instance Transaction_countable : Countable Transaction.
Proof.
  refine (inj_countable' (fun t => (t.(version), t.(lock_time), t.(input), t.(output)))
    (fun '(v, l, i, o) => mkTransaction v l i o) _). by intros [].
Defined.

Definition sample_txid (tx : Transaction) : Txid := Zpos (encode tx).

Section RecoverySamples.
#[local] Instance recovery_profile : Profile := release_profile.
#[local] Instance sample_encoding : TxEncoding := {|
  signed_weight _ := 700; txout_len _ := 31; varint_size _ := 1; minimal_non_dust _ := 294 |}.
#[local] Existing Instance sample_signing.
#[local] Existing Instance sample_utils.
#[local] Existing Instance sample_bitcoin.

(** A closed channel with one delayed output of 50000 satoshis. *)
Definition sample_close : RecoveryTxs :=
  mkRecoveryTxs (unsigned (mkTransaction 2 0 [mkTxIn (mkOutPoint 77 0) 0] [mkTxOut 50000 9; mkTxOut 1000 8])) [] 9
    (PaymentKey, PubkeyWitness) 5.

#[local] Instance sample_recovery_keys : RecoveryKeys unit unit := {|
  rk_iter _ := [tt];
  rk_sign_onchain_tx _ _ _ _ _ _ := mret [[WitnessEmpty]];
  rk_wallet_address_native _ _ := Ok 7;
  rk_wallet_address_taproot _ _ := Ok 7;
  rk_wallet_script_pubkey_native _ _ := Ok 7;
  rk_sign_wallet_input_unchecked _ _ _ := mret [WitnessEmpty];
  rs_sign_holder_commitment_tx_for_recovery _ _ _ _ := mret sample_close;
  rs_funding_outpoint _ _ := Ok (mkOutPoint 77 0);
  rs_counterparty_selected_contest_delay _ _ := Ok 144;
  rs_get_per_commitment_point _ _ := Ok 3;
  rs_get_current_holder_commitment_transaction _ _ :=
    Ok (mkCommitmentTransaction sample_close.(rt_tx).(st_tx) (mkTxCreationKeys 3 5 1 1 1) [] 253);
  rs_commitment_type _ _ := Ok StaticRemoteKey
|}.

#[local] Instance sample_explorer : Explorer unit := {|
  ex_get_utxo_confirmations op := mret (if op.(txid) =? 77 then None else Some 200);
  ex_get_utxo_spending_tx _ := mret None;
  ex_broadcast_transaction _ := mret tt
|}.

Definition sample_world : World (K:=unit) (X:=unit) := mkWorld tt tt [].
Definition sample_recovery :=
  recover_close_inner (S:=unit) sample_txid None [] true false false None 200 (Some (NodeState.Script 42)) sample_world.
Definition recovered_progress : CloseRecoveryProgress := mkProgress 1 1 0 0 0 1 1.


(** Two transactions and two fee inputs, of which the first is too small. *)
Definition sample_htlc_tx (n : Z) : SignedTx :=
  mkSignedTx (mkTransaction 2 0 [mkTxIn (mkOutPoint 900 n) 0] [mkTxOut 5000 9]) [ChannelStack []].
Definition sample_fee_utxos : list InputUtxo := [mkInputUtxo (mkOutPoint (-1) 0) 100 [1]; mkInputUtxo (mkOutPoint (-2) 0) 9000 [2]].
Definition sample_funded : list SignedTx :=
  match (add_fee_to_htlc_txs (S:=unit) sample_txid [sample_htlc_tx 0; sample_htlc_tx 1] 253 sample_fee_utxos tt).2 with
  | Ok fs => fs
  | _ => []
  end.


(** Hashes that tell transactions with different numbers of inputs apart. *)
#[local] Instance stale_lightning : LightningLib := {|
  make_funding_redeemscript := @make_funding_redeemscript sample_utils_lightning;
  built_closing_tx := @built_closing_tx sample_utils_lightning;
  build_htlc_transaction := @build_htlc_transaction sample_utils_lightning;
  p2wsh_signature_hash tx i script amount t := Some (script + amount + 1000000 * Z.of_nat (length tx.(input)))
|}.
#[local] Instance sample_htlc_witness : HtlcWitness := fun hsig cp_sig _ script f =>
  [EmptyElement; SigElement cp_sig (htlc_sighash_type f); SigElement hsig SighashAll; ScriptElement script].

Definition one_commitment (t : CommitmentType) : Channel :=
  let chan := sample_peer_channel t in
  with_estate chan (with_holder chan.(enforcement_state) 1 None None).
Definition sample_indexed : list IndexedHTLC :=
  [mkIndexedHTLC (mkHTLCOutput true 5000000 500 9) (Some 2); mkIndexedHTLC (mkHTLCOutput true 6000000 500 8) (Some 3);
   mkIndexedHTLC (mkHTLCOutput true 7000000 900 7) (Some 4); mkIndexedHTLC (mkHTLCOutput false 7000000 900 6) (Some 5)].
Definition sample_holder_tx : CommitmentTransaction :=
  mkCommitmentTransaction (mkTransaction 2 0 [] []) (mkTxCreationKeys 3 5 1 1 1) sample_indexed 253.
Definition sample_recovered : list SignedTx :=
  match sign_holder_htlc_txs_for_recovery (sample_signer_keys 20) 1 (fun _ _ _ => []) (one_commitment AnchorsZeroFeeHtlc) sample_state
          sample_holder_tx 44 (mkTxCreationKeys 3 5 1 1 1) [1; 2; 3; 4] [false; false; false; false] (Some 600) with
  | Ok txs => txs
  | _ => []
  end.

Lemma recovered_htlcs_witness :
  length sample_recovered = 1%nat /\
  let claims := omap (claimable sample_state 600 [false; false; false; false]) (imap pair sample_indexed) in
  mjoin ((fun tx => previous_output <$> tx.(st_tx).(input)) <$> sample_recovered) ≡ₚ (claim_outpoint 44 <$> claims) /\
  exists batches, batches_ok 600 true batches /\ mjoin batches.*1 ≡ₚ claims /\
    Forall2 (fun tx b => previous_output <$> tx.(st_tx).(input) = claim_outpoint 44 <$> b.1 /\
                         tx.(st_tx).(lock_time) = b.2 /\ length tx.(st_witnesses) = length b.1) sample_recovered batches.
Proof.
  split; [vm_compute; reflexivity|].
  apply (recovered_htlcs (sample_signer_keys 20) 1 (fun _ _ _ => []) (one_commitment AnchorsZeroFeeHtlc) sample_state
    sample_holder_tx 44 (mkTxCreationKeys 3 5 1 1 1) [1; 2; 3; 4] [false; false; false; false] (Some 600) sample_recovered).
  - done.
  - intros n h Hh. cbn in Hh. destruct (n <? 500000000); [by injection Hh as <-|done].
  - vm_compute. reflexivity.
Defined.

Definition sample_claims : list htlc_claim := (fun h => (0%nat, h, None)) <$> take 2 sample_indexed.
Definition sample_last_htlc : IndexedHTLC := mkIndexedHTLC (mkHTLCOutput true 6000000 500 8) (Some 3).
Definition sample_batch_tx : SignedTx :=
  match build_and_sign_batched_htlc_tx (sample_signer_keys 20) 1 (one_commitment AnchorsZeroFeeHtlc) 44 (mkTxCreationKeys 3 5 1 1 1)
          0 3 [1; 2; 3; 4] sample_claims 500 0 (fun _ _ => []) with
  | Ok tx => tx
  | _ => unsigned (mkTransaction 2 0 [] [])
  end.
Definition sample_funded_batch : SignedTx :=
  match (add_fee_to_htlc_tx (S:=unit) (fun _ => 5) sample_batch_tx (mkInputUtxo (mkOutPoint (-1) 0) 100000 [1]) 253 tt).2 with
  | Ok (f, _) => f
  | _ => sample_batch_tx
  end.

Lemma funded_htlc_signature_stale_witness :
  exists cp_sig hsig,
    let d := claim_descriptor (sample_signer_keys 20) (one_commitment AnchorsZeroFeeHtlc) 44 0 3 0 sample_last_htlc None cp_sig in
    [1; 2; 3; 4] !! 0%nat = Some cp_sig /\
    sample_funded_batch.(st_witnesses) !! 1%nat
      = Some (ChannelStack (build_htlc_input_witness hsig cp_sig None
                (htlc_redeemscript sample_last_htlc.(ih_htlc) (features (one_commitment AnchorsZeroFeeHtlc).(setup))
                   (mkTxCreationKeys 3 5 1 1 1)) (features (one_commitment AnchorsZeroFeeHtlc).(setup)))) /\
    forall h', p2wsh_signature_hash sample_funded_batch.(st_tx) 1 (descriptor_witness_script d)
                 (to_bitcoin_amount sample_last_htlc.(ih_htlc)) SighashAll = Some h' ->
      secp_verify h' hsig (pubkey_of (derive_private_key 3 (sample_signer_keys 20).(htlc_base_key))) = false.
Proof.
  apply (funded_htlc_signature_stale (K:=unit) (S:=unit) (fun _ => 5) (sample_signer_keys 20) 1 (one_commitment AnchorsZeroFeeHtlc) 44
    (mkTxCreationKeys 3 5 1 1 1) 0 3 [1; 2; 3; 4] sample_claims 500 0 (fun _ _ => []) sample_batch_tx sample_funded_batch
    (mkInputUtxo (mkOutPoint (-1) 0) 100000 [1]) 253
    (Some (mkInputUtxo (mkOutPoint 5 2) (100000 - (700 + 2 + 109 + 124) * 253 / 1000) [1])) tt tt) with (idx:=0%nat).
  - vm_compute. reflexivity.
  - vm_compute. reflexivity.
  - intros i script amount h h' [= <-] [= <-].
    change (length (input (st_tx sample_batch_tx))) with 2%nat. change (length (input (st_tx sample_funded_batch))) with 3%nat. lia.
  - intros m m' sk aux Hm. cbn. apply Z.eqb_neq. lia.
  - reflexivity.
Defined.

(** A delayed output worth its fee but not a change output above the dust limit is
    swept by a transaction without outputs, which no node accepts. *)
Lemma dust_sweep_has_no_output :
  (fun tx => tx.(st_tx).(output)) <$>
    create_spending_transaction 200 [mkDelayedPaymentOutputDescriptor (mkOutPoint 5 0) 3 144 (mkTxOut 1000 9) 5] 42 1000
  = Ok [].
Proof. vm_compute. reflexivity. Qed.

(** The fee inputs start over for every channel: the transactions of two channels
    spend the same output. *)
Lemma channels_share_fee_input :
  let fund n := (add_fee_to_htlc_txs (S:=unit) sample_txid [sample_htlc_tx n] 253 (tail sample_fee_utxos) tt).2 in
  let fee_inputs r := match r with Ok fs => (fun f => last f.(st_tx).(input)) <$> fs | _ => [] end in
  fee_inputs (fund 0) = [Some (mkTxIn (mkOutPoint (-2) 0) 0)] /\ fee_inputs (fund 0) = fee_inputs (fund 1).
Proof. vm_compute. done. Qed.

(** A group of on-chain outputs worth less than 1000 satoshis: the limit wraps around
    and the fee is subtracted from a smaller amount. *)
Lemma small_l1_sweep_panics :
  (make_l1_sweep (S:=unit) 42 [(0, mkUtxoResponse 5 0 600, 7)] 1000 sample_world).2 = Panic.
Proof. vm_compute. reflexivity. Qed.
End RecoverySamples.

(** A validated but not yet revoked-into commitment is the one that recovery signs,
    while the spent HTLCs are counted on the commitment before it: if the two have
    different numbers of HTLCs, signing does not succeed, and the recovery of the
    whole node stops with a panic. *)
Lemma pending_commitment_not_signed `{Profile} `{BitcoinLib} `{LightningLib} `{SecpSign} `{ChanUtils} `{HtlcWitness}
    `{InputSigner} {V : Type} `{Validator V} (validator : V) (persist : Channel -> res Status unit)
    (keys : VlsChannelSigner) (fuel : nat) (rand : nat -> nat -> nat -> list Z) (override : option Z) (b : bool)
    (chan : Channel) (state : NodeState) (current : CommitmentTransaction) (info : CommitmentInfo2)
    (sigs : CommitmentSignatures) (next : CommitmentTransaction) (point : PublicKey) (txkeys : TxCreationKeys) :
  get_current_holder_commitment_transaction keys rand chan = Ok current ->
  chan.(enforcement_state).(next_holder_commit_info) = Some (info, sigs) ->
  recompose keys rand chan chan.(enforcement_state).(next_holder_commit_num) info = Ok (next, point, txkeys) ->
  length next.(nondust_htlcs) <> length current.(nondust_htlcs) ->
  forall s' txs, sign_holder_commitment_tx_for_recovery_inner validator persist keys fuel rand
    (replicate (length current.(nondust_htlcs)) false) b override (chan, state) <> (s', Ok txs).
Proof.
  intros _ Hnext Hrec Hne s' txs Hrun. unfold sign_holder_commitment_tx_for_recovery_inner in Hrun. rewrite get_bind in Hrun.
  assert (Hclose : get_latest_holder_commitment_for_close validator chan
                   = Ok (mkClosable chan.(enforcement_state).(next_holder_commit_num) info sigs)).
  { unfold get_latest_holder_commitment_for_close, get_holder_commitment_for_close. rewrite Hnext.
    rewrite bool_decide_eq_true_2 by (by eexists). cbn [mbind res_bind]. by rewrite Z.eqb_refl. }
  rewrite Hclose, call_Ok_bind in Hrun. cbn [cl_commitment_number cl_info cl_counterparty_signatures] in Hrun.
  rewrite Hrec, call_Ok_bind in Hrun. cbv zeta in Hrun.
  apply call_Ok in Hrun as (sig & _ & Hrun). apply call_Ok in Hrun as (tx & _ & Hrun).
  apply call_Ok in Hrun as (htlc_txs & Hh & _). unfold sign_holder_htlc_txs_for_recovery in Hh.
  destruct (sub_u64 _ _) as [n| |]; [|done..]. cbn [mbind res_bind] in Hh.
  destruct (get_per_commitment_point _ _) as [pt| |]; [|done..]. cbn [mbind res_bind] in Hh. cbv zeta in Hh.
  rewrite length_replicate in Hh. destruct (Nat.eqb_spec (length current.(nondust_htlcs)) (length next.(nondust_htlcs))); [congruence|done].
Qed.
