(* ===== verification/Follower.v ===== *)
(** * Following the chain: [vls-frontend] and [vls-proxy/src/nodefront.rs]

    The front end keeps the tracker of a node at the tip of the best chain: a
    follower asks a source of blocks what comes after the tracker's tip, adds or
    removes one block at a time, and pauses when there is nothing to do.  At each
    pause it asks for a signed heartbeat, and a monitor raises an alarm when
    heartbeats are missing or old.  The source of blocks is another package.  The trait
    [ChainTrack] is a class; its instance is the front of an in-process node,
    which writes to the external storage before it commits. *)
From S2P Require Import Prelude Velocity Policy Ordered CommitInfo Types Bitcoin Script Secrets Enforcement SimpleValidator Validator NodeState Channel TxValidator ChannelTx Monitor Tracker BTree Kvv KvvTx Persister Node NodeChannels Approver Wire Messages Withdrawal Handler ChaCha Lss SignerLoop.

#[export] Instance Network_eq_dec : EqDecision Network.
Proof. solve_decision. Defined.

(** Methods without a [Result] either return or panic. *)
Inductive Infallible : Type := .

(** ** Heartbeats: [node.rs] *)
Record Heartbeat := mkHeartbeat {
  chain_tip : BlockHash;
  chain_height : Z;
  chain_timestamp : Z;
  current_timestamp : Z
}.

Record SignedHeartbeat := mkSignedHeartbeat { hb_signature : list Z; hb_heartbeat : Heartbeat }.

(** Hashing, Schnorr signatures, and the signature with the key of the account. *)
Class HeartbeatCrypto := {
  hb_sha256 : list Z -> Z;
  blockhash_bytes : BlockHash -> list Z;
  schnorr_from_slice : list Z -> option Z;
  verify_schnorr : Z -> Z -> PublicKey -> bool;
  km_sign_heartbeat : Z -> list Z;
  heartbeat_pubkey : PublicKey
}.

Section HeartbeatMessages.
Context `{HeartbeatCrypto}.

Definition heartbeat_sighash (self : Heartbeat) : Z :=
  hb_sha256 (text_bytes "vls" ++ text_bytes "heartbeat" ++ blockhash_bytes self.(chain_tip)
    ++ Redb.to_be_bytes 4 self.(chain_height) ++ Redb.to_be_bytes 4 self.(chain_timestamp)
    ++ Redb.to_be_bytes 4 self.(current_timestamp)).

Definition heartbeat_verify (self : SignedHeartbeat) (pubkey : PublicKey) : bool :=
  match schnorr_from_slice self.(hb_signature) with
  | Some signature => verify_schnorr signature (heartbeat_sighash self.(hb_heartbeat)) pubkey
  | None => false
  end.
End HeartbeatMessages.

(** ** The heartbeat monitor: [vls-frontend/src/heartbeat.rs]

    What the monitor writes to the log is its purpose, so an alarm is a value here. *)
Inductive HeartbeatStatus := Fresh | Stale | Missing | Future.

#[export] Instance HeartbeatStatus_eq_dec : EqDecision HeartbeatStatus.
Proof. solve_decision. Defined.

Record HeartbeatMonitor := mkHeartbeatMonitor {
  hm_pubkey : PublicKey;
  notify_interval : Z;
  stale_interval : Z;
  last_timestamp : Z;
  last_heartbeat : option SignedHeartbeat
}.

Section HeartbeatMonitor.
Context `{Profile} `{HeartbeatCrypto} {E : Type}.

Definition HeartbeatMonitor_new (network : Network) (pubkey : PublicKey) : res E HeartbeatMonitor :=
  '(notify_interval, stale_interval) ←
    match network with
    | Bitcoin => Ok (60, 3600)
    | Testnet => Ok (60, 3600)
    | Regtest => Ok (5, 5)
    | Signet => Ok (5, 5)
    end;
  Ok (mkHeartbeatMonitor pubkey notify_interval stale_interval 0 None).

Definition on_heartbeat (now : Z) (heartbeat : SignedHeartbeat) (self : HeartbeatMonitor) : HeartbeatMonitor :=
  if heartbeat_verify heartbeat self.(hm_pubkey)
  then mkHeartbeatMonitor self.(hm_pubkey) self.(notify_interval) self.(stale_interval) now (Some heartbeat)
  else self.

Definition status (heartbeat_opt : option SignedHeartbeat) (now stale_interval : Z) : res E HeartbeatStatus :=
  match heartbeat_opt with
  | Some heartbeat =>
      let heartbeat_ts := heartbeat.(hb_heartbeat).(current_timestamp) in
      if now <? heartbeat_ts then Ok Future
      else
        limit ← add_u64 heartbeat_ts stale_interval;
        Ok (if limit <? now then Stale else Fresh)
  | None => Ok Missing
  end.

(** The alarm of a tick, if there is one; the one about the future is not limited. *)
Definition on_tick (now : Z) (self : HeartbeatMonitor) : res E (HeartbeatMonitor * option HeartbeatStatus) :=
  st ← status self.(last_heartbeat) now self.(stale_interval);
  match st with
  | Fresh => Ok (self, None)
  | Future => Ok (self, Some Future)
  | _ =>
      next ← add_u64 self.(last_timestamp) self.(notify_interval);
      if next <? now
      then Ok (mkHeartbeatMonitor self.(hm_pubkey) self.(notify_interval) self.(stale_interval) now self.(last_heartbeat), Some st)
      else Ok (self, None)
  end.
End HeartbeatMonitor.

(** ** The trait [ChainTrack]: [vls-frontend/src/lib.rs]

    The two arguments of [ct_beat] are the readings of the node's clock. *)
Class ChainTrack (T : Type) := {
  ct_id : method T Infallible (list Z);
  ct_heartbeat_pubkey : method T Infallible PublicKey;
  ct_network : T -> Network;
  ct_tip_info : method T Infallible (Z * BlockHash);
  ct_forward_watches : method T Infallible (list Txid * list OutPoint);
  ct_reverse_watches : method T Infallible (list Txid * list OutPoint);
  ct_add_block : BlockHeader -> TxoProof -> method T Infallible unit;
  ct_remove_block : TxoProof -> Headers -> method T Infallible unit;
  ct_beat : Z -> Z -> method T Infallible SignedHeartbeat
}.

(** ** The follower: [vls-frontend/src/chain_follower.rs] *)
Inductive FollowState := Scanning | Synced.
Inductive ScheduleNext := Pause | Immediate.

(** The actions of [SourceWithTxooProofFollower], of a block its header. *)
Inductive FollowWithProofAction :=
| FollowNone
| BlockAdded (block : BlockHeader) (p : TxoProof)
| BlockReorged (p : TxoProof) (prev_block_header : BlockHeader) (prev_filter_header : Z).

Inductive FollowError := FollowFailed.

(** The source asks the tracker for its watches; they are given to it here. *)
Class ProofFollower (F : Type) :=
  follow_with_proof : Z -> BlockHash -> list Txid * list OutPoint -> list Txid * list OutPoint ->
    method F FollowError FollowWithProofAction.

Record Checkpoint := mkCheckpoint { ckp_height : Z; ckp_hash : BlockHash; ckp_filter_header : Z }.

(** [signet_anchor] is the environment variable split at its colons. *)
Section Checkpoints.
Context {Ckp : Type} (checkpoint_height : Ckp -> Z) (decode_checkpoint : Ckp -> Checkpoint).
Context (CHECKPOINTS_BITCOIN CHECKPOINTS_TESTNET : list Ckp).
Context (parse_u32 : string -> option Z) (text_checkpoint : Z -> string -> string -> string -> Ckp).

Definition get_first_and_last_checkpoint {E : Type} (signet_anchor : option (list string)) (network : Network)
  : res E (option (Z * Checkpoint)) :=
  let table (checkpoints : list Ckp) :=
    l ← unwrap (last checkpoints);
    first ← unwrap (head checkpoints);
    Ok (Some (checkpoint_height first, decode_checkpoint l)) in
  match network, signet_anchor with
  | Signet, Some [h; a; b; c] =>
      height ← unwrap (parse_u32 h);
      Ok (Some (height, decode_checkpoint (text_checkpoint height a b c)))
  | Bitcoin, _ => table CHECKPOINTS_BITCOIN
  | Testnet, _ => table CHECKPOINTS_TESTNET
  | _, _ => Ok None
  end.
End Checkpoints.

Record ChainFollower (T F : Type) := mkChainFollower {
  cf_tracker : T;
  cf_heartbeat_monitor : option HeartbeatMonitor;
  cf_follower : F;
  cf_state : FollowState;
  update_interval : Z;
  test_streaming : bool
}.
Arguments mkChainFollower {T F}.
Arguments cf_tracker {T F}.
Arguments cf_heartbeat_monitor {T F}.
Arguments cf_follower {T F}.
Arguments cf_state {T F}.
Arguments update_interval {T F}.
Arguments test_streaming {T F}.

(** The clocks that one update reads: the front end's at the tick and at the
    heartbeat, the node's twice. *)
Record UpdateClocks := mkUpdateClocks { tick_now : Z; beat_now : Z; node_now1 : Z; node_now2 : Z }.

Section Follower.
Context `{Profile} `{ChainPackages} `{HeartbeatCrypto} {T F : Type} `{!ChainTrack T} `{!ProofFollower F}.
Abbreviation follower := (ChainFollower T F) (only parsing).

Definition with_cf_tracker (self : follower) (t : T) : follower :=
  mkChainFollower t self.(cf_heartbeat_monitor) self.(cf_follower) self.(cf_state) self.(update_interval) self.(test_streaming).
Definition with_cf_monitor (self : follower) (m : HeartbeatMonitor) : follower :=
  mkChainFollower self.(cf_tracker) (Some m) self.(cf_follower) self.(cf_state) self.(update_interval) self.(test_streaming).
Definition with_cf_follower (self : follower) (f : F) : follower :=
  mkChainFollower self.(cf_tracker) self.(cf_heartbeat_monitor) f self.(cf_state) self.(update_interval) self.(test_streaming).
Definition with_cf_state (self : follower) (s : FollowState) : follower :=
  mkChainFollower self.(cf_tracker) self.(cf_heartbeat_monitor) self.(cf_follower) s self.(update_interval) self.(test_streaming).

(** [first_and_last] comes from [get_first_and_last_checkpoint], and [get_source]
    from the factory. *)
Definition ChainFollower_new (get_source : Z -> BlockHash -> Z -> F) (genesis_hash : BlockHash)
    (first_and_last : option (Z * Checkpoint)) (streaming : bool) (t : T) : T * res Infallible follower :=
  let '(t, source) :=
    match first_and_last with
    | Some (first_height, c) =>
        (tip ← ct_tip_info;
         call (rassert (first_height <=? tip.1)) ;;
         mret (get_source c.(ckp_height) c.(ckp_hash) c.(ckp_filter_header))) t
    | None => (t, Ok (get_source 0 genesis_hash 0))
    end in
  let interval := match ct_network t with Regtest => 1000 | _ => 60 * 1000 end in
  (t, source ← source; Ok (mkChainFollower t None source Scanning interval streaming)).

Abbreviation follow_method A := (method follower FollowError A) (only parsing).

Definition on_track {A : Type} (m : method T Infallible A) : follow_method A := fun self =>
  let '(t, r) := m self.(cf_tracker) in
  (with_cf_tracker self t, map_err (fun e : Infallible => match e with end) r).

Definition on_source {A : Type} (m : method F FollowError A) : follow_method A := fun self =>
  let '(f, r) := m self.(cf_follower) in (with_cf_follower self f, r).

(** [OnceCell::get_or_init]. *)
Definition heartbeat_monitor : follow_method HeartbeatMonitor :=
  self ← get_self;
  match self.(cf_heartbeat_monitor) with
  | Some m => mret m
  | None =>
      pubkey ← on_track ct_heartbeat_pubkey;
      self ← get_self;
      m ← call (HeartbeatMonitor_new (ct_network self.(cf_tracker)) pubkey);
      set_self (with_cf_monitor self m) ;;
      mret m
  end.

Definition set_monitor (m : HeartbeatMonitor) : follow_method unit :=
  self ← get_self;
  set_self (with_cf_monitor self m).

Definition set_follow_state (s : FollowState) : follow_method unit :=
  self ← get_self;
  set_self (with_cf_state self s).

Definition do_heartbeat (clocks : UpdateClocks) : follow_method unit :=
  beat ← on_track (ct_beat clocks.(node_now1) clocks.(node_now2));
  m ← heartbeat_monitor;
  set_monitor (on_heartbeat clocks.(beat_now) beat m).

(** The alarm of the monitor is returned with the schedule. *)
Definition update (clocks : UpdateClocks) : follow_method (ScheduleNext * option HeartbeatStatus) :=
  m ← heartbeat_monitor;
  '(m, alarm) ← call (on_tick clocks.(tick_now) m);
  set_monitor m ;;
  '(height0, hash0) ← on_track ct_tip_info;
  forward ← on_track ct_forward_watches;
  reverse ← on_track ct_reverse_watches;
  action ← on_source (follow_with_proof height0 hash0 forward reverse);
  match action with
  | FollowNone =>
      set_follow_state Synced ;;
      do_heartbeat clocks ;;
      mret (Pause, alarm)
  | BlockAdded block p =>
      self ← get_self;
      let p := if self.(test_streaming)
               then mkTxoProof p.(attestations) (Block (header_hash block)) p.(proof_filter_header) else p in
      set_follow_state Scanning ;;
      call (add_u32 height0 1) ;;
      on_track (ct_add_block block p) ;;
      mret (Immediate, alarm)
  | BlockReorged p prev_block_header prev_filter_header =>
      on_track (ct_remove_block p (mkHeaders prev_block_header prev_filter_header)) ;;
      mret (Immediate, alarm)
  end.

(** The inner loop of [run], between two ticks of the interval. *)
Inductive TickEnd := Paused | Failed (e : FollowError).

Fixpoint run_tick (fuel : nat) (clocks : nat -> UpdateClocks) : method follower Infallible (option TickEnd) := fun self =>
  match fuel with
  | O => (self, Ok None)
  | Datatypes.S fuel' =>
      match update (clocks O) self with
      | (self, Ok (Pause, _)) => (self, Ok (Some Paused))
      | (self, Ok (Immediate, _)) => run_tick fuel' (fun i => clocks (Datatypes.S i)) self
      | (self, Err e) => (self, Ok (Some (Failed e)))
      | (self, Panic) => (self, Panic)
      end
  end.

(** ** The front end: [vls-frontend/src/frontend.rs]

    The followers that were started; each runs in its own task. *)
Record Frontend := mkFrontend { tracker_ids : gset (list Z); followers : list follower }.

Definition start_follower (new : T -> T * res Infallible follower) (source_network : Network) (tracker : T)
  : method Frontend Infallible unit :=
  call (rassert (bool_decide (ct_network tracker = source_network))) ;;
  self ← get_self;
  f ← call (new tracker).2;
  set_self (mkFrontend self.(tracker_ids) (self.(followers) ++ [f])).

Fixpoint handle_new_trackers (new : T -> T * res Infallible follower) (source_network : Network) (trackers : list T)
  : method Frontend Infallible unit :=
  match trackers with
  | [] => mret tt
  | tracker :: trackers' =>
      let '(tracker, id) := ct_id tracker in
      tracker_id ← call id;
      self ← get_self;
      (if bool_decide (tracker_id ∈ self.(tracker_ids)) then mret tt
       else
         set_self (mkFrontend ({[ tracker_id ]} ∪ self.(tracker_ids)) self.(followers)) ;;
         start_follower new source_network tracker) ;;
      handle_new_trackers new source_network trackers'
  end.
End Follower.

(** ** The front of an in-process node: [vls-proxy/src/nodefront.rs] *)

(** [TxoProof::take_block] of the txoo package, which leaves a proof that announces
    a streamed block, and the bytes of a block, which is known by its hash. *)
Class BlockStreaming := {
  take_block : TxoProof -> TxoProof * option BlockHash;
  serialize_block : BlockHash -> list Z;
  serialize_node_id : PublicKey -> list Z
}.

(** [bytes.chunks(n)] with [n] above 0. *)
Fixpoint chunks {A : Type} (fuel n : nat) (l : list A) : list (list A) :=
  match fuel, l with
  | Datatypes.S fuel', _ :: _ => take n l :: chunks fuel' n (drop n l)
  | _, _ => []
  end.

Section NodeFront.
Context `{Profile} `{ChainPackages} `{CommitmentPointProvider}.
Context `{HeartbeatCrypto} `{BlockStreaming}.
Context {P : Type} `{!Persist P} {PO : Type} `{HPO : Policy PO} (policy : PO) (compute_txid : Transaction -> Txid).
Context `{LssPackages} {N : Type} `{!ExternalPersist N} (timeless_workaround : bool).

Record NodeFront := mkNodeFront { nf_node : Node (P:=P); nf_external : option (ExternalPersistWithHelper N) }.

#[local] Instance front_listener : ChainListener ChainMonitor OutPoint := ChainMonitor_listener compute_txid.
Abbreviation node_run A := (method (Node (P:=P)) Infallible A) (only parsing).

(** [expect] and [unwrap_or_else(|e| panic!(..))] on a [Result]. *)
Definition must {E A : Type} (m : method (Node (P:=P)) E A) : node_run A := fun n =>
  let '(n, r) := m n in (n, match r with Ok a => Ok a | _ => Panic end).

Fixpoint stream_chunks (block_hash : BlockHash) (offset : Z) (bytes : list (list Z)) : node_run unit :=
  match bytes with
  | [] => mret tt
  | chunk :: bytes' =>
      must (on_tracker (block_chunk block_hash offset chunk)) ;;
      offset ← call (add_u32 offset (Z.of_nat (length chunk) mod 2 ^ 32));
      stream_chunks block_hash offset bytes'
  end.

Definition maybe_stream_block (p : TxoProof) : node_run TxoProof :=
  let '(p, block_opt) := take_block p in
  match block_opt with
  | Some block =>
      let bytes := serialize_block block in
      stream_chunks block 0 (chunks (length bytes) 23 bytes) ;;
      mret p
  | None => mret p
  end.

Definition do_add_block (header : BlockHeader) (p : TxoProof) : node_run unit :=
  p ← maybe_stream_block p;
  must (on_tracker (add_block policy header p)) ;;
  must (persist_node_tracker Panic).

Definition do_remove_block (p : TxoProof) (prev_headers : Headers) : node_run unit :=
  p ← maybe_stream_block p;
  must (on_tracker (remove_block policy p prev_headers)) ;;
  must (persist_node_tracker Panic).

(** [Node::get_heartbeat]; the two readings of the clock, as seconds in the second. *)
Definition get_heartbeat (now1 now2 : Z) : node_run SignedHeartbeat :=
  tip ← must (heartbeat timeless_workaround now1);
  n ← get_self;
  let beat := mkHeartbeat (header_hash tip.(block_header)) n.(tracker).(tracker_height) tip.(block_header).(time)
                (now2 mod 2 ^ 32) in
  mret (mkSignedHeartbeat (km_sign_heartbeat (heartbeat_sighash beat)) beat).

Abbreviation front_method A := (method NodeFront Infallible A) (only parsing).

Definition on_front_node {A : Type} (m : node_run A) : front_method A := fun self =>
  let '(n, r) := m self.(nf_node) in (mkNodeFront n self.(nf_external), r).

(** A call of the persister that must succeed. *)
Definition front_store {A : Type} (m : method P Error A) : node_run A := fun n =>
  let '(p, r) := m n.(persister) in (with_persister n p, match r with Ok a => Ok a | _ => Panic end).

Definition put_external (muts : Mutations) (hmac : list Z) : front_method (list Z) := fun self =>
  match self.(nf_external) with
  | Some e =>
      let '(e, r) := on_client (ext_put muts hmac) e in
      (mkNodeFront self.(nf_node) (Some e), match r with Ok h => Ok h | _ => Panic end)
  | None => (self, Panic)
  end.

Definition with_persist_context {A : Type} (helper : ExternalPersistHelper) (f : node_run A) : front_method A :=
  on_front_node (front_store p_enter) ;;
  a ← on_front_node f;
  muts ← on_front_node (front_store p_prepare);
  received_server_hmac ← put_external muts (client_hmac hmac_sha256 helper muts);
  call (rassert (bool_decide (received_server_hmac = server_hmac hmac_sha256 helper muts))) ;;
  on_front_node (front_store p_commit) ;;
  mret a.

Definition persisting {A : Type} (f : node_run A) : front_method A :=
  self ← get_self;
  match self.(nf_external) with
  | Some e => with_persist_context e.(ext_helper) f
  | None => on_front_node f
  end.

#[export] Instance NodeFront_track : ChainTrack NodeFront := {|
  ct_id := self ← get_self; mret (serialize_node_id self.(nf_node).(node_id));
  ct_heartbeat_pubkey := mret heartbeat_pubkey;
  ct_network self := self.(nf_node).(node_config).(config_network);
  ct_tip_info :=
    self ← get_self;
    let t := self.(nf_node).(tracker) in mret (t.(tracker_height), header_hash t.(tip).(block_header));
  ct_forward_watches :=
    self ← get_self;
    let '(txids, outpoints) := get_all_forward_watches (resolve_tracker self.(nf_node)) in
    mret (elements txids, elements outpoints);
  ct_reverse_watches :=
    self ← get_self;
    let '(txids, outpoints) := get_all_reverse_watches (resolve_tracker self.(nf_node)) in
    mret (elements txids, elements outpoints);
  ct_add_block header p := persisting (do_add_block header p);
  ct_remove_block p prev_headers := persisting (do_remove_block p prev_headers);
  ct_beat now1 now2 := persisting (get_heartbeat now1 now2)
|}.
End NodeFront.
