(* ===== verification/FollowerSafety.v ===== *)
(** * What following the chain guarantees

    The follower reaches the tip of the best chain in as many updates as there are
    blocks to remove and to add; the front of a node keeps the laws that this needs;
    the monitor of heartbeats raises an alarm whenever the signer is silent. *)
From S2P Require Import Prelude Velocity Policy Ordered CommitInfo Types Bitcoin Script Secrets Enforcement SimpleValidator Validator NodeState Channel TxValidator ChannelTx Monitor Tracker TrackerSafety BTree Kvv KvvTx Persister Node NodeChannels Approver Wire Messages Withdrawal Handler ChaCha Lss SignerLoop Follower NodeSafety ChannelSafety PersisterSafety LssSafety ChainSafety.

(** ** What a tracker promises

    [view] is the height and the header of its tip. *)
Class ChainTrackLaws `{ChainPackages} {T : Type} `{!ChainTrack T} (view : T -> Z * BlockHeader) : Prop := {
  cl_pubkey t t' r : ct_heartbeat_pubkey t = (t', r) -> view t' = view t;
  cl_tip t t' h hash : ct_tip_info t = (t', Ok (h, hash)) -> view t' = view t /\ h = (view t).1 /\ hash = header_hash (view t).2;
  cl_forward t t' w : ct_forward_watches t = (t', Ok w) -> view t' = view t;
  cl_reverse t t' w : ct_reverse_watches t = (t', Ok w) -> view t' = view t;
  cl_beat t t' now1 now2 b : ct_beat now1 now2 t = (t', Ok b) -> view t' = view t;
  cl_add t t' b p : 0 <= (view t).1 < 2 ^ 32 - 1 -> ct_add_block b p t = (t', Ok tt) -> view t' = ((view t).1 + 1, b);
  cl_remove t t' p prev : 1 <= (view t).1 < 2 ^ 32 -> ct_remove_block p prev t = (t', Ok tt) ->
    view t' = ((view t).1 - 1, prev.(block_header))
}.

(** ** The follower *)
Section Following.
Context `{Profile} `{ChainPackages} `{HeartbeatCrypto} {T F : Type} `{!ChainTrack T} `{!ProofFollower F}.
Context (view : T -> Z * BlockHeader) `{!ChainTrackLaws view}.
Abbreviation follower := (ChainFollower T F) (only parsing).

(** The best chain by height, the parent of every block that the source knows, and
    what it answers while that chain stays: nothing at the tip, the next block
    below it, and the block before for a block that is not on the chain.  It may
    fail at any time. *)
Context (best : list BlockHeader) (parent : BlockHash -> option BlockHeader) (serves : F -> Prop).

Definition on_best (h : Z) (hash : BlockHash) : Prop := exists b, best !! Z.to_nat h = Some b /\ header_hash b = hash.

Definition answers (h : Z) (hash : BlockHash) (a : FollowWithProofAction) : Prop :=
  match a with
  | FollowNone => on_best h hash /\ (Z.to_nat h + 1)%nat = length best
  | BlockAdded b _ => on_best h hash /\ best !! (Z.to_nat h + 1)%nat = Some b
  | BlockReorged _ prev _ => ~ on_best h hash /\ parent hash = Some prev
  end.

Definition source_follows : Prop :=
  forall h hash w1 w2 f f' a, serves f -> follow_with_proof h hash w1 w2 f = (f', Ok a) -> serves f' /\ answers h hash a.

(** A tip that is [k] blocks above the best chain. *)
Inductive forks : nat -> Z -> BlockHash -> Prop :=
| fork_here h hash : on_best h hash -> forks O h hash
| fork_back k h hash prev : 1 <= h -> ~ on_best h hash -> parent hash = Some prev ->
    forks k (h - 1) (header_hash prev) -> forks (S k) h hash.

Lemma on_track_Ok {A : Type} (m : method T Infallible A) (cf cf' : follower) (a : A) :
  on_track m cf = (cf', Ok a) -> exists t', m cf.(cf_tracker) = (t', Ok a) /\ cf' = with_cf_tracker cf t'.
Proof.
  unfold on_track. destruct (m (cf_tracker cf)) as [t' [x|[]|]]; intros [= <- Hr]; try done.
  subst x. by exists t'.
Qed.

(** What an update leaves alone. *)
Definition same_place (cf cf' : follower) : Prop :=
  view cf'.(cf_tracker) = view cf.(cf_tracker) /\ cf'.(cf_follower) = cf.(cf_follower).

Lemma monitor_same_place (cf cf' : follower) (m : HeartbeatMonitor) :
  heartbeat_monitor cf = (cf', Ok m) -> same_place cf cf'.
Proof.
  unfold heartbeat_monitor. intros Hm. run_get Hm. destruct (cf_heartbeat_monitor cf) as [m0|].
  - by injection Hm as <- _.
  - apply method_Ok in Hm as (cf1 & key & Hk & Hm). apply on_track_Ok in Hk as (t' & Hk & ->).
    run_get Hm. run_step Hm m1 Em; [|done]. rewrite set_bind in Hm. injection Hm as <- <-.
    split; [|done]. by eapply cl_pubkey.
Qed.

Lemma heartbeat_same_place (clocks : UpdateClocks) (cf cf' : follower) (u : unit) :
  do_heartbeat clocks cf = (cf', Ok u) -> same_place cf cf' /\ cf'.(cf_state) = cf.(cf_state).
Proof.
  unfold do_heartbeat. intros Hm. apply method_Ok in Hm as (cf1 & b & Hb & Hm).
  apply on_track_Ok in Hb as (t' & Hb & ->). apply cl_beat in Hb.
  apply method_Ok in Hm as (cf2 & m & Hmon & Hm). assert (Hs : cf2.(cf_state) = cf.(cf_state)).
  { unfold heartbeat_monitor in Hmon. run_get Hmon. cbn [with_cf_tracker cf_heartbeat_monitor] in Hmon.
    destruct (cf_heartbeat_monitor cf); [by injection Hmon as <- _|].
    apply method_Ok in Hmon as (cf3 & key & Hk & Hmon). apply on_track_Ok in Hk as (t3 & _ & ->).
    run_get Hmon. run_step Hmon m1 Em; [|done]. rewrite set_bind in Hmon. by injection Hmon as <- _. }
  apply monitor_same_place in Hmon as [Hv Hf]. unfold set_monitor in Hm. run_get Hm. injection Hm as <- _.
  split; [|done]. split; [|done]. cbn [cf_tracker with_cf_monitor]. by rewrite Hv.
Qed.

(** What an update that succeeds did, by the answer of the source. *)
Lemma update_Ok (clocks : UpdateClocks) (cf cf' : follower) (next : ScheduleNext) (alarm : option HeartbeatStatus) :
  Z.of_nat (length best) < 2 ^ 32 -> source_follows -> serves cf.(cf_follower) ->
  0 <= (view cf.(cf_tracker)).1 < 2 ^ 32 -> update clocks cf = (cf', Ok (next, alarm)) ->
  let '(h, b) := view cf.(cf_tracker) in
  serves cf'.(cf_follower) /\
  (next = Pause /\ answers h (header_hash b) FollowNone /\ view cf'.(cf_tracker) = (h, b) /\ cf'.(cf_state) = Synced \/
   next = Immediate /\ (exists b' p, answers h (header_hash b) (BlockAdded b' p) /\ view cf'.(cf_tracker) = (h + 1, b')) \/
   next = Immediate /\ exists prev p pf, answers h (header_hash b) (BlockReorged p prev pf) /\
     (1 <= h -> view cf'.(cf_tracker) = (h - 1, prev))).
Proof.
  intros Hlen Hsrc Hserves Hh Hu. destruct (view (cf_tracker cf)) as [h b] eqn:Hview. cbn [fst] in Hh. unfold update in Hu.
  apply method_Ok in Hu as (cf1 & m & Hm & Hu). apply monitor_same_place in Hm as [Hv1 Hf1].
  run_step Hu ma Ema; [|done]. destruct ma as [m' alarm'].
  apply method_Ok in Hu as (cf2 & u2 & Hset & Hu). unfold set_monitor in Hset. run_get Hset. injection Hset as <- _.
  apply method_Ok in Hu as (cf3 & tip & Htip & Hu). apply on_track_Ok in Htip as (t3 & Htip & ->).
  cbn [cf_tracker with_cf_monitor] in Htip. destruct tip as [h0 hash0]. apply cl_tip in Htip as (Hv3 & -> & ->).
  apply method_Ok in Hu as (cf4 & fw & Hfw & Hu). apply on_track_Ok in Hfw as (t4 & Hfw & ->).
  cbn [cf_tracker with_cf_tracker with_cf_monitor] in Hfw. apply cl_forward in Hfw.
  apply method_Ok in Hu as (cf5 & rw & Hrw & Hu). apply on_track_Ok in Hrw as (t5 & Hrw & ->).
  cbn [cf_tracker with_cf_tracker with_cf_monitor] in Hrw. apply cl_reverse in Hrw.
  assert (Hview5 : view t5 = (h, b)) by congruence. rewrite Hv1, Hview in Hu. cbn [fst snd] in Hu.
  apply method_Ok in Hu as (cf6 & a & Ha & Hu). unfold on_source in Ha.
  cbn [cf_follower with_cf_tracker with_cf_monitor] in Ha. rewrite Hf1 in Ha.
  destruct (follow_with_proof h (header_hash b) fw rw (cf_follower cf)) as [f' ra] eqn:Hfollow. injection Ha as <- ->.
  destruct (Hsrc _ _ _ _ _ _ _ Hserves Hfollow) as [Hserves' Hans]. destruct a as [|b' p|p prev pf].
  - apply method_Ok in Hu as (cf7 & u7 & Hset & Hu). unfold set_follow_state in Hset. run_get Hset. injection Hset as <- _.
    apply method_Ok in Hu as (cf8 & u8 & Hbeat & Hu). apply heartbeat_same_place in Hbeat as [[Hv8 Hf8] Hs8].
    injection Hu as <- <- <-. split; [by rewrite Hf8|]. left. split_and!; [done|done| |by rewrite Hs8]. by rewrite Hv8.
  - run_get Hu. apply method_Ok in Hu as (cf7 & u7 & Hset & Hu). unfold set_follow_state in Hset. run_get Hset.
    injection Hset as <- _. run_step Hu n En; [|done].
    apply method_Ok in Hu as (cf8 & u8 & Hadd & Hu). apply on_track_Ok in Hadd as (t8 & Hadd & ->). injection Hu as <- <- <-.
    split; [done|]. right. left. destruct u8. cbn [cf_tracker with_cf_state with_cf_follower with_cf_tracker] in Hadd.
    split; [done|]. exists b', p. split; [done|]. destruct Hans as [_ Hb']. apply lookup_lt_Some in Hb'.
    apply cl_add in Hadd; rewrite ?Hview5 in *; [done|cbn [fst]; lia].
  - apply method_Ok in Hu as (cf7 & u7 & Hrem & Hu). apply on_track_Ok in Hrem as (t7 & Hrem & ->). injection Hu as <- <- <-.
    split; [done|]. right. right. split; [done|]. exists prev, p, pf. split; [done|]. intros Hpos. destruct u7.
    apply cl_remove in Hrem; cbn [cf_tracker with_cf_follower with_cf_tracker] in Hrem |- *; rewrite ?Hview5 in *; [done|cbn; lia].
Qed.

(** The number of updates to the tip: blocks to remove, then blocks to add. *)
Definition updates_left (k : nat) (h : Z) : nat := (k + (length best - 1 - Z.to_nat (h - Z.of_nat k)))%nat.

Lemma forks_height (k : nat) (h : Z) (hash : BlockHash) :
  forks k h hash -> 0 <= h -> Z.of_nat k <= h /\ (Z.to_nat (h - Z.of_nat k) < length best)%nat.
Proof.
  intros Hf. induction Hf as [h hash (b & Hb & _)|k h hash prev H1' _ _ _ IH]; intros Hh.
  - apply lookup_lt_Some in Hb. rewrite Z.sub_0_r. lia.
  - destruct IH as [? IH]; [lia|]. split; [lia|]. by replace (h - Z.of_nat (S k)) with (h - 1 - Z.of_nat k) by lia.
Qed.

Lemma run_tick_reaches (fuel : nat) (clocks : nat -> UpdateClocks) (k : nat) (cf cf' : follower) (r : res Infallible (option TickEnd)) :
  Z.of_nat (length best) < 2 ^ 32 -> source_follows -> serves cf.(cf_follower) ->
  0 <= (view cf.(cf_tracker)).1 < 2 ^ 32 ->
  forks k (view cf.(cf_tracker)).1 (header_hash (view cf.(cf_tracker)).2) ->
  (updates_left k (view cf.(cf_tracker)).1 < fuel)%nat ->
  run_tick fuel clocks cf = (cf', r) ->
  r = Panic \/ (exists e, r = Ok (Some (Failed e))) \/
  r = Ok (Some Paused) /\ cf'.(cf_state) = Synced /\
    (view cf'.(cf_tracker)).1 = Z.of_nat (length best) - 1 /\
    header_hash <$> last best = Some (header_hash (view cf'.(cf_tracker)).2).
Proof.
  intros Hlen Hsrc. revert clocks k cf. induction fuel as [|fuel IH]; intros clocks k cf Hserves Hh Hfork Hfuel Hrun; [lia|].
  cbn [run_tick] in Hrun. destruct (update (clocks O) cf) as [cf1 [[next alarm]|e|]] eqn:Hu.
  - apply update_Ok in Hu; [|done..]. destruct (view (cf_tracker cf)) as [h b]. cbn [fst snd] in *.
    destruct Hu as [Hserves1 [(-> & [(b' & Hb' & Hhash) Hend] & Hv & Hs)|[(-> & b' & p & [Hon Hb'] & Hv)|(-> & prev & p & pf & [Hoff Hpar] & Hv)]]].
    + injection Hrun as <- <-. right. right. rewrite Hv. cbn [fst snd]. split_and!; [done|done|lia|].
      rewrite last_lookup. replace (Nat.pred (length best)) with (Z.to_nat h) by lia. rewrite Hb'. cbn. by rewrite Hhash.
    + assert (k = O) as ->.
      { destruct Hfork as [|k h0 hash prev ? Hno]; [done|]. by destruct Hno. }
      assert (Hlt := lookup_lt_Some _ _ _ Hb').
      apply (IH _ O cf1) in Hrun; [done|done|rewrite Hv; cbn [fst]; lia| |].
      * rewrite Hv. cbn [fst snd]. constructor. exists b'. split; [|done]. by rewrite Z2Nat.inj_add by lia.
      * rewrite Hv. cbn [fst]. unfold updates_left in *. lia.
    + destruct Hfork as [h hash Hon|k h hash prev' Hpos _ Hpar' Hfork]; [done|]. rewrite Hpar in Hpar'. injection Hpar' as <-.
      specialize (Hv Hpos). apply (IH _ k cf1) in Hrun; [done|done|rewrite Hv; cbn [fst]; lia|by rewrite Hv|].
      rewrite Hv. cbn [fst]. unfold updates_left in *.
      replace (h - 1 - Z.of_nat k) with (h - Z.of_nat (S k)) by lia. lia.
  - injection Hrun as <- <-. right. left. by exists e.
  - injection Hrun as <- <-. by left.
Qed.
End Following.

(** ** The front of a node keeps the laws *)
Section NodeFrontLaws.
Context `{Profile} `{ChainPackages} `{CommitmentPointProvider}.
Context `{HeartbeatCrypto} `{BlockStreaming}.
Context {P : Type} `{!Persist P} {PO : Type} `{HPO : Policy PO} (policy : PO) (compute_txid : Transaction -> Txid).
Context `{LssPackages} {N : Type} `{!ExternalPersist N} (timeless_workaround : bool).
Abbreviation node := (Node (P:=P)) (only parsing).
Abbreviation front := (NodeFront (P:=P) (N:=N)) (only parsing).

Definition node_view (n : node) : Z * BlockHeader := (n.(tracker).(tracker_height), n.(tracker).(tip).(block_header)).
Definition front_view (self : front) : Z * BlockHeader := node_view self.(nf_node).
Definition seen_at (v : Z * BlockHeader) (n : node) : Prop := node_view n = v.

Ltac view_end :=
  simplify_eq; unfold seen_at, node_view in *;
  cbn [fst snd tracker with_channels with_slot with_monitor with_tracker with_next_ref with_persister with_node_state
       remove_listener with_listeners tip tracker_height] in *; done.

Lemma prune_channel_view b kr v (n : node) : seen_at v n -> wp (prune_channel b kr) (fun _ => seen_at v) n.
Proof. intros Hn. destruct kr as [key r]. unfold prune_channel. repeat node_step fail view_end. Qed.

Lemma prune_each_view l b v (n : node) : seen_at v n -> wp (prune_each b l) (fun _ => seen_at v) n.
Proof.
  revert b n. induction l as [|kr l IH]; intros b n Hn; cbn [prune_each]; [by apply wp_ret|].
  repeat node_step ltac:(first [by apply prune_channel_view|by apply IH]) view_end.
Qed.

Lemma prune_view v (n : node) : seen_at v n -> wp prune_channels (fun _ => seen_at v) n.
Proof. intros Hn. unfold prune_channels. repeat node_step ltac:(by apply prune_each_view) view_end. Qed.

Lemma heartbeat_view tw now v (n : node) : seen_at v n -> wp (heartbeat tw now) (fun _ => seen_at v) n.
Proof.
  intros Hn. unfold heartbeat. node_step fail view_end. node_step fail view_end.
  repeat node_step ltac:(apply prune_view; view_end) view_end.
Qed.

Lemma must_Ok {E A : Type} (m : method node E A) (n n' : node) (a : A) : must m n = (n', Ok a) -> m n = (n', Ok a).
Proof. unfold must. by destruct (m n) as [n1 [x|e|]]; intros [= <- <-]. Qed.

#[local] Existing Instance front_listener.

Lemma on_tracker_Ok {A : Type} (m : method NodeTracker TrackerError A) (n n' : node) (a : A) :
  must (on_tracker m) n = (n', Ok a) ->
  exists t', m (resolve_tracker n) = (t', Ok a) /\ node_view n' = (t'.(tracker_height), t'.(tip).(block_header)).
Proof.
  intros Hm. apply must_Ok in Hm. unfold on_tracker in Hm. destruct (m (resolve_tracker n)) as [t' o].
  injection Hm as <- ->. by exists t'.
Qed.

Lemma stream_chunks_view (hash offset : Z) (bytes : list (list Z)) (n n' : node) :
  stream_chunks compute_txid hash offset bytes n = (n', Ok tt) -> node_view n' = node_view n.
Proof.
  revert offset n. induction bytes as [|chunk bytes IH]; intros offset n Hs; cbn [stream_chunks] in Hs;
    [by injection Hs as <-|].
  apply method_Ok in Hs as (n1 & u & Hc & Hs). run_step Hs o Eo; [|done]. apply IH in Hs. rewrite Hs.
  apply on_tracker_Ok in Hc as (t' & Hc & ->). apply chunk_same_chain in Hc as (_ & -> & -> & _). done.
Qed.

Lemma stream_view (p p' : TxoProof) (n n' : node) :
  maybe_stream_block compute_txid p n = (n', Ok p') -> node_view n' = node_view n.
Proof.
  unfold maybe_stream_block. destruct (take_block p) as [q [block|]]; intros Hs; [|by injection Hs as <- _].
  apply method_Ok in Hs as (n1 & [] & Hs & Hr). injection Hr as <- _. by apply stream_chunks_view in Hs.
Qed.

Lemma persist_view (n n' : node) (u : unit) : must (persist_node_tracker Panic) n = (n', Ok u) -> node_view n' = node_view n.
Proof.
  intros Hm. apply must_Ok in Hm. unfold persist_node_tracker in Hm. run_get Hm. unfold persist_or in Hm.
  destruct (p_update_tracker _ _ _) as [p' r]. by injection Hm as <- _.
Qed.

Lemma do_add_view (b : BlockHeader) (p : TxoProof) (n n' : node) :
  0 <= (node_view n).1 < 2 ^ 32 - 1 -> do_add_block policy compute_txid b p n = (n', Ok tt) ->
  node_view n' = ((node_view n).1 + 1, b).
Proof.
  intros Hh Hadd. apply method_Ok in Hadd as (n1 & q & Hs & Hadd). apply stream_view in Hs.
  apply method_Ok in Hadd as (n2 & u & Ha & Hadd). apply persist_view in Hadd. rewrite Hadd.
  apply on_tracker_Ok in Ha as (t' & Ha & ->). apply add_outcome in Ha as [[_ ?]|(_ & -> & _ & _ & Hht & _)]; [done|].
  cbn [block_header]. rewrite <- Hs in Hh |- *. change (tracker_height (resolve_tracker n1)) with (node_view n1).1 in Hht.
  rewrite add_u32_Ok in Hht by (unfold uint; lia). by injection Hht as <-.
Qed.

Lemma do_remove_view (p : TxoProof) (prev : Headers) (n n' : node) :
  1 <= (node_view n).1 < 2 ^ 32 -> do_remove_block policy compute_txid p prev n = (n', Ok tt) ->
  node_view n' = ((node_view n).1 - 1, prev.(block_header)).
Proof.
  intros Hh Hrem. apply method_Ok in Hrem as (n1 & q & Hs & Hrem). apply stream_view in Hs.
  apply method_Ok in Hrem as (n2 & u & Hr & Hrem). apply persist_view in Hrem. rewrite Hrem.
  apply on_tracker_Ok in Hr as (t' & Hr & ->). apply remove_outcome in Hr as (_ & -> & _ & Hht & _).
  rewrite <- Hs in Hh |- *. change (tracker_height (resolve_tracker n1)) with (node_view n1).1 in Hht.
  rewrite sub_u32_Ok in Hht by (unfold uint; lia). by injection Hht as <-.
Qed.

Lemma on_front_Ok {A : Type} (m : method node Infallible A) (nf nf' : front) (a : A) :
  on_front_node m nf = (nf', Ok a) -> m nf.(nf_node) = (nf'.(nf_node), Ok a) /\ nf'.(nf_external) = nf.(nf_external).
Proof. unfold on_front_node. destruct (m (nf_node nf)) as [n r]. by intros [= <- ->]. Qed.

Lemma front_store_view {A : Type} (m : method P Error A) (nf nf' : front) (a : A) :
  on_front_node (front_store m) nf = (nf', Ok a) -> front_view nf' = front_view nf.
Proof.
  intros Hm. apply on_front_Ok in Hm as [Hm _]. unfold front_store in Hm. unfold front_view.
  destruct (m (persister (nf_node nf))) as [p r]. by injection Hm as <- _.
Qed.

(** With or without external storage, the call is run on a node with the same view. *)
Lemma persisting_Ok {A : Type} (f : method node Infallible A) (nf nf' : front) (a : A) :
  persisting f nf = (nf', Ok a) ->
  exists n n', node_view n = front_view nf /\ f n = (n', Ok a) /\ front_view nf' = node_view n'.
Proof.
  unfold persisting. intros Hm. run_get Hm. destruct (nf_external nf) as [e|].
  - unfold with_persist_context in Hm.
    apply method_Ok in Hm as (nf1 & u1 & Henter & Hm). apply front_store_view in Henter.
    apply method_Ok in Hm as (nf2 & a' & Hf & Hm). apply on_front_Ok in Hf as [Hf _].
    apply method_Ok in Hm as (nf3 & muts & Hprep & Hm). apply front_store_view in Hprep.
    apply method_Ok in Hm as (nf4 & hmac & Hput & Hm). assert (Hv4 : front_view nf4 = front_view nf3).
    { unfold put_external in Hput. destruct (nf_external nf3) as [e3|]; [|done].
      destruct (on_client _ _) as [e4 r]. by injection Hput as <- _. }
    run_step Hm u5 E5; [|done].
    apply method_Ok in Hm as (nf5 & u6 & Hcommit & Hm). apply front_store_view in Hcommit. injection Hm as <- <-.
    exists nf1.(nf_node), nf2.(nf_node). split_and!; [done|done|]. by rewrite Hcommit, Hv4, Hprep.
  - apply on_front_Ok in Hm as [Hm _]. by exists nf.(nf_node), nf'.(nf_node).
Qed.

#[export] Instance NodeFront_laws :
  ChainTrackLaws (ChainTrack0:=NodeFront_track policy compute_txid timeless_workaround) front_view.
Proof.
  split.
  - intros t t' r Hm. by injection Hm as <- _.
  - intros t t' h hash Hm. cbn [ct_tip_info NodeFront_track] in Hm. run_get Hm. by injection Hm as <- <- <-.
  - intros t t' w Hm. cbn [ct_forward_watches NodeFront_track] in Hm. run_get Hm.
    destruct (get_all_forward_watches _). by injection Hm as <- _.
  - intros t t' w Hm. cbn [ct_reverse_watches NodeFront_track] in Hm. run_get Hm.
    destruct (get_all_reverse_watches _). by injection Hm as <- _.
  - intros t t' now1 now2 b Hm. cbn [ct_beat NodeFront_track] in Hm. apply persisting_Ok in Hm as (n & n' & <- & Hm & ->).
    unfold get_heartbeat in Hm. apply method_Ok in Hm as (n1 & tip & Hb & Hm). run_get Hm. injection Hm as <- _.
    apply must_Ok in Hb. exact (wp_run _ _ _ _ _ (heartbeat_view _ _ (node_view n) n eq_refl) Hb).
  - intros t t' b p Hh Hm. cbn [ct_add_block NodeFront_track] in Hm. apply persisting_Ok in Hm as (n & n' & Hn & Hm & ->).
    rewrite <- Hn in Hh |- *. by eapply do_add_view.
  - intros t t' p prev Hh Hm. cbn [ct_remove_block NodeFront_track] in Hm. apply persisting_Ok in Hm as (n & n' & Hn & Hm & ->).
    rewrite <- Hn in Hh |- *. by eapply do_remove_view.
Qed.
End NodeFrontLaws.

(** ** The monitor of heartbeats *)

(** What reaches the monitor, with the time of its clock. *)
Inductive MonitorEvent := Tick (now : Z) | Beat (now : Z) (heartbeat : SignedHeartbeat).
Definition event_time (e : MonitorEvent) : Z := match e with Tick now => now | Beat now _ => now end.

Section Alarms.
Context `{Profile} `{HeartbeatCrypto}.

(** The alarms of a run, with their times. *)
Fixpoint monitor_run {E : Type} (m : HeartbeatMonitor) (events : list MonitorEvent)
  : res E (HeartbeatMonitor * list (Z * HeartbeatStatus)) :=
  match events with
  | [] => Ok (m, [])
  | Tick now :: events' =>
      '(m, alarm) ← on_tick now m;
      '(m, alarms) ← monitor_run m events';
      Ok (m, (option_list (pair now <$> alarm)) ++ alarms)
  | Beat now heartbeat :: events' => monitor_run (on_heartbeat now heartbeat m) events'
  end.

(** Clocks that do not go back, within the range of sums. *)
Fixpoint clock_from (t : Z) (events : list MonitorEvent) : Prop :=
  match events with
  | [] => True
  | e :: events' => t <= event_time e < 2 ^ 62 /\ clock_from (event_time e) events'
  end.

Definition beats_in_range (events : list MonitorEvent) : Prop :=
  forall now hb, Beat now hb ∈ events -> 0 <= hb.(hb_heartbeat).(current_timestamp) < 2 ^ 32.

Definition limited (alarms : list (Z * HeartbeatStatus)) : list (Z * HeartbeatStatus) := filter (fun a => a.2 <> Future) alarms.

Section Key.
Context (key : PublicKey) (notify stale : Z) (Hnotify : 0 <= notify < 2 ^ 32) (Hstale : 0 <= stale < 2 ^ 32).

Definition accepted (seen : list MonitorEvent) (t : Z) (hb : SignedHeartbeat) : Prop :=
  Beat t hb ∈ seen /\ heartbeat_verify hb key = true.

Definition spaced (l : list (Z * HeartbeatStatus)) : Prop :=
  forall i j a b, (i < j)%nat -> l !! i = Some a -> l !! j = Some b -> a.1 + notify < b.1.

Record monitor_inv (m : HeartbeatMonitor) (seen : list MonitorEvent) (alarms : list (Z * HeartbeatStatus)) (t : Z) : Prop := {
  mi_key : m.(hm_pubkey) = key /\ m.(notify_interval) = notify /\ m.(stale_interval) = stale;
  mi_time : 0 <= m.(last_timestamp) <= t;
  mi_last : m.(last_timestamp) = 0 \/ (exists s, s <> Future /\ (m.(last_timestamp), s) ∈ alarms) \/
            exists hb, accepted seen m.(last_timestamp) hb;
  mi_heartbeat : forall hb, m.(last_heartbeat) = Some hb -> exists t, accepted seen t hb;
  mi_spaced : spaced (limited alarms);
  mi_bound : forall a, a ∈ limited alarms -> a.1 <= m.(last_timestamp)
}.

Lemma accepted_mono (seen : list MonitorEvent) (e : MonitorEvent) (t : Z) (hb : SignedHeartbeat) :
  accepted seen t hb -> accepted (seen ++ [e]) t hb.
Proof. unfold accepted. set_solver. Qed.

Lemma spaced_snoc (l : list (Z * HeartbeatStatus)) (a : Z * HeartbeatStatus) :
  spaced l -> (forall b, b ∈ l -> b.1 + notify < a.1) -> spaced (l ++ [a]).
Proof.
  intros Hs Ha i j b c Hij Hi Hj. apply lookup_app_Some in Hj as [Hj|[Hlen Hj]].
  - rewrite lookup_app_l in Hi by (apply lookup_lt_Some in Hj; lia). by eapply Hs.
  - apply list_lookup_singleton_Some in Hj as [Hj <-].
    rewrite lookup_app_l in Hi by lia. apply Ha. by eapply list_elem_of_lookup_2.
Qed.

(** A tick: no alarm and nothing changes, an alarm about the future, or an alarm
    that moves the time on.  A silent tick has a reason. *)
Lemma tick_cases {E : Type} (m m' : HeartbeatMonitor) (alarm : option HeartbeatStatus) (now : Z) :
  0 <= m.(last_timestamp) < 2 ^ 62 -> 0 <= m.(notify_interval) < 2 ^ 32 -> 0 <= m.(stale_interval) < 2 ^ 32 ->
  (forall hb, m.(last_heartbeat) = Some hb -> 0 <= hb.(hb_heartbeat).(current_timestamp) < 2 ^ 32) ->
  on_tick (E:=E) now m = Ok (m', alarm) ->
  m' = m /\ alarm = None /\
    ((exists hb, m.(last_heartbeat) = Some hb /\ now <= hb.(hb_heartbeat).(current_timestamp) + m.(stale_interval)) \/
     now <= m.(last_timestamp) + m.(notify_interval)) \/
  m' = m /\ alarm = Some Future /\
    (exists hb, m.(last_heartbeat) = Some hb /\ now < hb.(hb_heartbeat).(current_timestamp)) \/
  exists s, alarm = Some s /\ s <> Future /\ m.(last_timestamp) + m.(notify_interval) < now /\
    m' = mkHeartbeatMonitor m.(hm_pubkey) m.(notify_interval) m.(stale_interval) now m.(last_heartbeat).
Proof.
  intros Hl Hn Hs Hr Ht. unfold on_tick in Ht. apply bind_Ok in Ht as (st & Hst & Ht).
  assert (Hlimit : st <> Fresh -> st <> Future ->
    m' = m /\ alarm = None /\ now <= m.(last_timestamp) + m.(notify_interval) \/
    alarm = Some st /\ m.(last_timestamp) + m.(notify_interval) < now /\
    m' = mkHeartbeatMonitor m.(hm_pubkey) m.(notify_interval) m.(stale_interval) now m.(last_heartbeat)).
  { intros H1' H2'. destruct st; [done| | |done]; rewrite add_u64_Ok in Ht by (unfold uint; lia);
      cbn [mbind res_bind] in Ht; destruct (Z.ltb_spec (last_timestamp m + notify_interval m) now) as [Hlt|Hle];
      injection Ht as <- <-; auto. }
  unfold status in Hst. destruct (last_heartbeat m) as [hb|] eqn:Hhb.
  - specialize (Hr hb eq_refl). destruct (Z.ltb_spec now hb.(hb_heartbeat).(current_timestamp)) as [Hfut|Hpast].
    { injection Hst as <-. injection Ht as <- <-. right. left. split_and!; [done|done|]. by exists hb. }
    rewrite add_u64_Ok in Hst by (unfold uint; lia). injection Hst as <-.
    destruct (Z.ltb_spec (hb.(hb_heartbeat).(current_timestamp) + stale_interval m) now) as [Hold|Hfresh].
    + destruct Hlimit as [(-> & -> & Hle)|(-> & Hlt & ->)]; [done|done| |].
      * left. split_and!; [done|done|by right].
      * right. right. by exists Stale.
    + injection Ht as <- <-. left. split_and!; [done|done|]. left. by exists hb.
  - injection Hst as <-. destruct Hlimit as [(-> & -> & Hle)|(-> & Hlt & ->)]; [done|done| |].
    + left. split_and!; [done|done|by right].
    + right. right. by exists Missing.
Qed.

Lemma limited_one (now : Z) (s : HeartbeatStatus) : s <> Future -> limited [(now, s)] = [(now, s)].
Proof. by destruct s. Qed.

Lemma limited_app (l l' : list (Z * HeartbeatStatus)) : limited (l ++ l') = limited l ++ limited l'.
Proof. apply filter_app. Qed.

Lemma tick_inv {E : Type} (m m' : HeartbeatMonitor) (seen : list MonitorEvent) (alarms : list (Z * HeartbeatStatus))
    (t now : Z) (alarm : option HeartbeatStatus) :
  monitor_inv m seen alarms t -> beats_in_range seen -> t <= now < 2 ^ 62 -> on_tick (E:=E) now m = Ok (m', alarm) ->
  monitor_inv m' (seen ++ [Tick now]) (alarms ++ option_list (pair now <$> alarm)) now.
Proof.
  intros [(Hkey & Hni & Hsi) Htime Hlast Hhb Hsp Hb] Hrange Hnow Ht.
  assert (Hr : forall hb, last_heartbeat m = Some hb -> 0 <= hb.(hb_heartbeat).(current_timestamp) < 2 ^ 32).
  { intros hb Heq. destruct (Hhb hb Heq) as (t' & Hin & _). by eapply Hrange. }
  apply tick_cases in Ht as [(-> & -> & _)|[(-> & -> & _)|(s & -> & Hs & Hlt & ->)]]; [| | |lia|rewrite Hni; lia|rewrite Hsi; lia|done].
  - cbn [fmap option_fmap option_map option_list]. rewrite app_nil_r. split; [done|lia| | |done|done].
    + destruct Hlast as [?|[?|(hb & Ha)]]; [by left|right; by left|]. right. right. exists hb. by apply accepted_mono.
    + intros hb Heq. destruct (Hhb hb Heq) as (t' & Ha). exists t'. by apply accepted_mono.
  - cbn [fmap option_fmap option_map option_list]. split; [done|lia| | | |].
    + destruct Hlast as [?|[(s & Hs & Hin)|(hb & Ha)]]; [by left|right; left; exists s; split; [done|set_solver]|].
      right. right. exists hb. by apply accepted_mono.
    + intros hb Heq. destruct (Hhb hb Heq) as (t' & Ha). exists t'. by apply accepted_mono.
    + rewrite limited_app. cbn. by rewrite app_nil_r.
    + rewrite limited_app. cbn. by rewrite app_nil_r.
  - change (option_list (pair now <$> Some s)) with [(now, s)]. split; cbn [hm_pubkey notify_interval stale_interval last_timestamp last_heartbeat]; [done|lia| | | |].
    + right. left. exists s. split; [done|set_solver].
    + intros hb Heq. destruct (Hhb hb Heq) as (t' & Ha). exists t'. by apply accepted_mono.
    + rewrite limited_app, limited_one by done. apply spaced_snoc; [done|].
      intros a Ha. apply Hb in Ha. cbn. lia.
    + intros a. rewrite limited_app, limited_one by done. rewrite elem_of_app.
      intros [Ha|Ha]; [apply Hb in Ha; lia|]. apply list_elem_of_singleton in Ha as ->. cbn. lia.
Qed.

Lemma beat_inv (m : HeartbeatMonitor) (seen : list MonitorEvent) (alarms : list (Z * HeartbeatStatus)) (t now : Z)
    (hb : SignedHeartbeat) :
  monitor_inv m seen alarms t -> t <= now -> monitor_inv (on_heartbeat now hb m) (seen ++ [Beat now hb]) alarms now.
Proof.
  intros [(Hkey & Hni & Hsi) Htime Hlast Hhb Hsp Hb] Hnow. unfold on_heartbeat. rewrite Hkey.
  destruct (heartbeat_verify hb key) eqn:Hv.
  - assert (Ha : accepted (seen ++ [Beat now hb]) now hb) by (split; [set_solver|done]).
    split; cbn [hm_pubkey notify_interval stale_interval last_timestamp last_heartbeat]; [done|lia| | |done|].
    + right. right. by exists hb.
    + intros hb' [= <-]. by exists now.
    + intros a Hin. apply Hb in Hin. lia.
  - split; [done|lia| | |done|done].
    + destruct Hlast as [?|[?|(hb' & Ha)]]; [by left|right; by left|]. right. right. exists hb'. by apply accepted_mono.
    + intros hb' Heq. destruct (Hhb hb' Heq) as (t' & Ha). exists t'. by apply accepted_mono.
Qed.

Lemma run_inv {E : Type} (events seen : list MonitorEvent) (m m' : HeartbeatMonitor) (alarms alarms' : list (Z * HeartbeatStatus)) (t : Z) :
  monitor_inv m seen alarms t -> beats_in_range (seen ++ events) -> clock_from t events ->
  monitor_run (E:=E) m events = Ok (m', alarms') ->
  exists t', t <= t' /\ (t' = t \/ exists e, e ∈ events /\ event_time e = t') /\ monitor_inv m' (seen ++ events) (alarms ++ alarms') t'.
Proof.
  revert seen m alarms alarms' t. induction events as [|e events IH]; intros seen m alarms alarms' t Hinv Hrange Hclock Hrun.
  { injection Hrun as <- <-. exists t. rewrite !app_nil_r. split_and!; [lia|by left|done]. }
  destruct Hclock as [Hnow Hclock]. rewrite cons_middle, app_assoc in Hrange. destruct e as [now|now hb]; cbn [monitor_run] in Hrun.
  - apply bind_Ok in Hrun as ([m1 alarm] & Ht & Hrun). apply bind_Ok in Hrun as ([m2 rest] & Hrun & Hr). injection Hr as <- <-.
    eapply tick_inv in Ht; [|done| |exact Hnow]; [|intros nw hb Hin; apply (Hrange nw hb); set_solver].
    eapply IH in Hrun as (t' & Hle & Hev & Hm); [|exact Ht|done|exact Hclock]. exists t'. rewrite <- !app_assoc in Hm.
    cbn [event_time] in *. split_and!; [lia| |done]. right. destruct Hev as [->|(e & He & <-)];
      [exists (Tick now)|exists e]; split; [set_solver|done|set_solver|done].
  - eapply (beat_inv _ _ _ _ now hb) in Hinv; [|cbn in Hnow; lia].
    eapply IH in Hrun as (t' & Hle & Hev & Hm); [|exact Hinv|done|exact Hclock]. exists t'. rewrite <- !app_assoc in Hm.
    cbn [event_time] in *. split_and!; [lia| |done]. right. destruct Hev as [->|(e & He & <-)];
      [exists (Beat now hb)|exists e]; split; [set_solver|done|set_solver|done].
Qed.
End Key.

Lemma run_snoc {E : Type} (events : list MonitorEvent) (now : Z) (m m' : HeartbeatMonitor) (alarms : list (Z * HeartbeatStatus)) :
  monitor_run (E:=E) m (events ++ [Tick now]) = Ok (m', alarms) ->
  exists m1 alarms1 alarm, monitor_run (E:=E) m events = Ok (m1, alarms1) /\ on_tick (E:=E) now m1 = Ok (m', alarm) /\
    alarms = alarms1 ++ option_list (pair now <$> alarm).
Proof.
  revert m alarms. induction events as [|[t|t hb] events IH]; intros m alarms Hrun; cbn [app monitor_run] in Hrun.
  - apply bind_Ok in Hrun as ([m1 alarm] & Ht & Hrun). injection Hrun as <- <-. exists m, [], alarm. by rewrite app_nil_r.
  - apply bind_Ok in Hrun as ([m1 alarm] & Ht & Hrun). apply bind_Ok in Hrun as ([m2 rest] & Hrun & Hr).
    injection Hr as <- <-. apply IH in Hrun as (m3 & alarms3 & alarm3 & Hrun & Ht3 & ->).
    exists m3, (option_list (pair t <$> alarm) ++ alarms3), alarm3. cbn [monitor_run]. rewrite Ht. cbn [mbind res_bind].
    rewrite Hrun. split_and!; [done|done|by rewrite app_assoc].
  - by apply IH in Hrun.
Qed.

Lemma clock_snoc (events : list MonitorEvent) (e : MonitorEvent) (t : Z) :
  clock_from t (events ++ [e]) ->
  clock_from t events /\ t <= event_time e < 2 ^ 62 /\ forall e', e' ∈ events -> event_time e' <= event_time e.
Proof.
  revert t. induction events as [|e1 events IH]; intros t Hc; cbn [app clock_from] in Hc.
  - destruct Hc as [Hc _]. split_and!; [done|lia|lia|]. intros e' He. inversion He.
  - destruct Hc as [Ht Hc]. apply IH in Hc as (Hc & He & Hall). split_and!; [by split|lia|lia|].
    intros e' [->|Hin]%elem_of_cons; [lia|by apply Hall].
Qed.
End Alarms.

(** ** Properties *)



(** Every tracker of the directory gets one follower: the followers are as many as
    the identifiers seen, and the identifier of every tracker has been seen. *)
Theorem one_follower_each `{Profile} `{ChainPackages} `{HeartbeatCrypto} {T F : Type} `{!ChainTrack T} `{!ProofFollower F}
    (new : T -> T * res Infallible (ChainFollower T F)) (net : Network) (trackers : list T) (fe fe' : Frontend (T:=T) (F:=F)) :
  length fe.(followers) = size fe.(tracker_ids) -> handle_new_trackers new net trackers fe = (fe', Ok tt) ->
  length fe'.(followers) = size fe'.(tracker_ids) /\ fe.(tracker_ids) ⊆ fe'.(tracker_ids) /\
  forall t t' id, t ∈ trackers -> ct_id t = (t', Ok id) -> id ∈ fe'.(tracker_ids).
Proof.
  revert fe. induction trackers as [|t trackers IH]; intros fe Hsize Hrun; cbn [handle_new_trackers] in Hrun.
  { injection Hrun as <-. split_and!; [done|done|]. intros t t' id Hin. inversion Hin. }
  destruct (ct_id t) as [t1 rid] eqn:Hid. run_step Hrun tid Ei; [|done]. subst rid. run_get Hrun.
  apply method_Ok in Hrun as (fe1 & [] & Hstep & Hrun).
  assert (Hfe1 : length fe1.(followers) = size fe1.(tracker_ids) /\ fe.(tracker_ids) ⊆ fe1.(tracker_ids) /\ tid ∈ fe1.(tracker_ids)).
  { destruct (bool_decide_reflect (tid ∈ tracker_ids fe)) as [Hin|Hout]; [by injection Hstep as <-|].
    rewrite set_bind in Hstep. unfold start_follower in Hstep. run_step Hstep u Eu; [|done]. run_get Hstep.
    run_step Hstep f Ef; [|done]. injection Hstep as <-. cbn [followers tracker_ids].
    split_and!; [|set_solver|set_solver]. rewrite length_app, size_union, size_singleton by set_solver. cbn. lia. }
  destruct Hfe1 as (Hs1 & Hsub1 & Hin1). apply IH in Hrun as (Hs2 & Hsub2 & Hall); [|done].
  split_and!; [done|set_solver|]. intros t0 t0' id0 [->|Hin]%elem_of_cons Ht0; [|by eapply Hall].
  rewrite Hid in Ht0. injection Ht0 as <- <-. set_solver.
Qed.

(** A reorganisation below the headers that the tracker keeps is refused, and the
    front of the node panics. *)
Lemma deep_reorg_panics `{Profile} `{ChainPackages}
    `{CommitmentPointProvider} `{HeartbeatCrypto} `{BlockStreaming} {P : Type} `{!Persist P}
    {PO : Type} `{HPO : Policy PO} (policy : PO) (compute_txid : Transaction -> Txid) (p : TxoProof) (prev : Headers)
    (n : Node (P:=P)) :
  (take_block p).2 = None -> n.(tracker).(headers) = [] -> n.(tracker).(allow_deep_reorgs) = false ->
  (do_remove_block policy compute_txid p prev n).2 = Panic.
Proof.
  intros Htake Hh Ha. unfold do_remove_block, maybe_stream_block. destruct (take_block p) as [q b]. cbn in Htake. subst b.
  unfold mbind, method_bind, must, on_tracker, remove_block. cbn [mret method_ret]. rewrite get_bind.
  unfold mbind, method_bind. cbn [headers resolve_tracker allow_deep_reorgs]. rewrite Hh, Ha. reflexivity.
Qed.

(** ** Samples *)
Section FollowerSamples.
#[local] Instance follower_sample_profile : Profile := release_profile.
#[local] Existing Instance sample_chain_packages.
#[local] Existing Instance sample_provider.
#[local] Existing Instance SimpleValidator_policy.
#[local] Existing Instance sample_lss_packages.

#[local] Instance sample_heartbeats : HeartbeatCrypto :=
  {| hb_sha256 := zsum; blockhash_bytes h := [h]; schnorr_from_slice := head; verify_schnorr s m k := s =? m + k;
     km_sign_heartbeat m := [m + 7]; heartbeat_pubkey := 7 |}.
#[local] Instance sample_streaming : BlockStreaming :=
  {| take_block p := (p, None); serialize_block _ := []; serialize_node_id k := [k] |}.
#[local] Instance no_external : ExternalPersist unit :=
  {| ext_put _ _ := call Panic; ext_get _ _ := call Panic; ext_info := call Panic |}.

(** The best chain has the blocks 0 to 103; block 1102 is another one on 101. *)
Definition sample_best : list BlockHeader := (fun n => sample_header (Z.of_nat n)) <$> seq 0 104.
Definition orphan_header : BlockHeader := mkBlockHeader 101 (600 * 102) 5 1102.
Definition sample_parent (hash : BlockHash) : option BlockHeader := if hash =? 1102 then Some (sample_header 101) else None.

#[local] Instance sample_source : ProofFollower unit := fun h hash _ _ f =>
  (f, if hash =? 1102 then Ok (BlockReorged (mkTxoProof [1] (Filter []) 1102) (sample_header 101) 101)
      else if negb (bool_decide (header_hash <$> sample_best !! Z.to_nat h = Some hash)) then Err FollowFailed
      else match sample_best !! (Z.to_nat h + 1)%nat with
           | Some b => Ok (BlockAdded b (sample_proof (h + 1)))
           | None => Ok FollowNone
           end).

Definition forked_tracker : ChainTracker (L:=nat) (K:=OutPoint) :=
  mkChainTracker [sample_headers 101] (mkHeaders orphan_header 1102) 102 Bitcoin ∅ None [] false.
Definition forked_node : Node (P:=DummyPersister) :=
  mkNode 7 (NodeConfig_new Bitcoin) ∅ ∅ ∅ 0 forked_tracker sample_state mkDummyPersister.
Definition sample_follower : ChainFollower (NodeFront (P:=DummyPersister) (N:=unit)) unit :=
  mkChainFollower (mkNodeFront forked_node None) None tt Scanning 60000 false.
Definition sample_clocks (i : nat) : UpdateClocks := mkUpdateClocks 1000 1000 1000 1000.

Definition sample_tick :=
  run_tick (ChainTrack0:=NodeFront_track sample_policy (fun tx => tx.(version)) false) 4 sample_clocks sample_follower.

Lemma sample_source_follows : source_follows sample_best sample_parent (fun _ : unit => True).
Proof.
  intros h hash w1 w2 f f' a _ Hf. unfold follow_with_proof, sample_source in Hf. injection Hf as <- Hf. split; [done|].
  destruct (Z.eqb_spec hash 1102) as [->|Hne].
  - injection Hf as <-. split; [|reflexivity]. intros (b & Hb & Hhash). unfold sample_best in Hb.
    apply list_lookup_fmap_Some in Hb as (n & -> & Hn). apply lookup_seq in Hn as [-> Hlt].
    cbn in Hhash. lia.
  - destruct (bool_decide _) eqn:Hon in Hf; [|discriminate Hf]. apply bool_decide_eq_true in Hon.
    cbn [negb] in Hf. apply fmap_Some in Hon as (b & Hb & ->).
    destruct (sample_best !! (Z.to_nat h + 1)%nat) as [b'|] eqn:Hb'; injection Hf as <-.
    + split; [by exists b|done].
    + split; [by exists b|]. apply lookup_ge_None in Hb'. apply lookup_lt_Some in Hb. lia.
Qed.


(** One heartbeat at 100, and a tick an hour and a half later. *)
Definition sample_beat : SignedHeartbeat :=
  let beat := mkHeartbeat 103 103 61800 100 in mkSignedHeartbeat (km_sign_heartbeat (heartbeat_sighash beat)) beat.
Definition sample_events : list MonitorEvent := [Beat 100 sample_beat; Tick 200; Tick 5500].
Definition sample_monitor : HeartbeatMonitor := mkHeartbeatMonitor 7 60 3600 0 None.

End FollowerSamples.
