(* ===== verification/KeyDerive.v ===== *)
(** * Keys of a node: [vls-core/src/signer/derive.rs] and [my_keys_manager.rs]

    The three styles of deriving the keys of a node and of its channels from a
    seed, and the keys manager, which counts what it has handed out.  BIP 32,
    hashes and signatures are of other packages.  A hash engine is the list of the
    bytes that were put in. *)
From S2P Require Import Prelude Velocity Policy Ordered CommitInfo Types Bitcoin Script Secrets Enforcement SimpleValidator Validator NodeState Channel TxValidator ChannelTx Monitor Tracker BTree Kvv Persister CryptoUtils ChannelSigner ChannelRecovery Recovery.

(** A child number is its 32 bits. *)
Abbreviation ChildNumber := Z (only parsing).

(** BIP 32, tweaks of keys, Diffie-Hellman and the two kinds of signatures that the
    channel keys do not make. *)
Class KeyPackages := {
  Xpriv : Type;
  new_master : Network -> list Z -> option Xpriv;
  derive_priv : Xpriv -> ChildNumber -> option Xpriv;
  xpriv_secret : Xpriv -> SecretKey;
  from_hardened_idx : Z -> option ChildNumber;
  from_normal_idx : Z -> option ChildNumber;
  scalar_from_be_bytes : list Z -> option Z;
  add_tweak : SecretKey -> Z -> option SecretKey;
  mul_tweak : SecretKey -> Z -> option SecretKey;
  diffie_hellman : PublicKey -> SecretKey -> list Z;
  sha256d_hash : list Z -> list Z;
  sign_schnorr : list Z -> SecretKey -> Signature;
  sign_ecdsa_digest : list Z -> SecretKey -> Signature;
  sign_ecdsa_recoverable : list Z -> SecretKey -> Signature
}.

(** [byte_utils.rs]: the shifts of eight bytes. *)
Definition slice_to_be64 (v : list Z) : Z :=
  fold_left (fun acc b => Z.lor (Z.shiftl acc 8) b) (take 8 v) 0.

(** The keys of a channel as a derivation gives them. *)
Record ChannelKeys := mkChannelKeys {
  ck_funding_key : SecretKey;
  ck_revocation_base_key : SecretKey;
  ck_htlc_base_key : SecretKey;
  ck_payment_key : SecretKey;
  ck_delayed_payment_base_key : SecretKey;
  ck_commitment_seed : list Z
}.

Section Derive.
Context `{HmacSha256} `{KeyPackages} `{ChanUtils} {E : Type}.

Definition from_slice (bytes : list Z) : res E SecretKey := unwrap (key_from_slice bytes).
Definition hardened (master : Xpriv) (i : Z) : res E Xpriv :=
  child ← unwrap (from_hardened_idx i);
  unwrap (derive_priv master child).
Definition normal (master : Xpriv) (i : Z) : res E Xpriv :=
  child ← unwrap (from_normal_idx i);
  unwrap (derive_priv master child).

(** [derive_key_lnd]. *)
Definition derive_key_lnd (network : Network) (master : Xpriv) (key_family index : Z) : res E (PublicKey * SecretKey) :=
  let coin_type := match network with Bitcoin => 0 | Testnet => 1 | Regtest => 1 | Signet => 1 end in
  purpose ← hardened master 1017;
  coin ← hardened purpose coin_type;
  family ← hardened coin key_family;
  branch ← normal family 0;
  node_ext_prv ← normal branch index;
  Ok (pubkey_of (xpriv_secret node_ext_prv), xpriv_secret node_ext_prv).

(** *** The trait [KeyDerive], by style *)
Definition master_key (style : KeyDerivationStyle) (network : Network) (seed : list Z) : res E Xpriv :=
  match style with
  | Native =>
      master_seed ← hkdf_sha256 seed (text_bytes "bip32 seed") [];
      unwrap (new_master network master_seed)
  | Ldk => unwrap (new_master network seed)
  | Lnd => unwrap (new_master network seed)
  end.

Definition node_keys (style : KeyDerivationStyle) (network : Network) (seed : list Z) : res E (PublicKey * SecretKey) :=
  match style with
  | Native =>
      node_private_bytes ← hkdf_sha256 seed (text_bytes "nodeid") [];
      node_secret_key ← from_slice node_private_bytes;
      Ok (pubkey_of node_secret_key, node_secret_key)
  | Ldk =>
      master ← master_key Ldk network seed;
      child ← hardened master 0;
      Ok (pubkey_of (xpriv_secret child), xpriv_secret child)
  | Lnd =>
      master ← master_key Lnd network seed;
      derive_key_lnd network master 6 0
  end.

(** The LDK style clears the bytes that its derivation reads as an index. *)
Definition keys_id (style : KeyDerivationStyle) (channel_id : ChannelId) (channel_seed_base : list Z) : res E (list Z) :=
  r ← hkdf_sha256 channel_seed_base (text_bytes "per-peer seed") channel_id;
  match style with
  | Ldk => Ok ([0; 0; 0; 0] ++ ((fun b => Z.land b 0x7f) <$> take 1 (drop 4 r)) ++ drop 5 r)
  | _ => Ok r
  end.

Definition channels_seed (seed : list Z) : res E (list Z) := hkdf_sha256 seed (text_bytes "peer seed") [].

Definition key_slice (buf : list Z) (i : nat) : list Z := take 32 (drop (32 * i) buf).

Definition key_step (channel_seed prev_key : list Z) (info : string) : res E SecretKey :=
  from_slice (sha256_hash (channel_seed ++ prev_key ++ text_bytes info)).

Definition channel_keys_native (kid : list Z) : res E ChannelKeys :=
  keys_buf ← hkdf_sha256_keys kid (text_bytes "c-lightning") [];
  funding_key ← from_slice (key_slice keys_buf 0);
  revocation_base_key ← from_slice (key_slice keys_buf 1);
  htlc_base_key ← from_slice (key_slice keys_buf 2);
  payment_key ← from_slice (key_slice keys_buf 3);
  delayed_payment_base_key ← from_slice (key_slice keys_buf 4);
  Ok (mkChannelKeys funding_key revocation_base_key htlc_base_key payment_key delayed_payment_base_key (key_slice keys_buf 5)).

Definition channel_keys_ldk (seed kid : list Z) (master : Xpriv) : res E ChannelKeys :=
  let chan_id := slice_to_be64 kid in
  rassert (chan_id <=? 2 ^ 32 - 1) ;;
  channel_master_key ← hardened master 3;
  child_privkey ← hardened channel_master_key chan_id;
  let channel_seed := sha256_hash (kid ++ seed ++ key_bytes (xpriv_secret child_privkey)) in
  let commitment_seed := sha256_hash (channel_seed ++ text_bytes "commitment seed") in
  funding_key ← key_step channel_seed commitment_seed "funding key";
  revocation_base_key ← key_step channel_seed (key_bytes funding_key) "revocation base key";
  payment_key ← key_step channel_seed (key_bytes revocation_base_key) "payment key";
  delayed_payment_base_key ← key_step channel_seed (key_bytes payment_key) "delayed payment base key";
  htlc_base_key ← key_step channel_seed (key_bytes delayed_payment_base_key) "HTLC base key";
  Ok (mkChannelKeys funding_key revocation_base_key htlc_base_key payment_key delayed_payment_base_key commitment_seed).

(** Only the commitment seed comes from the keys id; the keys come from an index. *)
Definition channel_keys_lnd (network : Network) (kid : list Z) (basepoint_index : Z) (master : Xpriv) : res E ChannelKeys :=
  keys_buf ← hkdf_sha256_keys kid (text_bytes "c-lightning") [];
  '(_, funding_key) ← derive_key_lnd network master 0 basepoint_index;
  '(_, revocation_base_key) ← derive_key_lnd network master 1 basepoint_index;
  '(_, htlc_base_key) ← derive_key_lnd network master 2 basepoint_index;
  '(_, payment_key) ← derive_key_lnd network master 3 basepoint_index;
  '(_, delayed_payment_base_key) ← derive_key_lnd network master 4 basepoint_index;
  Ok (mkChannelKeys funding_key revocation_base_key htlc_base_key payment_key delayed_payment_base_key (key_slice keys_buf 5)).

Definition channel_keys (style : KeyDerivationStyle) (network : Network) (seed kid : list Z) (basepoint_index : Z)
    (master : Xpriv) : res E ChannelKeys :=
  match style with
  | Native => channel_keys_native kid
  | Ldk => channel_keys_ldk seed kid master
  | Lnd => channel_keys_lnd network kid basepoint_index master
  end.

(** *** The account of the wallet *)
Definition get_account_extended_key_native (network : Network) (node_seed : list Z) : res E Xpriv :=
  bip32_seed ← hkdf_sha256 node_seed (text_bytes "bip32 seed") [];
  master ← unwrap (new_master network bip32_seed);
  child ← normal master 0;
  normal child 0.

Definition get_account_extended_key_lnd (network : Network) (node_seed : list Z) : res E Xpriv :=
  master ← unwrap (new_master network node_seed);
  purpose ← hardened master 84;
  cointype ← hardened purpose 0;
  hardened cointype 0.

Definition get_account_extended_key (style : KeyDerivationStyle) (network : Network) (seed : list Z) : res E Xpriv :=
  match style with
  | Native => get_account_extended_key_native network seed
  | Ldk => get_account_extended_key_native network seed
  | Lnd => get_account_extended_key_lnd network seed
  end.
End Derive.

(** [Display] and [FromStr] of the style. *)
Definition style_to_string (style : KeyDerivationStyle) : string :=
  match style with Native => "native" | Ldk => "ldk" | Lnd => "lnd" end.
Definition style_from_str (s : string) : option KeyDerivationStyle :=
  if String.eqb s "native" then Some Native
  else if String.eqb s "ldk" then Some Ldk
  else if String.eqb s "lnd" then Some Lnd
  else None.

(** ** The keys manager *)
Section Manager.
Context `{Profile} `{HmacSha256} `{KeyPackages} `{ChanUtils}.

(** [usize] has 64 bits. *)
Record MyKeysManager := mkMyKeysManager {
  km_seed : list Z;
  km_style : KeyDerivationStyle;
  km_network : Network;
  km_master_key : Xpriv;
  km_node_secret : SecretKey;
  km_bolt12_secret : SecretKey;
  km_persistence_secret : SecretKey;
  km_inbound_payment_key : list Z;
  km_channel_seed_base : list Z;
  km_account_extended_key : Xpriv;
  km_destination_script : ScriptBuf;
  km_ldk_shutdown_pubkey : PublicKey;
  km_channel_id_master_key : Xpriv;
  km_channel_id_child_index : Z;
  km_rand_bytes_master_key : Xpriv;
  km_rand_bytes_child_index : Z;
  km_rand_bytes_unique_start : list Z;
  km_lnd_basepoint_index : Z;
  km_unique_start : list Z
}.

Definition with_indices (self : MyKeysManager) (channel_id_ix rand_ix lnd_ix : Z) : MyKeysManager :=
  mkMyKeysManager self.(km_seed) self.(km_style) self.(km_network) self.(km_master_key) self.(km_node_secret)
    self.(km_bolt12_secret) self.(km_persistence_secret) self.(km_inbound_payment_key) self.(km_channel_seed_base)
    self.(km_account_extended_key) self.(km_destination_script) self.(km_ldk_shutdown_pubkey)
    self.(km_channel_id_master_key) channel_id_ix self.(km_rand_bytes_master_key) rand_ix
    self.(km_rand_bytes_unique_start) lnd_ix self.(km_unique_start).

Abbreviation keys_method E A := (method MyKeysManager E A) (only parsing).

(** [EntropySource::get_secure_random_bytes]; [fetch_add] wraps around. *)
Definition get_secure_random_bytes {E : Type} : keys_method E (list Z) :=
  self ← get_self;
  let child_ix := self.(km_rand_bytes_child_index) in
  set_self (with_indices self self.(km_channel_id_child_index) ((child_ix + 1) mod 2 ^ 64) self.(km_lnd_basepoint_index)) ;;
  child_privkey ← call (hardened self.(km_rand_bytes_master_key) (child_ix mod 2 ^ 32));
  mret (sha256_hash (self.(km_rand_bytes_unique_start) ++ key_bytes (xpriv_secret child_privkey)
                     ++ text_bytes "Unique Secure Random Bytes Salt")).

(** The last step draws random bytes to blind the context of the curve. *)
Definition MyKeysManager_new {E : Type} (style : KeyDerivationStyle) (seed : list Z) (network : Network)
    (starting_time_secs starting_time_nanos : Z) : res E MyKeysManager :=
  master ← master_key style network seed;
  '(_, node_secret) ← node_keys style network seed;
  _ ← hardened master 3;
  channel_id_master_key ← hardened master 5;
  let unique_start := Redb.to_be_bytes 8 starting_time_secs ++ Redb.to_be_bytes 4 starting_time_nanos ++ seed in
  channel_seed_base ← channels_seed seed;
  account_extended_key ← get_account_extended_key style network seed;
  ldk_shutdown_key ← normal account_extended_key 2;
  destination_key ← normal account_extended_key 1;
  rand_bytes_master_key ← hardened master 4;
  inbound_payment_key ← hardened master 5;
  bolt12 ← hardened master 9735;
  persistence ← hardened master 9736;
  let self :=
    mkMyKeysManager seed style network master node_secret (xpriv_secret bolt12) (xpriv_secret persistence)
      (key_bytes (xpriv_secret inbound_payment_key)) channel_seed_base account_extended_key
      (new_p2wpkh (pubkey_of (xpriv_secret destination_key))) (pubkey_of (xpriv_secret ldk_shutdown_key))
      channel_id_master_key 0 rand_bytes_master_key 0 unique_start 0 unique_start in
  let '(self, secp_seed) := get_secure_random_bytes self in
  _ ← secp_seed;
  Ok self.

(** *** Channels *)
Definition get_channel_keys_with_keys_id {E : Type} (kid : list Z) : keys_method E (VlsChannelSigner * SecretKey) :=
  self ← get_self;
  let basepoint_index := self.(km_lnd_basepoint_index) in
  set_self (with_indices self self.(km_channel_id_child_index) self.(km_rand_bytes_child_index) ((basepoint_index + 1) mod 2 ^ 32)) ;;
  k ← call (channel_keys self.(km_style) self.(km_network) self.(km_seed) kid basepoint_index self.(km_master_key));
  mret (VlsChannelSigner_new k.(ck_funding_key) k.(ck_revocation_base_key) k.(ck_payment_key)
          k.(ck_delayed_payment_base_key) k.(ck_htlc_base_key) k.(ck_commitment_seed) kid, k.(ck_payment_key)).

Definition get_channel_keys_with_id {E : Type} (channel_id : ChannelId) : keys_method E (VlsChannelSigner * SecretKey) :=
  self ← get_self;
  kid ← call (keys_id self.(km_style) channel_id self.(km_channel_seed_base));
  get_channel_keys_with_keys_id kid.

Definition derive_channel_keys {E : Type} (kid : list Z) : keys_method E VlsChannelSigner :=
  keys ← get_channel_keys_with_keys_id kid;
  mret keys.1.

Definition increment_channel_id_child_index {E : Type} : keys_method E Z :=
  self ← get_self;
  let child_ix := self.(km_channel_id_child_index) in
  set_self (with_indices self ((child_ix + 1) mod 2 ^ 64) self.(km_rand_bytes_child_index) self.(km_lnd_basepoint_index)) ;;
  mret child_ix.

Definition get_channel_id {E : Type} : keys_method E ChannelId :=
  self ← get_self;
  child_ix ← increment_channel_id_child_index;
  child_privkey ← call (hardened self.(km_channel_id_master_key) (child_ix mod 2 ^ 32));
  mret (sha256_hash (self.(km_unique_start) ++ key_bytes (xpriv_secret child_privkey))).

(** *** Secrets of the node *)
Definition get_onion_reply_secret {E : Type} (self : MyKeysManager) : res E (list Z) :=
  hkdf_sha256 self.(km_seed) (text_bytes "onion reply secret") [].
Definition get_bolt12_pubkey (self : MyKeysManager) : PublicKey := pubkey_of self.(km_bolt12_secret).
Definition get_persistence_pubkey (self : MyKeysManager) : PublicKey := pubkey_of self.(km_persistence_secret).
Definition get_persistence_shared_secret (self : MyKeysManager) (server_pubkey : PublicKey) : list Z :=
  diffie_hellman server_pubkey self.(km_persistence_secret).
Definition get_persistence_auth_token (self : MyKeysManager) (server_pubkey : PublicKey) : list Z :=
  sha256_hash (get_persistence_shared_secret self server_pubkey).

Definition get_inbound_payment_key_bytes {E : Type} (self : MyKeysManager) : res E (list Z) :=
  key ← hardened self.(km_master_key) 5;
  Ok (key_bytes (xpriv_secret key)).
Definition get_peer_storage_key {E : Type} (self : MyKeysManager) : res E (list Z) :=
  key ← hardened self.(km_master_key) 6;
  Ok (key_bytes (xpriv_secret key)).
Definition get_receive_auth_key {E : Type} (self : MyKeysManager) : res E (list Z) :=
  key ← hardened self.(km_master_key) 7;
  Ok (key_bytes (xpriv_secret key)).

Definition km_derive_secret {E : Type} (self : MyKeysManager) (info : list Z) : res E SecretKey :=
  derived_secrets_base ← hkdf_sha256 self.(km_seed) (text_bytes "derived secrets") [];
  derived_secret ← hkdf_sha256 derived_secrets_base info [];
  from_slice derived_secret.

(** *** BOLT 12 *)
Definition get_bolt12_keypair (self : MyKeysManager) (opt_info opt_tweak_message : option (list Z)) : res unit SecretKey :=
  match opt_tweak_message, opt_info with
  | None, _ => Ok self.(km_node_secret)
  | Some tweak_message, None =>
      tweak ← unwrap (scalar_from_be_bytes (sha256_hash (serialize_pubkey (pubkey_of self.(km_bolt12_secret)) ++ tweak_message)));
      ok_or tt (add_tweak self.(km_bolt12_secret) tweak)
  | Some tweak_message, Some info =>
      base_secret ← km_derive_secret self info;
      tweak ← unwrap (scalar_from_be_bytes (sha256_hash (key_bytes base_secret ++ tweak_message)));
      ok_or tt (add_tweak self.(km_node_secret) tweak)
  end.

Definition bolt12_message_hash (messagename fieldname merkleroot : list Z) : list Z :=
  let tag_hash := sha256_hash (text_bytes "lightning" ++ messagename ++ fieldname) in
  sha256_hash (tag_hash ++ tag_hash ++ merkleroot).

Definition sign_bolt12 (self : MyKeysManager) (messagename fieldname merkleroot : list Z) (publictweak_opt : option (list Z))
  : res unit Signature :=
  kp ← get_bolt12_keypair self None publictweak_opt;
  Ok (sign_schnorr (bolt12_message_hash messagename fieldname merkleroot) kp).

Definition sign_bolt12_2 (self : MyKeysManager) (messagename fieldname merkleroot info : list Z)
    (publictweak_opt : option (list Z)) : res unit Signature :=
  kp ← get_bolt12_keypair self (Some info) publictweak_opt;
  Ok (sign_schnorr (bolt12_message_hash messagename fieldname merkleroot) kp).

Definition sign_heartbeat (self : MyKeysManager) (msg : list Z) : Signature :=
  sign_schnorr msg (xpriv_secret self.(km_account_extended_key)).

(** *** [NodeSigner] *)
Inductive Recipient := RecipientNode | RecipientPhantomNode.

Definition only_node (recipient : Recipient) : res unit unit :=
  match recipient with RecipientNode => Ok tt | RecipientPhantomNode => Err tt end.

Definition get_node_id (self : MyKeysManager) (recipient : Recipient) : res unit PublicKey :=
  only_node recipient ;;
  Ok (pubkey_of self.(km_node_secret)).

Definition sign_gossip_message (self : MyKeysManager) (encoded : list Z) : Signature :=
  sign_ecdsa_digest (sha256d_hash encoded) self.(km_node_secret).

Definition node_ecdh (self : MyKeysManager) (recipient : Recipient) (other_key : PublicKey) (tweak : option Z)
  : res unit (list Z) :=
  only_node recipient ;;
  node_secret ← match tweak with
                | Some tweak => ok_or tt (mul_tweak self.(km_node_secret) tweak)
                | None => Ok self.(km_node_secret)
                end;
  Ok (diffie_hellman other_key node_secret).

Definition sign_invoice (self : MyKeysManager) (signable_hash : list Z) (recipient : Recipient) : res unit Signature :=
  only_node recipient ;;
  Ok (sign_ecdsa_recoverable (sha256_hash signable_hash) self.(km_node_secret)).

Definition km_sign_bolt12_invoice (self : MyKeysManager) (signing_pubkey : PublicKey) (digest : list Z) : res unit Signature :=
  if negb (signing_pubkey =? get_bolt12_pubkey self) then Err tt
  else Ok (sign_schnorr digest self.(km_bolt12_secret)).
End Manager.

(** ** Spending outputs of closed channels *)
Inductive SpendableOutputDescriptor :=
| StaticPaymentOutput (channel_keys_id : list Z) (descriptor : StaticPaymentOutputDescriptor)
| DelayedPaymentOutput (channel_keys_id : list Z) (descriptor : DelayedPaymentOutputDescriptor)
| StaticOutput (outpoint : OutPoint) (o : TxOut).

Definition spend_outpoint (d : SpendableOutputDescriptor) : OutPoint :=
  match d with
  | StaticPaymentOutput _ d => d.(sp_outpoint)
  | DelayedPaymentOutput _ d => d.(dp_outpoint)
  | StaticOutput outpoint _ => outpoint
  end.

Definition spend_output (d : SpendableOutputDescriptor) : TxOut :=
  match d with
  | StaticPaymentOutput _ d => d.(sp_output)
  | DelayedPaymentOutput _ d => d.(dp_output)
  | StaticOutput _ o => o
  end.

Definition spend_sequence (d : SpendableOutputDescriptor) : Z :=
  match d with
  | StaticPaymentOutput _ _ => 1
  | DelayedPaymentOutput _ d => d.(dp_to_self_delay)
  | StaticOutput _ _ => 0
  end.

Section Spend.
Context `{Profile} `{BitcoinLib} `{LightningLib} `{SecpSign} `{HmacSha256} `{KeyPackages} `{ChanUtils} `{TxEncoding}.
(** [max_witness_length] and [MAX_WITNESS_LENGTH] of the lightning package. *)
Context (static_witness_length : StaticPaymentOutputDescriptor -> Z) (delayed_witness_length : Z).
(** How long signing may draw, and what it draws for each input. *)
Context (fuel : nat) (rand : nat -> nat -> list Z).

Definition spend_witness_length (d : SpendableOutputDescriptor) : Z :=
  match d with
  | StaticPaymentOutput _ d => static_witness_length d
  | DelayedPaymentOutput _ _ => delayed_witness_length
  | StaticOutput _ _ => 1 + 73 + 34
  end.

(** The value of the inputs, the weight of their witnesses and the outpoints so far. *)
Definition add_spendable (acc : Z * Z * list OutPoint) (d : SpendableOutputDescriptor) : res unit (Z * Z * list OutPoint) :=
  let '(input_value, witness_weight, output_set) := acc in
  witness_weight ← add_u64 witness_weight (spend_witness_length d);
  input_value ← unwrap (checked_add 64 input_value (spend_output d).(value));
  if bool_decide (spend_outpoint d ∈ output_set) then Err tt
  else if MAX_VALUE_MSAT / 1000 <? input_value then Err tt
  else Ok (input_value, witness_weight, spend_outpoint d :: output_set).

(** [create_spending_transaction] of [transaction_utils.rs]. *)
Definition spending_transaction (descriptors : list SpendableOutputDescriptor) (outputs : list TxOut)
    (change_destination_script : ScriptBuf) (feerate_sats_per_1000_weight : Z) : res unit SignedTx :=
  '(input_value, witness_weight, _) ← fold_res add_spendable (0, 0, []) descriptors;
  let spend_tx := mkTransaction 2 0 ((fun d => mkTxIn (spend_outpoint d) (spend_sequence d)) <$> descriptors) outputs in
  maybe_add_change_output (unsigned spend_tx) input_value witness_weight feerate_sats_per_1000_weight change_destination_script.

Abbreviation keys_method A := (method MyKeysManager unit A) (only parsing).
Abbreviation keys_cache := (gmap (list Z) VlsChannelSigner) (only parsing).

Definition cached_keys (cache : keys_cache) (kid : list Z) : keys_method (keys_cache * VlsChannelSigner) :=
  match cache !! kid with
  | Some signer => mret (cache, signer)
  | None => signer ← derive_channel_keys kid; mret (<[kid := signer]> cache, signer)
  end.

(** A signature that must be made. *)
Definition accepted_by {A : Type} (r : res unit A) : keys_method A :=
  call (match r with Ok a => Ok a | _ => Panic end).

Definition sign_static_output (spend_tx : Transaction) (input_idx : nat) (o : TxOut) : keys_method (list WitnessElement) :=
  self ← get_self;
  let derivation_idx := if o.(script_pubkey) =? self.(km_destination_script) then 1 else 2 in
  account_extended_key ← call (get_account_extended_key self.(km_style) self.(km_network) self.(km_seed));
  secret_key ← call (normal account_extended_key derivation_idx);
  let pubkey := pubkey_of (xpriv_secret secret_key) in
  call (rassert (negb (derivation_idx =? 2) || (pubkey =? self.(km_ldk_shutdown_pubkey)))) ;;
  sighash ← call (unwrap (p2wsh_signature_hash spend_tx input_idx (new_p2pkh pubkey) o.(value) SighashAll));
  mret [SigElement (secp_sign sighash (xpriv_secret secret_key)) SighashAll; PubkeyElement pubkey].

Fixpoint sign_spendable (spend_tx : Transaction) (input_idx : nat) (cache : keys_cache)
    (descriptors : list SpendableOutputDescriptor) : keys_method (list (list WitnessElement)) :=
  match descriptors with
  | [] => mret []
  | d :: descriptors' =>
      '(cache, witness) ←
        match d with
        | StaticPaymentOutput kid descriptor =>
            '(cache, signer) ← cached_keys cache kid;
            w ← accepted_by (sign_counterparty_payment_input fuel signer spend_tx input_idx descriptor (rand input_idx));
            mret (cache, w)
        | DelayedPaymentOutput kid descriptor =>
            '(cache, signer) ← cached_keys cache kid;
            w ← accepted_by (sign_dynamic_p2wsh_input fuel signer spend_tx input_idx descriptor (rand input_idx));
            mret (cache, w)
        | StaticOutput _ o =>
            w ← sign_static_output spend_tx input_idx o;
            mret (cache, w)
        end;
      rest ← sign_spendable spend_tx (S input_idx) cache descriptors';
      mret (witness :: rest)
  end.

Definition spend_spendable_outputs (descriptors : list SpendableOutputDescriptor) (outputs : list TxOut)
    (change_destination_script : ScriptBuf) (feerate_sat_per_1000_weight : Z) : keys_method SignedTx :=
  spend_tx ← call (spending_transaction descriptors outputs change_destination_script feerate_sat_per_1000_weight);
  witnesses ← sign_spendable spend_tx.(st_tx) 0 ∅ descriptors;
  mret (mkSignedTx spend_tx.(st_tx) (ChannelStack <$> witnesses)).
End Spend.
