(* ===== verification/KeySafety.v ===== *)
(** * What key derivation guarantees

    The keys of a channel depend on the seed and the channel alone in two of the
    three styles, so a restarted manager finds them again; in the third they depend
    on the order of the calls.  Random bytes never come from the same child key
    twice, and outputs are spent with the keys of their channels. *)
From S2P Require Import Prelude Velocity Policy Ordered CommitInfo Types Bitcoin Script Secrets Enforcement SimpleValidator Validator NodeState Channel TxValidator ChannelTx Monitor Tracker BTree Kvv KvvSpec Persister CryptoUtils ChannelSigner ChannelRecovery Recovery RecoverySafety KeyDerive.

(** What the code relies on ("your RNG is busted"): hashes have 32 bytes, bytes
    make keys, and children exist; a hardened index has 31 bits. *)
Class KeyLaws `{HmacSha256} `{KeyPackages} `{ChanUtils} : Prop := {
  kl_hmac : hmac_len;
  kl_bytes : forall key data, Forall (fun b => 0 <= b < 256) (hmac_sha256 key data);
  kl_key : forall l, length l = 32%nat -> is_Some (key_from_slice l);
  kl_hash_key : forall l, is_Some (key_from_slice (sha256_hash l));
  kl_derive : forall x c, is_Some (derive_priv x c);
  kl_hardened : forall i, 0 <= i -> is_Some (from_hardened_idx i) <-> i < 2 ^ 31
}.

(** ** Derivation *)
Section Derivation.
Context `{KeyLaws} {E : Type}.

Lemma hkdf_bytes (secret info salt : list Z) :
  exists r, hkdf_sha256 (E:=E) secret info salt = Ok r /\ length r = 32%nat /\ Forall (fun b => 0 <= b < 256) r.
Proof.
  unfold hkdf_sha256, hkdf_extract_expand. change (chunk_lens 32 32) with [32%nat].
  cbn [hkdf_chunks]. change (checked_add 8 0 1) with (Some 1). cbn [unwrap mbind res_bind].
  change (1 =? 1) with true. cbv iota. rewrite kl_hmac. cbn [Nat.eqb rassert mbind res_bind].
  rewrite app_nil_r. eexists. split; [reflexivity|]. split; [apply kl_hmac|apply kl_bytes].
Qed.

Lemma hkdf_keys_bytes (secret info salt : list Z) :
  exists r, hkdf_sha256_keys (E:=E) secret info salt = Ok r /\ length r = 192%nat.
Proof.
  unfold hkdf_sha256_keys, hkdf_extract_expand. change (chunk_lens _ _) with (replicate 6 32%nat ++ []).
  rewrite (hkdf_chunks_rfc kl_hmac _ _ _ 0) by (by left || lia).
  cbn [Nat.add Nat.leb hkdf_chunks mbind res_bind]. rewrite app_nil_r.
  eexists. split; [reflexivity|]. cbn [seq fmap list_fmap mjoin list_join]. rewrite !length_app.
  cbn [Rfc5869.T]. by rewrite !kl_hmac.
Qed.

Lemma key_slice_key (buf : list Z) (i : nat) :
  length buf = 192%nat -> (i < 6)%nat -> exists k, from_slice (E:=E) (key_slice buf i) = Ok k.
Proof.
  intros Hl Hi. unfold from_slice. destruct (kl_key (key_slice buf i)) as [k ->]; [|by eexists].
  unfold key_slice. rewrite length_take, length_drop. lia.
Qed.

Lemma key_step_key (seed prev : list Z) (info : string) : exists k, key_step (E:=E) seed prev info = Ok k.
Proof. unfold key_step, from_slice. destruct (kl_hash_key (seed ++ prev ++ text_bytes info)) as [k ->]. by eexists. Qed.

Lemma hardened_child (x : Xpriv) (i : Z) : 0 <= i < 2 ^ 31 -> exists y, hardened (E:=E) x i = Ok y.
Proof.
  intros Hi. unfold hardened. destruct (proj2 (kl_hardened i ltac:(lia)) ltac:(lia)) as [c ->]. cbn [unwrap mbind res_bind].
  destruct (kl_derive x c) as [y ->]. by eexists.
Qed.

Lemma hardened_exhausted (x : Xpriv) (i : Z) : 2 ^ 31 <= i -> hardened (E:=E) x i = Panic.
Proof.
  intros Hi. unfold hardened. destruct (from_hardened_idx i) eqn:Hc; [|done].
  assert (i < 2 ^ 31) by (apply kl_hardened; [lia|by rewrite Hc]). lia.
Qed.

Lemma be_bytes_inj (n : nat) (a b : Z) :
  0 <= a < 256 ^ Z.of_nat n -> 0 <= b < 256 ^ Z.of_nat n -> Redb.to_be_bytes n a = Redb.to_be_bytes n b -> a = b.
Proof.
  intros Ha Hb Heq%(inj reverse). rewrite <- (from_to_le_bytes n a), <- (from_to_le_bytes n b) by done. by rewrite Heq.
Qed.

(** One byte more of a big-endian number. *)
Lemma be_step (k acc b : Z) :
  0 <= k -> 0 <= acc < 2 ^ k -> 0 <= b < 256 -> 0 <= Z.lor (Z.shiftl acc 8) b < 2 ^ (k + 8).
Proof.
  intros Hk Hacc Hb.
  assert (Hdis : Z.land (Z.shiftl acc 8) b = 0).
  { apply Z.bits_inj'. intros i Hi. rewrite Z.land_spec, Z.bits_0. destruct (decide (i < 8)).
    - by rewrite Z.shiftl_spec_low by lia.
    - replace b with (b mod 2 ^ 8) by (apply Z.mod_small; lia). rewrite Z.mod_pow2_bits_high by lia. apply andb_false_r. }
  rewrite <- Z.lxor_lor, <- Z.add_nocarry_lxor, Z.shiftl_mul_pow2, Z.pow_add_r by (done || lia).
  change (2 ^ 8) with 256. nia.
Qed.

(** The masked identifier of the LDK style is a hardened index. *)
Lemma ldk_index_bounded (r : list Z) :
  length r = 32%nat -> Forall (fun b => 0 <= b < 256) r ->
  0 <= slice_to_be64 ([0; 0; 0; 0] ++ ((fun b => Z.land b 0x7f) <$> take 1 (drop 4 r)) ++ drop 5 r) < 2 ^ 31.
Proof.
  intros Hl Hb. do 8 (destruct r as [|? r]; [done|]).
  do 5 (apply Forall_cons in Hb as [? Hb]). do 3 (apply Forall_cons in Hb as [? Hb]).
  unfold slice_to_be64. cbn [drop take fmap list_fmap app fold_left].
  assert (Hland : 0 <= Z.land z3 127 < 2 ^ 7) by (change 127 with (Z.ones 7); rewrite Z.land_ones by lia; apply Z.mod_pos_bound; lia).
  assert (Hzero : Z.lor (Z.shiftl (Z.lor (Z.shiftl (Z.lor (Z.shiftl (Z.lor (Z.shiftl 0 8) 0) 8) 0) 8) 0) 8) 0 = 0) by done.
  rewrite Hzero. change (Z.shiftl 0 8) with 0. rewrite Z.lor_0_l.
  change (2 ^ 31) with (2 ^ (7 + 8 + 8 + 8)). do 3 (apply be_step; [lia| |done]). done.
Qed.
End Derivation.

(** ** Managers *)
Section Managers.
Context `{KeyLaws} {E : Type}.

(** What calls leave alone. *)
Definition same_keys (m m' : MyKeysManager) : Prop := exists i j k, m' = with_indices m i j k.

Lemma same_keys_refl (m : MyKeysManager) : same_keys m m.
Proof. destruct m. by eexists _, _, _. Qed.

Lemma same_keys_trans (m1 m2 m3 : MyKeysManager) : same_keys m1 m2 -> same_keys m2 m3 -> same_keys m1 m3.
Proof. intros (i & j & k & ->) (i' & j' & k' & ->). by eexists _, _, _. Qed.

(** What a start time does not change. *)
Definition same_node (m m' : MyKeysManager) : Prop :=
  m.(km_seed) = m'.(km_seed) /\ m.(km_style) = m'.(km_style) /\ m.(km_network) = m'.(km_network) /\
  m.(km_master_key) = m'.(km_master_key) /\ m.(km_channel_seed_base) = m'.(km_channel_seed_base) /\
  m.(km_node_secret) = m'.(km_node_secret) /\ m.(km_bolt12_secret) = m'.(km_bolt12_secret) /\
  m.(km_persistence_secret) = m'.(km_persistence_secret) /\ m.(km_inbound_payment_key) = m'.(km_inbound_payment_key) /\
  m.(km_account_extended_key) = m'.(km_account_extended_key) /\ m.(km_destination_script) = m'.(km_destination_script) /\
  m.(km_ldk_shutdown_pubkey) = m'.(km_ldk_shutdown_pubkey).

(** The signer that a keys id stands for, at a basepoint index. *)
Definition signer_of (m : MyKeysManager) (index : Z) (kid : list Z) : res E (VlsChannelSigner * SecretKey) :=
  k ← channel_keys m.(km_style) m.(km_network) m.(km_seed) kid index m.(km_master_key);
  Ok (VlsChannelSigner_new k.(ck_funding_key) k.(ck_revocation_base_key) k.(ck_payment_key)
        k.(ck_delayed_payment_base_key) k.(ck_htlc_base_key) k.(ck_commitment_seed) kid, k.(ck_payment_key)).

Lemma keys_with_keys_id_run (m : MyKeysManager) (kid : list Z) :
  get_channel_keys_with_keys_id (E:=E) kid m =
  (with_indices m m.(km_channel_id_child_index) m.(km_rand_bytes_child_index) ((m.(km_lnd_basepoint_index) + 1) mod 2 ^ 32),
   signer_of m m.(km_lnd_basepoint_index) kid).
Proof.
  unfold get_channel_keys_with_keys_id. rewrite get_bind. cbv zeta. rewrite set_bind. unfold signer_of.
  by destruct (channel_keys _ _ _ _ _ _).
Qed.

Lemma keys_with_id_run (m : MyKeysManager) (id : ChannelId) :
  get_channel_keys_with_id (E:=E) id m =
  match keys_id m.(km_style) id m.(km_channel_seed_base) with
  | Ok kid => get_channel_keys_with_keys_id kid m
  | Err e => (m, Err e)
  | Panic => (m, Panic)
  end.
Proof. unfold get_channel_keys_with_id. rewrite get_bind. by destruct (keys_id _ _ _). Qed.

Lemma signer_of_index (m : MyKeysManager) (i j : Z) (kid : list Z) :
  m.(km_style) <> Lnd -> signer_of m i kid = signer_of m j kid.
Proof. intros Hs. unfold signer_of, channel_keys. by destruct (km_style m). Qed.

Lemma native_keys (kid : list Z) : exists k, channel_keys_native (E:=E) kid = Ok k.
Proof.
  unfold channel_keys_native. destruct (hkdf_keys_bytes (E:=E) kid (text_bytes "c-lightning") []) as (buf & -> & Hl).
  cbn [mbind res_bind].
  destruct (key_slice_key (E:=E) buf 0 Hl ltac:(lia)) as [k0 ->], (key_slice_key (E:=E) buf 1 Hl ltac:(lia)) as [k1 ->],
    (key_slice_key (E:=E) buf 2 Hl ltac:(lia)) as [k2 ->], (key_slice_key (E:=E) buf 3 Hl ltac:(lia)) as [k3 ->],
    (key_slice_key (E:=E) buf 4 Hl ltac:(lia)) as [k4 ->]. by eexists.
Qed.

Lemma ldk_keys (seed kid : list Z) (master : Xpriv) :
  0 <= slice_to_be64 kid < 2 ^ 31 -> exists k, channel_keys_ldk (E:=E) seed kid master = Ok k.
Proof.
  intros Hid. unfold channel_keys_ldk. cbv zeta. destruct (Z.leb_spec (slice_to_be64 kid) (2 ^ 32 - 1)); [|lia].
  cbn [rassert mbind res_bind]. destruct (hardened_child (E:=E) master 3) as [cm ->]; [lia|]. cbn [mbind res_bind].
  destruct (hardened_child (E:=E) cm (slice_to_be64 kid)) as [child ->]; [lia|]. cbn [mbind res_bind].
  repeat match goal with
  | |- context [key_step ?seed ?prev ?info] => destruct (key_step_key (E:=E) seed prev info) as [? ->]; cbn [mbind res_bind]
  end. by eexists.
Qed.

Lemma channel_keys_available (m : MyKeysManager) (id : ChannelId) :
  m.(km_style) <> Lnd ->
  exists kid keys, keys_id (E:=E) m.(km_style) id m.(km_channel_seed_base) = Ok kid /\
    signer_of m m.(km_lnd_basepoint_index) kid = Ok keys.
Proof.
  intros Hs. unfold keys_id. destruct (hkdf_bytes (E:=E) m.(km_channel_seed_base) (text_bytes "per-peer seed") id) as (r & -> & Hl & Hb).
  cbn [mbind res_bind]. unfold signer_of, channel_keys. destruct (km_style m); [| |done].
  - eexists. destruct (native_keys r) as [k Hk]. eexists. split; [reflexivity|]. by rewrite Hk.
  - eexists. destruct (ldk_keys m.(km_seed) _ m.(km_master_key) (ldk_index_bounded r Hl Hb)) as [k Hk].
    eexists. split; [reflexivity|]. by rewrite Hk.
Qed.

Definition random_input (m : MyKeysManager) (child : Xpriv) : list Z :=
  m.(km_rand_bytes_unique_start) ++ key_bytes (xpriv_secret child) ++ text_bytes "Unique Secure Random Bytes Salt".

Lemma random_bytes_run (m : MyKeysManager) :
  get_secure_random_bytes (E:=E) m =
  (with_indices m m.(km_channel_id_child_index) ((m.(km_rand_bytes_child_index) + 1) mod 2 ^ 64) m.(km_lnd_basepoint_index),
   child ← hardened m.(km_rand_bytes_master_key) (m.(km_rand_bytes_child_index) mod 2 ^ 32);
   Ok (sha256_hash (random_input m child))).
Proof. unfold get_secure_random_bytes. rewrite get_bind. cbv zeta. rewrite set_bind. by destruct (hardened _ _). Qed.

Lemma new_manager (style : KeyDerivationStyle) (seed : list Z) (network : Network) (secs nanos : Z) (m : MyKeysManager) :
  MyKeysManager_new (E:=E) style seed network secs nanos = Ok m ->
  m.(km_style) = style /\ m.(km_lnd_basepoint_index) = 0 /\ m.(km_rand_bytes_child_index) = 1 /\
  m.(km_rand_bytes_unique_start) = Redb.to_be_bytes 8 secs ++ Redb.to_be_bytes 4 nanos ++ seed.
Proof.
  unfold MyKeysManager_new. intros Hm. repeat (first [apply bind_Ok in Hm as ([? ?] & _ & Hm)|apply bind_Ok in Hm as (? & _ & Hm)]).
  rewrite random_bytes_run in Hm. cbv beta iota zeta in Hm. apply bind_Ok in Hm as (? & _ & Hm). by injection Hm as <-.
Qed.

Lemma new_managers_agree (style : KeyDerivationStyle) (seed : list Z) (network : Network) (s1 n1 s2 n2 : Z) (m1 m2 : MyKeysManager) :
  MyKeysManager_new (E:=E) style seed network s1 n1 = Ok m1 ->
  MyKeysManager_new (E:=E) style seed network s2 n2 = Ok m2 -> same_node m1 m2.
Proof.
  unfold MyKeysManager_new. intros Ha Hb.
  repeat match type of Ha with
  | mbind _ ?r = _ => destruct r as [[??]| |] || destruct r as [?| |]; [|done..]; cbn [mbind res_bind] in Ha, Hb; cbv beta zeta in Ha, Hb
  end.
  rewrite random_bytes_run in Ha, Hb. cbv beta iota zeta in Ha, Hb. cbn [km_rand_bytes_master_key km_rand_bytes_child_index] in Ha, Hb.
  destruct (hardened _ _); [|done..]. cbn [mbind res_bind] in Ha, Hb. injection Ha as <-. injection Hb as <-. done.
Qed.

(** *** Histories *)

(** The calls that change a manager. *)
Inductive keys_call :=
| CallRandomBytes
| CallChannelId
| CallKeysWithId (channel_id : ChannelId)
| CallKeysWithKeysId (kid : list Z).

Definition keys_after (m : MyKeysManager) (c : keys_call) : MyKeysManager :=
  match c with
  | CallRandomBytes => (get_secure_random_bytes (E:=E) m).1
  | CallChannelId => (get_channel_id (E:=E) m).1
  | CallKeysWithId channel_id => (get_channel_keys_with_id (E:=E) channel_id m).1
  | CallKeysWithKeysId kid => (get_channel_keys_with_keys_id (E:=E) kid m).1
  end.

Definition manager_after (calls : list keys_call) (m : MyKeysManager) : MyKeysManager := fold_left keys_after calls m.

Definition draws (calls : list keys_call) : Z :=
  zsum ((fun c => match c with CallRandomBytes => 1 | _ => 0 end) <$> calls).

Lemma keys_after_spec (m : MyKeysManager) (c : keys_call) :
  same_keys m (keys_after m c) /\
  (keys_after m c).(km_rand_bytes_child_index) =
    match c with CallRandomBytes => (m.(km_rand_bytes_child_index) + 1) mod 2 ^ 64 | _ => m.(km_rand_bytes_child_index) end.
Proof.
  destruct c; cbn [keys_after].
  - rewrite random_bytes_run. split; [by eexists _, _, _|done].
  - assert (Hinc : increment_channel_id_child_index (E:=E) m =
      (with_indices m ((m.(km_channel_id_child_index) + 1) mod 2 ^ 64) m.(km_rand_bytes_child_index) m.(km_lnd_basepoint_index),
       Ok m.(km_channel_id_child_index))) by reflexivity.
    assert (Hrun : exists r, get_channel_id (E:=E) m =
      (with_indices m ((m.(km_channel_id_child_index) + 1) mod 2 ^ 64) m.(km_rand_bytes_child_index) m.(km_lnd_basepoint_index), r)).
    { unfold get_channel_id. rewrite get_bind. rewrite (run_bind _ _ _ _ _ Hinc).
      unfold mbind, method_bind, call. destruct (hardened _ _); by eexists. }
    destruct Hrun as [r ->]. split; [by eexists _, _, _|done].
  - rewrite keys_with_id_run. destruct (keys_id _ _ _); [rewrite keys_with_keys_id_run|..];
      (split; [first [apply same_keys_refl|by eexists _, _, _]|done]).
  - rewrite keys_with_keys_id_run. split; [by eexists _, _, _|done].
Qed.

Lemma manager_after_same (calls : list keys_call) (m : MyKeysManager) : same_keys m (manager_after calls m).
Proof.
  revert m. induction calls as [|c calls IH]; intros m; [apply same_keys_refl|].
  eapply same_keys_trans; [|apply IH]. apply keys_after_spec.
Qed.

Lemma draws_nonneg (calls : list keys_call) : 0 <= draws calls.
Proof. induction calls as [|[] calls IH]; [done|..]; unfold draws, zsum in *; cbn [fmap list_fmap foldr] in *; lia. Qed.

Lemma manager_after_draws (calls : list keys_call) (m : MyKeysManager) :
  0 <= m.(km_rand_bytes_child_index) -> m.(km_rand_bytes_child_index) + draws calls < 2 ^ 64 ->
  (manager_after calls m).(km_rand_bytes_child_index) = m.(km_rand_bytes_child_index) + draws calls.
Proof.
  revert m. induction calls as [|c calls IH]; intros m Hpos Hlt; [unfold draws, zsum; cbn; lia|].
  assert (Hd := draws_nonneg calls). destruct (keys_after_spec m c) as [_ Hix].
  assert (Hc : draws (c :: calls) = match c with CallRandomBytes => 1 | _ => 0 end + draws calls) by done.
  rewrite Hc in Hlt |- *. change (manager_after (c :: calls) m) with (manager_after calls (keys_after m c)).
  destruct c; rewrite ?Z.mod_small in Hix by lia; rewrite IH; rewrite Hix; lia.
Qed.

Lemma same_keys_node (m m' : MyKeysManager) : same_keys m m' -> same_node m m'.
Proof. intros (i & j & k & ->). by unfold same_node. Qed.

Lemma same_node_keys (m m' : MyKeysManager) (id : ChannelId) :
  m.(km_style) <> Lnd -> same_node m m' ->
  exists keys, (get_channel_keys_with_id (E:=E) id m).2 = Ok keys /\ (get_channel_keys_with_id (E:=E) id m').2 = Ok keys.
Proof.
  intros Hs (He & Hst & Hn & Hm & Hb & _). destruct (channel_keys_available m id Hs) as (kid & keys & Hkid & Hkeys).
  exists keys. rewrite !keys_with_id_run, <- Hst, <- Hb, Hkid, !keys_with_keys_id_run. split; [exact Hkeys|].
  rewrite <- Hkeys, (signer_of_index m _ m'.(km_lnd_basepoint_index)) by done. cbn [snd]. unfold signer_of. by rewrite He, Hst, Hn, Hm.
Qed.
End Managers.

(** ** Spending *)
Section Spending.
Context `{Profile} `{BitcoinLib} `{LightningLib} `{SecpSign} `{KeyLaws} `{TxEncoding}.
Context (static_witness_length : StaticPaymentOutputDescriptor -> Z) (delayed_witness_length : Z).
Context (fuel : nat) (rand : nat -> nat -> list Z).

(** The witness of an input is made with the keys of the descriptor's channel. *)
Definition own_witness (m : MyKeysManager) (tx : Transaction) (i : nat) (d : SpendableOutputDescriptor) (w : list WitnessElement) : Prop :=
  match d with
  | StaticPaymentOutput kid desc =>
      exists s, signer_of (E:=unit) m 0 kid = Ok s /\ sign_counterparty_payment_input fuel s.1 tx i desc (rand i) = Ok w
  | DelayedPaymentOutput kid desc =>
      exists s, signer_of (E:=unit) m 0 kid = Ok s /\ sign_dynamic_p2wsh_input fuel s.1 tx i desc (rand i) = Ok w
  | StaticOutput _ o =>
      exists account key sighash,
        let ix := if o.(script_pubkey) =? m.(km_destination_script) then 1 else 2 in
        get_account_extended_key (E:=unit) m.(km_style) m.(km_network) m.(km_seed) = Ok account /\
        normal (E:=unit) account ix = Ok key /\
        (ix = 2 -> pubkey_of (xpriv_secret key) = m.(km_ldk_shutdown_pubkey)) /\
        p2wsh_signature_hash tx i (new_p2pkh (pubkey_of (xpriv_secret key))) o.(value) SighashAll = Some sighash /\
        w = [SigElement (secp_sign sighash (xpriv_secret key)) SighashAll; PubkeyElement (pubkey_of (xpriv_secret key))]
  end.

Lemma own_witness_same (m m' : MyKeysManager) tx i d w : same_keys m m' -> own_witness m' tx i d w -> own_witness m tx i d w.
Proof. by intros (a & b & c & ->). Qed.

Lemma same_keys_style (m m' : MyKeysManager) : same_keys m m' -> m'.(km_style) = m.(km_style).
Proof. by intros (a & b & c & ->). Qed.

Definition cache_ok (m : MyKeysManager) (cache : gmap (list Z) VlsChannelSigner) : Prop :=
  map_Forall (fun kid signer => exists s, signer_of (E:=unit) m 0 kid = Ok s /\ s.1 = signer) cache.

Lemma cached_keys_spec (m m' : MyKeysManager) cache kid cache' signer :
  m.(km_style) <> Lnd -> cache_ok m cache -> cached_keys cache kid m = (m', Ok (cache', signer)) ->
  same_keys m m' /\ cache_ok m' cache' /\ exists s, signer_of (E:=unit) m 0 kid = Ok s /\ s.1 = signer.
Proof.
  intros Hs Hc. unfold cached_keys. destruct (cache !! kid) as [sg|] eqn:Hk; intros Hrun.
  - injection Hrun as <- <- <-. split_and!; [apply same_keys_refl|done|]. exact (Hc _ _ Hk).
  - apply method_Ok in Hrun as (m1 & sg & Hd & Hrun). injection Hrun as <- <- <-.
    unfold derive_channel_keys in Hd. apply method_Ok in Hd as (m2 & s & Hg & Hd). injection Hd as <- <-.
    rewrite keys_with_keys_id_run in Hg. injection Hg as <- Hg. rewrite (signer_of_index m _ 0) in Hg by done.
    split_and!; [by eexists _, _, _| |by exists s].
    apply map_Forall_insert_2; [by exists s|exact Hc].
Qed.

Lemma static_output_spec (m m' : MyKeysManager) tx i outpoint o w :
  sign_static_output tx i o m = (m', Ok w) -> m' = m /\ own_witness m tx i (StaticOutput outpoint o) w.
Proof.
  unfold sign_static_output. intros Hrun. run_get Hrun. cbv zeta in Hrun.
  run_step Hrun account Ea; [|done]. run_step Hrun sk Ek; [|done]. run_step Hrun u Eu; [|done].
  run_step Hrun sighash Es; [|done]. injection Hrun as <- <-. split; [done|]. exists account, sk, sighash. cbv zeta.
  split_and!; [done|done| |by destruct (p2wsh_signature_hash _ _ _ _ _); simplify_eq/=|done].
  intros Hix. rewrite Hix in Eu. cbn [Z.eqb Pos.eqb negb orb] in Eu. 
  by destruct (Z.eqb_spec (pubkey_of (xpriv_secret sk)) m.(km_ldk_shutdown_pubkey)).
Qed.

Lemma accepted_spec {A : Type} (r : res unit A) (m m' : MyKeysManager) (a : A) :
  accepted_by r m = (m', Ok a) -> m' = m /\ r = Ok a.
Proof. unfold accepted_by, call. by destruct r; intros; simplify_eq. Qed.

Lemma sign_spendable_spec (tx : Transaction) (descriptors : list SpendableOutputDescriptor) (m m' : MyKeysManager) cache i ws :
  m.(km_style) <> Lnd -> cache_ok m cache ->
  sign_spendable fuel rand tx i cache descriptors m = (m', Ok ws) ->
  same_keys m m' /\ length ws = length descriptors /\
  forall j d w, descriptors !! j = Some d -> ws !! j = Some w -> own_witness m tx (i + j) d w.
Proof.
  revert m cache i ws. induction descriptors as [|d ds IH]; intros m cache i ws Hs Hc Hrun.
  { injection Hrun as <- <-. split_and!; [apply same_keys_refl|done|]. by intros j d w Hj. }
  cbn [sign_spendable] in Hrun. apply method_Ok in Hrun as (m1 & [cache' w] & Hd & Hrun).
  apply method_Ok in Hrun as (m2 & ws' & Hrest & Hrun). injection Hrun as <- <-.
  assert (same_keys m m1 /\ cache_ok m1 cache' /\ own_witness m tx i d w) as (Hsk & Hc' & Hw).
  { destruct d as [kid desc|kid desc|outpoint o].
    1,2: apply method_Ok in Hd as (m3 & [c sg] & Hk & Hd); apply method_Ok in Hd as (m4 & w' & Hw & Hd);
      injection Hd as <- <- <-; apply accepted_spec in Hw as [-> Hw];
      apply cached_keys_spec in Hk as (Hsk & Hc' & s & Hs' & <-); [|done..]; split_and!; [done|done|by exists s].
    apply method_Ok in Hd as (m4 & w' & Hw & Hd). injection Hd as <- <- <-.
    apply (static_output_spec _ _ _ _ outpoint) in Hw as [-> Hw]. split_and!; [apply same_keys_refl|done|done]. }
  apply IH in Hrest as (Hsk' & Hl & Hrest); [|by rewrite (same_keys_style m)|done].
  split_and!; [by eapply same_keys_trans|cbn; lia|].
  intros [|j] d' w' Hj Hw'; cbn in Hj, Hw'; simplify_eq; [by rewrite Nat.add_0_r|].
  rewrite Nat.add_succ_r. eapply own_witness_same; [done|]. by apply Hrest.
Qed.

Lemma spendables_unique (descriptors : list SpendableOutputDescriptor) v w set v' w' set' :
  fold_res (add_spendable static_witness_length delayed_witness_length) (v, w, set) descriptors = Ok (v', w', set') ->
  NoDup set -> NoDup (reverse (spend_outpoint <$> descriptors) ++ set) /\ v' = v + zsum ((fun d => (spend_output d).(value)) <$> descriptors).
Proof.
  revert v w set. induction descriptors as [|d ds IH]; intros v w set Hrun Hnd.
  { injection Hrun as <- <- <-. split; [done|unfold zsum; cbn; lia]. }
  cbn [fold_res] in Hrun. apply bind_Ok in Hrun as ([[v1 w1] set1] & Hd & Hrun). unfold add_spendable in Hd.
  apply bind_Ok in Hd as (w2 & _ & Hd). apply bind_Ok in Hd as (v2 & Hv & Hd).
  case_bool_decide as Hin; [done|]. destruct (_ <? v2); [done|]. injection Hd as <- <- <-.
  assert (v2 = v + (spend_output d).(value)) as ->.
  { unfold checked_add, checked in Hv. destruct (in_range _ _); [|done]. by injection Hv as <-. }
  apply IH in Hrun as [Hn ->]; [|by constructor]. rewrite fmap_cons, reverse_cons, <- app_assoc. split; [done|].
  rewrite fmap_cons. unfold zsum. cbn [foldr]. lia.
Qed.
End Spending.

(** ** Properties *)

(** C21: With the native and the LDK styles, the keys of a channel depend on the seed, the
    network and the channel id alone.  Two managers made from one seed, at any times
    and after any calls, agree on the node's secrets and give the same keys for
    every channel; and they do give keys, also where the LDK style reads an index from
    the channel's identifier.  So a signer that is restarted finds its channels' keys. *)
Theorem keys_survive_restart `{KeyLaws} (E : Type) (style : KeyDerivationStyle) (seed : list Z) (network : Network)
    (secs1 nanos1 secs2 nanos2 : Z) (m1 m2 : MyKeysManager) (calls1 calls2 : list keys_call) (channel_id : ChannelId) :
  style <> Lnd ->
  MyKeysManager_new (E:=E) style seed network secs1 nanos1 = Ok m1 ->
  MyKeysManager_new (E:=E) style seed network secs2 nanos2 = Ok m2 ->
  let m1' := manager_after (E:=E) calls1 m1 in
  let m2' := manager_after (E:=E) calls2 m2 in
  same_node m1' m2' /\
  exists keys, (get_channel_keys_with_id (E:=E) channel_id m1').2 = Ok keys /\
    (get_channel_keys_with_id (E:=E) channel_id m2').2 = Ok keys.
Proof.
  intros Hs Hm1 Hm2 m1' m2'. destruct (new_manager _ _ _ _ _ _ Hm1) as (Hst & _).
  assert (Hn1 := manager_after_same (E:=E) calls1 m1). assert (Hn2 := manager_after_same (E:=E) calls2 m2).
  assert (Hn := new_managers_agree _ _ _ _ _ _ _ _ _ Hm1 Hm2).
  assert (same_node m1' m2') as Hsame.
  { destruct Hn1 as (? & ? & ? & Hn1), Hn2 as (? & ? & ? & Hn2). unfold m1', m2'. by rewrite Hn1, Hn2. }
  split; [exact Hsame|]. apply same_node_keys; [|exact Hsame]. unfold m1'. by rewrite (same_keys_style m1), Hst.
Qed.

(** C38: With the LND style the keys of a channel are those of a counter that starts at zero
    with the process: the first channel that a manager is asked for gets the same
    keys whichever channel it is.  A signer that is restarted and asked for its
    channels in another order gives a channel the keys of another one. *)
Theorem lnd_keys_follow_order `{KeyLaws} (E : Type) (seed : list Z) (network : Network)
    (secs1 nanos1 secs2 nanos2 : Z) (m1 m2 : MyKeysManager) (a b : ChannelId) (ka kb : VlsChannelSigner * SecretKey) :
  MyKeysManager_new (E:=E) Lnd seed network secs1 nanos1 = Ok m1 ->
  MyKeysManager_new (E:=E) Lnd seed network secs2 nanos2 = Ok m2 ->
  (get_channel_keys_with_id (E:=E) a m1).2 = Ok ka ->
  (get_channel_keys_with_id (E:=E) b m2).2 = Ok kb ->
  ka.1.(funding_key) = kb.1.(funding_key) /\ ka.1.(revocation_base_key) = kb.1.(revocation_base_key) /\
  ka.1.(payment_key) = kb.1.(payment_key) /\ ka.1.(delayed_payment_base_key) = kb.1.(delayed_payment_base_key) /\
  ka.1.(htlc_base_key) = kb.1.(htlc_base_key).
Proof.
  intros Hm1 Hm2. destruct (new_manager _ _ _ _ _ _ Hm1) as (Hs1 & Hi1 & _). destruct (new_manager _ _ _ _ _ _ Hm2) as (Hs2 & Hi2 & _).
  destruct (new_managers_agree _ _ _ _ _ _ _ _ _ Hm1 Hm2) as (He & _ & Hn & Hk & _). rewrite !keys_with_id_run.
  destruct (keys_id _ a _) as [kid1| |]; [|done..]. destruct (keys_id _ b _) as [kid2| |]; [|done..].
  rewrite !keys_with_keys_id_run. cbn [snd]. unfold signer_of, channel_keys. rewrite Hs1, Hs2, Hi1, Hi2, <- Hn, <- Hk.
  intros Ha Hb. apply bind_Ok in Ha as (k1 & Hk1 & Ha). apply bind_Ok in Hb as (k2 & Hk2 & Hb). injection Ha as <-. injection Hb as <-.
  unfold channel_keys_lnd in Hk1, Hk2. apply bind_Ok in Hk1 as (buf1 & _ & Hk1). apply bind_Ok in Hk2 as (buf2 & _ & Hk2).
  repeat match type of Hk1 with
  | mbind _ ?r = _ => destruct r as [[??]| |]; [|done..]; cbn [mbind res_bind] in Hk1, Hk2
  end. injection Hk1 as <-. by injection Hk2 as <-.
Qed.

(** C33: A new manager gives random bytes 2^31 - 1 times, whatever else it is asked, each
    time from the next child of its master key and so never from the same child
    twice.  After that the key space is exhausted and the call panics. *)
Theorem random_bytes_bounded `{KeyLaws} (E : Type) (style : KeyDerivationStyle) (seed : list Z) (network : Network)
    (secs nanos : Z) (m : MyKeysManager) (calls : list keys_call) :
  MyKeysManager_new (E:=E) style seed network secs nanos = Ok m ->
  draws calls < 2 ^ 32 - 1 ->
  let bytes := (get_secure_random_bytes (E:=E) (manager_after (E:=E) calls m)).2 in
  let i := 1 + draws calls in
  if i <? 2 ^ 31
  then exists child, hardened (E:=E) m.(km_rand_bytes_master_key) i = Ok child /\ bytes = Ok (sha256_hash (random_input m child))
  else bytes = Panic.
Proof.
  intros Hm Hlt. cbv zeta. destruct (new_manager _ _ _ _ _ _ Hm) as (_ & _ & Hix & _).
  assert (Hd := draws_nonneg calls). rewrite random_bytes_run. cbn [snd].
  rewrite manager_after_draws, Hix by lia. rewrite (Z.mod_small (1 + draws calls)) by lia.
  destruct (manager_after_same (E:=E) calls m) as (? & ? & ? & ->). cbn [km_rand_bytes_master_key with_indices].
  destruct (Z.ltb_spec (1 + draws calls) (2 ^ 31)).
  - destruct (hardened_child (E:=E) m.(km_rand_bytes_master_key) (1 + draws calls)) as [child Hc]; [lia|].
    exists child. rewrite Hc. done.
  - by rewrite hardened_exhausted by lia.
Qed.

(** Managers that were started at different times never hash the same input for their
    random bytes, also with one seed. *)
Theorem random_inputs_fresh `{KeyLaws} (E : Type) (style : KeyDerivationStyle) (seed : list Z) (network : Network)
    (secs1 nanos1 secs2 nanos2 : Z) (m1 m2 : MyKeysManager) (child1 child2 : Xpriv) :
  u64 secs1 -> u64 secs2 -> u32 nanos1 -> u32 nanos2 -> (secs1, nanos1) <> (secs2, nanos2) ->
  MyKeysManager_new (E:=E) style seed network secs1 nanos1 = Ok m1 ->
  MyKeysManager_new (E:=E) style seed network secs2 nanos2 = Ok m2 ->
  random_input m1 child1 <> random_input m2 child2.
Proof.
  intros Hs1 Hs2 Hn1 Hn2 Hne Hm1 Hm2 Heq. apply Hne. destruct (new_manager _ _ _ _ _ _ Hm1) as (_ & _ & _ & Hu1).
  destruct (new_manager _ _ _ _ _ _ Hm2) as (_ & _ & _ & Hu2). unfold random_input in Heq. rewrite Hu1, Hu2, <- !app_assoc in Heq.
  apply app_inj_1 in Heq as [Hs Heq]; [|by rewrite !length_be_bytes]. apply app_inj_1 in Heq as [Hn _]; [|by rewrite !length_be_bytes].
  f_equal; eapply (be_bytes_inj _); [| |exact Hs| | |exact Hn]; unfold uint in *; lia.
Qed.

(** C22: With the native and the LDK styles, a spend that returns spends the outputs it was
    asked for, each once and in their order; pays the outputs it was asked for and at
    most one more, to the change script; and signs every input with the keys of
    the channel of that output, or of the wallet for an output of the wallet, also
    when keys are taken from the cache. *)
Theorem spends_own_outputs `{Profile} `{LightningLib} `{SecpSign} `{KeyLaws} `{TxEncoding}
    (static_witness_length : StaticPaymentOutputDescriptor -> Z) (delayed_witness_length : Z) (fuel : nat)
    (rand : nat -> nat -> list Z) (descriptors : list SpendableOutputDescriptor) (outputs : list TxOut)
    (change_script : ScriptBuf) (rate : Z) (m m' : MyKeysManager) (tx : SignedTx) :
  m.(km_style) <> Lnd ->
  spend_spendable_outputs static_witness_length delayed_witness_length fuel rand descriptors outputs change_script rate m
    = (m', Ok tx) ->
  same_keys m m' /\
  previous_output <$> tx.(st_tx).(input) = spend_outpoint <$> descriptors /\ NoDup (spend_outpoint <$> descriptors) /\
  (exists change, tx.(st_tx).(output) = outputs ++ change /\ (change = [] \/ exists c, change = [mkTxOut c change_script])) /\
  length tx.(st_witnesses) = length descriptors /\
  (forall i d, descriptors !! i = Some d ->
     exists w, tx.(st_witnesses) !! i = Some (ChannelStack w) /\ own_witness fuel rand m tx.(st_tx) i d w).
Proof.
  intros Hs Hrun. unfold spend_spendable_outputs in Hrun. run_step Hrun stx Etx; [|done].
  apply method_Ok in Hrun as (m1 & ws & Hsign & Hrun). injection Hrun as <- <-. cbn [st_tx st_witnesses].
  apply sign_spendable_spec in Hsign as (Hsk & Hl & Hw); [|done|apply map_Forall_empty].
  unfold spending_transaction in Etx. apply bind_Ok in Etx as ([[v wt] set] & Hfold & Etx).
  apply spendables_unique in Hfold as [Hnd _]; [|constructor]. rewrite app_nil_r in Hnd. rewrite reverse_Permutation in Hnd.
  assert (stx.(st_tx).(input) = (fun d => mkTxIn (spend_outpoint d) (spend_sequence d)) <$> descriptors /\
    exists change, stx.(st_tx).(output) = outputs ++ change /\ (change = [] \/ exists c, change = [mkTxOut c change_script])) as [Hin Hout].
  { apply change_shape in Etx as [->|[c ->]]; (split; [done|]).
    - exists []. rewrite app_nil_r. by split; [|left].
    - eexists. split; [reflexivity|]. right. by eexists. }
  rewrite Hin. split_and!; [done| |done|done|by rewrite length_fmap|].
  - rewrite <- list_fmap_compose. by apply list_fmap_ext.
  - intros i d Hd. destruct (lookup_lt_is_Some_2 ws i) as [w Hw'].
    { rewrite Hl. by eapply lookup_lt_Some. }
    exists w. split; [by rewrite list_lookup_fmap, Hw'|]. by apply (Hw i d w).
Qed.

(** ** Witnesses *)
Section KeySamples.
#[local] Instance key_profile : Profile := release_profile.
#[local] Instance key_hmac : HmacSha256 := fun key data =>
  replicate 32 (zsum (imap (fun i b => (Z.of_nat i + 1) * b) (key ++ data)) mod 251).
#[local] Instance key_encoding : TxEncoding := {|
  signed_weight _ := 700; txout_len _ := 31; varint_size _ := 1; minimal_non_dust _ := 294 |}.
#[local] Existing Instance sample_utils.
#[local] Existing Instance sample_utils_lightning.
#[local] Existing Instance sample_signing.
#[local] Existing Instance sample_bitcoin.

(** A key is its path. *)
#[local] Instance key_packages : KeyPackages := {|
  Xpriv := list Z;
  new_master _ seed := Some [zsum seed];
  derive_priv x c := Some (c :: x);
  xpriv_secret x := zsum (imap (fun i c => (Z.of_nat i + 1) * c) x);
  from_hardened_idx i := if i <? 2 ^ 31 then Some (i + 2 ^ 31) else None;
  from_normal_idx i := if i <? 2 ^ 31 then Some i else None;
  scalar_from_be_bytes l := Some (zsum l);
  add_tweak k t := Some (k + t);
  mul_tweak k t := Some (k * t);
  diffie_hellman p k := [p + k];
  sha256d_hash l := l;
  sign_schnorr l k := zsum l + k;
  sign_ecdsa_digest l k := zsum l + k;
  sign_ecdsa_recoverable l k := zsum l + k
|}.

#[local] Instance key_laws : KeyLaws.
Proof.
  split.
  - intros k d. apply length_replicate.
  - intros k d. apply Forall_replicate. unfold hmac_sha256. pose proof (Z.mod_pos_bound (zsum (imap (fun i b => (Z.of_nat i + 1) * b) (k ++ d))) 251). lia.
  - by eexists.
  - by eexists.
  - by eexists.
  - intros i Hi. unfold from_hardened_idx, key_packages. destruct (Z.ltb_spec i (2 ^ 31)) as [Hlt|Hge].
    + split; [done|]. intros _. by eexists.
    + split; [by intros [? ?]|lia].
Qed.

Definition no_manager : MyKeysManager :=
  mkMyKeysManager [] Native Bitcoin [] 0 0 0 [] [] [] 0 0 [] 0 [] 0 [] 0 [].
Definition sample_manager (style : KeyDerivationStyle) (secs : Z) : MyKeysManager :=
  match MyKeysManager_new (E:=unit) style [1; 2; 3] Testnet secs 5 with Ok m => m | _ => no_manager end.

Lemma sample_manager_made (style : KeyDerivationStyle) (secs : Z) :
  MyKeysManager_new (E:=unit) style [1; 2; 3] Testnet secs 5 = Ok (sample_manager style secs).
Proof. by destruct style. Qed.

Lemma keys_survive_restart_witness :
  let m1 := manager_after (E:=unit) [CallKeysWithId [9]; CallRandomBytes] (sample_manager Ldk 100) in
  let m2 := manager_after (E:=unit) [CallChannelId] (sample_manager Ldk 200) in
  same_node m1 m2 /\
  exists keys, (get_channel_keys_with_id (E:=unit) [7] m1).2 = Ok keys /\ (get_channel_keys_with_id (E:=unit) [7] m2).2 = Ok keys.
Proof.
  exact (keys_survive_restart unit Ldk [1; 2; 3] Testnet 100 5 200 5 (sample_manager Ldk 100) (sample_manager Ldk 200)
           [CallKeysWithId [9]; CallRandomBytes] [CallChannelId] [7] ltac:(discriminate)
           (sample_manager_made Ldk 100) (sample_manager_made Ldk 200)).
Defined.

Definition lnd_keys (secs : Z) (id : ChannelId) : VlsChannelSigner * SecretKey :=
  match (get_channel_keys_with_id (E:=unit) id (sample_manager Lnd secs)).2 with
  | Ok k => k
  | _ => (VlsChannelSigner_new 0 0 0 0 0 [] [], 0)
  end.

Lemma lnd_keys_follow_order_witness :
  (lnd_keys 100 [7]).1.(commitment_seed) <> (lnd_keys 200 [9]).1.(commitment_seed) /\
  (lnd_keys 100 [7]).1.(funding_key) = (lnd_keys 200 [9]).1.(funding_key).
Proof.
  split; [by vm_compute|].
  exact (proj1 (lnd_keys_follow_order unit [1; 2; 3] Testnet 100 5 200 5 (sample_manager Lnd 100) (sample_manager Lnd 200) [7] [9]
    (lnd_keys 100 [7]) (lnd_keys 200 [9]) (sample_manager_made Lnd 100) (sample_manager_made Lnd 200)
    ltac:(vm_compute; reflexivity) ltac:(vm_compute; reflexivity))).
Defined.

Lemma random_bytes_bounded_witness :
  exists child, hardened (E:=unit) (sample_manager Native 100).(km_rand_bytes_master_key) 2 = Ok child /\
    (get_secure_random_bytes (E:=unit) (manager_after (E:=unit) [CallRandomBytes; CallChannelId] (sample_manager Native 100))).2
      = Ok (sha256_hash (random_input (sample_manager Native 100) child)).
Proof.
  exact (random_bytes_bounded unit Native [1; 2; 3] Testnet 100 5 (sample_manager Native 100) [CallRandomBytes; CallChannelId]
    (sample_manager_made Native 100) ltac:(vm_compute; reflexivity)).
Defined.

Lemma random_inputs_fresh_witness :
  random_input (sample_manager Native 100) [1] <> random_input (sample_manager Native 200) [1].
Proof.
  apply (random_inputs_fresh unit Native [1; 2; 3] Testnet 100 5 200 5); [unfold uint; lia..|done| |]; apply sample_manager_made.
Defined.

Definition sample_kid : list Z := replicate 32 3.
Definition sample_payment_key : SecretKey :=
  match signer_of (E:=unit) (sample_manager Native 100) 0 sample_kid with Ok s => s.2 | _ => 0 end.
Definition sample_spendables : list SpendableOutputDescriptor :=
  [StaticPaymentOutput sample_kid (mkStaticPaymentOutputDescriptor (mkOutPoint 1 0) (mkTxOut 5000 sample_payment_key) None);
   StaticOutput (mkOutPoint 2 0) (mkTxOut 9000 (sample_manager Native 100).(km_destination_script));
   StaticPaymentOutput sample_kid (mkStaticPaymentOutputDescriptor (mkOutPoint 3 0) (mkTxOut 6000 sample_payment_key) None)].
Definition sample_spend :=
  spend_spendable_outputs (fun _ => 100) 100 1 (fun _ _ => []) sample_spendables [mkTxOut 2000 8] 44 253 (sample_manager Native 100).
Definition sample_spent : SignedTx :=
  match sample_spend.2 with Ok tx => tx | _ => unsigned (mkTransaction 2 0 [] []) end.

Lemma sample_spend_made : sample_spend = (sample_spend.1, Ok sample_spent).
Proof. assert (Hspent : sample_spend.2 = Ok sample_spent) by (vm_compute; reflexivity). rewrite <- Hspent. apply surjective_pairing. Qed.

Lemma spends_own_outputs_witness :
  length sample_spent.(st_witnesses) = 3%nat /\
  exists w, sample_spent.(st_witnesses) !! 2%nat = Some (ChannelStack w) /\
    exists s, signer_of (E:=unit) (sample_manager Native 100) 0 sample_kid = Ok s /\
      sign_counterparty_payment_input 1 s.1 sample_spent.(st_tx) 2
        (mkStaticPaymentOutputDescriptor (mkOutPoint 3 0) (mkTxOut 6000 sample_payment_key) None) (fun _ => []) = Ok w.
Proof.
  destruct (spends_own_outputs (fun _ => 100) 100 1 (fun _ _ => []) sample_spendables [mkTxOut 2000 8] 44 253
    (sample_manager Native 100) sample_spend.1 sample_spent ltac:(discriminate) sample_spend_made) as (_ & _ & _ & _ & Hl & Hw).
  split; [exact Hl|]. exact (Hw 2%nat _ eq_refl).
Defined.
End KeySamples.
